(* ===== verification/_CoqProject ===== *)
-Q . S2P
Prelude.v
PyValue.v
PyFloat.v
StateIO.v
PolicyTypes.v
PolicyEngine.v
Regex.v
PyText.v
PolicyRules.v
PolicyHook.v
CodexPatch.v
WorkQueue.v
CostTracker.v
Metrics.v
SettingsMerge.v
Transcript.v
Rewind.v
Verdict.v
Supervisor.v
TurnEvidence.v
SearchIndex.v
SearchEngine.v
SearchStores.v
Overrides.v
Manifest.v
Effects.v
SessionFiles.v
SessionIndex.v
ActiveSessions.v
SessionEvents.v
StopReview.v
StreamConverter.v
StreamAdapter.v
MessageConverter.v
Diagnostics.v
Verification.v
