(* ===== verification/Prelude.v ===== *)
(** * Multi-Forge: a verification development

    Multi-Forge ([src/src/forge]) runs coding agents (Claude Code, Codex) inside managed
    sessions: it keeps session state on disk, checks every file action of an agent against
    policies, may hold an agent at Stop until its work verifies, defers work to a queue of
    markers, caps what a proxy spends, installs its hooks into the users' settings, and
    indexes transcripts for search. This library models the parts of that program that
    decide something or keep state that must survive, and proves what makes them correct.
    Paths below are under [src/src/forge].

    ** How the parts interact

    A hook process reads a session's manifest ([session/store.py], Manifest.v and
    SessionFiles.v), merges the user's overrides into the intent (Overrides.v) and then
    either evaluates policies on the action (PolicyTypes.v, PolicyEngine.v, PolicyRules.v,
    PolicyHook.v; Codex patches come through CodexPatch.v) or, at Stop, runs the
    verification check (Verification.v, printing through Diagnostics.v) and enqueues markers
    (WorkQueue.v). A Codex executor's turn has its own supervision: a prompt opens it, its
    tools are recorded, and at Stop a reviewer is asked about its changes (StopReview.v), on
    evidence taken from the checkout (TurnEvidence.v), and its answer judged (Verdict.v), with the allowance of one review kept in
    a journal (SessionEvents.v). Creating, launching, listing and deleting sessions goes through the global
    index (SessionIndex.v) and the registry of live launches (ActiveSessions.v). The queue's
    handlers publish transcripts (Transcript.v) to the search stores (SearchIndex.v,
    SearchStores.v), which the engine queries (SearchEngine.v). Rewinding a session writes a
    prefix of its transcript (Rewind.v), cut where the turns of Transcript.v end. The proxy checks its caps
    before each request (CostTracker.v), counts requests (Metrics.v), translates a client's
    messages for the model and the model's answer for the client (MessageConverter.v) and turns
    a model's event stream into the stream a client reads (StreamAdapter.v,
    StreamConverter.v). The installer merges hooks into settings files and takes them out again (SettingsMerge.v).

    ** The files

    Shared:
    - Prelude.v (this file): exceptions ([pyexn]: class and message), fallible code ([res]),
      insertion-ordered dicts as association lists ([dget], [dset], [ddel], [dupdate]),
      string functions on UTF-8 bytes, stable sorting, tactics, the hint databases
      [forge_dict] and [forge_rw], and [dict_equiv] with its [Proper] instances.
    - PyValue.v: decoded JSON values and Python's operators on them. PyFloat.v: binary64
      arithmetic, true division of ints, [round], [float] of text. PyText.v: strings as code
      points. Regex.v: regular expressions, with a matcher proved against the relation
      [matches]. StateIO.v: [core/state/io.py] and [versioned_store.py], what reading a file
      can meet.
    - Effects.v: computations over a shared store whose durable steps (locks, atomic writes,
      unlinks) may raise before or after taking effect or be the last before the process is
      killed; [wp] and its rules. SessionFiles.v, SessionIndex.v, ActiveSessions.v,
      Verification.v, SessionEvents.v and StopReview.v are written in it.

    Policies ([policy/], [cli/hooks/policy.py], [codex_policy.py], [codex_patch.py]):
    - PolicyTypes.v: decisions, contexts and their persisted form; PolicyEngine.v: gating,
      exceptions under the fail mode, resolver, composition, collected state, over policies
      that are objects of the class [PolicyOps]; PolicyRules.v: the five deterministic
      policies, their bundles and [build_engine]; PolicyHook.v: restoring, evaluating the
      files of one action, persisting; CodexPatch.v: the patch grammar and the contexts made
      of a patch. The engine refines a relational specification; the TDD rule is proved
      across whole sessions of actions, and end to end from the text of a Codex patch.

    Stop verification ([cli/hooks/verification.py]):
    - Diagnostics.v: what is printed is bounded, free of terminal controls and of configured
      secrets. Verification.v: when a Stop is blocked, that a check that cannot be made
      fails open visibly, and that the loop of blocked Stops ends.

    Stop review ([policy/semantic/], [session/events.py]):
    - Verdict.v: the text of a reviewer's answer becomes a decision; it denies only with
      support, and what is quoted as the plan is the plan. Supervisor.v: the reviewer as a policy
      of the engine, with its cache; what it allows silently has been reviewed. TurnEvidence.v:
      snapshots of the checkout and what two of them say; evidence called
      complete is, pending work is carried over without edits made in between, and pruning
      keeps what is referred to. SessionEvents.v: the review checkpoint survives every failure
      of an update; its store is the class [CheckpointStore]. StopReview.v: the operations of
      the hooks as steps of concurrent processes; a turn is reviewed once, and a correction is
      asked for only on fresh and complete evidence.

    Sessions ([session/]):
    - Overrides.v: the schema's paths, set, delete, merge; Manifest.v: validation,
      projection of old schemas, choice of the written version, [SessionStore.read];
      SessionFiles.v: names, compound keys, owner tokens and the operations of
      [SessionStore]; SessionIndex.v: [IndexStore]; ActiveSessions.v: [ActiveSessionStore],
      whose admission runs inside an index transaction; Rewind.v ([rewind.py]): the prefix
      holds whole turns and loses no tool result, and its report accounts for the dropped
      edits.

    Deferred work: WorkQueue.v ([core/workqueue/]): no marker is lost, the scan is fair,
    attempts are bounded.

    Search ([search/], [core/transcript.py], [cli/main.py], [cli/search.py]): Transcript.v,
    SearchIndex.v (the incremental index equals the rebuilt one), SearchEngine.v (scores and
    ranking, float by float), SearchStores.v (the four files and the operations across them).

    Proxy ([proxy/]): CostTracker.v ([cost_tracker.py]); Metrics.v ([metrics.py]);
    StreamAdapter.v ([client_adapter.py] and the generator in [server.py]) and
    StreamConverter.v ([converters.py]): every prefix of a stream follows the protocol, and a
    client shows exactly what the model said; MessageConverter.v ([converters.py],
    [client_adapter.py]): the model hears what the client said, calls are answered for the
    provider when they are for the client, an answer comes back unchanged in the history, the
    prompt's beginning stays, and a forced tool choice is kept or refused.

    Installation ([install/settings_merge.py]): SettingsMerge.v (uninstalling restores the
    user's settings).

    ** Conventions

    State is passed explicitly, or through the monad of Effects.v where failing steps
    matter; an operation is the whole function, early returns and error branches included. A
    Python dict is an association list in insertion order; where the code mutates a shared
    object the definition returns the object after the call, and where aliasing matters
    (turn grouping in Transcript.v, wildcard writes in Overrides.v) the model says which
    objects are the same. Integers are unbounded as in Python; floats are binary64.

    Fuel: [sub_from] and [replace_from] (Diagnostics.v) take one unit per character and are
    given the length plus one; [star_ends] and [repeat_ends] the length of the rest of the
    text; [glob_pieces] (MessageConverter.v) the pattern's length; every other recursion is structural.

    Arguments of the models, never axioms: the operating system's choices (faults, lock
    outcomes, other processes, clocks), [dacite], [json.dumps], [hashlib], [Path.resolve],
    [math.log], [datetime.fromisoformat], the Unicode database and [subprocess.run]. The checkout that
    [git] shows and the reviewer's answers are arguments too. Each
    theorem that needs a law of one of them states it as a hypothesis, and its witness
    instantiates it with a concrete function.

    ** Not modelled

    Command-line, status-line and terminal rendering; the FastAPI server and the model
    clients; process, container and git orchestration; the semantic and
    team policies' prompts and calls (the reviewer's answer is an argument of StopReview.v and
    Supervisor.v); model and credential catalogues; the
    telemetry ledger and log writers; the extension installer's file copying; session content
    (memory, handoffs, transfer). They are input and output, configuration data or glue
    around services. Within modelled parts, what is left out is said in the file's header:
    logging and timing warnings throughout, atomic-write internals, and the sidecar and
    docker probes. *)

From stdpp Require Export base gmap sets list strings pretty.
From stdpp Require Export sorting.
From Stdlib Require Export ZArith Lia Permutation.
From Stdlib Require Export Ascii.

Open Scope string_scope.
Open Scope Z_scope.
Open Scope list_scope.

(** ** Scope and notations *)

Declare Scope forge_scope.
Delimit Scope forge_scope with forge.
Open Scope forge_scope.

(** String concatenation, Python's [+] and f-strings on [str]. *)
Infix "+++" := String.append (at level 60, right associativity) : forge_scope.

(** ** Exceptions *)

(** The exception classes the modelled code raises, catches or lets escape. *)
Inductive exn_class :=
| TypeError
| ValueError
| KeyError
| IndexError
| AttributeError
| AssertionError
| ZeroDivisionError
| OverflowError
| OSError
| FileNotFoundError
| UnicodeDecodeError
| JSONDecodeError
| StateNotFoundError
| StateUnreadableError
| StateCorruptedError
| SchemaVersionError
| FileLockTimeoutError
| ForgeSessionError
| InvalidOverrideKeyError
| InvalidOverrideValueError
| InvalidSessionNameError
| SessionNotFoundError
| SessionExistsError
| SessionFileNotFoundError
| UuidAlreadyBoundError
| AmbiguousSessionError
| ManifestCorruptedError
| ManifestValidationError
| ManifestUnreadableError
| ManifestChangedError
| IndexCorruptedError
| IndexUnreadableError
| InvalidDerivedSessionOverridesError
| SettingsConflictError
| LaneError
| BM25IndexCorruptedError
| BM25IndexUnreadableError
| ContentStoreCorruptedError
| ContentStoreUnreadableError
| SearchDocumentStoreCorruptedError
| SearchDocumentStoreUnreadableError
| IndexStateCorruptedError
| IndexStateUnreadableError
| DaciteError
| SubprocessError
| RuntimeError
| RequestConversionError
| ValidationError
| KeyboardInterrupt
| HandlerError.

(** A raised exception: its class and [str(e)]. *)
Record pyexn := PyExn { exn_cls : exn_class; exn_msg : string }.

(** The outcome of Python code that may raise. *)
Inductive res (A : Type) :=
| Ok (a : A)
| Err (e : pyexn).
Arguments Ok {A} a.
Arguments Err {A} e.

Definition raise {A} (c : exn_class) (msg : string) : res A := Err (PyExn c msg).

#[export] Instance res_ret : MRet res := fun _ a => Ok a.
#[export] Instance res_bind : MBind res :=
  fun _ _ f m => match m with Ok a => f a | Err e => Err e end.
#[export] Instance res_fmap : FMap res :=
  fun _ _ f m => match m with Ok a => Ok (f a) | Err e => Err e end.

Definition is_ok {A} (r : res A) : bool := match r with Ok _ => true | Err _ => false end.

(** Run [f] on each element, left to right, stopping at the first exception. *)
Fixpoint mapM_res {A B} (f : A -> res B) (l : list A) : res (list B) :=
  match l with
  | [] => Ok []
  | x :: l => y ← f x; ys ← mapM_res f l; Ok (y :: ys)
  end.

(** A [for] loop that threads a state and may raise. *)
Fixpoint foldM_res {A S} (f : S -> A -> res S) (s : S) (l : list A) : res S :=
  match l with
  | [] => Ok s
  | x :: l => s' ← f s x; foldM_res f s' l
  end.

(** ** Insertion-ordered dictionaries *)

(** A Python [dict] with string keys: the items in insertion order. *)
Fixpoint dget {V} (k : string) (d : list (string * V)) : option V :=
  match d with
  | [] => None
  | (k', v) :: d => if decide (k = k') then Some v else dget k d
  end.

(** [d[k] = v]: in place when [k] is present, appended otherwise. *)
Fixpoint dset {V} (k : string) (v : V) (d : list (string * V)) : list (string * V) :=
  match d with
  | [] => [(k, v)]
  | (k', v') :: d => if decide (k = k') then (k', v) :: d else (k', v') :: dset k v d
  end.

(** [del d[k]] for a key that is present, [d.pop(k, None)] otherwise. *)
Fixpoint ddel {V} (k : string) (d : list (string * V)) : list (string * V) :=
  match d with
  | [] => []
  | (k', v') :: d => if decide (k = k') then d else (k', v') :: ddel k d
  end.

(** [k in d]. *)
Definition dhas {V} (k : string) (d : list (string * V)) : bool :=
  match dget k d with Some _ => true | None => false end.

Definition dkeys {V} (d : list (string * V)) : list string := d.*1.

(** [d.get(k, x)]. *)
Definition dget_default {V} (k : string) (x : V) (d : list (string * V)) : V :=
  match dget k d with Some v => v | None => x end.

(** [d.update(e)]. *)
Definition dupdate {V} (d e : list (string * V)) : list (string * V) :=
  fold_left (fun d '(k, v) => dset k v d) e d.

(** Two dicts with the same lookups: [==] on dicts, insertion order forgotten. *)
Definition dict_equiv {V} (d e : list (string * V)) : Prop := forall k, dget k d = dget k e.

(** ** String helpers *)

Fixpoint str_list (s : string) : list ascii :=
  match s with EmptyString => [] | String c s => c :: str_list s end.

Fixpoint list_str (l : list ascii) : string :=
  match l with [] => EmptyString | c :: l => String c (list_str l) end.

(** [s.startswith(p)]. *)
Definition startswith (p s : string) : bool := String.prefix p s.

(** [p in s] for strings. *)
Fixpoint contains (p s : string) : bool :=
  String.prefix p s || match s with EmptyString => false | String _ s => contains p s end.

(** [s.endswith(p)]. *)
Fixpoint endswith (p s : string) : bool :=
  String.eqb p s || match s with EmptyString => false | String _ s => endswith p s end.

(** The part of [s] after a prefix of length [n]. *)
Fixpoint str_drop (n : nat) (s : string) : string :=
  match n, s with
  | O, _ => s
  | S n, String _ s => str_drop n s
  | S _, EmptyString => EmptyString
  end.

(** [s.split(c)] for a one-character separator. *)
Fixpoint split_on (c : ascii) (s : string) : list string :=
  match s with
  | EmptyString => [EmptyString]
  | String c' s =>
      if decide (c = c') then EmptyString :: split_on c s
      else match split_on c s with
           | [] => [String c' EmptyString]
           | w :: ws => String c' w :: ws
           end
  end.

(** [s.split(c, 1)]: the text before the first [c] and, when there is one, the text after it. *)
Fixpoint split_once (c : ascii) (s : string) : string * option string :=
  match s with
  | EmptyString => (EmptyString, None)
  | String c' s =>
      if decide (c = c') then (EmptyString, Some s)
      else let '(a, b) := split_once c s in (String c' a, b)
  end.

(** [sep.join(l)]. *)
Fixpoint str_join (sep : string) (l : list string) : string :=
  match l with
  | [] => EmptyString
  | [s] => s
  | s :: l => s +++ sep +++ str_join sep l
  end.

(** [s.replace(a, b)] for single characters. *)
Fixpoint str_replace_char (a b : ascii) (s : string) : string :=
  match s with
  | EmptyString => EmptyString
  | String c s => String (if decide (a = c) then b else c) (str_replace_char a b s)
  end.

(** [n] is a UTF-8 continuation byte. A [str] is represented by its UTF-8 bytes. *)
Definition is_cont (c : ascii) : bool :=
  let n := Z.of_nat (nat_of_ascii c) in (128 <=? n) && (n <? 192).

(** [list(s)]: the characters of [s], each one a string. *)
Fixpoint utf8_chars (s : string) : list string :=
  match s with
  | EmptyString => []
  | String c s =>
      match s with
      | String c' _ =>
          if is_cont c' then
            match utf8_chars s with
            | w :: ws => String c w :: ws
            | [] => [String c EmptyString]
            end
          else String c EmptyString :: utf8_chars s
      | EmptyString => [String c EmptyString]
      end
  end.

(** [len(s)] and [s[:n]], counted in characters. *)
Definition py_len (s : string) : Z := Z.of_nat (length (utf8_chars s)).
Definition py_take (n : nat) (s : string) : string := str_join EmptyString (take n (utf8_chars s)).

(** [repr(s)] for text without control characters other than tab, CR and LF. *)
Definition py_repr (s : string) : string :=
  let q := if contains "'" s && negb (contains (String "034" "") s) then "034"%char else "039"%char in
  let fix go (s : string) : string :=
    match s with
    | EmptyString => String q ""
    | String c s =>
        (if decide (c = "092"%char) then String "092" (String "092" "")
         else if decide (c = "010"%char) then String "092" "n"
         else if decide (c = "013"%char) then String "092" "r"
         else if decide (c = "009"%char) then String "092" "t"
         else if decide (c = q) then String "092" (String c "")
         else String c "") +++ go s
    end in
  String q (go s).

(** ** Case *)

Definition ascii_lower (c : ascii) : ascii :=
  let n := nat_of_ascii c in
  if (65 <=? Z.of_nat n) && (Z.of_nat n <=? 90) then ascii_of_nat (n + 32) else c.

(** [str.lower], as far as ASCII text in the result is concerned: besides the ASCII capitals, only the Kelvin sign
    and the dotted capital I have a lowercase with ASCII characters in it. *)
Definition lower_char (c : string) : list string :=
  match c with
  | String a EmptyString => [String (ascii_lower a) EmptyString]
  | _ =>
      if String.eqb c (String "226" (String "132" (String "170" ""))) then ["k"]
      else if String.eqb c (String "196" (String "176" "")) then ["i"; String "204" (String "135" "")]
      else [c]
  end.

Definition lower (l : list string) : list string := mjoin (lower_char <$> l).

(** [s.lower()], in the same sense. *)
Definition lower_str (s : string) : string := str_join EmptyString (lower (utf8_chars s)).

Definition newline : string := String "010" "".

Definition opt_str (o : option string) : string := match o with Some s => s | None => "None" end.

(** Code-point order, Python's [<=] on [str]. *)
Definition str_le (s t : string) : bool := String.leb s t.
Definition str_lt (s t : string) : bool := String.ltb s t.

(** [sorted] on strings: insertion sort, stable. *)
Fixpoint insert_by {A} (key : A -> string) (x : A) (l : list A) : list A :=
  match l with
  | [] => [x]
  | y :: l => if str_le (key x) (key y) then x :: y :: l else y :: insert_by key x l
  end.

Fixpoint sort_by {A} (key : A -> string) (l : list A) : list A :=
  match l with [] => [] | x :: l => insert_by key x (sort_by key l) end.

Definition sorted_strs (l : list string) : list string := sort_by id l.

(** [list(dict.fromkeys(l))]: the distinct elements in order of first occurrence. *)
Fixpoint dedup_first {A} `{EqDecision A} (seen l : list A) : list A :=
  match l with
  | [] => []
  | x :: l => if decide (x ∈ seen) then dedup_first seen l else x :: dedup_first (x :: seen) l
  end.

(** ** Tactics *)

(** Case analysis on the scrutinee of the goal's outermost [match], keeping the equation. *)
Ltac case_goal :=
  match goal with
  | |- context [match ?x with _ => _ end] =>
      lazymatch x with
      | context [match _ with _ => _ end] => fail
      | _ => let E := fresh "E" in destruct x eqn:E
      end
  end.

(** Case analysis on a [match] of a hypothesis. *)
Ltac case_in H :=
  match type of H with
  | context [match ?x with _ => _ end] =>
      lazymatch x with
      | context [match _ with _ => _ end] => fail
      | _ => let E := fresh "E" in destruct x eqn:E
      end
  end.

(** Split every case of the hypothesis and close the impossible ones. *)
Ltac cases_in H := repeat (case_in H; simplify_eq/=; try done).

(** Boolean comparisons on [Z], [&&], [||] and [negb] as propositions. *)
Ltac zbool :=
  repeat match goal with
  | H : (_ <? _) = true |- _ => apply Z.ltb_lt in H
  | H : (_ <? _) = false |- _ => apply Z.ltb_ge in H
  | H : (_ <=? _) = true |- _ => apply Z.leb_le in H
  | H : (_ <=? _) = false |- _ => apply Z.leb_gt in H
  | H : (_ =? _) = true |- _ => apply Z.eqb_eq in H
  | H : (_ =? _) = false |- _ => apply Z.eqb_neq in H
  | H : String.eqb _ _ = true |- _ => apply String.eqb_eq in H
  | H : String.eqb _ _ = false |- _ => apply String.eqb_neq in H
  | H : (_ && _)%bool = true |- _ => apply andb_true_iff in H as [? ?]
  | H : (_ || _)%bool = false |- _ => apply orb_false_iff in H as [? ?]
  | H : negb _ = true |- _ => apply negb_true_iff in H
  | H : negb _ = false |- _ => apply negb_false_iff in H
  end.

(** Invert a monadic bind that succeeded. *)
Ltac res_inv H :=
  unfold mbind, res_bind, mret, res_ret, fmap, res_fmap in H; cases_in H; simplify_eq/=.

(** ** Lemmas on fallible loops *)

Lemma res_bind_ok {A B} (a : A) (f : A -> res B) : (Ok a ≫= f) = f a.
Proof. done. Qed.

(** [r] raises nothing but exceptions of classes in [P]. *)
Definition raises_only {A} (P : exn_class -> Prop) (r : res A) : Prop :=
  match r with Ok _ => True | Err e => P (exn_cls e) end.

Lemma raises_only_bind {A B} P (r : res A) (f : A -> res B) :
  raises_only P r -> (forall a, r = Ok a -> raises_only P (f a)) -> raises_only P (r ≫= f).
Proof. destruct r; [|done]. intros _ H. by apply H. Qed.

Lemma mapM_res_ok {A B} (f : A -> res B) l :
  is_ok (mapM_res f l) = true <-> Forall (fun x => is_ok (f x) = true) l.
Proof.
  induction l as [|x l IH]; simpl; [by split|].
  rewrite Forall_cons, <- IH. unfold mbind, res_bind.
  destruct (f x), (mapM_res f l); simpl; naive_solver.
Qed.

Lemma mapM_res_fmap {A B} (f : B -> res A) (g : A -> B) l :
  (forall a, f (g a) = Ok a) -> mapM_res f (g <$> l) = Ok l.
Proof.
  intros Hf. induction l as [|a l IH]; [done|]. rewrite fmap_cons. cbn [mapM_res].
  rewrite Hf. unfold mbind, res_bind in *. cbv beta iota. by destruct (mapM_res f _); simplify_eq.
Qed.

Lemma mapM_res_err {A B} (f : A -> res B) l e : mapM_res f l = Err e -> exists a, a ∈ l /\ f a = Err e.
Proof.
  induction l as [|a l IH]; simpl; [done|]. unfold mbind, res_bind.
  destruct (f a) as [b|] eqn:Ha; intros H; simplify_eq; [|by exists a; split; [left|]].
  destruct (mapM_res f l); simplify_eq. destruct IH as (a' & ? & ?); [done|]. exists a'. split; [by right|done].
Qed.

Lemma mapM_res_Forall2 {A B} (f : A -> res B) l ys :
  mapM_res f l = Ok ys -> Forall2 (fun x y => f x = Ok y) l ys.
Proof.
  revert ys. induction l as [|x l IH]; simpl; intros ys H; res_inv H; constructor; auto.
Qed.

(** An invariant of the body is an invariant of the loop. *)
Lemma foldM_res_inv {A S} (I : S -> Prop) (f : S -> A -> res S) l s s' :
  (forall s x s', x ∈ l -> I s -> f s x = Ok s' -> I s') ->
  I s -> foldM_res f s l = Ok s' -> I s'.
Proof.
  revert s. induction l as [|x l IH]; simpl; intros s Hf Hs H; [by simplify_eq|].
  unfold mbind, res_bind in H. destruct (f s x) as [s1|] eqn:Hx; [|done].
  eapply IH; [|eapply Hf; [left|exact Hs|exact Hx]|exact H]. intros ??? Hin. apply Hf. by right.
Qed.

(** ** String order and sorting *)

Lemma str_list_app s t : str_list (s +++ t) = (str_list s ++ str_list t)%list.
Proof. induction s as [|c s IH]; simpl; [done|]. by rewrite IH. Qed.

Lemma startswith_cons a s c t :
  startswith (String a s) (String c t) = if decide (a = c) then startswith s t else false.
Proof. unfold startswith. cbn [String.prefix]. destruct (ascii_dec a c); by case_decide. Qed.

Lemma split_on_ne c s : split_on c s <> [].
Proof. destruct s; simpl; [done|]. case_decide; [done|]. by destruct (split_on c s). Qed.

(** [sep.join(s.split(sep)) == s]. *)
Lemma str_join_split c s : str_join (String c "") (split_on c s) = s.
Proof.
  assert (forall w ws, ws <> [] -> str_join (String c "") (w :: ws) = w +++ String c (str_join (String c "") ws)) as Hj
    by (by intros w []).
  induction s as [|c' s IH]; [done|]. cbn [split_on]. pose proof (split_on_ne c s) as Hne. case_decide as Hc.
  - rewrite Hj, IH by done. by subst.
  - destruct (split_on c s) as [|w [|w' ws]]; [done|simpl in *; by rewrite IH|].
    rewrite Hj in IH |- * by done. rewrite <- IH. reflexivity.
Qed.

#[export] Instance str_le_total : Total str_le.
Proof. exact String.le_total. Qed.

#[export] Instance str_le_po : PartialOrder str_le.
Proof. exact String.le_po. Qed.

Lemma str_le_refl s : str_le s s = true.
Proof. by destruct (String.leb_total s s). Qed.

Section sort_by_lemmas.
Context {A : Type} (key : A -> string).

Lemma insert_by_perm x l : insert_by key x l ≡ₚ x :: l.
Proof. induction l as [|y l IH]; simpl; [done|]. destruct (str_le _ _); [done|]. rewrite IH. constructor. Qed.

Lemma sort_by_perm l : sort_by key l ≡ₚ l.
Proof. induction l as [|x l IH]; simpl; [done|]. by rewrite insert_by_perm, IH. Qed.

Definition key_ordered (x y : A) : Prop := str_le (key x) (key y).

Lemma insert_by_sorted x l :
  StronglySorted key_ordered l -> StronglySorted key_ordered (insert_by key x l).
Proof.
  induction 1 as [|y l Hs IH Hall]; simpl; [by repeat constructor|].
  destruct (str_le (key x) (key y)) eqn:E.
  - constructor; [by constructor|]. constructor; [by apply Is_true_eq_left|].
    eapply Forall_impl; [exact Hall|]. intros z Hz. unfold key_ordered in *.
    etrans; [|exact Hz]. by apply Is_true_eq_left.
  - constructor; [done|]. rewrite insert_by_perm. constructor; [|done].
    destruct (total str_le (key x) (key y)) as [H|H]; [|done]. apply Is_true_eq_true in H. congruence.
Qed.

Lemma sort_by_sorted l : StronglySorted key_ordered (sort_by key l).
Proof. induction l; simpl; [constructor|]. by apply insert_by_sorted. Qed.

(** The sort is stable: elements of one key keep their order. *)
Lemma insert_by_filter x l k :
  filter (fun y => key y = k) (insert_by key x l)
  = if decide (key x = k) then x :: filter (fun y => key y = k) l else filter (fun y => key y = k) l.
Proof.
  induction l as [|y l IH]; simpl; [by rewrite filter_cons, filter_nil|].
  destruct (str_le (key x) (key y)) eqn:Hle; [by rewrite filter_cons|].
  rewrite !filter_cons, IH. repeat case_decide; try done. exfalso. subst.
  assert (key x = key y) as Heq by congruence. rewrite Heq, str_le_refl in Hle. done.
Qed.

Lemma sort_by_stable l k : filter (fun y => key y = k) (sort_by key l) = filter (fun y => key y = k) l.
Proof. induction l as [|x l IH]; simpl; [done|]. by rewrite insert_by_filter, filter_cons, IH. Qed.
End sort_by_lemmas.

(** ** Dictionary lemmas *)

Section dict_lemmas.
Context {V : Type}.
Implicit Types (d e : list (string * V)) (k : string) (v : V).

Lemma dget_dset_eq k v d : dget k (dset k v d) = Some v.
Proof.
  induction d as [|[k' v'] d IH]; simpl; [by rewrite decide_True|].
  case_decide; simpl; [by rewrite decide_True|by rewrite decide_False].
Qed.

Lemma dget_dset_ne k k' v d : k <> k' -> dget k (dset k' v d) = dget k d.
Proof.
  intros Hne. induction d as [|[j w] d IH]; simpl.
  - by rewrite decide_False.
  - destruct (decide (k' = j)) as [->|]; simpl; [by rewrite !decide_False|]. by rewrite IH.
Qed.

Lemma dget_dset k k' v d :
  dget k (dset k' v d) = if decide (k = k') then Some v else dget k d.
Proof. case_decide as E; [subst; apply dget_dset_eq | by apply dget_dset_ne]. Qed.

Lemma elem_of_dset k v j w d : (j, w) ∈ dset k v d -> (j, w) = (k, v) \/ (j, w) ∈ d.
Proof.
  induction d as [|[k' v'] d IH]; simpl.
  - intros ->%list_elem_of_singleton. by left.
  - case_decide; subst; rewrite !elem_of_cons; intros [Hin|Hin]; auto.
    destruct (IH Hin); auto.
Qed.

Lemma dget_ddel_ne k k' d : k <> k' -> dget k (ddel k' d) = dget k d.
Proof.
  intros Hne. induction d as [|[j w] d IH]; simpl; [done|].
  destruct (decide (k' = j)) as [->|]; simpl; [by rewrite decide_False|]. by rewrite IH.
Qed.

Lemma dget_None k d : dget k d = None <-> k ∉ dkeys d.
Proof.
  unfold dkeys. induction d as [|[j w] d IH]; csimpl; [set_solver|].
  rewrite not_elem_of_cons. case_decide; [split; [done|by intros [??]]|]. rewrite IH. tauto.
Qed.

Lemma dget_Some_keys k v d : dget k d = Some v -> k ∈ dkeys d.
Proof.
  intros H. destruct (decide (k ∈ dkeys d)) as [|Hn]; [done|].
  apply dget_None in Hn. congruence.
Qed.

Lemma dget_elem_of k v d : dget k d = Some v -> (k, v) ∈ d.
Proof.
  induction d as [|[j w] d IH]; simpl; [done|].
  case_decide; intros; simplify_eq; [left|right; auto].
Qed.

Lemma elem_of_dget k v d : NoDup (dkeys d) -> (k, v) ∈ d -> dget k d = Some v.
Proof.
  unfold dkeys. induction d as [|[j w] d IH]; csimpl; [by intros _ ?%elem_of_nil|].
  intros [Hj Hnd]%NoDup_cons [?|Hin]%elem_of_cons; simplify_eq.
  - by rewrite decide_True.
  - rewrite decide_False; [auto|]. intros ->. apply Hj, list_elem_of_fmap. by exists (j, v).
Qed.

Lemma dkeys_dset k v d :
  dkeys (dset k v d) = if decide (k ∈ dkeys d) then dkeys d else dkeys d ++ [k].
Proof.
  unfold dkeys. induction d as [|[j w] d IH]; csimpl.
  - done.
  - destruct (decide (k = j)) as [->|Hne]; csimpl.
    + by rewrite decide_True by set_solver.
    + rewrite IH. repeat case_decide; set_solver.
Qed.

Lemma NoDup_dset k v d : NoDup (dkeys d) -> NoDup (dkeys (dset k v d)).
Proof.
  intros Hnd. rewrite dkeys_dset. case_decide as Hin; [done|].
  apply NoDup_app; split_and!; [done|set_solver|apply NoDup_singleton].
Qed.

Lemma dkeys_ddel_subseteq k k' d : k ∈ dkeys (ddel k' d) -> k ∈ dkeys d.
Proof.
  unfold dkeys. induction d as [|[j w] d IH]; csimpl; [done|].
  case_decide; csimpl; rewrite ?elem_of_cons; naive_solver.
Qed.

Lemma NoDup_ddel k d : NoDup (dkeys d) -> NoDup (dkeys (ddel k d)).
Proof.
  unfold dkeys. induction d as [|[j w] d IH]; csimpl; [done|].
  intros [Hj Hnd]%NoDup_cons. case_decide; csimpl; [done|].
  apply NoDup_cons; split; [|auto]. intros Hin. by apply Hj, (dkeys_ddel_subseteq _ k).
Qed.

Lemma dget_ddel_eq k d : NoDup (dkeys d) -> dget k (ddel k d) = None.
Proof.
  unfold dkeys. induction d as [|[j w] d IH]; csimpl; [done|].
  intros [Hj Hnd]%NoDup_cons. case_decide; subst; simpl.
  - by apply dget_None.
  - rewrite decide_False by done. auto.
Qed.

Lemma dget_app k d e :
  dget k (d ++ e) = match dget k d with Some v => Some v | None => dget k e end.
Proof. induction d as [|[j w] d IH]; simpl; [done|]. by case_decide. Qed.

Lemma dset_id k v d : dget k d = Some v -> dset k v d = d.
Proof.
  induction d as [|[j w] d IH]; simpl; [done|].
  case_decide; intros; simplify_eq; [done|]. by rewrite IH.
Qed.

Lemma dset_dset k v w d : dset k v (dset k w d) = dset k v d.
Proof.
  induction d as [|[j x] d IH]; simpl; [by rewrite decide_True|].
  case_decide; simpl; [by rewrite decide_True|]. rewrite decide_False by done. by rewrite IH.
Qed.

Lemma ddel_not_in k d : dget k d = None -> ddel k d = d.
Proof.
  induction d as [|[j x] d IH]; simpl; [done|].
  case_decide; [done|]. intros. by rewrite IH.
Qed.

Lemma ddel_dset_new k v d : dget k d = None -> ddel k (dset k v d) = d.
Proof.
  induction d as [|[j x] d IH]; simpl; [by rewrite decide_True|].
  case_decide; [done|]. intros. simpl. rewrite decide_False by done. by rewrite IH.
Qed.

Lemma dset_new k v d : dget k d = None -> dset k v d = d ++ [(k, v)].
Proof.
  induction d as [|[j x] d IH]; simpl; [done|].
  case_decide; [done|]. intros. by rewrite IH.
Qed.

Lemma dhas_true k d : dhas k d = true <-> is_Some (dget k d).
Proof. unfold dhas. destruct (dget k d); naive_solver. Qed.

Lemma dhas_false k d : dhas k d = false <-> dget k d = None.
Proof. unfold dhas. destruct (dget k d); naive_solver. Qed.

#[export] Instance dict_equiv_equivalence : Equivalence (@dict_equiv V).
Proof.
  split; unfold dict_equiv; [by intros ? ?|by intros ?? H ?; rewrite H|].
  intros ??? H1 H2 ?. by rewrite H1, H2.
Qed.

#[export] Instance dget_proper k : Proper (dict_equiv ==> eq) (@dget V k).
Proof. intros d e H. apply H. Qed.

#[export] Instance dhas_proper k : Proper (dict_equiv ==> eq) (@dhas V k).
Proof. intros d e H. unfold dhas. by rewrite (H k). Qed.

#[export] Instance dset_proper k v : Proper (dict_equiv ==> dict_equiv) (@dset V k v).
Proof. intros d e H j. rewrite !dget_dset. case_decide; [done|apply H]. Qed.

Lemma dupdate_app d e1 e2 : dupdate d (e1 ++ e2) = dupdate (dupdate d e1) e2.
Proof. apply fold_left_app. Qed.

Lemma dget_dupdate_not_in k d e : k ∉ dkeys e -> dget k (dupdate d e) = dget k d.
Proof.
  unfold dkeys, dupdate. revert d. induction e as [|[j w] e IH]; intros d; simpl; [done|].
  intros [Hne Hni]%not_elem_of_cons. rewrite IH by done. by apply dget_dset_ne.
Qed.

Lemma dget_dupdate k d e :
  NoDup (dkeys e) ->
  dget k (dupdate d e) = match dget k e with Some v => Some v | None => dget k d end.
Proof.
  revert d. induction e as [|[j w] e IH]; intros d Hnd; simpl; [done|].
  unfold dkeys in *; simpl in Hnd. apply NoDup_cons in Hnd as [Hj Hnd].
  unfold dupdate in *; simpl. case_decide; subst.
  - change (dget j (dupdate (dset j w d) e) = Some w).
    rewrite dget_dupdate_not_in by done. apply dget_dset_eq.
  - rewrite IH by done. by rewrite dget_dset_ne.
Qed.

Lemma NoDup_dupdate d e : NoDup (dkeys d) -> NoDup (dkeys (dupdate d e)).
Proof.
  unfold dupdate. revert d. induction e as [|[k v] e IH]; intros d Hd; simpl; [done|].
  by apply IH, NoDup_dset.
Qed.

(** Lookups do not depend on the order of the items. *)
Lemma dget_perm d e k : NoDup (dkeys d) -> d ≡ₚ e -> dget k d = dget k e.
Proof.
  intros Hnd Hp. assert (NoDup (dkeys e)) as Hnd' by (unfold dkeys in *; by rewrite <- Hp).
  destruct (dget k d) as [v|] eqn:Hd.
  - symmetry. apply elem_of_dget; [done|]. rewrite <- Hp. by apply dget_elem_of.
  - symmetry. apply dget_None. unfold dkeys in *. rewrite <- Hp. by apply dget_None in Hd.
Qed.

Lemma dget_ddel k k' d : NoDup (dkeys d) -> dget k (ddel k' d) = if decide (k = k') then None else dget k d.
Proof. intros. case_decide; subst; [by apply dget_ddel_eq|by apply dget_ddel_ne]. Qed.

Lemma dget_filter (P : V -> bool) k d :
  NoDup (dkeys d) ->
  dget k (List.filter (fun p => P (snd p)) d) =
  match dget k d with Some v => if P v then Some v else None | None => None end.
Proof.
  unfold dkeys. induction d as [|[j w] d IH]; csimpl; [done|]. intros [Hj Hnd]%NoDup_cons.
  destruct (P w) eqn:Hw; simpl; case_decide; subst; rewrite ?IH by done; rewrite ?Hw; try done.
  by rewrite (proj2 (dget_None j d)).
Qed.

Lemma NoDup_filter_keys (P : string * V -> bool) d :
  NoDup (dkeys d) -> NoDup (dkeys (List.filter P d)).
Proof.
  unfold dkeys. induction d as [|[j w] d IH]; csimpl; [done|]. intros [Hj Hnd]%NoDup_cons.
  destruct (P _); csimpl; [|auto]. apply NoDup_cons. split; [|auto].
  intros ([k v] & -> & Hin)%list_elem_of_fmap. apply Hj, list_elem_of_fmap. exists (k, v). split; [done|].
  apply list_elem_of_In, filter_In in Hin as [Hin _]. by apply list_elem_of_In.
Qed.

Lemma dget_all_None d : (forall k, dget k d = None) <-> d = [].
Proof.
  split; [|by intros ->]. destruct d as [|[j w] d]; [done|]. intros H. specialize (H j). simpl in H.
  by rewrite decide_True in H.
Qed.
End dict_lemmas.

Create HintDb forge_dict.
Create Rewrite HintDb forge_rw.
#[export] Hint Rewrite @dget_dset_eq @dset_dset @dget_app : forge_rw.
#[export] Hint Rewrite @dget_dset_ne @dget_ddel_ne using done : forge_rw.
#[export] Hint Resolve NoDup_dset NoDup_ddel dget_elem_of : forge_dict.

(** ** Sums over the values of a dict *)

Definition dsum {V} (f : V -> Z) (d : list (string * V)) : Z :=
  foldr (fun p a => f (snd p) + a) 0 d.

Lemma dsum_dset {V} (f : V -> Z) k v (d : list (string * V)) :
  dsum f (dset k v d) = dsum f d + f v - from_option f 0 (dget k d).
Proof.
  induction d as [|[k' w] d IH]; simpl; [lia|].
  case_match; simpl; [lia|]. rewrite IH. lia.
Qed.

Lemma dsum_nonneg {V} (f : V -> Z) (d : list (string * V)) :
  (forall v, 0 <= f v) -> 0 <= dsum f d.
Proof. intros Hf. induction d as [|[k v] d IH]; simpl; [lia|]. specialize (Hf v). lia. Qed.

(** ** Filtering *)

Lemma NoDup_fmap_filter {A B} (f : A -> B) (P : A -> Prop) `{forall x, Decision (P x)} l :
  NoDup (f <$> l) -> NoDup (f <$> filter P l).
Proof.
  induction l as [|x l IH]; [done|]. rewrite fmap_cons, NoDup_cons. intros [Hx Hnd].
  rewrite filter_cons. case_decide; [|auto]. rewrite fmap_cons, NoDup_cons. split; [|auto].
  intros (y & Hy & [_ Hin]%list_elem_of_filter)%list_elem_of_fmap.
  apply Hx. rewrite Hy. apply list_elem_of_fmap. eauto.
Qed.

Lemma filter_all {A} (P : A -> Prop) `{forall x, Decision (P x)} l : Forall P l -> filter P l = l.
Proof. induction 1; [done|]. rewrite filter_cons_True by done. by f_equal. Qed.

Lemma filter_none {A} (P : A -> Prop) `{forall x, Decision (P x)} l :
  Forall (fun x => ~ P x) l -> filter P l = [].
Proof. induction 1; [done|]. by rewrite filter_cons_False. Qed.

Lemma filter_idem {A} (P : A -> Prop) `{forall x, Decision (P x)} (l : list A) : filter P (filter P l) = filter P l.
Proof. apply filter_all, Forall_forall. by intros x [Hx _]%list_elem_of_filter. Qed.

Lemma filter_same_length {A} (P : A -> Prop) `{forall x, Decision (P x)} l :
  length (filter P l) = length l -> filter P l = l.
Proof.
  induction l as [|x l IH]; [done|]. rewrite filter_cons. case_decide; simpl.
  - intros Hl. f_equal. apply IH. lia.
  - intros Hl. pose proof (length_filter P l). lia.
Qed.

Lemma elem_of_dedup_first {A} `{EqDecision A} (l : list A) x : x ∈ dedup_first [] l <-> x ∈ l.
Proof.
  assert (H : forall seen, x ∈ dedup_first seen l <-> x ∈ l /\ x ∉ seen).
  { induction l as [|y l IH]; intros seen; simpl; [by rewrite elem_of_nil; naive_solver|].
    case_decide as Hy; rewrite ?elem_of_cons, IH, ?not_elem_of_cons; [|destruct (decide (x = y))]; naive_solver. }
  rewrite H. split; [tauto|]. intros Hx. split; [done|apply not_elem_of_nil].
Qed.

Lemma NoDup_dedup_first {A} `{EqDecision A} (l : list A) : NoDup (dedup_first [] l).
Proof.
  enough (forall seen, NoDup (dedup_first seen l) /\ forall x, x ∈ dedup_first seen l -> x ∉ seen) by naive_solver.
  induction l as [|x l IH]; intros seen; simpl; [split; [constructor|by intros ? ?%elem_of_nil]|].
  case_decide as Hx; [apply IH|]. destruct (IH (x :: seen)) as [Hnd Hin]. split.
  - constructor; [|done]. intros Hx'. specialize (Hin _ Hx'). set_solver.
  - intros y [->|Hy]%elem_of_cons; [done|]. specialize (Hin _ Hy). set_solver.
Qed.
