(* ===== verification/PyValue.v ===== *)
(** * PyValue: the values [json.load] returns and Python's operations on them

    Every state file, marker, settings file and policy state of Multi-Forge is a
    JSON object handled as a Python [dict]. [value] is that data; the operations
    below are the parts of the language the modelled code applies to it: truth
    testing, [==], [isinstance], ordering of numbers and [json.dumps] with sorted
    keys (as a normal form of the value, see [canonical]). *)

From S2P Require Import Prelude.
From Stdlib Require Import SpecFloat.

(** A decoded JSON value. A float is its IEEE 754 datum. *)
Inductive value :=
| VNone
| VBool (b : bool)
| VInt (z : Z)
| VFloat (f : spec_float)
| VStr (s : string)
| VList (l : list value)
| VDict (d : list (string * value)).

Notation dict := (list (string * value)).

(** ** Type tests *)

(** [type(v).__name__]. *)
Definition type_name (v : value) : string :=
  match v with
  | VNone => "NoneType"
  | VBool _ => "bool"
  | VInt _ => "int"
  | VFloat _ => "float"
  | VStr _ => "str"
  | VList _ => "list"
  | VDict _ => "dict"
  end.

(** [v if isinstance(v, str) else None], and the same for the other types. *)
Definition as_str (v : value) : option string := match v with VStr s => Some s | _ => None end.
Definition as_list (v : value) : option (list value) := match v with VList l => Some l | _ => None end.
Definition as_dict (v : value) : option dict := match v with VDict d => Some d | _ => None end.

(** [isinstance(v, int)]: [bool] is a subclass of [int]. *)
Definition as_int (v : value) : option Z :=
  match v with VInt z => Some z | VBool b => Some (Z.b2z b) | _ => None end.

Definition is_dict (v : value) : bool := match v with VDict _ => true | _ => false end.

(** ** Truth value testing *)

Definition truthy (v : value) : bool :=
  match v with
  | VNone => false
  | VBool b => b
  | VInt z => negb (z =? 0)
  | VFloat (S754_zero _) => false
  | VFloat _ => true
  | VStr s => negb (String.eqb s "")
  | VList l => match l with [] => false | _ => true end
  | VDict d => match d with [] => false | _ => true end
  end.

(** ** Equality *)

(** An int and a float are equal when they denote the same number. *)
Definition eq_int_float (z : Z) (f : spec_float) : bool :=
  match f with
  | S754_zero _ => z =? 0
  | S754_finite s m e =>
      let n := if s then Z.neg m else Z.pos m in
      if 0 <=? e then z =? n * 2 ^ e else z * 2 ^ (- e) =? n
  | _ => false
  end.

(** [a == b]. Dicts compare without order. *)
Fixpoint py_eq (a b : value) {struct a} : bool :=
  match a, b with
  | VNone, VNone => true
  | VStr s, VStr t => String.eqb s t
  | VFloat f, VFloat g => SFeqb f g
  | VFloat f, VInt z => eq_int_float z f
  | VFloat f, VBool c => eq_int_float (Z.b2z c) f
  | VInt z, VFloat f => eq_int_float z f
  | VBool c, VFloat f => eq_int_float (Z.b2z c) f
  | VInt z, VInt w => z =? w
  | VInt z, VBool c => z =? Z.b2z c
  | VBool c, VInt z => Z.b2z c =? z
  | VBool c, VBool c' => Bool.eqb c c'
  | VList l, VList m =>
      (fix go l m :=
         match l, m with
         | [], [] => true
         | x :: l, y :: m => py_eq x y && go l m
         | _, _ => false
         end) l m
  | VDict d, VDict e =>
      Nat.eqb (length d) (length e) &&
      forallb (fun p => match dget (fst p) e with
                        | Some w => py_eq (snd p) w
                        | None => false
                        end) d
  | _, _ => false
  end.

(** Structural equality, the identity of the datum. *)
Definition sf_eqb (f g : spec_float) : bool :=
  match f, g with
  | S754_zero s, S754_zero t => Bool.eqb s t
  | S754_infinity s, S754_infinity t => Bool.eqb s t
  | S754_nan, S754_nan => true
  | S754_finite s m e, S754_finite t n e' => Bool.eqb s t && Pos.eqb m n && Z.eqb e e'
  | _, _ => false
  end.

Fixpoint value_eqb (a b : value) {struct a} : bool :=
  match a, b with
  | VNone, VNone => true
  | VBool x, VBool y => Bool.eqb x y
  | VInt x, VInt y => Z.eqb x y
  | VFloat x, VFloat y => sf_eqb x y
  | VStr x, VStr y => String.eqb x y
  | VList l, VList m =>
      (fix go l m :=
         match l, m with
         | [], [] => true
         | x :: l, y :: m => value_eqb x y && go l m
         | _, _ => false
         end) l m
  | VDict d, VDict e =>
      (fix go d e :=
         match d, e with
         | [], [] => true
         | (k, x) :: d, (k', y) :: e => String.eqb k k' && value_eqb x y && go d e
         | _, _ => false
         end) d e
  | _, _ => false
  end.

(** ** Dict access, iteration and conversions *)

(** [d.get(k)] on a dict of values, and [x or y]. *)
Definition dgetv (k : string) (d : dict) : value := dget_default k VNone d.
Definition py_or (x y : value) : value := if truthy x then x else y.

(** [list(v)] and [dict(v)] on JSON values ([list(v)] is also iteration). A list of pairs
    given to [dict] is not a shape any file has and raises here. *)
Definition py_list (v : value) : res (list value) :=
  match v with
  | VList l => Ok l
  | VDict d => Ok (map VStr (dkeys d))
  | VStr s => Ok (map VStr (utf8_chars s))
  | _ => raise TypeError ("'" +++ type_name v +++ "' object is not iterable")
  end.

Definition py_dict (v : value) : res dict :=
  match v with
  | VDict d => Ok d
  | VList [] | VStr "" => Ok []
  | _ => raise TypeError ("cannot convert '" +++ type_name v +++ "' object to dict")
  end.

(** ** Python sets of JSON scalars *)

(** A set as the list of its elements without repetitions; no property depends on the order. *)
Definition set_add (v : value) (l : list value) : list value :=
  if existsb (py_eq v) l then l else l ++ [v].

Definition py_set_of (l : list value) : list value := fold_left (fun s v => set_add v s) l [].

Definition hashable (v : value) : bool :=
  match v with VList _ | VDict _ => false | _ => true end.

(** [set(v)]. *)
Definition py_set (v : value) : res (list value) :=
  l ← py_list v;
  match List.find (fun x => negb (hashable x)) l with
  | Some x => raise TypeError ("unhashable type: '" +++ type_name x +++ "'")
  | None => Ok (py_set_of l)
  end.

(** ** Canonical JSON *)

(** [json.dumps(v, sort_keys=True)], up to printing: the value with the keys of
    every object sorted. Two values have the same dump exactly when they have the
    same normal form, and the model compares normal forms where the code compares
    dumps. *)
Fixpoint canonical (v : value) : value :=
  match v with
  | VList l => VList (map canonical l)
  | VDict d => VDict (sort_by fst (map (fun p => (fst p, canonical (snd p))) d))
  | _ => v
  end.

(** ** Induction *)

Section value_ind.
Variable P : value -> Prop.
Hypothesis HNone : P VNone.
Hypothesis HBool : forall b, P (VBool b).
Hypothesis HInt : forall z, P (VInt z).
Hypothesis HFloat : forall f, P (VFloat f).
Hypothesis HStr : forall s, P (VStr s).
Hypothesis HList : forall l, Forall P l -> P (VList l).
Hypothesis HDict : forall d, Forall (fun p => P (snd p)) d -> P (VDict d).

Fixpoint value_nested_ind (v : value) : P v :=
  match v with
  | VNone => HNone
  | VBool b => HBool b
  | VInt z => HInt z
  | VFloat f => HFloat f
  | VStr s => HStr s
  | VList l =>
      HList l ((fix go l : Forall P l :=
        match l with
        | [] => Forall_nil_2 P
        | x :: l => Forall_cons_2 P x l (value_nested_ind x) (go l)
        end) l)
  | VDict d =>
      HDict d ((fix go d : Forall (fun p => P (snd p)) d :=
        match d with
        | [] => Forall_nil_2 _
        | x :: d => Forall_cons_2 (fun p => P (snd p)) x d (value_nested_ind (snd x)) (go d)
        end) d)
  end.
End value_ind.

(** ** Lemmas *)

Lemma sf_eqb_eq f g : sf_eqb f g = true <-> f = g.
Proof.
  split.
  - destruct f, g; simpl; try done; rewrite ?andb_true_iff, ?Bool.eqb_true_iff;
      [congruence..|]. intros [[-> ->%Pos.eqb_eq] ->%Z.eqb_eq]. done.
  - intros ->. destruct g; simpl; rewrite ?Bool.eqb_reflx, ?Pos.eqb_refl, ?Z.eqb_refl; done.
Qed.

Lemma value_eqb_eq a b : value_eqb a b = true <-> a = b.
Proof.
  revert b. induction a as [|x|x|x|x|l IH|d IH] using value_nested_ind; intros [|y|y|y|y|m|e];
    simpl; try done.
  - rewrite Bool.eqb_true_iff. naive_solver.
  - rewrite Z.eqb_eq. naive_solver.
  - rewrite sf_eqb_eq. naive_solver.
  - rewrite String.eqb_eq. naive_solver.
  - transitivity (l = m); [|naive_solver].
    revert m. induction IH as [|x l Hx _ IHl]; intros [|y m]; try done.
    rewrite andb_true_iff, Hx, IHl. naive_solver.
  - transitivity (d = e); [|naive_solver].
    revert e. induction IH as [|[k x] d Hx _ IHd]; intros [|[k' y] e]; try done.
    rewrite !andb_true_iff, String.eqb_eq, Hx, IHd. naive_solver.
Qed.

#[export] Instance value_eq_dec : EqDecision value.
Proof.
  intros a b. destruct (value_eqb a b) eqn:E; [left|right].
  - by apply value_eqb_eq.
  - intros H%value_eqb_eq. congruence.
Defined.

#[export] Instance pyexn_class_eq_dec : EqDecision exn_class.
Proof. solve_decision. Defined.

(** [except Exception] catches it: everything but an interrupt. *)
Definition is_exception (c : exn_class) : bool := negb (bool_decide (c = KeyboardInterrupt)).
