(* ===== verification/PyFloat.v ===== *)
(** * PyFloat: Python's [float] arithmetic as the modelled code uses it

    A [float] is its IEEE 754 binary64 datum ([spec_float] of the Standard Library, at
    precision 53). The operations below are those of the Standard Library's reference
    implementation, so that they evaluate: [+], [/], the true division of two ints (which
    Python rounds once, from the exact quotient) and [round(x, ndigits)] (which rounds the
    exact decimal value, ties to even). *)

From S2P Require Import Prelude PyValue.
From Stdlib Require Import SpecFloat.

Definition float_add : spec_float -> spec_float -> spec_float := SFadd 53 1024.
Definition float_mul : spec_float -> spec_float -> spec_float := SFmul 53 1024.
Definition float_div : spec_float -> spec_float -> spec_float := SFdiv 53 1024.

Definition float_zero : spec_float := S754_zero false.

(** [float(z)], to nearest, ties to even. *)
Definition float_of_Z (z : Z) : spec_float := binary_normalize 53 1024 z 0 false.

(** An int as an unrounded datum: the operand of an exact quotient. *)
Definition exact (z : Z) : spec_float :=
  match z with
  | Z0 => S754_zero false
  | Zpos p => S754_finite false p 0
  | Zneg p => S754_finite true p 0
  end.

(** [a / b] on ints, rounded once. *)
Definition int_truediv (a b : Z) : spec_float := float_div (exact a) (exact b).

(** The integer nearest to [n / d], [d > 0], ties to even. *)
Definition div_half_even (n d : Z) : Z :=
  let q := n / d in
  let r := n mod d in
  if (2 * r <? d) || ((2 * r =? d) && Z.even q) then q else q + 1.

(** [round(x, nd)]. *)
Definition py_round (nd : Z) (x : spec_float) : spec_float :=
  match x with
  | S754_finite s m e =>
      let k := if 0 <=? e then Zpos m * 2 ^ e * 10 ^ nd
               else div_half_even (Zpos m * 10 ^ nd) (2 ^ (- e)) in
      match k with
      | Z0 => S754_zero s
      | _ => SFdiv 53 1024 (exact (if s then - k else k)) (exact (10 ^ nd))
      end
  | _ => x
  end.

(** The integer [py_round] divides by [10 ^ nd] is within one half of the exact product. *)
Lemma div_half_even_near n d : 0 < d -> Z.abs (2 * (n - div_half_even n d * d)) <= d.
Proof.
  intros Hd. unfold div_half_even. pose proof (Z.div_mod n d ltac:(lia)).
  pose proof (Z.mod_pos_bound n d Hd). case_match; zbool; lia.
Qed.

(** Rounding a multiple gives it back. *)
Lemma div_half_even_exact q d : 0 < d -> div_half_even (q * d) d = q.
Proof.
  intros Hd. unfold div_half_even. rewrite Z.mod_mul, Z.div_mul by lia.
  by rewrite (proj2 (Z.ltb_lt _ _)) by lia.
Qed.

(** ** Conversions that may raise *)

(** The least magnitude that rounds to an infinity. *)
Definition float_overflow : Z := 2 ^ 1024 - 2 ^ 970.

(** [float(z)] on an int. *)
Definition py_float_of_int (z : Z) : res spec_float :=
  if float_overflow <=? Z.abs z then raise OverflowError "int too large to convert to float"
  else Ok (float_of_Z z).

(** [a / b] on ints. *)
Definition py_int_truediv (a b : Z) : res spec_float :=
  if b =? 0 then raise ZeroDivisionError "division by zero"
  else if float_overflow * Z.abs b <=? Z.abs a
  then raise OverflowError "integer division result too large for a float"
  else Ok (int_truediv a b).

Lemma py_int_truediv_ok a b :
  0 < b -> Z.abs a < 2 ^ 1000 * b -> py_int_truediv a b = Ok (int_truediv a b).
Proof.
  intros Hb Ha. unfold py_int_truediv. rewrite (proj2 (Z.eqb_neq b 0)) by lia.
  rewrite (proj2 (Z.leb_gt _ _)); [done|].
  assert (2 ^ 1000 < float_overflow) by (vm_compute; reflexivity). rewrite (Z.abs_eq b) by lia. nia.
Qed.

(** ** [float(s)] on a string

    The grammar of Python's numeric strings over ASCII: surrounding whitespace, a sign,
    [inf], [infinity], [nan], or digits with single underscores between them, a fraction and
    an exponent. (Python also accepts the digits and blanks of other scripts.) *)

Definition digit_value (c : ascii) : option Z :=
  let n := Z.of_nat (nat_of_ascii c) in
  if (48 <=? n) && (n <=? 57) then Some (n - 48) else None.

Definition blank (c : ascii) : bool :=
  let n := Z.of_nat (nat_of_ascii c) in
  ((9 <=? n) && (n <=? 13)) || ((28 <=? n) && (n <=? 32)).

Fixpoint drop_blank (l : list ascii) : list ascii :=
  match l with c :: l' => if blank c then drop_blank l' else l | [] => [] end.

Definition strip_blank (l : list ascii) : list ascii :=
  reverse (drop_blank (reverse (drop_blank l))).

(** The digits at the head of [l], accumulated into [acc]; their number; what follows. *)
Fixpoint digits (acc n : Z) (l : list ascii) : Z * Z * list ascii :=
  match l with
  | [] => (acc, n, [])
  | c :: l' =>
      match digit_value c with
      | Some d => digits (acc * 10 + d) (n + 1) l'
      | None =>
          if Ascii.eqb c "_" && (0 <? n) &&
             match l' with c' :: _ => bool_decide (is_Some (digit_value c')) | [] => false end
          then digits acc n l'
          else (acc, n, l)
      end
  end.

Definition sign (l : list ascii) : bool * list ascii :=
  match l with
  | c :: l' => if Ascii.eqb c "-" then (true, l') else if Ascii.eqb c "+" then (false, l') else (false, l)
  | [] => (false, [])
  end.

(** The float nearest to [m * 10 ^ e], [m >= 0]. *)
Definition decimal (m e : Z) : spec_float :=
  if 0 <=? e then binary_normalize 53 1024 (m * 10 ^ e) 0 false
  else float_div (exact m) (exact (10 ^ (- e))).

Definition exponent (l : list ascii) : option Z :=
  match l with
  | [] => Some 0
  | c :: l' =>
      if Ascii.eqb c "e" then
        let '(neg, l') := sign l' in
        match digits 0 0 l' with
        | (e, n, []) => if 0 <? n then Some (if neg : bool then - e else e) else None
        | _ => None
        end
      else None
  end.

Definition unsigned_float (l : list ascii) : option spec_float :=
  if bool_decide (l = str_list "inf") || bool_decide (l = str_list "infinity")
  then Some (S754_infinity false)
  else if bool_decide (l = str_list "nan") then Some S754_nan
  else
    let '(ip, n1, l1) := digits 0 0 l in
    let '(m, n2, l2) :=
      match l1 with
      | c :: l' => if Ascii.eqb c "." then let '(m, n, l2) := digits 0 0 l' in (ip * 10 ^ n + m, n, l2)
                   else (ip, 0, l1)
      | [] => (ip, 0, [])
      end in
    if n1 + n2 =? 0 then None
    else match exponent l2 with Some e => Some (decimal m (e - n2)) | None => None end.

Definition float_of_str (s : string) : res spec_float :=
  let '(neg, l) := sign (map ascii_lower (strip_blank (str_list s))) in
  match unsigned_float l with
  | Some f => Ok (if neg : bool then SFopp f else f)
  | None => raise ValueError ("could not convert string to float: " +++ py_repr s)
  end.

Example float_of_str_samples :
  float_of_str " -1_0.5e0 " = Ok (S754_finite true 5910974510923776 (-49)) /\
  float_of_str "0.1" = Ok (S754_finite false 7205759403792794 (-56)) /\
  float_of_str "1__0" = raise ValueError "could not convert string to float: '1__0'" /\
  float_of_str ".e3" = raise ValueError "could not convert string to float: '.e3'" /\
  float_of_str "+Infinity" = Ok (S754_infinity false).
Proof. vm_compute. repeat split. Qed.

(** ** Integers *)

(** [int(v)]. *)
Definition py_int (v : value) : res Z :=
  match v with
  | VInt z => Ok z
  | VBool c => Ok (Z.b2z c)
  | VFloat (S754_finite s m e) =>
      let n := if 0 <=? e then Zpos m * 2 ^ e else Zpos m / 2 ^ (- e) in
      Ok (if s then - n else n)
  | VFloat (S754_zero _) => Ok 0
  | VFloat (S754_infinity _) => raise OverflowError "cannot convert float infinity to integer"
  | VFloat S754_nan => raise ValueError "cannot convert float NaN to integer"
  | VStr s =>
      let '(neg, l) := sign (strip_blank (str_list s)) in
      match digits 0 0 l with
      | (z, n, []) => if 0 <? n then Ok (if neg : bool then - z else z)
                      else raise ValueError ("invalid literal for int() with base 10: " +++ py_repr s)
      | _ => raise ValueError ("invalid literal for int() with base 10: " +++ py_repr s)
      end
  | _ => raise TypeError ("int() argument must be a string, a bytes-like object or a real number, not '"
                          +++ type_name v +++ "'")
  end.
