(* ===== verification/StateIO.v ===== *)
(** * StateIO: reading JSON state files

    [read_json] of [src/forge/core/state/io.py] and [read_versioned_json_object] of
    [core/state/versioned_store.py], shared by the file-backed stores, with the messages of
    [core/state/exceptions.py]. A file is what reading it meets. *)

From S2P Require Import Prelude PyValue.

(** What reading a file meets: an I/O error, bytes that are not UTF-8, text that is
    not JSON, or a JSON value. *)
Inductive content :=
| CUnreadable (msg : string)
| CNotUtf8 (msg : string)
| CBadJson (msg : string)
| CJson (v : value).

(** [StateCorruptedError(path, reason)], and [StateUnreadableError(path, reason)]. *)
Definition state_error {A} (c : exn_class) (path reason : string) : res A :=
  raise c ("'" +++ path +++ "': " +++ reason).

(** [SchemaVersionError(path, expected, actual)], [actual] already formatted. *)
Definition schema_version_error {A} (path : string) (expected actual : string) : res A :=
  raise SchemaVersionError
    ("'" +++ path +++ "' has incompatible version " +++ actual +++ " (this Forge expects [" +++
     expected +++ "]). Delete this file and retry.").

(** [read_json], on a file that may be absent. *)
Definition read_json (path : string) (f : option content) : res dict :=
  match f with
  | None => raise StateNotFoundError ("state file not found: '" +++ path +++ "'")
  | Some (CUnreadable e) => state_error StateUnreadableError path ("read error: " +++ e)
  | Some (CNotUtf8 e) => raise UnicodeDecodeError e
  | Some (CBadJson e) => state_error StateCorruptedError path ("invalid JSON: " +++ e)
  | Some (CJson (VDict d)) => Ok d
  | Some (CJson v) =>
      state_error StateCorruptedError path ("expected JSON object, got " +++ type_name v)
  end.

(** The classes [read_json] documents. *)
Definition is_state_error (c : exn_class) : bool :=
  bool_decide (c ∈ [StateCorruptedError; StateNotFoundError; StateUnreadableError]).

(** ** Versioned stores *)

(** What a store passes to [read_versioned_json_object]. [rd_missing_version] is the version
    assumed when the field is absent ([_MISSING] is [None]). *)
Record reader := {
  rd_version_key : string;
  rd_expected_version : Z;
  rd_corrupted_error : exn_class;
  rd_unreadable_error : exn_class;
  rd_missing_version : option value;
  rd_missing_version_reason : option string;
  rd_none_is_missing : bool;
  rd_on_version_mismatch : option (dict -> value -> res unit) }.

(** [reason or default]: an empty string counts as absent. *)
Definition str_or (o : option string) (dflt : string) : string :=
  match o with Some s => if String.eqb s "" then dflt else s | None => dflt end.

Section Versioned.

(** [str], on any decoded value: it only occurs in messages. *)
Variable py_str : value -> string.

(** [read_versioned_json_object]. *)
Definition read_versioned_json_object (path : string) (r : reader) (c : content) : res dict :=
  match c with
  | CBadJson e => state_error (rd_corrupted_error r) path ("invalid JSON: " +++ e)
  | CNotUtf8 e => raise UnicodeDecodeError e
  | CUnreadable e => state_error (rd_unreadable_error r) path ("read error: " +++ e)
  | CJson (VDict data) =>
      let version := match dget (rd_version_key r) data with
                     | Some v => Some v
                     | None => rd_missing_version r
                     end in
      let reason := str_or (rd_missing_version_reason r)
                      ("missing " +++ rd_version_key r +++ " field") in
      match version with
      | None => state_error (rd_corrupted_error r) path reason
      | Some version =>
          if bool_decide (version = VNone) && rd_none_is_missing r
          then state_error (rd_corrupted_error r) path reason
          else if py_eq version (VInt (rd_expected_version r)) then Ok data
          else
            handled ← match rd_on_version_mismatch r with
                      | Some handler => handler data version
                      | None => Ok tt
                      end;
            let '() := handled in
            state_error (rd_corrupted_error r) path
              ("incompatible version " +++ py_str version +++ " (this Forge expects " +++
               py_str (VInt (rd_expected_version r)) +++ "). Delete this file and retry.")
      end
  | CJson v =>
      state_error (rd_corrupted_error r) path ("expected JSON object, got " +++ type_name v)
  end.

End Versioned.
