(* ===== verification/PolicyTypes.v ===== *)
(** * PolicyTypes: the data of the policy engine and its persisted form

    [src/forge/policy/types.py] (decisions, violations, action contexts) and
    [src/forge/policy/store.py] (what is written to [confirmed.policy] of the
    session manifest). *)

From S2P Require Import Prelude PyValue.

(** ** policy/types.py *)

Inductive DecisionType := Allow | Deny | Warn | NeedsReview.
Inductive Severity := Critical | High | Medium | Low.
Inductive FailMode := FailOpen | FailClosed.
Inductive Provenance := ProvUnknown | ProvPolicy | ProvReviewer.

Record NativeReviewBoundary := {
  nrb_thread_id : string;
  nrb_turn_id : string;
  nrb_transcript_path : string;
  nrb_event : string;
  nrb_last_assistant_message : option string;
}.

Record ActionContext := {
  ac_origin : string;
  ac_event : string;
  ac_tool_name : string;
  ac_tool_args : dict;
  ac_repo_root : string;
  ac_session_name : string;
  ac_target_path : option string;
  ac_new_content : option string;
  ac_raw_diff : option string;
  ac_action_fingerprint : option string;
  ac_native_boundary : option NativeReviewBoundary;
}.

Record VerifiedCitation := {
  vc_source : string;
  vc_digest : string;
  vc_start : Z;
  vc_end : Z;
  vc_text : string;
}.

Record Violation := {
  vi_rule_id : string;
  vi_message : string;
  vi_severity : Severity;
  vi_evidence : option string;
  vi_suggested_fix : option string;
  vi_citations : list string;
  vi_provenance : Provenance;
  vi_verified_citations : list VerifiedCitation;
}.

Record PolicyDecision := {
  pd_decision : DecisionType;
  pd_policy_id : string;
  pd_violations : list Violation;
  pd_warnings : list string;
  pd_intent : option string;
  pd_cached : bool;
  pd_evaluated_at : option string;
  pd_fail_open : bool;
  pd_failure_type : option string;
  pd_telemetry_run_id : option string;
  pd_telemetry_parent_run_id : option string;
  pd_telemetry_root_run_id : option string;
  pd_warning_findings : list Violation;
  pd_diagnostic_codes : list string;
}.

Record CompositeDecision := {
  cd_final_decision : DecisionType;
  cd_decisions : list PolicyDecision;
  cd_blocking_violations : list Violation;
  cd_all_warnings : list string;
}.

#[export] Instance DecisionType_eq_dec : EqDecision DecisionType.
Proof. solve_decision. Defined.
#[export] Instance FailMode_eq_dec : EqDecision FailMode.
Proof. solve_decision. Defined.

(** [PolicyDecision(decision=d, policy_id=i)] with the dataclass defaults. *)
Definition mk_decision (d : DecisionType) (i : string) : PolicyDecision := {|
  pd_decision := d; pd_policy_id := i; pd_violations := []; pd_warnings := [];
  pd_intent := None; pd_cached := false; pd_evaluated_at := None; pd_fail_open := false;
  pd_failure_type := None; pd_telemetry_run_id := None; pd_telemetry_parent_run_id := None;
  pd_telemetry_root_run_id := None; pd_warning_findings := []; pd_diagnostic_codes := [];
|}.

(** [decision.evaluated_at = t]. *)
Definition set_evaluated_at (t : string) (d : PolicyDecision) : PolicyDecision := {|
  pd_decision := pd_decision d; pd_policy_id := pd_policy_id d;
  pd_violations := pd_violations d; pd_warnings := pd_warnings d; pd_intent := pd_intent d;
  pd_cached := pd_cached d; pd_evaluated_at := Some t; pd_fail_open := pd_fail_open d;
  pd_failure_type := pd_failure_type d; pd_telemetry_run_id := pd_telemetry_run_id d;
  pd_telemetry_parent_run_id := pd_telemetry_parent_run_id d;
  pd_telemetry_root_run_id := pd_telemetry_root_run_id d;
  pd_warning_findings := pd_warning_findings d; pd_diagnostic_codes := pd_diagnostic_codes d;
|}.

Definition decision_str (d : DecisionType) : string :=
  match d with Allow => "allow" | Deny => "deny" | Warn => "warn" | NeedsReview => "needs_review" end.
Definition severity_str (s : Severity) : string :=
  match s with Critical => "critical" | High => "high" | Medium => "medium" | Low => "low" end.
Definition provenance_str (p : Provenance) : string :=
  match p with ProvUnknown => "unknown" | ProvPolicy => "policy" | ProvReviewer => "reviewer" end.

(** *** extract_added_lines *)

(** [text.splitlines()]: the boundaries are LF, CR, CR LF, VT, FF, the separators
    U+001C to U+001E, U+0085, U+2028 and U+2029 (in UTF-8). *)
Definition is_line_sep (c : ascii) : bool :=
  bool_decide (c ∈ ["010"; "011"; "012"; "013"; "028"; "029"; "030"]%char).

Definition in_line (c : ascii) (lines : list string) : list string :=
  match lines with
  | [] => [String c EmptyString]
  | w :: ws => String c w :: ws
  end.

Fixpoint splitlines (s : string) : list string :=
  match s with
  | EmptyString => []
  | String "013"%char (String "010"%char s2) => EmptyString :: splitlines s2
  | String "194"%char (String "133"%char s2) => EmptyString :: splitlines s2
  | String "226"%char (String "128"%char (String "168"%char s3)) => EmptyString :: splitlines s3
  | String "226"%char (String "128"%char (String "169"%char s3)) => EmptyString :: splitlines s3
  | String c s1 =>
      if is_line_sep c then EmptyString :: splitlines s1 else in_line c (splitlines s1)
  end.

Definition extract_added_lines (diff_chunk : string) : string :=
  str_join (String "010" "")
    (map (str_drop 1)
       (filter (fun line => startswith "+" line && negb (startswith "+++" line))
          (splitlines diff_chunk))).

(** ** policy/store.py *)

Definition MAX_DECISION_LOG : Z := 100.

Definition opt_value (o : option string) : value :=
  match o with Some s => VStr s | None => VNone end.

Definition str_values (l : list string) : value := VList (map VStr l).

Definition asdict_citation (c : VerifiedCitation) : value :=
  VDict [("source", VStr (vc_source c)); ("digest", VStr (vc_digest c));
         ("start", VInt (vc_start c)); ("end", VInt (vc_end c)); ("text", VStr (vc_text c))].

Definition _serialize_violation (v : Violation) : value :=
  VDict [("rule_id", VStr (vi_rule_id v));
         ("message", VStr (vi_message v));
         ("severity", VStr (severity_str (vi_severity v)));
         ("evidence", opt_value (vi_evidence v));
         ("suggested_fix", opt_value (vi_suggested_fix v));
         ("citations", str_values (vi_citations v));
         ("provenance", VStr (provenance_str (vi_provenance v)));
         ("verified_citations", VList (map asdict_citation (vi_verified_citations v)))].

Definition serialize_decision (d : PolicyDecision) : value :=
  VDict [("decision", VStr (decision_str (pd_decision d)));
         ("policy_id", VStr (pd_policy_id d));
         ("violations", VList (map _serialize_violation (pd_violations d)));
         ("warnings", str_values (pd_warnings d));
         ("warning_findings", VList (map _serialize_violation (pd_warning_findings d)));
         ("diagnostic_codes", str_values (pd_diagnostic_codes d));
         ("fail_open", VBool (pd_fail_open d));
         ("failure_type", opt_value (pd_failure_type d));
         ("intent", opt_value (pd_intent d));
         ("cached", VBool (pd_cached d));
         ("evaluated_at", opt_value (pd_evaluated_at d))].

Definition serialize_composite_decision (now : string) (c : CompositeDecision)
    (context_summary : option string) : value :=
  VDict [("final_decision", VStr (decision_str (cd_final_decision c)));
         ("context_summary", opt_value context_summary);
         ("blocking_violations", VList (map _serialize_violation (cd_blocking_violations c)));
         ("warnings", str_values (cd_all_warnings c));
         ("evaluated_at", VStr now);
         ("decisions", VList (map serialize_decision (cd_decisions c)))].

(** [l[-n:]] for [0 < n]. *)
Definition last_n {A} (n : Z) (l : list A) : list A := drop (length l - Z.to_nat n) l.

(** [x or y] for an optional string and for a list. *)
Definition or_str (x : option string) (y : value) : value :=
  match x with Some s => if String.eqb s "" then y else VStr s | None => y end.
Definition or_strs (x : option (list string)) (y : value) : value :=
  match x with Some ((_ :: _) as l) => str_values l | _ => y end.

Definition build_policy_state_update (now : string) (result : CompositeDecision)
    (engine_state : list (string * dict)) (existing_state : option dict)
    (forge_version : option string) (bundles rules_active : option (list string))
    (context_summary : option string) : res dict :=
  let existing := match existing_state with Some d => d | None => [] end in
  log ← py_list (dget_default "decisions" (VList []) existing);
  let decisions_log := log ++ [serialize_composite_decision now result context_summary] in
  let decisions_log :=
    if MAX_DECISION_LOG <? Z.of_nat (length decisions_log)
    then last_n MAX_DECISION_LOG decisions_log else decisions_log in
  states ← py_dict (dget_default "policy_states" (VDict []) existing);
  let merged_states := dupdate states (map (fun '(k, s) => (k, VDict s)) engine_state) in
  Ok [("forge_version", or_str forge_version (dget_default "forge_version" VNone existing));
      ("bundles", or_strs bundles (dget_default "bundles" (VList []) existing));
      ("rules_active", or_strs rules_active (dget_default "rules_active" (VList []) existing));
      ("decisions", VList decisions_log);
      ("policy_states", VDict merged_states)].

(** ** Properties *)

(** What [build_policy_state_update] promises: the new entry is the last of the log,
    the log is a suffix of the old one extended by it and never exceeds the bound, and
    each policy's state is the collected one when it was collected, the old one otherwise. *)
Record state_update_spec (now : string) (result : CompositeDecision)
    (engine_state : list (string * dict)) (old_log : list value) (old_states : dict)
    (context_summary : option string) (upd : dict) : Prop := {
  sus_log : exists log dropped,
    dget "decisions" upd = Some (VList (log ++ [serialize_composite_decision now result context_summary]))
    /\ old_log = dropped ++ log
    /\ Z.of_nat (length log) + 1 <= MAX_DECISION_LOG
    /\ (dropped <> [] -> Z.of_nat (length log) + 1 = MAX_DECISION_LOG);
  sus_states : exists states,
    dget "policy_states" upd = Some (VDict states)
    /\ forall k, dget k states =
         match dget k engine_state with Some s => Some (VDict s) | None => dget k old_states end;
}.

Lemma dget_map_VDict k (d : list (string * dict)) :
  dget k (map (fun '(j, s) => (j, VDict s)) d) = VDict <$> dget k d.
Proof. induction d as [|[j s] d IH]; simpl; [done|]. by case_decide. Qed.

Lemma dkeys_map_VDict (d : list (string * dict)) :
  dkeys (map (fun '(j, s) => (j, VDict s)) d) = dkeys d.
Proof. unfold dkeys. induction d as [|[j s] d IH]; csimpl; [done|]. by rewrite IH. Qed.

Lemma state_update_meets_spec now result engine_state existing old_log old_states
    forge_version bundles rules_active context_summary :
  NoDup (dkeys engine_state) ->
  py_list (dget_default "decisions" (VList []) (default [] existing)) = Ok old_log ->
  py_dict (dget_default "policy_states" (VDict []) (default [] existing)) = Ok old_states ->
  exists upd,
    build_policy_state_update now result engine_state existing forge_version bundles rules_active
      context_summary = Ok upd
    /\ state_update_spec now result engine_state old_log old_states context_summary upd.
Proof.
  intros Hnd Hlog Hst. unfold build_policy_state_update.
  change (match existing with Some d => d | None => [] end) with (default [] existing).
  rewrite Hlog, Hst. eexists; split; [reflexivity|]. split.
  - set (e := serialize_composite_decision now result context_summary).
    case_match eqn:Hlt; zbool; simpl; unfold last_n, MAX_DECISION_LOG in *; rewrite length_app in *; simpl in *.
    + exists (drop (length old_log + 1 - Z.to_nat 100) old_log),
             (take (length old_log + 1 - Z.to_nat 100) old_log).
      split_and!; [|by rewrite take_drop|rewrite length_drop; lia|rewrite length_drop; lia].
      rewrite drop_app_le by lia. done.
    + exists old_log, []. split_and!; [done..|lia|done].
  - eexists; split; [reflexivity|]. intros k.
    rewrite dget_dupdate by by rewrite dkeys_map_VDict.
    rewrite dget_map_VDict. by destruct (dget k engine_state).
Qed.

(** Persisting an evaluation appends its composite decision to the decision log, keeps
    the log a suffix of at most [MAX_DECISION_LOG] entries (dropping oldest first, and only
    when the bound is hit), replaces the state of exactly the policies whose state was
    collected, and keeps every other policy's persisted state. *)
Theorem build_policy_state_update_correct now result engine_state existing old_log old_states
    forge_version bundles rules_active context_summary :
  NoDup (dkeys engine_state) ->
  py_list (dget_default "decisions" (VList []) (default [] existing)) = Ok old_log ->
  py_dict (dget_default "policy_states" (VDict []) (default [] existing)) = Ok old_states ->
  exists upd,
    build_policy_state_update now result engine_state existing forge_version bundles rules_active
      context_summary = Ok upd
    /\ state_update_spec now result engine_state old_log old_states context_summary upd.
Proof. apply state_update_meets_spec. Qed.

Definition composite0 : CompositeDecision := {|
  cd_final_decision := Allow; cd_decisions := [mk_decision Allow "p"];
  cd_blocking_violations := []; cd_all_warnings := [] |}.

Lemma build_policy_state_update_witness :
  exists upd,
    build_policy_state_update "t" composite0 [("p", [("n", VInt 1)])]
      (Some [("decisions", VList (repeat VNone 100)); ("policy_states", VDict [("q", VNone)])])
      None (Some ["tdd"]) None None = Ok upd
    /\ state_update_spec "t" composite0 [("p", [("n", VInt 1)])] (repeat VNone 100)
         [("q", VNone)] None upd.
Proof.
  apply build_policy_state_update_correct.
  - apply (bool_decide_unpack _). vm_compute. exact I.
  - vm_compute. reflexivity.
  - vm_compute. reflexivity.
Defined.
