(* ===== verification/PolicyEngine.v ===== *)
(** * PolicyEngine: composing policies into one decision

    [src/forge/policy/engine.py] over the interface of
    [src/forge/policy/protocols.py]. A policy is an object of some type [P] with the
    operations of [PolicyOps]; the engine is a record of such objects, and
    [evaluate] returns the engine after the call (policies may change their own
    state), the composite decision and the telemetry it attempted to record. *)

From S2P Require Import Prelude PyValue PolicyTypes.

(** ** policy/protocols.py *)

(** [Policy] and [StatefulPolicy]. [is_stateful p] is [isinstance(p, StatefulPolicy)];
    [evaluate_policy] and [set_state] may change the object before they raise. *)
Class PolicyOps (P : Type) := {
  policy_id : P -> string;
  applies_to : P -> ActionContext -> res bool;
  evaluate_policy : P -> ActionContext -> P * res PolicyDecision;
  is_stateful : P -> bool;
  get_state : P -> res dict;
  set_state : P -> value -> P * res unit;
}.

(** What the engine relies on: a policy keeps its identity and its class. *)
Class PolicyLaws (P : Type) `{PolicyOps P} := {
  evaluate_policy_id : forall p ctx, policy_id (evaluate_policy p ctx).1 = policy_id p;
  set_state_id : forall p v, policy_id (set_state p v).1 = policy_id p;
  evaluate_stateful : forall p ctx, is_stateful (evaluate_policy p ctx).1 = is_stateful p;
  set_state_stateful : forall p v, is_stateful (set_state p v).1 = is_stateful p;
}.

(** ** core/telemetry/upstream.py: statuses *)

Inductive UpstreamStatus :=
| USuccess | UWarning | UFailOpen | UDeny | UNeedsReview | UError | UTimeout | USkipped.

(** The record [_record_policy_outcome] passes to [record_upstream_operation]
    (latency, a clock difference, left out). *)
Record UpstreamRecord := {
  ur_status : UpstreamStatus;
  ur_session : string;
  ur_run_id : option string;
  ur_parent_run_id : option string;
  ur_root_run_id : option string;
  ur_origin : string;
  ur_policy_id : string;
  ur_tool_name : string;
  ur_target_path : option string;
  ur_reason_code : option string;
  ur_message : option string;
  ur_cached : bool;
}.

Definition _warning_mentions_fail_open (d : PolicyDecision) : bool :=
  existsb (fun w => contains "fail-open" w || contains "failing open" w) (pd_warnings d).

Definition opt_is (s : string) (o : option string) : bool :=
  match o with Some t => String.eqb s t | None => false end.

Definition _policy_decision_status (d : PolicyDecision) : UpstreamStatus :=
  match pd_decision d with
  | Allow =>
      if pd_fail_open d || _warning_mentions_fail_open d then
        if opt_is "timeout" (pd_failure_type d) then UTimeout
        else if opt_is "skipped" (pd_failure_type d) then USkipped
        else UFailOpen
      else match pd_warnings d with _ :: _ => UWarning | [] => USuccess end
  | Warn => UWarning
  | Deny => UDeny
  | NeedsReview => UNeedsReview
  end.

(** [failure_type or "fail_open"]. *)
Definition or_default (o : option string) (x : string) : string :=
  match o with Some s => if String.eqb s "" then x else s | None => x end.

Definition _policy_reason_code (d : PolicyDecision) : option string :=
  let is_allow := bool_decide (pd_decision d = Allow) in
  if is_allow && pd_cached d then Some "cached_allow"
  else if is_allow && (pd_fail_open d || _warning_mentions_fail_open d)
  then Some (or_default (pd_failure_type d) "fail_open")
  else match pd_violations d, pd_warnings d with
       | v :: _, _ => Some (vi_rule_id v)
       | [], _ :: _ => Some "warning"
       | [], [] => Some (decision_str (pd_decision d))
       end.

Definition _policy_message (d : PolicyDecision) : option string :=
  match pd_warnings d, pd_violations d with
  | w :: _, _ => Some w
  | [], v :: _ => Some (vi_message v)
  | [], [] => None
  end.

Definition record_policy_outcome (pid : string) (ctx : ActionContext) (d : PolicyDecision)
    (reason_code : option string) : UpstreamRecord := {|
  ur_status := _policy_decision_status d;
  ur_session := ac_session_name ctx;
  ur_run_id := pd_telemetry_run_id d;
  ur_parent_run_id := pd_telemetry_parent_run_id d;
  ur_root_run_id := pd_telemetry_root_run_id d;
  ur_origin := ac_origin ctx;
  ur_policy_id := pid;
  ur_tool_name := ac_tool_name ctx;
  ur_target_path := ac_target_path ctx;
  ur_reason_code := match reason_code with Some r => Some r | None => _policy_reason_code d end;
  ur_message := _policy_message d;
  ur_cached := pd_cached d;
|}.

(** [PolicyDecision(decision, policy_id, warnings=[w], fail_open=o, failure_type=t)]. *)
Definition failure_decision (k : DecisionType) (pid w : string) (o : bool) (t : string)
    : PolicyDecision := {|
  pd_decision := k; pd_policy_id := pid; pd_violations := []; pd_warnings := [w];
  pd_intent := None; pd_cached := false; pd_evaluated_at := None; pd_fail_open := o;
  pd_failure_type := Some t; pd_telemetry_run_id := None; pd_telemetry_parent_run_id := None;
  pd_telemetry_root_run_id := None; pd_warning_findings := []; pd_diagnostic_codes := [];
|}.

(** ** The engine *)

Section engine.
Context {P : Type} `{PolicyOps P}.

(** [now_iso()], read once per recorded decision: [clock n] is the [n]-th reading. *)
Variable clock : nat -> string.

Record PolicyEngine := {
  policies : list P;
  fail_mode : FailMode;
  resolver : option P;
  collected_state : list (string * dict);
}.

Definition new_engine (fm : FailMode) : PolicyEngine :=
  {| policies := []; fail_mode := fm; resolver := None; collected_state := [] |}.

Definition register (p : P) (e : PolicyEngine) : PolicyEngine := {|
  policies := policies e ++ [p]; fail_mode := fail_mode e; resolver := resolver e;
  collected_state := collected_state e |}.

Definition register_resolver (p : P) (e : PolicyEngine) : PolicyEngine := {|
  policies := policies e; fail_mode := fail_mode e; resolver := Some p;
  collected_state := collected_state e |}.

Definition _all_policies (e : PolicyEngine) : list P :=
  policies e ++ match resolver e with Some r => [r] | None => [] end.

Definition registered_policy_ids (e : PolicyEngine) : list string :=
  map policy_id (_all_policies e).

(** One policy of [restore_state]: an exception of [set_state] is logged and dropped. *)
Definition restore_one (persisted : dict) (p : P) : P :=
  if is_stateful p then
    match dget (policy_id p) persisted with
    | None | Some VNone => p
    | Some v => (set_state p v).1
    end
  else p.

Definition restore_state (persisted : option dict) (e : PolicyEngine) : PolicyEngine :=
  match persisted with
  | None => e
  | Some d => {|
      policies := map (restore_one d) (policies e); fail_mode := fail_mode e;
      resolver := restore_one d <$> resolver e; collected_state := collected_state e |}
  end.

(** What one evaluation accumulates. *)
Record run_acc := {
  ra_decisions : list PolicyDecision;
  ra_collected : list (string * dict);
  ra_log : list UpstreamRecord;
}.

Definition acc_empty : run_acc := {| ra_decisions := []; ra_collected := []; ra_log := [] |}.

Definition acc_decision (d : PolicyDecision) (r : UpstreamRecord) (a : run_acc) : run_acc := {|
  ra_decisions := ra_decisions a ++ [d]; ra_collected := ra_collected a;
  ra_log := ra_log a ++ [r] |}.

Definition acc_log (r : UpstreamRecord) (a : run_acc) : run_acc := {|
  ra_decisions := ra_decisions a; ra_collected := ra_collected a; ra_log := ra_log a ++ [r] |}.

Definition acc_collect (k : string) (s : dict) (a : run_acc) : run_acc := {|
  ra_decisions := ra_decisions a; ra_collected := dset k s (ra_collected a); ra_log := ra_log a |}.

(** [_run_policy]: the [applies_to] gate, evaluation with the fail mode, state collection. *)
Definition _run_policy (fm : FailMode) (ctx : ActionContext) (p : P) (a : run_acc)
    : P * run_acc :=
  let pid := policy_id p in
  match applies_to p ctx with
  | Ok false => (p, a)
  | Err x =>
      match fm with
      | FailClosed =>
          let d := failure_decision Deny pid
                     ("Policy applies_to() failed (fail-closed): " +++ exn_msg x) false
                     "applies_to_error" in
          (p, acc_decision d (record_policy_outcome pid ctx d (Some "applies_to_error")) a)
      | FailOpen =>
          let d := failure_decision Allow pid
                     ("Policy applies_to() failed (fail-open): " +++ exn_msg x) true
                     "applies_to_error" in
          (p, acc_log (record_policy_outcome pid ctx d (Some "applies_to_fail_open")) a)
      end
  | Ok true =>
      let '(p', r) := evaluate_policy p ctx in
      match r with
      | Ok d =>
          let d := set_evaluated_at (clock (length (ra_decisions a))) d in
          let a := acc_decision d (record_policy_outcome pid ctx d None) a in
          if is_stateful p' then
            match get_state p' with
            | Ok s => (p', acc_collect (policy_id p') s a)
            | Err _ => (p', a)
            end
          else (p', a)
      | Err x =>
          match fm with
          | FailOpen =>
              let d := failure_decision Allow pid
                         ("Policy evaluation failed (fail-open): " +++ exn_msg x) true
                         "policy_error" in
              (p', acc_decision d (record_policy_outcome pid ctx d (Some "evaluate_fail_open")) a)
          | FailClosed =>
              let d := failure_decision Deny pid
                         ("Policy evaluation failed (fail-closed): " +++ exn_msg x) false
                         "policy_error" in
              (p', acc_decision d (record_policy_outcome pid ctx d (Some "evaluate_error")) a)
          end
      end
  end.

(** The loop over [self.policies]. *)
Fixpoint run_policies (fm : FailMode) (ctx : ActionContext) (ps : list P) (a : run_acc)
    : list P * run_acc :=
  match ps with
  | [] => ([], a)
  | p :: ps =>
      let '(p', a) := _run_policy fm ctx p a in
      let '(ps', a) := run_policies fm ctx ps a in
      (p' :: ps', a)
  end.

Definition any_decision (k : DecisionType) (ds : list PolicyDecision) : bool :=
  existsb (fun d => bool_decide (pd_decision d = k)) ds.

(** The composition loop of [evaluate]. *)
Definition compose_step (s : DecisionType * list Violation * list string * bool)
    (d : PolicyDecision) : DecisionType * list Violation * list string * bool :=
  let '(final, blocking, warnings, needs_review) := s in
  let warnings := warnings ++ pd_warnings d in
  match pd_decision d with
  | Deny => (Deny, blocking ++ pd_violations d, warnings, needs_review)
  | NeedsReview => (final, blocking, warnings, true)
  | Warn => (if bool_decide (final = Allow) then Warn else final, blocking, warnings, needs_review)
  | Allow => (final, blocking, warnings, needs_review)
  end.

Definition compose (resolver_ids : list string) (ds : list PolicyDecision) : CompositeDecision :=
  let '(final, blocking, warnings, needs_review) :=
    fold_left compose_step ds (Allow, [], [], false) in
  let review_resolved :=
    existsb (fun d => bool_decide (pd_policy_id d ∈ resolver_ids)
                      && negb (bool_decide (pd_decision d = NeedsReview))) ds in
  let final :=
    if needs_review && negb review_resolved && negb (bool_decide (final = Deny))
    then NeedsReview else final in
  {| cd_final_decision := final; cd_decisions := ds; cd_blocking_violations := blocking;
     cd_all_warnings := warnings |}.

Definition resolver_ids (r : option P) : list string :=
  "semantic.supervisor" :: match r with Some p => [policy_id p] | None => [] end.

(** [evaluate]. *)
Definition evaluate (ctx : ActionContext) (e : PolicyEngine)
    : PolicyEngine * CompositeDecision * list UpstreamRecord :=
  let '(ps, a) := run_policies (fail_mode e) ctx (policies e) acc_empty in
  let '(r, a) :=
    match resolver e with
    | Some p =>
        if any_decision NeedsReview (ra_decisions a) && negb (any_decision Deny (ra_decisions a))
        then let '(p', a) := _run_policy (fail_mode e) ctx p a in (Some p', a)
        else (Some p, a)
    | None => (None, a)
    end in
  ({| policies := ps; fail_mode := fail_mode e; resolver := r;
      collected_state := ra_collected a |},
   compose (resolver_ids r) (ra_decisions a),
   ra_log a).

Definition get_collected_state (e : PolicyEngine) : list (string * dict) := collected_state e.

(** ** Specification *)

(** The decisions one policy contributes, as a relation. *)
Inductive policy_outcome (fm : FailMode) (ctx : ActionContext) (p : P) : list PolicyDecision -> Prop :=
| outcome_skipped :
    applies_to p ctx = Ok false -> policy_outcome fm ctx p []
| outcome_gate_open x :
    applies_to p ctx = Err x -> fm = FailOpen -> policy_outcome fm ctx p []
| outcome_gate_closed x d :
    applies_to p ctx = Err x -> fm = FailClosed ->
    pd_decision d = Deny -> pd_policy_id d = policy_id p ->
    policy_outcome fm ctx p [d]
| outcome_decided d t :
    applies_to p ctx = Ok true -> (evaluate_policy p ctx).2 = Ok d ->
    policy_outcome fm ctx p [set_evaluated_at t d]
| outcome_error x d :
    applies_to p ctx = Ok true -> (evaluate_policy p ctx).2 = Err x ->
    pd_decision d = (match fm with FailOpen => Allow | FailClosed => Deny end) ->
    pd_policy_id d = policy_id p ->
    pd_fail_open d = bool_decide (fm = FailOpen) ->
    policy_outcome fm ctx p [d].

(** [ds] holds a decision of a resolver that is not [needs_review]. *)
Definition resolved (ids : list string) (ds : list PolicyDecision) : Prop :=
  Exists (fun d => pd_policy_id d ∈ ids /\ pd_decision d <> NeedsReview) ds.

Definition has (k : DecisionType) (ds : list PolicyDecision) : Prop :=
  Exists (fun d => pd_decision d = k) ds.

(** The composition rule: any deny blocks; an unresolved review escalates; then warnings. *)
Inductive composes (ids : list string) (ds : list PolicyDecision) : DecisionType -> Prop :=
| composes_deny : has Deny ds -> composes ids ds Deny
| composes_review :
    ~ has Deny ds -> has NeedsReview ds -> ~ resolved ids ds -> composes ids ds NeedsReview
| composes_warn :
    ~ has Deny ds -> ~ has NeedsReview ds \/ resolved ids ds -> has Warn ds ->
    composes ids ds Warn
| composes_allow :
    ~ has Deny ds -> ~ has NeedsReview ds \/ resolved ids ds -> ~ has Warn ds ->
    composes ids ds Allow.

(** When the resolver is consulted: some policy asked for review and none denied. *)
Definition escalates (ds : list PolicyDecision) : Prop := has NeedsReview ds /\ ~ has Deny ds.

(** What [evaluate] promises. *)
Record evaluate_spec (ctx : ActionContext) (e : PolicyEngine) (c : CompositeDecision) : Prop := {
  es_decisions : exists ls,
    Forall2 (policy_outcome (fail_mode e) ctx) (policies e) ls
    /\ (cd_decisions c = concat ls /\ (resolver e = None \/ ~ escalates (concat ls))
        \/ exists r l, resolver e = Some r /\ escalates (concat ls)
            /\ policy_outcome (fail_mode e) ctx r l /\ cd_decisions c = concat ls ++ l);
  es_final : composes (resolver_ids (resolver e)) (cd_decisions c) (cd_final_decision c);
  es_blocking : cd_blocking_violations c =
    concat (map pd_violations (filter (fun d => pd_decision d = Deny) (cd_decisions c)));
  es_warnings : cd_all_warnings c = concat (map pd_warnings (cd_decisions c));
}.

(** [p] raises on [ctx]; [p] returns the verdict [k] on [ctx]. *)
Definition policy_raises (ctx : ActionContext) (p : P) : Prop :=
  (exists x, applies_to p ctx = Err x)
  \/ (applies_to p ctx = Ok true /\ exists x, (evaluate_policy p ctx).2 = Err x).

Definition policy_returns (ctx : ActionContext) (p : P) (k : DecisionType) : Prop :=
  applies_to p ctx = Ok true
  /\ exists d, (evaluate_policy p ctx).2 = Ok d /\ pd_decision d = k.

(** The state [p] leaves when it is evaluated on [ctx]: the one [get_state] returns, when
    [p] is stateful, applies, and neither [evaluate] nor [get_state] raises. *)
Definition left_state (ctx : ActionContext) (p : P) : option dict :=
  match applies_to p ctx, evaluate_policy p ctx with
  | Ok true, (p', Ok _) =>
      if is_stateful p' then
        match get_state p' with Ok s => Some s | Err _ => None end
      else None
  | _, _ => None
  end.

(** ** Lemmas on the composition *)

Lemma any_decision_has k ds : any_decision k ds = true <-> has k ds.
Proof.
  unfold any_decision, has. rewrite existsb_exists, Exists_exists.
  setoid_rewrite bool_decide_eq_true. setoid_rewrite list_elem_of_In. done.
Qed.

Lemma not_any_decision_has k ds : any_decision k ds = false <-> ~ has k ds.
Proof. rewrite <- any_decision_has. by destruct (any_decision k ds). Qed.

#[local] Instance has_dec k ds : Decision (has k ds).
Proof. unfold has. apply _. Defined.

Lemma has_app k ds es : has k (ds ++ es) <-> has k ds \/ has k es.
Proof. apply Exists_app. Qed.

Lemma has_concat k ls : has k (concat ls) <-> Exists (has k) ls.
Proof.
  induction ls as [|l ls IH]; simpl; [by split; inversion 1|].
  by rewrite has_app, Exists_cons, IH.
Qed.

Lemma resolved_bool ids ds :
  existsb (fun d => bool_decide (pd_policy_id d ∈ ids)
                    && negb (bool_decide (pd_decision d = NeedsReview))) ds = true
  <-> resolved ids ds.
Proof.
  unfold resolved. rewrite existsb_exists, Exists_exists.
  setoid_rewrite andb_true_iff. setoid_rewrite negb_true_iff.
  setoid_rewrite bool_decide_eq_true. setoid_rewrite bool_decide_eq_false.
  setoid_rewrite list_elem_of_In. naive_solver.
Qed.

Lemma fold_compose_step ds f b w n :
  fold_left compose_step ds (f, b, w, n) =
  (if any_decision Deny ds then Deny
   else if bool_decide (f = Allow) && any_decision Warn ds then Warn else f,
   b ++ concat (map pd_violations (filter (fun d => pd_decision d = Deny) ds)),
   w ++ concat (map pd_warnings ds),
   n || any_decision NeedsReview ds).
Proof.
  revert f b w n. induction ds as [|d ds IH]; intros f b w n; simpl.
  - rewrite !app_nil_r, orb_false_r, andb_false_r. done.
  - rewrite filter_cons. destruct (pd_decision d); simpl; rewrite IH; simpl.
    + rewrite <- app_assoc. done.
    + rewrite <- !app_assoc. by destruct (any_decision Deny ds).
    + rewrite <- app_assoc. by destruct f, (any_decision Deny ds), (any_decision Warn ds).
    + by rewrite <- app_assoc, !orb_true_r.
Qed.

Lemma compose_final ids ds : composes ids ds (cd_final_decision (compose ids ds)).
Proof.
  unfold compose. rewrite fold_compose_step. simpl. case_match eqn:Hr; simpl.
  - apply andb_prop in Hr as [[Hn Hres]%andb_prop Hd].
    apply any_decision_has in Hn. apply negb_true_iff in Hres.
    destruct (any_decision Deny ds) eqn:E; [by rewrite bool_decide_true in Hd|].
    apply not_any_decision_has in E. apply composes_review; [done..|].
    rewrite <- resolved_bool. congruence.
  - destruct (any_decision Deny ds) eqn:E; [by apply composes_deny, any_decision_has|].
    apply not_any_decision_has in E.
    assert (~ has NeedsReview ds \/ resolved ids ds) as Hor.
    { rewrite bool_decide_false in Hr by (destruct (any_decision Warn ds); done).
      rewrite andb_true_r in Hr. apply andb_false_iff in Hr as [Hr|Hr].
      - left. by apply not_any_decision_has.
      - right. apply negb_false_iff in Hr. by apply resolved_bool. }
    destruct (any_decision Warn ds) eqn:E'.
    + apply composes_warn; [done..|]. by apply any_decision_has.
    + apply composes_allow; [done..|]. by apply not_any_decision_has.
Qed.

Lemma composes_Deny ids ds k : composes ids ds k -> k = Deny <-> has Deny ds.
Proof. intros []; naive_solver. Qed.

(** ** Lemmas on the run *)

Ltac run_cases :=
  unfold _run_policy, acc_decision, acc_log, acc_collect;
  repeat (case_match; simplify_eq/=).

Lemma run_policy_outcome fm ctx p a :
  exists l, policy_outcome fm ctx p l
            /\ ra_decisions (_run_policy fm ctx p a).2 = ra_decisions a ++ l.
Proof.
  unfold _run_policy. destruct (applies_to p ctx) as [[]|x] eqn:Ha.
  - destruct (evaluate_policy p ctx) as [p' [d|x]] eqn:He.
    + eexists [_]; split; [eapply outcome_decided; [done|by rewrite He]|].
      by repeat case_match.
    + destruct fm; simpl; (eexists; split; [|reflexivity]);
        (eapply outcome_error; [done|by rewrite He|done..]).
  - exists []. split; [by apply outcome_skipped|]. by rewrite app_nil_r.
  - destruct fm; simpl.
    + exists []. split; [by eapply outcome_gate_open|]. by rewrite app_nil_r.
    + eexists; split; [|reflexivity]. by eapply outcome_gate_closed.
Qed.

Lemma run_policies_outcome fm ctx ps a :
  exists ls, Forall2 (policy_outcome fm ctx) ps ls
             /\ ra_decisions (run_policies fm ctx ps a).2 = ra_decisions a ++ concat ls.
Proof.
  revert a. induction ps as [|p ps IH]; intros a; simpl.
  - exists []. split; [done|]. by rewrite app_nil_r.
  - destruct (run_policy_outcome fm ctx p a) as (l & Hl & Hd).
    destruct (_run_policy fm ctx p a) as [p' a']. simpl in Hd.
    destruct (IH a') as (ls & Hls & Hds). destruct (run_policies fm ctx ps a') as [ps' a''].
    exists (l :: ls). split; [by constructor|]. simpl in *. by rewrite Hds, Hd, <- app_assoc.
Qed.

Lemma run_policy_id `{!PolicyLaws P} fm ctx p a :
  policy_id (_run_policy fm ctx p a).1 = policy_id p.
Proof.
  pose proof (evaluate_policy_id p ctx) as Hid. unfold _run_policy.
  destruct (applies_to p ctx) as [[]|]; [|done|by destruct fm].
  destruct (evaluate_policy p ctx) as [p' [d|x]]; simpl in *; [|by destruct fm].
  by repeat case_match.
Qed.

Lemma run_policy_collected `{!PolicyLaws P} fm ctx p a :
  ra_collected (_run_policy fm ctx p a).2 =
  match left_state ctx p with Some s => dset (policy_id p) s (ra_collected a) | None => ra_collected a end.
Proof.
  pose proof (evaluate_policy_id p ctx) as Hid. unfold _run_policy, left_state.
  destruct (applies_to p ctx) as [[]|]; [|done|by destruct fm].
  destruct (evaluate_policy p ctx) as [p' [d|x]]; simpl in *; [|by destruct fm].
  destruct (is_stateful p'); [|done]. destruct (get_state p'); [|done]. simpl. by rewrite Hid.
Qed.

Lemma run_policies_collected `{!PolicyLaws P} fm ctx ps a k :
  NoDup (map policy_id ps) ->
  (k ∉ map policy_id ps ->
     dget k (ra_collected (run_policies fm ctx ps a).2) = dget k (ra_collected a))
  /\ (forall p, p ∈ ps -> k = policy_id p ->
     dget k (ra_collected (run_policies fm ctx ps a).2) =
     match left_state ctx p with Some s => Some s | None => dget k (ra_collected a) end).
Proof.
  revert a. induction ps as [|q ps IH]; intros a; simpl.
  { intros _. split; [done|]. by intros ? ?%elem_of_nil. }
  intros [Hq Hnd]%NoDup_cons. pose proof (run_policy_collected fm ctx q a) as Hc.
  destruct (_run_policy fm ctx q a) as [q' a']. simpl in Hc.
  destruct (IH a' Hnd) as [IHn IHp].
  destruct (run_policies fm ctx ps a') as [ps' a'']; simpl in *. split.
  - intros [Hne Hni]%not_elem_of_cons. rewrite IHn, Hc by done.
    case_match; [by apply dget_dset_ne|done].
  - intros p [->|Hp]%elem_of_cons ->.
    + rewrite IHn, Hc by done. case_match; [apply dget_dset_eq|done].
    + rewrite (IHp p), Hc by done. destruct (left_state ctx p); [done|]. destruct (left_state ctx q); [|done].
      apply dget_dset_ne. intros Heq. apply Hq. rewrite <- Heq.
      rewrite list_elem_of_In, in_map_iff. exists p. by rewrite <- list_elem_of_In.
Qed.

Lemma compose_spec_fields ids ds :
  let c := compose ids ds in
  cd_decisions c = ds
  /\ cd_blocking_violations c =
       concat (map pd_violations (filter (fun d => pd_decision d = Deny) ds))
  /\ cd_all_warnings c = concat (map pd_warnings ds).
Proof. unfold compose. by rewrite fold_compose_step. Qed.

Lemma escalates_bool ds :
  any_decision NeedsReview ds && negb (any_decision Deny ds) = true <-> escalates ds.
Proof. unfold escalates. by rewrite andb_true_iff, negb_true_iff, any_decision_has, not_any_decision_has. Qed.

Lemma evaluate_spec_intro ctx e ds ls :
  Forall2 (policy_outcome (fail_mode e) ctx) (policies e) ls ->
  (ds = concat ls /\ (resolver e = None \/ ~ escalates (concat ls))
   \/ exists r l, resolver e = Some r /\ escalates (concat ls)
       /\ policy_outcome (fail_mode e) ctx r l /\ ds = concat ls ++ l) ->
  evaluate_spec ctx e (compose (resolver_ids (resolver e)) ds).
Proof.
  intros Hls Hds. destruct (compose_spec_fields (resolver_ids (resolver e)) ds) as (Hd & Hb & Hw).
  split; rewrite ?Hd; [by exists ls|apply compose_final|done..].
Qed.

Lemma evaluate_meets_spec `{!PolicyLaws P} ctx e : evaluate_spec ctx e (evaluate ctx e).1.2.
Proof.
  unfold evaluate.
  destruct (run_policies_outcome (fail_mode e) ctx (policies e) acc_empty) as (ls & Hls & Hds).
  destruct (run_policies (fail_mode e) ctx (policies e) acc_empty) as [ps a]; simpl in Hds.
  destruct (resolver e) as [r|] eqn:Hr; simpl.
  - destruct (any_decision NeedsReview (ra_decisions a)
              && negb (any_decision Deny (ra_decisions a))) eqn:Hesc.
    + apply escalates_bool in Hesc.
      destruct (run_policy_outcome (fail_mode e) ctx r a) as (l & Hl & Hd).
      pose proof (run_policy_id (fail_mode e) ctx r a) as Hid.
      destruct (_run_policy (fail_mode e) ctx r a) as [r' a']; simpl in *.
      assert (resolver_ids (Some r') = resolver_ids (resolver e)) as ->
        by (rewrite Hr; unfold resolver_ids; by rewrite Hid).
      rewrite Hds in *.
      eapply evaluate_spec_intro; [done|]. right. eauto 10.
    + rewrite <- not_true_iff_false, escalates_bool, Hds in Hesc. cbn [fst snd]. rewrite <- Hr.
      eapply evaluate_spec_intro; [done|]. auto.
  - rewrite <- Hr. eapply evaluate_spec_intro; [done|]. auto.
Qed.

(** ** Properties *)

(** C1: [evaluate] refines the composition specification: each policy contributes exactly
    what its gate, its verdict or its exception under the fail mode says, the resolver is
    consulted exactly when some policy asked for review and none denied, and the final
    decision, the blocking violations and the warnings are the composition of the decisions. *)
Theorem evaluate_correct `{!PolicyLaws P} ctx e :
  evaluate_spec ctx e (evaluate ctx e).1.2.
Proof. apply evaluate_meets_spec. Qed.

Lemma outcome_of_policy `{!PolicyLaws P} ctx e p :
  p ∈ policies e ->
  exists l, policy_outcome (fail_mode e) ctx p l
            /\ forall d, d ∈ l -> d ∈ cd_decisions (evaluate ctx e).1.2.
Proof.
  intros Hp. destruct (es_decisions _ _ _ (evaluate_meets_spec ctx e)) as (ls & Hls & Hds).
  apply list_elem_of_lookup in Hp as [i Hi].
  destruct (Forall2_lookup_l _ _ _ _ _ Hls Hi) as (l & Hl & Ho).
  exists l. split; [done|]. intros d Hd.
  assert (d ∈ concat ls) as Hin.
  { rewrite list_elem_of_In, in_concat. exists l. rewrite <- !list_elem_of_In.
    split; [by eapply list_elem_of_lookup_2|done]. }
  destruct Hds as [[-> _]|(r & l' & _ & _ & _ & ->)]; [done|].
  apply elem_of_app. by left.
Qed.

Lemma deny_blocks `{!PolicyLaws P} ctx e d :
  d ∈ cd_decisions (evaluate ctx e).1.2 -> pd_decision d = Deny ->
  cd_final_decision (evaluate ctx e).1.2 = Deny.
Proof.
  intros Hd Hk. eapply composes_Deny; [exact (es_final _ _ _ (evaluate_meets_spec ctx e))|].
  apply Exists_exists. by exists d.
Qed.

(** In fail-closed mode an exception of any registered policy, in [applies_to] or in
    [evaluate], blocks the action. *)
Theorem fail_closed_blocks `{!PolicyLaws P} ctx e p :
  fail_mode e = FailClosed -> p ∈ policies e -> policy_raises ctx p ->
  cd_final_decision (evaluate ctx e).1.2 = Deny.
Proof.
  intros Hfm Hp Hraise. destruct (outcome_of_policy ctx e p Hp) as (l & Ho & Hin).
  rewrite Hfm in Ho. destruct Hraise as [[x Hx]|[Ha [x Hx]]]; inversion Ho; subst; try congruence;
    (eapply deny_blocks; [by apply Hin, list_elem_of_singleton|done]).
Qed.

(** In fail-open mode only a verdict blocks: the final decision is [deny] exactly when
    some consulted policy returned [deny], and then some registered policy did. *)
Theorem fail_open_denies_only_on_verdict `{!PolicyLaws P} ctx e :
  fail_mode e = FailOpen ->
  (cd_final_decision (evaluate ctx e).1.2 = Deny ->
     exists p, p ∈ _all_policies e /\ policy_returns ctx p Deny)
  /\ (forall p, p ∈ policies e -> policy_returns ctx p Deny ->
     cd_final_decision (evaluate ctx e).1.2 = Deny).
Proof.
  intros Hfm. split.
  - intros Hd%(composes_Deny _ _ _ (es_final _ _ _ (evaluate_meets_spec ctx e))).
    destruct (es_decisions _ _ _ (evaluate_meets_spec ctx e)) as (ls & Hls & Hds).
    rewrite Hfm in *.
    assert (forall p l, policy_outcome FailOpen ctx p l -> has Deny l -> policy_returns ctx p Deny)
      as Hpr.
    { intros p l Ho Hl. apply Exists_exists in Hl as (d & Hdl & Hk).
      destruct Ho; try by apply elem_of_nil in Hdl.
      - done.
      - apply list_elem_of_singleton in Hdl as ->. simpl in Hk. split; eauto.
      - apply list_elem_of_singleton in Hdl as ->. congruence. }
    assert (has Deny (concat ls) -> exists p, p ∈ policies e /\ policy_returns ctx p Deny) as Hreg.
    { rewrite has_concat, Exists_exists. intros (l & Hl & Hdl).
      apply list_elem_of_lookup in Hl as [i Hi].
      destruct (Forall2_lookup_r _ _ _ _ _ Hls Hi) as (p & Hp & Ho).
      exists p. split; [by eapply list_elem_of_lookup_2|eauto]. }
    unfold _all_policies. destruct Hds as [[Hc _]|(r & l & Hr & _ & Ho & Hc)]; rewrite Hc in Hd.
    + destruct (Hreg Hd) as (p & ? & ?). exists p. by rewrite elem_of_app; auto.
    + apply has_app in Hd as [Hd|Hd].
      * destruct (Hreg Hd) as (p & ? & ?). exists p. by rewrite elem_of_app; auto.
      * exists r. rewrite Hr, elem_of_app, list_elem_of_singleton. eauto.
  - intros p Hp [Ha (d & Hd & Hk)]. destruct (outcome_of_policy ctx e p Hp) as (l & Ho & Hin).
    inversion Ho; subst; try congruence.
    eapply deny_blocks; [by apply Hin, list_elem_of_singleton|]. simpl. congruence.
Qed.

(** The state an evaluation collects for persistence is fresh: a registered policy's
    entry is the state it left in this evaluation (none when it did not apply, raised or is
    stateless), the resolver has one only when this evaluation consulted it, and no other
    key, in particular none of an earlier evaluation, survives. *)
Theorem collected_state_fresh `{!PolicyLaws P} ctx e :
  NoDup (registered_policy_ids e) ->
  let collected := get_collected_state (evaluate ctx e).1.1 in
  let ds := ra_decisions (run_policies (fail_mode e) ctx (policies e) acc_empty).2 in
  (forall p, p ∈ policies e -> dget (policy_id p) collected = left_state ctx p)
  /\ (forall r, resolver e = Some r -> escalates ds ->
        dget (policy_id r) collected = left_state ctx r)
  /\ (forall r, resolver e = Some r -> ~ escalates ds -> dget (policy_id r) collected = None)
  /\ (forall k, k ∉ registered_policy_ids e -> dget k collected = None).
Proof.
  intros Hnd collected ds. subst collected ds. unfold get_collected_state, evaluate.
  unfold registered_policy_ids, _all_policies in *. rewrite map_app in *.
  apply NoDup_app in Hnd as (Hnd & Hdisj & _).
  assert (forall k, (k ∉ map policy_id (policies e) ->
     dget k (ra_collected (run_policies (fail_mode e) ctx (policies e) acc_empty).2) = None)
    /\ forall p, p ∈ policies e -> k = policy_id p ->
       dget k (ra_collected (run_policies (fail_mode e) ctx (policies e) acc_empty).2) = left_state ctx p)
    as Hrun.
  { intros k. destruct (run_policies_collected (fail_mode e) ctx (policies e) acc_empty k Hnd)
      as [H1 H2]. split; [done|]. intros p Hp Hk. rewrite (H2 p Hp Hk). by destruct (left_state ctx p). }
  destruct (run_policies (fail_mode e) ctx (policies e) acc_empty) as [ps a]; simpl in *.
  assert (forall p r, p ∈ policies e -> resolver e = Some r -> policy_id p <> policy_id r) as Hne.
  { intros p r Hp Hr Heq. apply (Hdisj (policy_id p)).
    - rewrite list_elem_of_In, in_map_iff. exists p. by rewrite <- list_elem_of_In.
    - rewrite Hr, Heq. by left. }
  destruct (resolver e) as [r|] eqn:Hr; simpl in *.
  2:{ split_and!; [intros p Hp; by apply Hrun|done|done|].
      intros k Hk. apply Hrun. by rewrite elem_of_app in Hk; auto. }
  assert (policy_id r ∉ map policy_id (policies e)) as Hrn.
  { intros Hin. apply (Hdisj _ Hin). by left. }
  pose proof (run_policy_collected (fail_mode e) ctx r a) as Hc.
  destruct (any_decision NeedsReview (ra_decisions a)
            && negb (any_decision Deny (ra_decisions a))) eqn:Hesc.
  - destruct (_run_policy (fail_mode e) ctx r a) as [r' a']; simpl in *. rewrite Hc.
    apply escalates_bool in Hesc. split_and!.
    + intros p Hp. destruct (left_state ctx r); [rewrite dget_dset_ne by eauto|]; by apply Hrun.
    + intros ? [= <-] _. destruct (left_state ctx r); [apply dget_dset_eq|by apply Hrun].
    + done.
    + intros k Hk. rewrite elem_of_app, elem_of_cons in Hk.
      destruct (left_state ctx r); [rewrite dget_dset_ne by naive_solver|]; apply Hrun; naive_solver.
  - rewrite <- not_true_iff_false, escalates_bool in Hesc. simpl. split_and!.
    + intros p Hp. by apply Hrun.
    + done.
    + intros ? [= <-] _. by apply Hrun.
    + intros k Hk. rewrite elem_of_app in Hk. apply Hrun; naive_solver.
Qed.

(** The policies an evaluation consults, and whether a policy's outcome is reported. *)
Definition consulted (ctx : ActionContext) (e : PolicyEngine) : list P :=
  policies e ++
  match resolver e with
  | Some r =>
      let ds := ra_decisions (run_policies (fail_mode e) ctx (policies e) acc_empty).2 in
      if any_decision NeedsReview ds && negb (any_decision Deny ds) then [r] else []
  | None => []
  end.

Definition reports (ctx : ActionContext) (p : P) : bool :=
  match applies_to p ctx with Ok false => false | _ => true end.

Lemma run_policy_log fm ctx p a :
  map ur_policy_id (ra_log (_run_policy fm ctx p a).2) =
  map ur_policy_id (ra_log a) ++ (if reports ctx p then [policy_id p] else []).
Proof.
  unfold _run_policy, reports.
  destruct (applies_to p ctx) as [[]|]; [|by rewrite app_nil_r|by destruct fm; simpl; rewrite map_app].
  destruct (evaluate_policy p ctx) as [p' [d|x]]; [|by destruct fm; simpl; rewrite map_app].
  destruct (is_stateful p'), (get_state p'); simpl; by rewrite map_app.
Qed.

Lemma run_policies_log fm ctx ps a :
  map ur_policy_id (ra_log (run_policies fm ctx ps a).2) =
  map ur_policy_id (ra_log a) ++ map policy_id (filter (fun p => reports ctx p = true) ps).
Proof.
  revert a. induction ps as [|p ps IH]; intros a; simpl; [by rewrite app_nil_r|].
  pose proof (run_policy_log fm ctx p a) as Hl.
  destruct (_run_policy fm ctx p a) as [p' a']; simpl in Hl.
  specialize (IH a'). destruct (run_policies fm ctx ps a') as [ps' a'']; simpl in *.
  rewrite IH, Hl, filter_cons, <- app_assoc. f_equal.
  by destruct (reports ctx p).
Qed.

(** The audit trail is complete: an evaluation records exactly one upstream outcome for
    each consulted policy that applied or whose gate raised, in evaluation order, whatever
    the fail mode, and none for the others. *)
Theorem telemetry_complete ctx e :
  map ur_policy_id (evaluate ctx e).2 =
  map policy_id (filter (fun p => reports ctx p = true) (consulted ctx e)).
Proof.
  unfold evaluate, consulted. rewrite filter_app, map_app.
  pose proof (run_policies_log (fail_mode e) ctx (policies e) acc_empty) as Hl.
  destruct (run_policies (fail_mode e) ctx (policies e) acc_empty) as [ps a]; simpl in *.
  destruct (resolver e) as [r|]; simpl; [|by rewrite app_nil_r].
  destruct (_ && _); simpl; [|by rewrite app_nil_r].
  pose proof (run_policy_log (fail_mode e) ctx r a) as Hr.
  destruct (_run_policy (fail_mode e) ctx r a) as [r' a']; simpl in *.
  rewrite Hr, Hl, filter_cons. f_equal.
  by destruct (reports ctx r).
Qed.
End engine.

Arguments PolicyEngine P : clear implicits.

(** An outcome is recorded as [success] only for a clean allow: not for a fail-open
    allow, not for one with warnings, and never for warn, deny or needs_review; a deny is
    always recorded as [deny]. *)
Theorem status_success_only_clean d :
  (_policy_decision_status d = USuccess <->
     pd_decision d = Allow /\ pd_fail_open d = false /\ pd_warnings d = [])
  /\ (_policy_decision_status d = UDeny <-> pd_decision d = Deny).
Proof.
  unfold _policy_decision_status, _warning_mentions_fail_open.
  destruct d as [k i vs ws ? ? ? fo ft ? ? ? ? ?]; simpl.
  destruct k, fo, ws as [|w ws]; simpl; repeat case_match; naive_solver.
Qed.

(** ** A scripted policy, and the theorems at work on it *)

Module Scripted.
Record policy := {
  sp_id : string;
  sp_applies : res bool;
  sp_result : res DecisionType;
  sp_state : option Z;
}.

#[export] Instance ops : PolicyOps policy := {|
  policy_id := sp_id;
  applies_to := fun p _ => sp_applies p;
  evaluate_policy := fun p _ =>
    ({| sp_id := sp_id p; sp_applies := sp_applies p; sp_result := sp_result p;
        sp_state := (fun n => n + 1) <$> sp_state p |},
     (fun k => mk_decision k (sp_id p)) <$> sp_result p);
  is_stateful := fun p => match sp_state p with Some _ => true | None => false end;
  get_state := fun p =>
    match sp_state p with Some n => Ok [("n", VInt n)] | None => raise AttributeError "get_state" end;
  set_state := fun p _ => (p, Ok tt);
|}.

#[export] Instance laws : PolicyLaws policy.
Proof. split; intros []; simpl; try done. by destruct sp_state0. Qed.

Definition ctx0 : ActionContext := {|
  ac_origin := "claude_code"; ac_event := "PreToolUse.Write"; ac_tool_name := "Write";
  ac_tool_args := []; ac_repo_root := "/r"; ac_session_name := "s";
  ac_target_path := Some "src/a.py"; ac_new_content := Some "x"; ac_raw_diff := None;
  ac_action_fingerprint := None; ac_native_boundary := None |}.

Definition script (i : string) (r : res DecisionType) (st : option Z) : policy :=
  {| sp_id := i; sp_applies := Ok true; sp_result := r; sp_state := st |}.

Definition engine (fm : FailMode) : PolicyEngine policy := {|
  policies := [script "a" (Ok Allow) (Some 4); script "b" (raise ValueError "boom") None;
               script "c" (Ok NeedsReview) None];
  fail_mode := fm;
  resolver := Some (script "sup" (Ok Deny) (Some 0));
  collected_state := [("stale", [])] |}.

Definition clock0 (_ : nat) : string := "t".

Lemma evaluate_correct_witness :
  evaluate_spec ctx0 (engine FailOpen) (evaluate clock0 ctx0 (engine FailOpen)).1.2
  /\ cd_final_decision (evaluate clock0 ctx0 (engine FailOpen)).1.2 = Deny.
Proof. split; [apply (evaluate_correct clock0)|vm_compute; reflexivity]. Defined.

Lemma fail_closed_blocks_witness :
  cd_final_decision (evaluate clock0 ctx0 (engine FailClosed)).1.2 = Deny.
Proof.
  apply (fail_closed_blocks clock0 ctx0 (engine FailClosed) (script "b" (raise ValueError "boom") None)).
  - reflexivity.
  - right. left.
  - right. split; [reflexivity|]. exists (PyExn ValueError "boom"). reflexivity.
Defined.

Lemma fail_open_witness :
  exists p, p ∈ _all_policies (engine FailOpen) /\ policy_returns ctx0 p Deny.
Proof.
  apply (fail_open_denies_only_on_verdict clock0 ctx0 (engine FailOpen)).
  - reflexivity.
  - vm_compute. reflexivity.
Defined.

Lemma collected_state_fresh_witness :
  dget "a" (get_collected_state (evaluate clock0 ctx0 (engine FailOpen)).1.1) = Some [("n", VInt 5)]
  /\ dget "stale" (get_collected_state (evaluate clock0 ctx0 (engine FailOpen)).1.1) = None.
Proof.
  assert (NoDup (registered_policy_ids (engine FailOpen))) as Hnd.
  { apply (bool_decide_unpack _). vm_compute. exact I. }
  destruct (collected_state_fresh clock0 ctx0 (engine FailOpen) Hnd) as (H1 & _ & _ & H4).
  split.
  - exact (H1 (script "a" (Ok Allow) (Some 4)) ltac:(left)).
  - apply H4. apply (bool_decide_unpack _). vm_compute. exact I.
Defined.
End Scripted.
