(* ===== verification/Regex.v ===== *)
(** * Regex: the fragment of Python's [re] the policies and guards use

    Patterns are built from character tests, sequence, alternation, greedy or lazy
    repetition and the word boundary [\b]. [re.search] answers whether some substring
    matches; the answer does not depend on greediness, so one star suffices. A [str] is
    represented by its UTF-8 bytes and patterns read its code points. *)

From S2P Require Import Prelude.

(** ** Code points *)

Definition byte (c : ascii) : Z := Z.of_nat (nat_of_ascii c).

Fixpoint utf8_decode (s : string) : list Z :=
  match s with
  | EmptyString => []
  | String a s1 =>
      if byte a <? 128 then byte a :: utf8_decode s1
      else if byte a <? 224 then
        match s1 with
        | String b s2 => ((byte a - 192) * 64 + (byte b - 128)) :: utf8_decode s2
        | EmptyString => [byte a]
        end
      else if byte a <? 240 then
        match s1 with
        | String b (String c s3) =>
            ((byte a - 224) * 4096 + (byte b - 128) * 64 + (byte c - 128)) :: utf8_decode s3
        | _ => [byte a]
        end
      else
        match s1 with
        | String b (String c (String d s4)) =>
            ((byte a - 240) * 262144 + (byte b - 128) * 4096 + (byte c - 128) * 64 + (byte d - 128))
              :: utf8_decode s4
        | _ => [byte a]
        end
  end.

Definition chr (n : Z) : ascii := ascii_of_nat (Z.to_nat n).

Definition utf8_encode_char (n : Z) : string :=
  if n <? 128 then String (chr n) ""
  else if n <? 2048 then String (chr (192 + n / 64)) (String (chr (128 + n mod 64)) "")
  else if n <? 65536 then
    String (chr (224 + n / 4096))
      (String (chr (128 + n / 64 mod 64)) (String (chr (128 + n mod 64)) ""))
  else
    String (chr (240 + n / 262144))
      (String (chr (128 + n / 4096 mod 64))
        (String (chr (128 + n / 64 mod 64)) (String (chr (128 + n mod 64)) ""))).

(** ** Patterns *)

Inductive re :=
| REps
| RChr (f : Z -> bool)
| RSeq (a b : re)
| RAlt (a b : re)
| RStar (a : re)
| RWordB.

(** A place in the text: the code point before it and the code points after it. *)
Definition pos : Type := option Z * list Z.

(** A literal, [x+], [x?], [.] and [\s] (the white space of [str.isspace]). *)
Definition RLit (c : Z) : re := RChr (Z.eqb c).
Fixpoint RStr (s : string) : re :=
  match s with EmptyString => REps | String c s => RSeq (RLit (byte c)) (RStr s) end.
Definition RPlus (a : re) : re := RSeq a (RStar a).
Definition ROpt (a : re) : re := RAlt a REps.
Definition RDot : re := RChr (fun c => negb (c =? 10)).

Definition is_space (c : Z) : bool :=
  ((9 <=? c) && (c <=? 13)) || ((28 <=? c) && (c <=? 32)) || (c =? 133) || (c =? 160)
  || (c =? 5760) || ((8192 <=? c) && (c <=? 8202)) || (c =? 8232) || (c =? 8233)
  || (c =? 8239) || (c =? 8287) || (c =? 12288).
Definition RSpace : re := RChr is_space.

Section regex.
(** [str.isalnum] on the code points from 128 on: the Unicode character database. *)
Variable unicode_alnum : Z -> bool.

Definition is_word (c : Z) : bool :=
  if c <? 128 then
    ((48 <=? c) && (c <=? 57)) || ((65 <=? c) && (c <=? 90)) || ((97 <=? c) && (c <=? 122))
    || (c =? 95)
  else unicode_alnum c.

Definition word_at (o : option Z) : bool := match o with Some c => is_word c | None => false end.

Definition at_boundary (p : pos) : bool := xorb (word_at p.1) (word_at (head p.2)).

(** *** Matching as a relation: [matches r p q], [r] matches the text from [p] to [q] *)
Inductive matches : re -> pos -> pos -> Prop :=
| m_eps p : matches REps p p
| m_chr f o c s : f c = true -> matches (RChr f) (o, c :: s) (Some c, s)
| m_seq a b p q r : matches a p q -> matches b q r -> matches (RSeq a b) p r
| m_alt_l a b p q : matches a p q -> matches (RAlt a b) p q
| m_alt_r a b p q : matches b p q -> matches (RAlt a b) p q
| m_star_nil a p : matches (RStar a) p p
| m_star_step a p q r : matches a p q -> matches (RStar a) q r -> matches (RStar a) p r
| m_word p : at_boundary p = true -> matches RWordB p p.

(** *** Matching as a function: every place a match from [p] can end *)

(** Iterate a step that consumes at least one code point, at most [n] times. *)
Fixpoint star_ends (step : pos -> list pos) (n : nat) (p : pos) : list pos :=
  p :: match n with
       | O => []
       | S n =>
           flat_map (star_ends step n)
             (List.filter (fun q => Nat.ltb (length q.2) (length p.2)) (step p))
       end.

Fixpoint ends (r : re) (p : pos) : list pos :=
  match r with
  | REps => [p]
  | RChr f =>
      match p.2 with
      | c :: s => if f c then [(Some c, s)] else []
      | [] => []
      end
  | RSeq a b => flat_map (ends b) (ends a p)
  | RAlt a b => ends a p ++ ends b p
  | RStar a => star_ends (ends a) (length p.2) p
  | RWordB => if at_boundary p then [p] else []
  end.

(** The places of a text. *)
Fixpoint positions (o : option Z) (s : list Z) : list pos :=
  (o, s) :: match s with [] => [] | c :: s => positions (Some c) s end.

(** [bool(re.search(r, s))]. *)
Definition re_search (r : re) (s : string) : bool :=
  existsb (fun p => match ends r p with [] => false | _ => true end)
    (positions None (utf8_decode s)).

(** Some substring of [s] matches [r]. *)
Definition occurs (r : re) (s : string) : Prop :=
  exists p q, In p (positions None (utf8_decode s)) /\ matches r p q.

(** ** Correctness of the matcher *)

Lemma matches_suffix r p q : matches r p q -> exists w, p.2 = w ++ q.2 /\ (w = [] -> q = p).
Proof.
  induction 1 as [p|f o c s _|a b p q r _ (w1 & H1 & E1) _ (w2 & H2 & E2)
                 |a b p q _ IH|a b p q _ IH|a p
                 |a p q r _ (w1 & H1 & E1) _ (w2 & H2 & E2)|p _];
    try done; try by exists [].
  - by exists [c].
  - exists (w1 ++ w2). rewrite H1, H2, app_assoc. split; [done|].
    intros [-> ->]%app_nil. by rewrite E2, E1.
  - exists (w1 ++ w2). rewrite H1, H2, app_assoc. split; [done|].
    intros [-> ->]%app_nil. by rewrite E2, E1.
Qed.

Lemma matches_length r p q : matches r p q -> (length q.2 <= length p.2)%nat.
Proof. intros (w & -> & _)%matches_suffix. rewrite length_app. lia. Qed.

Lemma matches_stuck r p q : matches r p q -> (length p.2 <= length q.2)%nat -> q = p.
Proof.
  intros (w & Hw & Hq)%matches_suffix Hl. apply Hq. rewrite Hw, length_app in Hl.
  destruct w; [done|simpl in Hl; lia].
Qed.

Lemma star_ends_sound a n p q :
  (forall p q, In q (ends a p) -> matches a p q) ->
  In q (star_ends (ends a) n p) -> matches (RStar a) p q.
Proof.
  intros Ha. revert p. induction n as [|n IH]; intros p; simpl.
  - intros [<-|[]]. constructor.
  - intros [<-|(p' & [Hp' _]%filter_In & Hq)%in_flat_map]; [constructor|].
    eapply m_star_step; eauto.
Qed.

Lemma star_ends_complete a n p q :
  (forall p q, matches a p q -> In q (ends a p)) ->
  matches (RStar a) p q -> (length p.2 <= n)%nat -> In q (star_ends (ends a) n p).
Proof.
  intros Ha Hm. remember (RStar a) as r eqn:Er. revert n Er.
  induction Hm as [| | | | |a' p|a' p q r Hs _ Hm IH|]; intros n Er Hn; simplify_eq.
  - destruct n; by left.
  - destruct (le_lt_dec (length p.2) (length q.2)) as [Hle|Hlt].
    + apply matches_stuck in Hs as ->; [|done]. by apply IH.
    + destruct n as [|n]; [lia|]. right. apply in_flat_map. exists q. split.
      * apply filter_In. split; [by apply Ha|]. by apply Nat.ltb_lt.
      * apply IH; [done|lia].
Qed.

Lemma ends_correct r p q : In q (ends r p) <-> matches r p q.
Proof.
  split.
  - revert p q. induction r as [|f|a IHa b IHb|a IHa b IHb|a IHa|]; intros p q; simpl.
    + intros [<-|[]]. constructor.
    + destruct p as [o [|c s]]; simpl; [done|]. destruct (f c) eqn:E; [|done].
      intros [<-|[]]. by constructor.
    + intros (m & ? & ?)%in_flat_map. econstructor; eauto.
    + intros [?|?]%in_app_iff; [apply m_alt_l|apply m_alt_r]; auto.
    + by apply star_ends_sound.
    + destruct (at_boundary p) eqn:E; [|done]. intros [<-|[]]. by constructor.
  - revert p q. induction r as [|f|a IHa b IHb|a IHa b IHb|a IHa|]; intros p q Hm.
    + inversion Hm; subst. by left.
    + inversion Hm as [|? ? ? ? Hf| | | | | |]; subst. simpl. rewrite Hf. by left.
    + inversion Hm; subst. simpl. apply in_flat_map. eauto.
    + inversion Hm; subst; simpl; apply in_app_iff; auto.
    + simpl. by apply star_ends_complete.
    + inversion Hm as [| | | | | | |? Hb]; subst. simpl. rewrite Hb. by left.
Qed.

Lemma re_search_correct r s : re_search r s = true <-> occurs r s.
Proof.
  unfold re_search, occurs. rewrite existsb_exists. split.
  - intros (p & Hp & He). destruct (ends r p) as [|q l] eqn:E; [done|].
    exists p, q. split; [done|]. apply ends_correct. rewrite E. by left.
  - intros (p & q & Hp & Hm%ends_correct). exists p. split; [done|].
    by destruct (ends r p).
Qed.
End regex.
