(* ===== verification/PyText.v ===== *)
(** * PyText: strings as their code points

    A Python [str] as the list of its code points, for the code whose behaviour depends on
    single characters; elsewhere a [str] is its UTF-8 bytes ([utf8_decode] and [encode] of
    Regex.v relate the two). *)

From S2P Require Import Prelude Regex.

Notation text := (list Z).

(** A literal. *)
Definition T (s : string) : text := utf8_decode s.
Arguments T s : simpl never.

Definition encode (s : text) : string := str_join "" (map utf8_encode_char s).

Definition has_char (c : Z) (s : text) : bool := bool_decide (c ∈ s).

(** The line boundaries of [str.splitlines], and [s.splitlines()]. *)
Definition is_line_break (c : Z) : bool := bool_decide (c ∈ [10; 11; 12; 13; 28; 29; 30; 133; 8232; 8233]).

Fixpoint text_lines (s : text) : list text :=
  match s with
  | [] => []
  | 13 :: 10 :: s => [] :: text_lines s
  | c :: s =>
      if is_line_break c then [] :: text_lines s
      else match text_lines s with
           | l :: ls => (c :: l) :: ls
           | [] => [[c]]
           end
  end.

(** The line ends after [c] when [s] is the rest of the text: a carriage return and a line
    feed are one boundary. *)
Definition ends_line (c : Z) (s : text) : bool :=
  is_line_break c && negb (bool_decide (c = 13) && bool_decide (head s = Some 10)).

(** [s.splitlines(keepends=True)]. *)
Fixpoint text_lines_keep (s : text) : list text :=
  match s with
  | [] => []
  | c :: s =>
      if ends_line c s then [c] :: text_lines_keep s
      else match text_lines_keep s with
           | l :: ls => (c :: l) :: ls
           | [] => [[c]]
           end
  end.

Fixpoint drop_spaces (s : text) : text :=
  match s with
  | c :: s' => if is_space c then drop_spaces s' else s
  | [] => []
  end.

(** [s.strip()]. *)
Definition strip (s : text) : text := rev (drop_spaces (rev (drop_spaces s))).

Definition text_join (sep : text) (l : list text) : text :=
  match l with [] => [] | x :: l => foldl (fun acc y => acc ++ sep ++ y) x l end.

(** [s.strip()] of a string given by its bytes. *)
Definition py_strip (s : string) : string := encode (strip (utf8_decode s)).
Arguments py_strip s : simpl never.
