(* ===== verification/PolicyRules.v ===== *)
(** * PolicyRules: the deterministic policies and their bundles

    [src/forge/policy/deterministic/]: the TDD bundle ([tdd.py]), the coding standards
    bundle ([coding_standards.py]), their base class ([base.py]) and the bundle registry
    ([registry.py]), with [build_engine] of [src/forge/policy/engine.py]. *)

From S2P Require Import Prelude PyValue PolicyTypes PolicyEngine Regex.

(** ** base.py *)

Definition is_under_directory (path : option string) (directory : string) : bool :=
  match path with
  | None => false
  | Some p =>
      let normalized := str_replace_char "092" "/" p in
      startswith (directory +++ "/") normalized || contains ("/" +++ directory +++ "/") normalized
  end.

Definition tests_first_sort_key (path : option string) : Z :=
  if is_under_directory path "tests" then 0
  else if is_under_directory path "src" then 2
  else 1.

(** A pattern: its source text, shown as evidence, and its meaning. *)
Record pattern := { pat_src : string; pat_re : re }.

(** [replace(v, provenance="policy")]. *)
Definition with_policy_provenance (v : Violation) : Violation := {|
  vi_rule_id := vi_rule_id v; vi_message := vi_message v; vi_severity := vi_severity v;
  vi_evidence := vi_evidence v; vi_suggested_fix := vi_suggested_fix v;
  vi_citations := vi_citations v; vi_provenance := ProvPolicy;
  vi_verified_citations := vi_verified_citations v |}.

(** [Violation(rule_id, message, severity, evidence, suggested_fix)]. *)
Definition mk_violation (i m : string) (s : Severity) (e f : string) : Violation := {|
  vi_rule_id := i; vi_message := m; vi_severity := s; vi_evidence := Some e;
  vi_suggested_fix := Some f; vi_citations := []; vi_provenance := ProvUnknown;
  vi_verified_citations := [] |}.

Definition _allow (pid : string) : PolicyDecision := mk_decision Allow pid.

Definition _deny (pid intent : string) (vs : list Violation) : PolicyDecision := {|
  pd_decision := Deny; pd_policy_id := pid;
  pd_violations := map with_policy_provenance vs; pd_warnings := [];
  pd_intent := Some intent; pd_cached := false; pd_evaluated_at := None; pd_fail_open := false;
  pd_failure_type := None; pd_telemetry_run_id := None; pd_telemetry_parent_run_id := None;
  pd_telemetry_root_run_id := None; pd_warning_findings := []; pd_diagnostic_codes := [] |}.

Definition _warn (pid intent : string) (vs : list Violation) : PolicyDecision := {|
  pd_decision := Warn; pd_policy_id := pid;
  pd_violations := []; pd_warnings := map vi_message vs;
  pd_intent := Some intent; pd_cached := false; pd_evaluated_at := None; pd_fail_open := false;
  pd_failure_type := None; pd_telemetry_run_id := None; pd_telemetry_parent_run_id := None;
  pd_telemetry_root_run_id := None; pd_warning_findings := map with_policy_provenance vs;
  pd_diagnostic_codes := [] |}.

(** [context.tool_name in ("Write", "Edit")]. *)
Definition is_write_edit (ctx : ActionContext) : bool :=
  bool_decide (ac_tool_name ctx ∈ ["Write"; "Edit"]).

(** ** tdd.py and coding_standards.py *)

Definition SKIP_PATTERNS : list pattern := [
  {| pat_src := "pytest\.skip\("; pat_re := RStr "pytest.skip(" |};
  {| pat_src := "@pytest\.mark\.skip\b"; pat_re := RSeq (RStr "@pytest.mark.skip") RWordB |};
  {| pat_src := "@pytest\.mark\.skipif\b"; pat_re := RSeq (RStr "@pytest.mark.skipif") RWordB |};
  {| pat_src := "unittest\.skip\b"; pat_re := RSeq (RStr "unittest.skip") RWordB |};
  {| pat_src := "@unittest\.skip\b"; pat_re := RSeq (RStr "@unittest.skip") RWordB |}].

Definition TYPE_CHECKING_PATTERNS : list pattern := [
  {| pat_src := "if\s+TYPE_CHECKING\s*:";
     pat_re := RSeq (RStr "if") (RSeq (RPlus RSpace)
                 (RSeq (RStr "TYPE_CHECKING") (RSeq (RStar RSpace) (RStr ":")))) |};
  {| pat_src := "from\s+typing\s+import.*TYPE_CHECKING";
     pat_re := RSeq (RStr "from") (RSeq (RPlus RSpace) (RSeq (RStr "typing")
                 (RSeq (RPlus RSpace) (RSeq (RStr "import")
                   (RSeq (RStar RDot) (RStr "TYPE_CHECKING")))))) |}].

(** [#\s*] followed by [r]. *)
Definition after_hash (r : re) : re := RSeq (RStr "#") (RSeq (RStar RSpace) r).

Definition BACKWARD_COMPAT_PATTERNS : list pattern := [
  {| pat_src := "#\s*backward\s*compat";
     pat_re := after_hash (RSeq (RStr "backward") (RSeq (RStar RSpace) (RStr "compat"))) |};
  {| pat_src := "#\s*backwards?\s*compat";
     pat_re := after_hash (RSeq (RStr "backward") (RSeq (ROpt (RStr "s"))
                 (RSeq (RStar RSpace) (RStr "compat")))) |};
  {| pat_src := "#\s*legacy\b"; pat_re := after_hash (RSeq (RStr "legacy") RWordB) |};
  {| pat_src := "#\s*deprecated\b"; pat_re := after_hash (RSeq (RStr "deprecated") RWordB) |};
  {| pat_src := "#\s*TODO.*remove.*later";
     pat_re := after_hash (RSeq (RStr "TODO") (RSeq (RStar RDot) (RSeq (RStr "remove")
                 (RSeq (RStar RDot) (RStr "later"))))) |};
  {| pat_src := "#\s*for\s+backward";
     pat_re := after_hash (RSeq (RStr "for") (RSeq (RPlus RSpace) (RStr "backward"))) |};
  {| pat_src := "#\s*DEPRECATED\b"; pat_re := after_hash (RSeq (RStr "DEPRECATED") RWordB) |};
  {| pat_src := "#\s*LEGACY\b"; pat_re := after_hash (RSeq (RStr "LEGACY") RWordB) |};
  {| pat_src := "#\s*compat(?:ibility)?\s*(?:layer|shim|wrapper)";
     pat_re := after_hash (RSeq (RStr "compat") (RSeq (ROpt (RStr "ibility"))
                 (RSeq (RStar RSpace)
                   (RAlt (RStr "layer") (RAlt (RStr "shim") (RStr "wrapper")))))) |}].

Definition _EMOJI_RANGES : list (Z * Z) := [
  (127744, 128511); (* U+1F300 to U+1F5FF, pictographs *)
  (128512, 128591); (* U+1F600 to U+1F64F, emoticons *)
  (128640, 128767); (* U+1F680 to U+1F6FF, transport *)
  (128768, 128895); (* U+1F700 to U+1F77F, alchemical *)
  (129280, 129535); (* U+1F900 to U+1F9FF, supplemental *)
  (129536, 129791)  (* U+1FA00 to U+1FAFF, extended-A *)].

Definition _is_colorful_emoji (cp : Z) : bool :=
  if cp <? 65536 then false
  else existsb (fun '(lo, hi) => (lo <=? cp) && (cp <=? hi)) _EMOJI_RANGES.

Definition _CODE_EXTENSIONS : list string :=
  [".py"; ".js"; ".ts"; ".jsx"; ".tsx"; ".sh"; ".bash"; ".java"; ".go"; ".rs"; ".c"; ".cpp";
   ".h"; ".hpp"; ".rb"; ".swift"; ".kt"; ".scala"].

(** The policy objects: the class and its attributes. *)
Inductive det_policy :=
| TDDEnforcementPolicy (strict : bool) (tests_touched : list value)
| NoSkipTestsPolicy
| NoTypeCheckingPolicy
| NoBackwardCompatPolicy
| NoEmojiPolicy.

Definition det_policy_id (p : det_policy) : string :=
  match p with
  | TDDEnforcementPolicy _ _ => "tdd.tests-before-impl"
  | NoSkipTestsPolicy => "tdd.no-skip-tests"
  | NoTypeCheckingPolicy => "coding_standards.no-type-checking"
  | NoBackwardCompatPolicy => "coding_standards.no-backward-compat"
  | NoEmojiPolicy => "coding_standards.no-emoji"
  end.

Definition det_intent (p : det_policy) : string :=
  match p with
  | TDDEnforcementPolicy _ _ =>
      "Test-driven development: write tests first to define expected behavior, " +++
      "then implement. This catches design issues early and ensures every change " +++
      "has test coverage from the start."
  | NoSkipTestsPolicy =>
      "Skipped tests hide broken functionality. Every test should either pass or " +++
      "be deleted. If a test cannot run, fix the environment or the code rather " +++
      "than skipping it."
  | NoTypeCheckingPolicy =>
      "Circular imports indicate an architectural problem. TYPE_CHECKING blocks " +++
      "hide the symptom instead of fixing the dependency structure. This policy " +++
      "ensures clean module boundaries."
  | NoBackwardCompatPolicy =>
      "Compatibility layers accumulate technical debt. This project prefers clean " +++
      "breaks: update all callers directly and remove old code completely rather " +++
      "than maintaining shims or fallback logic."
  | NoEmojiPolicy =>
      "Double-width emoji break alignment in terminals, diffs, and code review " +++
      "tools. Source code should stay ASCII-clean for consistent monospace " +++
      "rendering. This includes Unicode escapes that produce emoji at runtime."
  end.

(** [path is not None and path.endswith(".py")]. *)
Definition is_python_file (path : option string) : bool :=
  match path with Some p => endswith ".py" p | None => false end.

Definition has_content (ctx : ActionContext) : bool :=
  match ac_new_content ctx with Some _ => true | None => false end.

Definition tdd_applies_to (ctx : ActionContext) : bool :=
  is_write_edit ctx &&
  (is_under_directory (ac_target_path ctx) "tests" || is_under_directory (ac_target_path ctx) "src").

Definition no_skip_applies_to (ctx : ActionContext) : bool :=
  is_write_edit ctx && has_content ctx.

Definition no_type_checking_applies_to (ctx : ActionContext) : bool :=
  is_write_edit ctx && (has_content ctx && is_python_file (ac_target_path ctx)).

Definition no_backward_compat_applies_to (ctx : ActionContext) : bool :=
  is_write_edit ctx && (has_content ctx && is_python_file (ac_target_path ctx)).

Definition emoji_applies_to (ctx : ActionContext) : bool :=
  is_write_edit ctx &&
  (has_content ctx &&
   match ac_target_path ctx with
   | Some path => existsb (fun ext => endswith ext path) _CODE_EXTENSIONS
   | None => false
   end).

Definition det_applies_to (p : det_policy) : ActionContext -> bool :=
  match p with
  | TDDEnforcementPolicy _ _ => tdd_applies_to
  | NoSkipTestsPolicy => no_skip_applies_to
  | NoTypeCheckingPolicy => no_type_checking_applies_to
  | NoBackwardCompatPolicy => no_backward_compat_applies_to
  | NoEmojiPolicy => emoji_applies_to
  end.

Section rules.
Variable unicode_alnum : Z -> bool.

Definition _matches_any_pattern (content : option string) (patterns : list pattern) : list string :=
  match content with
  | None => []
  | Some s => map pat_src (List.filter (fun p => re_search unicode_alnum (pat_re p) s) patterns)
  end.

(** The evaluation shared by the pattern policies: deny with the matched patterns as evidence. *)
Definition evaluate_patterns (p : det_policy) (ctx : ActionContext) (patterns : list pattern)
    (message : string) (sev : Severity) (evidence fix_ : string) : PolicyDecision :=
  match _matches_any_pattern (ac_new_content ctx) patterns with
  | [] => _allow (det_policy_id p)
  | matched =>
      _deny (det_policy_id p) (det_intent p)
        [mk_violation (det_policy_id p) message sev (evidence +++ str_join ", " matched) fix_]
  end.

(** [TDDEnforcementPolicy._evaluate]. *)
Definition tdd_evaluate (strict : bool) (touched : list value) (ctx : ActionContext)
    : det_policy * PolicyDecision :=
  let p := TDDEnforcementPolicy strict touched in
  match ac_target_path ctx with
  | None => (p, _allow (det_policy_id p))
  | Some path =>
      if is_under_directory (Some path) "tests" then
        (TDDEnforcementPolicy strict (set_add (VStr path) touched), _allow (det_policy_id p))
      else if is_under_directory (Some path) "src" then
        match touched with
        | [] =>
            let violation :=
              mk_violation (det_policy_id p) "Implementation changes require test changes first" High
                ("Writing to " +++ path +++ " without touching any test files")
                "Write or update tests in tests/ directory before modifying src/ code" in
            (p, if strict then _deny (det_policy_id p) (det_intent p) [violation]
                else _warn (det_policy_id p) (det_intent p) [violation])
        | _ :: _ => (p, _allow (det_policy_id p))
        end
      else (p, _allow (det_policy_id p))
  end.

(** [NoEmojiPolicy._evaluate]. *)
Definition emoji_evaluate (ctx : ActionContext) : res PolicyDecision :=
  let p := NoEmojiPolicy in
  match ac_new_content ctx with
  | None => raise AssertionError ""
  | Some content =>
      let found := List.filter _is_colorful_emoji (utf8_decode content) in
      match found with
      | [] => Ok (_allow (det_policy_id p))
      | _ =>
          let unique := dedup_first [] found in
          let sample := str_join " " (map utf8_encode_char (take 5 unique)) in
          Ok (_deny (det_policy_id p) (det_intent p)
            [mk_violation (det_policy_id p) ("Emoji characters found in code: " +++ sample) Low
               ("Found " +++ pretty (Z.of_nat (length found)) +++ " emoji character(s): " +++ sample)
               "Use ASCII equivalents or text-safe symbols instead of colorful emoji."])
      end
  end.

(** [_evaluate] of [NoSkipTestsPolicy], [NoTypeCheckingPolicy], [NoBackwardCompatPolicy]. *)
Definition no_skip_evaluate (ctx : ActionContext) : PolicyDecision :=
  evaluate_patterns NoSkipTestsPolicy ctx SKIP_PATTERNS "Test skip patterns are not allowed" High
    "Found skip pattern(s): " "Remove the skip pattern and fix the underlying issue".

Definition no_type_checking_evaluate (ctx : ActionContext) : PolicyDecision :=
  evaluate_patterns NoTypeCheckingPolicy ctx TYPE_CHECKING_PATTERNS
    "TYPE_CHECKING blocks are not allowed" Medium "Found TYPE_CHECKING pattern(s): "
    ("Fix circular imports architecturally by:" +++ newline +++
     "1. Moving shared types to a separate types.py module" +++ newline +++
     "2. Using dependency injection" +++ newline +++
     "3. Restructuring the module hierarchy").

Definition no_backward_compat_evaluate (ctx : ActionContext) : PolicyDecision :=
  evaluate_patterns NoBackwardCompatPolicy ctx BACKWARD_COMPAT_PATTERNS
    "Backward compatibility patterns are not allowed" Medium "Found backward-compat pattern(s): "
    ("Instead of compatibility layers:" +++ newline +++
     "1. Update all callers directly" +++ newline +++
     "2. Remove the old implementation completely" +++ newline +++
     "3. Delete obsolete tests (don't skip them)").

Definition det_evaluate (p : det_policy) (ctx : ActionContext) : det_policy * res PolicyDecision :=
  match p with
  | TDDEnforcementPolicy strict touched =>
      let '(p', d) := tdd_evaluate strict touched ctx in (p', Ok d)
  | NoSkipTestsPolicy => (p, Ok (no_skip_evaluate ctx))
  | NoTypeCheckingPolicy => (p, Ok (no_type_checking_evaluate ctx))
  | NoBackwardCompatPolicy => (p, Ok (no_backward_compat_evaluate ctx))
  | NoEmojiPolicy => (p, emoji_evaluate ctx)
  end.

(** [TDDEnforcementPolicy.get_state] and [set_state]. *)
Definition tdd_get_state (p : det_policy) : res dict :=
  match p with
  | TDDEnforcementPolicy _ touched => Ok [("tests_touched", VList touched)]
  | _ => raise AttributeError "get_state"
  end.

Definition tdd_set_state (p : det_policy) (state : value) : det_policy * res unit :=
  match p with
  | TDDEnforcementPolicy strict touched =>
      match state with
      | VDict d =>
          match py_set (dget_default "tests_touched" (VList []) d) with
          | Ok s => (TDDEnforcementPolicy strict s, Ok tt)
          | Err e => (p, Err e)
          end
      | v => (p, raise AttributeError ("'" +++ type_name v +++ "' object has no attribute 'get'"))
      end
  | _ => (p, raise AttributeError "set_state")
  end.

Definition det_ops : PolicyOps det_policy := {|
  policy_id := det_policy_id;
  applies_to := fun p ctx => Ok (det_applies_to p ctx);
  evaluate_policy := det_evaluate;
  is_stateful := fun p => match p with TDDEnforcementPolicy _ _ => true | _ => false end;
  get_state := tdd_get_state;
  set_state := tdd_set_state;
|}.
#[local] Existing Instance det_ops.

(** ** registry.py *)

Inductive policy_class :=
| ClsTDDEnforcement | ClsNoSkipTests | ClsNoTypeChecking | ClsNoBackwardCompat | ClsNoEmoji.

Definition BUNDLES : list (string * list policy_class) := [
  ("tdd", [ClsTDDEnforcement; ClsNoSkipTests]);
  ("coding_standards", [ClsNoTypeChecking; ClsNoBackwardCompat; ClsNoEmoji])].

Definition _REMOVED_WORKFLOW_BUNDLE_ERROR : string :=
  "policy bundle 'workflow' was removed; stale state may be in policy.bundles or " +++
  "policy.bundle_config.workflow; run 'forge session reset policy' to clear policy overrides, then run " +++
  "'forge policy enable --bundle tdd' (or another supported bundle) or 'forge policy disable'".

Definition validate_bundle_name (bundle : string) : res unit :=
  if dhas bundle BUNDLES then Ok tt
  else if String.eqb bundle "workflow" then raise ValueError _REMOVED_WORKFLOW_BUNDLE_ERROR
  else raise ValueError ("unknown policy bundle " +++ py_repr bundle +++ "; available bundles: "
                         +++ str_join ", " (dkeys BUNDLES)).

(** [cls(...)]: only [TDDEnforcementPolicy] reads the bundle's configuration. *)
Definition instantiate (bundle : string) (config : option dict) (c : policy_class) : res det_policy :=
  match c with
  | ClsTDDEnforcement =>
      if String.eqb bundle "tdd" then
        match dget "strict" (default [] config) with
        | None => Ok (TDDEnforcementPolicy true [])
        | Some (VBool b) => Ok (TDDEnforcementPolicy b [])
        | Some v => raise ValueError ("bundle_config.tdd.strict must be bool, got " +++ type_name v)
        end
      else Ok (TDDEnforcementPolicy true [])
  | ClsNoSkipTests => Ok NoSkipTestsPolicy
  | ClsNoTypeChecking => Ok NoTypeCheckingPolicy
  | ClsNoBackwardCompat => Ok NoBackwardCompatPolicy
  | ClsNoEmoji => Ok NoEmojiPolicy
  end.

Definition get_bundle_policies (bundle : string) (config : option dict) : res (list det_policy) :=
  _ ← validate_bundle_name bundle;
  mapM_res (instantiate bundle config) (dget_default bundle [] BUNDLES).

Definition get_policy_ids_for_bundle (bundle : string) : res (list string) :=
  ps ← get_bundle_policies bundle None; Ok (map det_policy_id ps).

(** ** engine.py: build_engine *)

Definition build_engine (bundles : list string) (fm : FailMode)
    (bundle_config : option (list (string * dict))) : res (PolicyEngine det_policy) :=
  _ ← mapM_res validate_bundle_name (dkeys (default [] bundle_config));
  pss ← mapM_res (fun b => get_bundle_policies b (dget b (default [] bundle_config))) bundles;
  Ok (fold_left (fun e p => register p e) (concat pss) (new_engine fm)).

Lemma det_evaluate_class p ctx :
  det_policy_id (det_evaluate p ctx).1 = det_policy_id p
  /\ is_stateful (det_evaluate p ctx).1 = is_stateful p.
Proof.
  destruct p; try done. simpl. unfold tdd_evaluate.
  destruct (ac_target_path ctx); [|done].
  destruct (is_under_directory _ "tests"); [done|].
  destruct (is_under_directory _ "src"); [|done]. by destruct tests_touched.
Qed.

Lemma tdd_set_state_class p v :
  det_policy_id (tdd_set_state p v).1 = det_policy_id p
  /\ is_stateful (tdd_set_state p v).1 = is_stateful p.
Proof. destruct p; try done. destruct v; try done. simpl. by destruct (py_set _). Qed.

#[export] Instance det_laws : PolicyLaws det_policy.
Proof. split; intros; first [apply det_evaluate_class|apply tdd_set_state_class]. Qed.

(** ** Specifications *)

(** The pattern policies with their pattern lists. *)
Definition pattern_policies : list (det_policy * list pattern) := [
  (NoSkipTestsPolicy, SKIP_PATTERNS);
  (NoTypeCheckingPolicy, TYPE_CHECKING_PATTERNS);
  (NoBackwardCompatPolicy, BACKWARD_COMPAT_PATTERNS)].

(** Some substring of [s] matches one of [pats]. *)
Definition some_pattern_occurs (pats : list pattern) (s : string) : Prop :=
  exists pat, pat ∈ pats /\ occurs unicode_alnum (pat_re pat) s.

(** The code points the emoji policy blocks. *)
Definition in_emoji_ranges (cp : Z) : Prop :=
  exists lo hi, (lo, hi) ∈ _EMOJI_RANGES /\ lo <= cp <= hi.

(** The ids a bundle registers, and the configurations [build_engine] accepts. *)
Definition bundle_ids (bundle : string) : list string :=
  if String.eqb bundle "tdd" then ["tdd.tests-before-impl"; "tdd.no-skip-tests"]
  else if String.eqb bundle "coding_standards" then
    ["coding_standards.no-type-checking"; "coding_standards.no-backward-compat";
     "coding_standards.no-emoji"]
  else [].

Definition known_bundle (b : string) : Prop := b = "tdd" \/ b = "coding_standards".

Definition valid_strict (config : option dict) : Prop :=
  match dget "strict" (default [] config) with None | Some (VBool _) => True | Some _ => False end.

Definition valid_config (bundles : list string) (cfg : option (list (string * dict))) : Prop :=
  Forall known_bundle (dkeys (default [] cfg))
  /\ Forall known_bundle bundles
  /\ ("tdd" ∈ bundles -> valid_strict (dget "tdd" (default [] cfg))).

(** ** Lemmas *)

Lemma matches_any_nil pats s :
  _matches_any_pattern (Some s) pats <> [] <-> some_pattern_occurs pats s.
Proof.
  unfold _matches_any_pattern, some_pattern_occurs. split.
  - destruct (List.filter _ pats) as [|pat l] eqn:E; [done|]. intros _. exists pat.
    assert (In pat (List.filter (fun p => re_search unicode_alnum (pat_re p) s) pats)) as Hin
      by (rewrite E; by left).
    apply filter_In in Hin as [Hin Hs%re_search_correct]. by rewrite list_elem_of_In.
  - intros (pat & Hin & Ho%re_search_correct). rewrite list_elem_of_In in Hin.
    assert (In pat (List.filter (fun p => re_search unicode_alnum (pat_re p) s) pats)) as Hf
      by by apply filter_In.
    by destruct (List.filter _ pats).
Qed.

Lemma evaluate_patterns_deny p ctx pats m sev e f s :
  ac_new_content ctx = Some s ->
  let d := evaluate_patterns p ctx pats m sev e f in
  (pd_decision d = Deny <-> some_pattern_occurs pats s)
  /\ (pd_decision d = Allow <-> ~ some_pattern_occurs pats s).
Proof.
  intros Hc. unfold evaluate_patterns. rewrite Hc. rewrite <- matches_any_nil.
  destruct (_matches_any_pattern (Some s) pats); simpl; split; split; try done.
  - naive_solver.
  - intros H. by destruct H.
Qed.

Lemma is_colorful_emoji_correct cp : _is_colorful_emoji cp = true <-> in_emoji_ranges cp.
Proof.
  unfold _is_colorful_emoji, in_emoji_ranges. split.
  - destruct (cp <? 65536); [done|]. rewrite existsb_exists.
    intros ([lo hi] & Hin & Hb). zbool. exists lo, hi. by rewrite list_elem_of_In.
  - intros (lo & hi & Hin & Hle). rewrite list_elem_of_In in Hin.
    assert (65536 <= lo) by (simpl in Hin; naive_solver lia).
    destruct (Z.ltb_spec cp 65536); [lia|]. apply existsb_exists. exists (lo, hi). split; [done|].
    apply andb_true_iff. by rewrite !Z.leb_le.
Qed.

Lemma bmp_not_emoji c : c < 65536 -> _is_colorful_emoji c = false.
Proof. unfold _is_colorful_emoji. by intros ->%Z.ltb_lt. Qed.

Lemma fold_register (ps : list det_policy) (e : PolicyEngine det_policy) :
  fold_left (fun e p => register p e) ps e =
  {| policies := policies e ++ ps; fail_mode := fail_mode e; resolver := resolver e;
     collected_state := collected_state e |}.
Proof.
  revert e. induction ps as [|p ps IH]; intros e; simpl.
  - rewrite app_nil_r. by destruct e.
  - rewrite IH. simpl. by rewrite <- app_assoc.
Qed.

Lemma validate_bundle_name_ok b : is_ok (validate_bundle_name b) = true <-> known_bundle b.
Proof.
  unfold validate_bundle_name, known_bundle, dhas. simpl.
  repeat case_decide; simplify_eq/=; [naive_solver..|].
  destruct (String.eqb b "workflow"); naive_solver.
Qed.

Lemma get_bundle_policies_ok b config :
  is_ok (get_bundle_policies b config) = true
  <-> known_bundle b /\ (b = "tdd" -> valid_strict config).
Proof.
  unfold get_bundle_policies. rewrite <- validate_bundle_name_ok.
  destruct (validate_bundle_name b) as [u|] eqn:Hv; simpl; [|naive_solver].
  assert (known_bundle b) as [->| ->] by (apply validate_bundle_name_ok; by rewrite Hv).
  - unfold valid_strict. simpl. destruct (dget "strict" (default [] config)) as [[]|]; simpl; naive_solver.
  - naive_solver.
Qed.

Lemma get_bundle_policies_ids b config ps :
  get_bundle_policies b config = Ok ps -> map det_policy_id ps = bundle_ids b.
Proof.
  unfold get_bundle_policies. intros H.
  destruct (validate_bundle_name b) as [u|] eqn:Hv; [|done].
  assert (known_bundle b) as [->| ->] by (apply validate_bundle_name_ok; by rewrite Hv).
  - simpl in H. destruct (dget "strict" (default [] config)) as [[]|]; simpl in H; by simplify_eq.
  - simpl in H. by simplify_eq.
Qed.

(** ** Properties *)

(** A pattern policy (skipped tests, TYPE_CHECKING blocks, backward-compatibility
    comments) denies exactly the contents in which one of its regular expressions occurs,
    and allows every other content. *)
Theorem pattern_policies_correct p pats ctx s :
  (p, pats) ∈ pattern_policies -> ac_new_content ctx = Some s ->
  exists d, (det_evaluate p ctx).2 = Ok d
    /\ (pd_decision d = Deny <-> some_pattern_occurs pats s)
    /\ (pd_decision d = Allow <-> ~ some_pattern_occurs pats s).
Proof.
  intros Hp Hc. unfold pattern_policies in Hp. rewrite !elem_of_cons in Hp.
  destruct Hp as [?|[?|[?|Hp%elem_of_nil]]]; simplify_eq; try done;
    (eexists; split; [reflexivity|by apply (evaluate_patterns_deny _ ctx)]).
Qed.

(** The emoji policy denies exactly the contents holding a code point of its ranges; it
    never blocks text of the Basic Multilingual Plane. *)
Theorem emoji_policy_correct ctx s :
  ac_new_content ctx = Some s ->
  exists d, (det_evaluate NoEmojiPolicy ctx).2 = Ok d
    /\ (pd_decision d = Deny <-> Exists in_emoji_ranges (utf8_decode s))
    /\ (pd_decision d = Allow <-> ~ Exists in_emoji_ranges (utf8_decode s))
    /\ (Forall (fun cp => cp < 65536) (utf8_decode s) -> pd_decision d = Allow).
Proof.
  intros Hc. simpl. unfold emoji_evaluate. rewrite Hc.
  assert (List.filter _is_colorful_emoji (utf8_decode s) <> []
          <-> Exists in_emoji_ranges (utf8_decode s)) as Hiff.
  { induction (utf8_decode s) as [|c l IH]; simpl; [rewrite Exists_nil; naive_solver|].
    rewrite Exists_cons, <- is_colorful_emoji_correct, <- IH.
    destruct (_is_colorful_emoji c); naive_solver. }
  assert (Forall (fun cp => cp < 65536) (utf8_decode s) ->
          List.filter _is_colorful_emoji (utf8_decode s) = []) as Hbmp.
  { clear Hiff. induction 1 as [|c l Hlt _ IH]; simpl; [done|].
    by rewrite bmp_not_emoji. }
  destruct (List.filter _is_colorful_emoji (utf8_decode s)) as [|c l];
    eexists; (split; [reflexivity|]); simpl; rewrite <- Hiff; split_and!; naive_solver.
Qed.

(** [build_engine] accepts exactly the configurations whose bundle names are known and
    whose tdd [strict] flag, when present, is a bool; the engine it builds registers the
    bundles' policies in the order of the bundle list, with the given fail mode, no resolver
    and nothing collected. *)
Theorem build_engine_correct bundles fm cfg :
  (is_ok (build_engine bundles fm cfg) = true <-> valid_config bundles cfg)
  /\ forall e, build_engine bundles fm cfg = Ok e ->
       registered_policy_ids e = concat (map bundle_ids bundles)
       /\ fail_mode e = fm /\ resolver e = None /\ get_collected_state e = [].
Proof.
  unfold build_engine, valid_config. split.
  - assert (is_ok (mapM_res validate_bundle_name (dkeys (default [] cfg))) = true
            <-> Forall known_bundle (dkeys (default [] cfg))) as H1.
    { rewrite mapM_res_ok. apply Forall_proper; [intros b; apply validate_bundle_name_ok|done]. }
    assert (is_ok (mapM_res (fun b => get_bundle_policies b (dget b (default [] cfg))) bundles) = true
            <-> Forall known_bundle bundles
                /\ ("tdd" ∈ bundles -> valid_strict (dget "tdd" (default [] cfg)))) as H2.
    { rewrite mapM_res_ok, !Forall_forall. setoid_rewrite get_bundle_policies_ok. naive_solver. }
    rewrite <- H1, <- H2. unfold mbind, res_bind.
    destruct (mapM_res validate_bundle_name _), (mapM_res _ bundles); naive_solver.
  - intros e H. res_inv H. rewrite fold_register. simpl. split_and!; try done.
    unfold registered_policy_ids, _all_policies. simpl. rewrite app_nil_r.
    match goal with E : mapM_res _ bundles = Ok ?a |- _ => apply mapM_res_Forall2 in E; induction E end;
      simpl; [done|].
    rewrite map_app. f_equal; [|done]. by eapply get_bundle_policies_ids.
Qed.
End rules.

(** ** The theorems at work *)

Module Samples.
Definition ascii_alnum (cp : Z) : bool :=
  ((48 <=? cp) && (cp <=? 57)) || ((65 <=? cp) && (cp <=? 90)) || ((97 <=? cp) && (cp <=? 122)).

(** A Write of [content] to [path]. *)
Definition write_ctx (path content : string) : ActionContext := {|
  ac_origin := "claude_code"; ac_event := "PreToolUse.Write"; ac_tool_name := "Write";
  ac_tool_args := []; ac_repo_root := "/r"; ac_session_name := "s";
  ac_target_path := Some path; ac_new_content := Some content; ac_raw_diff := None;
  ac_action_fingerprint := None; ac_native_boundary := None |}.

Lemma pattern_policies_witness :
  some_pattern_occurs ascii_alnum BACKWARD_COMPAT_PATTERNS "x = 1 #  legacy mode".
Proof.
  assert ((NoBackwardCompatPolicy, BACKWARD_COMPAT_PATTERNS) ∈ pattern_policies) as Hin.
  { right. right. left. }
  destruct (pattern_policies_correct ascii_alnum NoBackwardCompatPolicy BACKWARD_COMPAT_PATTERNS
    (write_ctx "src/a.py" "x = 1 #  legacy mode") "x = 1 #  legacy mode" Hin eq_refl)
    as (d & Hd & Hiff & _).
  apply Hiff. vm_compute in Hd. injection Hd as <-. reflexivity.
Defined.

Definition rocket : string := String "240" (String "159" (String "154" (String "128" ""))).

Lemma emoji_policy_witness : Exists in_emoji_ranges (utf8_decode ("go " +++ rocket)).
Proof.
  destruct (emoji_policy_correct ascii_alnum (write_ctx "src/a.py" ("go " +++ rocket))
    ("go " +++ rocket) eq_refl) as (d & Hd & Hiff & _).
  apply Hiff. vm_compute in Hd. injection Hd as <-. reflexivity.
Defined.

Lemma build_engine_witness :
  valid_config ["tdd"; "coding_standards"] (Some [("tdd", [("strict", VBool false)])])
  /\ exists e, build_engine ["tdd"; "coding_standards"] FailClosed
                 (Some [("tdd", [("strict", VBool false)])]) = Ok e
     /\ @registered_policy_ids _ (det_ops ascii_alnum) e =
          ["tdd.tests-before-impl"; "tdd.no-skip-tests"; "coding_standards.no-type-checking";
           "coding_standards.no-backward-compat"; "coding_standards.no-emoji"].
Proof.
  destruct (build_engine_correct ascii_alnum ["tdd"; "coding_standards"] FailClosed
    (Some [("tdd", [("strict", VBool false)])])) as [H1 H2]. split.
  - apply H1. reflexivity.
  - eexists. split; [reflexivity|]. apply (H2 _ eq_refl).
Defined.
End Samples.
