(* ===== verification/PolicyHook.v ===== *)
(** * PolicyHook: the policy check around the engine, and TDD across a session

    The runtime-neutral core of [src/forge/cli/hooks/policy.py] (engine construction,
    state restore, persistence) and the multi-file loop of the Codex policy hook in
    [src/forge/cli/hooks/commands.py] with [sort_contexts_tests_first] of
    [src/forge/cli/hooks/codex_policy.py]; the Claude hook is the one-context case. The
    semantic supervisor and the session store are outside this file: bundles only, and the
    manifest's [confirmed.policy] section is a value passed in and out. *)

From S2P Require Import Prelude PyValue PolicyTypes PolicyEngine Regex PolicyRules.

Section hook.
Variable unicode_alnum : Z -> bool.
Variable clock : nat -> string.
#[local] Existing Instance det_ops.
#[local] Abbreviation ops := (det_ops unicode_alnum).

(** [sorted(contexts, key=lambda ctx: tests_first_sort_key(ctx.target_path))], stable. *)
Fixpoint insert_ctx (x : ActionContext) (l : list ActionContext) : list ActionContext :=
  match l with
  | [] => [x]
  | y :: l =>
      if tests_first_sort_key (ac_target_path x) <=? tests_first_sort_key (ac_target_path y)
      then x :: y :: l else y :: insert_ctx x l
  end.

Definition sort_contexts_tests_first (ctxs : list ActionContext) : list ActionContext :=
  fold_right insert_ctx [] ctxs.

(** The loop over the files of one action: the engine persists across files, each
    evaluation's collected state is merged into the aggregate. *)
Fixpoint evaluate_files (ctxs : list ActionContext) (e : PolicyEngine det_policy)
    (aggregated : list (string * dict))
    : PolicyEngine det_policy * list (string * dict) * list (CompositeDecision * option string) :=
  match ctxs with
  | [] => (e, aggregated, [])
  | ctx :: ctxs =>
      let '(e, result, _) := @evaluate _ ops clock ctx e in
      let aggregated := dupdate aggregated (get_collected_state e) in
      let '(e, aggregated, results) := evaluate_files ctxs e aggregated in
      (e, aggregated,
       (result, Some (match ac_target_path ctx with
                      | Some p => if String.eqb p "" then "apply_patch" else "apply_patch:" +++ p
                      | None => "apply_patch" end)) :: results)
  end.

(** [result.final_decision in ("deny", "needs_review")]. *)
Definition is_blocking (c : CompositeDecision) : bool :=
  bool_decide (cd_final_decision c ∈ [Deny; NeedsReview]).

(** [confirmed.policy] of the manifest. *)
Record PolicyConfirmed := {
  pc_forge_version : value;
  pc_bundles : value;
  pc_rules_active : value;
  pc_decisions : value;
  pc_policy_states : value;
}.

(** The state dict [_mutate] starts from. *)
Definition confirmed_dict (c : PolicyConfirmed) : dict := [
  ("decisions", pc_decisions c); ("policy_states", pc_policy_states c);
  ("forge_version", pc_forge_version c); ("bundles", pc_bundles c);
  ("rules_active", pc_rules_active c)].

(** The loop over the entries; [clock n] stamps the [n]-th one. *)
Fixpoint persist_entries (n : nat) (engine_state : list (string * dict))
    (entries : list (CompositeDecision * option string)) (bundles rules : list string)
    (state : option dict) : res (option dict) :=
  match entries with
  | [] => Ok state
  | (result, summary) :: entries =>
      upd ← build_policy_state_update (clock n) result engine_state state None
              (Some bundles) (Some rules) summary;
      persist_entries (S n) engine_state entries bundles rules (Some upd)
  end.

Definition _persist_policy_decisions (engine_state : list (string * dict))
    (entries : list (CompositeDecision * option string)) (bundles rules : list string)
    (confirmed : option PolicyConfirmed) : res PolicyConfirmed :=
  state ← persist_entries 0 engine_state entries bundles rules (confirmed_dict <$> confirmed);
  let updated := default [] state in
  Ok {| pc_forge_version := dget_default "forge_version" VNone updated;
        pc_bundles := dget_default "bundles" (VList []) updated;
        pc_rules_active := dget_default "rules_active" (VList []) updated;
        pc_decisions := dget_default "decisions" (VList []) updated;
        pc_policy_states := dget_default "policy_states" (VDict []) updated |}.

(** [existing_policy_state] of [register_supervisor_and_restore]. *)
Definition existing_policy_state (confirmed : option PolicyConfirmed) : option dict :=
  c ← confirmed; as_dict (pc_policy_states c).

Record hook_outcome := {
  ho_blocked : bool;
  ho_results : list CompositeDecision;
  ho_confirmed : option PolicyConfirmed;
}.

(** One policy check of an action: build and restore the engine, evaluate the files tests
    first, block on deny or unresolved review, persist the decisions, and the collected
    states only when the action is not blocked. An action without file operations and a
    build failure let the action through; a persistence failure leaves the manifest as it
    was. *)
Definition codex_policy_check (bundles : list string) (fm : FailMode)
    (cfg : option (list (string * dict))) (confirmed : option PolicyConfirmed)
    (contexts : list ActionContext) : hook_outcome :=
  let pass := {| ho_blocked := false; ho_results := []; ho_confirmed := confirmed |} in
  match contexts, build_engine bundles fm cfg with
  | [], _ | _, Err _ => pass
  | _, Ok e =>
      let e := @restore_state _ ops (existing_policy_state confirmed) e in
      let '(e, aggregated, results) := evaluate_files (sort_contexts_tests_first contexts) e [] in
      let blocked := existsb (fun r => is_blocking r.1) results in
      {| ho_blocked := blocked; ho_results := map fst results;
         ho_confirmed :=
           match _persist_policy_decisions (if blocked then [] else aggregated) results bundles
                   (@registered_policy_ids _ ops e) confirmed with
           | Ok c => Some c
           | Err _ => confirmed
           end |}
  end.

(** ** Sessions of policy checks *)

(** The actions a session's manifest has been through, each with whether it was blocked. *)
Inductive session (bundles : list string) (fm : FailMode) (cfg : option (list (string * dict)))
    : list (list ActionContext * bool) -> option PolicyConfirmed -> Prop :=
| session_start : session bundles fm cfg [] None
| session_check h c ctxs :
    session bundles fm cfg h c ->
    session bundles fm cfg
      (h ++ [(ctxs, ho_blocked (codex_policy_check bundles fm cfg c ctxs))])
      (ho_confirmed (codex_policy_check bundles fm cfg c ctxs)).

(** The action edits a test file; it edits an implementation file. *)
Definition edits_tests (ctx : ActionContext) : Prop :=
  is_write_edit ctx = true /\ is_under_directory (ac_target_path ctx) "tests" = true.
Definition edits_src (ctx : ActionContext) : Prop :=
  is_write_edit ctx = true /\ is_under_directory (ac_target_path ctx) "tests" = false
  /\ is_under_directory (ac_target_path ctx) "src" = true.

(** Some action that was not blocked edited a test file. *)
Definition tests_landed (h : list (list ActionContext * bool)) : Prop :=
  exists ctxs ctx, (ctxs, false) ∈ h /\ ctx ∈ ctxs /\ edits_tests ctx.

(** [ctx] introduces text in which a test-skip pattern occurs. *)
Definition adds_skip (ctx : ActionContext) : Prop :=
  is_write_edit ctx = true
  /\ exists s, ac_new_content ctx = Some s /\ some_pattern_occurs unicode_alnum SKIP_PATTERNS s.

(** ** Lemmas: the tdd engine *)

#[local] Arguments is_under_directory : simpl never.

Definition tdd_id : string := "tdd.tests-before-impl".

Definition tdd_engine (fm : FailMode) (T : list value) (coll : list (string * dict))
    : PolicyEngine det_policy := {|
  policies := [TDDEnforcementPolicy true T; NoSkipTestsPolicy]; fail_mode := fm;
  resolver := None; collected_state := coll |}.

Definition tdd_state (T : list value) : dict := [("tests_touched", VList T)].

(** The tests touched after the policy saw [ctx]. *)
Definition touch (ctx : ActionContext) (T : list value) : list value :=
  if is_write_edit ctx && is_under_directory (ac_target_path ctx) "tests" then
    match ac_target_path ctx with Some p => set_add (VStr p) T | None => T end
  else T.

Lemma set_add_nonempty v T : set_add v T <> [].
Proof. unfold set_add. destruct (existsb _ T) eqn:E; [by destruct T|]. by destruct T. Qed.

Lemma touch_nonempty ctx T : touch ctx T <> [] <-> T <> [] \/ edits_tests ctx.
Proof.
  unfold touch, edits_tests.
  destruct (is_write_edit ctx); simpl; [|naive_solver].
  destruct (is_under_directory _ _) eqn:E; [|naive_solver].
  destruct (ac_target_path ctx) as [p|]; [|done].
  pose proof (set_add_nonempty (VStr p) T). naive_solver.
Qed.

Lemma tdd_evaluate_state T ctx :
  det_applies_to (TDDEnforcementPolicy true T) ctx = true ->
  (tdd_evaluate true T ctx).1 = TDDEnforcementPolicy true (touch ctx T)
  /\ (pd_decision (tdd_evaluate true T ctx).2 = Deny <-> edits_src ctx /\ T = [])
  /\ pd_decision (tdd_evaluate true T ctx).2 <> NeedsReview.
Proof.
  unfold det_applies_to, tdd_applies_to, tdd_evaluate, touch, edits_src.
  destruct (is_write_edit ctx); [|done]. simpl.
  destruct (ac_target_path ctx) as [p|] eqn:Hp; [|done].
  destruct (is_under_directory (Some p) "tests") eqn:Ht; [simpl; naive_solver|].
  destruct (is_under_directory (Some p) "src"); [|done]. destruct T; simpl; naive_solver.
Qed.

Lemma touch_not_applies T ctx :
  det_applies_to (TDDEnforcementPolicy true T) ctx = false -> touch ctx T = T /\ ~ edits_src ctx.
Proof.
  unfold det_applies_to, tdd_applies_to, touch, edits_src.
  destruct (is_write_edit ctx); simpl; [|naive_solver].
  destruct (is_under_directory _ "tests"); simpl; [done|].
  destruct (is_under_directory _ "src"); naive_solver.
Qed.

(** The engine after one evaluation. *)
Lemma evaluate_tdd_engine ctx fm T coll :
  exists coll',
    (@evaluate _ ops clock ctx (tdd_engine fm T coll)).1.1 = tdd_engine fm (touch ctx T) coll'
    /\ (coll' = [] /\ touch ctx T = T \/ coll' = [(tdd_id, tdd_state (touch ctx T))]).
Proof.
  unfold evaluate, tdd_engine. simpl. unfold _run_policy. simpl.
  destruct (tdd_applies_to ctx) eqn:Ha; simpl.
  - destruct (tdd_evaluate_state T ctx Ha) as [Hs _].
    destruct (tdd_evaluate true T ctx) as [p' d]; simpl in *. subst p'. simpl.
    destruct (no_skip_applies_to ctx); simpl; eexists; (split; [reflexivity|]); by right.
  - destruct (touch_not_applies T ctx Ha) as [-> _].
    destruct (no_skip_applies_to ctx); simpl; eexists; (split; [reflexivity|]); by left.
Qed.

(** What each policy of the bundle contributes. *)
Lemma tdd_outcome fm ctx T l :
  @policy_outcome _ ops fm ctx (TDDEnforcementPolicy true T) l ->
  ~ has NeedsReview l /\ (has Deny l <-> edits_src ctx /\ T = []).
Proof.
  unfold has. intros Ho. inversion Ho as [Ha|? Ha|? ? Ha|d t Ha Hd|? ? Ha Hd]; subst;
    simpl in *; simplify_eq.
  - rewrite !Exists_nil. apply (touch_not_applies T) in Ha as [_ ?]. tauto.
  - destruct (tdd_evaluate_state T ctx) as (_ & H1 & H2); [done|].
    destruct (tdd_evaluate true T ctx); simpl in *; simplify_eq.
    rewrite !Exists_cons, !Exists_nil. simpl. tauto.
  - by destruct (tdd_evaluate true T ctx).
Qed.

Lemma skip_outcome fm ctx l :
  @policy_outcome _ ops fm ctx NoSkipTestsPolicy l ->
  ~ has NeedsReview l /\ (has Deny l <-> adds_skip ctx).
Proof.
  unfold has, adds_skip. intros Ho. inversion Ho as [Ha|? Ha|? ? Ha|d t Ha Hd|? ? Ha Hd]; subst;
    simpl in *; simplify_eq; rewrite ?Exists_cons, ?Exists_nil;
    unfold no_skip_applies_to, has_content in Ha; simpl in *.
  - destruct (is_write_edit ctx), (ac_new_content ctx); naive_solver.
  - apply andb_prop in Ha as [Hw Hc].
    destruct (ac_new_content ctx) as [s|] eqn:Hs; [|done].
    edestruct (evaluate_patterns_deny unicode_alnum NoSkipTestsPolicy ctx SKIP_PATTERNS) as [H1 H2];
      [done|]. simpl in *. split.
    + intros [Hd|[]]. simpl in Hd. unfold no_skip_evaluate, evaluate_patterns in Hd.
      by destruct (_matches_any_pattern _ _ _).
    + unfold no_skip_evaluate. rewrite H1. naive_solver.
Qed.

Lemma has_blocking ids ds k :
  composes ids ds k -> ~ has NeedsReview ds -> k ∈ [Deny; NeedsReview] <-> has Deny ds.
Proof.
  rewrite !elem_of_cons, elem_of_nil. intros []; naive_solver.
Qed.

(** One file blocks exactly when it adds a skip or edits src before any test. *)
Lemma evaluate_tdd_final ctx fm T coll :
  is_blocking (@evaluate _ ops clock ctx (tdd_engine fm T coll)).1.2 = true
  <-> adds_skip ctx \/ edits_src ctx /\ T = [].
Proof.
  pose proof (@evaluate_meets_spec _ ops clock (det_laws _) ctx (tdd_engine fm T coll)) as Hs.
  destruct Hs as [(ls & Hls & Hds) Hfin _ _]. simpl in *.
  destruct Hds as [[Hc _]|(? & ? & ? & _)]; [|done].
  apply Forall2_cons_inv_l in Hls as (l1 & ? & H1 & Hls & ->).
  apply Forall2_cons_inv_l in Hls as (l2 & ? & H2 & Hls & ->).
  apply Forall2_nil_inv_l in Hls as ->. simpl in Hc. rewrite app_nil_r in Hc. rewrite Hc in Hfin.
  apply tdd_outcome in H1 as [Hn1 Hd1]. apply skip_outcome in H2 as [Hn2 Hd2].
  unfold is_blocking. rewrite bool_decide_eq_true.
  rewrite (has_blocking _ _ _ Hfin) by (rewrite has_app; tauto).
  rewrite has_app. tauto.
Qed.

(** ** Lemmas: the loop over files *)

Lemma touch_all_nonempty ctxs T :
  foldl (flip touch) T ctxs <> [] <-> T <> [] \/ Exists edits_tests ctxs.
Proof.
  revert T. induction ctxs as [|ctx ctxs IH]; intros T; simpl; [rewrite Exists_nil; tauto|].
  rewrite IH, Exists_cons. unfold flip. rewrite touch_nonempty. tauto.
Qed.

Definition agg_inv (T0 T : list value) (agg : list (string * dict)) : Prop :=
  agg = [] /\ T = T0 \/ agg = [(tdd_id, tdd_state T)].

(** An implementation edit with no test edit before it, in the order of the list. *)
Inductive impl_first : list ActionContext -> list value -> Prop :=
| impl_first_here ctx ctxs : edits_src ctx -> impl_first (ctx :: ctxs) []
| impl_first_next ctx ctxs T : impl_first ctxs (touch ctx T) -> impl_first (ctx :: ctxs) T.

Lemma evaluate_files_length ctxs e agg : length (evaluate_files ctxs e agg).2 = length ctxs.
Proof.
  revert e agg. induction ctxs as [|ctx ctxs IH]; intros e agg; simpl; [done|].
  destruct (@evaluate _ ops clock ctx e) as [[e' result] lg].
  specialize (IH e' (dupdate agg (get_collected_state e'))).
  destruct (evaluate_files ctxs e' _) as [[? ?] ?]; simpl in *. by rewrite IH.
Qed.

Lemma evaluate_files_tdd ctxs fm T0 T coll agg :
  agg_inv T0 T agg ->
  exists coll' agg' results,
    evaluate_files ctxs (tdd_engine fm T coll) agg
      = (tdd_engine fm (foldl (flip touch) T ctxs) coll', agg', results)
    /\ agg_inv T0 (foldl (flip touch) T ctxs) agg'
    /\ (existsb (fun r => is_blocking r.1) results = true
         <-> Exists adds_skip ctxs \/ impl_first ctxs T).
Proof.
  revert T coll agg. induction ctxs as [|ctx ctxs IH]; intros T coll agg Hagg.
  { exists coll, agg, []. split_and!; [done..|]. rewrite Exists_nil. split; [done|].
    intros [[]|H]. inversion H. }
  simpl. destruct (evaluate_tdd_engine ctx fm T coll) as (coll1 & He & Hcoll).
  pose proof (evaluate_tdd_final ctx fm T coll) as Hb.
  destruct (@evaluate _ ops clock ctx (tdd_engine fm T coll)) as [[e result] lg]; simpl in *. subst e.
  change (get_collected_state (tdd_engine fm (touch ctx T) coll1)) with coll1.
  destruct (IH (touch ctx T) coll1 (dupdate agg coll1)) as (coll' & agg' & results & -> & Hagg' & Hres).
  { destruct Hcoll as [[-> ->]| ->]; [done|].
    destruct Hagg as [[-> ->]| ->]; by right. }
  eexists coll', agg', _. split_and!; [reflexivity|done|]. simpl.
  rewrite orb_true_iff, Hb, Hres, Exists_cons. split.
  - intros [[?|[? ->]]|[?|?]]; try tauto; right; by constructor.
  - intros [?|Hi]; [tauto|]. inversion Hi; subst; tauto.
Qed.

(** ** Lemmas: tests first *)

Definition key_le (x y : ActionContext) : Prop :=
  tests_first_sort_key (ac_target_path x) <= tests_first_sort_key (ac_target_path y).

Lemma insert_ctx_perm x l : insert_ctx x l ≡ₚ x :: l.
Proof.
  induction l as [|y l IH]; simpl; [done|].
  case_match; [done|]. rewrite IH. constructor.
Qed.

Lemma sort_contexts_perm l : sort_contexts_tests_first l ≡ₚ l.
Proof. induction l as [|x l IH]; simpl; [done|]. by rewrite insert_ctx_perm, IH. Qed.

Lemma insert_ctx_sorted x l :
  StronglySorted key_le l -> StronglySorted key_le (insert_ctx x l).
Proof.
  induction 1 as [|y l Hs IH Hall]; simpl; [by repeat constructor|].
  case_match; zbool.
  - constructor; [by constructor|]. constructor; [done|].
    eapply Forall_impl; [exact Hall|]. unfold key_le. lia.
  - constructor; [done|]. rewrite insert_ctx_perm. constructor; [unfold key_le; lia|done].
Qed.

Lemma sort_contexts_sorted l : StronglySorted key_le (sort_contexts_tests_first l).
Proof. induction l as [|x l IH]; simpl; [constructor|]. by apply insert_ctx_sorted. Qed.

Lemma edits_tests_key ctx : edits_tests ctx -> tests_first_sort_key (ac_target_path ctx) = 0.
Proof. intros [_ H]. unfold tests_first_sort_key. by rewrite H. Qed.

Lemma edits_src_key ctx : edits_src ctx -> tests_first_sort_key (ac_target_path ctx) = 2.
Proof. intros (_ & H1 & H2). unfold tests_first_sort_key. by rewrite H1, H2. Qed.

(** In tests-first order an implementation edit comes first only when no test is edited. *)
Lemma impl_first_sorted ctxs T :
  StronglySorted key_le ctxs ->
  impl_first ctxs T <-> Exists edits_src ctxs /\ T = [] /\ ~ Exists edits_tests ctxs.
Proof.
  intros Hs. revert T. induction Hs as [|ctx ctxs Hs IH Hall]; intros T.
  { rewrite Exists_nil. split; [inversion 1|tauto]. }
  rewrite !Exists_cons. split.
  - inversion 1 as [? ? Hsrc|? ? ? Hi]; subst.
    + split_and!; [by left|done|]. intros [[? Ht]|Ht].
      * destruct Hsrc as (_ & ? & _). congruence.
      * apply Exists_exists in Ht as (c & Hc & Ht). rewrite Forall_forall in Hall.
        specialize (Hall c Hc). unfold key_le in Hall.
        rewrite (edits_tests_key c), (edits_src_key ctx) in Hall by done. lia.
    + apply IH in Hi as (? & Ht & ?). destruct (touch_nonempty ctx T) as [_ Htn].
      split_and!; [by right| |].
      * destruct T; [done|]. exfalso. apply Htn; [by left|done].
      * intros [?|?]; [|done]. apply Htn; [by right|done].
  - intros ([Hsrc|Hsrc] & -> & Hn); [by apply impl_first_here|].
    apply impl_first_next, IH. split_and!; [done| |tauto].
    pose proof (touch_nonempty ctx []). destruct (touch ctx []); [done|].
    exfalso. apply Hn. left. naive_solver.
Qed.

(** ** Lemmas: persistence *)

(** The tests-touched set as the policy keeps it: distinct paths. *)
Definition path_set (T : list value) : Prop := exists L, T = map VStr L /\ NoDup L.

Lemma existsb_py_eq_VStr p L : existsb (py_eq (VStr p)) (map VStr L) = bool_decide (p ∈ L).
Proof.
  induction L as [|q L IH]; [done|]. cbn [map existsb]. rewrite IH. cbn [py_eq].
  destruct (String.eqb_spec p q) as [->|Hne]; simpl.
  - symmetry. apply bool_decide_eq_true. left.
  - apply bool_decide_ext. rewrite elem_of_cons. naive_solver.
Qed.

Lemma set_add_path p L :
  set_add (VStr p) (map VStr L) = map VStr (if bool_decide (p ∈ L) then L else L ++ [p]).
Proof.
  unfold set_add. rewrite existsb_py_eq_VStr. case_bool_decide; [done|]. by rewrite map_app.
Qed.

Lemma path_set_touch ctx T : path_set T -> path_set (touch ctx T).
Proof.
  intros (L & -> & HL). unfold touch. destruct (_ && _); [|by exists L].
  destruct (ac_target_path ctx) as [p|]; [|by exists L].
  rewrite set_add_path. eexists; split; [reflexivity|]. case_bool_decide; [done|].
  apply NoDup_app. split_and!; [done|set_solver|apply NoDup_singleton].
Qed.

Lemma path_set_touch_all ctxs T : path_set T -> path_set (foldl (flip touch) T ctxs).
Proof. revert T. induction ctxs; simpl; [done|]. intros T HT. by apply IHctxs, path_set_touch. Qed.

Lemma py_set_of_paths K L :
  NoDup (K ++ L) -> fold_left (fun s v => set_add v s) (map VStr L) (map VStr K) = map VStr (K ++ L).
Proof.
  revert K. induction L as [|p L IH]; intros K Hnd; simpl; [by rewrite app_nil_r|].
  rewrite set_add_path, bool_decide_false.
  - rewrite IH, <- app_assoc; [done|]. by rewrite <- app_assoc.
  - apply NoDup_app in Hnd as (_ & Hd & _). intros Hp. apply (Hd p Hp). left.
Qed.

Lemma py_set_paths T : path_set T -> py_set (VList T) = Ok T.
Proof.
  intros (L & -> & HL). unfold py_set, py_set_of. simpl.
  change [] with (map VStr []) at 1. rewrite (py_set_of_paths [] L HL). simpl.
  assert (List.find (fun x => negb (hashable x)) (map VStr L) = None) as ->; [|done].
  clear HL. by induction L.
Qed.

(** The manifest section records that the tests [T] were touched. *)
Definition records (confirmed : option dict) (T : list value) : Prop :=
  path_set T /\
  match confirmed with
  | None => T = []
  | Some d => exists log st,
      dget "decisions" d = Some (VList log) /\ dget "policy_states" d = Some (VDict st)
      /\ (dget tdd_id st = None /\ T = [] \/ dget tdd_id st = Some (VDict (tdd_state T)))
  end.

Lemma persist_entries_records T T' es entries n bundles rules state :
  records state T -> path_set T' ->
  agg_inv T T' es ->
  exists state', persist_entries n es entries bundles rules state = Ok state'
    /\ (entries = [] /\ state' = state \/ records state' T').
Proof.
  revert n state T. induction entries as [|[result summary] entries IH]; intros n state T Hr HT' Hes.
  { exists state. auto. }
  assert (exists log st,
    py_list (dget_default "decisions" (VList []) (default [] state)) = Ok log
    /\ py_dict (dget_default "policy_states" (VDict []) (default [] state)) = Ok st
    /\ (dget tdd_id st = None /\ T = [] \/ dget tdd_id st = Some (VDict (tdd_state T))))
    as (log & st & Hlog & Hst & Htdd).
  { destruct Hr as [_ Hr]. unfold dget_default. destruct state as [d|]; simpl.
    - destruct Hr as (log & st & -> & -> & ?). by exists log, st.
    - exists [], []. auto. }
  assert (NoDup (dkeys es)) as Hnd.
  { destruct Hes as [[-> _]| ->]; [constructor|apply NoDup_singleton]. }
  edestruct (state_update_meets_spec (clock n) result es state log st None (Some bundles) (Some rules)
    summary Hnd Hlog Hst) as (upd & Hu & [(log' & ? & Hd & _) (st' & Hs & Hk)]).
  simpl. rewrite Hu. simpl.
  assert (records (Some upd) T') as Hrec.
  { split; [done|]. eexists _, st'. split_and!; [done|done|].
    rewrite Hk. destruct Hes as [[-> ->]| ->]; [by simpl|]. right. reflexivity. }
  destruct (IH (S n) (Some upd) T') as (state' & -> & [[-> ->]|Hr']); auto.
  - destruct Hes as [[-> _]| ->]; [left|right]; done.
  - eexists; split; [reflexivity|]. by right.
  - eexists; split; [reflexivity|]. by right.
Qed.

Lemma persist_records T T' es entries bundles rules confirmed :
  entries <> [] -> records (confirmed_dict <$> confirmed) T -> path_set T' -> agg_inv T T' es ->
  exists c, _persist_policy_decisions es entries bundles rules confirmed = Ok c
            /\ records (confirmed_dict <$> Some c) T'.
Proof.
  intros Hne Hr HT' Hes. unfold _persist_policy_decisions.
  destruct (persist_entries_records T T' es entries 0 bundles rules (confirmed_dict <$> confirmed))
    as (state' & -> & [[? _]|Hrec]); [done..|].
  simpl. eexists; split; [reflexivity|]. destruct Hrec as [? Hrec]. split; [done|].
  simpl. destruct state' as [d|]; simpl.
  - destruct Hrec as (log & st & H1 & H2 & H3). unfold dget_default. rewrite H1, H2.
    by exists log, st.
  - exists [], []. auto.
Qed.

(** ** The check as a whole *)

Lemma build_tdd fm : build_engine ["tdd"] fm None = Ok (tdd_engine fm [] []).
Proof. done. Qed.

Lemma restore_tdd fm confirmed T :
  records (confirmed_dict <$> confirmed) T ->
  @restore_state _ ops (existing_policy_state confirmed) (tdd_engine fm [] []) = tdd_engine fm T [].
Proof.
  intros [HT Hr]. destruct confirmed as [c|]; simpl in Hr; [|by subst].
  destruct Hr as (log & st & _ & Hst & Htdd). unfold confirmed_dict in Hst. simpl in Hst.
  injection Hst as Hst. unfold existing_policy_state. simpl. rewrite Hst. simpl.
  unfold tdd_engine. f_equal. f_equal. unfold restore_one. simpl.
  destruct Htdd as [[Hn ->]|Hs]; fold tdd_id; [by rewrite Hn|]. rewrite Hs. simpl.
  unfold dget_default. simpl. by rewrite py_set_paths.
Qed.

Lemma Exists_perm {A} (P : A -> Prop) l k : l ≡ₚ k -> Exists P l <-> Exists P k.
Proof. intros H. rewrite !Exists_exists. by setoid_rewrite H. Qed.

Lemma codex_policy_check_tdd fm confirmed T ctxs :
  records (confirmed_dict <$> confirmed) T ->
  let o := codex_policy_check ["tdd"] fm None confirmed ctxs in
  (ho_blocked o = true <->
     Exists adds_skip ctxs \/ Exists edits_src ctxs /\ T = [] /\ ~ Exists edits_tests ctxs)
  /\ exists T', records (confirmed_dict <$> ho_confirmed o) T'
      /\ (T' <> [] <-> T <> [] \/ ho_blocked o = false /\ Exists edits_tests ctxs).
Proof.
  intros Hr o. subst o. unfold codex_policy_check. rewrite build_tdd.
  destruct (decide (ctxs = [])) as [->|Hne].
  { simpl. rewrite !Exists_nil. split; [split; [done|tauto]|]. exists T. rewrite Exists_nil. tauto. }
  rewrite (restore_tdd fm confirmed T Hr).
  pose proof (sort_contexts_perm ctxs) as Hp. pose proof (sort_contexts_sorted ctxs) as Hsrt.
  set (sorted := sort_contexts_tests_first ctxs) in *.
  destruct (evaluate_files_tdd sorted fm T T [] []) as (coll' & agg & results & He & Hagg & Hb);
    [by left|].
  rewrite (impl_first_sorted _ _ Hsrt), !(Exists_perm _ _ _ Hp) in Hb.
  assert (results <> []) as Hres.
  { intros ->. pose proof (evaluate_files_length sorted (tdd_engine fm T []) []) as Hlen.
    rewrite He in Hlen. simpl in Hlen. apply Permutation_length in Hp. by destruct ctxs, sorted. }
  assert (path_set (foldl (flip touch) T sorted)) as HT' by by apply path_set_touch_all, Hr.
  destruct ctxs as [|c0 ctxs']; [done|]. rewrite He.
  set (rules := registered_policy_ids _). set (blocked := existsb _ results) in *. simpl.
  split; [done|].
  assert (exists c T', _persist_policy_decisions (if blocked then [] else agg) results ["tdd"] rules
            confirmed = Ok c /\ records (confirmed_dict <$> Some c) T'
            /\ (T' <> [] <-> T <> [] \/ blocked = false /\ Exists edits_tests (c0 :: ctxs')))
    as (c & T' & -> & ? & ?); [|by eauto].
  destruct blocked.
  - destruct (persist_records T T [] results ["tdd"] rules confirmed) as (c & ? & ?);
      [done..|apply Hr|by left|]. exists c, T. naive_solver.
  - destruct (persist_records T _ agg results ["tdd"] rules confirmed Hres Hr HT' Hagg) as (c & ? & ?).
    eexists c, _. split_and!; [done..|]. rewrite touch_all_nonempty, (Exists_perm _ _ _ Hp). tauto.
Qed.

Lemma session_records fm h c :
  session ["tdd"] fm None h c ->
  exists T, records (confirmed_dict <$> c) T /\ (T <> [] <-> tests_landed h).
Proof.
  unfold tests_landed. induction 1 as [|h c ctxs Hs (T & HT & Hl)].
  - exists []. split; [split; [exists []; split; [done|constructor]|done]|].
    split; [done|]. by intros (? & ? & ?%elem_of_nil & _).
  - destruct (codex_policy_check_tdd fm c T ctxs HT) as [_ (T' & HT' & Hl')].
    exists T'. split; [done|]. rewrite Hl', Hl, Exists_exists. setoid_rewrite elem_of_app.
    setoid_rewrite list_elem_of_singleton. split.
    + intros [(? & ? & ? & ? & ?)|(Hb & ctx & ? & ?)]; [naive_solver|].
      exists ctxs, ctx. rewrite Hb. auto.
    + intros (k & ctx & [?|?] & ? & ?); simplify_eq; [left; eauto|right; eauto].
Qed.

(** ** Properties *)

End hook.

(** ** The theorem at work: an implementation edit is blocked until a test edit lands *)

Module Example_session.
Import PolicyRules.Samples.

Definition src_edit : list ActionContext := [write_ctx "src/a.py" "x = 1"].
Definition test_edit : list ActionContext := [write_ctx "tests/test_a.py" "assert x"].
Definition clock0 (_ : nat) : string := "t".
Definition check := codex_policy_check ascii_alnum clock0 ["tdd"] FailOpen None.

End Example_session.
