(* ===== verification/CodexPatch.v ===== *)
(** * CodexPatch: policy checks on the patches Codex applies

    [src/forge/cli/hooks/codex_patch.py] (parsing an [apply_patch] envelope),
    [CodexHookAdapter] of [cli/hooks/codex_policy.py] (one action context per file the patch
    writes) and [compute_action_fingerprint] of [policy/action_identity.py]. The grammar of
    envelopes is the relation [envelope]; the contexts go to the hook of PolicyHook.v. *)

From S2P Require Import Prelude PyValue PolicyTypes PolicyEngine Regex PyText PolicyRules PolicyHook.

(** ** Patches *)

Inductive PatchOpKind := OpAdd | OpUpdate | OpDelete.

#[export] Instance PatchOpKind_eq_dec : EqDecision PatchOpKind.
Proof. solve_decision. Defined.

Record PatchFileOp := {
  op_kind : PatchOpKind;
  op_path : string;
  op_move_to : option string;
  op_added_content : string;
  op_raw_section : string;
  op_source_path : option string }.

Definition _BEGIN : string := "*** Begin Patch".
Definition _END : string := "*** End Patch".
Definition _EOF_MARKER : string := "*** End of File".
Definition _MOVE_TO : string := "*** Move to: ".

(** The prefixes of [_HEADERS]. *)
Definition header_prefix (k : PatchOpKind) : string :=
  match k with
  | OpAdd => "*** Add File: "
  | OpUpdate => "*** Update File: "
  | OpDelete => "*** Delete File: "
  end.

(** [_Section]. *)
Record section := Section_ {
  sec_kind : PatchOpKind;
  sec_path : string;
  sec_move_to : option string;
  sec_header_lines : list string;
  sec_body : list string }.

Definition _extract_codex_added_lines (body : list string) : string :=
  str_join newline (map (str_drop 1) (List.filter (startswith "+") body)).

(** [_Section.finalize]. *)
Definition finalize (s : section) : PatchFileOp := {|
  op_kind := sec_kind s;
  op_path := default (sec_path s) (sec_move_to s);
  op_move_to := sec_move_to s;
  op_added_content := match sec_kind s with OpDelete => "" | _ => _extract_codex_added_lines (sec_body s) end;
  op_raw_section := str_join newline (sec_header_lines s ++ sec_body s);
  op_source_path := match sec_move_to s with Some _ => Some (sec_path s) | None => None end |}.

Definition after_prefix (p line : string) : option string :=
  if startswith p line then Some (str_drop (String.length p) line) else None.

Definition _match_header (line : string) : option (PatchOpKind * string) :=
  match after_prefix (header_prefix OpAdd) line with
  | Some r => Some (OpAdd, py_strip r)
  | None => match after_prefix (header_prefix OpUpdate) line with
            | Some r => Some (OpUpdate, py_strip r)
            | None => match after_prefix (header_prefix OpDelete) line with
                      | Some r => Some (OpDelete, py_strip r)
                      | None => None
                      end
            end
  end.

(** The lines a section's body may hold, besides the end-of-file marker. *)
Definition body_prefix (line : string) : bool :=
  String.eqb line "" || startswith "+" line || startswith "-" line || startswith " " line || startswith "@@" line.

Definition add_body (s : section) (line : string) : section :=
  Section_ (sec_kind s) (sec_path s) (sec_move_to s) (sec_header_lines s) (sec_body s ++ [line]).

(** [ops] and [current]. *)
Definition parser : Type := list PatchFileOp * option section.

Definition close (st : parser) : list PatchFileOp :=
  match st with (ops, Some s) => ops ++ [finalize s] | (ops, None) => ops end.

(** The loop's body; [None]: the envelope is outside the grammar. *)
Definition parse_line (st : parser) (line : string) : option parser :=
  match _match_header line with
  | Some (kind, path) =>
      if String.eqb path "" then None else Some (close st, Some (Section_ kind path None [line] []))
  | None =>
      match after_prefix _MOVE_TO line with
      | Some rest =>
          match st with
          | (ops, Some (Section_ OpUpdate path None header_lines [])) =>
              let target := py_strip rest in
              if String.eqb target "" then None
              else Some (ops, Some (Section_ OpUpdate path (Some target) (header_lines ++ [line]) []))
          | _ => None
          end
      | None =>
          match st with
          | (ops, Some s) =>
              if bool_decide (sec_kind s = OpDelete) then None
              else if String.eqb line _EOF_MARKER || body_prefix line then Some (ops, Some (add_body s line))
              else None
          | (_, None) => None
          end
      end
  end.

Fixpoint parse_lines (st : parser) (lines : list string) : option parser :=
  match lines with
  | [] => Some st
  | l :: lines => match parse_line st l with Some st => parse_lines st lines | None => None end
  end.

(** [line.rstrip("\r")]. *)
Fixpoint drop_cr (l : list ascii) : list ascii :=
  match l with
  | c :: l' => if Ascii.eqb c "013" then drop_cr l' else l
  | [] => []
  end.
Definition rstrip_cr (s : string) : string := list_str (rev (drop_cr (rev (str_list s)))).

Fixpoint drop_blank (lines : list string) : list string :=
  match lines with
  | l :: lines' => if String.eqb (py_strip l) "" then drop_blank lines' else lines
  | [] => []
  end.

(** The lines of the command, without the blank ones at its two ends. *)
Definition command_lines (command : string) : list string :=
  rev (drop_blank (rev (drop_blank (map rstrip_cr (split_on "010" command))))).

(** [parse_apply_patch]. *)
Definition parse_apply_patch (command : string) : option (list PatchFileOp) :=
  match command_lines command with
  | first :: ((_ :: _) as rest) =>
      if String.eqb first _BEGIN && bool_decide (last rest = Some _END)
      then close <$> parse_lines ([], None) (removelast rest)
      else None
  | _ => None
  end.

(** ** Action contexts *)

(** The parts of a [PurePosixPath]: its root and its components. *)
Definition path_root (p : string) : string :=
  if startswith "//" p && negb (startswith "///" p) then "//" else if startswith "/" p then "/" else "".

Definition path_parts (p : string) : list string :=
  List.filter (fun c => negb (String.eqb c "" || String.eqb c ".")) (split_on "/" p).

(** [str(p.relative_to(cwd))]; [None]: [ValueError]. *)
Definition relative_to (p cwd : string) : option string :=
  let n := length (path_parts cwd) in
  if String.eqb (path_root p) (path_root cwd) && bool_decide (take n (path_parts p) = path_parts cwd)
  then Some (match drop n (path_parts p) with [] => "." | parts => str_join "/" parts end)
  else None.

Definition ACTION_IDENTITY_SCHEMA : string := "forge-policy-action-v1".

Definition opt_value (o : option string) : value := match o with Some s => VStr s | None => VNone end.

Definition str_value (v : value) : option string := match v with VStr s => Some s | _ => None end.

Section Adapter.
(** [hashlib.sha256(...).hexdigest()] of a text, and [json.dumps] with sorted keys. *)
Context (sha256 : string -> string) (dumps : dict -> string).

(** [compute_action_fingerprint]. *)
Definition compute_action_fingerprint (tool_name : string) (target_path : option string) (args : dict)
    (new_content raw_diff : option string) : string :=
  let content : dict :=
    match raw_diff with
    | Some d => [("kind", VStr "raw_diff"); ("raw_diff", VStr d)]
    | None =>
        if String.eqb tool_name "Edit" && (dhas "old_string" args || dhas "new_string" args) then
          [("kind", VStr "edit_fragments"); ("old_string", opt_value (str_value (dgetv "old_string" args)));
           ("new_string", match dgetv "new_string" args with VStr s => VStr s | _ => opt_value new_content end);
           ("replace_all", VBool (bool_decide (dgetv "replace_all" args = VBool true)))]
        else
          [("kind", VStr (if String.eqb tool_name "Write" then "write_content" else "new_content"));
           ("content", match new_content with
                       | Some s => VStr s
                       | None => opt_value (str_value (dgetv "content" args))
                       end)]
    end in
  sha256 (dumps [("schema", VStr ACTION_IDENTITY_SCHEMA); ("tool_name", VStr tool_name);
                 ("target_path", opt_value target_path); ("content", VDict content)]).

Definition _MAX_CONTENT_CHARS : nat := 5000.

Definition kind_name (k : PatchOpKind) : string :=
  match k with OpAdd => "add" | OpUpdate => "update" | OpDelete => "delete" end.

Definition nonempty (s : string) : option string := if String.eqb s "" then None else Some s.

(** The path policies judge: relative to the working directory where it lies below it. *)
Definition target_of (cwd : string) (op : PatchFileOp) : string :=
  if startswith "/" (op_path op) then default (op_path op) (relative_to (op_path op) cwd) else op_path op.

(** The introduced text policies see. *)
Definition seen_content (op : PatchFileOp) : string :=
  if Z.of_nat _MAX_CONTENT_CHARS <? py_len (op_added_content op)
  then py_take _MAX_CONTENT_CHARS (op_added_content op) +++ newline +++ "... (truncated)"
  else op_added_content op.

(** [_context_for_op], with the boundary its caller sets. *)
Definition _context_for_op (op : PatchFileOp) (cwd session_name : string) (boundary : option NativeReviewBoundary)
  : ActionContext :=
  let normalized_tool := match op_kind op with OpAdd => "Write" | _ => "Edit" end in
  let target_path := target_of cwd op in
  let tool_args : dict :=
    [("codex_tool_name", VStr "apply_patch"); ("path", VStr (op_path op));
     ("move_to", opt_value (op_move_to op)); ("kind", VStr (kind_name (op_kind op)))] in
  let is_update := bool_decide (op_kind op = OpUpdate) in
  {| ac_origin := "codex";
     ac_event := "PreToolUse." +++ normalized_tool;
     ac_tool_name := normalized_tool;
     ac_tool_args := tool_args;
     ac_repo_root := cwd;
     ac_session_name := session_name;
     ac_target_path := Some target_path;
     ac_new_content := nonempty (seen_content op);
     ac_raw_diff := if is_update then Some (py_take _MAX_CONTENT_CHARS (op_raw_section op)) else None;
     ac_action_fingerprint := Some (compute_action_fingerprint normalized_tool (Some target_path) tool_args
       (nonempty (op_added_content op)) (if is_update then Some (op_raw_section op) else None));
     ac_native_boundary := boundary |}.

(** [build_contexts]; the process's working directory, [Path.resolve] and the executor
    boundary of native review are arguments. *)
Definition build_contexts (getcwd : string) (resolve : string -> string) (boundary : option NativeReviewBoundary)
    (payload : dict) (tool_name session_name : string) : list ActionContext :=
  if negb (String.eqb tool_name "apply_patch") then []
  else match dget_default "tool_input" (VDict []) payload with
  | VDict tool_input =>
      match dgetv "command" tool_input with
      | VStr command =>
          match parse_apply_patch command with
          | None => []
          | Some ops =>
              let cwd := resolve (match dgetv "cwd" payload with
                                  | VStr c => if String.eqb c "" then getcwd else c
                                  | _ => getcwd
                                  end) in
              map (fun op => _context_for_op op cwd session_name boundary)
                (List.filter (fun op => negb (bool_decide (op_kind op = OpDelete))) ops)
          end
      | _ => []
      end
  | _ => []
  end.
End Adapter.

(** ** The grammar *)

(** One file section of an envelope: what follows the prefixes of its header and of its
    move line, and its body. *)
Record file_section := FileSection {
  fs_kind : PatchOpKind;
  fs_header : string;
  fs_move : option string;
  fs_body : list string }.

Definition is_body_line (line : string) : Prop := line = _EOF_MARKER \/ body_prefix line = true.

Record section_ok (f : file_section) : Prop := {
  ok_path : py_strip (fs_header f) <> "";
  ok_move : forall m, fs_move f = Some m -> fs_kind f = OpUpdate /\ py_strip m <> "";
  ok_body : Forall is_body_line (fs_body f);
  ok_delete : fs_kind f = OpDelete -> fs_body f = [] }.

Definition header_lines (f : file_section) : list string :=
  (header_prefix (fs_kind f) +++ fs_header f) ::
  match fs_move f with Some m => [_MOVE_TO +++ m] | None => [] end.

Definition section_lines (f : file_section) : list string := header_lines f ++ fs_body f.

(** The operation a section stands for. *)
Definition section_op (f : file_section) : PatchFileOp := {|
  op_kind := fs_kind f;
  op_path := default (py_strip (fs_header f)) (py_strip <$> fs_move f);
  op_move_to := py_strip <$> fs_move f;
  op_added_content := match fs_kind f with OpDelete => "" | _ => _extract_codex_added_lines (fs_body f) end;
  op_raw_section := str_join newline (section_lines f);
  op_source_path := match fs_move f with Some _ => Some (py_strip (fs_header f)) | None => None end |}.

(** The lines are an envelope around the sections. *)
Definition envelope (lines : list string) (fs : list file_section) : Prop :=
  Forall section_ok fs /\ lines = [_BEGIN] ++ concat (map section_lines fs) ++ [_END].

(** ** Lemmas: lines *)

Lemma str_drop_app p r : str_drop (String.length p) (p +++ r) = r.
Proof. induction p; simpl; done. Qed.

Lemma startswith_self p r : startswith p (p +++ r) = true.
Proof. unfold startswith. induction p as [|c p IH]; simpl; [by destruct r|]. by destruct (ascii_dec c c). Qed.

Lemma startswith_inv p s : startswith p s = true -> s = p +++ str_drop (String.length p) s.
Proof.
  unfold startswith. revert s. induction p as [|c p IH]; intros s; simpl; [done|].
  destruct s as [|d s]; simpl; [done|]. destruct (ascii_dec c d) as [->|]; [|done]. intros H.
  change (String d s = String d (p +++ str_drop (String.length p) s)). by rewrite <- IH.
Qed.

Lemma after_prefix_app p r : after_prefix p (p +++ r) = Some r.
Proof. unfold after_prefix. by rewrite startswith_self, str_drop_app. Qed.

Lemma after_prefix_Some p line r : after_prefix p line = Some r -> line = p +++ r.
Proof. unfold after_prefix. case_match eqn:H; [|done]. intros [= <-]. by apply startswith_inv. Qed.

Lemma match_header_prefix k r : _match_header (header_prefix k +++ r) = Some (k, py_strip r).
Proof.
  assert (forall k k', k <> k' -> after_prefix (header_prefix k) (header_prefix k' +++ r) = None) as Hother.
  { by intros [] []. }
  unfold _match_header. destruct k; rewrite ?(Hother OpAdd), ?(Hother OpUpdate), after_prefix_app by done; done.
Qed.

Lemma match_header_Some line k path : _match_header line = Some (k, path) ->
  exists r, line = header_prefix k +++ r /\ path = py_strip r.
Proof.
  unfold _match_header. intros H.
  destruct (after_prefix (header_prefix OpAdd) line) as [r|] eqn:E; [apply after_prefix_Some in E; simplify_eq; eauto|].
  destruct (after_prefix (header_prefix OpUpdate) line) as [r|] eqn:E2; [apply after_prefix_Some in E2; simplify_eq; eauto|].
  destruct (after_prefix (header_prefix OpDelete) line) as [r|] eqn:E3; [apply after_prefix_Some in E3; simplify_eq; eauto|].
  done.
Qed.

Lemma match_header_move r : _match_header (_MOVE_TO +++ r) = None.
Proof. done. Qed.

Lemma body_line_plain line : is_body_line line -> _match_header line = None /\ after_prefix _MOVE_TO line = None.
Proof.
  intros [->|H]; [done|]. unfold body_prefix in H. destruct line as [|c line]; [done|].
  cbn [String.eqb orb] in H. unfold startswith in H. cbn [String.prefix] in H.
  assert (c = "+"%char \/ c = "-"%char \/ c = " "%char \/ c = "@"%char) as Hc.
  { repeat match type of H with context [ascii_dec ?a c] => destruct (ascii_dec a c); [by auto|] end. done. }
  by destruct Hc as [-> | [-> | [-> | ->]]].
Qed.

(** ** Lemmas: the parser follows the grammar *)

(** The section being read. *)
Definition current_section (f : file_section) : section :=
  Section_ (fs_kind f) (py_strip (fs_header f)) (py_strip <$> fs_move f) (header_lines f) (fs_body f).

Lemma finalize_current f : section_ok f -> finalize (current_section f) = section_op f.
Proof. intros _. unfold finalize, current_section, section_op, section_lines. simpl. by destruct (fs_move f). Qed.

(** What the parser has read: closed sections and the open one, if any. *)
Inductive parsed : list string -> parser -> Prop :=
| parsed_none : parsed [] ([], None)
| parsed_open fs f : Forall section_ok fs -> section_ok f ->
    parsed (concat (map section_lines fs) ++ section_lines f) (map section_op fs, Some (current_section f)).

Lemma parsed_close lines st : parsed lines st -> exists fs,
  Forall section_ok fs /\ lines = concat (map section_lines fs) /\ close st = map section_op fs.
Proof.
  destruct 1 as [|fs f Hfs Hf]; [by exists []|]. exists (fs ++ [f]).
  rewrite Forall_app, Forall_singleton, !map_app, concat_app. simpl. rewrite app_nil_r.
  split_and!; try done. by rewrite finalize_current.
Qed.

Lemma parse_line_parsed lines st line st' : parsed lines st -> parse_line st line = Some st' -> parsed (lines ++ [line]) st'.
Proof.
  intros Hp. unfold parse_line. destruct (_match_header line) as [[k path]|] eqn:Hh.
  - destruct (String.eqb_spec path "") as [|Hne]; [done|]. intros [= <-].
    apply match_header_Some in Hh as (r & -> & ->). destruct (parsed_close _ _ Hp) as (fs & Hfs & -> & ->).
    apply (parsed_open fs (FileSection k r None [])); [done|]. by split.
  - destruct (after_prefix _MOVE_TO line) as [rest|] eqn:Hm.
    + apply after_prefix_Some in Hm as ->. destruct Hp as [|fs [k h m body] Hfs Hf]; [done|]. cbn -[_MOVE_TO].
      destruct k, m as [m|], body as [|l body]; try done. cbn -[_MOVE_TO].
      destruct (String.eqb_spec (py_strip rest) "") as [|Hne]; [done|]. intros [= <-].
      rewrite <- app_assoc.
      apply (parsed_open fs (FileSection OpUpdate h (Some rest) [])); [done|].
      destruct Hf as [Hf1 _ _ _]. split; cbn in *; [done|by intros m [= <-]|done|done].
    + destruct Hp as [|fs f Hfs Hf]; [done|]. cbn [sec_kind current_section].
      case_bool_decide as Hk; [done|]. destruct (_ || body_prefix line) eqn:Hb; [|done]. intros [= <-].
      assert (is_body_line line) as Hline.
      { apply orb_true_iff in Hb as [->%String.eqb_eq|?]; [by left|by right]. }
      destruct f as [k h m body]. rewrite <- app_assoc. unfold section_lines. rewrite <- app_assoc.
      apply (parsed_open fs (FileSection k h m (body ++ [line]))); [done|].
      destruct Hf as [H1 H2 H3 H4]. split; cbn [fs_kind fs_header fs_move fs_body] in *; [done|done| |done].
      apply Forall_app. split; [done|]. by apply Forall_singleton.
Qed.

Lemma parse_lines_parsed lines0 lines st st' : parsed lines0 st -> parse_lines st lines = Some st' -> parsed (lines0 ++ lines) st'.
Proof.
  revert lines0 st. induction lines as [|l lines IH]; intros lines0 st Hp; simpl; [intros [= <-]; by rewrite app_nil_r|].
  destruct (parse_line st l) as [st1|] eqn:E; [|done]. intros H. rewrite cons_middle, app_assoc.
  eapply IH; [|done]. by eapply parse_line_parsed.
Qed.

Lemma parse_lines_app st l1 l2 :
  parse_lines st (l1 ++ l2) = parse_lines st l1 ≫= fun st => parse_lines st l2.
Proof. revert st. induction l1 as [|l l1 IH]; intros st; simpl; [done|]. by destruct (parse_line st l). Qed.

Lemma parse_body ops s body : sec_kind s <> OpDelete \/ body = [] -> Forall is_body_line body ->
  parse_lines (ops, Some s) body = Some (ops, Some (Section_ (sec_kind s) (sec_path s) (sec_move_to s) (sec_header_lines s) (sec_body s ++ body))).
Proof.
  intros Hk Hb. revert s Hk. induction Hb as [|l body Hl Hb IH]; intros s Hk; simpl; [destruct s; by rewrite app_nil_r|].
  destruct Hk as [Hk|]; [|done]. destruct (body_line_plain l Hl) as [Hh Hm]. unfold parse_line. rewrite Hh, Hm.
  rewrite bool_decide_eq_false_2 by done.
  assert (String.eqb l _EOF_MARKER || body_prefix l = true) as ->.
  { destruct Hl as [-> | ->]; [done|by rewrite orb_true_r]. }
  rewrite IH by by left. unfold add_body. simpl. by rewrite <- app_assoc.
Qed.

Lemma parse_section st f : section_ok f ->
  parse_lines st (section_lines f) = Some (close st, Some (current_section f)).
Proof.
  intros [Hp Hm Hb Hd]. destruct f as [k h m body]. unfold section_lines, header_lines. cbn in Hp, Hm, Hb, Hd. cbn -[header_prefix _MOVE_TO].
  unfold parse_line at 1. rewrite match_header_prefix. apply String.eqb_neq in Hp. rewrite Hp.
  assert (k <> OpDelete \/ body = []) as Hk by (destruct k; auto).
  destruct m as [m|]; cbn -[header_prefix _MOVE_TO].
  - destruct (Hm m eq_refl) as [-> Hne]. unfold parse_line at 1. rewrite match_header_move, after_prefix_app.
    apply String.eqb_neq in Hne. rewrite Hne. by rewrite parse_body.
  - by rewrite parse_body.
Qed.

Lemma parse_sections st fs : Forall section_ok fs ->
  exists st', parse_lines st (concat (map section_lines fs)) = Some st' /\ close st' = close st ++ map section_op fs.
Proof.
  intros Hfs. revert st. induction Hfs as [|f fs Hf Hfs IH]; intros st; [exists st; by rewrite app_nil_r|].
  cbn [map concat]. rewrite parse_lines_app, parse_section by done. cbn [mbind option_bind].
  destruct (IH (close st, Some (current_section f))) as (st' & -> & Hc). exists st'. split; [done|].
  rewrite Hc. cbn [close]. rewrite finalize_current by done. by rewrite <- app_assoc.
Qed.

(** C34: The parser accepts exactly the envelopes of its grammar. [parse_apply_patch] returns
    the operations [ops] of a command if and only if the command's lines, without carriage
    returns and surrounding blank lines, are an envelope of well-formed sections (a path in
    every header, at most one move, directly after an update's header, bodies of added,
    removed, context and hunk lines, none for a deletion) and [ops] are those sections'
    operations in order, each with its destination path, its added lines without their
    prefix, and its section verbatim; everything else gives [None]. *)
Theorem parse_apply_patch_grammar (command : string) (ops : list PatchFileOp) :
  parse_apply_patch command = Some ops <->
  exists fs, envelope (command_lines command) fs /\ ops = map section_op fs.
Proof.
  unfold parse_apply_patch, envelope. split.
  - destruct (command_lines command) as [|first [|second rest]]; [done..|].
    destruct (String.eqb_spec first _BEGIN) as [->|]; [|done]. case_bool_decide as Hlast; [|done].
    apply last_Some in Hlast as [lines ->]. rewrite removelast_last. cbn [andb].
    destruct (parse_lines ([], None) lines) as [st|] eqn:Hp; [|done]. intros [= <-].
    apply (parse_lines_parsed []) in Hp as Hparsed; [|constructor].
    destruct (parsed_close _ _ Hparsed) as (fs & Hfs & E & ->). exists fs. simpl in E. by rewrite E.
  - intros (fs & [Hfs E] & ->). rewrite E. cbn [app].
    destruct (concat (map section_lines fs) ++ [_END]) as [|l rest] eqn:Er; [by apply app_nil in Er as [_ ?]|].
    rewrite <- Er, last_snoc, removelast_last, bool_decide_eq_true_2 by done. cbn [andb].
    destruct (parse_sections ([], None) fs Hfs) as (st & -> & Hc). simpl. f_equal. exact Hc.
Qed.

(** ** Policies on a patch *)

Section Policed.
Context (unicode_alnum : Z -> bool) (clock : nat -> string).
Context (sha256 : string -> string) (dumps : dict -> string).
Context (getcwd : string) (resolve : string -> string) (boundary : option NativeReviewBoundary) (session_name : string).

(** The directory a payload's paths are taken from. *)
Definition payload_cwd (payload : dict) : string :=
  resolve (match dgetv "cwd" payload with VStr c => if String.eqb c "" then getcwd else c | _ => getcwd end).

Definition has_command (payload : dict) (command : string) : Prop :=
  exists tool_input, dget "tool_input" payload = Some (VDict tool_input) /\ dgetv "command" tool_input = VStr command.

Definition contexts (payload : dict) : list ActionContext :=
  build_contexts sha256 dumps getcwd resolve boundary payload "apply_patch" session_name.

(** Some file the patch writes. *)
Definition some_written (ops : list PatchFileOp) (P : PatchFileOp -> Prop) : Prop :=
  exists op, op ∈ ops /\ op_kind op <> OpDelete /\ P op.

Definition introduces_skip (op : PatchFileOp) : Prop :=
  exists s, nonempty (seen_content op) = Some s /\ some_pattern_occurs unicode_alnum SKIP_PATTERNS s.

Definition writes_under (cwd directory : string) (op : PatchFileOp) : Prop :=
  is_under_directory (Some (target_of cwd op)) directory = true.

Definition writes_source (cwd : string) (op : PatchFileOp) : Prop :=
  ~ writes_under cwd "tests" op /\ writes_under cwd "src" op.

Lemma contexts_of payload command ops : has_command payload command -> parse_apply_patch command = Some ops ->
  contexts payload =
    map (fun op => _context_for_op sha256 dumps op (payload_cwd payload) session_name boundary)
      (List.filter (fun op => negb (bool_decide (op_kind op = OpDelete))) ops).
Proof.
  intros (ti & Hti & Hc) Hp. unfold contexts, build_contexts, dget_default. rewrite Hti, Hc, Hp. done.
Qed.

Lemma Exists_contexts payload command ops (P : ActionContext -> Prop) (Q : PatchFileOp -> Prop) :
  has_command payload command -> parse_apply_patch command = Some ops ->
  (forall op, op_kind op <> OpDelete ->
     P (_context_for_op sha256 dumps op (payload_cwd payload) session_name boundary) <-> Q op) ->
  Exists P (contexts payload) <-> some_written ops Q.
Proof.
  intros Hc Hp HPQ. rewrite (contexts_of _ _ _ Hc Hp), Exists_exists. split.
  - intros (ctx & (op & <- & [Hin Hk]%filter_In)%list_elem_of_In%in_map_iff & HP). exists op.
    apply negb_true_iff, bool_decide_eq_false in Hk. rewrite list_elem_of_In. split_and!; [done|done|].
    by apply HPQ.
  - intros (op & Hin & Hk & HQ). exists (_context_for_op sha256 dumps op (payload_cwd payload) session_name boundary).
    rewrite list_elem_of_In. split; [|by apply HPQ]. apply in_map_iff. exists op. split; [done|].
    apply filter_In. rewrite <- list_elem_of_In, bool_decide_eq_false_2 by done. done.
Qed.

Lemma context_is_write op cwd : op_kind op <> OpDelete ->
  is_write_edit (_context_for_op sha256 dumps op cwd session_name boundary) = true.
Proof. unfold is_write_edit. cbn [ac_tool_name _context_for_op]. by destruct (op_kind op). Qed.

End Policed.

Module PatchSample.
Import PolicyRules.Samples.

Definition lines_text (l : list string) : string := str_join newline l.

Definition source_only : string :=
  lines_text ["*** Begin Patch"; "*** Update File: old.py"; "*** Move to: /w/src/a.py"; "@@"; "-x = 1"; "+++y"; "*** End Patch"; ""].

Definition with_test : string :=
  lines_text [""; "*** Begin Patch"; "*** Update File: src/a.py"; "+x = 2"; "*** Add File: tests/test_a.py"; "+assert x";
              "*** Delete File: junk"; "*** End Patch"].

Definition payload (command : string) : dict :=
  [("cwd", VStr "/w"); ("tool_input", VDict [("command", VStr command)])].

Definition check (command : string) : bool :=
  ho_blocked (codex_policy_check ascii_alnum (fun _ => "t") ["tdd"] FailOpen None None
    (contexts (fun s => s) (fun _ => "") "/" (fun p => p) None "s" (payload command))).

Example parsed_update :
  parse_apply_patch source_only = Some
    [{| op_kind := OpUpdate; op_path := "/w/src/a.py"; op_move_to := Some "/w/src/a.py"; op_added_content := "++y";
        op_raw_section := lines_text ["*** Update File: old.py"; "*** Move to: /w/src/a.py"; "@@"; "-x = 1"; "+++y"];
        op_source_path := Some "old.py" |}].
Proof. vm_compute. reflexivity. Qed.

Example checks_decide : (check source_only, check with_test, check "rm -rf /") = (true, false, false).
Proof. vm_compute. reflexivity. Qed.

(** A skip marker is denied, but not behind 5000 other characters. *)
Definition with_skip (before : nat) : string :=
  lines_text (["*** Begin Patch"; "*** Add File: tests/test_a.py"] ++ replicate before "+#########" ++
              ["+@pytest.mark.skip"; "*** End Patch"]).

Example skip_after_limit : (check (with_skip 0), check (with_skip 500)) = (true, false).
Proof. vm_compute. reflexivity. Qed.


End PatchSample.
