(* ===== verification/WorkQueue.v ===== *)
(** * WorkQueue: the file-based queue of deferred work

    [src/forge/core/workqueue/queue.py] and [types.py]. The queue directory, its failed/
    directory, the scan cursor file and the process-wide warning flag are the state
    [world]; [Ext] is whatever state the handlers act on. What the operating system and
    the session index decide (locks, leases, failing writes, other processes changing
    the directory between two steps) is the record [Env], an argument of the operations. *)

From S2P Require Import Prelude PyValue StateIO.
From Stdlib Require Import SpecFloat.

(** ** Language helpers *)

(** [v >= n] for an int [n]. *)
Definition float_ge_int (f : spec_float) (n : Z) : bool :=
  match f with
  | S754_zero _ => n <=? 0
  | S754_infinity s => negb s
  | S754_nan => false
  | S754_finite s m e =>
      let k := if s then Z.neg m else Z.pos m in
      if 0 <=? e then n <=? k * 2 ^ e else n * 2 ^ (- e) <=? k
  end.

Definition py_ge_int (v : value) (n : Z) : res bool :=
  match v with
  | VInt z => Ok (n <=? z)
  | VBool b => Ok (n <=? Z.b2z b)
  | VFloat f => Ok (float_ge_int f n)
  | _ => raise TypeError ("'>=' not supported between instances of '" +++ type_name v
                          +++ "' and 'int'")
  end.

(** [v + 1]. *)
Definition py_add_one (v : value) : res value :=
  match v with
  | VInt z => Ok (VInt (z + 1))
  | VBool b => Ok (VInt (Z.b2z b + 1))
  | VFloat f => Ok (VFloat (SFadd 53 1024 f (S754_finite false 1 0)))
  | VStr _ | VList _ =>
      raise TypeError ("can only concatenate " +++ type_name v +++ " (not 'int') to " +++ type_name v)
  | _ => raise TypeError ("unsupported operand type(s) for +: '" +++ type_name v +++ "' and 'int'")
  end.

(** ** types.py *)

Definition MARKER_SCHEMA_VERSION : Z := 1.
Definition MAX_ATTEMPTS : Z := 5.
Definition MAX_ERROR_LENGTH : nat := 500.

(** The attributes hold what the JSON file holds; only [kind] and [marker_id] are checked. *)
Record Marker := {
  mk_schema_version : value;
  mk_kind : string;
  mk_marker_id : string;
  mk_forge_version : value;
  mk_created_at : value;
  mk_payload : value;
  mk_attempt_count : value;
  mk_last_attempt_at : value;
  mk_last_error : value;
}.

Record ProcessResult := {
  pr_processed : Z;
  pr_skipped : Z;
  pr_failed : Z;
  pr_errors : list string;
  pr_diagnostics : list string;
}.

Definition empty_result : ProcessResult :=
  {| pr_processed := 0; pr_skipped := 0; pr_failed := 0; pr_errors := []; pr_diagnostics := [] |}.

(** What one marker's processing returns: [None], ["skipped"], ["failed"], a
    [_DeferredMarker] or an error message. *)
Inductive outcome :=
| ODone
| OSkipped
| OFailed
| ODeferred (diagnostic : option string)
| OError (msg : string).

(** ** The queue directory *)

Record world := {
  w_dir : bool;                      (* the queue directory exists *)
  w_pending : gmap string content;   (* its marker files *)
  w_failed : gmap string content;    (* failed/ *)
  w_cursor : option content;         (* .scan-cursor *)
  w_warned : bool;                   (* _warned_newer_schema *)
}.

Definition set_pending (m : gmap string content) (w : world) : world := {|
  w_dir := w_dir w; w_pending := m; w_failed := w_failed w; w_cursor := w_cursor w;
  w_warned := w_warned w |}.

Definition set_cursor (c : option content) (w : world) : world := {|
  w_dir := w_dir w; w_pending := w_pending w; w_failed := w_failed w; w_cursor := c;
  w_warned := w_warned w |}.

Definition set_warned (w : world) : world := {|
  w_dir := w_dir w; w_pending := w_pending w; w_failed := w_failed w; w_cursor := w_cursor w;
  w_warned := true |}.

(** Rename a marker into failed/, replacing what is there. *)
Definition move_failed (name : string) (c : content) (w : world) : world := {|
  w_dir := w_dir w; w_pending := delete name (w_pending w);
  w_failed := <[name := c]> (w_failed w); w_cursor := w_cursor w; w_warned := w_warned w |}.

(** ** Marker identifiers *)

(** The class [[A-Za-z0-9._-]]. *)
Definition safe_char (c : ascii) : bool :=
  let n := Z.of_nat (nat_of_ascii c) in
  ((48 <=? n) && (n <=? 57)) || ((65 <=? n) && (n <=? 90)) || ((97 <=? n) && (n <=? 122))
  || (n =? 46) || (n =? 95) || (n =? 45).

(** [SAFE_MARKER_ID.match]: one or more characters of the class, where [$] also matches
    before a final newline. *)
Fixpoint SAFE_MARKER_ID (s : string) : bool :=
  match s with
  | EmptyString => false
  | String c EmptyString => safe_char c
  | String c (String d EmptyString as s) => safe_char c && (Ascii.eqb d "010" || SAFE_MARKER_ID s)
  | String c s => safe_char c && SAFE_MARKER_ID s
  end.

Definition marker_path (marker_id : string) : res string :=
  if String.eqb marker_id "" || negb (SAFE_MARKER_ID marker_id)
  then raise ValueError ("Invalid marker_id: " +++ py_repr marker_id)
  else Ok (marker_id +++ ".json").

(** ** What the environment decides *)

Record Env := {
  env_arrive : string -> world -> world;          (* other processes, before a marker is read *)
  env_race : string -> world -> world;            (* and between that read and its lock *)
  env_locked : string -> bool;                    (* the marker lock times out *)
  env_lease : string -> string -> string -> res unit;  (* session_worker_lease: root, name, token *)
  env_release : string -> res unit;               (* removal of the lease file *)
  env_resolve : string -> res string;             (* str(Path(root).resolve()) *)
  env_unlink : string -> res unit;
  env_move : string -> bool;                      (* mkdir and shutil.move succeed *)
  env_write : string -> bool;                     (* atomic_write_json succeeds *)
  env_cursor : bool;                              (* the cursor file can be written or removed *)
  env_list : res unit;                            (* the directory listing *)
  env_now : string;
}.

Section queue.
Context {Ext : Type}.

(** [f"{v}"], and the handlers by kind. *)
Variable py_str : value -> string.
Definition handler := Marker -> Ext -> Ext * res unit.
Variable handlers : list (string * handler).
Variable E : Env.

(** ** Processing one marker *)

Definition _validate_marker (data : dict) : option string :=
  let schema_version := dgetv "schema_version" data in
  if negb (py_eq schema_version (VInt MARKER_SCHEMA_VERSION))
  then Some ("unsupported schema_version: " +++ py_str schema_version)
  else match dgetv "kind" data with
  | VStr kind =>
      if String.eqb kind "" then Some "missing or invalid kind"
      else match dgetv "marker_id" data with
      | VStr marker_id =>
          if String.eqb marker_id "" then Some "missing or invalid marker_id"
          else if negb (SAFE_MARKER_ID marker_id)
          then Some ("unsafe marker_id: " +++ py_repr marker_id)
          else None
      | _ => Some "missing or invalid marker_id"
      end
  | _ => Some "missing or invalid kind"
  end.

(** [error[:MAX_ERROR_LENGTH] if len(error) > MAX_ERROR_LENGTH else error]. *)
Definition truncate_error (error : string) : string :=
  if Z.of_nat MAX_ERROR_LENGTH <? py_len error then py_take MAX_ERROR_LENGTH error else error.

(** [_try_write_error]: the file after the attempt, and the new count. *)
Definition _try_write_error (name error : string) (w : world) : world * option value :=
  match w_pending w !! name with
  | Some (CJson (VDict data)) =>
      match py_add_one (dget_default "attempt_count" (VInt 0) data) with
      | Err _ => (w, None)
      | Ok n =>
          let data := dset "attempt_count" n data in
          let data := dset "last_attempt_at" (VStr (env_now E)) data in
          let data := dset "last_error" (VStr (truncate_error error)) data in
          if env_write E name
          then (set_pending (<[name := CJson (VDict data)]> (w_pending w)) w, Some n)
          else (w, None)
      end
  | _ => (w, None)
  end.

(** [_move_corrupted_to_failed], [_move_to_failed] and [_move_invalid_to_failed] move alike:
    a failing move is logged and dropped. *)
Definition _move_to_failed (name : string) (w : world) : world :=
  if env_move E name then
    match w_pending w !! name with
    | Some c => move_failed name c w
    | None => w
    end
  else w.

Definition _defer_newer_schema (name : string) (schema_version : Z) (w : world) : world * outcome :=
  if w_warned w then (w, ODeferred None)
  else (set_warned w,
        ODeferred (Some ("Pending-work marker " +++ name +++ " was written by newer Forge (schema_version="
          +++ pretty schema_version +++ "; supported=" +++ pretty MARKER_SCHEMA_VERSION
          +++ "); leaving it unchanged. Upgrade Forge to process it."))).

Definition unlink_marker (name : string) (w : world) : world * res outcome :=
  match env_unlink E name with
  | Ok _ => (set_pending (delete name (w_pending w)) w, Ok ODone)
  | Err e => (w, Err e)
  end.

(** [attempt_count is not None and attempt_count >= MAX_ATTEMPTS]. *)
Definition exhausted (n : option value) : res bool :=
  match n with Some v => py_ge_int v MAX_ATTEMPTS | None => Ok false end.

(** The owner recorded in the marker, compared with the admitted one. *)
Definition owner_changed (data : dict) (expected : string * string * string) : res bool :=
  let '(root, name, token) := expected in
  let payload := py_or (dgetv "payload" data) (VDict []) in
  match payload with
  | VDict p =>
      current ← match py_or (dgetv "forge_root" p) (dgetv "worktree_path" p) with
                | VStr r => r' ← env_resolve E r; Ok (Some r')
                | _ => Ok None
                end;
      Ok (negb (bool_decide (current = Some root)
                && py_eq (dgetv "session_name" p) (VStr name)
                && py_eq (dgetv "instance_id" p) (VStr token)))
  | v => raise AttributeError ("'" +++ type_name v +++ "' object has no attribute 'get'")
  end.

Definition is_newer (schema_version : value) : option Z :=
  match schema_version with
  | VInt z => if MARKER_SCHEMA_VERSION <? z then Some z else None
  | _ => None
  end.

Definition is_old_shape (data : dict) : bool :=
  negb (dhas "marker_id" data) && (dhas "session_id" data || dhas "work" data).

Definition mk_marker (data : dict) (kind marker_id : string) : Marker := {|
  mk_schema_version := dgetv "schema_version" data;
  mk_kind := kind;
  mk_marker_id := marker_id;
  mk_forge_version := dget_default "forge_version" (VStr "unknown") data;
  mk_created_at := dget_default "created_at" (VStr "") data;
  mk_payload := dget_default "payload" (VDict []) data;
  mk_attempt_count := dget_default "attempt_count" (VInt 0) data;
  mk_last_attempt_at := dgetv "last_attempt_at" data;
  mk_last_error := dgetv "last_error" data |}.

(** The part of [_process_locked_marker] from the validation on. *)
Definition dispatch (name : string) (data : dict) (w : world) (x : Ext)
    : world * Ext * res outcome :=
  match _validate_marker data with
  | Some error =>
      let '(w, n) := _try_write_error name error w in
      match exhausted n with
      | Err e => (w, x, Err e)
      | Ok true => (_move_to_failed name w, x, Ok OFailed)
      | Ok false => (w, x, Ok (OError ("Invalid marker " +++ name +++ ": " +++ error)))
      end
  | None =>
      let marker := mk_marker data (opt_str (as_str (dgetv "kind" data)))
                      (opt_str (as_str (dgetv "marker_id" data))) in
      match py_ge_int (mk_attempt_count marker) MAX_ATTEMPTS with
      | Err e => (w, x, Err e)
      | Ok true => (_move_to_failed name w, x, Ok OFailed)
      | Ok false =>
          match dget (mk_kind marker) handlers with
          | None => (w, x, Ok OSkipped)
          | Some h =>
              let '(x, r) := h marker x in
              match r with
              | Err e =>
                  let '(w, n) := _try_write_error name ("handler error: " +++ exn_msg e) w in
                  match exhausted n with
                  | Err e' => (w, x, Err e')
                  | Ok true => (_move_to_failed name w, x, Ok OFailed)
                  | Ok false =>
                      (w, x, Ok (OError ("Handler error for " +++ name +++ ": " +++ exn_msg e)))
                  end
              | Ok _ => let '(w, r) := unlink_marker name w in (w, x, r)
              end
          end
      end
  end.

(** The body under the lock. *)
Definition locked_body (name : string) (owner : option (string * string * string))
    (w : world) (x : Ext) : world * Ext * res outcome :=
  match w_pending w !! name with
  | None => (w, x, Ok ODone)
  | Some c =>
      match read_json name (Some c) with
      | Err e =>
          match exn_cls e with
          | StateNotFoundError => (w, x, Ok ODone)
          | StateUnreadableError =>
              (w, x, Ok (ODeferred (Some ("Pending-work marker " +++ name
                 +++ " could not be read; leaving it unchanged for retry: " +++ exn_msg e))))
          | StateCorruptedError => (_move_to_failed name w, x, Ok OFailed)
          | _ => (w, x, Err e)
          end
      | Ok data =>
          match match owner with Some o => owner_changed data o | None => Ok false end with
          | Err e => (w, x, Err e)
          | Ok true =>
              (w, x, Ok (ODeferred (Some ("Pending-work marker " +++ name +++ " changed before admission"))))
          | Ok false =>
              match is_newer (dgetv "schema_version" data) with
              | Some v => let '(w, o) := _defer_newer_schema name v w in (w, x, Ok o)
              | None =>
                  if is_old_shape data
                  then let '(w, r) := unlink_marker name w in (w, x, r)
                  else dispatch name data w x
              end
          end
      end
  end.

(** [_process_locked_marker]: lock contention skips, any exception becomes an error text. *)
Definition _process_locked_marker (name : string) (owner : option (string * string * string))
    (w : world) (x : Ext) : world * Ext * outcome :=
  let w := env_race E name w in
  if env_locked E name then (w, x, OSkipped)
  else
    let '(w, x, r) := locked_body name owner w x in
    (w, x, match r with
           | Ok o => o
           | Err e => OError ("Error processing " +++ name +++ ": " +++ exn_msg e)
           end).

(** [except (ForgeSessionError, ValueError, OSError)]; a decode error is a [ValueError]. *)
Definition not_admitted (name : string) (e : pyexn) : res outcome :=
  if bool_decide (exn_cls e ∈ [ForgeSessionError; ValueError; UnicodeDecodeError; JSONDecodeError;
                                OSError; FileNotFoundError])
  then Ok (ODeferred (Some ("Pending-work marker " +++ name +++ " was not admitted: " +++ exn_msg e)))
  else Err e.

(** [_process_single_marker]: session-owned work is admitted before its lock. *)
Definition _process_single_marker (name : string) (w : world) (x : Ext)
    : world * Ext * res outcome :=
  let w := env_arrive E name w in
  let unowned := let '(w, x, o) := _process_locked_marker name None w x in (w, x, Ok o) in
  match read_json name (w_pending w !! name) with
  | Err e => if is_state_error (exn_cls e) then unowned else (w, x, Err e)
  | Ok data =>
      match dgetv "payload" data with
      | VDict payload =>
          match dgetv "session_name" payload,
                py_or (dgetv "forge_root" payload) (dgetv "worktree_path" payload) with
          | VStr session_name, VStr root =>
              match dgetv "instance_id" payload with
              | VStr token =>
                  match env_lease E root session_name token with
                  | Err e => (w, x, not_admitted name e)
                  | Ok _ =>
                      let '(w, x, r) :=
                        match env_resolve E root with
                        | Err e => (w, x, Err e)
                        | Ok root' =>
                            let '(w, x, o) :=
                              _process_locked_marker name (Some (root', session_name, token)) w x in
                            (w, x, Ok o)
                        end in
                      match env_release E name with
                      | Err e => (w, x, not_admitted name e)
                      | Ok _ =>
                          match r with
                          | Ok o => (w, x, Ok o)
                          | Err e => (w, x, not_admitted name e)
                          end
                      end
                  end
              | _ =>
                  (w, x, Ok (ODeferred (Some ("Pending-work marker " +++ name
                     +++ " predates session ownership; leave it for cleanup or generate fresh work from the current session."))))
              end
          | _, _ => unowned
          end
      | _ => unowned
      end
  end.

(** ** The scan *)

(** [sorted(queue_dir.glob("*.json"))], by name. *)
Definition list_markers (w : world) : list string :=
  sorted_strs (List.filter (endswith ".json") (map fst (map_to_list (w_pending w)))).

(** [bisect.bisect_right] on a sorted list. *)
Fixpoint bisect_right (l : list string) (x : string) : nat :=
  match l with
  | [] => O
  | y :: l => if str_le y x then S (bisect_right l x) else O
  end.

Definition _read_scan_cursor (w : world) : res (option string) :=
  match read_json ".scan-cursor" (w_cursor w) with
  | Ok data => Ok (as_str (dgetv "last_marker" data))
  | Err e => if is_state_error (exn_cls e) then Ok None else Err e
  end.

Definition _select_scan_window (markers : list string) (max_items : Z) (w : world)
    : res (list string) :=
  if (max_items <=? 0) || (match markers with [] => true | _ => false end) then Ok []
  else
    cursor ← _read_scan_cursor w;
    let start := match cursor with Some c => bisect_right markers c | None => O end in
    let ordered := drop start markers ++ take start markers in
    Ok (take (Z.to_nat (Z.min max_items (Z.of_nat (length markers)))) ordered).

Definition _write_scan_cursor (last_marker : string) (w : world) : world :=
  if env_cursor E
  then set_cursor (Some (CJson (VDict [("last_marker", VStr last_marker)]))) w else w.

Definition _clear_scan_cursor (w : world) : world :=
  if env_cursor E then set_cursor None w else w.

Definition count_outcome (o : outcome) (r : ProcessResult) : ProcessResult :=
  match o with
  | ODeferred d =>
      {| pr_processed := pr_processed r; pr_skipped := pr_skipped r + 1; pr_failed := pr_failed r;
         pr_errors := pr_errors r;
         pr_diagnostics := pr_diagnostics r ++ match d with Some t => [t] | None => [] end |}
  | ODone =>
      {| pr_processed := pr_processed r + 1; pr_skipped := pr_skipped r; pr_failed := pr_failed r;
         pr_errors := pr_errors r; pr_diagnostics := pr_diagnostics r |}
  | OSkipped =>
      {| pr_processed := pr_processed r; pr_skipped := pr_skipped r + 1; pr_failed := pr_failed r;
         pr_errors := pr_errors r; pr_diagnostics := pr_diagnostics r |}
  | OFailed =>
      {| pr_processed := pr_processed r; pr_skipped := pr_skipped r; pr_failed := pr_failed r + 1;
         pr_errors := pr_errors r; pr_diagnostics := pr_diagnostics r |}
  | OError m =>
      {| pr_processed := pr_processed r; pr_skipped := pr_skipped r; pr_failed := pr_failed r;
         pr_errors := pr_errors r ++ [m]; pr_diagnostics := pr_diagnostics r |}
  end.

Definition is_resident (o : outcome) : bool :=
  match o with ODeferred _ | OSkipped => true | _ => false end.

(** The loop over the scan window: the outcomes in order. *)
Fixpoint scan (window : list string) (w : world) (x : Ext) : world * Ext * res (list outcome) :=
  match window with
  | [] => (w, x, Ok [])
  | name :: window =>
      let '(w, x, r) := _process_single_marker name w x in
      match r with
      | Err e => (w, x, Err e)
      | Ok o =>
          let '(w, x, r) := scan window w x in
          (w, x, os ← r; Ok (o :: os))
      end
  end.

Definition process_pending_work (max_items : Z) (w : world) (x : Ext)
    : world * Ext * res ProcessResult :=
  if negb (w_dir w) then (w, x, Ok empty_result)
  else match env_list E with
  | Err e =>
      (w, x, Ok (count_outcome (OError ("Failed to list markers: " +++ exn_msg e)) empty_result))
  | Ok _ =>
      match list_markers w with
      | [] => (w, x, Ok empty_result)
      | markers =>
          match _select_scan_window markers max_items w with
          | Err e => (w, x, Err e)
          | Ok window =>
              let '(w, x, r) := scan window w x in
              match r with
              | Err e => (w, x, Err e)
              | Ok os =>
                  let result := fold_left (fun r o => count_outcome o r) os empty_result in
                  let w :=
                    match last window with
                    | None => w
                    | Some name =>
                        if existsb is_resident os then _write_scan_cursor name w
                        else _clear_scan_cursor w
                    end in
                  (w, x, Ok result)
              end
          end
      end
  end.

(** ** Enqueueing *)

(** The session index's part of admission: [capture_session_instance] and
    [run_session_producer_txn] (whether the callback runs). *)
Record Admission := {
  adm_capture : string -> string -> res string;
  adm_txn : string -> string -> string -> res bool;
  adm_version : string;                        (* forge.__version__ *)
  adm_origin : option (string * string);       (* get_run_identity(): run and root run ids *)
}.
Variable Adm : Admission.

Definition marker_data (kind marker_id : string) (payload : dict) : dict := [
  ("schema_version", VInt MARKER_SCHEMA_VERSION); ("kind", VStr kind);
  ("marker_id", VStr marker_id); ("forge_version", VStr (adm_version Adm));
  ("created_at", VStr (env_now E)); ("payload", VDict payload); ("attempt_count", VInt 0);
  ("last_attempt_at", VNone); ("last_error", VNone)].

(** [persist]: the directory, the marker lock, the write. *)
Definition persist (path : string) (data : dict) (w : world) : world * res unit :=
  let w := {| w_dir := true; w_pending := w_pending w; w_failed := w_failed w;
              w_cursor := w_cursor w; w_warned := w_warned w |} in
  if env_locked E path then (w, raise FileLockTimeoutError path)
  else if env_write E path
  then (set_pending (<[path := CJson (VDict data)]> (w_pending w)) w, Ok tt)
  else (w, raise OSError path).

(** [enqueue]: the world, the caller's payload object after the call, the path. *)
Definition enqueue (kind marker_id : string) (payload : dict) (admission_forge_root : option string)
    (w : world) : world * dict * option string :=
  match marker_path marker_id with
  | Err _ => (w, payload, None)
  | Ok path =>
      let store payload :=
        let '(w, r) := persist path (marker_data kind marker_id payload) w in
        (w, payload, match r with Ok _ => Some path | Err _ => None end) in
      match dgetv "session_name" payload,
            py_or (dgetv "forge_root" payload) (dgetv "worktree_path" payload) with
      | VStr session_name, VStr root =>
          let admission_root :=
            match admission_forge_root with
            | Some a => if String.eqb a "" then root else a
            | None => root
            end in
          match (if truthy (dgetv "instance_id" payload) then Ok (dgetv "instance_id" payload)
                 else VStr <$> adm_capture Adm admission_root session_name) with
          | Ok (VStr token) =>
              let payload := dset "instance_id" (VStr token) payload in
              match env_resolve E root with
              | Err _ => (w, payload, None)
              | Ok root' =>
                  let payload := dset "forge_root" (VStr root') payload in
                  match adm_txn Adm admission_root session_name token with
                  | Ok true => store payload
                  | Ok false | Err _ => (w, payload, None)
                  end
              end
          | _ => (w, payload, None)
          end
      | _, _ => store payload
      end
  end.

(** The payload fields the convenience wrappers share: [if x: payload[k] = x]. *)
Definition add_instance (i : option string) (p : dict) : dict :=
  match i with Some t => dset "instance_id" (VStr t) p | None => p end.
Definition add_nonempty (k : string) (v : option string) (p : dict) : dict :=
  match v with Some t => if String.eqb t "" then p else dset k (VStr t) p | None => p end.
Definition add_origin (p : dict) : dict :=
  match adm_origin Adm with
  | Some (r, root) => dset "origin_root_run_id" (VStr root) (dset "origin_run_id" (VStr r) p)
  | None => p
  end.

Definition transcript_payload (session_id worktree_path session_name transcript_rel : string) : dict := [
  ("session_id", VStr session_id); ("worktree_path", VStr worktree_path);
  ("session_name", VStr session_name); ("transcript_snapshot_rel", VStr transcript_rel)].

Definition enqueue_stop_marker (session_id worktree_path session_name transcript_rel : string)
    (forge_root expected_instance_id admission_forge_root : option string) (w : world)
    : world * dict * option string :=
  enqueue "stop" session_id
    (add_nonempty "forge_root" forge_root (add_instance expected_instance_id
      (transcript_payload session_id worktree_path session_name transcript_rel)))
    admission_forge_root w.

Definition enqueue_index_marker (session_id worktree_path session_name transcript_rel : string)
    (forge_root expected_instance_id admission_forge_root : option string) (w : world)
    : world * dict * option string :=
  enqueue "index" ("idx-" +++ session_id)
    (add_nonempty "forge_root" forge_root (add_instance expected_instance_id
      (transcript_payload session_id worktree_path session_name transcript_rel)))
    admission_forge_root w.

Definition enqueue_handoff_marker (session_id worktree_path session_name transcript_rel : string)
    (subprocess_proxy forge_root expected_instance_id admission_forge_root : option string)
    (w : world) : world * dict * option string :=
  enqueue "handoff" ("handoff-" +++ session_id)
    (add_origin (add_nonempty "forge_root" forge_root (add_instance expected_instance_id
      (add_nonempty "subprocess_proxy" subprocess_proxy
        (transcript_payload session_id worktree_path session_name transcript_rel)))))
    admission_forge_root w.

Definition enqueue_shadow_marker (session_id session_name worktree_path : string)
    (forge_root expected_instance_id admission_forge_root : option string) (w : world)
    : world * dict * option string :=
  enqueue "shadow" ("shadow-" +++ session_id)
    (add_origin (add_nonempty "forge_root" forge_root (add_instance expected_instance_id
      [("session_id", VStr session_id); ("session_name", VStr session_name);
       ("worktree_path", VStr worktree_path)])))
    admission_forge_root w.

(** ** Specification: the queue as a transition system *)

(** The environment leaves the queue directory alone while the processor runs. *)
Definition quiet : Prop :=
  (forall n w, env_arrive E n w = w) /\ (forall n w, env_race E n w = w).

(** The keys a failed attempt may change. *)
Definition bumped (d d' : dict) : Prop :=
  forall k, k ∉ ["attempt_count"; "last_attempt_at"; "last_error"] -> dget k d' = dget k d.

(** [c] may be deleted: an old-shape marker, or one its handler completed. *)
Definition retired (c : content) : Prop :=
  exists d, c = CJson (VDict d) /\
    (is_old_shape d = true
     \/ exists kind i h x, _validate_marker d = None
          /\ dgetv "kind" d = VStr kind /\ dgetv "marker_id" d = VStr i
          /\ dget kind handlers = Some h /\ (h (mk_marker d kind i) x).2 = Ok tt).

(** [c'] is [c] or [c] with one more recorded attempt. *)
Inductive attempt : content -> content -> Prop :=
| attempt_same c : attempt c c
| attempt_bump d d' : bumped d d' -> attempt (CJson (VDict d)) (CJson (VDict d')).

Inductive step (name : string) : world -> world -> Prop :=
| step_keep w w' :
    w_pending w' = w_pending w -> w_failed w' = w_failed w -> w_cursor w' = w_cursor w ->
    w_dir w' = w_dir w -> step name w w'
| step_bump w c c' :
    w_pending w !! name = Some c -> attempt c c' ->
    step name w (set_pending (<[name := c']> (w_pending w)) w)
| step_fail w c c' :
    w_pending w !! name = Some c -> attempt c c' -> step name w (move_failed name c' w)
| step_retire w c :
    w_pending w !! name = Some c -> retired c ->
    step name w (set_pending (delete name (w_pending w)) w).

(** One step per marker of [names], in order. *)
Inductive steps : list string -> world -> world -> Prop :=
| steps_nil w : steps [] w w
| steps_cons n names w1 w2 w3 : step n w1 w2 -> steps names w2 w3 -> steps (n :: names) w1 w3.

(** What a sequence of steps may have done with a marker. *)
Inductive fate (c : content) : option content -> option content -> option content -> Prop :=
| fate_pending f c' : attempt c c' -> fate c (Some c') f f
| fate_failed f c' : attempt c c' -> fate c None f (Some c')
| fate_retired f : retired c -> fate c None f f.

(** ** Lemmas: steps *)

Lemma bumped_dset d d' k v :
  bumped d d' -> k ∈ ["attempt_count"; "last_attempt_at"; "last_error"] -> bumped d (dset k v d').
Proof. intros Hb Hk j Hj. rewrite dget_dset_ne; [by apply Hb|]. intros ->. done. Qed.

Lemma try_write_error_step name e w :
  let w' := (_try_write_error name e w).1 in
  w' = w \/ exists c c', w_pending w !! name = Some c /\ attempt c c'
             /\ w' = set_pending (<[name := c']> (w_pending w)) w.
Proof.
  unfold _try_write_error. destruct (w_pending w !! name) as [[| | |[]]|] eqn:Hp; auto.
  destruct (py_add_one _) as [n|]; auto. destruct (env_write E name); auto.
  right. eexists _, _. split_and!; [reflexivity| |reflexivity].
  constructor. repeat (apply bumped_dset; [|set_solver]). by intros ??.
Qed.

Lemma move_to_failed_step name w : step name w (_move_to_failed name w).
Proof.
  unfold _move_to_failed. destruct (env_move E name); [|by apply step_keep].
  destruct (w_pending w !! name) as [c|] eqn:Hp; [|by apply step_keep].
  eapply step_fail; [done|constructor].
Qed.

(** A failed attempt, followed or not by the move. *)
Lemma write_then_move_step name e w (b : bool) :
  step name w (if b then _move_to_failed name (_try_write_error name e w).1
               else (_try_write_error name e w).1).
Proof.
  destruct (try_write_error_step name e w) as [->|(c & c' & Hp & Ha & ->)].
  - destruct b; [apply move_to_failed_step|by apply step_keep].
  - destruct b; [|by eapply step_bump]. unfold _move_to_failed.
    destruct (env_move E name); [|by eapply step_bump]. simpl. rewrite lookup_insert_eq.
    assert (move_failed name c' (set_pending (<[name:=c']> (w_pending w)) w) = move_failed name c' w)
      as -> by (unfold move_failed; simpl; by rewrite delete_insert_eq).
    by eapply step_fail.
Qed.

Lemma unlink_step name c w :
  w_pending w !! name = Some c -> retired c -> step name w (unlink_marker name w).1.
Proof.
  intros. unfold unlink_marker. destruct (env_unlink E name); simpl; [by eapply step_retire|].
  by apply step_keep.
Qed.

Lemma validate_fields d :
  _validate_marker d = None ->
  exists kind i, dgetv "kind" d = VStr kind /\ dgetv "marker_id" d = VStr i.
Proof.
  unfold _validate_marker. intros H. repeat (case_match; simplify_eq/=); eauto.
Qed.

Lemma dispatch_step name d w x :
  w_pending w !! name = Some (CJson (VDict d)) -> step name w (dispatch name d w x).1.1.
Proof.
  intros Hp. unfold dispatch. destruct (_validate_marker d) as [e|] eqn:Hv.
  - pose proof (write_then_move_step name e w) as Hs.
    destruct (_try_write_error name e w) as [w' n]; simpl in Hs.
    destruct (exhausted n) as [[]|]; [apply (Hs true)|apply (Hs false)..].
  - destruct (validate_fields d Hv) as (kind & i & Hk & Hi). rewrite Hk, Hi. simpl.
    destruct (py_ge_int _ _) as [[]|]; [apply move_to_failed_step| |by apply step_keep].
    destruct (dget kind handlers) as [h|] eqn:Hh; [|by apply step_keep].
    destruct (h (mk_marker d kind i) x) as [x' r] eqn:Hr. destruct r as [[]|e].
    + pose proof (unlink_step name _ w Hp) as Hu.
      destruct (unlink_marker name w) as [w' r]. simpl in *. apply Hu.
      exists d. split; [done|]. right. exists kind, i, h, x. by rewrite Hr.
    + pose proof (write_then_move_step name ("handler error: " +++ exn_msg e) w) as Hs.
      destruct (_try_write_error name _ w) as [w' n]; simpl in Hs.
      destruct (exhausted n) as [[]|]; [apply (Hs true)|apply (Hs false)..].
Qed.

Lemma locked_body_step name owner w x : step name w (locked_body name owner w x).1.1.
Proof.
  unfold locked_body. destruct (w_pending w !! name) as [c|] eqn:Hp; [|by apply step_keep].
  destruct (read_json name (Some c)) as [d|e] eqn:Hr.
  2:{ destruct (exn_cls e); try (by apply step_keep). apply move_to_failed_step. }
  assert (c = CJson (VDict d)) as -> by (destruct c as [| | |[]]; simpl in Hr; by simplify_eq).
  destruct (match owner with Some o => owner_changed d o | None => Ok false end) as [[]|];
    [by apply step_keep| |by apply step_keep].
  destruct (is_newer _) as [v|].
  { unfold _defer_newer_schema. destruct (w_warned w); by apply step_keep. }
  destruct (is_old_shape d) eqn:Ho; [|by apply dispatch_step].
  pose proof (unlink_step name _ w Hp) as Hu. destruct (unlink_marker name w) as [w' r].
  apply Hu. exists d. auto.
Qed.

Lemma process_locked_step name owner w x :
  quiet -> step name w (_process_locked_marker name owner w x).1.1.
Proof.
  intros [_ Hq]. unfold _process_locked_marker. rewrite Hq.
  destruct (env_locked E name); [by apply step_keep|].
  pose proof (locked_body_step name owner w x). by destruct (locked_body name owner w x) as [[] ?].
Qed.

Lemma process_single_step name w x :
  quiet -> step name w (_process_single_marker name w x).1.1.
Proof.
  intros Hq. unfold _process_single_marker. rewrite (proj1 Hq).
  pose proof (process_locked_step name None w x Hq) as Hn.
  destruct (_process_locked_marker name None w x) as [[w1 x1] o1]; simpl in Hn.
  destruct (read_json _ _) as [d|e]; [|destruct (is_state_error _); [done|by apply step_keep]].
  destruct (dgetv "payload" d) as [| | | | | |p]; try done.
  destruct (dgetv "session_name" p) as [| | | |sn| |]; try done.
  destruct (py_or _ _) as [| | | |root| |]; try done.
  destruct (dgetv "instance_id" p) as [| | | |token| |]; try by apply step_keep.
  destruct (env_lease E root sn token); [|by apply step_keep].
  destruct (env_resolve E root) as [root'|].
  - pose proof (process_locked_step name (Some (root', sn, token)) w x Hq) as Hl.
    destruct (_process_locked_marker name _ w x) as [[w2 x2] o2]; simpl in Hl.
    by destruct (env_release E name).
  - destruct (env_release E name); by apply step_keep.
Qed.

Lemma scan_steps window w x :
  quiet -> exists names, names `prefix_of` window /\ steps names w (scan window w x).1.1.
Proof.
  intros Hq. revert w x. induction window as [|n window IH]; intros w x; simpl.
  - exists []. split; [done|constructor].
  - pose proof (process_single_step n w x Hq) as Hs.
    destruct (_process_single_marker n w x) as [[w1 x1] r]; simpl in Hs.
    destruct r as [o|e].
    + destruct (IH w1 x1) as (names & Hp & Hss).
      destruct (scan window w1 x1) as [[w2 x2] r2]; simpl in Hss.
      exists (n :: names). split; [by apply prefix_cons|]. by econstructor.
    + exists [n]. split; [apply prefix_cons, prefix_nil|]. econstructor; [done|constructor].
Qed.

Lemma step_fate n w w' :
  step n w w' ->
  (forall m, m <> n -> w_pending w' !! m = w_pending w !! m /\ w_failed w' !! m = w_failed w !! m)
  /\ (forall c, w_pending w !! n = Some c ->
        fate c (w_pending w' !! n) (w_failed w !! n) (w_failed w' !! n))
  /\ (w_pending w !! n = None ->
        w_pending w' !! n = None /\ w_failed w' !! n = w_failed w !! n).
Proof.
  intros [w1 w2 Hp Hf _ _|w1 c c' Hp Ha|w1 c c' Hp Ha|w1 c Hp Hr]; simpl.
  - rewrite Hp, Hf. split_and!; [done| |done]. intros c ->. by constructor; constructor.
  - rewrite lookup_insert_eq. split_and!.
    + intros m Hm. by rewrite lookup_insert_ne.
    + intros ? ?. simplify_eq. by constructor.
    + congruence.
  - rewrite lookup_insert_eq, lookup_delete_eq. split_and!.
    + intros m Hm. by rewrite lookup_delete_ne, lookup_insert_ne.
    + intros ? ?. simplify_eq. by constructor.
    + congruence.
  - rewrite lookup_delete_eq. split_and!.
    + intros m Hm. by rewrite lookup_delete_ne.
    + intros ? ?. simplify_eq. by constructor.
    + done.
Qed.

Lemma steps_fate names w w' :
  steps names w w' -> NoDup names ->
  forall n,
  (n ∉ names \/ w_pending w !! n = None ->
     w_pending w' !! n = w_pending w !! n /\ w_failed w' !! n = w_failed w !! n)
  /\ (forall c, w_pending w !! n = Some c ->
        fate c (w_pending w' !! n) (w_failed w !! n) (w_failed w' !! n)).
Proof.
  induction 1 as [w|m names w1 w2 w3 Hs Hss IH]; intros Hnd n.
  - split; [done|]. intros c ->. by constructor; constructor.
  - apply NoDup_cons in Hnd as [Hm Hnd]. destruct (step_fate _ _ _ Hs) as (H1 & H2 & H3).
    destruct (IH Hnd n) as [IH1 IH2]. destruct (decide (n = m)) as [->|Hne].
    + destruct IH1 as [-> ->]; [by left|]. split; [|done].
      intros [Hn|Hn]; [exfalso; apply Hn; left|]. rewrite Hn. by apply H3.
    + destruct (H1 n Hne) as [E1 E2]. rewrite <- E1, <- E2. split; [|done].
      intros [Hn|Hn]; apply IH1; [left; set_solver|by right].
Qed.

Lemma list_markers_NoDup w : NoDup (list_markers w).
Proof.
  unfold list_markers, sorted_strs. rewrite sort_by_perm. apply NoDup_ListNoDup, List.NoDup_filter.
  apply NoDup_ListNoDup. change (NoDup ((map_to_list (w_pending w)).*1)). apply NoDup_fst_map_to_list.
Qed.

Lemma rotate_perm {A} n (l : list A) : drop n l ++ take n l ≡ₚ l.
Proof. rewrite Permutation_app_comm. by rewrite take_drop. Qed.

Lemma take_NoDup {A} n (l : list A) : NoDup l -> NoDup (take n l).
Proof. rewrite <- (take_drop n l) at 1. by intros [? _]%NoDup_app. Qed.

Lemma window_NoDup markers max_items w window :
  NoDup markers -> _select_scan_window markers max_items w = Ok window -> NoDup window.
Proof.
  unfold _select_scan_window. intros Hnd H. destruct (_ || _); [simplify_eq; constructor|].
  destruct (_read_scan_cursor w) as [c|]; simpl in H; [|done]. injection H as <-.
  apply take_NoDup. by rewrite rotate_perm.
Qed.

(** A run: its steps on the markers, then the cursor. *)
Lemma process_steps max_items w x :
  quiet ->
  exists names w1, NoDup names /\ steps names w w1
    /\ let w' := (process_pending_work max_items w x).1.1 in
       w_pending w' = w_pending w1 /\ w_failed w' = w_failed w1.
Proof.
  intros Hq. unfold process_pending_work.
  destruct (w_dir w); simpl; [|exists [], w; repeat constructor].
  destruct (env_list E); [|exists [], w; repeat constructor].
  pose proof (list_markers_NoDup w) as Hnd.
  destruct (list_markers w) as [|m ms] eqn:Hl; [exists [], w; repeat constructor|].
  destruct (_select_scan_window _ _ _) as [window|] eqn:Hw; [|exists [], w; repeat constructor].
  destruct (scan_steps window w x Hq) as (names & Hp & Hss).
  destruct (scan window w x) as [[w1 x1] r]; simpl in Hss. exists names, w1. split; [|split; [done|]].
  - destruct Hp as [k ->]. eapply window_NoDup in Hw; [|done]. by apply NoDup_app in Hw as [? _].
  - destruct r; simpl; [|done]. destruct (last window); simpl; [|done].
    destruct (existsb _ _); unfold _write_scan_cursor, _clear_scan_cursor; by destruct (env_cursor E).
Qed.

(** ** Lemmas: resident markers *)

(** A marker of a schema this version does not know. *)
Definition newer (c : content) : Prop :=
  exists d v, c = CJson (VDict d) /\ dgetv "schema_version" d = VInt v /\ MARKER_SCHEMA_VERSION < v.

(** The environment is quiet, and leases are granted or refused in the documented ways. *)
Record orderly : Prop := {
  ord_quiet : quiet;
  ord_lease : forall r n t e, env_lease E r n t = Err e -> exists o, not_admitted n e = Ok o;
  ord_resolve : forall r, is_ok (env_resolve E r) = true;
  ord_release : forall n, is_ok (env_release E n) = true;
}.

(** The marker [n] cannot make progress: another process holds its lock, or it is newer. *)
Definition stuck (n : string) (c : content) : Prop :=
  newer c \/ (env_locked E n = true /\ exists d, c = CJson (VDict d)).

Definition same_queue (w w' : world) : Prop :=
  w_pending w' = w_pending w /\ w_failed w' = w_failed w /\ w_cursor w' = w_cursor w
  /\ w_dir w' = w_dir w.

Lemma same_queue_refl w : same_queue w w.
Proof. done. Qed.

Lemma locked_body_newer n owner w x d v :
  w_pending w !! n = Some (CJson (VDict d)) -> dgetv "schema_version" d = VInt v ->
  MARKER_SCHEMA_VERSION < v ->
  same_queue w (locked_body n owner w x).1.1
  /\ (locked_body n owner w x).1.2 = x
  /\ (match owner with Some o => owner_changed d o | None => Ok false end = Ok false ->
      exists o, (locked_body n owner w x).2 = Ok o /\ is_resident o = true).
Proof.
  intros Hp Hv Hlt. unfold locked_body. rewrite Hp. simpl.
  destruct (match owner with Some o => owner_changed d o | None => Ok false end) as [[]|]; simpl;
    [by split_and!|idtac|by split_and!].
  rewrite Hv. simpl. rewrite (proj2 (Z.ltb_lt _ _) Hlt). unfold _defer_newer_schema.
  destruct (w_warned w); simpl; (split; [done|split; [done|]]); eauto.
Qed.

Lemma newer_pending_kept m n w x c :
  quiet -> w_pending w !! n = Some c -> newer c ->
  w_pending (_process_single_marker m w x).1.1 !! n = Some c.
Proof.
  intros Hq Hp Hn. destruct (decide (n = m)) as [->|Hne].
  2:{ pose proof (process_single_step m w x Hq) as Hs. apply step_fate in Hs as [H _].
      by rewrite (proj1 (H n Hne)). }
  destruct Hn as (d & v & -> & Hv & Hlt).
  assert (forall owner, w_pending (_process_locked_marker m owner w x).1.1 !! m = Some (CJson (VDict d)))
    as Hl.
  { intros owner. unfold _process_locked_marker. rewrite (proj2 Hq).
    destruct (env_locked E m); [done|].
    destruct (locked_body_newer m owner w x d v Hp Hv Hlt) as [[Hs _] _].
    destruct (locked_body m owner w x) as [[] ?]; simpl in *. by rewrite Hs. }
  unfold _process_single_marker. rewrite (proj1 Hq), Hp. simpl. pose proof (Hl None) as Hl0.
  destruct (_process_locked_marker m None w x) as [[w1 x1] o1]; simpl in Hl0.
  destruct (dgetv "payload" d) as [| | | | | |p]; try done.
  destruct (dgetv "session_name" p) as [| | | |sn| |]; try done.
  destruct (py_or _ _) as [| | | |root| |]; try done.
  destruct (dgetv "instance_id" p) as [| | | |token| |]; try done.
  destruct (env_lease E root sn token); [|done].
  destruct (env_resolve E root) as [root'|].
  - pose proof (Hl (Some (root', sn, token))) as Hl1.
    destruct (_process_locked_marker m (Some _) w x) as [[w2 x2] o2]; simpl in Hl1.
    by destruct (env_release E m).
  - by destruct (env_release E m).
Qed.

Lemma scan_invariant (I : world -> Prop) window w x :
  (forall m w x, I w -> I (_process_single_marker m w x).1.1) ->
  I w -> I (scan window w x).1.1.
Proof.
  intros Hstep. revert w x. induction window as [|m window IH]; intros w x Hw; simpl; [done|].
  pose proof (Hstep m w x Hw) as H1. destruct (_process_single_marker m w x) as [[w1 x1] [o|e]]; [|done].
  pose proof (IH w1 x1 H1) as H2. by destruct (scan window w1 x1) as [[] ?].
Qed.

Lemma process_invariant (I : gmap string content -> Prop) max_items w x :
  (forall m w x, I (w_pending w) -> I (w_pending (_process_single_marker m w x).1.1)) ->
  I (w_pending w) -> I (w_pending (process_pending_work max_items w x).1.1).
Proof.
  intros Hstep Hw. unfold process_pending_work.
  destruct (w_dir w); [|done]. destruct (env_list E); [|done]. simpl.
  destruct (list_markers w); [done|]. destruct (_select_scan_window _ _ _) as [window|]; [|done].
  pose proof (scan_invariant (fun w => I (w_pending w)) window w x Hstep Hw) as Hs.
  destruct (scan window w x) as [[w1 x1] [os|]]; [|done]. simpl in *.
  destruct (last window); [|done]. unfold _write_scan_cursor, _clear_scan_cursor.
  by destruct (existsb _ _), (env_cursor E).
Qed.

Lemma locked_stuck n owner w x d :
  quiet -> w_pending w !! n = Some (CJson (VDict d)) -> stuck n (CJson (VDict d)) ->
  match owner with Some o => owner_changed d o | None => Ok false end = Ok false ->
  exists w' o, _process_locked_marker n owner w x = (w', x, o)
    /\ same_queue w w' /\ is_resident o = true.
Proof.
  intros Hq Hp Hs Ho. unfold _process_locked_marker. rewrite (proj2 Hq).
  destruct (env_locked E n) eqn:Hl; [by eexists _, _|].
  destruct Hs as [(d' & v & Heq & Hv & Hlt)|[? _]]; [|congruence].
  injection Heq as <-. destruct (locked_body_newer n owner w x d v Hp Hv Hlt) as (Hs & Hx & Hr).
  destruct (Hr Ho) as (o & Hr' & Hres).
  destruct (locked_body n owner w x) as [[w1 x1] r]; simpl in *. subst. by eexists _, _.
Qed.

(** A stuck marker is resident and nothing changes. *)
Lemma stuck_single n w x c :
  orderly -> w_pending w !! n = Some c -> stuck n c ->
  exists w' o, _process_single_marker n w x = (w', x, Ok o)
    /\ same_queue w w' /\ is_resident o = true.
Proof.
  intros [Hq Hlease Hres Hrel] Hp Hs.
  assert (exists d, c = CJson (VDict d)) as [d ->]
    by (destruct Hs as [(d & v & ? & _)|[_ ?]]; eauto).
  unfold _process_single_marker. rewrite (proj1 Hq), Hp. simpl.
  destruct (locked_stuck n None w x d Hq Hp Hs eq_refl) as (w1 & o1 & Hl & Hw1 & Ho1).
  assert (exists w' o, (let '(w, x, o) := _process_locked_marker n None w x in (w, x, Ok o))
    = (w', x, Ok o) /\ same_queue w w' /\ is_resident o = true) as Hun
    by (rewrite Hl; eauto 10).
  destruct (dgetv "payload" d) as [| | | | | |p] eqn:Hpay; try exact Hun.
  destruct (dgetv "session_name" p) as [| | | |sn| |] eqn:Hsn; try exact Hun.
  destruct (py_or _ _) as [| | | |root| |] eqn:Hroot; try exact Hun.
  destruct (dgetv "instance_id" p) as [| | | |token| |] eqn:Htok; try by eexists _, _.
  destruct (env_lease E root sn token) as [u|e] eqn:Hle.
  2:{ assert (exists t, not_admitted n e = Ok (ODeferred t)) as [t ->]; [|by eexists _, _].
      destruct (Hlease _ _ _ _ Hle) as [o Ho]. unfold not_admitted in *.
      destruct (bool_decide _); [eauto|done]. }
  pose proof (Hres root) as Hr0. pose proof (Hrel n) as Hrl.
  destruct (env_resolve E root) as [root'|] eqn:Hrr; [|done].
  destruct (env_release E n); [|done].
  assert (truthy (VDict p) = true) as Htr by (by destruct p).
  destruct (locked_stuck n (Some (root', sn, token)) w x d Hq Hp Hs) as (w2 & o2 & -> & Hw2 & Ho2);
    [|by eexists _, _].
  unfold owner_changed. rewrite Hpay. unfold py_or at 1. rewrite Htr, Hroot, Hrr, Hsn, Htok. simpl.
  rewrite bool_decide_eq_true_2, !String.eqb_refl by done. done.
Qed.

Lemma scan_stuck window w x :
  orderly -> (forall n, n ∈ window -> exists c, w_pending w !! n = Some c /\ stuck n c) ->
  exists w' os, scan window w x = (w', x, Ok os) /\ same_queue w w'
    /\ length os = length window /\ forallb is_resident os = true.
Proof.
  intros Ho. revert w. induction window as [|n window IH]; intros w Hall; simpl.
  - by exists w, [].
  - destruct (Hall n) as (c & Hp & Hs); [left|].
    destruct (stuck_single n w x c Ho Hp Hs) as (w1 & o & -> & Hsame & Hr).
    destruct (IH w1) as (w2 & os & -> & Hsame2 & Hlen & Hf).
    { intros m Hm. destruct (Hall m) as (c' & ? & ?); [by right|]. exists c'.
      by rewrite (proj1 Hsame). }
    exists w2, (o :: os). split_and!; [done| | |].
    + destruct Hsame as (?&?&?&?), Hsame2 as (?&?&?&?). repeat split; congruence.
    + simpl. by rewrite Hlen.
    + simpl. by rewrite Hr.
Qed.

(** ** Lemmas: the rotation *)

Lemma rotate_lookup {A} (l : list A) p i :
  (p <= length l)%nat -> (i < length l)%nat ->
  (drop p l ++ take p l) !! i = l !! Z.to_nat ((Z.of_nat p + Z.of_nat i) mod Z.of_nat (length l)).
Proof.
  intros Hp Hi. destruct (decide (p + i < length l)%nat) as [Hlt|Hge].
  - rewrite lookup_app_l by (rewrite length_drop; lia). rewrite lookup_drop.
    rewrite Z.mod_small by lia. f_equal. lia.
  - rewrite lookup_app_r by (rewrite length_drop; lia). rewrite length_drop.
    assert ((Z.of_nat p + Z.of_nat i) mod Z.of_nat (length l)
            = Z.of_nat p + Z.of_nat i - Z.of_nat (length l)) as ->.
    { symmetry. apply Z.mod_unique with 1; lia. }
    rewrite lookup_take_lt by lia. f_equal. lia.
Qed.

Lemma bisect_right_le l c : (bisect_right l c <= length l)%nat.
Proof. induction l; simpl; [lia|]. destruct (str_le _ _); lia. Qed.

Lemma bisect_right_lookup l j c :
  StronglySorted (key_ordered id) l -> NoDup l -> l !! j = Some c -> bisect_right l c = S j.
Proof.
  intros Hs Hnd. revert j. induction Hs as [|y l Hs IH Hall]; intros j Hj; [done|].
  apply NoDup_cons in Hnd as [Hy Hnd]. rewrite Forall_forall in Hall.
  destruct j as [|j]; simpl in *; simplify_eq.
  - rewrite str_le_refl. f_equal. destruct l as [|z l]; [done|]. simpl.
    destruct (str_le z c) eqn:Hzc; [|done]. exfalso. apply Hy.
    rewrite (anti_symm str_le c z); [left| |by apply Is_true_eq_left]. apply Hall. left.
  - rewrite (Is_true_eq_true (str_le y c)); [by rewrite (IH Hnd j)|].
    apply Hall. by eapply list_elem_of_lookup_2.
Qed.

(** The window of a scan starting at [p]: the next [k] markers in cyclic order. *)
Definition window_at (l : list string) (p k : nat) : list string := take k (drop p l ++ take p l).

Lemma length_window_at l p k : (k <= length l)%nat -> length (window_at l p k) = k.
Proof. intros. unfold window_at. rewrite length_take, length_app, length_drop, length_take. lia. Qed.

Lemma window_at_lookup l p k i :
  (p <= length l)%nat -> (k <= length l)%nat -> (i < k)%nat ->
  window_at l p k !! i = l !! Z.to_nat ((Z.of_nat p + Z.of_nat i) mod Z.of_nat (length l)).
Proof. intros. unfold window_at. rewrite lookup_take_lt by lia. apply rotate_lookup; lia. Qed.

Definition scan_start (markers : list string) (w : world) : nat :=
  match _read_scan_cursor w with Ok (Some c) => bisect_right markers c | _ => O end.

Lemma select_window markers max_items w :
  markers <> [] -> 0 < max_items -> is_ok (_read_scan_cursor w) = true ->
  _select_scan_window markers max_items w =
  Ok (window_at markers (scan_start markers w)
        (Z.to_nat (Z.min max_items (Z.of_nat (length markers))))).
Proof.
  intros Hm Hi Hc. unfold _select_scan_window, scan_start, window_at.
  destruct (Z.leb_spec max_items 0); [lia|]. destruct markers; [done|]. simpl.
  by destruct (_read_scan_cursor w) as [[c|]|].
Qed.

Lemma scan_start_le markers w : (scan_start markers w <= length markers)%nat.
Proof. unfold scan_start. destruct (_read_scan_cursor w) as [[]|]; [apply bisect_right_le|lia..]. Qed.

(** How far the marker at index [t] is from the start [p] of the next scan. *)
Definition distance (l : list string) (p t : nat) : Z :=
  (Z.of_nat t - Z.of_nat p) mod Z.of_nat (length l).

Lemma distance_covered l p t k n :
  (p <= length l)%nat -> (k <= length l)%nat -> l !! t = Some n ->
  distance l p t < Z.of_nat k -> n ∈ window_at l p k.
Proof.
  intros Hp Hk Ht Hd. pose proof (lookup_lt_Some _ _ _ Ht) as Htl. unfold distance in Hd.
  pose proof (Z.mod_pos_bound (Z.of_nat t - Z.of_nat p) (Z.of_nat (length l))).
  apply (list_elem_of_lookup_2 _ (Z.to_nat ((Z.of_nat t - Z.of_nat p) mod Z.of_nat (length l)))).
  rewrite window_at_lookup by lia. rewrite Z2Nat.id by lia.
  rewrite Zplus_mod_idemp_r. replace (Z.of_nat p + (Z.of_nat t - Z.of_nat p)) with (Z.of_nat t) by lia.
  rewrite Z.mod_small, Nat2Z.id by lia. done.
Qed.

Lemma distance_not_covered l p t k n :
  NoDup l -> (p <= length l)%nat -> (k <= length l)%nat -> l !! t = Some n ->
  Z.of_nat k <= distance l p t -> n ∉ window_at l p k.
Proof.
  intros Hnd Hp Hk Ht Hd Hin. pose proof (lookup_lt_Some _ _ _ Ht) as Htl.
  apply list_elem_of_lookup in Hin as [i Hi].
  pose proof (lookup_lt_Some _ _ _ Hi) as Hil. rewrite length_window_at in Hil by done.
  rewrite window_at_lookup in Hi by lia.
  pose proof (NoDup_lookup _ _ _ _ Hnd Hi Ht) as Heq. unfold distance in Hd.
  pose proof (Z.mod_pos_bound (Z.of_nat p + Z.of_nat i) (Z.of_nat (length l))).
  assert (Z.of_nat t = (Z.of_nat p + Z.of_nat i) mod Z.of_nat (length l)) as Ez by lia.
  rewrite Ez, Zminus_mod_idemp_l in Hd.
  replace (Z.of_nat p + Z.of_nat i - Z.of_nat p) with (Z.of_nat i) in Hd by lia.
  rewrite Z.mod_small in Hd by lia. lia.
Qed.

(** After a window that misses [t], the next scan starts [k] closer to it. *)
Lemma distance_next l p t k c :
  StronglySorted (key_ordered id) l -> NoDup l -> (p <= length l)%nat -> (0 < k <= length l)%nat ->
  last (window_at l p k) = Some c -> Z.of_nat k <= distance l p t ->
  distance l (bisect_right l c) t = distance l p t - Z.of_nat k.
Proof.
  intros Hs Hnd Hp Hk Hc Hd.
  rewrite last_lookup, length_window_at in Hc by lia.
  rewrite window_at_lookup in Hc by lia.
  rewrite (bisect_right_lookup l _ c Hs Hnd Hc). unfold distance in *.
  set (N := Z.of_nat (length l)) in *.
  pose proof (Z.mod_pos_bound (Z.of_nat p + Z.of_nat (pred k)) N) as Hb1.
  pose proof (Z.mod_pos_bound (Z.of_nat t - Z.of_nat p) N) as Hb2.
  symmetry. apply Z.mod_unique with
    ((Z.of_nat t - Z.of_nat p) / N + (Z.of_nat p + Z.of_nat (pred k)) / N); [lia|].
  pose proof (Z.div_mod (Z.of_nat t - Z.of_nat p) N).
  pose proof (Z.div_mod (Z.of_nat p + Z.of_nat (pred k)) N).
  rewrite Nat2Z.inj_succ, Z2Nat.id by lia. lia.
Qed.

(** ** Lemmas: repeated runs *)

Fixpoint runs (k : nat) (max_items : Z) (w : world) (x : Ext) : world * Ext :=
  match k with
  | O => (w, x)
  | S k =>
      let '(w, x, _) := process_pending_work max_items w x in runs k max_items w x
  end.

(** The markers a run looks at. *)
Definition inspects (n : string) (max_items : Z) (w : world) : Prop :=
  exists window, _select_scan_window (list_markers w) max_items w = Ok window /\ n ∈ window.

Lemma list_markers_sorted w : StronglySorted (key_ordered id) (list_markers w).
Proof. apply sort_by_sorted. Qed.

Lemma elem_of_list_markers n w :
  n ∈ list_markers w <-> is_Some (w_pending w !! n) /\ endswith ".json" n = true.
Proof.
  unfold list_markers, sorted_strs. rewrite sort_by_perm.
  rewrite list_elem_of_In, filter_In, in_map_iff. split.
  - intros [([k c] & <- & Hin) He]. split; [|done]. exists c.
    by apply elem_of_map_to_list, list_elem_of_In.
  - intros [[c Hc] He]. split; [|done]. exists (n, c). split; [done|].
    by apply list_elem_of_In, elem_of_map_to_list.
Qed.

(** A run whose window holds only stuck markers moves the cursor to its end. *)
Lemma stuck_run max_items w x window c :
  orderly -> env_cursor E = true -> is_ok (env_list E) = true -> w_dir w = true ->
  _select_scan_window (list_markers w) max_items w = Ok window -> last window = Some c ->
  (forall n, n ∈ window -> exists k, w_pending w !! n = Some k /\ stuck n k) ->
  exists w' r, process_pending_work max_items w x = (w', x, Ok r)
    /\ w_pending w' = w_pending w /\ w_dir w' = true /\ _read_scan_cursor w' = Ok (Some c).
Proof.
  intros Ho Hcur Hlist Hdir Hw Hlast Hall. unfold process_pending_work. rewrite Hdir.
  destruct (env_list E) as [u|]; [|done].
  destruct (scan_stuck window w x Ho Hall) as (w1 & os & Hscan & Hsame & Hlen & Hres).
  destruct (list_markers w) as [|m ms].
  { unfold _select_scan_window in Hw. rewrite orb_true_r in Hw. by injection Hw as <-. }
  simpl. rewrite Hw, Hscan, Hlast.
  assert (existsb is_resident os = true) as ->.
  { destruct window as [|a b]; [done|]. destruct os as [|o os]; [done|]. simpl in *.
    by destruct (is_resident o). }
  unfold _write_scan_cursor. rewrite Hcur. destruct Hsame as (H1 & _ & _ & H2).
  eexists _, _. split; [reflexivity|]. split; [done|]. split; [|done]. simpl. by rewrite H2.
Qed.

Lemma scan_reaches k max_items w x t n :
  orderly -> env_cursor E = true -> is_ok (env_list E) = true -> w_dir w = true ->
  is_ok (_read_scan_cursor w) = true -> 0 < max_items ->
  list_markers w !! t = Some n ->
  (forall m c, m <> n -> w_pending w !! m = Some c -> stuck m c) ->
  distance (list_markers w) (scan_start (list_markers w) w) t
    < Z.of_nat (S k) * Z.min max_items (Z.of_nat (length (list_markers w))) ->
  exists j, (j <= k)%nat /\ w_pending (runs j max_items w x).1 = w_pending w
    /\ inspects n max_items (runs j max_items w x).1.
Proof.
  intros Ho Hcur Hlist. revert w x. induction k as [|k IH]; intros w x Hdir Hcok Hmax Ht Hstuck Hd.
  all: pose proof (lookup_lt_Some _ _ _ Ht) as Htl.
  all: pose proof (scan_start_le (list_markers w) w) as Hstart.
  all: set (l := list_markers w) in *; set (p := scan_start l w) in *.
  all: set (m := Z.to_nat (Z.min max_items (Z.of_nat (length l)))).
  all: assert (Z.of_nat m = Z.min max_items (Z.of_nat (length l))) as Em by lia.
  all: assert (l <> []) as Hne by (intros E'; rewrite E' in Htl; simpl in Htl; lia).
  all: pose proof (select_window l max_items w Hne Hmax Hcok) as Hsel; fold p m in Hsel.
  all: destruct (Z.lt_ge_cases (distance l p t) (Z.of_nat m)) as [Hlt|Hge];
    [exists O; split_and!; [lia|done|]; exists (window_at l p m); split; [done|];
     eapply distance_covered; [lia|lia|done|done]|].
  - lia.
  - destruct (last (window_at l p m)) as [c|] eqn:Hlast.
    2:{ apply last_None in Hlast. pose proof (length_window_at l p m) as Hlen.
        rewrite Hlast in Hlen. simpl in Hlen. lia. }
    destruct (stuck_run max_items w x _ c Ho Hcur Hlist Hdir Hsel Hlast) as (w1 & r & Hrun & Hp1 & Hd1 & Hc1).
    { intros n' Hn'. destruct (decide (n' = n)) as [->|Hnn].
      - exfalso. eapply (distance_not_covered l p t m n); [apply list_markers_NoDup|lia|lia|done|lia|done].
      - assert (n' ∈ l) as Hl.
        { unfold window_at in Hn'. rewrite <- (rotate_perm p l).
          rewrite <- (take_drop m (drop p l ++ take p l)). apply elem_of_app. by left. }
        apply elem_of_list_markers in Hl as [[c' Hc'] _]. eauto. }
    assert (list_markers w1 = l) as El by (unfold l, list_markers; by rewrite Hp1).
    assert (scan_start (list_markers w1) w1 = bisect_right l c) as Es
      by (unfold scan_start; by rewrite Hc1, El).
    destruct (IH w1 x) as (j & Hj & Hpj & Hin).
    + done.
    + by rewrite Hc1.
    + done.
    + by rewrite El.
    + intros m' c' Hm' Hp'. apply (Hstuck m' c' Hm'). by rewrite <- Hp1.
    + rewrite Es, El. rewrite (distance_next l p t m c);
        [lia|apply list_markers_sorted|apply list_markers_NoDup|lia|lia|done|lia].
    + exists (S j). simpl. rewrite Hrun. split_and!; [lia|by rewrite Hpj|done].
Qed.

(** ** Lemmas: attempts *)

Lemma dgetv_bumped k d d' :
  bumped d d' -> k ∉ ["attempt_count"; "last_attempt_at"; "last_error"] -> dgetv k d' = dgetv k d.
Proof. intros Hb Hk. unfold dgetv, dget_default. by rewrite (Hb k Hk). Qed.

(** A session-owned marker carries the instance it belongs to. *)
Definition ownable (d : dict) : Prop :=
  forall p sn root, dgetv "payload" d = VDict p -> dgetv "session_name" p = VStr sn ->
  py_or (dgetv "forge_root" p) (dgetv "worktree_path" p) = VStr root ->
  exists token, dgetv "instance_id" p = VStr token.

(** A marker that reaches its handler [h]. *)
Record runnable (d : dict) (a : Z) (h : handler) : Prop := {
  run_valid : _validate_marker d = None;
  run_ownable : ownable d;
  run_handler : exists kind, dgetv "kind" d = VStr kind /\ dget kind handlers = Some h;
  run_count : dget "attempt_count" d = Some (VInt a);
}.

Lemma validate_bumped d d' : bumped d d' -> _validate_marker d' = _validate_marker d.
Proof. intros Hb. unfold _validate_marker. rewrite !(dgetv_bumped _ d d' Hb) by set_solver. done. Qed.

Lemma runnable_bumped d d' a a' h :
  bumped d d' -> dget "attempt_count" d' = Some (VInt a') -> runnable d a h -> runnable d' a' h.
Proof.
  intros Hb Ha [Hv Ho (kind & Hk & Hh) _]. split; [by rewrite (validate_bumped d d')| | |done].
  - unfold ownable in *. by rewrite (dgetv_bumped _ d d' Hb) by set_solver.
  - exists kind. by rewrite (dgetv_bumped _ d d' Hb) by set_solver.
Qed.

Lemma valid_schema d : _validate_marker d = None -> is_newer (dgetv "schema_version" d) = None.
Proof.
  unfold _validate_marker. destruct (negb _) eqn:Hn; [done|]. intros _.
  apply negb_false_iff in Hn. destruct (dgetv "schema_version" d); simpl in *; try done.
  zbool. subst. done.
Qed.

Lemma valid_not_old d : _validate_marker d = None -> is_old_shape d = false.
Proof.
  intros Hv. destruct (validate_fields d Hv) as (kind & i & _ & Hi). unfold is_old_shape, dhas.
  unfold dgetv, dget_default in Hi. by destruct (dget "marker_id" d).
Qed.

(** The environment lets the processor reach the marker [n]. *)
Record open_for (n : string) : Prop := {
  open_quiet : quiet;
  open_lease : forall r s t, is_ok (env_lease E r s t) = true;
  open_resolve : forall r, is_ok (env_resolve E r) = true;
  open_release : is_ok (env_release E n) = true;
  open_lock : env_locked E n = false;
}.

Lemma single_dispatch n w x d :
  open_for n -> w_pending w !! n = Some (CJson (VDict d)) -> ownable d ->
  _validate_marker d = None ->
  _process_single_marker n w x =
  let '(w, x, r) := dispatch n d w x in
  (w, x, Ok (match r with
             | Ok o => o
             | Err e => OError ("Error processing " +++ n +++ ": " +++ exn_msg e)
             end)).
Proof.
  intros [Hq Hlease Hres Hrel Hlock] Hp Ho Hv.
  assert (forall owner,
    match owner with Some o => owner_changed d o | None => Ok false end = Ok false ->
    _process_locked_marker n owner w x =
    let '(w, x, r) := dispatch n d w x in
    (w, x, match r with
           | Ok o => o
           | Err e => OError ("Error processing " +++ n +++ ": " +++ exn_msg e)
           end)) as Hl.
  { intros owner Hown. unfold _process_locked_marker. rewrite (proj2 Hq), Hlock.
    unfold locked_body. rewrite Hp. simpl. rewrite Hown, valid_schema, valid_not_old by done.
    done. }
  unfold _process_single_marker. rewrite (proj1 Hq), Hp. simpl. rewrite (Hl None eq_refl).
  destruct (dgetv "payload" d) as [| | | | | |p] eqn:Hpay; try by destruct (dispatch n d w x) as [[] ?].
  destruct (dgetv "session_name" p) as [| | | |sn| |] eqn:Hsn; try by destruct (dispatch n d w x) as [[] ?].
  destruct (py_or _ _) as [| | | |root| |] eqn:Hroot; try by destruct (dispatch n d w x) as [[] ?].
  destruct (Ho p sn root) as [token Htok]; [done..|]. rewrite Htok.
  pose proof (Hlease root sn token) as Hle. destruct (env_lease E root sn token); [|done].
  pose proof (Hres root) as Hr0. destruct (env_resolve E root) as [root'|] eqn:Hrr; [|done].
  rewrite (Hl (Some (root', sn, token))).
  - destruct (dispatch n d w x) as [[? ?] ?]. by destruct (env_release E n).
  - assert (truthy (VDict p) = true) as Htr by (by destruct p).
    unfold owner_changed. rewrite Hpay. unfold py_or at 1. rewrite Htr, Hroot, Hrr, Hsn, Htok. simpl.
    rewrite bool_decide_eq_true_2, !String.eqb_refl by done. done.
Qed.

(** [k] consecutive processings of the marker [n]. *)
Fixpoint attempts (k : nat) (n : string) (w : world) (x : Ext) : world * Ext :=
  match k with
  | O => (w, x)
  | S k => let '(w, x, _) := _process_single_marker n w x in attempts k n w x
  end.

Lemma fail_once n w x d a h :
  open_for n -> env_write E n = true -> env_move E n = true ->
  (forall m x, is_ok (h m x).2 = false) ->
  w_pending w !! n = Some (CJson (VDict d)) -> runnable d a h -> a < MAX_ATTEMPTS ->
  exists d', bumped d d' /\ dget "attempt_count" d' = Some (VInt (a + 1)) /\
    let '(w', _, r) := _process_single_marker n w x in
    if MAX_ATTEMPTS <=? a + 1
    then r = Ok OFailed /\ w_pending w' !! n = None /\ w_failed w' !! n = Some (CJson (VDict d'))
    else w_pending w' !! n = Some (CJson (VDict d')).
Proof.
  intros Hopen Hw Hm Hh Hp Hrun Ha. pose proof Hrun as [Hv Ho (kind & Hk & Hkh) Hc].
  rewrite (single_dispatch n w x d Hopen Hp Ho Hv). unfold dispatch. rewrite Hv, Hk. simpl.
  unfold dget_default at 1. rewrite Hc. simpl.
  destruct (Z.leb_spec MAX_ATTEMPTS a); [lia|]. rewrite Hkh.
  set (m := mk_marker d kind _). pose proof (Hh m x) as Hf.
  destruct (h m x) as [x' [|e]]; [done|]. unfold _try_write_error. rewrite Hp.
  unfold dget_default at 1. rewrite Hc. simpl. rewrite Hw. simpl.
  set (d' := dset "last_error" _ _).
  assert (bumped d d') as Hb by (repeat (apply bumped_dset; [|set_solver]); by intros ??).
  exists d'. split; [done|]. split.
  { unfold d'. by rewrite !dget_dset_ne, dget_dset_eq by done. }
  destruct (Z.leb_spec MAX_ATTEMPTS (a + 1)); simpl.
  - unfold _move_to_failed. rewrite Hm. simpl. rewrite lookup_insert_eq. simpl.
    by rewrite lookup_delete_eq, lookup_insert_eq.
  - by rewrite lookup_insert_eq.
Qed.

(** ** Lemmas: accounting *)

Lemma scan_length window w x w' x' os : scan window w x = (w', x', Ok os) -> length os = length window.
Proof.
  revert w x w' x' os. induction window as [|n window IH]; intros w x w' x' os; simpl.
  - by intros [= _ _ <-].
  - destruct (_process_single_marker n w x) as [[w1 x1] [o|]]; [|done].
    destruct (scan window w1 x1) as [[w2 x2] [os2|]] eqn:Hs; simpl; [|done].
    intros [= _ _ <-]. simpl. f_equal. by eapply IH.
Qed.

Definition inspected (r : ProcessResult) : Z :=
  pr_processed r + pr_skipped r + pr_failed r + Z.of_nat (length (pr_errors r)).

Lemma count_outcomes os r :
  inspected (fold_left (fun r o => count_outcome o r) os r) = inspected r + Z.of_nat (length os).
Proof.
  revert r. induction os as [|o os IH]; intros r; simpl; [lia|]. rewrite IH.
  unfold inspected. destruct o; simpl; rewrite ?length_app; simpl; lia.
Qed.

(** ** Lemmas: enqueueing *)

Lemma marker_path_ok i p :
  marker_path i = Ok p -> p = i +++ ".json" /\ i <> "" /\ SAFE_MARKER_ID i = true.
Proof.
  unfold marker_path. destruct (String.eqb i "") eqn:E1, (SAFE_MARKER_ID i) eqn:E2; simpl; try done.
  intros [= <-]. zbool. done.
Qed.

Lemma enqueue_stored kind i payload adm w w' payload' path :
  enqueue kind i payload adm w = (w', payload', Some path) ->
  marker_path i = Ok path
  /\ w_pending w' = <[path := CJson (VDict (marker_data kind i payload'))]> (w_pending w)
  /\ ownable (marker_data kind i payload').
Proof.
  unfold enqueue. destruct (marker_path i) as [q|]; [|done].
  assert (forall pl, (let '(w1, r) := persist q (marker_data kind i pl) w in
      (w1, pl, match r with Ok _ => Some q | Err _ => None end)) = (w', payload', Some path) ->
    q = path /\ pl = payload'
    /\ w_pending w' = <[path := CJson (VDict (marker_data kind i payload'))]> (w_pending w)) as Hst.
  { intros pl. unfold persist. destruct (env_locked E q); [done|]. destruct (env_write E q); [|done].
    intros [= <- <- <-]. done. }
  unfold ownable. intros H.
  destruct (dgetv "session_name" payload) as [| | | |sn| |] eqn:Hsn;
    try (apply Hst in H as (-> & -> & ?); split_and!; [done..|]; intros p0 sn0 root0 [= <-] ?; congruence).
  destruct (py_or _ _) as [| | | |root| |] eqn:Hroot;
    try (apply Hst in H as (-> & -> & ?); split_and!; [done..|]; intros p0 sn0 root0 [= <-] ??; congruence).
  destruct (if truthy _ then _ else _) as [[| | | |token| |]|]; try done.
  destruct (env_resolve E root) as [root'|]; [|done].
  destruct (adm_txn _ _ _ _) as [[]|]; try done.
  apply Hst in H as (-> & <- & ?). split_and!; [done..|]. intros p0 sn0 root0 [= <-] _ _.
  exists token. unfold dgetv, dget_default. by rewrite dget_dset_ne, dget_dset_eq.
Qed.

(** ** Lemmas: identifiers *)

Lemma safe_marker_id_cons c s :
  SAFE_MARKER_ID (String c s) = true <->
  safe_char c = true /\ (s = "" \/ s = newline \/ SAFE_MARKER_ID s = true).
Proof.
  destruct s as [|d s]; [simpl; naive_solver|].
  change (SAFE_MARKER_ID (String c (String d s))) with
    (match s with
     | EmptyString => safe_char c && (Ascii.eqb d "010" || SAFE_MARKER_ID (String d s))
     | _ => safe_char c && SAFE_MARKER_ID (String d s)
     end).
  destruct s as [|e s].
  - rewrite andb_true_iff, orb_true_iff, Ascii.eqb_eq. unfold newline. naive_solver.
  - rewrite andb_true_iff. unfold newline. naive_solver.
Qed.

Lemma safe_marker_id_spec i :
  SAFE_MARKER_ID i = true <->
  exists s, s <> "" /\ Forall (fun c => safe_char c = true) (str_list s)
            /\ (i = s \/ i = s +++ newline).
Proof.
  split.
  - induction i as [|c i IH]; [done|]. intros [Hc Hi]%safe_marker_id_cons.
    destruct Hi as [->|[->|Hi]].
    + exists (String c ""). split_and!; [done|by repeat constructor|by left].
    + exists (String c ""). split_and!; [done|by repeat constructor|by right].
    + destruct (IH Hi) as (s & _ & Hs & Heq). exists (String c s).
      split_and!; [done|by constructor|]. destruct Heq as [->| ->]; [by left|by right].
  - intros (s & Hne & Hs & Heq). revert i Heq. induction s as [|c s IH]; [done|].
    apply Forall_cons in Hs as [Hc Hs]. intros i Heq.
    destruct (decide (s = "")) as [->|Hsn].
    + destruct Heq as [->| ->]; apply safe_marker_id_cons; auto.
    + destruct Heq as [->| ->]; apply safe_marker_id_cons; (split; [done|]); right; right;
        apply IH; auto.
Qed.

(** ** Properties *)


(** A marker written by a newer version survives any number of runs byte for byte,
    whatever the handlers, leases and locks do. *)
Theorem newer_schema_untouched k max_items w x n c :
  quiet -> w_pending w !! n = Some c -> newer c ->
  w_pending (runs k max_items w x).1 !! n = Some c.
Proof.
  intros Hq. revert w x. induction k as [|k IH]; intros w x Hp Hn; simpl; [done|].
  pose proof (process_invariant (fun m => m !! n = Some c) max_items w x) as H1.
  destruct (process_pending_work max_items w x) as [[w1 x1] r]. apply IH; [|done].
  apply H1; [|done]. intros m w0 x0 H0. by apply newer_pending_kept.
Qed.

(** C40: A failing handler is retried a bounded number of times: starting from a count of [a]
    attempts, the marker stays pending with its count going up by one per processing, and the
    processing that reaches [MAX_ATTEMPTS] moves it to failed/, its other fields unchanged. *)
Theorem attempts_bounded n w x d a h :
  open_for n -> env_write E n = true -> env_move E n = true ->
  (forall m x, is_ok (h m x).2 = false) ->
  w_pending w !! n = Some (CJson (VDict d)) -> runnable d a h -> 0 <= a < MAX_ATTEMPTS ->
  (forall j, a + Z.of_nat j < MAX_ATTEMPTS -> exists d',
     w_pending (attempts j n w x).1 !! n = Some (CJson (VDict d'))
     /\ dget "attempt_count" d' = Some (VInt (a + Z.of_nat j)) /\ bumped d d')
  /\ let w' := (attempts (Z.to_nat (MAX_ATTEMPTS - a)) n w x).1 in
     w_pending w' !! n = None
     /\ exists d', w_failed w' !! n = Some (CJson (VDict d')) /\ bumped d d'
          /\ dget "attempt_count" d' = Some (VInt MAX_ATTEMPTS).
Proof.
  intros Hopen Hw Hm Hh. remember (Z.to_nat (MAX_ATTEMPTS - a)) as k eqn:Hk.
  revert a w x d Hk. induction k as [|k IH]; intros a w x d Hk Hp Hrun Ha; [lia|].
  destruct (fail_once n w x d a h Hopen Hw Hm Hh Hp Hrun) as (d' & Hb & Hc & Hstep); [lia|].
  simpl. destruct (_process_single_marker n w x) as [[w1 x1] r] eqn:Hr.
  destruct (Z.leb_spec MAX_ATTEMPTS (a + 1)).
  - destruct Hstep as (_ & Hn & Hf). assert (k = 0)%nat as -> by lia.
    assert (a + 1 = MAX_ATTEMPTS) as Ea by lia. simpl. split.
    + intros j Hj. assert (j = 0)%nat as -> by lia. exists d. rewrite Z.add_0_r.
      split_and!; [done|by apply Hrun|by intros ??].
    + split; [done|]. exists d'. by rewrite <- Ea.
  - destruct (IH (a + 1) w1 x1 d') as [H1 (H2 & d2 & H3 & H4 & H5)];
      [lia|done|by eapply runnable_bumped|lia|]. split.
    + intros [|j] Hj.
      * exists d. rewrite Z.add_0_r. split_and!; [done|by apply Hrun|by intros ??].
      * destruct (H1 j) as (d3 & Hp3 & Hc3 & Hb3); [lia|]. simpl. rewrite Hr. exists d3.
        split_and!; [done|rewrite Hc3; do 2 f_equal; lia|].
        intros q Hq. by rewrite (Hb3 q Hq), (Hb q Hq).
    + split; [done|]. exists d2. split_and!; [done| |done].
      intros q Hq. by rewrite (H4 q Hq), (Hb q Hq).
Qed.

(** C37: The bounded scan is fair. When every other marker is stuck (a newer schema, or its
    lock held elsewhere), the marker [n] is inspected within as many runs as windows of
    [max_items] fit in the queue, whatever its position and wherever the cursor starts. *)
Theorem scan_fair max_items w x n :
  orderly -> env_cursor E = true -> is_ok (env_list E) = true -> w_dir w = true ->
  is_ok (_read_scan_cursor w) = true -> 0 < max_items -> n ∈ list_markers w ->
  (forall m c, m <> n -> w_pending w !! m = Some c -> stuck m c) ->
  exists j, Z.of_nat j * max_items < Z.of_nat (length (list_markers w))
    /\ w_pending (runs j max_items w x).1 = w_pending w
    /\ inspects n max_items (runs j max_items w x).1.
Proof.
  intros Ho Hcur Hlist Hdir Hcok Hmax Hn Hstuck.
  apply list_elem_of_lookup in Hn as [t Ht]. pose proof (lookup_lt_Some _ _ _ Ht) as Htl.
  set (N := Z.of_nat (length (list_markers w))) in *.
  set (k := Z.to_nat ((N - 1) / Z.min max_items N)).
  assert (0 < Z.min max_items N) as Hm by lia.
  pose proof (Z.div_mod (N - 1) (Z.min max_items N)).
  pose proof (Z.mod_pos_bound (N - 1) (Z.min max_items N) Hm).
  assert (0 <= (N - 1) / Z.min max_items N) by (apply Z.div_pos; lia).
  destruct (scan_reaches k max_items w x t n) as (j & Hj & ? & ?); [done..| |].
  - unfold distance. fold N.
    pose proof (Z.mod_pos_bound (Z.of_nat t - Z.of_nat (scan_start (list_markers w) w)) N).
    rewrite Nat2Z.inj_succ. unfold k. rewrite Z2Nat.id by done. nia.
  - exists j. split; [|done]. unfold k in Hj.
    assert (Z.of_nat j <= (N - 1) / Z.min max_items N) as Hj' by lia.
    destruct (decide (max_items <= N)); [rewrite Z.min_l in * by done; nia|].
    rewrite Z.min_r in * by lia. rewrite Z.div_small in Hj' by lia. nia.
Qed.

(** Enqueued work reaches its handler. What [enqueue] writes is a valid marker at the
    marker's path; when the processor is let through to it, the handler of its kind runs once
    on the enqueued payload (with the session instance the admission recorded) and, when it
    succeeds, the marker is deleted. *)
Theorem enqueue_processed kind i payload adm w w1 payload' path h x :
  enqueue kind i payload adm w = (w1, payload', Some path) -> kind <> "" ->
  open_for path -> is_ok (env_unlink E path) = true -> dget kind handlers = Some h ->
  let m := {| mk_schema_version := VInt 1; mk_kind := kind; mk_marker_id := i;
              mk_forge_version := VStr (adm_version Adm); mk_created_at := VStr (env_now E);
              mk_payload := VDict payload'; mk_attempt_count := VInt 0;
              mk_last_attempt_at := VNone; mk_last_error := VNone |} in
  (h m x).2 = Ok tt ->
  path = i +++ ".json"
  /\ exists w2, _process_single_marker path w1 x = (w2, (h m x).1, Ok ODone)
       /\ w_pending w2 = delete path (w_pending w).
Proof.
  intros He Hkind Hopen Hu Hh m Hm. apply enqueue_stored in He as (Hpath & Hp & Hown).
  apply marker_path_ok in Hpath as (-> & Hne & Hsafe). split; [done|].
  set (d := marker_data kind i payload') in *.
  assert (_validate_marker d = None) as Hv.
  { unfold _validate_marker, d. simpl. destruct (String.eqb_spec kind ""); [done|].
    destruct (String.eqb_spec i ""); [done|]. by rewrite Hsafe. }
  rewrite (single_dispatch _ w1 x d Hopen); [|by rewrite Hp, lookup_insert_eq|done..].
  unfold dispatch. rewrite Hv. simpl. rewrite Hh.
  change (mk_marker d kind i) with m. destruct (h m x) as [x' r]. simpl in Hm. subst r.
  unfold unlink_marker. destruct (env_unlink E (i +++ ".json")); [|done].
  eexists. split; [reflexivity|]. simpl. by rewrite Hp, delete_insert_eq.
Qed.

(** The counts account for the scan: processed, skipped, failed and errored markers add
    up to the size of the window, the queue's size bounded by [max_items]. *)
Theorem result_accounts max_items w x w' x' r :
  w_dir w = true -> is_ok (env_list E) = true ->
  process_pending_work max_items w x = (w', x', Ok r) ->
  inspected r = Z.min (Z.max 0 max_items) (Z.of_nat (length (list_markers w))).
Proof.
  intros Hdir Hlist. unfold process_pending_work. rewrite Hdir. destruct (env_list E); [|done]. simpl.
  destruct (list_markers w) as [|m ms] eqn:Hl.
  { intros [= _ _ <-]. unfold inspected. simpl. lia. }
  destruct (_select_scan_window (m :: ms) max_items w) as [window|] eqn:Hw; [|done].
  destruct (scan window w x) as [[w1 x1] [os|]] eqn:Hs; [|done]. intros [= _ _ <-].
  rewrite count_outcomes, (scan_length _ _ _ _ _ _ Hs). unfold inspected. simpl pr_errors. simpl.
  destruct (Z.le_gt_cases max_items 0) as [Hle|Hgt].
  - unfold _select_scan_window in Hw. rewrite (proj2 (Z.leb_le _ _) Hle) in Hw. injection Hw as <-.
    simpl. lia.
  - destruct (is_ok (_read_scan_cursor w)) eqn:Hc.
    + rewrite select_window in Hw by done. injection Hw as <-.
      rewrite length_window_at; simpl length; lia.
    + unfold _select_scan_window in Hw. destruct (Z.leb_spec max_items 0); [lia|]. simpl in Hw.
      by destruct (_read_scan_cursor w).
Qed.

(** A marker whose bytes are not UTF-8 at the head of the scan stops the queue: every run
    raises [UnicodeDecodeError] before any marker is processed and leaves the queue and its
    cursor as they were, so no later marker is ever reached. *)
Theorem undecodable_marker_stops_queue k max_items w x n rest msg :
  quiet -> w_dir w = true -> is_ok (env_list E) = true ->
  _select_scan_window (list_markers w) max_items w = Ok (n :: rest) ->
  w_pending w !! n = Some (CNotUtf8 msg) ->
  (process_pending_work max_items w x).2 = raise UnicodeDecodeError msg
  /\ runs k max_items w x = (w, x).
Proof.
  intros Hq Hdir Hlist Hw Hn.
  assert (process_pending_work max_items w x = (w, x, raise UnicodeDecodeError msg)) as Hrun.
  { unfold process_pending_work. rewrite Hdir. destruct (env_list E); [|done]. simpl.
    destruct (list_markers w) as [|m ms] eqn:Hl.
    { unfold _select_scan_window in Hw. by rewrite orb_true_r in Hw. }
    rewrite Hw. simpl. unfold _process_single_marker. rewrite (proj1 Hq), Hn. simpl.
    by destruct (_process_locked_marker n None w x) as [[] ?]. }
  rewrite Hrun. split; [done|]. induction k as [|k IH]; simpl; [done|]. by rewrite Hrun.
Qed.

(** A marker path stays in the queue directory: the accepted identifiers are exactly the
    nonempty strings of letters, digits, dots, underscores and hyphens, optionally followed by
    one newline, and the path is the identifier with the [.json] suffix and holds no slash. *)
Theorem marker_path_contained i :
  (is_ok (marker_path i) = true <->
     exists s, s <> "" /\ Forall (fun c => safe_char c = true) (str_list s)
               /\ (i = s \/ i = s +++ newline))
  /\ forall p, marker_path i = Ok p -> p = i +++ ".json" /\ "/"%char ∉ str_list p.
Proof.
  assert (is_ok (marker_path i) = true <-> SAFE_MARKER_ID i = true) as Hok.
  { unfold marker_path. destruct i; [done|]. simpl String.eqb. cbn [orb].
    by destruct (SAFE_MARKER_ID _). }
  rewrite Hok, safe_marker_id_spec. split; [done|]. intros p Hp.
  destruct (marker_path_ok i p Hp) as (-> & _ & Hs). split; [done|].
  apply safe_marker_id_spec in Hs as (s & _ & Hall & Hi). rewrite str_list_app.
  assert ("/"%char ∉ str_list s) as Hn.
  { intros Hin. rewrite Forall_forall in Hall. by apply Hall in Hin. }
  destruct Hi as [->| ->]; rewrite ?str_list_app, !elem_of_app; simpl; set_solver.
Qed.
End queue.

(** ** The theorems at work *)

Module QueueSample.
Definition env0 : Env := {|
  env_arrive := fun _ w => w; env_race := fun _ w => w; env_locked := fun _ => false;
  env_lease := fun _ _ _ => Ok tt; env_release := fun _ => Ok tt; env_resolve := fun r => Ok r;
  env_unlink := fun _ => Ok tt; env_move := fun _ => true; env_write := fun _ => true;
  env_cursor := true; env_list := Ok tt; env_now := "t" |}.

Definition adm0 : Admission := {|
  adm_capture := fun _ _ => Ok "tok"; adm_txn := fun _ _ _ => Ok true; adm_version := "1.0";
  adm_origin := None |}.

(** The handlers log what they ran on; ["bad"] always raises. *)
Definition good (m : Marker) (x : list string) : list string * res unit :=
  (x ++ [mk_marker_id m], Ok tt).
Definition bad (m : Marker) (x : list string) : list string * res unit :=
  (x, raise HandlerError "boom").
Definition handlers0 : list (string * handler) := [("stop", good); ("bad", bad)].
Definition str0 (_ : value) : string := "?".

Definition work (kind i : string) (n : Z) : dict := [
  ("schema_version", VInt 1); ("kind", VStr kind); ("marker_id", VStr i);
  ("payload", VDict []); ("attempt_count", VInt n)].
Definition newer_marker : content := CJson (VDict [("schema_version", VInt 2)]).

Definition world_of (m : gmap string content) : world :=
  {| w_dir := true; w_pending := m; w_failed := ∅; w_cursor := None; w_warned := false |}.
Definition queue3 : world := world_of
  {[ "a.json" := newer_marker; "b.json" := newer_marker; "c.json" := CJson (VDict (work "stop" "c" 0)) ]}.

Lemma quiet0 : quiet env0.
Proof. split; reflexivity. Defined.

Lemma open0 n : open_for env0 n.
Proof. split; try reflexivity. exact quiet0. Defined.

Lemma newer0 : newer newer_marker.
Proof. exists [("schema_version", VInt 2)], 2. split_and!; [reflexivity..|unfold MARKER_SCHEMA_VERSION; lia]. Defined.


Lemma newer_schema_witness :
  w_pending (runs str0 handlers0 env0 7 2 queue3 []).1 !! "b.json" = Some newer_marker.
Proof.
  apply newer_schema_untouched; [exact quiet0|vm_compute; reflexivity|exact newer0].
Defined.

Lemma attempts_bounded_witness :
  let w' := (attempts str0 handlers0 env0 3 "d.json" (world_of {[ "d.json" := CJson (VDict (work "bad" "d" 2)) ]}) []).1 in
  w_pending w' !! "d.json" = None.
Proof.
  apply (attempts_bounded str0 handlers0 env0 "d.json"
    (world_of {[ "d.json" := CJson (VDict (work "bad" "d" 2)) ]}) [] (work "bad" "d" 2) 2 bad).
  - apply open0.
  - reflexivity.
  - reflexivity.
  - reflexivity.
  - vm_compute. reflexivity.
  - split; [reflexivity| |exists "bad"; split; reflexivity|reflexivity].
    intros p sn root H. vm_compute in H. injection H as <-. discriminate.
  - unfold MAX_ATTEMPTS. lia.
Defined.

Lemma scan_fair_witness :
  exists j, Z.of_nat j * 1 < 3
    /\ inspects "c.json" 1 (runs str0 handlers0 env0 j 1 queue3 []).1.
Proof.
  destruct (scan_fair str0 handlers0 env0 1 queue3 [] "c.json") as (j & Hj & _ & Hin).
  - split; [exact quiet0|discriminate|reflexivity|reflexivity].
  - reflexivity.
  - reflexivity.
  - reflexivity.
  - reflexivity.
  - lia.
  - apply (bool_decide_unpack _). vm_compute. exact I.
  - intros m c Hm Hc. left. unfold queue3, world_of in Hc. simpl in Hc.
    apply lookup_insert_Some in Hc as [[_ <-]|[_ Hc]]; [exact newer0|].
    apply lookup_insert_Some in Hc as [[_ <-]|[_ Hc]]; [exact newer0|].
    apply lookup_singleton_Some in Hc as [He _]. by destruct Hm.
  - exists j. split; [|exact Hin]. vm_compute list_markers in Hj. exact Hj.
Defined.

Lemma enqueue_processed_witness :
  let payload := [("session_name", VStr "s"); ("worktree_path", VStr "/w")] in
  let w := (enqueue env0 adm0 "stop" "id-1" payload None (world_of ∅)).1.1 in
  exists w2, _process_single_marker str0 handlers0 env0 "id-1.json" w [] = (w2, ["id-1"], Ok ODone)
    /\ w_pending w2 = delete "id-1.json" ∅.
Proof.
  intros payload w.
  apply (enqueue_processed str0 handlers0 env0 adm0 "stop" "id-1" payload None (world_of ∅) w
    (enqueue env0 adm0 "stop" "id-1" payload None (world_of ∅)).1.2 "id-1.json" good []).
  - reflexivity.
  - discriminate.
  - apply open0.
  - reflexivity.
  - reflexivity.
  - reflexivity.
Defined.

Lemma result_accounts_witness :
  exists w' x' r, process_pending_work str0 handlers0 env0 2 queue3 [] = (w', x', Ok r)
    /\ inspected r = 2.
Proof.
  eexists _, _, _. split; [vm_compute; reflexivity|].
  refine (eq_trans (result_accounts str0 handlers0 env0 2 queue3 [] _ _ _ eq_refl eq_refl _) _);
    vm_compute; reflexivity.
Defined.

Lemma undecodable_marker_witness :
  let w := world_of {[ "a.json" := CNotUtf8 "bad byte"; "c.json" := CJson (VDict (work "stop" "c" 0)) ]} in
  runs str0 handlers0 env0 9 25 w [] = (w, []).
Proof.
  intros w. apply (undecodable_marker_stops_queue str0 handlers0 env0 9 25 w [] "a.json" ["c.json"] "bad byte").
  - exact quiet0.
  - reflexivity.
  - reflexivity.
  - vm_compute. reflexivity.
  - vm_compute. reflexivity.
Defined.

Lemma marker_path_witness : "/"%char ∉ str_list "idx-1.json".
Proof. apply (marker_path_contained "idx-1"). reflexivity. Defined.
End QueueSample.
