(* ===== verification/CostTracker.v ===== *)
(** * CostTracker: spend caps of the proxy

    [src/forge/proxy/cost_tracker.py] with the cap state of
    [src/forge/core/telemetry/caps.py]. Timestamps are integers of microseconds, money is
    integer microdollars as in the code. The calendar, the text parsers of the language and
    the snapshot sink are arguments; one operation happens at one instant. *)

From S2P Require Import Prelude PyValue.
From Stdlib Require Import SpecFloat.

Definition _24H_SECONDS : Z := 86400.
Definition micros (s : Z) : Z := s * 1000000.
Definition _CAP_STATE_PERSIST_EVERY_RECORDS : Z := 10.
Definition _CAP_STATE_PERSIST_INTERVAL_SECONDS : Z := 5.

(** [int(f)] on a float. *)
Definition int_of_float (f : spec_float) : res Z :=
  match f with
  | S754_zero _ => Ok 0
  | S754_infinity _ => raise OverflowError "cannot convert float infinity to integer"
  | S754_nan => raise ValueError "cannot convert float NaN to integer"
  | S754_finite s m e =>
      let n := if 0 <=? e then Z.pos m * 2 ^ e else Z.pos m / 2 ^ (- e) in
      Ok (if s then - n else n)
  end.

(** [int(cap * _MICROS_PER_DOLLAR)]. *)
Definition cap_micros (cap : spec_float) : res Z :=
  int_of_float (SFmul 53 1024 cap (S754_finite false 1000000 0)).

Record CapResult := {
  cr_exceeded : bool;
  cr_cap_type : option string;
  cr_current : Z;
  cr_limit : Z;
}.

Definition not_exceeded : CapResult :=
  {| cr_exceeded := false; cr_cap_type := None; cr_current := 0; cr_limit := 0 |}.

(** [CapState]; [updated_at] is left out. *)
Record CapState := {
  cs_proxy_id : string;
  cs_monthly_key : string;
  cs_monthly_total : Z;
  cs_daily_window : list (Z * Z);
}.

Record _ParsedCostRecord := {
  cost_ts : Z;
  cost_micros : Z;
  cost_month : string;
  cost_proxy_id : option string;
  cost_event_id : option string;
}.

(** The tracker. [ct_pending] holds the number of a queued snapshot. *)
Record CostTracker := {
  ct_daily_cap : option Z;
  ct_monthly_cap : option Z;
  ct_on_cap_hit : string;
  ct_window : list (Z * Z);
  ct_monthly_total : Z;
  ct_monthly_key : string;
  ct_proxy_id : option string;
  ct_dirty : Z;
  ct_last_persisted : Z;
  ct_has_persister : bool;
  ct_pending : option nat;
  ct_pending_count : Z;
  ct_retry : bool;
}.

(** What one operation meets: the clocks, the outcome of a synchronous write, what the
    snapshot sink answers (a future, nothing, or an exception) and the state of a queued one:
    unfinished, or finished with a result. *)
Record Instant := {
  at_now : Z;
  at_mono : Z;
  at_write : res unit;
  at_submit : res (option nat);
  at_future : nat -> option (res bool);
}.

(** A cost log file: its stem, the lines read and the error that ended the reading. *)
Record LogFile := { lf_stem : string; lf_lines : list (option dict); lf_error : option pyexn }.

Definition sum_costs (w : list (Z * Z)) : Z := fold_right (fun p s => p.2 + s) 0 w.

Section tracker.
(** [datetime.fromtimestamp(t, utc)]: year and month; [try_parse_iso]; [int(s)] on text. *)
Variable utc : Z -> Z * Z.
Variable parse_iso : value -> option Z.
Variable int_of_str : string -> res Z.

(** [strftime("%Y-%m")]. *)
Definition month_text (ym : Z * Z) : string :=
  pretty ym.1 +++ "-" +++ (if ym.2 <? 10 then "0" else "") +++ pretty ym.2.
Definition month_key (t : Z) : string := month_text (utc t).

Definition prev_month (t : Z) : string :=
  let '(y, m) := utc t in
  if m =? 1 then pretty (y - 1) +++ "-12" else month_text (y, m - 1).

Definition py_int (v : value) : res Z :=
  match v with
  | VInt z => Ok z
  | VBool b => Ok (Z.b2z b)
  | VFloat f => int_of_float f
  | VStr s => int_of_str s
  | _ => raise TypeError ("int() argument must be a string, a bytes-like object or a real number, not '"
                          +++ type_name v +++ "'")
  end.

(** ** Construction *)

Definition opt_cap (c : option spec_float) : res (option Z) :=
  match c with Some f => Some <$> cap_micros f | None => Ok None end.

Definition new_tracker (daily monthly : option spec_float) (on_cap_hit : string) (persister : bool)
    : res CostTracker :=
  d ← opt_cap daily;
  m ← opt_cap monthly;
  Ok {| ct_daily_cap := d; ct_monthly_cap := m; ct_on_cap_hit := on_cap_hit; ct_window := [];
        ct_monthly_total := 0; ct_monthly_key := ""; ct_proxy_id := None; ct_dirty := 0;
        ct_last_persisted := 0; ct_has_persister := persister; ct_pending := None;
        ct_pending_count := 0; ct_retry := false |}.

Definition has_caps (t : CostTracker) : bool :=
  match ct_daily_cap t, ct_monthly_cap t with None, None => false | _, _ => true end.

(** ** Updates of the attributes *)

Definition set_window (w : list (Z * Z)) (t : CostTracker) : CostTracker := {|
  ct_daily_cap := ct_daily_cap t; ct_monthly_cap := ct_monthly_cap t;
  ct_on_cap_hit := ct_on_cap_hit t; ct_window := w; ct_monthly_total := ct_monthly_total t;
  ct_monthly_key := ct_monthly_key t; ct_proxy_id := ct_proxy_id t; ct_dirty := ct_dirty t;
  ct_last_persisted := ct_last_persisted t; ct_has_persister := ct_has_persister t;
  ct_pending := ct_pending t; ct_pending_count := ct_pending_count t; ct_retry := ct_retry t |}.

Definition set_month (key : string) (total : Z) (t : CostTracker) : CostTracker := {|
  ct_daily_cap := ct_daily_cap t; ct_monthly_cap := ct_monthly_cap t;
  ct_on_cap_hit := ct_on_cap_hit t; ct_window := ct_window t; ct_monthly_total := total;
  ct_monthly_key := key; ct_proxy_id := ct_proxy_id t; ct_dirty := ct_dirty t;
  ct_last_persisted := ct_last_persisted t; ct_has_persister := ct_has_persister t;
  ct_pending := ct_pending t; ct_pending_count := ct_pending_count t; ct_retry := ct_retry t |}.

Definition set_proxy (p : option string) (t : CostTracker) : CostTracker := {|
  ct_daily_cap := ct_daily_cap t; ct_monthly_cap := ct_monthly_cap t;
  ct_on_cap_hit := ct_on_cap_hit t; ct_window := ct_window t;
  ct_monthly_total := ct_monthly_total t; ct_monthly_key := ct_monthly_key t; ct_proxy_id := p;
  ct_dirty := ct_dirty t; ct_last_persisted := ct_last_persisted t;
  ct_has_persister := ct_has_persister t; ct_pending := ct_pending t;
  ct_pending_count := ct_pending_count t; ct_retry := ct_retry t |}.

(** The persistence attributes: dirty, last, pending, pending count, retry. *)
Definition set_persist (dirty last : Z) (pending : option nat) (count : Z) (retry : bool)
    (t : CostTracker) : CostTracker := {|
  ct_daily_cap := ct_daily_cap t; ct_monthly_cap := ct_monthly_cap t;
  ct_on_cap_hit := ct_on_cap_hit t; ct_window := ct_window t;
  ct_monthly_total := ct_monthly_total t; ct_monthly_key := ct_monthly_key t;
  ct_proxy_id := ct_proxy_id t; ct_dirty := dirty; ct_last_persisted := last;
  ct_has_persister := ct_has_persister t; ct_pending := pending; ct_pending_count := count;
  ct_retry := retry |}.

Definition set_cap_state_persister (p : bool) (t : CostTracker) : CostTracker := {|
  ct_daily_cap := ct_daily_cap t; ct_monthly_cap := ct_monthly_cap t;
  ct_on_cap_hit := ct_on_cap_hit t; ct_window := ct_window t;
  ct_monthly_total := ct_monthly_total t; ct_monthly_key := ct_monthly_key t;
  ct_proxy_id := ct_proxy_id t; ct_dirty := ct_dirty t; ct_last_persisted := ct_last_persisted t;
  ct_has_persister := p; ct_pending := ct_pending t; ct_pending_count := ct_pending_count t;
  ct_retry := ct_retry t |}.

(** ** The rolling window and the month *)

Definition cutoff (now : Z) : Z := now - micros _24H_SECONDS.

(** [while window and window[0][0] < cutoff: window.popleft()]. *)
Fixpoint drop_old (c : Z) (w : list (Z * Z)) : list (Z * Z) :=
  match w with
  | [] => []
  | (ts, cost) :: w' => if ts <? c then drop_old c w' else w
  end.

Definition _prune_daily_window (now : Z) (t : CostTracker) : CostTracker :=
  set_window (drop_old (cutoff now) (ct_window t)) t.

Definition daily_spend_micros (now : Z) (t : CostTracker) : CostTracker * Z :=
  let t := _prune_daily_window now t in (t, sum_costs (ct_window t)).

Definition _roll_month_if_needed (now : Z) (t : CostTracker) : CostTracker :=
  if String.eqb (month_key now) (ct_monthly_key t) then t else set_month (month_key now) 0 t.

Definition monthly_spend_micros (now : Z) (t : CostTracker) : CostTracker * Z :=
  let t := _roll_month_if_needed now t in (t, ct_monthly_total t).

(** ** Cap checks *)

Definition over_cap (kind : string) (current limit : Z) : CapResult :=
  {| cr_exceeded := true; cr_cap_type := Some kind; cr_current := current; cr_limit := limit |}.

Definition check_cap (now : Z) (t : CostTracker) : CostTracker * CapResult :=
  if negb (has_caps t) then (t, not_exceeded)
  else
    let '(t, daily_hit) :=
      match ct_daily_cap t with
      | Some limit =>
          let '(t, daily) := daily_spend_micros now t in
          (t, if limit <=? daily then Some (over_cap "daily" daily limit) else None)
      | None => (t, None)
      end in
    match daily_hit with
    | Some r => (t, r)
    | None =>
        match ct_monthly_cap t with
        | Some limit =>
            let '(t, monthly) := monthly_spend_micros now t in
            (t, if limit <=? monthly then over_cap "monthly" monthly limit else not_exceeded)
        | None => (t, not_exceeded)
        end
    end.

(** ** Persistence: the tracker and the snapshot written or queued *)

Definition snapshot (p : string) (t : CostTracker) : CapState := {|
  cs_proxy_id := p; cs_monthly_key := ct_monthly_key t; cs_monthly_total := ct_monthly_total t;
  cs_daily_window := ct_window t |}.

Definition _acknowledge_cap_persist (i : Instant) (t : CostTracker) : CostTracker :=
  match ct_pending t with
  | None => t
  | Some f =>
      match at_future i f with
      | None => t
      | Some r =>
          match r with
          | Ok true =>
              let dirty := Z.max 0 (ct_dirty t - ct_pending_count t) in
              set_persist dirty (if dirty =? 0 then at_mono i else ct_last_persisted t) None 0 false t
          | _ => set_persist (ct_dirty t) (ct_last_persisted t) None 0 true t
          end
      end
  end.

Definition _persist_cap_state (i : Instant) (t : CostTracker) : CostTracker * option CapState :=
  match ct_proxy_id t with
  | None => (t, None)
  | Some p =>
      if String.eqb p "" then (t, None)
      else
        let t := _acknowledge_cap_persist i t in
        match ct_pending t with
        | Some _ => (t, None)
        | None =>
            let t := _prune_daily_window (at_now i) t in
            let s := snapshot p t in
            if ct_has_persister t then
              match at_submit i with
              | Ok (Some f) =>
                  (set_persist (ct_dirty t) (ct_last_persisted t) (Some f) (ct_dirty t) (ct_retry t) t,
                   Some s)
              | Ok None | Err _ =>
                  (set_persist (ct_dirty t) (ct_last_persisted t) None (ct_pending_count t) true t, None)
              end
            else
              match at_write i with
              | Ok _ => (set_persist 0 (at_mono i) None (ct_pending_count t) false t, Some s)
              | Err _ =>
                  (set_persist (ct_dirty t) (ct_last_persisted t) None (ct_pending_count t) true t, None)
              end
        end
  end.

Definition _maybe_persist_cap_state (i : Instant) (t : CostTracker) : CostTracker * option CapState :=
  match ct_proxy_id t with
  | None => (t, None)
  | Some p =>
      if String.eqb p "" then (t, None)
      else
        let t := _acknowledge_cap_persist i t in
        let t := set_persist (ct_dirty t + 1) (ct_last_persisted t) (ct_pending t)
                   (ct_pending_count t) (ct_retry t) t in
        if ct_retry t || (_CAP_STATE_PERSIST_EVERY_RECORDS <=? ct_dirty t)
           || (micros _CAP_STATE_PERSIST_INTERVAL_SECONDS <=? at_mono i - ct_last_persisted t)
        then _persist_cap_state i t else (t, None)
  end.

Definition flush_cap_state (i : Instant) (t : CostTracker) : CostTracker * option CapState :=
  let t := _acknowledge_cap_persist i t in
  if (0 <? ct_dirty t) || ct_retry t then _persist_cap_state i t else (t, None).

Definition record (i : Instant) (cost : option Z) (t : CostTracker) : CostTracker * option CapState :=
  match cost with
  | None => (t, None)
  | Some c =>
      if c <=? 0 then (t, None)
      else
        let t := _roll_month_if_needed (at_now i) t in
        let t := set_month (ct_monthly_key t) (ct_monthly_total t + c) t in
        let t := set_window (ct_window t ++ [(at_now i, c)]) t in
        _maybe_persist_cap_state i t
  end.

(** ** Bootstrap from the logs *)

(** [_parse_record] on a decoded line; an exception skips the line. *)
Definition _parse_record (line : option dict) : res (option _ParsedCostRecord) :=
  match line with
  | None => Ok None
  | Some data =>
      match dget_default "cost_micros" VNone data with
      | VNone => Ok None
      | raw =>
          c ← py_int raw;
          if c <=? 0 then Ok None
          else match parse_iso (dget_default "ts" (VStr "") data) with
          | None => Ok None
          | Some ts =>
              Ok (Some {|
                cost_ts := ts; cost_micros := c; cost_month := month_key ts;
                cost_proxy_id := as_str (dget_default "proxy_id" VNone data);
                cost_event_id :=
                  match as_str (dget_default "downstream_event_id" VNone data) with
                  | Some e => if String.eqb e "" then None else Some e
                  | None => None
                  end |})
          end
      end
  end.

(** One line of the scan: unkeyed records accumulate, keyed ones are kept once per event. *)
Definition read_line (proxy_id : option string)
    (acc : list _ParsedCostRecord * list (string * _ParsedCostRecord)) (line : option dict)
    : list _ParsedCostRecord * list (string * _ParsedCostRecord) :=
  match _parse_record line with
  | Ok (Some r) =>
      if match proxy_id with
         | Some p => bool_decide (cost_proxy_id r = Some p)
         | None => true
         end
      then match cost_event_id r with
           | Some e => (acc.1, dset e r acc.2)
           | None => (acc.1 ++ [r], acc.2)
           end
      else acc
  | _ => acc
  end.

Definition file_month (stem : string) : string := (split_once "_" stem).1.

Fixpoint read_logs (proxy_id : option string) (months : list string) (files : list LogFile)
    (acc : list _ParsedCostRecord * list (string * _ParsedCostRecord))
    : res (list _ParsedCostRecord * list (string * _ParsedCostRecord)) :=
  match files with
  | [] => Ok acc
  | f :: files =>
      if bool_decide (file_month (lf_stem f) ∈ months) then
        let acc := fold_left (read_line proxy_id) (lf_lines f) acc in
        match lf_error f with
        | None => read_logs proxy_id months files acc
        | Some e =>
            if bool_decide (exn_cls e ∈ [OSError; FileNotFoundError])
            then read_logs proxy_id months files acc else Err e
        end
      else read_logs proxy_id months files acc
  end.

Definition in_window (now : Z) (w : list (Z * Z)) : list (Z * Z) :=
  List.filter (fun p => cutoff now <=? p.1) w.

Definition log_window (now : Z) (rs : list _ParsedCostRecord) : list (Z * Z) :=
  in_window now (map (fun r => (cost_ts r, cost_micros r)) rs).

Definition log_monthly (now : Z) (rs : list _ParsedCostRecord) : Z :=
  fold_right (fun r s => (if String.eqb (cost_month r) (month_key now) then cost_micros r else 0) + s)
    0 rs.

(** The saved state, when there is a proxy and the file could be read. *)
Definition usable_state (proxy_id : option string) (load : res (option CapState)) : option CapState :=
  match proxy_id with
  | Some p => if String.eqb p "" then None else match load with Ok s => s | Err _ => None end
  | None => None
  end.

(** [load]: the outcome of [load_cap_state(proxy_id)]. *)
Definition bootstrap_from_logs (i : Instant) (files : list LogFile) (load : res (option CapState))
    (proxy_id : option string) (t : CostTracker) : CostTracker * res (option CapState) :=
  let now := at_now i in
  let t := set_month (month_key now) (ct_monthly_total t) (set_proxy proxy_id t) in
  match read_logs proxy_id [month_key now; prev_month now] files ([], []) with
  | Err e => (t, Err e)
  | Ok (unkeyed, keyed) =>
      let records := unkeyed ++ map snd keyed in
      let log_daily := log_window now records in
      let state := usable_state proxy_id load in
      let state_month :=
        match state with
        | Some s => if String.eqb (cs_monthly_key s) (month_key now) then cs_monthly_total s else 0
        | None => 0
        end in
      let state_daily := match state with Some s => in_window now (cs_daily_window s) | None => [] end in
      let t := set_month (ct_monthly_key t) (Z.max (log_monthly now records) state_month) t in
      let t := set_window (if sum_costs log_daily <? sum_costs state_daily
                           then state_daily else log_daily) t in
      let '(t, s) := _persist_cap_state i t in (t, Ok s)
  end.

(** ** Specification: histories of operations *)

Inductive cap_op :=
| OpRecord (cost : option Z)
| OpCheck
| OpDaily
| OpMonthly
| OpFlush.

Definition apply_op (i : Instant) (op : cap_op) (t : CostTracker) : CostTracker :=
  match op with
  | OpRecord c => (record i c t).1
  | OpCheck => (check_cap (at_now i) t).1
  | OpDaily => (daily_spend_micros (at_now i) t).1
  | OpMonthly => (monthly_spend_micros (at_now i) t).1
  | OpFlush => (flush_cap_state i t).1
  end.

(** The spend an operation adds. *)
Definition op_events (i : Instant) (op : cap_op) : list (Z * Z) :=
  match op with
  | OpRecord (Some c) => if c <=? 0 then [] else [(at_now i, c)]
  | _ => []
  end.

(** [history t0 s0 now evs t]: operations at nondecreasing times from [t0] at time [s0], the
    last at [now], recorded the events [evs] and led to [t]. *)
Inductive history (t0 : CostTracker) (s0 : Z) : Z -> list (Z * Z) -> CostTracker -> Prop :=
| history_start : history t0 s0 s0 [] t0
| history_op now evs t i op :
    history t0 s0 now evs t -> now <= at_now i ->
    history t0 s0 (at_now i) (evs ++ op_events i op) (apply_op i op t).

(** The spend of [evs] in the 24 hours before [now], and in [now]'s month. *)
Definition spent_24h (now : Z) (evs : list (Z * Z)) : Z := sum_costs (in_window now evs).
Definition spent_month (now : Z) (evs : list (Z * Z)) : Z :=
  sum_costs (List.filter (fun p => String.eqb (month_key p.1) (month_key now)) evs).

(** A month is an interval of time: the calendar's property the totals rely on. *)
Definition calendar_months : Prop :=
  forall a b c, a <= b -> b <= c -> month_key a = month_key c -> month_key b = month_key a.

Definition by_time (a b : Z * Z) : Prop := a.1 <= b.1.

(** A tracker as the bootstrap leaves it at time [s0]. *)
Record started (s0 : Z) (t : CostTracker) : Prop := {
  st_key : ct_monthly_key t = month_key s0;
  st_costs : Forall (fun p => 0 <= p.2) (ct_window t);
}.

(** ** Lemmas: the window *)

Lemma sum_costs_app a b : sum_costs (a ++ b) = sum_costs a + sum_costs b.
Proof. induction a as [|p a IH]; simpl; [done|]. rewrite IH. lia. Qed.

Lemma in_window_app now a b : in_window now (a ++ b) = in_window now a ++ in_window now b.
Proof. apply List.filter_app. Qed.

Lemma in_window_old now w : Forall (fun p => p.1 < cutoff now) w -> in_window now w = [].
Proof.
  unfold in_window. induction 1 as [|p w Hp _ IH]; simpl; [done|].
  destruct (Z.leb_spec (cutoff now) p.1); [lia|done].
Qed.

Lemma drop_old_split c w :
  exists d, w = d ++ drop_old c w /\ Forall (fun p => p.1 < c) d.
Proof.
  induction w as [|[ts k] w (d & Hw & Hd)]; simpl; [by exists []|].
  destruct (Z.ltb_spec ts c); [|by exists []].
  exists ((ts, k) :: d). simpl. rewrite <- Hw. split; [done|by constructor].
Qed.

Lemma drop_old_sorted now w :
  StronglySorted by_time w -> drop_old (cutoff now) w = in_window now w.
Proof.
  unfold in_window. induction 1 as [|[ts k] w Hs IH Hall]; simpl; [done|].
  destruct (Z.ltb_spec ts (cutoff now)), (Z.leb_spec (cutoff now) ts); try lia; [done|].
  f_equal. clear IH. symmetry. rewrite Forall_forall in Hall.
  assert (forall l, (forall p, p ∈ l -> ts <= p.1) ->
    List.filter (fun p : Z * Z => cutoff now <=? p.1) l = l) as Hall'.
  { induction l as [|p l IHl]; simpl; intros Hl; [done|].
    destruct (Z.leb_spec (cutoff now) p.1) as [|Hp].
    - f_equal. apply IHl. intros q Hq. apply Hl. by right.
    - specialize (Hl p ltac:(left)). lia. }
  apply Hall'. intros p Hp. by apply Hall in Hp.
Qed.

Lemma sum_costs_nonneg w : Forall (fun p => 0 <= p.2) w -> 0 <= sum_costs w.
Proof. induction 1; simpl; lia. Qed.

Lemma in_window_le now w : Forall (fun p => 0 <= p.2) w -> sum_costs (in_window now w) <= sum_costs w.
Proof.
  unfold in_window. induction 1 as [|p w Hp _ IH]; simpl; [lia|].
  destruct (cutoff now <=? p.1); simpl; lia.
Qed.

(** ** Lemmas: what persistence changes *)

(** The spend a tracker holds: everything but the persistence attributes. *)
Definition spend_of (t : CostTracker) : list (Z * Z) * Z * string * option Z * option Z :=
  (ct_window t, ct_monthly_total t, ct_monthly_key t, ct_daily_cap t, ct_monthly_cap t).

Lemma acknowledge_spend i t : spend_of (_acknowledge_cap_persist i t) = spend_of t.
Proof. unfold _acknowledge_cap_persist. repeat (case_match; simpl; try done). Qed.

(** Persisting may prune the window, and changes no other spend. *)
Lemma persist_spend i t :
  let t' := (_persist_cap_state i t).1 in
  (ct_window t' = ct_window t \/ ct_window t' = drop_old (cutoff (at_now i)) (ct_window t))
  /\ ct_monthly_total t' = ct_monthly_total t /\ ct_monthly_key t' = ct_monthly_key t
  /\ ct_daily_cap t' = ct_daily_cap t /\ ct_monthly_cap t' = ct_monthly_cap t.
Proof.
  unfold _persist_cap_state. destruct (ct_proxy_id t) as [p|]; [|by auto].
  destruct (String.eqb p ""); [by auto|].
  pose proof (acknowledge_spend i t) as Ha. unfold spend_of in Ha. injection Ha as H1 H2 H3 H4 H5.
  destruct (ct_pending _); [by simpl; rewrite H1, H2, H3, H4, H5; auto|].
  destruct (ct_has_persister _).
  - destruct (at_submit i) as [[f|]|]; simpl; rewrite H1, H2, H3, H4, H5; auto.
  - destruct (at_write i); simpl; rewrite H1, H2, H3, H4, H5; auto.
Qed.

Lemma maybe_persist_spend i t :
  let t' := (_maybe_persist_cap_state i t).1 in
  (ct_window t' = ct_window t \/ ct_window t' = drop_old (cutoff (at_now i)) (ct_window t))
  /\ ct_monthly_total t' = ct_monthly_total t /\ ct_monthly_key t' = ct_monthly_key t
  /\ ct_daily_cap t' = ct_daily_cap t /\ ct_monthly_cap t' = ct_monthly_cap t.
Proof.
  unfold _maybe_persist_cap_state. destruct (ct_proxy_id t) as [p|]; [|by auto].
  destruct (String.eqb p ""); [by auto|].
  pose proof (acknowledge_spend i t) as Ha. unfold spend_of in Ha. injection Ha as H1 H2 H3 H4 H5.
  set (t1 := set_persist _ _ _ _ _ _).
  assert (ct_window t1 = ct_window t /\ ct_monthly_total t1 = ct_monthly_total t
          /\ ct_monthly_key t1 = ct_monthly_key t /\ ct_daily_cap t1 = ct_daily_cap t
          /\ ct_monthly_cap t1 = ct_monthly_cap t) as (E1 & E2 & E3 & E4 & E5) by done.
  destruct (_ || _ || _); [|split; [by left|done]].
  destruct (persist_spend i t1) as (Hw & -> & -> & -> & ->). rewrite <- E1. auto.
Qed.

(** The state of a history: the window is what the events leave after old ones are dropped
    from its head, and the total is the month's. *)
Record tracks (t0 : CostTracker) (s0 now : Z) (evs : list (Z * Z)) (t : CostTracker) : Prop := {
  tr_time : s0 <= now;
  tr_window : exists d, ct_window t0 ++ evs = d ++ ct_window t
                        /\ Forall (fun p => p.1 < cutoff now) d;
  tr_past : Forall (fun p => s0 <= p.1 /\ p.1 <= now) evs;
  tr_sorted : StronglySorted by_time evs;
  tr_costs : Forall (fun p => 0 < p.2) evs;
  tr_key : exists b, s0 <= b <= now /\ ct_monthly_key t = month_key b
           /\ Forall (fun p => p.1 <= b) evs;
  tr_total : ct_monthly_total t =
    (if String.eqb (month_key s0) (ct_monthly_key t) then ct_monthly_total t0 else 0)
    + sum_costs (List.filter (fun p => String.eqb (month_key p.1) (ct_monthly_key t)) evs);
  tr_caps : ct_daily_cap t = ct_daily_cap t0 /\ ct_monthly_cap t = ct_monthly_cap t0;
}.

Lemma tracks_time t0 s0 now now' evs t :
  tracks t0 s0 now evs t -> now <= now' -> tracks t0 s0 now' evs t.
Proof.
  intros [H1 (d & Hd & Hold) H3 H4 H5 (b & Hb & Hk & Hle) H7 H8] Hn. split; try done; [lia| | |].
  - exists d. split; [done|]. eapply Forall_impl; [exact Hold|]. unfold cutoff. simpl. lia.
  - eapply Forall_impl; [exact H3|]. simpl. lia.
  - exists b. split; [lia|done].
Qed.

(** Dropping old entries from the head keeps the tracker in step. *)
Lemma tracks_prune t0 s0 now evs t t' :
  tracks t0 s0 now evs t ->
  ct_window t' = ct_window t \/ ct_window t' = drop_old (cutoff now) (ct_window t) ->
  ct_monthly_total t' = ct_monthly_total t -> ct_monthly_key t' = ct_monthly_key t ->
  ct_daily_cap t' = ct_daily_cap t -> ct_monthly_cap t' = ct_monthly_cap t ->
  tracks t0 s0 now evs t'.
Proof.
  intros [H1 (d & Hd & Hold) H3 H4 H5 H6 H7 H8] Hw Et Ek E1 E2.
  split; try done; rewrite ?Et, ?Ek, ?E1, ?E2; try done.
  destruct Hw as [->| ->]; [by exists d|].
  destruct (drop_old_split (cutoff now) (ct_window t)) as (d' & Hd' & Hold').
  exists (d ++ d'). rewrite <- app_assoc, <- Hd'. split; [done|]. by apply Forall_app.
Qed.

Lemma list_filter_none (P : Z * Z -> bool) (l : list (Z * Z)) :
  Forall (fun p => P p = false) l -> List.filter P l = [].
Proof. induction 1 as [|p l Hp _ IH]; simpl; [done|]. by rewrite Hp. Qed.

Lemma tracks_roll t0 s0 now evs t :
  calendar_months -> tracks t0 s0 now evs t ->
  tracks t0 s0 now evs (_roll_month_if_needed now t).
Proof.
  intros Hcal [H1 H2 H3 H4 H5 (b & Hb & Hk & Hle) H7 H8]. unfold _roll_month_if_needed.
  destruct (String.eqb_spec (month_key now) (ct_monthly_key t)) as [He|Hne].
  { split; try done. by exists b. }
  assert (forall a, a <= b -> month_key a <> month_key now) as Hno.
  { intros a Ha Heq. apply Hne. rewrite Hk, (Hcal a b now), Heq; [done|done|lia|done]. }
  split; simpl; try done.
  - exists now. split_and!; [lia|lia|done|]. eapply Forall_impl; [exact H3|]. simpl. lia.
  - rewrite (proj2 (String.eqb_neq _ _)) by (apply Hno; lia).
    rewrite list_filter_none; [done|]. eapply Forall_impl; [exact Hle|]. simpl. intros p Hp.
    by apply String.eqb_neq, Hno.
Qed.

Lemma roll_key now t : ct_monthly_key (_roll_month_if_needed now t) = month_key now.
Proof. unfold _roll_month_if_needed. by destruct (String.eqb_spec (month_key now) (ct_monthly_key t)). Qed.

(** Adding a cost at [now], in the current month. *)
Lemma tracks_event t0 s0 now evs t c :
  tracks t0 s0 now evs t -> ct_monthly_key t = month_key now -> 0 < c ->
  tracks t0 s0 now (evs ++ [(now, c)])
    (set_window (ct_window t ++ [(now, c)]) (set_month (ct_monthly_key t) (ct_monthly_total t + c) t)).
Proof.
  intros [H1 (d & Hd & Hold) H3 H4 H5 (b & Hb & Hk & Hle) H7 H8] Hkey Hc.
  split; simpl; try done.
  - exists d. split; [|done]. by rewrite app_assoc, Hd, <- app_assoc.
  - apply Forall_app. split; [done|]. repeat constructor; simpl; lia.
  - apply StronglySorted_app_2; [|done|repeat constructor].
    intros x y Hx Hy%list_elem_of_singleton. subst. rewrite Forall_forall in H3.
    unfold by_time. simpl. by apply H3.
  - apply Forall_app. split; [done|]. by repeat constructor.
  - exists now. split_and!; [lia|lia|done|]. apply Forall_app.
    split; [|repeat constructor; simpl; lia]. eapply Forall_impl; [exact H3|]. simpl. lia.
  - rewrite List.filter_app, sum_costs_app. simpl. rewrite Hkey in *. rewrite String.eqb_refl.
    simpl. rewrite H7. lia.
Qed.

Lemma tracks_caps t0 s0 now evs t :
  calendar_months -> tracks t0 s0 now evs t ->
  forall now', now <= now' -> tracks t0 s0 now' evs (check_cap now' t).1.
Proof.
  intros Hcal Ht now' Hn. apply (tracks_time _ _ _ now') in Ht; [|done]. unfold check_cap.
  destruct (has_caps t); [|done]. simpl.
  assert (tracks t0 s0 now' evs (_prune_daily_window now' t)) as Hp
    by (eapply tracks_prune; [done|by right|done..]).
  destruct (ct_daily_cap t) as [l|]; simpl.
  - destruct (l <=? _); simpl; [done|].
    destruct (ct_monthly_cap t); [|done]. by apply tracks_roll.
  - destruct (ct_monthly_cap t); [|done]. by apply tracks_roll.
Qed.

Lemma history_tracks t0 s0 now evs t :
  calendar_months -> started s0 t0 -> history t0 s0 now evs t -> tracks t0 s0 now evs t.
Proof.
  intros Hcal [Hkey Hcosts]. induction 1 as [|now evs t i op _ IH Hn].
  - split; try done; simpl.
    + exists []. by rewrite app_nil_r.
    + constructor.
    + exists s0. split_and!; [lia|lia|done|constructor].
    + rewrite Hkey, String.eqb_refl. lia.
  - destruct op as [c| | | |]; simpl; rewrite ?app_nil_r.
    + unfold record. destruct c as [c|]; [|rewrite app_nil_r; by eapply tracks_time].
      destruct (Z.leb_spec c 0) as [|Hc]; [rewrite app_nil_r; by eapply tracks_time|].
      pose proof (tracks_event t0 s0 (at_now i) evs (_roll_month_if_needed (at_now i) t) c) as He.
      set (t1 := set_window _ _) in *.
      destruct (maybe_persist_spend i t1) as (H1 & H2 & H3 & H4 & H5).
      eapply tracks_prune; [apply He; [|apply roll_key|done]|done..].
      apply tracks_roll; [done|]. by eapply tracks_time.
    + by eapply tracks_caps.
    + eapply tracks_prune; [by eapply tracks_time|by right|done..].
    + apply tracks_roll; [done|]. by eapply tracks_time.
    + unfold flush_cap_state. pose proof (acknowledge_spend i t) as Ha. unfold spend_of in Ha.
      injection Ha as H1 H2 H3 H4 H5. set (t1 := _acknowledge_cap_persist i t) in *.
      assert (tracks t0 s0 (at_now i) evs t1) as Ht1
        by (eapply tracks_prune; [by eapply tracks_time|by left|done..]).
      destruct (_ || _); [|done]. destruct (persist_spend i t1) as (? & ? & ? & ? & ?).
      by eapply tracks_prune.
Qed.

(** ** Lemmas: what is reported *)

Lemma tracks_daily t0 s0 now evs t now' :
  started s0 t0 -> tracks t0 s0 now evs t -> now <= now' ->
  spent_24h now' (ct_window t0 ++ evs) <= (daily_spend_micros now' t).2
  /\ (StronglySorted by_time (ct_window t0) -> Forall (fun p => p.1 <= s0) (ct_window t0) ->
      (daily_spend_micros now' t).2 = spent_24h now' (ct_window t0 ++ evs)).
Proof.
  intros [_ Hcosts] [H1 (d & Hd & Hold) H3 H4 H5 _ _ _] Hn. unfold spent_24h. rewrite Hd.
  rewrite in_window_app, (in_window_old now' d)
    by (eapply Forall_impl; [exact Hold|]; unfold cutoff; simpl; lia).
  simpl. destruct (drop_old_split (cutoff now') (ct_window t)) as (d' & Hd' & Hold').
  assert (Forall (fun p => 0 <= p.2) (ct_window t0 ++ evs)) as Hc.
  { apply Forall_app. split; [done|]. eapply Forall_impl; [exact H5|]. simpl. lia. }
  split.
  - rewrite Hd' at 1. rewrite in_window_app, (in_window_old now' d') by done. simpl.
    apply in_window_le. rewrite Hd, Hd', !Forall_app in Hc. tauto.
  - intros Hs Hpast. rewrite drop_old_sorted; [done|].
    apply (StronglySorted_app_1_r _ d). rewrite <- Hd. apply StronglySorted_app_2; [|done|done].
    intros x y Hx Hy. rewrite Forall_forall in Hpast, H3. unfold by_time.
    specialize (Hpast x Hx). specialize (H3 y Hy). simpl in *. lia.
Qed.

Lemma tracks_monthly t0 s0 now evs t now' :
  calendar_months -> tracks t0 s0 now evs t -> now <= now' ->
  (monthly_spend_micros now' t).2 =
  (if String.eqb (month_key s0) (month_key now') then ct_monthly_total t0 else 0)
  + spent_month now' evs.
Proof.
  intros Hcal Ht Hn. apply (tracks_time _ _ _ now') in Ht; [|done].
  apply tracks_roll in Ht; [|done]. unfold monthly_spend_micros. simpl.
  rewrite (tr_total _ _ _ _ _ Ht), roll_key. done.
Qed.

Lemma check_cap_exceeded now t :
  cr_exceeded (check_cap now t).2 = true <->
  (exists l, ct_daily_cap t = Some l /\ l <= (daily_spend_micros now t).2)
  \/ (exists l, ct_monthly_cap t = Some l /\ l <= (monthly_spend_micros now t).2).
Proof.
  unfold check_cap, has_caps.
  assert (ct_monthly_total (_roll_month_if_needed now (_prune_daily_window now t))
          = ct_monthly_total (_roll_month_if_needed now t)) as Hm
    by (unfold _roll_month_if_needed; simpl; by destruct (String.eqb _ _)).
  destruct (ct_daily_cap t) as [d|] eqn:Hd, (ct_monthly_cap t) as [m|] eqn:Hm'; simpl; rewrite ?Hm'.
  - destruct (Z.leb_spec d (sum_costs (drop_old (cutoff now) (ct_window t)))); simpl; [naive_solver|].
    rewrite Hm. destruct (Z.leb_spec m (ct_monthly_total (_roll_month_if_needed now t))); simpl;
      naive_solver lia.
  - destruct (Z.leb_spec d (sum_costs (drop_old (cutoff now) (ct_window t)))); simpl; naive_solver lia.
  - destruct (Z.leb_spec m (ct_monthly_total (_roll_month_if_needed now t))); simpl; naive_solver lia.
  - naive_solver.
Qed.

(** ** Lemmas: the bootstrap *)

(** The record a log line contributes, and those of the files of the two months. *)
Definition line_record (proxy_id : option string) (line : option dict) : option _ParsedCostRecord :=
  match _parse_record line with
  | Ok (Some r) =>
      if match proxy_id with
         | Some p => bool_decide (cost_proxy_id r = Some p)
         | None => true
         end
      then Some r else None
  | _ => None
  end.

Definition logged (proxy_id : option string) (months : list string) (files : list LogFile)
    : list _ParsedCostRecord :=
  concat (map (fun f => if bool_decide (file_month (lf_stem f) ∈ months)
                        then omap (line_record proxy_id) (lf_lines f) else []) files).

(** The records kept: every unkeyed one, and the last of each event. *)
Record kept (rs : list _ParsedCostRecord)
    (acc : list _ParsedCostRecord * list (string * _ParsedCostRecord)) : Prop := {
  kp_unkeyed : acc.1 = filter (fun r => cost_event_id r = None) rs;
  kp_nodup : NoDup (dkeys acc.2);
  kp_event : forall e r, (e, r) ∈ acc.2 -> cost_event_id r = Some e;
  kp_last : forall e, dget e acc.2 = last (filter (fun r => cost_event_id r = Some e) rs);
}.

Lemma kept_line proxy rs acc line :
  kept rs acc ->
  kept (rs ++ option_list (line_record proxy line)) (read_line proxy acc line).
Proof.
  intros [H1 H2 H3 H4]. unfold read_line, line_record.
  destruct (_parse_record line) as [[r|]|]; simpl; [|by rewrite app_nil_r..].
  destruct (match proxy with Some p => _ | None => _ end); simpl; [|by rewrite app_nil_r].
  destruct (cost_event_id r) as [e|] eqn:He; split; simpl; try done.
  - rewrite filter_app, filter_cons_False, filter_nil, app_nil_r by congruence. done.
  - by apply NoDup_dset.
  - intros e' r' [[= -> ->]|Hin]%elem_of_dset; [done|by apply H3].
  - intros e'. rewrite dget_dset, filter_app. case_decide as Hd; subst.
    + by rewrite filter_cons_True, filter_nil, last_snoc.
    + by rewrite filter_cons_False, filter_nil, app_nil_r by congruence.
  - by rewrite filter_app, filter_cons_True, filter_nil, H1.
  - intros e'. by rewrite filter_app, filter_cons_False, filter_nil, app_nil_r by congruence.
Qed.

Lemma kept_lines proxy rs acc lines :
  kept rs acc -> kept (rs ++ omap (line_record proxy) lines) (fold_left (read_line proxy) lines acc).
Proof.
  revert rs acc. induction lines as [|l lines IH]; intros rs acc Hk; csimpl; [by rewrite app_nil_r|].
  apply (kept_line proxy _ _ l) in Hk. apply IH in Hk.
  destruct (line_record proxy l); simpl in *; by rewrite <- app_assoc in Hk.
Qed.

Lemma read_logs_kept proxy months files rs acc acc' :
  kept rs acc -> read_logs proxy months files acc = Ok acc' ->
  kept (rs ++ logged proxy months files) acc'.
Proof.
  revert rs acc. induction files as [|f files IH]; intros rs acc Hk; simpl.
  - intros [= ->]. unfold logged. simpl. by rewrite app_nil_r.
  - unfold logged. simpl. fold (logged proxy months files). rewrite app_assoc.
    destruct (bool_decide _); [|rewrite app_nil_r; by apply IH].
    apply (kept_lines proxy _ _ (lf_lines f)) in Hk.
    destruct (lf_error f) as [e|]; [|by apply IH]. destruct (bool_decide _); [by apply IH|done].
Qed.

Lemma filter_keyed e (d : list (string * _ParsedCostRecord)) :
  NoDup (dkeys d) -> (forall k r, (k, r) ∈ d -> cost_event_id r = Some k) ->
  filter (fun r => cost_event_id r = Some e) (map snd d) = option_list (dget e d).
Proof.
  unfold dkeys. induction d as [|[k r] d IH]; csimpl; [done|]. intros [Hk Hnd]%NoDup_cons Hev.
  assert (cost_event_id r = Some k) as Hr by (apply Hev; left).
  case_decide as Hd; subst.
  - rewrite filter_cons_True by done. simpl. f_equal.
    rewrite IH; [|done|intros; apply Hev; by right].
    rewrite (proj2 (dget_None k d)); done.
  - rewrite filter_cons_False by congruence. apply IH; [done|]. intros; apply Hev; by right.
Qed.

Lemma in_window_drop now w : in_window now (drop_old (cutoff now) w) = in_window now w.
Proof.
  destruct (drop_old_split (cutoff now) w) as (d & Hw & Hd). rewrite Hw at 2.
  by rewrite in_window_app, (in_window_old now d).
Qed.

Lemma in_window_idem now w : in_window now (in_window now w) = in_window now w.
Proof.
  unfold in_window. induction w as [|p w IH]; simpl; [done|].
  destruct (cutoff now <=? p.1) eqn:E; simpl; [|done]. by rewrite E, IH.
Qed.

(** ** Lemmas: synchronous persistence *)

(** Writes succeed and there is no sink: [n] costs were recorded since the last write. *)
Inductive synced (p : string) : CostTracker -> Z -> Prop :=
| synced_start t :
    ct_proxy_id t = Some p -> ct_has_persister t = false -> ct_pending t = None ->
    ct_retry t = false -> ct_dirty t = 0 -> synced p t 0
| synced_record t n i c t' s :
    synced p t n -> at_write i = Ok tt -> 0 < c -> record i (Some c) t = (t', s) ->
    synced p t' (match s with Some _ => 0 | None => n + 1 end).

Lemma record_sync i c t p :
  p <> "" -> ct_proxy_id t = Some p -> ct_has_persister t = false -> ct_pending t = None ->
  ct_retry t = false -> at_write i = Ok tt -> 0 < c -> 0 <= ct_dirty t ->
  let '(t', s) := record i (Some c) t in
  ct_proxy_id t' = Some p /\ ct_has_persister t' = false /\ ct_pending t' = None
  /\ ct_retry t' = false
  /\ match s with
     | Some st => ct_dirty t' = 0 /\ st = snapshot p t' /\ (at_now i, c) ∈ ct_window t'
     | None => ct_dirty t' = ct_dirty t + 1 /\ ct_dirty t' < _CAP_STATE_PERSIST_EVERY_RECORDS
     end.
Proof.
  intros Hp Hid Hper Hpend Hret Hw Hc Hd. unfold record.
  destruct (Z.leb_spec c 0); [lia|].
  set (t1 := set_window _ _).
  assert (spend_of t1 = spend_of t1 /\ ct_proxy_id t1 = Some p /\ ct_has_persister t1 = false
          /\ ct_pending t1 = None /\ ct_retry t1 = false /\ ct_dirty t1 = ct_dirty t)
    as (_ & E1 & E2 & E3 & E4 & E5).
  { unfold t1, _roll_month_if_needed. by destruct (String.eqb (month_key _) _). }
  assert ((at_now i, c) ∈ drop_old (cutoff (at_now i)) (ct_window t1)) as Hin.
  { destruct (drop_old_split (cutoff (at_now i)) (ct_window t1)) as (d & Hsp & Hold).
    assert ((at_now i, c) ∈ ct_window t1) as Hin by (apply elem_of_app; right; left).
    rewrite Hsp in Hin. apply elem_of_app in Hin as [Hin|Hin]; [|done].
    rewrite Forall_forall in Hold. apply Hold in Hin. unfold cutoff, micros, _24H_SECONDS in Hin.
    simpl in Hin. lia. }
  clearbody t1. unfold _maybe_persist_cap_state, _acknowledge_cap_persist. rewrite E1, E3, E4.
  rewrite (proj2 (String.eqb_neq _ _)) by done. simpl. rewrite ?E3, ?E4, E5. simpl.
  destruct (Z.leb_spec _CAP_STATE_PERSIST_EVERY_RECORDS (ct_dirty t + 1)); simpl;
    [|match goal with |- context [?a <=? ?b] => destruct (a <=? b); simpl end];
    unfold _persist_cap_state, _acknowledge_cap_persist; simpl; rewrite ?E1, ?E3;
    rewrite ?(proj2 (String.eqb_neq _ _)) by done; simpl; rewrite ?E1, ?E2, ?E3, ?Hw; simpl;
    rewrite ?E1, ?E2, ?E3; split_and!; done || lia.
Qed.

(** ** Properties *)

(** C24: The caps are enforced exactly. After any sequence of operations at nondecreasing
    times from a tracker whose initial window is in time order, a check reports a cap exceeded
    if and only if the spend of the last 24 hours (of the initial window and of every recorded
    cost) has reached the daily cap, or the spend of the current calendar month has reached
    the monthly cap; the initial total counts only while its month lasts. *)
Theorem caps_enforced t0 s0 now evs t now' :
  calendar_months -> started s0 t0 ->
  StronglySorted by_time (ct_window t0) -> Forall (fun p => p.1 <= s0) (ct_window t0) ->
  history t0 s0 now evs t -> now <= now' ->
  cr_exceeded (check_cap now' t).2 = true <->
  (exists l, ct_daily_cap t0 = Some l /\ l <= spent_24h now' (ct_window t0 ++ evs))
  \/ (exists l, ct_monthly_cap t0 = Some l
      /\ l <= (if String.eqb (month_key s0) (month_key now') then ct_monthly_total t0 else 0)
              + spent_month now' evs).
Proof.
  intros Hcal Hst Hs Hp Hh Hn. pose proof (history_tracks _ _ _ _ _ Hcal Hst Hh) as Ht.
  rewrite check_cap_exceeded, (tracks_monthly _ _ _ _ _ _ Hcal Ht Hn).
  destruct (tracks_daily _ _ _ _ _ _ Hst Ht Hn) as [_ Hd]. rewrite (Hd Hs Hp).
  destruct (tr_caps _ _ _ _ _ Ht) as [-> ->]. done.
Qed.

(** Whatever the order of the initial window, enforcement never lets spend through: when
    the last 24 hours' spend has reached the daily cap or the month's the monthly cap, the
    check reports it. *)
Theorem caps_never_missed t0 s0 now evs t now' :
  calendar_months -> started s0 t0 -> history t0 s0 now evs t -> now <= now' ->
  (exists l, ct_daily_cap t0 = Some l /\ l <= spent_24h now' (ct_window t0 ++ evs))
  \/ (exists l, ct_monthly_cap t0 = Some l
      /\ l <= (if String.eqb (month_key s0) (month_key now') then ct_monthly_total t0 else 0)
              + spent_month now' evs) ->
  cr_exceeded (check_cap now' t).2 = true.
Proof.
  intros Hcal Hst Hh Hn H. pose proof (history_tracks _ _ _ _ _ Hcal Hst Hh) as Ht.
  rewrite check_cap_exceeded, (tracks_monthly _ _ _ _ _ _ Hcal Ht Hn).
  destruct (tracks_daily _ _ _ _ _ _ Hst Ht Hn) as [Hd _].
  destruct (tr_caps _ _ _ _ _ Ht) as [-> ->].
  destruct H as [(l & Hl & Hle)|H]; [left; exists l; split; [done|lia]|by right].
Qed.

(** The bootstrap starts from everything spent, once. Of the log records of the current
    and the previous month that belong to the proxy, it counts every record without an event
    id and, for each event id, the last one only; the month's total and the 24-hour spend are
    the larger of what the logs and the saved cap state say. *)
Theorem bootstrap_correct i files load proxy t t' s :
  bootstrap_from_logs i files load proxy t = (t', Ok s) ->
  let now := at_now i in
  let all := logged proxy [month_key now; prev_month now] files in
  exists records,
    filter (fun r => cost_event_id r = None) records = filter (fun r => cost_event_id r = None) all
    /\ (forall e, filter (fun r => cost_event_id r = Some e) records
                  = option_list (last (filter (fun r => cost_event_id r = Some e) all)))
    /\ ct_monthly_key t' = month_key now
    /\ ct_monthly_total t' =
         Z.max (log_monthly now records)
           (match usable_state proxy load with
            | Some st => if String.eqb (cs_monthly_key st) (month_key now)
                         then cs_monthly_total st else 0
            | None => 0
            end)
    /\ spent_24h now (ct_window t') =
         Z.max (sum_costs (log_window now records))
           (match usable_state proxy load with
            | Some st => spent_24h now (cs_daily_window st)
            | None => 0
            end).
Proof.
  intros H now all. unfold bootstrap_from_logs in H. fold now in H.
  destruct (read_logs _ _ _ _) as [[unkeyed keyed]|] eqn:Hr; [|done].
  apply (read_logs_kept _ _ _ []) in Hr; [|split; [done|constructor|by intros ?? ?%elem_of_nil|done]].
  simpl in Hr. fold all in Hr. destruct Hr as [Hu Hnd Hev Hlast]; simpl in *.
  exists (unkeyed ++ map snd keyed).
  assert (Forall (fun r => cost_event_id r <> None) (map snd keyed)) as Hne.
  { apply Forall_forall. intros r Hr. apply list_elem_of_In, in_map_iff in Hr as ([k r'] & <- & Hin).
    apply list_elem_of_In, Hev in Hin. simpl. congruence. }
  set (w := if _ <? _ then _ else _) in H. set (t1 := set_window w _) in H.
  destruct (persist_spend i t1) as (Hw & Ht & Hk & _).
  destruct (_persist_cap_state i t1) as [t2 s2]. injection H as <- _. simpl in Hw, Ht, Hk.
  split_and!.
  - rewrite filter_app. assert (filter (fun r => cost_event_id r = None) (map snd keyed) = []) as ->.
    { clear -Hne. induction Hne; [done|]. by rewrite filter_cons_False. }
    rewrite app_nil_r, Hu. clear. induction all as [|r all IH]; [done|].
    rewrite filter_cons. case_decide; [|done]. by rewrite filter_cons_True, IH.
  - intros e. rewrite filter_app, (filter_keyed e keyed Hnd Hev), Hlast, Hu.
    assert (forall l, filter (fun r => cost_event_id r = Some e)
              (filter (fun r => cost_event_id r = None) l) = []) as ->; [|done].
    clear. induction l as [|r l IH]; [done|]. rewrite filter_cons. case_decide; [|done].
    by rewrite filter_cons_False by congruence.
  - done.
  - by rewrite Ht.
  - assert (spent_24h now (ct_window t2) = spent_24h now w) as ->.
    { unfold spent_24h. destruct Hw as [->| ->]; [done|]. by rewrite in_window_drop. }
    unfold w, spent_24h. destruct (Z.ltb_spec (sum_costs (log_window now (unkeyed ++ map snd keyed)))
      (sum_costs match usable_state proxy load with
                 | Some s0 => in_window now (cs_daily_window s0) | None => [] end)) as [Hlt|Hge].
    + destruct (usable_state proxy load); [rewrite in_window_idem|]; simpl in *; lia.
    + unfold log_window in *. rewrite in_window_idem. destruct (usable_state proxy load); simpl in *; lia.
Qed.

(** With synchronous persistence that succeeds, at most nine recorded costs are not yet in
    a written snapshot (the counter of the throttle is exactly their number), and a snapshot a
    record writes is the tracker's state including that cost. *)
Theorem persistence_lag_bounded p t n i c :
  p <> "" -> synced p t n -> at_write i = Ok tt -> 0 < c ->
  0 <= n < _CAP_STATE_PERSIST_EVERY_RECORDS /\ ct_dirty t = n
  /\ forall t' st, record i (Some c) t = (t', Some st) ->
       st = snapshot p t' /\ (at_now i, c) ∈ cs_daily_window st /\ synced p t' 0.
Proof.
  intros Hp Hsync Hw Hc.
  assert (0 <= n < _CAP_STATE_PERSIST_EVERY_RECORDS /\ ct_dirty t = n /\ ct_proxy_id t = Some p
    /\ ct_has_persister t = false /\ ct_pending t = None /\ ct_retry t = false) as Hinv.
  { clear i c Hw Hc. induction Hsync as [t|t n i c t' s _ IH Hw Hc Hr].
    - unfold _CAP_STATE_PERSIST_EVERY_RECORDS. split_and!; done || lia.
    - destruct IH as (Hn & Hd & H1 & H2 & H3 & H4).
      pose proof (record_sync i c t p Hp H1 H2 H3 H4 Hw Hc) as Hrec. rewrite Hr in Hrec.
      destruct Hrec as (? & ? & ? & ? & Hs); [lia|].
      destruct s as [st|]; unfold _CAP_STATE_PERSIST_EVERY_RECORDS in *;
        destruct_and?; split_and!; done || lia. }
  destruct Hinv as (Hn & Hd & H1 & H2 & H3 & H4). split_and!; [lia|lia|done|].
  intros t' st Hr. pose proof (record_sync i c t p Hp H1 H2 H3 H4 Hw Hc) as Hrec. rewrite Hr in Hrec.
  destruct Hrec as (_ & _ & _ & _ & _ & -> & Hin); [lia|]. split_and!; [done|done|].
  exact (synced_record p t n i c t' (Some (snapshot p t')) Hsync Hw Hc Hr).
Qed.
End tracker.

(** A bootstrap window out of time order keeps stale spend. The window is pruned from its
    head only, so a recent unkeyed record followed by an older keyed one leaves the older
    record counted after it is more than 24 hours old, and a request is blocked although the
    last 24 hours' spend is below the cap. *)
Example stale_spend_counted :
  exists t now,
    (bootstrap_from_logs (fun _ => (2026, 5)) (fun v => as_int v) (fun _ => raise ValueError "")
       {| at_now := micros 100000; at_mono := 0; at_write := Ok tt; at_submit := Ok None;
          at_future := fun _ => None |}
       [{| lf_stem := "2026-05_7"; lf_error := None;
           lf_lines := [Some [("ts", VInt (micros 90000)); ("cost_micros", VInt 5)];
                        Some [("ts", VInt (micros 20000)); ("cost_micros", VInt 7);
                              ("downstream_event_id", VStr "e")]] |}]
       (Ok None) None
       {| ct_daily_cap := Some 10; ct_monthly_cap := None; ct_on_cap_hit := "reject";
          ct_window := []; ct_monthly_total := 0; ct_monthly_key := ""; ct_proxy_id := None;
          ct_dirty := 0; ct_last_persisted := 0; ct_has_persister := false; ct_pending := None;
          ct_pending_count := 0; ct_retry := false |}).1 = t
    /\ spent_24h now (ct_window t) = 5
    /\ cr_exceeded (check_cap (fun _ => (2026, 5)) now t).2 = true.
Proof. eexists _, (micros 110000). vm_compute. split_and!; reflexivity. Qed.

(** ** The theorems at work *)

Module CostSample.
Definition utc0 (_ : Z) : Z * Z := (2026, 5).
Definition iso0 (v : value) : option Z := as_int v.
Definition int0 (_ : string) : res Z := raise ValueError "".
Definition at_ (s : Z) : Instant := {|
  at_now := micros s; at_mono := 0; at_write := Ok tt; at_submit := Ok None;
  at_future := fun _ => None |}.
Definition start : CostTracker := {|
  ct_daily_cap := Some 10; ct_monthly_cap := Some 100; ct_on_cap_hit := "reject";
  ct_window := [(micros 5, 4)]; ct_monthly_total := 4; ct_monthly_key := "2026-05";
  ct_proxy_id := Some "p"; ct_dirty := 0; ct_last_persisted := 0; ct_has_persister := false;
  ct_pending := None; ct_pending_count := 0; ct_retry := false |}.

Lemma months0 : calendar_months utc0.
Proof. intros a b c _ _ _. reflexivity. Defined.

Lemma started0 : started utc0 (micros 10) start.
Proof. split; [reflexivity|repeat constructor; discriminate]. Defined.

Definition after : CostTracker :=
  apply_op utc0 (at_ 30) (OpRecord (Some 2)) (apply_op utc0 (at_ 20) (OpRecord (Some 4)) start).

Lemma history0 :
  history utc0 start (micros 10) (micros 30) [(micros 20, 4); (micros 30, 2)] after.
Proof.
  apply (history_op utc0 start (micros 10) (micros 20) [(micros 20, 4)] _ (at_ 30) (OpRecord (Some 2)));
    [|vm_compute; discriminate].
  apply (history_op utc0 start (micros 10) (micros 10) [] _ (at_ 20) (OpRecord (Some 4)));
    [constructor|vm_compute; discriminate].
Defined.

Lemma caps_enforced_witness : cr_exceeded (check_cap utc0 (micros 40) after).2 = true.
Proof.
  apply (caps_enforced utc0 start (micros 10) (micros 30) [(micros 20, 4); (micros 30, 2)] after (micros 40)).
  - exact months0.
  - exact started0.
  - repeat constructor.
  - repeat constructor. discriminate.
  - exact history0.
  - unfold micros. lia.
  - left. exists 10. split; [reflexivity|]. vm_compute. discriminate.
Defined.

Lemma caps_never_missed_witness : cr_exceeded (check_cap utc0 (micros 40) after).2 = true.
Proof.
  apply (caps_never_missed utc0 start (micros 10) (micros 30) [(micros 20, 4); (micros 30, 2)] after (micros 40)).
  - exact months0.
  - exact started0.
  - exact history0.
  - unfold micros. lia.
  - left. exists 10. split; [reflexivity|]. vm_compute. discriminate.
Defined.

Definition log0 : LogFile := {|
  lf_stem := "2026-05_12"; lf_error := None;
  lf_lines := [Some [("ts", VInt (micros 3)); ("cost_micros", VInt 5); ("downstream_event_id", VStr "e")];
               Some [("ts", VInt (micros 4)); ("cost_micros", VInt 6); ("downstream_event_id", VStr "e")]] |}.

Lemma bootstrap_witness :
  exists t s, bootstrap_from_logs utc0 iso0 int0 (at_ 10) [log0] (Ok None) None start = (t, Ok s)
    /\ ct_monthly_key t = "2026-05".
Proof.
  eexists _, _. split; [vm_compute; reflexivity|].
  edestruct (bootstrap_correct utc0 iso0 int0 (at_ 10) [log0] (Ok None) None start) as (rs & _ & _ & Hk & _);
    [vm_compute; reflexivity|exact Hk].
Defined.

Lemma persistence_lag_witness : ct_dirty start = 0.
Proof.
  apply (persistence_lag_bounded utc0 "p" start 0 (at_ 20) 4).
  - discriminate.
  - constructor; reflexivity.
  - reflexivity.
  - lia.
Defined.
End CostSample.
