(* ===== verification/Metrics.v ===== *)
(** * Metrics: a proxy's in-memory runtime metrics

    [src/forge/proxy/metrics.py]. [ProxyMetrics] is one record; [record_request] and
    [reset] are its only updates, each under one lock, so that an execution is a sequence
    of them. The clock's readings ([now_iso], [time.monotonic]) are arguments.

    The reference specification is the list of the requests recorded since the last
    reset: every counter, every per-tier and per-model entry and every failure count is
    the corresponding aggregate of that list ([agrees], [metrics_refine_history]). *)

From S2P Require Import Prelude PyValue PyFloat.
From Stdlib Require Import SpecFloat.

(** ** State *)

(** [TierTokens]. *)
Record TierTokens := {
  input_tokens : Z;
  output_tokens : Z;
  cached_tokens : Z;
  total_latency_ms : spec_float;
  request_count : Z;
  estimated_cost_micros : Z }.

(** [TierTokens()]. *)
Definition new_tier_tokens : TierTokens :=
  {| input_tokens := 0; output_tokens := 0; cached_tokens := 0;
     total_latency_ms := float_zero; request_count := 0; estimated_cost_micros := 0 |}.

(** [ProxyMetrics]. *)
Record ProxyMetrics := {
  started_at : string;
  _started_mono : spec_float;
  total_requests : Z;
  total_streaming : Z;
  total_failures : Z;
  total_input_tokens : Z;
  total_output_tokens : Z;
  total_cached_tokens : Z;
  failed_input_tokens : Z;
  failed_output_tokens : Z;
  total_cost_micros : Z;
  failed_cost_micros : Z;
  cost_reported_requests : Z;
  cost_unavailable_requests : Z;
  requests_by_tier : list (string * Z);
  tokens_by_tier : list (string * TierTokens);
  requests_by_model : list (string * Z);
  tokens_by_model : list (string * TierTokens);
  failures_by_type : list (string * Z);
  last_request_at : option string }.

(** [ProxyMetrics()], created at [now], the monotonic clock reading [mono]. *)
Definition new_metrics (now : string) (mono : spec_float) : ProxyMetrics :=
  {| started_at := now; _started_mono := mono;
     total_requests := 0; total_streaming := 0; total_failures := 0;
     total_input_tokens := 0; total_output_tokens := 0; total_cached_tokens := 0;
     failed_input_tokens := 0; failed_output_tokens := 0;
     total_cost_micros := 0; failed_cost_micros := 0;
     cost_reported_requests := 0; cost_unavailable_requests := 0;
     requests_by_tier := []; tokens_by_tier := []; requests_by_model := [];
     tokens_by_model := []; failures_by_type := []; last_request_at := None |}.

(** The keyword arguments of [record_request]. *)
Record request := {
  r_tier : string;
  r_model : string;
  r_input : Z;
  r_output : Z;
  r_cached : Z;
  r_latency : spec_float;
  r_streaming : bool;
  r_failed : bool;
  r_error_type : option string;
  r_cost : option Z }.

(** ** Operations *)

(** [requests_by[k] = requests_by.get(k, 0) + 1]. *)
Definition bump (k : string) (d : list (string * Z)) : list (string * Z) :=
  dset k (dget_default k 0 d + 1) d.

(** The accumulation into a tier's, or a model's, [TierTokens]. *)
Definition add_tokens (t : TierTokens) (r : request) : TierTokens :=
  {| input_tokens := input_tokens t + r_input r;
     output_tokens := output_tokens t + r_output r;
     cached_tokens := cached_tokens t + r_cached r;
     total_latency_ms := float_add (total_latency_ms t) (r_latency r);
     request_count := request_count t + 1;
     estimated_cost_micros :=
       match r_cost r with
       | Some c => estimated_cost_micros t + c
       | None => estimated_cost_micros t
       end |}.

(** Look up or create the entry, then accumulate into it. *)
Definition accumulate (k : string) (r : request) (d : list (string * TierTokens)) :=
  dset k (add_tokens (match dget k d with None => new_tier_tokens | Some t => t end) r) d.

(** [failures_by_type[error_type] += 1], when the request failed with a non-empty type. *)
Definition count_failure (r : request) (d : list (string * Z)) : list (string * Z) :=
  match r_error_type r with
  | Some e => if String.eqb e "" then d else bump e d
  | None => d
  end.

(** [record_request], [now_iso()] returning [now]. *)
Definition record_request (r : request) (now : string) (m : ProxyMetrics) : ProxyMetrics :=
  let failed x y := if r_failed r then x + y else x in
  {| started_at := started_at m;
     _started_mono := _started_mono m;
     total_requests := total_requests m + 1;
     total_streaming := if r_streaming r then total_streaming m + 1 else total_streaming m;
     total_failures := failed (total_failures m) 1;
     total_input_tokens := total_input_tokens m + r_input r;
     total_output_tokens := total_output_tokens m + r_output r;
     total_cached_tokens := total_cached_tokens m + r_cached r;
     failed_input_tokens := failed (failed_input_tokens m) (r_input r);
     failed_output_tokens := failed (failed_output_tokens m) (r_output r);
     total_cost_micros :=
       match r_cost r with Some c => total_cost_micros m + c | None => total_cost_micros m end;
     failed_cost_micros :=
       match r_cost r with
       | Some c => failed (failed_cost_micros m) c
       | None => failed_cost_micros m
       end;
     cost_reported_requests :=
       match r_cost r with
       | Some _ => cost_reported_requests m + 1
       | None => cost_reported_requests m
       end;
     cost_unavailable_requests :=
       match r_cost r with
       | Some _ => cost_unavailable_requests m
       | None => cost_unavailable_requests m + 1
       end;
     requests_by_tier := bump (r_tier r) (requests_by_tier m);
     tokens_by_tier := accumulate (r_tier r) r (tokens_by_tier m);
     requests_by_model := bump (r_model r) (requests_by_model m);
     tokens_by_model := accumulate (r_model r) r (tokens_by_model m);
     failures_by_type :=
       if r_failed r then count_failure r (failures_by_type m) else failures_by_type m;
     last_request_at := Some now |}.

(** [reset]: everything but the start times. *)
Definition reset (m : ProxyMetrics) : ProxyMetrics :=
  {| started_at := started_at m; _started_mono := _started_mono m;
     total_requests := 0; total_streaming := 0; total_failures := 0;
     total_input_tokens := 0; total_output_tokens := 0; total_cached_tokens := 0;
     failed_input_tokens := 0; failed_output_tokens := 0;
     total_cost_micros := 0; failed_cost_micros := 0;
     cost_reported_requests := 0; cost_unavailable_requests := 0;
     requests_by_tier := []; tokens_by_tier := []; requests_by_model := [];
     tokens_by_model := []; failures_by_type := []; last_request_at := None |}.

(** [TierTokens.to_dict]. *)
Definition to_dict (t : TierTokens) : dict :=
  [("input_tokens", VInt (input_tokens t));
   ("output_tokens", VInt (output_tokens t));
   ("cached_tokens", VInt (cached_tokens t));
   ("avg_latency_ms",
     VFloat (if 0 <? request_count t
             then py_round 1 (float_div (total_latency_ms t) (float_of_Z (request_count t)))
             else float_zero));
   ("estimated_cost_usd", VFloat (py_round 6 (int_truediv (estimated_cost_micros t) 1000000)));
   ("estimated_cost_micros", VInt (estimated_cost_micros t))].

(** The [by_tier] and [by_model] comprehensions of [snapshot]:
    [{"requests": requests_by.get(k, 0), **tokens.to_dict()}]. *)
Definition breakdown (reqs : list (string * Z)) (toks : list (string * TierTokens)) : value :=
  VDict ((fun p => (fst p, VDict (dupdate [("requests", VInt (dget_default (fst p) 0 reqs))]
                                          (to_dict (snd p))))) <$> toks).

(** [snapshot], the monotonic clock reading [mono]. *)
Definition snapshot (mono : spec_float) (m : ProxyMetrics) : dict :=
  [("started_at", VStr (started_at m));
   ("uptime_seconds", VFloat (py_round 1 (SFsub 53 1024 mono (_started_mono m))));
   ("total_requests", VInt (total_requests m));
   ("total_streaming", VInt (total_streaming m));
   ("total_failures", VInt (total_failures m));
   ("tokens", VDict
     [("input", VInt (total_input_tokens m));
      ("output", VInt (total_output_tokens m));
      ("cached", VInt (total_cached_tokens m));
      ("failed_input", VInt (failed_input_tokens m));
      ("failed_output", VInt (failed_output_tokens m))]);
   ("cache_hit_rate",
     VFloat (if 0 <? total_input_tokens m
             then py_round 1 (float_mul (int_truediv (total_cached_tokens m) (total_input_tokens m))
                                        (float_of_Z 100))
             else float_zero));
   ("by_tier", breakdown (requests_by_tier m) (tokens_by_tier m));
   ("by_model", breakdown (requests_by_model m) (tokens_by_model m));
   ("failures_by_type", VDict ((fun p => (fst p, VInt (snd p))) <$> failures_by_type m));
   ("costs", VDict
     [("total_usd", VFloat (py_round 6 (int_truediv (total_cost_micros m) 1000000)));
      ("failed_usd", VFloat (py_round 6 (int_truediv (failed_cost_micros m) 1000000)));
      ("total_micros", VInt (total_cost_micros m));
      ("failed_micros", VInt (failed_cost_micros m));
      ("reported_request_count", VInt (cost_reported_requests m));
      ("unavailable_request_count", VInt (cost_unavailable_requests m))]);
   ("last_request_at", match last_request_at m with Some s => VStr s | None => VNone end)].

(** ** Executions *)

Inductive op :=
| ORecord (r : request) (now : string)
| OReset.

Definition step (m : ProxyMetrics) (o : op) : ProxyMetrics :=
  match o with ORecord r now => record_request r now m | OReset => reset m end.

Definition run (m : ProxyMetrics) (ops : list op) : ProxyMetrics := foldl step m ops.

(** ** The reference specification *)

(** The requests recorded since the last reset. *)
Definition history (ops : list op) : list request :=
  foldl (fun h o => match o with ORecord r _ => h ++ [r] | OReset => [] end) [] ops.

Definition total (f : request -> Z) (h : list request) : Z := foldr (fun r a => f r + a) 0 h.

Definition count (p : request -> bool) (h : list request) : Z := total (fun r => Z.b2z (p r)) h.

Definition cost (r : request) : Z := from_option id 0 (r_cost r).
Definition cost_known (r : request) : bool := bool_decide (is_Some (r_cost r)).
Definition failed_only (f : request -> Z) (r : request) : Z := if r_failed r then f r else 0.

(** The type a failure is counted under, if any. *)
Definition failure_type (r : request) : option string :=
  if r_failed r then
    match r_error_type r with Some e => if String.eqb e "" then None else Some e | None => None end
  else None.

(** The aggregate of some requests, in their order. *)
Definition aggregate (h : list request) : TierTokens :=
  {| input_tokens := total r_input h;
     output_tokens := total r_output h;
     cached_tokens := total r_cached h;
     total_latency_ms := foldl float_add float_zero (r_latency <$> h);
     request_count := Z.of_nat (length h);
     estimated_cost_micros := total cost h |}.

(** What the dicts keyed by [sel] hold for [k]: an entry exactly when some request has it. *)
Definition grouped {A} (agg : list request -> A) (sel : request -> option string)
    (h : list request) (k : string) : option A :=
  match filter (fun r => sel r = Some k) h with [] => None | l => Some (agg l) end.

Definition num (h : list request) : Z := Z.of_nat (length h).

Record agrees (m : ProxyMetrics) (h : list request) : Prop := {
  ag_requests : total_requests m = num h;
  ag_streaming : total_streaming m = count r_streaming h;
  ag_failures : total_failures m = count r_failed h;
  ag_input : total_input_tokens m = total r_input h;
  ag_output : total_output_tokens m = total r_output h;
  ag_cached : total_cached_tokens m = total r_cached h;
  ag_failed_input : failed_input_tokens m = total (failed_only r_input) h;
  ag_failed_output : failed_output_tokens m = total (failed_only r_output) h;
  ag_cost : total_cost_micros m = total cost h;
  ag_failed_cost : failed_cost_micros m = total (failed_only cost) h;
  ag_reported : cost_reported_requests m = count cost_known h;
  ag_unavailable : cost_unavailable_requests m = num h - count cost_known h;
  ag_tiers : forall k, dget k (requests_by_tier m) = grouped num (fun r => Some (r_tier r)) h k;
  ag_tier_tokens :
    forall k, dget k (tokens_by_tier m) = grouped aggregate (fun r => Some (r_tier r)) h k;
  ag_models : forall k, dget k (requests_by_model m) = grouped num (fun r => Some (r_model r)) h k;
  ag_model_tokens :
    forall k, dget k (tokens_by_model m) = grouped aggregate (fun r => Some (r_model r)) h k;
  ag_types : forall k, dget k (failures_by_type m) = grouped num failure_type h k }.

(** ** Lemmas *)

Lemma total_app f h h' : total f (h ++ h') = total f h + total f h'.
Proof. induction h as [|r h IH]; simpl; [done|]. rewrite IH. lia. Qed.

Lemma num_app h r : num (h ++ [r]) = num h + 1.
Proof. unfold num. rewrite length_app. simpl. lia. Qed.

Lemma aggregate_app h r : aggregate (h ++ [r]) = add_tokens (aggregate h) r.
Proof.
  unfold aggregate, add_tokens. rewrite !total_app, fmap_app, foldl_app, length_app. simpl.
  unfold cost. destruct (r_cost r); f_equal; simpl; lia.
Qed.

Lemma aggregate_nil : aggregate [] = new_tier_tokens.
Proof. done. Qed.

Lemma grouped_other {A} (agg : list request -> A) sel h r k :
  sel r <> Some k -> grouped agg sel (h ++ [r]) k = grouped agg sel h k.
Proof.
  intros Hne. unfold grouped. by rewrite filter_app, filter_cons_False, app_nil_r.
Qed.

Lemma grouped_same {A} (agg : list request -> A) sel h r k :
  sel r = Some k ->
  grouped agg sel (h ++ [r]) k = Some (agg (filter (fun r => sel r = Some k) h ++ [r])).
Proof.
  intros Heq. unfold grouped. rewrite filter_app, filter_cons_True by done. simpl.
  by destruct (filter _ h).
Qed.

(** The dicts' updates follow the grouping: [upd] extends the aggregate by one request. *)
Lemma grouped_dset {A} (agg : list request -> A) sel h r k0 upd d :
  sel r = Some k0 ->
  (forall k, dget k d = grouped agg sel h k) ->
  (forall l, agg (l ++ [r]) = upd (agg l)) ->
  forall k, dget k (dset k0 (upd (from_option id (agg []) (dget k0 d))) d)
            = grouped agg sel (h ++ [r]) k.
Proof.
  intros Hsel Hd Hupd k. rewrite dget_dset. case_decide as Hk.
  - subst. rewrite grouped_same by done. rewrite Hupd, Hd. unfold grouped.
    by destruct (filter _ h).
  - rewrite grouped_other by congruence. apply Hd.
Qed.

Lemma bump_grouped sel h r k0 d :
  sel r = Some k0 -> (forall k, dget k d = grouped num sel h k) ->
  forall k, dget k (bump k0 d) = grouped num sel (h ++ [r]) k.
Proof.
  intros Hsel Hd k. rewrite <- (grouped_dset num sel h r k0 (fun x => x + 1) d) by auto using num_app.
  unfold bump, dget_default. by destruct (dget k0 d).
Qed.

Lemma accumulate_grouped sel h r k0 d :
  sel r = Some k0 -> (forall k, dget k d = grouped aggregate sel h k) ->
  forall k, dget k (accumulate k0 r d) = grouped aggregate sel (h ++ [r]) k.
Proof.
  intros Hsel Hd k.
  rewrite <- (grouped_dset aggregate sel h r k0 (fun x => add_tokens x r) d)
    by auto using aggregate_app.
  unfold accumulate. rewrite aggregate_nil. by destruct (dget k0 d).
Qed.

Lemma count_failure_grouped h r d :
  (forall k, dget k d = grouped num failure_type h k) ->
  forall k, dget k (if r_failed r then count_failure r d else d)
            = grouped num failure_type (h ++ [r]) k.
Proof.
  intros Hd k. destruct (failure_type r) as [e|] eqn:Ht.
  - rewrite <- (bump_grouped failure_type h r e d) by done. revert Ht.
    unfold failure_type, count_failure. repeat case_match; naive_solver.
  - rewrite grouped_other by (by rewrite Ht). rewrite <- Hd. revert Ht.
    unfold failure_type, count_failure. repeat case_match; naive_solver.
Qed.

Lemma agrees_new now mono : agrees (new_metrics now mono) [].
Proof. by split. Qed.

Lemma agrees_record m h r now : agrees m h -> agrees (record_request r now m) (h ++ [r]).
Proof.
  intros Hm. destruct Hm. split; simpl;
    first [ by apply bump_grouped | by apply accumulate_grouped
          | by apply count_failure_grouped | idtac ];
    unfold count in *; rewrite ?total_app, ?num_app; simpl;
    unfold failed_only, cost, cost_known in *;
    destruct (r_cost r), (r_failed r), (r_streaming r);
    rewrite ?bool_decide_eq_true_2, ?bool_decide_eq_false_2 by (eauto || by intros [? ?]);
    simpl; lia.
Qed.

Lemma agrees_step m h o :
  agrees m h ->
  agrees (step m o) (match o with ORecord r _ => h ++ [r] | OReset => [] end).
Proof. destruct o; simpl; [apply agrees_record | intros _; by split]. Qed.

Lemma agrees_run m h ops :
  agrees m h ->
  agrees (run m ops) (foldl (fun h o => match o with ORecord r _ => h ++ [r] | OReset => [] end) h ops).
Proof.
  revert m h. induction ops as [|o ops IH]; intros m h Hm; simpl; [done|].
  apply IH. by apply (agrees_step _ _ o).
Qed.

(** The sums over a breakdown's entries, and the uniqueness of its keys. *)
Record sums (m : ProxyMetrics) (d : list (string * TierTokens)) : Prop := {
  su_nodup : NoDup (dkeys d);
  su_requests : dsum request_count d = total_requests m;
  su_input : dsum input_tokens d = total_input_tokens m;
  su_output : dsum output_tokens d = total_output_tokens m;
  su_cached : dsum cached_tokens d = total_cached_tokens m;
  su_cost : dsum estimated_cost_micros d = total_cost_micros m }.

Lemma dsum_accumulate f k r d :
  f new_tier_tokens = 0 ->
  dsum f (accumulate k r d)
  = dsum f d + (f (add_tokens (from_option id new_tier_tokens (dget k d)) r)
                - f (from_option id new_tier_tokens (dget k d))).
Proof.
  intros Hf. unfold accumulate. rewrite dsum_dset. destruct (dget k d); simpl; lia.
Qed.

Lemma sums_record m k r now d :
  sums m d -> sums (record_request r now m) (accumulate k r d).
Proof.
  intros []. split; [by apply NoDup_dset|..];
    rewrite dsum_accumulate by done; simpl; destruct (r_cost r); lia.
Qed.

Lemma sums_run m ops :
  sums m (tokens_by_tier m) -> sums m (tokens_by_model m) ->
  sums (run m ops) (tokens_by_tier (run m ops)) /\ sums (run m ops) (tokens_by_model (run m ops)).
Proof.
  revert m. induction ops as [|[r now|] ops IH]; intros m Ht Hm; simpl; [done|..].
  - by apply IH; apply sums_record.
  - apply IH; split; simpl; done || apply NoDup_nil_2.
Qed.

(** The integer field [f] summed over the entries of a snapshot's breakdown. *)
Definition field (f : string) (v : value) : Z :=
  match v with
  | VDict e => match dget f e with Some (VInt z) => z | _ => 0 end
  | _ => 0
  end.

Definition field_sum (f : string) (v : value) : Z :=
  match v with VDict d => dsum (field f) d | _ => 0 end.

(** The value at a path of keys. *)
Fixpoint path (ks : list string) (v : value) : value :=
  match ks, v with
  | [], _ => v
  | k :: ks, VDict d => match dget k d with Some w => path ks w | None => VNone end
  | _, _ => VNone
  end.

Definition int_at (ks : list string) (v : value) : Z :=
  match path ks v with VInt z => z | _ => 0 end.

Lemma field_sum_breakdown f g reqs toks :
  (forall n t, field f (VDict (dupdate [("requests", VInt n)] (to_dict t))) = g t) ->
  field_sum f (breakdown reqs toks) = dsum g toks.
Proof.
  intros Hg. unfold breakdown, field_sum.
  induction toks as [|[k t] toks IH]; simpl; [done|]. f_equal; [apply Hg | apply IH].
Qed.

Lemma requests_sum_breakdown reqs toks :
  NoDup (dkeys toks) ->
  (forall k t, dget k toks = Some t -> dget k reqs = Some (request_count t)) ->
  field_sum "requests" (breakdown reqs toks) = dsum request_count toks.
Proof.
  intros Hnd Hr.
  assert (Hel : forall p, p ∈ toks -> dget_default (fst p) 0 reqs = request_count (snd p)).
  { intros [k t] Hin. unfold dget_default. erewrite Hr; [done|]. by apply elem_of_dget. }
  clear Hr Hnd. unfold breakdown, field_sum.
  induction toks as [|[k t] toks IH]; simpl; [done|].
  f_equal; [apply (Hel (k, t)); left | apply IH; intros p Hp; apply Hel; by right].
Qed.

Lemma grouped_count sel h k t :
  grouped aggregate sel h k = Some t -> grouped num sel h k = Some (request_count t).
Proof. unfold grouped. by destruct (filter _ h); intros; simplify_eq/=. Qed.

(** The breakdown's sums are the totals. *)
Lemma breakdown_sums m sel reqs toks h :
  sums m toks ->
  (forall k, dget k reqs = grouped num sel h k) ->
  (forall k, dget k toks = grouped aggregate sel h k) ->
  field_sum "requests" (breakdown reqs toks) = total_requests m /\
  field_sum "input_tokens" (breakdown reqs toks) = total_input_tokens m /\
  field_sum "output_tokens" (breakdown reqs toks) = total_output_tokens m /\
  field_sum "cached_tokens" (breakdown reqs toks) = total_cached_tokens m /\
  field_sum "estimated_cost_micros" (breakdown reqs toks) = total_cost_micros m.
Proof.
  intros [] Hr Ht. split_and!.
  - rewrite requests_sum_breakdown; [done..|]. intros k t Hk. rewrite Hr, Ht in *.
    by apply grouped_count.
  - by rewrite (field_sum_breakdown _ input_tokens).
  - by rewrite (field_sum_breakdown _ output_tokens).
  - by rewrite (field_sum_breakdown _ cached_tokens).
  - by rewrite (field_sum_breakdown _ estimated_cost_micros).
Qed.

(** ** Properties *)

(** Whatever sequence of requests and resets a proxy has served, every counter is the
    corresponding aggregate of the requests recorded since the last reset, and each
    per-tier, per-model and failure-type entry exists exactly when one of those requests
    belongs to it and holds the aggregate (with the latencies' float sum in recording
    order) of those that do. *)
Theorem metrics_refine_history now mono ops :
  agrees (run (new_metrics now mono) ops) (history ops).
Proof. apply agrees_run, agrees_new. Qed.

(** In every snapshot the per-tier and the per-model rows each sum to the proxy's
    totals of requests, input, output and cached tokens and cost, and the requests with a
    reported cost and those without one make up all requests. *)
Theorem snapshot_conserves now mono ops mono' :
  let s := VDict (snapshot mono' (run (new_metrics now mono) ops)) in
  Forall (fun table =>
    field_sum "requests" (path [table] s) = int_at ["total_requests"] s /\
    field_sum "input_tokens" (path [table] s) = int_at ["tokens"; "input"] s /\
    field_sum "output_tokens" (path [table] s) = int_at ["tokens"; "output"] s /\
    field_sum "cached_tokens" (path [table] s) = int_at ["tokens"; "cached"] s /\
    field_sum "estimated_cost_micros" (path [table] s) = int_at ["costs"; "total_micros"] s)
    ["by_tier"; "by_model"] /\
  int_at ["costs"; "reported_request_count"] s + int_at ["costs"; "unavailable_request_count"] s
  = int_at ["total_requests"] s.
Proof.
  set (m := run (new_metrics now mono) ops).
  assert (Ha : agrees m (history ops)) by apply agrees_run, agrees_new.
  destruct (sums_run (new_metrics now mono) ops) as [Ht Hm];
    [split; simpl; done || apply NoDup_nil_2..|]. fold m in Ht, Hm.
  destruct Ha. unfold int_at. simpl. split; [|lia].
  repeat apply Forall_cons_2; [| |apply Forall_nil_2]; by eapply breakdown_sums.
Qed.

(** A day of requests: two tiers, one failure without a reported cost, a reset in between. *)
Example sample_history :
  let r t f c := {| r_tier := t; r_model := "m"; r_input := 10; r_output := 3; r_cached := 1;
                    r_latency := float_of_Z 5; r_streaming := true; r_failed := f;
                    r_error_type := Some "timeout"; r_cost := c |} in
  let m := run (new_metrics "t0" float_zero)
             [ORecord (r "opus" false (Some 9)) "t1"; OReset;
              ORecord (r "haiku" true None) "t2"; ORecord (r "opus" false (Some 4)) "t3"] in
  requests_by_tier m = [("haiku", 1); ("opus", 1)] /\ failures_by_type m = [("timeout", 1)] /\
  failed_input_tokens m = 10 /\ total_cost_micros m = 4 /\ cost_unavailable_requests m = 1.
Proof. vm_compute. repeat split. Qed.
