(* ===== verification/SettingsMerge.v ===== *)
(** * SettingsMerge: installing into and uninstalling from Claude settings

    [src/forge/install/settings_merge.py] on the decoded settings: the merge operations
    with the tracking entries they return, [unmerge], [smart_unmerge] and the cleanup. The
    functions that mutate [settings] in place return the new dict; an exception leaves the
    caller's dict unspecified, since every caller drops it. *)

From S2P Require Import Prelude PyValue.

(** A tracked change; [ie_attribution] is the owner's identity. *)
Record InstalledSettingsEntry := {
  ie_key_path : string;
  ie_value : value;
  ie_merge_type : string;
  ie_stable_id : value;
  ie_attribution : string;
}.

(** [json.dumps(entry, sort_keys=True)], as the normal form it determines. *)
Definition _canonical_json (v : value) : value := canonical v.

(** [d.setdefault(k, x)]. *)
Definition setdefault (k : string) (x : value) (d : dict) : dict * value :=
  match dget k d with Some v => (d, v) | None => (dset k x d, x) end.

(** An attribute access on a value that is not a dict. *)
Definition no_attr {A} (v : value) (a : string) : res A :=
  raise AttributeError ("'" +++ type_name v +++ "' object has no attribute '" +++ a +++ "'").

Definition get_dict (v : value) (a : string) : res dict :=
  match v with VDict d => Ok d | _ => no_attr v a end.

Definition mem (x : value) (l : list value) : bool := existsb (py_eq x) l.
Definition mem_canonical (x : value) (l : list value) : bool :=
  existsb (value_eqb (_canonical_json x)) l.

(** ** Equality of settings *)

(** [_deep_equals]: same type at every level. *)
Fixpoint _deep_equals (a b : value) {struct a} : bool :=
  match a, b with
  | VDict d, VDict e =>
      forallb (fun p => dhas (fst p) e) d && forallb (fun p => dhas (fst p) d) e
      && forallb (fun p => match dget (fst p) e with
                           | Some w => _deep_equals (snd p) w
                           | None => false
                           end) d
  | VList l, VList m =>
      Nat.eqb (length l) (length m)
      && (fix go l m :=
            match l, m with
            | x :: l, y :: m => _deep_equals x y && go l m
            | _, _ => true
            end) l m
  | _, _ => String.eqb (type_name a) (type_name b) && py_eq a b
  end.

Definition _is_empty_value (v : value) : bool :=
  match v with
  | VNone => true
  | VList l => match l with [] => true | _ => false end
  | VDict d => match d with [] => true | _ => false end
  | VStr s => String.eqb s ""
  | _ => false
  end.

(** ** Merge operations *)

(** The loop of [merge_hooks]: the hook list and the entries added. *)
Fixpoint merge_hook_list (hook_type attribution : string) (entries existing seen : list value)
    : list value * list InstalledSettingsEntry :=
  match entries with
  | [] => (existing, [])
  | e :: entries =>
      let c := _canonical_json e in
      if existsb (value_eqb c) seen then merge_hook_list hook_type attribution entries existing seen
      else
        let '(l, added) :=
          merge_hook_list hook_type attribution entries (existing ++ [e]) (seen ++ [c]) in
        (l, {| ie_key_path := "hooks." +++ hook_type; ie_value := e; ie_merge_type := "append";
               ie_stable_id := c; ie_attribution := attribution |} :: added)
  end.

Definition dicts_of (l : list value) : list value := List.filter is_dict l.

Definition merge_hooks (settings : dict) (hook_type : string) (entries : list value)
    (attribution : string) : res (dict * list InstalledSettingsEntry) :=
  let '(settings, hooks_v) := setdefault "hooks" (VDict []) settings in
  hooks ← get_dict hooks_v "setdefault";
  let '(hooks, existing_v) := setdefault hook_type (VList []) hooks in
  match existing_v with
  | VList existing =>
      let '(l, added) := merge_hook_list hook_type attribution entries existing
                           (map _canonical_json (dicts_of existing)) in
      Ok (dset "hooks" (VDict (dset hook_type (VList l) hooks)) settings, added)
  | v =>
      _ ← py_list v;
      match entries with
      | [] => Ok (dset "hooks" (VDict hooks) settings, [])
      | _ => no_attr v "append"
      end
  end.

(** The loop of [merge_permissions]. *)
Fixpoint merge_permission_list (perm_type attribution : string) (entries existing : list value)
    (seen : list value) : res (list value * list InstalledSettingsEntry) :=
  match entries with
  | [] => Ok (existing, [])
  | e :: entries =>
      if negb (hashable e) then raise TypeError ("unhashable type: '" +++ type_name e +++ "'")
      else if mem e seen then merge_permission_list perm_type attribution entries existing seen
      else
        r ← merge_permission_list perm_type attribution entries (existing ++ [e]) (seen ++ [e]);
        Ok (r.1, {| ie_key_path := "permissions." +++ perm_type; ie_value := e;
                    ie_merge_type := "union"; ie_stable_id := e;
                    ie_attribution := attribution |} :: r.2)
  end.

Definition merge_permissions (settings : dict) (perm_type : string) (entries : list value)
    (attribution : string) : res (dict * list InstalledSettingsEntry) :=
  let '(settings, perms_v) := setdefault "permissions" (VDict []) settings in
  perms ← get_dict perms_v "setdefault";
  let '(perms, existing_v) := setdefault perm_type (VList []) perms in
  existing_set ← py_set existing_v;
  match existing_v with
  | VList existing =>
      r ← merge_permission_list perm_type attribution entries existing existing_set;
      Ok (dset "permissions" (VDict (dset perm_type (VList r.1) perms)) settings, r.2)
  | v =>
      match List.filter (fun e => negb (mem e existing_set)) entries with
      | [] => Ok (dset "permissions" (VDict perms) settings, [])
      | _ => no_attr v "append"
      end
  end.

(** [sorted(d.items())]. *)
Definition sorted_items (d : dict) : list (string * value) := sort_by fst d.

Definition merge_env (settings forge_env : dict) (attribution : string)
    : res (dict * list InstalledSettingsEntry) :=
  let '(settings, env_v) := setdefault "env" (VDict []) settings in
  match env_v with
  | VDict env =>
      let items := sorted_items forge_env in
      Ok (dset "env" (VDict (fold_left (fun d '(k, v) => dset k v d) items env)) settings,
          map (fun '(k, v) => {| ie_key_path := "env." +++ k; ie_value := v; ie_merge_type := "env";
                                 ie_stable_id := VStr k; ie_attribution := attribution |}) items)
  | v =>
      match forge_env with
      | [] => Ok (settings, [])
      | _ => raise TypeError ("'" +++ type_name v +++ "' object does not support item assignment")
      end
  end.

Definition set_scalar (settings : dict) (key : string) (v : value) (attribution : string)
    (force : bool) : res (dict * option InstalledSettingsEntry) :=
  let current := dgetv key settings in
  if negb (bool_decide (current = VNone)) && negb (py_eq current v) && negb force
  then raise SettingsConflictError ("settings conflict at '" +++ key +++ "'")
  else if py_eq current v then Ok (settings, None)
  else Ok (dset key v settings,
           Some {| ie_key_path := key; ie_value := v; ie_merge_type := "scalar";
                   ie_stable_id := VStr key; ie_attribution := attribution |}).

(** ** Full merge *)

Record MergeOptions := {
  mo_force : bool;
  mo_statusline : bool;
  mo_hooks : bool;
  mo_permissions : bool;
  mo_env : bool;
}.

(** [attributions[k]]. *)
Definition attribution_of (attributions : list (string * string)) (k : string) : res string :=
  match dget k attributions with Some a => Ok a | None => raise KeyError (py_repr k) end.

Definition acc := (dict * list InstalledSettingsEntry)%type.

Definition merge_hooks_step (attributions : list (string * string)) (a : acc) (p : string * value)
    : res acc :=
  owner ← attribution_of attributions "hooks";
  entries ← py_list p.2;
  r ← merge_hooks a.1 p.1 entries owner;
  Ok (r.1, a.2 ++ r.2).

(** [if allow := forge_perms.get(kind)]. *)
Definition merge_permissions_step (attributions : list (string * string)) (perms : dict)
    (a : acc) (kind : string) : res acc :=
  let v := dgetv kind perms in
  if truthy v then
    owner ← attribution_of attributions "permissions";
    entries ← py_list v;
    r ← merge_permissions a.1 kind entries owner;
    Ok (r.1, a.2 ++ r.2)
  else Ok a.

Definition merge (settings forge_settings : dict) (attributions : list (string * string))
    (o : MergeOptions) : res acc :=
  let a := (settings, []) in
  a ← (if mo_hooks o then
         hooks ← get_dict (dget_default "hooks" (VDict []) forge_settings) "items";
         foldM_res (merge_hooks_step attributions) a (sorted_items hooks)
       else Ok a);
  a ← (if mo_permissions o then
         perms ← get_dict (dget_default "permissions" (VDict []) forge_settings) "get";
         foldM_res (merge_permissions_step attributions perms) a ["allow"; "deny"]
       else Ok a);
  a ← (match dget "statusLine" forge_settings with
       | Some v =>
           if mo_statusline o then
             owner ← attribution_of attributions "status-line";
             r ← set_scalar a.1 "statusLine" v owner (mo_force o);
             Ok (r.1, a.2 ++ option_list r.2)
           else Ok a
       | None => Ok a
       end);
  if mo_env o && truthy (dgetv "env" forge_settings) then
    owner ← attribution_of attributions "permissions";
    env ← get_dict (dgetv "env" forge_settings) "items";
    r ← merge_env a.1 env owner;
    Ok (r.1, a.2 ++ r.2)
  else Ok a.

(** ** The structure of what was added *)

(** [added.setdefault(section, {}).setdefault(kind, []).append(v)]. *)
Definition append_to (section kind : string) (v : value) (added : dict) : dict :=
  let d := match dget section added with Some (VDict d) => d | _ => [] end in
  let l := match dget kind d with Some (VList l) => l | _ => [] end in
  dset section (VDict (dset kind (VList (l ++ [v])) d)) added.

(** [key_path.split(".", 1)[1]] of a path that starts with [prefix]. *)
Definition strip_prefix (prefix path : string) : option string :=
  if startswith prefix path then Some (str_drop (String.length prefix) path) else None.

Definition add_entry (added : dict) (e : InstalledSettingsEntry) : dict :=
  match strip_prefix "hooks." (ie_key_path e) with
  | Some kind => append_to "hooks" kind (ie_value e) added
  | None =>
  match strip_prefix "permissions." (ie_key_path e) with
  | Some kind => append_to "permissions" kind (ie_value e) added
  | None =>
  match strip_prefix "env." (ie_key_path e) with
  | Some k =>
      let d := match dget "env" added with Some (VDict d) => d | _ => [] end in
      dset "env" (VDict (dset k (ie_value e) d)) added
  | None =>
      if String.eqb (ie_merge_type e) "scalar" then dset (ie_key_path e) (ie_value e) added else added
  end end end.

Definition entries_to_added_structure (entries : list InstalledSettingsEntry) : dict :=
  fold_left add_entry entries [].

(** ** Unmerge *)

(** The loops of [smart_unmerge] over one section's kinds: [keep] filters a list. *)
Definition smart_kind (keep : list value -> value -> bool) (section : dict) (p : string * value)
    : res dict :=
  match dget p.1 section with
  | Some (VList current) =>
      added ← py_list p.2;
      Ok (dset p.1 (VList (List.filter (keep added) current)) section)
  | _ => Ok section
  end.

Definition keep_hook (added : list value) (item : value) : bool :=
  negb (is_dict item) || negb (mem_canonical item (map _canonical_json (dicts_of added))).

Definition keep_permission (added : list value) (item : value) : bool := negb (mem item added).

(** One collection section ("hooks" or "permissions") of [smart_unmerge]. *)
Definition smart_section (name : string) (keep : list value -> value -> bool) (added result : dict)
    : res dict :=
  match dget name added with
  | None => Ok result
  | Some added_v =>
      kinds ← get_dict added_v "items";
      match dget name result with
      | Some (VDict d) => d' ← foldM_res (smart_kind keep) d kinds; Ok (dset name (VDict d') result)
      | _ => Ok result
      end
  end.

(** The value is ours: put back the backup's, or delete. *)
Definition restore_key (k : string) (backup_value : value) (d : dict) : dict :=
  match backup_value with VNone => ddel k d | v => dset k v d end.

Definition smart_env_step (backup_env : dict) (env : dict) (p : string * value) : dict :=
  match dget p.1 env with
  | None => env
  | Some current =>
      if py_eq current p.2 then restore_key p.1 (dgetv p.1 backup_env) env else env
  end.

Definition smart_env (backup added result : dict) : res dict :=
  match dget "env" added, dget "env" result with
  | Some added_v, Some (VDict env) =>
      backup_env ← get_dict (dget_default "env" (VDict []) backup) "get";
      kinds ← get_dict added_v "items";
      Ok (dset "env" (VDict (fold_left (smart_env_step backup_env) kinds env)) result)
  | _, _ => Ok result
  end.

Definition smart_scalar_step (backup : dict) (result : dict) (p : string * value) : dict :=
  if bool_decide (p.1 ∈ ["hooks"; "permissions"; "env"]) then result
  else match dget p.1 result with
  | None => result
  | Some current =>
      if _deep_equals current p.2 then restore_key p.1 (dgetv p.1 backup) result else result
  end.

Definition smart_unmerge (current backup added : dict) : res dict :=
  result ← smart_section "hooks" keep_hook added current;
  result ← smart_section "permissions" keep_permission added result;
  result ← smart_env backup added result;
  Ok (fold_left (smart_scalar_step backup) added result).

(** One section of [cleanup_empty_settings]. *)
Definition cleanup_section (name : string) (result : dict) : res dict :=
  match dget name result with
  | None => Ok result
  | Some v =>
      d ← get_dict v "items";
      let d := List.filter (fun p => truthy (snd p)) d in
      Ok (match d with [] => ddel name result | _ => dset name (VDict d) result end)
  end.

Definition cleanup_empty_settings (settings : dict) : res dict :=
  r ← cleanup_section "hooks" settings;
  r ← cleanup_section "permissions" r;
  cleanup_section "env" r.

Definition settings_equal (a b : dict) : res bool :=
  a ← cleanup_empty_settings a;
  b ← cleanup_empty_settings b;
  Ok (_deep_equals (VDict a) (VDict b)).

(** ** Pre-checks *)

Definition section_list (current_settings : dict) (section kind : string) : res (list value) :=
  d ← get_dict (dget_default section (VDict []) current_settings) "get";
  py_list (dget_default kind (VList []) d).

Definition hooks_already_present (current_settings : dict) (hook_type : string)
    (entries : list value) : res bool :=
  existing ← section_list current_settings "hooks" hook_type;
  Ok (forallb (fun e => mem_canonical e (map _canonical_json existing)) entries).

Definition permissions_already_present (current_settings : dict) (perm_type : string)
    (entries : list value) : res bool :=
  d ← get_dict (dget_default "permissions" (VDict []) current_settings) "get";
  existing ← py_set (dget_default perm_type (VList []) d);
  Ok (forallb (fun e => mem e existing) entries).

Definition scalar_already_set (current_settings : dict) (key : string) (v : value) : bool :=
  py_eq (dgetv key current_settings) v.

(** ** Unmerge from the tracking entries *)

(** [k in v] for the containers JSON has. *)
Definition py_in (k : string) (v : value) : res bool :=
  match v with
  | VDict d => Ok (dhas k d)
  | VList l => Ok (mem (VStr k) l)
  | VStr s => Ok (contains k s)
  | _ => raise TypeError ("argument of type '" +++ type_name v +++ "' is not iterable")
  end.

(** [by_key]: the entries of each key path, in order of first occurrence. *)
Definition group_entry (g : list (string * list InstalledSettingsEntry)) (e : InstalledSettingsEntry)
    : list (string * list InstalledSettingsEntry) :=
  dset (ie_key_path e) (dget_default (ie_key_path e) [] g ++ [e]) g.

Definition by_key (entries : list InstalledSettingsEntry) : list (string * list InstalledSettingsEntry) :=
  fold_left group_entry entries [].

(** One key path of a collection section: drop the items [drop] selects. *)
Definition unmerge_kind (prefix : string)
    (drop : list InstalledSettingsEntry -> value -> res bool) (section : value)
    (g : string * list InstalledSettingsEntry) : res value :=
  match strip_prefix prefix g.1 with
  | None => Ok section
  | Some kind =>
      present ← py_in kind section;
      if (present : bool) then
        match section with
        | VDict d =>
            items ← py_list (dgetv kind d);
            kept ← foldM_res (fun acc x => b ← drop g.2 x; Ok (if (b : bool) then acc else acc ++ [x])) [] items;
            Ok (VDict (dset kind (VList kept) d))
        | _ => raise TypeError "indices must be integers or slices, not str"
        end
      else Ok section
  end.

Definition drop_hook (entries : list InstalledSettingsEntry) (h : value) : res bool :=
  let tracked := map _canonical_json
                   (List.filter (fun v => truthy v && is_dict v) (map ie_value entries)) in
  Ok (is_dict h && mem_canonical h tracked).

Definition drop_permission (entries : list InstalledSettingsEntry) (p : value) : res bool :=
  if hashable p then Ok (mem p (map ie_stable_id entries))
  else raise TypeError ("unhashable type: '" +++ type_name p +++ "'").

Definition unmerge_section (name prefix : string)
    (drop : list InstalledSettingsEntry -> value -> res bool)
    (groups : list (string * list InstalledSettingsEntry)) (settings : dict) : res dict :=
  let section := dget_default name (VDict []) settings in
  section ← foldM_res (unmerge_kind prefix drop) section groups;
  Ok (if dhas name settings then dset name section settings else settings).

Definition unmerge_env_kind (section : value) (g : string * list InstalledSettingsEntry) : res value :=
  match strip_prefix "env." g.1 with
  | None => Ok section
  | Some k =>
      present ← py_in k section;
      if (present : bool) then
        match section with
        | VDict d =>
            Ok (if existsb (fun e => _deep_equals (dgetv k d) (ie_value e)) g.2
                then VDict (ddel k d) else section)
        | _ => raise TypeError "indices must be integers or slices, not str"
        end
      else Ok section
  end.

Definition unmerge_scalar (settings : dict) (g : string * list InstalledSettingsEntry) : dict :=
  match g.2 with
  | e :: _ =>
      if String.eqb (ie_merge_type e) "scalar" then
        match dget g.1 settings with
        | Some v => if existsb (fun e => _deep_equals v (ie_value e)) g.2 then ddel g.1 settings else settings
        | None => settings
        end
      else settings
  | [] => settings
  end.

Definition unmerge (settings : dict) (tracking_entries : list InstalledSettingsEntry) : res dict :=
  let groups := by_key tracking_entries in
  settings ← unmerge_section "hooks" "hooks." drop_hook groups settings;
  settings ← unmerge_section "permissions" "permissions." drop_permission groups settings;
  let env := dget_default "env" (VDict []) settings in
  env ← foldM_res unmerge_env_kind env groups;
  let settings := if dhas "env" settings then dset "env" env settings else settings in
  let settings := match dget "env" settings with
                  | Some v => if truthy v then settings else ddel "env" settings
                  | None => settings
                  end in
  Ok (fold_left unmerge_scalar groups settings).

(** ** Specification *)

(** The value a section holds for a kind, and the list there. *)
Definition entry_at (s : dict) (section kind : string) : option value :=
  match dget section s with Some (VDict d) => dget kind d | _ => None end.

Definition items_at (s : dict) (section kind : string) : list value :=
  match entry_at s section kind with Some (VList l) => l | _ => [] end.

(** The entry when it is not empty: what the cleanup leaves. *)
Definition visible (s : dict) (section kind : string) : option value :=
  match entry_at s section kind with
  | Some v => if truthy v then Some v else None
  | None => None
  end.

Definition sections : list string := ["hooks"; "permissions"; "env"].

(** Settings as Claude Code writes them. *)
Record settings_ok (s : dict) : Prop := {
  so_keys : NoDup (dkeys s);
  so_section : forall n v, n ∈ sections -> dget n s = Some v ->
    exists d, v = VDict d /\ NoDup (dkeys d);
  so_hooks : forall t v, entry_at s "hooks" t = Some v -> exists l, v = VList l;
  so_permissions : forall t v, t ∈ ["allow"; "deny"] -> entry_at s "permissions" t = Some v ->
    exists l, v = VList l;
  so_env : forall k, entry_at s "env" k <> Some VNone;
  so_statusline : dget "statusLine" s <> Some VNone;
}.

(** A Forge template: hook entries are objects, permissions and environment values are text. *)
Record template_ok (f : dict) : Prop := {
  to_hooks : forall d, dget_default "hooks" (VDict []) f = VDict d ->
    NoDup (dkeys d) /\ forall t v, dget t d = Some v -> exists l, v = VList l /\ Forall (fun e => is_dict e = true) l;
  to_permissions : forall d, dget_default "permissions" (VDict []) f = VDict d ->
    forall t v, dget t d = Some v -> exists l, v = VList (map VStr l);
  to_env : forall d, dgetv "env" f = VDict d ->
    NoDup (dkeys d) /\ forall k v, dget k d = Some v -> exists t, v = VStr t;
  to_statusline : forall v, dget "statusLine" f = Some v -> v <> VNone /\ _deep_equals v v = true;
}.

(** ** Lemmas: sections *)

Definition sec (n : string) (s : dict) : dict := match dget n s with Some (VDict d) => d | _ => [] end.

(** Replace one entry of a section. *)
Definition put (n t : string) (v : value) (s : dict) : dict := dset n (VDict (dset t v (sec n s))) s.

Lemma entry_at_dset n d s m k :
  entry_at (dset n (VDict d) s) m k = if decide (m = n) then dget k d else entry_at s m k.
Proof. unfold entry_at. rewrite dget_dset. by case_decide. Qed.

Lemma dget_sec n s k : dget k (sec n s) = entry_at s n k.
Proof. unfold sec, entry_at. by destruct (dget n s) as [[]|]. Qed.

Lemma entry_at_put n t v s m k :
  entry_at (put n t v s) m k = if decide (m = n) then if decide (k = t) then Some v else entry_at s m k
                               else entry_at s m k.
Proof.
  unfold put. rewrite entry_at_dset. case_decide as Hm; [|done]. subst. rewrite dget_dset, dget_sec.
  done.
Qed.

Lemma setdefault_dset k x y (d d' : dict) v :
  setdefault k x d = (d', v) -> dset k y d' = dset k y d /\ v = dget_default k x d.
Proof.
  unfold setdefault, dget_default. destruct (dget k d); intros [= <- <-]; [done|].
  by rewrite dset_dset.
Qed.

(** The dicts the code can index: keys unique, sections objects. *)
Record shaped (s : dict) : Prop := {
  sh_keys : NoDup (dkeys s);
  sh_section : forall n v, n ∈ sections -> dget n s = Some v ->
    exists d, v = VDict d /\ NoDup (dkeys d);
}.

Lemma settings_ok_shaped s : settings_ok s -> shaped s.
Proof. intros []. by split. Qed.

Lemma NoDup_sec n s : shaped s -> n ∈ sections -> NoDup (dkeys (sec n s)).
Proof.
  intros [_ Hs] Hn. unfold sec. destruct (dget n s) as [v|] eqn:Hv; [|constructor].
  destruct (Hs n v Hn Hv) as (d & -> & ?). done.
Qed.

Lemma shaped_dset n d s : shaped s -> NoDup (dkeys d) -> shaped (dset n (VDict d) s).
Proof.
  intros [Hk Hs] Hd. split; [by apply NoDup_dset|]. intros m v Hm. rewrite dget_dset.
  case_decide; [intros [= <-]; eauto|by apply Hs].
Qed.

Lemma shaped_put n t v s : shaped s -> n ∈ sections -> shaped (put n t v s).
Proof. intros Hs Hn. apply shaped_dset; [done|]. by apply NoDup_dset, NoDup_sec. Qed.

Lemma dget_default_sec n s : shaped s -> n ∈ sections -> dget_default n (VDict []) s = VDict (sec n s).
Proof.
  intros [_ Hs] Hn. unfold dget_default, sec. destruct (dget n s) as [v|] eqn:Hv; [|done].
  by destruct (Hs n v Hn Hv) as (d & -> & _).
Qed.

(** ** Lemmas: the merge of one list *)

Lemma mem_app x a b : mem x (a ++ b) = mem x a || mem x b.
Proof. apply existsb_app. Qed.

Lemma merge_hook_list_spec t a entries existing seen l added :
  merge_hook_list t a entries existing seen = (l, added) ->
  Forall (fun e => is_dict e = true) entries ->
  l = existing ++ map ie_value added
  /\ Forall (fun e => ie_key_path e = "hooks." +++ t /\ is_dict (ie_value e) = true
                      /\ mem_canonical (ie_value e) seen = false) added.
Proof.
  revert existing seen l added. induction entries as [|e entries IH]; intros existing seen l added; simpl.
  { intros [= <- <-] _. simpl. by rewrite app_nil_r. }
  intros H [He Hall]%Forall_cons. destruct (existsb _ seen) eqn:Hs; [by eapply IH|].
  destruct (merge_hook_list t a entries (existing ++ [e]) _) as [l' added'] eqn:Hm.
  injection H as <- <-. destruct (IH _ _ _ _ Hm Hall) as [-> Hf]. simpl. rewrite <- app_assoc.
  split; [done|]. constructor; [done|]. eapply Forall_impl; [exact Hf|]. simpl.
  intros x (? & ? & Hx). split_and!; [done..|]. unfold mem_canonical in Hx.
  rewrite existsb_app in Hx. by apply orb_false_iff in Hx as [? _].
Qed.

Lemma merge_hooks_ok s t entries a s' added :
  shaped s -> (forall v, entry_at s "hooks" t = Some v -> exists l, v = VList l) ->
  Forall (fun e => is_dict e = true) entries ->
  merge_hooks s t entries a = Ok (s', added) ->
  s' = put "hooks" t (VList (items_at s "hooks" t ++ map ie_value added)) s
  /\ Forall (fun e => ie_key_path e = "hooks." +++ t /\ is_dict (ie_value e) = true
       /\ mem_canonical (ie_value e) (map _canonical_json (dicts_of (items_at s "hooks" t))) = false) added.
Proof.
  intros Hs Hl He. unfold merge_hooks.
  destruct (setdefault "hooks" (VDict []) s) as [s1 v1] eqn:E1.
  destruct (setdefault_dset _ _ (VDict []) _ _ _ E1) as [_ ->].
  rewrite dget_default_sec by (done || set_solver). simpl.
  destruct (setdefault t (VList []) (sec "hooks" s)) as [h1 v2] eqn:E2.
  destruct (setdefault_dset _ _ VNone _ _ _ E2) as [_ ->].
  assert (dget_default t (VList []) (sec "hooks" s) = VList (items_at s "hooks" t)) as ->.
  { unfold dget_default, items_at. rewrite dget_sec. destruct (entry_at s "hooks" t) as [v|] eqn:Hv; [|done].
    by destruct (Hl v eq_refl) as [l ->]. }
  destruct (merge_hook_list _ _ _ _ _) as [l add] eqn:Hm. intros [= <- <-].
  destruct (merge_hook_list_spec _ _ _ _ _ _ _ Hm He) as [-> Hf]. split; [|done]. unfold put.
  destruct (setdefault_dset _ _ (VList (items_at s "hooks" t ++ map ie_value add)) _ _ _ E2) as [-> _].
  by destruct (setdefault_dset _ _ (VDict (dset t (VList (items_at s "hooks" t ++ map ie_value add))
    (sec "hooks" s))) _ _ _ E1) as [-> _].
Qed.

Lemma merge_permission_list_spec t a entries existing seen l added :
  merge_permission_list t a (map VStr entries) existing seen = Ok (l, added) ->
  l = existing ++ map ie_value added
  /\ Forall (fun e => ie_key_path e = "permissions." +++ t
                      /\ exists p, ie_value e = VStr p /\ mem (VStr p) seen = false) added.
Proof.
  revert existing seen l added. induction entries as [|e entries IH]; intros existing seen l added; simpl.
  { intros [= <- <-]. simpl. by rewrite app_nil_r. }
  destruct (mem (VStr e) seen) eqn:Hs; [by apply IH|].
  destruct (merge_permission_list t a (map VStr entries) (existing ++ [VStr e]) (seen ++ [VStr e]))
    as [[l' added']|] eqn:Hm; simpl; [|done].
  intros [= <- <-]. destruct (IH _ _ _ _ Hm) as [-> Hf]. simpl. rewrite <- app_assoc. split; [done|].
  constructor; [simpl; eauto|]. eapply Forall_impl; [exact Hf|]. simpl.
  intros x (? & p & ? & Hx). split; [done|]. exists p. rewrite mem_app in Hx.
  by apply orb_false_iff in Hx as [? _].
Qed.

Lemma mem_set_add p v l : mem (VStr p) (set_add v l) = mem (VStr p) l || py_eq (VStr p) v.
Proof.
  unfold set_add. destruct (existsb (py_eq v) l) eqn:E.
  - destruct (py_eq (VStr p) v) eqn:Hp; [|by rewrite orb_false_r]. rewrite orb_true_r.
    destruct v; try done. simpl in Hp. zbool. by subst.
  - change (mem (VStr p) (l ++ [v]) = mem (VStr p) l || py_eq (VStr p) v).
    rewrite mem_app. unfold mem at 2. simpl existsb. by rewrite orb_false_r.
Qed.

Lemma mem_py_set p l k : mem (VStr p) (fold_left (fun s v => set_add v s) l k)
  = mem (VStr p) k || mem (VStr p) l.
Proof.
  revert k. induction l as [|v l IH]; intros k; simpl; [by rewrite orb_false_r|].
  rewrite IH, mem_set_add. unfold mem at 4. simpl existsb. by rewrite orb_assoc.
Qed.

Lemma merge_permissions_ok s t entries a s' added :
  shaped s -> (forall v, entry_at s "permissions" t = Some v -> exists l, v = VList l) ->
  merge_permissions s t (map VStr entries) a = Ok (s', added) ->
  s' = put "permissions" t (VList (items_at s "permissions" t ++ map ie_value added)) s
  /\ Forall (fun e => ie_key_path e = "permissions." +++ t
       /\ exists p, ie_value e = VStr p /\ mem (VStr p) (items_at s "permissions" t) = false) added.
Proof.
  intros Hs Hl. unfold merge_permissions.
  destruct (setdefault "permissions" (VDict []) s) as [s1 v1] eqn:E1.
  destruct (setdefault_dset _ _ (VDict []) _ _ _ E1) as [_ ->].
  rewrite dget_default_sec by (done || set_solver). simpl.
  destruct (setdefault t (VList []) (sec "permissions" s)) as [h1 v2] eqn:E2.
  destruct (setdefault_dset _ _ VNone _ _ _ E2) as [_ ->].
  assert (dget_default t (VList []) (sec "permissions" s) = VList (items_at s "permissions" t)) as ->.
  { unfold dget_default, items_at. rewrite dget_sec.
    destruct (entry_at s "permissions" t) as [v|] eqn:Hv; [|done].
    by destruct (Hl v eq_refl) as [l ->]. }
  unfold py_set. simpl. destruct (List.find _ _); simpl; [done|].
  destruct (merge_permission_list _ _ _ _ _) as [[l add]|] eqn:Hm; simpl; [|done]. intros [= <- <-].
  destruct (merge_permission_list_spec _ _ _ _ _ _ _ Hm) as [-> Hf]. split.
  - unfold put.
    destruct (setdefault_dset _ _ (VList (items_at s "permissions" t ++ map ie_value add)) _ _ _ E2) as [-> _].
    by destruct (setdefault_dset _ _ (VDict (dset t (VList (items_at s "permissions" t ++ map ie_value add))
      (sec "permissions" s))) _ _ _ E1) as [-> _].
  - eapply Forall_impl; [exact Hf|]. simpl. intros x (? & p & ? & Hx). split; [done|].
    exists p. split; [done|]. unfold py_set_of in Hx. rewrite mem_py_set in Hx. done.
Qed.

(** ** Lemmas: the merge as a whole *)

(** The values the entries record under a key path. *)
Definition vals (path : string) (es : list InstalledSettingsEntry) : list value :=
  map ie_value (List.filter (fun e => String.eqb (ie_key_path e) path) es).

Lemma vals_app path a b : vals path (a ++ b) = vals path a ++ vals path b.
Proof. unfold vals. by rewrite List.filter_app, map_app. Qed.

Lemma vals_all path es :
  Forall (fun e => ie_key_path e = path) es -> vals path es = map ie_value es.
Proof.
  unfold vals. induction 1 as [|e es He _ IH]; simpl; [done|]. rewrite He, String.eqb_refl. simpl.
  by rewrite IH.
Qed.

Lemma vals_none path es :
  Forall (fun e => ie_key_path e <> path) es -> vals path es = [].
Proof.
  unfold vals. induction 1 as [|e es He _ IH]; simpl; [done|].
  by rewrite (proj2 (String.eqb_neq _ _) He).
Qed.

(** The shapes of the entries a merge records. *)
Inductive tracked (e : InstalledSettingsEntry) : Prop :=
| tracked_hook t : ie_key_path e = "hooks." +++ t -> tracked e
| tracked_permission t : ie_key_path e = "permissions." +++ t -> tracked e
| tracked_env k : ie_key_path e = "env." +++ k -> tracked e
| tracked_scalar : ie_key_path e = "statusLine" -> ie_merge_type e = "scalar" -> tracked e.

(** The settings [s] the merge of [s0] has reached, with the entries [es] recorded. *)
Record merged (s0 s : dict) (es : list InstalledSettingsEntry) : Prop := {
  mg_shaped : shaped s;
  mg_lists : forall t v, entry_at s "hooks" t = Some v -> exists l, v = VList l;
  mg_perm_lists : forall t v, t ∈ ["allow"; "deny"] -> entry_at s "permissions" t = Some v ->
    exists l, v = VList l;
  mg_other : forall k, k ∉ sections -> k <> "statusLine" -> dget k s = dget k s0;
  mg_hooks : forall t,
    items_at s "hooks" t = items_at s0 "hooks" t ++ vals ("hooks." +++ t) es
    /\ Forall (fun v => is_dict v = true
         /\ mem_canonical v (map _canonical_json (dicts_of (items_at s0 "hooks" t))) = false)
         (vals ("hooks." +++ t) es);
  mg_perms : forall t, t ∈ ["allow"; "deny"] ->
    items_at s "permissions" t = items_at s0 "permissions" t ++ vals ("permissions." +++ t) es
    /\ Forall (fun v => exists p, v = VStr p /\ mem v (items_at s0 "permissions" t) = false)
         (vals ("permissions." +++ t) es);
  mg_perm_other : forall t, t ∉ ["allow"; "deny"] ->
    entry_at s "permissions" t = entry_at s0 "permissions" t /\ vals ("permissions." +++ t) es = [];
  mg_env : forall k,
    vals ("env." +++ k) es = [] /\ entry_at s "env" k = entry_at s0 "env" k
    \/ exists t, vals ("env." +++ k) es = [VStr t] /\ entry_at s "env" k = Some (VStr t);
  mg_status :
    vals "statusLine" es = [] /\ dget "statusLine" s = dget "statusLine" s0
    \/ exists v, vals "statusLine" es = [v] /\ dget "statusLine" s = Some v /\ _deep_equals v v = true;
  mg_tracked : Forall tracked es;
}.

(** Key paths of different kinds are different. *)
Lemma app_inj_l p a b : p +++ a = p +++ b -> a = b.
Proof. induction p as [|c p IH]; simpl; [done|]. intros [= H]. auto. Qed.

Lemma items_at_put n t v s m k :
  items_at (put n t (VList v) s) m k =
  if decide (m = n) then if decide (k = t) then v else items_at s m k else items_at s m k.
Proof. unfold items_at. rewrite entry_at_put. by repeat case_decide. Qed.

Lemma dget_put_ne n t v s k : k <> n -> dget k (put n t v s) = dget k s.
Proof. intros. unfold put. by rewrite dget_dset_ne. Qed.

Lemma dicts_of_app a b : dicts_of (a ++ b) = dicts_of a ++ dicts_of b.
Proof. apply List.filter_app. Qed.

Lemma mem_canonical_app x a b : mem_canonical x (a ++ b) = mem_canonical x a || mem_canonical x b.
Proof. apply existsb_app. Qed.

Ltac path_ne := let H := fresh in intros H; try discriminate H; try (apply app_inj_l in H; congruence).

Lemma merged_hooks s0 s es t entries a s' added :
  merged s0 s es -> Forall (fun e => is_dict e = true) entries ->
  merge_hooks s t entries a = Ok (s', added) -> merged s0 s' (es ++ added).
Proof.
  intros [Hsh Hl Hpl Ho Hh Hp Hpo He Hst Ht] Hent Hm.
  destruct (merge_hooks_ok s t entries a s' added Hsh (Hl t) Hent Hm) as [-> Hadd].
  assert (Forall (fun e => ie_key_path e = "hooks." +++ t) added) as Hpath
    by (eapply Forall_impl; [exact Hadd|]; simpl; tauto).
  assert (forall path, path <> "hooks." +++ t -> vals path added = []) as Hnone.
  { intros path Hne. apply vals_none. eapply Forall_impl; [exact Hpath|]. simpl. congruence. }
  split.
  - apply shaped_put; [done|set_solver].
  - intros k v. rewrite entry_at_put, decide_True by done. case_decide; [intros [= <-]; eauto|apply Hl].
  - intros k v Hk. rewrite entry_at_put, decide_False by done. by apply Hpl.
  - intros k Hk Hks. rewrite dget_put_ne by (intros ->; set_solver). by apply Ho.
  - intros k. rewrite items_at_put, decide_True by done. rewrite vals_app.
    destruct (Hh k) as [Hi Hf]. case_decide as Hk.
    + subst k. rewrite Hi, (vals_all _ added Hpath), app_assoc. split; [done|].
      apply Forall_app. split; [done|]. rewrite Forall_map. eapply Forall_impl; [exact Hadd|].
      simpl. intros e (_ & Hd & Hc). split; [done|].
      rewrite Hi, dicts_of_app, map_app, mem_canonical_app in Hc. by apply orb_false_iff in Hc as [? _].
    + rewrite Hnone, app_nil_r by path_ne. done.
  - intros k Hk. rewrite items_at_put, decide_False by done. rewrite vals_app, Hnone, app_nil_r by path_ne.
    by apply Hp.
  - intros k Hk. rewrite entry_at_put, decide_False by done. rewrite vals_app, Hnone, app_nil_r by path_ne.
    by apply Hpo.
  - intros k. rewrite entry_at_put, decide_False by done. rewrite vals_app, Hnone, app_nil_r by path_ne.
    apply He.
  - rewrite vals_app, Hnone, app_nil_r by path_ne. rewrite dget_put_ne by done. done.
  - apply Forall_app. split; [done|]. eapply Forall_impl; [exact Hpath|]. intros e. apply tracked_hook.
Qed.

Lemma merged_permissions s0 s es t entries a s' added :
  merged s0 s es -> t ∈ ["allow"; "deny"] ->
  merge_permissions s t (map VStr entries) a = Ok (s', added) -> merged s0 s' (es ++ added).
Proof.
  intros [Hsh Hl Hpl Ho Hh Hp Hpo He Hst Ht] Htk Hm.
  destruct (merge_permissions_ok s t entries a s' added Hsh (fun v => Hpl t v Htk) Hm) as [-> Hadd].
  assert (Forall (fun e => ie_key_path e = "permissions." +++ t) added) as Hpath
    by (eapply Forall_impl; [exact Hadd|]; simpl; tauto).
  assert (forall path, path <> "permissions." +++ t -> vals path added = []) as Hnone.
  { intros path Hne. apply vals_none. eapply Forall_impl; [exact Hpath|]. simpl. congruence. }
  split.
  - apply shaped_put; [done|set_solver].
  - intros k v. rewrite entry_at_put, decide_False by done. apply Hl.
  - intros k v Hk. rewrite entry_at_put, decide_True by done.
    case_decide; [intros [= <-]; eauto|by apply Hpl].
  - intros k Hk Hks. rewrite dget_put_ne by (intros ->; set_solver). by apply Ho.
  - intros k. rewrite items_at_put, decide_False by done. rewrite vals_app, Hnone, app_nil_r by path_ne.
    apply Hh.
  - intros k Hk. rewrite items_at_put, decide_True by done. rewrite vals_app.
    destruct (Hp k Hk) as [Hi Hf]. case_decide as Hkt.
    + subst k. rewrite Hi, (vals_all _ added Hpath), app_assoc. split; [done|].
      apply Forall_app. split; [done|]. rewrite Forall_map. eapply Forall_impl; [exact Hadd|].
      simpl. intros e (_ & p & -> & Hc). exists p. split; [done|].
      rewrite Hi, mem_app in Hc. by apply orb_false_iff in Hc as [? _].
    + rewrite Hnone, app_nil_r by path_ne. done.
  - intros k Hk. rewrite entry_at_put, decide_True, decide_False by (done || (intros ->; done)).
    rewrite vals_app, Hnone, app_nil_r by (path_ne; intros; subst; done). by apply Hpo.
  - intros k. rewrite entry_at_put, decide_False by done. rewrite vals_app, Hnone, app_nil_r by path_ne.
    apply He.
  - rewrite vals_app, Hnone, app_nil_r by path_ne. rewrite dget_put_ne by done. done.
  - apply Forall_app. split; [done|]. eapply Forall_impl; [exact Hpath|]. intros e.
    apply tracked_permission.
Qed.

Lemma vals_env_items k a (items : list (string * value)) :
  vals ("env." +++ k) (map (fun '(j, v) => {| ie_key_path := "env." +++ j; ie_value := v;
    ie_merge_type := "env"; ie_stable_id := VStr j; ie_attribution := a |}) items)
  = map snd (List.filter (fun p => String.eqb (fst p) k) items).
Proof.
  unfold vals. induction items as [|[j v] items IH]; simpl; [done|].
  destruct (String.eqb_spec j k) as [->|Hne].
  - rewrite String.eqb_refl. simpl. by rewrite IH.
  - rewrite (proj2 (String.eqb_neq _ _)) by path_ne. done.
Qed.

Lemma filter_key k (d : dict) :
  NoDup (dkeys d) -> map snd (List.filter (fun p => String.eqb (fst p) k) d) = option_list (dget k d).
Proof.
  unfold dkeys. induction d as [|[j v] d IH]; csimpl; [done|]. intros [Hj Hnd]%NoDup_cons.
  destruct (String.eqb_spec j k) as [->|Hne].
  - rewrite decide_True by done. simpl. f_equal. rewrite IH by done.
    by rewrite (proj2 (dget_None k d)).
  - rewrite decide_False by congruence. auto.
Qed.

Lemma sorted_items_perm d : sorted_items d ≡ₚ d.
Proof. apply sort_by_perm. Qed.

Lemma NoDup_sorted_items d : NoDup (dkeys d) -> NoDup (dkeys (sorted_items d)).
Proof. unfold dkeys. by rewrite sorted_items_perm. Qed.

Lemma dget_sorted_items k d : NoDup (dkeys d) -> dget k (sorted_items d) = dget k d.
Proof. intros. symmetry. apply dget_perm; [done|]. by rewrite sorted_items_perm. Qed.

Lemma merged_env s0 s es forge_env a s' added :
  merged s0 s es -> (forall k, vals ("env." +++ k) es = []) ->
  NoDup (dkeys forge_env) -> (forall k v, dget k forge_env = Some v -> exists t, v = VStr t) ->
  merge_env s forge_env a = Ok (s', added) -> merged s0 s' (es ++ added).
Proof.
  intros [Hsh Hl Hpl Ho Hh Hp Hpo He Hst Ht] Hnew Hnd Hstr Hm. unfold merge_env in Hm.
  destruct (setdefault "env" (VDict []) s) as [s1 v1] eqn:E1.
  destruct (setdefault_dset _ _ (VDict []) _ _ _ E1) as [_ Hv].
  rewrite dget_default_sec in Hv by (done || set_solver). subst v1. injection Hm as <- <-.
  set (items := sorted_items forge_env) in *. set (env := fold_left _ items (sec "env" s)).
  destruct (setdefault_dset _ _ (VDict env) _ _ _ E1) as [-> _].
  set (added := map _ items).
  assert (Forall (fun e => exists k, ie_key_path e = "env." +++ k) added) as Hpath.
  { unfold added. apply Forall_map, Forall_forall. intros [k v] _. by exists k. }
  assert (forall path, (forall k, path <> "env." +++ k) -> vals path added = []) as Hnone.
  { intros path Hne. apply vals_none. eapply Forall_impl; [exact Hpath|]. simpl.
    intros e [k ->] Heq. by apply (Hne k). }
  assert (env = dupdate (sec "env" s) items) as Eenv by done.
  assert (forall k, dget k env = match dget k forge_env with Some v => Some v | None => entry_at s "env" k end)
    as Hlook.
  { intros k. rewrite Eenv, dget_dupdate by by apply NoDup_sorted_items.
    unfold items. by rewrite dget_sorted_items, dget_sec. }
  assert (NoDup (dkeys env)) as Hnde.
  { rewrite Eenv. apply NoDup_dupdate, NoDup_sec; [done|set_solver]. }
  split.
  - by apply shaped_dset.
  - intros t v. rewrite entry_at_dset, decide_False by done. apply Hl.
  - intros t v Hk. rewrite entry_at_dset, decide_False by done. by apply Hpl.
  - intros k Hk Hks. rewrite dget_dset_ne by (intros ->; set_solver). by apply Ho.
  - intros t. unfold items_at at 1. rewrite entry_at_dset, decide_False by done.
    rewrite vals_app, (Hnone ("hooks." +++ t)), app_nil_r by (intros; path_ne). apply Hh.
  - intros t Hk. unfold items_at at 1. rewrite entry_at_dset, decide_False by done.
    rewrite vals_app, (Hnone ("permissions." +++ t)), app_nil_r by (intros; path_ne). by apply Hp.
  - intros t Hk. rewrite entry_at_dset, decide_False by done.
    rewrite vals_app, (Hnone ("permissions." +++ t)), app_nil_r by (intros; path_ne). by apply Hpo.
  - intros k. rewrite entry_at_dset, decide_True by done. rewrite Hlook, vals_app, Hnew. simpl.
    unfold added. rewrite vals_env_items, filter_key by by apply NoDup_sorted_items.
    unfold items. rewrite dget_sorted_items by done.
    destruct (dget k forge_env) as [v|] eqn:Hk; simpl.
    + destruct (Hstr k v Hk) as [t ->]. right. by exists t.
    + left. split; [done|]. destruct (He k) as [[_ ?]|(? & Hvv & _)]; [done|]. by rewrite Hnew in Hvv.
  - rewrite vals_app, (Hnone "statusLine"), app_nil_r by (intros; path_ne).
    by rewrite dget_dset_ne.
  - apply Forall_app. split; [done|]. eapply Forall_impl; [exact Hpath|]. simpl.
    intros e [k Hk]. by eapply tracked_env.
Qed.

Lemma merged_status s0 s es v a force s' o :
  merged s0 s es -> vals "statusLine" es = [] -> v <> VNone -> _deep_equals v v = true ->
  set_scalar s "statusLine" v a force = Ok (s', o) -> merged s0 s' (es ++ option_list o).
Proof.
  intros Hm Hnew Hv Hd Hs. unfold set_scalar in Hs.
  destruct (_ && _ && _); [done|]. destruct (py_eq _ v); injection Hs as <- <-.
  { simpl. by rewrite app_nil_r. }
  destruct Hm as [Hsh Hl Hpl Ho Hh Hp Hpo He Hst Ht]. simpl option_list.
  assert (forall n k, entry_at (dset "statusLine" v s) n k = if decide (n = "statusLine")
     then match v with VDict d => dget k d | _ => None end else entry_at s n k) as Hent.
  { intros n k. unfold entry_at. rewrite dget_dset. by case_decide. }
  split.
  - destruct Hsh as [Hk Hs']. split; [by apply NoDup_dset|]. intros n w Hn.
    rewrite dget_dset_ne by (intros ->; set_solver). by apply Hs'.
  - intros t w. rewrite Hent, decide_False by done. apply Hl.
  - intros t w Ht'. rewrite Hent, decide_False by done. by apply Hpl.
  - intros k Hk Hks. rewrite dget_dset_ne by done. by apply Ho.
  - intros t. unfold items_at at 1. rewrite Hent, decide_False by done.
    rewrite vals_app. unfold vals at 2 4. simpl. rewrite app_nil_r. apply Hh.
  - intros t Ht'. unfold items_at at 1. rewrite Hent, decide_False by done.
    rewrite vals_app. unfold vals at 2 4. simpl. rewrite app_nil_r. by apply Hp.
  - intros t Ht'. rewrite Hent, decide_False by done.
    rewrite vals_app. unfold vals at 2. simpl. rewrite app_nil_r. by apply Hpo.
  - intros k. rewrite Hent, decide_False by done.
    rewrite vals_app. unfold vals at 2 4. simpl. rewrite app_nil_r. apply He.
  - right. exists v. rewrite vals_app, Hnew, dget_dset_eq. done.
  - apply Forall_app. split; [done|]. constructor; [by apply tracked_scalar|constructor].
Qed.

Lemma merged_start s : settings_ok s -> merged s s [].
Proof.
  intros Hs. pose proof (settings_ok_shaped s Hs). destruct Hs as [_ _ Hh Hp _ _].
  split; try done.
  - intros t. rewrite app_nil_r. by split.
  - intros t _. rewrite app_nil_r. by split.
  - auto.
  - auto.
Qed.

(** Hook entries leave the other key paths alone, and so on. *)
Definition no_env (es : list InstalledSettingsEntry) : Prop := forall k, vals ("env." +++ k) es = [].
Definition no_status (es : list InstalledSettingsEntry) : Prop := vals "statusLine" es = [].

Lemma merge_hooks_paths s t entries a s' added :
  merge_hooks s t entries a = Ok (s', added) -> Forall (fun e => ie_key_path e = "hooks." +++ t) added.
Proof.
  unfold merge_hooks. destruct (setdefault _ _ s) as [s1 v1]. destruct v1; try done. simpl.
  destruct (setdefault _ _ d) as [h1 v2].
  assert (forall es ex seen l add, merge_hook_list t a es ex seen = (l, add) ->
    Forall (fun e => ie_key_path e = "hooks." +++ t) add) as Hl.
  { clear. induction es as [|e es IH]; intros ex seen l add; simpl; [by intros [= <- <-]|].
    destruct (existsb _ seen); [apply IH|].
    destruct (merge_hook_list t a es _ _) as [l' add'] eqn:E. intros [= <- <-].
    constructor; [done|]. by eapply IH. }
  destruct v2; simpl; try (destruct entries; by intros [= <- <-]); try done.
  destruct (merge_hook_list _ _ _ _ _) as [l' add'] eqn:E. intros [= <- <-]. by eapply Hl.
Qed.

Lemma merge_merged s f attrs o s' es :
  settings_ok s -> template_ok f -> merge s f attrs o = Ok (s', es) -> merged s s' es.
Proof.
  intros Hs [Hfh Hfp Hfe Hfs]. unfold merge. intros H.
  set (I a := merged s a.1 a.2 /\ no_env a.2 /\ no_status a.2) in *.
  assert (I (s, [])) as H0 by (split; [by apply merged_start|done]).
  (* hooks *)
  destruct (if mo_hooks o then _ else _) as [a1|] eqn:E1 in H; simpl in H; [|done].
  assert (I a1) as H1.
  { destruct (mo_hooks o); [|by injection E1 as <-].
    destruct (dget_default "hooks" (VDict []) f) as [| | | | | |d] eqn:Ed; try done. simpl in E1.
    destruct (Hfh d eq_refl) as [Hnd Hd].
    eapply (foldM_res_inv I); [|exact H0|exact E1]. clear E1 H0.
    intros [sa ea] [t v] a' Hin (Hm & Hne & Hns) Hstep. unfold merge_hooks_step in Hstep. simpl in Hstep.
    destruct (attribution_of attrs "hooks") as [owner|]; simpl in Hstep; [|done].
    rewrite sorted_items_perm in Hin. apply elem_of_dget in Hin; [|done].
    destruct (Hd t v Hin) as (l & -> & Hall). simpl in Hstep.
    destruct (merge_hooks sa t l owner) as [[s2 add]|] eqn:Em; simpl in Hstep; [|done].
    injection Hstep as <-. pose proof (merge_hooks_paths _ _ _ _ _ _ Em) as Hpath. split_and!; simpl.
    - by eapply merged_hooks.
    - intros k. rewrite vals_app, Hne. apply vals_none. eapply Forall_impl; [exact Hpath|]. simpl.
      intros e ->. path_ne.
    - unfold no_status in *. simpl in Hns. rewrite vals_app, Hns. apply vals_none.
      eapply Forall_impl; [exact Hpath|]. simpl. intros e ->. path_ne. }
  clear E1 H0. (* permissions *)
  destruct (if mo_permissions o then _ else _) as [a2|] eqn:E2 in H; simpl in H; [|done].
  assert (I a2) as H2.
  { destruct (mo_permissions o); [|by injection E2 as <-].
    destruct (dget_default "permissions" (VDict []) f) as [| | | | | |d] eqn:Ed; try done. simpl in E2.
    pose proof (Hfp d eq_refl) as Hd.
    change (foldM_res (merge_permissions_step attrs d) a1 ["allow"; "deny"] = Ok a2) in E2.
    eapply (foldM_res_inv I); [|exact H1|exact E2]. clear E2 H1.
    intros [sa ea] t a' Hin (Hm & Hne & Hns) Hstep. unfold merge_permissions_step in Hstep. simpl in Hstep.
    destruct (truthy (dgetv t d)) eqn:Htr; [|by injection Hstep as <-].
    destruct (attribution_of attrs "permissions") as [owner|]; simpl in Hstep; [|done].
    unfold dgetv, dget_default in Hstep, Htr. destruct (dget t d) as [v|] eqn:Hv; [|done].
    destruct (Hd t v Hv) as (l & ->). simpl in Hstep.
    destruct (merge_permissions sa t (map VStr l) owner) as [[s2 add]|] eqn:Em; simpl in Hstep; [|done].
    injection Hstep as <-.
    destruct (merge_permissions_ok _ _ _ _ _ _ (mg_shaped _ _ _ Hm)
      (fun v => mg_perm_lists _ _ _ Hm t v Hin) Em) as [_ Hadd].
    split_and!; simpl.
    - by eapply merged_permissions.
    - intros k. rewrite vals_app, Hne. apply vals_none. eapply Forall_impl; [exact Hadd|]. simpl.
      intros e [-> _]. path_ne.
    - unfold no_status in *. simpl in Hns. rewrite vals_app, Hns. apply vals_none.
      eapply Forall_impl; [exact Hadd|]. simpl. intros e [-> _]. path_ne. }
  clear E2 H1. (* status line *)
  destruct (match dget "statusLine" f with Some _ => _ | None => _ end) as [a3|] eqn:E3 in H;
    simpl in H; [|done].
  assert (merged s a3.1 a3.2 /\ no_env a3.2) as [Hm3 Hne3].
  { destruct H2 as (Hm & Hne & Hns).
    destruct (dget "statusLine" f) as [v|] eqn:Hv; [|by injection E3 as <-].
    destruct (mo_statusline o); [|by injection E3 as <-].
    destruct (attribution_of attrs "status-line") as [owner|]; simpl in E3; [|done].
    destruct (set_scalar _ _ _ _ _) as [[s2 o2]|] eqn:Es in E3; simpl in E3; [|done].
    injection E3 as <-. destruct (Hfs v eq_refl) as [Hvn Hvd]. simpl. split.
    - by eapply merged_status.
    - intros k. rewrite vals_app, Hne. simpl. unfold set_scalar in Es. repeat case_match; by simplify_eq. }
  clear E3 H2. (* env *)
  destruct (mo_env o && truthy (dgetv "env" f)); [|by injection H as ->].
  destruct (attribution_of attrs "permissions") as [owner|]; simpl in H; [|done].
  destruct (dgetv "env" f) as [| | | | | |env] eqn:Hv; try done. simpl in H.
  destruct (merge_env _ _ _) as [[s2 add]|] eqn:Es in H; simpl in H; [|done]. injection H as <- <-.
  destruct (Hfe env eq_refl) as [Hnd Hstr]. by eapply merged_env.
Qed.

(** ** Lemmas: the structure of what was added *)

Definition nonempty (l : list value) : option value :=
  match l with [] => None | _ => Some (VList l) end.

Record added_ok (A : dict) (es : list InstalledSettingsEntry) : Prop := {
  ad_shaped : shaped A;
  ad_hooks : forall t, entry_at A "hooks" t = nonempty (vals ("hooks." +++ t) es);
  ad_perms : forall t, entry_at A "permissions" t = nonempty (vals ("permissions." +++ t) es);
  ad_env : forall k, entry_at A "env" k = last (vals ("env." +++ k) es);
  ad_status : dget "statusLine" A = last (vals "statusLine" es);
  ad_keys : forall k, k ∈ dkeys A -> k ∈ sections \/ k = "statusLine";
}.

Lemma strip_prefix_app p t : strip_prefix p (p +++ t) = Some t.
Proof.
  unfold strip_prefix. assert (startswith p (p +++ t) = true) as ->.
  { induction p as [|c p IH]; simpl; [by destruct t|]. by destruct (ascii_dec c c). }
  f_equal. by induction p.
Qed.

Lemma append_to_put n t v A : append_to n t v A = put n t (VList (items_at A n t ++ [v])) A.
Proof.
  unfold append_to, put, items_at. fold (sec n A). rewrite dget_sec.
  by destruct (entry_at A n t) as [[]|].
Qed.

Lemma nonempty_items l : match nonempty l with Some (VList k) => k | _ => [] end = l.
Proof. by destruct l. Qed.

Lemma nonempty_Some l v : nonempty l = Some v -> exists k, v = VList k.
Proof. destruct l; simpl; [done|]. intros [= <-]. eauto. Qed.

Lemma nonempty_snoc l v : nonempty (l ++ [v]) = Some (VList (l ++ [v])).
Proof. by destruct l. Qed.

Lemma vals_one path e : vals path [e] = if String.eqb (ie_key_path e) path then [ie_value e] else [].
Proof. unfold vals. simpl. by destruct (String.eqb (ie_key_path e) path). Qed.

Lemma dkeys_put_in n t v A k : k ∈ dkeys (put n t v A) -> k = n \/ k ∈ dkeys A.
Proof. unfold put. rewrite dkeys_dset. case_decide; set_solver. Qed.

Lemma eqb_ne a b : a <> b -> String.eqb a b = false.
Proof. apply String.eqb_neq. Qed.

Lemma eqb_prefix p a b : String.eqb (p +++ a) (p +++ b) = String.eqb a b.
Proof.
  destruct (String.eqb_spec a b) as [->|Hne]; [apply String.eqb_refl|]. apply eqb_ne.
  by intros ?%app_inj_l.
Qed.

(** Adding to one list section. *)
Lemma added_list n p A es e t :
  (n = "hooks" /\ p = "hooks." \/ n = "permissions" /\ p = "permissions.") ->
  added_ok A es -> ie_key_path e = p +++ t -> added_ok (append_to n t (ie_value e) A) (es ++ [e]).
Proof.
  intros Hn [Hs Hh Hp He Hst Hk] Hpath. rewrite append_to_put.
  assert (items_at A n t = vals (p +++ t) es) as ->.
  { unfold items_at. destruct Hn as [[-> ->]|[-> ->]]; [rewrite Hh|rewrite Hp]; apply nonempty_items. }
  split.
  - apply shaped_put; [done|]. destruct Hn as [[-> _]|[-> _]]; set_solver.
  - intros k. rewrite entry_at_put, vals_app, vals_one, Hpath.
    destruct Hn as [[-> ->]|[-> ->]].
    + rewrite decide_True, eqb_prefix by done. case_decide as Hkt.
      * subst. by rewrite String.eqb_refl, nonempty_snoc.
      * rewrite eqb_ne, app_nil_r by congruence. apply Hh.
    + rewrite decide_False, eqb_ne, app_nil_r by (done || path_ne). apply Hh.
  - intros k. rewrite entry_at_put, vals_app, vals_one, Hpath.
    destruct Hn as [[-> ->]|[-> ->]].
    + rewrite decide_False, eqb_ne, app_nil_r by (done || path_ne). apply Hp.
    + rewrite decide_True, eqb_prefix by done. case_decide as Hkt.
      * subst. by rewrite String.eqb_refl, nonempty_snoc.
      * rewrite eqb_ne, app_nil_r by congruence. apply Hp.
  - intros k. rewrite entry_at_put, vals_app, vals_one, Hpath.
    destruct Hn as [[-> ->]|[-> ->]];
      (rewrite decide_False, eqb_ne, app_nil_r by (done || path_ne)); apply He.
  - rewrite vals_app, vals_one, Hpath.
    destruct Hn as [[-> ->]|[-> ->]];
      (rewrite dget_put_ne, eqb_ne, app_nil_r by (done || path_ne)); done.
  - intros k [->|Hin]%dkeys_put_in; [|by apply Hk]. left.
    destruct Hn as [[-> _]|[-> _]]; set_solver.
Qed.

Lemma added_entry A es e : added_ok A es -> tracked e -> added_ok (add_entry A e) (es ++ [e]).
Proof.
  intros Ha [t Hp|t Hp|k Hp|Hp Hm]; unfold add_entry; rewrite Hp.
  - rewrite strip_prefix_app. eapply added_list; eauto.
  - rewrite strip_prefix_app. simpl. eapply added_list; eauto.
  - rewrite strip_prefix_app. simpl.
    change (added_ok (put "env" k (ie_value e) A) (es ++ [e])).
    destruct Ha as [Hs Hh Hpm He Hst Hk]. split.
    + apply shaped_put; [done|set_solver].
    + intros t. rewrite entry_at_put, vals_app, vals_one, Hp, decide_False, eqb_ne, app_nil_r
        by (done || path_ne). apply Hh.
    + intros t. rewrite entry_at_put, vals_app, vals_one, Hp, decide_False, eqb_ne, app_nil_r
        by (done || path_ne). apply Hpm.
    + intros j. rewrite entry_at_put, vals_app, vals_one, Hp, decide_True, eqb_prefix by done.
      case_decide as Hjk.
      * subst. by rewrite String.eqb_refl, last_snoc.
      * rewrite eqb_ne, app_nil_r by congruence. apply He.
    + rewrite vals_app, vals_one, Hp, dget_put_ne, eqb_ne, app_nil_r by (done || path_ne). done.
    + intros j [->|Hin]%dkeys_put_in; [left; set_solver|by apply Hk].
  - simpl. rewrite Hm. simpl. destruct Ha as [Hs Hh Hpm He Hst Hk].
    assert (forall n k, n ∈ sections -> entry_at (dset "statusLine" (ie_value e) A) n k = entry_at A n k)
      as Hent.
    { intros n k Hn. unfold entry_at. rewrite dget_dset_ne; [done|]. intros ->. set_solver. }
    split.
    + destruct Hs as [Hk' Hs']. split; [by apply NoDup_dset|]. intros n w Hn.
      rewrite dget_dset_ne by (intros ->; set_solver). by apply Hs'.
    + intros t. rewrite Hent, vals_app, vals_one, Hp, eqb_ne, app_nil_r by (set_solver || path_ne). apply Hh.
    + intros t. rewrite Hent, vals_app, vals_one, Hp, eqb_ne, app_nil_r by (set_solver || path_ne). apply Hpm.
    + intros t. rewrite Hent, vals_app, vals_one, Hp, eqb_ne, app_nil_r by (set_solver || path_ne). apply He.
    + by rewrite dget_dset_eq, vals_app, vals_one, Hp, String.eqb_refl, last_snoc.
    + intros j. rewrite dkeys_dset. case_decide; [apply Hk|]. rewrite elem_of_app, list_elem_of_singleton.
      intros [?| ->]; auto.
Qed.

Lemma added_structure_ok es : Forall tracked es -> added_ok (entries_to_added_structure es) es.
Proof.
  unfold entries_to_added_structure. induction es as [|e es IH] using rev_ind; intros Hall.
  - split; try done; [|by intros ? ?%elem_of_nil]. split; [constructor|done].
  - apply Forall_app in Hall as [Hall [He _]%Forall_cons].
    rewrite fold_left_app. simpl. apply added_entry; auto.
Qed.

(** ** Lemmas: smart unmerge *)

Lemma smart_kinds_ok keep kinds d :
  NoDup (dkeys kinds) -> (forall t v, dget t kinds = Some v -> exists l, v = VList l) ->
  exists d', foldM_res (smart_kind keep) d kinds = Ok d'
    /\ dkeys d' = dkeys d
    /\ forall t, dget t d' =
         match dget t kinds, dget t d with
         | Some (VList a), Some (VList l) => Some (VList (List.filter (keep a) l))
         | _, o => o
         end.
Proof.
  revert d. induction kinds as [|[t v] kinds IH]; intros d Hnd Hl; simpl.
  { exists d. split_and!; [done..|]. by intros t. }
  unfold dkeys in Hnd. csimpl in Hnd. apply NoDup_cons in Hnd as [Ht Hnd].
  destruct (Hl t v) as [a ->]; [simpl; by rewrite decide_True|].
  assert (forall u w, dget u kinds = Some w -> exists l, w = VList l) as Hl'.
  { intros u w Hu. apply (Hl u w). simpl. rewrite decide_False; [done|]. intros ->.
    apply dget_Some_keys in Hu. done. }
  assert (dget t kinds = None) as Htn by by apply dget_None.
  assert (exists d1, smart_kind keep d (t, VList a) = Ok d1 /\ dkeys d1 = dkeys d
    /\ forall u, dget u d1 = if decide (u = t) then
         match dget t d with Some (VList l) => Some (VList (List.filter (keep a) l)) | o => o end
       else dget u d) as (d1 & -> & Hk1 & Hd1).
  { unfold smart_kind. simpl. destruct (dget t d) as [[| | | | |l|]|] eqn:Hd; simpl;
      try (exists d; split_and!; [done..|]; intros u; case_decide; congruence).
    eexists. split; [reflexivity|]. split.
    - rewrite dkeys_dset, decide_True; [done|]. by eapply dget_Some_keys.
    - intros u. rewrite dget_dset. by case_decide. }
  simpl. destruct (IH d1 Hnd Hl') as (d' & -> & Hk' & Hd'). exists d'.
  split_and!; [done|congruence|]. intros u. rewrite Hd', Hd1.
  destruct (decide (u = t)) as [->|Hut]; [|done]. rewrite Htn. by destruct (dget t d) as [[]|].
Qed.

Lemma smart_section_ok n keep A s :
  n ∈ sections -> shaped A -> shaped s ->
  (forall t v, entry_at A n t = Some v -> exists l, v = VList l) ->
  exists r, smart_section n keep A s = Ok r /\ shaped r
    /\ (forall k, k <> n -> dget k r = dget k s)
    /\ forall t, entry_at r n t =
         match entry_at A n t, entry_at s n t with
         | Some (VList a), Some (VList l) => Some (VList (List.filter (keep a) l))
         | _, o => o
         end.
Proof.
  intros Hn HA Hs Hl. unfold smart_section.
  destruct (dget n A) as [v|] eqn:HnA.
  2:{ exists s. split_and!; [done..|]. intros t. unfold entry_at at 2. by rewrite HnA. }
  destruct (sh_section A HA n v Hn HnA) as (kinds & -> & Hnd). simpl.
  assert (forall t, entry_at A n t = dget t kinds) as HeA by (intros; unfold entry_at; by rewrite HnA).
  destruct (dget n s) as [w|] eqn:Hns.
  2:{ exists s. split_and!; [done..|]. intros t.
      assert (entry_at s n t = None) as -> by (unfold entry_at; by rewrite Hns).
      by destruct (entry_at A n t) as [[]|]. }
  destruct (sh_section s Hs n w Hn Hns) as (d & -> & Hndd).
  destruct (smart_kinds_ok keep kinds d Hnd) as (d' & -> & Hk & Hd).
  { intros t v Ht. apply (Hl t v). by rewrite HeA. }
  simpl. eexists. split; [reflexivity|]. split_and!.
  - apply shaped_dset; [done|]. unfold dkeys in *. by rewrite Hk.
  - intros k Hk'. by apply dget_dset_ne.
  - intros t. rewrite entry_at_dset, decide_True by done. rewrite Hd, HeA.
    unfold entry_at. by rewrite Hns.
Qed.

(** What putting back the backup's value leaves. *)
Definition restored (b : option value) : option value :=
  match b with Some VNone | None => None | o => o end.

Lemma restore_key_ok k b d :
  NoDup (dkeys d) ->
  NoDup (dkeys (restore_key k (dgetv k b) d))
  /\ forall j, dget j (restore_key k (dgetv k b) d) = if decide (j = k) then restored (dget k b) else dget j d.
Proof.
  intros Hnd. unfold restore_key, dgetv, dget_default.
  destruct (dget k b) as [[]|]; simpl; split; auto using NoDup_ddel, NoDup_dset; intros j;
    rewrite ?dget_ddel, ?dget_dset by done; by case_decide.
Qed.

Lemma smart_env_fold b kinds d :
  NoDup (dkeys kinds) -> NoDup (dkeys d) ->
  let d' := fold_left (smart_env_step b) kinds d in
  NoDup (dkeys d') /\ forall k, dget k d' =
    match dget k kinds, dget k d with
    | Some a, Some c => if py_eq c a then restored (dget k b) else Some c
    | _, o => o
    end.
Proof.
  revert d. induction kinds as [|[t v] kinds IH]; intros d Hnd Hd; simpl; [done|].
  unfold dkeys in Hnd. csimpl in Hnd. apply NoDup_cons in Hnd as [Ht Hnd].
  assert (dget t kinds = None) as Htn by by apply dget_None.
  assert (NoDup (dkeys (smart_env_step b d (t, v))) /\ forall k, dget k (smart_env_step b d (t, v)) =
    if decide (k = t) then
      match dget t d with
      | Some c => if py_eq c v then restored (dget t b) else Some c
      | None => None
      end
    else dget k d) as [Hd1 Hl1].
  { unfold smart_env_step. simpl. destruct (dget t d) as [c|] eqn:Hc;
      [|split; [done|]; intros k; case_decide; congruence].
    destruct (py_eq c v); [|split; [done|]; intros k; case_decide; congruence].
    by apply restore_key_ok. }
  destruct (IH _ Hnd Hd1) as [Hd2 Hl2]. split; [done|]. intros k. rewrite Hl2, Hl1.
  destruct (decide (k = t)) as [->|Hne]; [|by destruct (decide (k = t))]. by rewrite Htn.
Qed.

Lemma smart_env_ok b A s :
  shaped b -> shaped A -> shaped s ->
  exists r, smart_env b A s = Ok r /\ shaped r
    /\ (forall k, k <> "env" -> dget k r = dget k s)
    /\ forall k, entry_at r "env" k =
         match entry_at A "env" k, entry_at s "env" k with
         | Some a, Some c => if py_eq c a then restored (entry_at b "env" k) else Some c
         | _, o => o
         end.
Proof.
  intros Hb HA Hs. unfold smart_env. assert ("env" ∈ sections) as Hn by set_solver.
  destruct (dget "env" A) as [v|] eqn:HnA.
  2:{ exists s. split_and!; [done..|]. intros t. unfold entry_at at 2. by rewrite HnA. }
  destruct (sh_section A HA _ v Hn HnA) as (kinds & -> & Hnd).
  destruct (dget "env" s) as [w|] eqn:Hns.
  2:{ exists s. split_and!; [done..|]. intros t.
      assert (entry_at s "env" t = None) as -> by (unfold entry_at; by rewrite Hns).
      by destruct (entry_at A "env" t). }
  destruct (sh_section s Hs _ w Hn Hns) as (d & -> & Hndd).
  rewrite dget_default_sec by done. simpl. eexists. split; [reflexivity|].
  destruct (smart_env_fold (sec "env" b) kinds d Hnd Hndd) as [Hd' Hl]. split_and!.
  - by apply shaped_dset.
  - intros k Hk. by apply dget_dset_ne.
  - intros k. rewrite entry_at_dset, decide_True by done. rewrite Hl, dget_sec. 
    assert (forall j, entry_at A "env" j = dget j kinds) as -> by (intros; unfold entry_at; by rewrite HnA).
    assert (forall j, entry_at s "env" j = dget j d) as -> by (intros; unfold entry_at; by rewrite Hns).
    done.
Qed.

Lemma smart_scalar_fold b A s :
  NoDup (dkeys A) -> (forall k, k ∈ dkeys A -> k ∈ sections \/ k = "statusLine") -> NoDup (dkeys s) ->
  let r := fold_left (smart_scalar_step b) A s in
  (forall k, k <> "statusLine" -> dget k r = dget k s)
  /\ dget "statusLine" r =
     match dget "statusLine" A, dget "statusLine" s with
     | Some a, Some c => if _deep_equals c a then restored (dget "statusLine" b) else Some c
     | _, o => o
     end.
Proof.
  revert s. induction A as [|[t v] A IH]; intros s Hnd Hk Hs; simpl; [done|].
  unfold dkeys in *. csimpl in Hnd. csimpl in Hk. apply NoDup_cons in Hnd as [Ht Hnd].
  assert (forall k, k ∈ A.*1 -> k ∈ sections \/ k = "statusLine") as Hk'
    by (intros; apply Hk; by right).
  unfold smart_scalar_step at 2 4. simpl.
  destruct (Hk t) as [Hsec| ->]; [left| |].
  - rewrite bool_decide_eq_true_2 by done. rewrite decide_False by (intros <-; set_solver). auto.
  - rewrite bool_decide_eq_false_2 by set_solver. simpl.
    assert (dget "statusLine" A = None) as HtA by by apply dget_None.
    assert (forall s', NoDup (s'.*1) -> (forall k, k <> "statusLine" ->
       dget k (fold_left (smart_scalar_step b) A s') = dget k s')
       /\ dget "statusLine" (fold_left (smart_scalar_step b) A s') = dget "statusLine" s') as IH'.
    { intros s' Hs'. destruct (IH s' Hnd Hk' Hs') as [H1 H2]. rewrite HtA in H2. done. }
    destruct (dget "statusLine" s) as [c|] eqn:Hc; [|rewrite <- Hc; auto].
    destruct (_deep_equals c v); [|rewrite <- Hc; auto].
    destruct (restore_key_ok "statusLine" b s Hs) as [Hd Hl].
    destruct (IH' _ Hd) as [H1 H2]. split.
    + intros k Hkk. rewrite H1, Hl by done. by rewrite decide_False.
    + by rewrite H2, Hl, decide_True.
Qed.

(** ** Lemmas: the cleanup *)

(** The same settings as Python compares them: sections up to the order of their keys. *)
Definition same_settings (a b : dict) : Prop :=
  (forall k, k ∉ sections -> dget k a = dget k b)
  /\ forall n, n ∈ sections ->
       match dget n a, dget n b with
       | Some (VDict d), Some (VDict e) => dict_equiv d e
       | None, None => True
       | _, _ => False
       end.

Lemma cleanup_section_ok n s :
  n ∈ sections -> shaped s ->
  exists r, cleanup_section n s = Ok r /\ shaped r
    /\ (forall k, k <> n -> dget k r = dget k s)
    /\ match dget n r with
       | Some (VDict d) => d <> [] /\ forall t, dget t d = visible s n t
       | None => forall t, visible s n t = None
       | _ => False
       end.
Proof.
  intros Hn Hs. unfold cleanup_section.
  destruct (dget n s) as [v|] eqn:Hv.
  2:{ exists s. split_and!; [done..|]. rewrite Hv. intros t. unfold visible, entry_at. by rewrite Hv. }
  destruct (sh_section s Hs n v Hn Hv) as (d & -> & Hnd). simpl.
  assert (forall t, dget t (List.filter (fun p => truthy p.2) d) = visible s n t) as Hf.
  { intros t. rewrite dget_filter by done. unfold visible, entry_at. by rewrite Hv. }
  destruct (List.filter _ d) as [|p l] eqn:Hl.
  - eexists. split; [reflexivity|]. destruct Hs as [Hk Hsec]. split_and!.
    + split; [by apply NoDup_ddel|]. intros m w Hm. rewrite dget_ddel by done.
      case_decide; [done|by apply Hsec].
    + intros k Hk'. by rewrite dget_ddel_ne.
    + rewrite dget_ddel_eq by done. intros t. by rewrite <- Hf.
  - eexists. split; [reflexivity|]. split_and!.
    + apply shaped_dset; [done|]. rewrite <- Hl. by apply NoDup_filter_keys.
    + intros k Hk. by apply dget_dset_ne.
    + rewrite dget_dset_eq. done.
Qed.

Lemma visible_dget a b n t : dget n a = dget n b -> visible a n t = visible b n t.
Proof. intros H. unfold visible, entry_at. by rewrite H. Qed.

Lemma cleanup_ok s :
  shaped s ->
  exists r, cleanup_empty_settings s = Ok r
    /\ (forall k, k ∉ sections -> dget k r = dget k s)
    /\ forall n, n ∈ sections ->
       match dget n r with
       | Some (VDict d) => d <> [] /\ forall t, dget t d = visible s n t
       | None => forall t, visible s n t = None
       | _ => False
       end.
Proof.
  intros Hs. unfold cleanup_empty_settings.
  destruct (cleanup_section_ok "hooks" s) as (r1 & -> & H1 & O1 & C1); [set_solver|done|]. simpl.
  destruct (cleanup_section_ok "permissions" r1) as (r2 & -> & H2 & O2 & C2); [set_solver|done|]. simpl.
  destruct (cleanup_section_ok "env" r2) as (r3 & -> & H3 & O3 & C3); [set_solver|done|].
  exists r3. split; [done|]. split.
  - intros k Hk. rewrite O3, O2, O1 by (intros ->; set_solver). done.
  - intros n Hn. unfold sections in Hn. rewrite !elem_of_cons in Hn.
    assert (forall t, visible r1 "permissions" t = visible s "permissions" t) as V1
      by (intros; apply visible_dget, O1; done).
    assert (forall t, visible r2 "env" t = visible s "env" t) as V2
      by (intros; apply visible_dget; rewrite O2, O1; done).
    destruct Hn as [->|[->|[->|Hn%elem_of_nil]]]; [..|done].
    + rewrite O3, O2 by done. exact C1.
    + rewrite O3 by done. destruct (dget "permissions" r2) as [[| | | | | |d]|]; try done.
      * destruct C2. split; [done|]. intros t. by rewrite <- V1.
      * intros t. by rewrite <- V1.
    + destruct (dget "env" r3) as [[| | | | | |d]|]; try done.
      * destruct C3. split; [done|]. intros t. by rewrite <- V2.
      * intros t. by rewrite <- V2.
Qed.

Lemma same_after_cleanup a b :
  shaped a -> shaped b -> (forall k, k ∉ sections -> dget k a = dget k b) ->
  (forall n t, n ∈ sections -> visible a n t = visible b n t) ->
  exists ca cb, cleanup_empty_settings a = Ok ca /\ cleanup_empty_settings b = Ok cb
    /\ same_settings ca cb.
Proof.
  intros Ha Hb Hk Hv. destruct (cleanup_ok a Ha) as (ca & -> & Ka & Sa).
  destruct (cleanup_ok b Hb) as (cb & -> & Kb & Sb). exists ca, cb. split_and!; [done..|]. split.
  - intros k Hks. by rewrite Ka, Kb, Hk.
  - intros n Hn. specialize (Sa n Hn). specialize (Sb n Hn).
    destruct (dget n ca) as [[| | | | | |d]|], (dget n cb) as [[| | | | | |e]|]; try done.
    + destruct Sa as [_ Sa], Sb as [_ Sb]. intros t. by rewrite Sa, Sb, Hv.
    + destruct Sa as [Hne Sa]. apply Hne, dget_all_None. intros t. by rewrite Sa, Hv.
    + destruct Sb as [Hne Sb]. apply Hne, dget_all_None. intros t. by rewrite Sb, <- Hv.
Qed.

(** ** Lemmas: what we added is what we remove *)

Lemma value_eqb_refl v : value_eqb v v = true.
Proof. by apply value_eqb_eq. Qed.

Lemma keep_hook_added l a :
  Forall (fun v => is_dict v = true
    /\ mem_canonical v (map _canonical_json (dicts_of l)) = false) a ->
  List.filter (keep_hook a) (l ++ a) = l.
Proof.
  intros Ha. rewrite List.filter_app.
  assert (List.filter (keep_hook a) a = []) as ->.
  { assert (forall b, (forall v, v ∈ b -> v ∈ a) -> List.filter (keep_hook a) b = []) as H; [|by apply H].
    induction b as [|v b IH]; simpl; intros Hb; [done|].
    assert (keep_hook a v = false) as ->; [|apply IH; intros; apply Hb; by right].
    unfold keep_hook. assert (v ∈ a) as Hv by (apply Hb; left).
    rewrite Forall_forall in Ha. destruct (Ha v Hv) as [Hd _]. rewrite Hd. simpl.
    apply negb_false_iff, existsb_exists. exists (_canonical_json v).
    split; [|apply value_eqb_refl]. apply in_map, filter_In. split; [|done]. by apply list_elem_of_In. }
  rewrite app_nil_r.
  assert (forall k, (forall v, v ∈ k -> v ∈ l) -> List.filter (keep_hook a) k = k) as H; [|by apply H].
  induction k as [|v k IH]; simpl; intros Hk; [done|].
  assert (keep_hook a v = true) as ->; [|f_equal; apply IH; intros; apply Hk; by right].
  unfold keep_hook. destruct (is_dict v) eqn:Hd; [|done]. simpl. apply negb_true_iff.
  destruct (mem_canonical v _) eqn:Hm; [|done]. exfalso.
  apply existsb_exists in Hm as (c & Hc & Heq). apply in_map_iff in Hc as (w & <- & Hw).
  apply filter_In in Hw as [Hw _]. apply value_eqb_eq in Heq.
  rewrite Forall_forall in Ha. destruct (Ha w) as [_ Hf]; [by apply list_elem_of_In|].
  assert (mem_canonical w (map _canonical_json (dicts_of l)) = true) as Ht; [|congruence].
  apply existsb_exists. exists (_canonical_json v). split; [|by rewrite Heq, value_eqb_refl].
  apply in_map, filter_In. split; [|done]. apply list_elem_of_In, Hk. left.
Qed.

Lemma py_eq_VStr v p : py_eq v (VStr p) = true <-> v = VStr p.
Proof. destruct v; simpl; try (split; [done|congruence]). rewrite String.eqb_eq. naive_solver. Qed.

Lemma keep_permission_added l a :
  Forall (fun v => exists p, v = VStr p /\ mem v l = false) a ->
  List.filter (keep_permission a) (l ++ a) = l.
Proof.
  intros Ha. rewrite List.filter_app.
  assert (List.filter (keep_permission a) a = []) as ->.
  { assert (forall b, (forall v, v ∈ b -> v ∈ a) -> List.filter (keep_permission a) b = []) as H; [|by apply H].
    induction b as [|v b IH]; simpl; intros Hb; [done|].
    assert (keep_permission a v = false) as ->; [|apply IH; intros; apply Hb; by right].
    assert (v ∈ a) as Hv by (apply Hb; left). apply negb_false_iff, existsb_exists. exists v.
    split; [by apply list_elem_of_In|]. rewrite Forall_forall in Ha. destruct (Ha v Hv) as (p & -> & _).
    by apply py_eq_VStr. }
  rewrite app_nil_r.
  assert (forall k, (forall v, v ∈ k -> v ∈ l) -> List.filter (keep_permission a) k = k) as H; [|by apply H].
  induction k as [|v k IH]; simpl; intros Hk; [done|].
  assert (keep_permission a v = true) as ->; [|f_equal; apply IH; intros; apply Hk; by right].
  apply negb_true_iff. destruct (mem v a) eqn:Hm; [|done]. exfalso.
  apply existsb_exists in Hm as (w & Hw & Heq). rewrite Forall_forall in Ha.
  destruct (Ha w) as (p & -> & Hf); [by apply list_elem_of_In|].
  apply py_eq_VStr in Heq as ->.
  assert (mem (VStr p) l = true) as Ht; [|congruence]. apply existsb_exists. exists (VStr p).
  split; [apply list_elem_of_In, Hk; left|by apply py_eq_VStr].
Qed.

(** A section of lists shows its nonempty lists. *)
Lemma visible_list s n t :
  (forall v, entry_at s n t = Some v -> exists l, v = VList l) ->
  visible s n t = nonempty (items_at s n t).
Proof.
  intros H. unfold visible, items_at. destruct (entry_at s n t) as [v|]; [|done].
  destruct (H v eq_refl) as [[|x l] ->]; done.
Qed.

(** Undoing one list: what the smart unmerge leaves shows what was there before. *)
Lemma undo_list s0 s r n t a keep :
  (forall v, entry_at s0 n t = Some v -> exists l, v = VList l) ->
  (forall v, entry_at s n t = Some v -> exists l, v = VList l) ->
  items_at s n t = items_at s0 n t ++ a ->
  List.filter (keep a) (items_at s0 n t ++ a) = items_at s0 n t ->
  entry_at r n t =
    match nonempty a, entry_at s n t with
    | Some (VList a), Some (VList l) => Some (VList (List.filter (keep a) l))
    | _, o => o
    end ->
  visible r n t = visible s0 n t.
Proof.
  intros H0 H1 Hi Hf Hr. rewrite (visible_list s0) by done.
  rewrite visible_list.
  - f_equal. unfold items_at at 1. rewrite Hr.
    unfold items_at at 1 in Hi. destruct a as [|x a]; simpl.
    { rewrite app_nil_r in Hi. destruct (entry_at s n t) as [[]|]; done. }
    destruct (entry_at s n t) as [v|] eqn:Hv; [destruct (H1 v eq_refl) as [l ->]|];
      [by rewrite Hi|by destruct (items_at s0 n t)].
  - intros v. rewrite Hr. destruct (nonempty a) as [[]|]; try apply H1.
    destruct (entry_at s n t) as [w|]; [|done]. destruct (H1 w eq_refl) as [l' ->].
    intros [= <-]. eauto.
Qed.

Lemma items_entry s n t v : entry_at s n t = Some (VList v) -> items_at s n t = v.
Proof. unfold items_at. by intros ->. Qed.

(** ** Properties *)

(** C26: Uninstalling undoes installing. For settings as Claude Code writes them and a
    well-formed Forge template, merging with any options and then smart-unmerging what the
    tracking entries record, against the settings before the merge as the backup, succeeds
    and gives back the original settings, up to empty sections and the order of keys. *)
Theorem smart_unmerge_undoes_merge s f attrs o s' es :
  settings_ok s -> template_ok f -> merge s f attrs o = Ok (s', es) ->
  exists r cr cs,
    smart_unmerge s' s (entries_to_added_structure es) = Ok r
    /\ cleanup_empty_settings r = Ok cr /\ cleanup_empty_settings s = Ok cs
    /\ same_settings cr cs.
Proof.
  intros Hs Hf Hm. apply merge_merged in Hm; [|done..].
  pose proof (settings_ok_shaped s Hs) as Hshs.
  destruct Hm as [Hsh Hl Hpl Ho Hh Hp Hpo He Hst Ht].
  destruct (added_structure_ok es Ht) as [HA Ah Ap Ae As Ak].
  set (A := entries_to_added_structure es) in *. unfold smart_unmerge.
  destruct (smart_section_ok "hooks" keep_hook A s') as (r1 & -> & S1 & O1 & E1); [set_solver|done|done| |].
  { intros t v. rewrite Ah. apply nonempty_Some. }
  simpl. destruct (smart_section_ok "permissions" keep_permission A r1) as (r2 & -> & S2 & O2 & E2);
    [set_solver|done|done| |].
  { intros t v. rewrite Ap. apply nonempty_Some. }
  simpl. destruct (smart_env_ok s A r2) as (r3 & -> & S3 & O3 & E3); [done..|]. simpl.
  destruct (smart_scalar_fold s A r3 (sh_keys A HA) Ak (sh_keys r3 S3)) as [O4 E4].
  set (r := fold_left _ A r3) in *.
  assert (forall n, n ∈ sections -> n <> "statusLine") as Hsl by (intros n Hn ->; set_solver).
  assert (shaped r) as Hr.
  { split.
    - unfold r. clear -S3. destruct S3 as [Hk _]. revert r3 Hk. induction A as [|[t v] A IH]; intros d Hd;
        simpl; [done|]. apply IH. unfold smart_scalar_step. simpl. destruct (bool_decide _); [done|].
      destruct (dget t d); [|done]. destruct (_deep_equals _ _); [|done]. by apply restore_key_ok.
    - intros n v Hn. rewrite O4 by auto. by apply (sh_section r3 S3). }
  exists r. destruct (same_after_cleanup r s Hr Hshs) as (cr & cs & ? & ? & ?); [| |by exists cr, cs].
  - intros k Hk. destruct (decide (k = "statusLine")) as [->|Hks].
    + rewrite E4, As, O3, O2, O1 by done. destruct Hst as [[-> Hst]|(v & -> & Hst & Hd)]; simpl.
      * by rewrite Hst.
      * rewrite Hst, Hd. pose proof (so_statusline s Hs).
        unfold restored. destruct (dget "statusLine" s) as [[]|]; done.
    + rewrite O4, O3, O2, O1 by (try done; intros ->; set_solver). by apply Ho.
  - intros n t Hn. transitivity (visible r3 n t); [apply visible_dget, O4; auto|].
    unfold sections in Hn. rewrite !elem_of_cons in Hn.
    destruct Hn as [->|[->|[->|Hn%elem_of_nil]]]; [..|done].
    + transitivity (visible r1 "hooks" t); [apply visible_dget; rewrite O3, O2; done|].
      destruct (Hh t) as [Hi Hfr]. eapply (undo_list s s'); [apply (so_hooks s Hs)|apply Hl|exact Hi| |].
      * by apply keep_hook_added.
      * by rewrite E1, Ah.
    + transitivity (visible r2 "permissions" t); [apply visible_dget; rewrite O3; done|].
      assert (entry_at r1 "permissions" t = entry_at s' "permissions" t) as E1p
        by (unfold entry_at; by rewrite O1).
      destruct (decide (t ∈ ["allow"; "deny"])) as [Hk|Hk].
      * destruct (Hp t Hk) as [Hi Hfr].
        eapply (undo_list s s'); [intros v; by apply (so_permissions s Hs)|intros v; by apply Hpl|exact Hi| |].
        { by apply keep_permission_added. }
        by rewrite E2, Ap, E1p.
      * destruct (Hpo t Hk) as [Hi Hv]. unfold visible. rewrite E2, Ap, E1p, Hv, Hi. done.
    + unfold visible. rewrite E3, Ae.
      assert (entry_at r2 "env" t = entry_at s' "env" t) as -> by (unfold entry_at; by rewrite O2, O1).
      destruct (He t) as [[-> ->]|(p & -> & ->)]; [done|]. simpl. rewrite String.eqb_refl.
      pose proof (so_env s Hs t). unfold restored. by destruct (entry_at s "env" t) as [[]|].
Qed.

(** ** Lemmas: merging twice *)

Lemma mem_canonical_iff x l :
  mem_canonical x (map _canonical_json l) = true <-> exists y, y ∈ l /\ _canonical_json y = _canonical_json x.
Proof.
  unfold mem_canonical. rewrite existsb_exists. setoid_rewrite in_map_iff.
  setoid_rewrite value_eqb_eq. setoid_rewrite list_elem_of_In. naive_solver.
Qed.

Lemma merge_hook_list_covers t a entries existing seen l added :
  merge_hook_list t a entries existing seen = (l, added) ->
  Forall (fun e => existsb (value_eqb (_canonical_json e)) seen = true
                   \/ exists x, x ∈ map ie_value added /\ _canonical_json x = _canonical_json e) entries.
Proof.
  revert existing seen l added. induction entries as [|e entries IH]; intros existing seen l added; simpl;
    [by constructor|].
  destruct (existsb (value_eqb (_canonical_json e)) seen) eqn:Hs.
  - intros H. constructor; [by left|]. by eapply IH.
  - destruct (merge_hook_list t a entries _ _) as [l' added'] eqn:Hm. intros [= <- <-].
    constructor.
    + right. exists e. split; [left|done].
    + eapply Forall_impl; [eapply IH; exact Hm|]. simpl. intros x [Hx|(y & Hy & Hc)].
      * rewrite existsb_app in Hx. apply orb_true_iff in Hx as [?|Hx]; [by left|]. right. exists e.
        split; [left|]. simpl in Hx. rewrite orb_false_r in Hx. symmetry. by apply value_eqb_eq.
      * right. exists y. split; [by right|done].
Qed.

Lemma merge_hook_list_present t a entries existing seen :
  Forall (fun e => existsb (value_eqb (_canonical_json e)) seen = true) entries ->
  merge_hook_list t a entries existing seen = (existing, []).
Proof. induction 1 as [|e entries He _ IH]; simpl; [done|]. by rewrite He. Qed.

(** Installing hooks twice is installing them once. A merge of hook entries appends
    exactly the entries not yet present, in order and without repetition; afterwards the
    pre-check reports all of them present, and merging them again changes nothing and
    records nothing. *)
Theorem merge_hooks_idempotent s t entries a s' added :
  shaped s -> (forall v, entry_at s "hooks" t = Some v -> exists l, v = VList l) ->
  Forall (fun e => is_dict e = true) entries ->
  merge_hooks s t entries a = Ok (s', added) ->
  items_at s' "hooks" t = items_at s "hooks" t ++ map ie_value added
  /\ Forall (fun e => mem_canonical (ie_value e)
       (map _canonical_json (dicts_of (items_at s "hooks" t))) = false) added
  /\ hooks_already_present s' t entries = Ok true
  /\ merge_hooks s' t entries a = Ok (s', []).
Proof.
  intros Hs Hl He Hm. destruct (merge_hooks_ok s t entries a s' added Hs Hl He Hm) as [-> Hadd].
  set (l' := items_at s "hooks" t ++ map ie_value added) in *.
  assert (entry_at (put "hooks" t (VList l') s) "hooks" t = Some (VList l')) as Hent
    by (rewrite entry_at_put, !decide_True by done; done).
  assert (Forall (fun e => exists y, y ∈ dicts_of l' /\ _canonical_json y = _canonical_json e) entries) as Hcov.
  { unfold merge_hooks in Hm.
    destruct (setdefault "hooks" (VDict []) s) as [s1 v1] eqn:E1.
    destruct (setdefault_dset _ _ (VDict []) _ _ _ E1) as [_ ->].
    rewrite dget_default_sec in Hm by (done || set_solver). simpl in Hm.
    destruct (setdefault t (VList []) (sec "hooks" s)) as [h1 v2] eqn:E2.
    destruct (setdefault_dset _ _ VNone _ _ _ E2) as [_ ->].
    assert (dget_default t (VList []) (sec "hooks" s) = VList (items_at s "hooks" t)) as Ex.
    { unfold dget_default, items_at. rewrite dget_sec.
      destruct (entry_at s "hooks" t) as [v|] eqn:Hv; [|done]. by destruct (Hl v eq_refl) as [k ->]. }
    rewrite Ex in Hm. destruct (merge_hook_list _ _ _ _ _) as [l2 add2] eqn:Hml.
    injection Hm as _ ->. eapply Forall_impl; [eapply merge_hook_list_covers; exact Hml|].
    simpl. unfold l'. intros e [Hin|(y & Hy & Hc)].
    - apply mem_canonical_iff in Hin as (y & Hy & Hc). exists y. split; [|done].
      rewrite dicts_of_app, elem_of_app. by left.
    - exists y. split; [|done]. rewrite dicts_of_app, elem_of_app. right.
      apply list_elem_of_In, filter_In. split; [by apply list_elem_of_In|].
      apply list_elem_of_In, in_map_iff in Hy as (x & <- & Hx). apply list_elem_of_In in Hx.
      rewrite Forall_forall in Hadd. by apply (Hadd x Hx). }
  assert (shaped (put "hooks" t (VList l') s)) as Hs' by (apply shaped_put; [done|set_solver]).
  split_and!.
  - by apply items_entry.
  - eapply Forall_impl; [exact Hadd|]. simpl. tauto.
  - unfold hooks_already_present, section_list.
    rewrite dget_default_sec by (done || set_solver). simpl.
    assert (dget_default t (VList []) (sec "hooks" (put "hooks" t (VList l') s)) = VList l') as ->
      by (unfold dget_default; by rewrite dget_sec, Hent).
    simpl. f_equal. apply forallb_forall. intros e Hin. rewrite Forall_forall in Hcov.
    destruct (Hcov e) as (y & Hy & Hc); [by apply list_elem_of_In|].
    apply mem_canonical_iff. exists y. split; [|done].
    apply list_elem_of_In, filter_In in Hy as [Hy _]. by apply list_elem_of_In.
  - unfold merge_hooks, setdefault. unfold put at 1. rewrite dget_dset_eq. simpl.
    rewrite dget_dset_eq, merge_hook_list_present.
    + unfold put. by rewrite !dset_dset.
    + eapply Forall_impl; [exact Hcov|]. simpl. intros e Hy. by apply mem_canonical_iff.
Qed.

(** ** The theorems at work *)

Module SettingsSample.
Definition hook (c : string) : value := VDict [("matcher", VStr "Write"); ("command", VStr c)].
Definition user : dict := [
  ("model", VStr "opus"); ("hooks", VDict [("Stop", VList [hook "mine"])]);
  ("env", VDict [("A", VStr "user")])].
Definition template : dict := [
  ("hooks", VDict [("Stop", VList [hook "forge"; hook "mine"]); ("PreToolUse", VList [hook "forge"])]);
  ("permissions", VDict [("allow", VList [VStr "Bash(forge:*)"])]);
  ("statusLine", VStr "forge"); ("env", VDict [("A", VStr "forge"); ("B", VStr "1")])].
Definition owners : list (string * string) :=
  [("hooks", "h"); ("permissions", "p"); ("status-line", "s")].
Definition all : MergeOptions :=
  {| mo_force := false; mo_statusline := true; mo_hooks := true; mo_permissions := true; mo_env := true |}.

Lemma user_ok : settings_ok user.
Proof.
  split.
  - apply (bool_decide_unpack _). vm_compute. exact I.
  - intros n v Hn. unfold user. simpl.
    repeat case_decide; intros Hv; simplify_eq; try (unfold sections in Hn; set_solver);
      (eexists; split; [reflexivity|apply (bool_decide_unpack _); vm_compute; exact I]).
  - intros t v. unfold entry_at. simpl. case_decide; intros Hv; simplify_eq. eauto.
  - intros t v _. unfold entry_at. simpl. done.
  - intros k. unfold entry_at. simpl. by case_decide.
  - done.
Defined.

Lemma template_fine : template_ok template.
Proof.
  split.
  - intros d H. unfold template in H. simpl in H. injection H as <-. split.
    + apply (bool_decide_unpack _). vm_compute. exact I.
    + intros t v. simpl. repeat case_decide; intros Hv; simplify_eq; (eexists; split; [reflexivity|]);
        repeat constructor.
  - intros d H. unfold template in H. simpl in H. injection H as <-.
    intros t v. simpl. case_decide; intros Hv; simplify_eq. by exists ["Bash(forge:*)"].
  - intros d H. unfold template in H. simpl in H. injection H as <-. split.
    + apply (bool_decide_unpack _). vm_compute. exact I.
    + intros k v. simpl. repeat case_decide; intros Hv; simplify_eq; eauto.
  - intros v H. unfold template in H. simpl in H. injection H as <-. done.
Defined.

Lemma smart_unmerge_witness :
  exists s' es r cr cs, merge user template owners all = Ok (s', es)
    /\ smart_unmerge s' user (entries_to_added_structure es) = Ok r
    /\ cleanup_empty_settings r = Ok cr /\ cleanup_empty_settings user = Ok cs
    /\ same_settings cr cs.
Proof.
  eexists _, _.
  destruct (smart_unmerge_undoes_merge user template owners all _ _ user_ok template_fine
    ltac:(vm_compute; reflexivity)) as (r & cr & cs & H).
  exists r, cr, cs. split; [vm_compute; reflexivity|exact H].
Defined.

Lemma merge_hooks_idempotent_witness :
  exists s' added, merge_hooks user "Stop" [hook "forge"; hook "mine"; hook "forge"] "h" = Ok (s', added)
    /\ merge_hooks s' "Stop" [hook "forge"; hook "mine"; hook "forge"] "h" = Ok (s', []).
Proof.
  eexists _, _. split; [vm_compute; reflexivity|].
  eapply (merge_hooks_idempotent user "Stop" [hook "forge"; hook "mine"; hook "forge"] "h").
  - exact (settings_ok_shaped user user_ok).
  - exact (so_hooks user user_ok "Stop").
  - repeat constructor.
  - vm_compute. reflexivity.
Defined.
End SettingsSample.
