(* ===== verification/Transcript.v ===== *)
(** * Transcript: reading Claude transcripts

    [src/forge/core/transcript.py], shared by search, resume, rewind and the status line.
    A transcript file is the list of what its lines give ([line]); entries are decoded JSON
    values, which need not be objects. [group_entries_into_turns] builds lists that are
    shared between the result and its index of requests: a group is the position of its list
    in the result, and appending to a group updates the list at that position. *)

From S2P Require Import Prelude PyValue.

(** ** Reading *)

(** What one line of the file gives: nothing but white space, text that is not JSON, a JSON
    value, or another exception (a read or decoding error, an oversized integer). *)
Inductive line :=
| LBlank
| LBadJson
| LJson (v : value)
| LRaises (e : pyexn).

(** [s in v] for a string [s]. *)
Definition py_in (s : string) (v : value) : res bool :=
  match v with
  | VDict d => Ok (dhas s d)
  | VList l => Ok (existsb (fun x => py_eq (VStr s) x) l)
  | VStr t => Ok (contains s t)
  | _ => raise TypeError ("argument of type '" +++ type_name v +++ "' is not a container or iterable")
  end.

(** ["message" not in entry and "type" not in entry], negated. *)
Definition is_entry (v : value) : res bool :=
  m ← py_in "message" v;
  if m : bool then Ok true else py_in "type" v.

(** The loop over the lines: the entries kept, unless something raises. *)
Fixpoint read_lines (ls : list line) : res (list value) :=
  match ls with
  | [] => Ok []
  | LBlank :: ls | LBadJson :: ls => read_lines ls
  | LJson v :: ls =>
      keep ← is_entry v;
      rest ← read_lines ls;
      Ok (if keep : bool then v :: rest else rest)
  | LRaises e :: _ => Err e
  end.

(** [v.get(k, dflt)]. *)
Definition py_get (k : string) (dflt v : value) : res value :=
  match v with
  | VDict d => Ok (dget_default k dflt d)
  | _ => raise AttributeError ("'" +++ type_name v +++ "' object has no attribute 'get'")
  end.

(** [_get_timestamp]. *)
Definition _get_timestamp (entry : value) : res string :=
  ts ← py_get "timestamp" (VStr "") entry;
  ts ← (if truthy ts then Ok ts
        else
          has ← py_in "message" entry;
          if has : bool then
            message ← py_get "message" (VDict []) entry;
            py_get "timestamp" (VStr "") message
          else Ok ts);
  Ok (match ts with VStr s => s | _ => "" end).

(** [entries.sort(key=_get_timestamp)]. *)
Definition sort_entries (entries : list value) : res (list value) :=
  keyed ← mapM_res (fun e => (fun k => (k, e)) <$> _get_timestamp e) entries;
  Ok (snd <$> sort_by fst keyed).

(** [parse_jsonl_transcript]; [None]: the path is not a file. *)
Definition parse_jsonl_transcript (f : option (list line)) : res (list value) :=
  match f with
  | None => Ok []
  | Some ls =>
      match read_lines ls with
      | Ok entries => sort_entries entries
      | Err _ => Ok []
      end
  end.

(** ** Entries *)

Definition normalize_transcript_role (raw_role : value) : option string :=
  if py_eq raw_role (VStr "user") || py_eq raw_role (VStr "human") then Some "user"
  else if py_eq raw_role (VStr "assistant") || py_eq raw_role (VStr "ai") then Some "assistant"
  else None.

Definition resolve_entry_role (entry : dict) : option string :=
  match (match dgetv "message" entry with
         | VDict message => normalize_transcript_role (dgetv "role" message)
         | _ => None
         end) with
  | Some role => Some role
  | None => normalize_transcript_role (dgetv "type" entry)
  end.

(** [[block for block in content if isinstance(block, dict)]]. *)
Definition dict_blocks (l : list value) : list dict := omap as_dict l.

Definition text_block (s : string) : dict := [("type", VStr "text"); ("text", VStr s)].

(** The blocks of a [content] field, when it is a list or a non-empty string. *)
Definition content_blocks (content : value) : option (list dict) :=
  match content with
  | VList l => Some (dict_blocks l)
  | VStr s => if String.eqb s "" then None else Some [text_block s]
  | _ => None
  end.

Definition extract_entry_blocks (entry : dict) : list dict :=
  match (match dgetv "message" entry with
         | VDict message => content_blocks (dgetv "content" message)
         | _ => None
         end) with
  | Some blocks => blocks
  | None =>
      match content_blocks (dgetv "content" entry) with
      | Some blocks => blocks
      | None =>
          match dgetv "text" entry with
          | VStr s => if String.eqb s "" then [] else [text_block s]
          | _ => []
          end
      end
  end.

(** ** Turns *)

(** The request id that ties an entry to its turn. *)
Definition request_id (entry : dict) : option string :=
  match dgetv "requestId" entry with
  | VStr s => if String.eqb s "" then None else Some s
  | _ => None
  end.

(** An entry is an object: [contents] is the dict it is, and two entries may be equal dicts.
    Code that tells entries apart by [id()] (session/rewind.py) takes objects with a position
    for [E]; elsewhere [E] is [dict]. *)
Section Turns.
Context {E : Type} (contents : E -> dict).

(** [grouped_turns], [request_groups] and [current_fallback_group]; a group is referred to
    by its position in [grouped_turns]. *)
Record grouping := {
  grouped_turns : list (list E);
  request_groups : list (string * nat);
  current_fallback_group : option nat }.

Definition new_grouping : grouping :=
  {| grouped_turns := []; request_groups := []; current_fallback_group := None |}.

(** [group.append(entry)]. *)
Definition append_to_group (i : nat) (entry : E) (turns : list (list E)) : list (list E) :=
  alter (fun g => g ++ [entry]) i turns.

(** The loop's body. *)
Definition group_entry (g : grouping) (entry : E) : grouping :=
  let new_turn := grouped_turns g ++ [[entry]] in
  match request_id (contents entry) with
  | Some rid =>
      match dget rid (request_groups g) with
      | Some i =>
          {| grouped_turns := append_to_group i entry (grouped_turns g);
             request_groups := request_groups g; current_fallback_group := None |}
      | None =>
          {| grouped_turns := new_turn;
             request_groups := dset rid (length (grouped_turns g)) (request_groups g);
             current_fallback_group := None |}
      end
  | None =>
      let opened := {| grouped_turns := new_turn; request_groups := request_groups g;
                       current_fallback_group := Some (length (grouped_turns g)) |} in
      let role := resolve_entry_role (contents entry) in
      if bool_decide (role = Some "user") then opened
      else
        match current_fallback_group g with
        | Some i =>
            {| grouped_turns := append_to_group i entry (grouped_turns g);
               request_groups := request_groups g;
               current_fallback_group := current_fallback_group g |}
        | None => if bool_decide (role = Some "assistant") then opened else g
        end
  end.

Definition group_entries_into_turns (entries : list E) : list (list E) :=
  grouped_turns (foldl group_entry new_grouping entries).

End Turns.
Arguments grouping : clear implicits.

(** [truncate]. *)
Definition truncate (text : string) (max_chars : nat) : string :=
  if py_len text <=? Z.of_nat max_chars then text else py_take max_chars text +++ "...".

(** ** Lemmas: turns *)

Section TurnLemmas.
Context {E : Type} (contents : E -> dict).
Implicit Types (e : E) (g : grouping E) (seen entries : list E).

Lemma concat_append_to_group i entry (turns : list (list E)) t :
  turns !! i = Some t -> concat (append_to_group i entry turns) ≡ₚ concat turns ++ [entry].
Proof.
  unfold append_to_group. revert i. induction turns as [|u turns IH]; intros [|i] Hi; simplify_eq/=.
  - rewrite <- !app_assoc. by rewrite (Permutation_app_comm [entry]).
  - rewrite (IH i Hi). by rewrite app_assoc.
Qed.

Definition ids (r : string) (entries : list E) : list E :=
  filter (fun e => request_id (contents e) = Some r) entries.

(** An entry that always belongs to a turn. *)
Definition anchored (entry : E) : Prop :=
  is_Some (request_id (contents entry)) \/ is_Some (resolve_entry_role (contents entry)).

Record grouped (g : grouping E) (seen : list E) : Prop := {
  gr_request r i : dget r (request_groups g) = Some i -> grouped_turns g !! i = Some (ids r seen);
  gr_absent r : dget r (request_groups g) = None -> ids r seen = [];
  gr_present r i : dget r (request_groups g) = Some i -> ids r seen <> [];
  gr_current i : current_fallback_group g = Some i ->
    exists t, grouped_turns g !! i = Some t /\ Forall (fun e => request_id (contents e) = None) t;
  gr_sublist : Forall (fun t => t <> [] /\ sublist t seen) (grouped_turns g);
  gr_all : exists kept dropped,
    concat (grouped_turns g) ≡ₚ kept /\ kept ++ dropped ≡ₚ seen /\
    Forall (fun e => ~ anchored e) dropped }.

Lemma ids_snoc r seen e :
  ids r (seen ++ [e]) = ids r seen ++ (if decide (request_id (contents e) = Some r) then [e] else []).
Proof. unfold ids. rewrite filter_app. done. Qed.

Lemma ids_request_id r seen e : e ∈ ids r seen -> request_id (contents e) = Some r.
Proof. unfold ids. intros Hin. by apply list_elem_of_filter in Hin as [? _]. Qed.

Lemma sublists_snoc (ts : list (list E)) seen e :
  Forall (fun t => t <> [] /\ sublist t seen) ts ->
  Forall (fun t => t <> [] /\ sublist t (seen ++ [e])) ts.
Proof.
  intros H. eapply Forall_impl; [exact H|]. intros t [Hne Ht]. split; [done|].
  by apply sublist_inserts_r.
Qed.

Lemma normalize_range v role :
  normalize_transcript_role v = Some role -> role = "user" \/ role = "assistant".
Proof. unfold normalize_transcript_role. repeat case_match; naive_solver. Qed.

Lemma resolve_entry_role_range (d : dict) role :
  resolve_entry_role d = Some role -> role = "user" \/ role = "assistant".
Proof.
  unfold resolve_entry_role. destruct (dgetv "message" d); try apply normalize_range.
  case_match eqn:Hm; [|apply normalize_range]. intros [= <-]. by eapply normalize_range.
Qed.

(** A turn grows by the new entry. *)
Lemma sublists_append i (ts : list (list E)) seen e :
  Forall (fun t => t <> [] /\ sublist t seen) ts ->
  Forall (fun t => t <> [] /\ sublist t (seen ++ [e])) (append_to_group i e ts).
Proof.
  intros H. unfold append_to_group. rewrite Forall_lookup in *. intros j t Hj.
  rewrite list_lookup_alter in Hj. case_decide as Hij.
  - destruct (ts !! j) as [u|] eqn:Hu; subst; simplify_eq/=; try (rewrite Hu in Hj; simplify_eq/=).
    destruct (H _ _ Hu) as [Hne Hs]. split; [by destruct u|]. by apply sublist_app.
  - destruct (H _ _ Hj). split; [done|]. by apply sublist_inserts_r.
Qed.

Lemma grouped_all_snoc g seen e turns :
  grouped g seen ->
  concat turns ≡ₚ concat (grouped_turns g) ++ [e] ->
  exists kept dropped, concat turns ≡ₚ kept /\ kept ++ dropped ≡ₚ seen ++ [e] /\
    Forall (fun e => ~ anchored e) dropped.
Proof.
  intros [] Hc. destruct gr_all0 as (kept & dropped & Hk & Hs & Hd).
  exists (kept ++ [e]), dropped. split_and!; [by rewrite Hc, Hk| |done].
  rewrite <- Hs, <- !app_assoc. by rewrite (Permutation_app_comm [e]).
Qed.

(** A new turn of one entry. *)
Lemma concat_new_turn (ts : list (list E)) e : concat (ts ++ [[e]]) ≡ₚ concat ts ++ [e].
Proof. by rewrite concat_app. Qed.

Lemma sublists_new_turn (ts : list (list E)) seen e :
  Forall (fun t => t <> [] /\ sublist t seen) ts ->
  Forall (fun t => t <> [] /\ sublist t (seen ++ [e])) (ts ++ [[e]]).
Proof.
  intros H. apply Forall_app. split; [by apply sublists_snoc|]. repeat constructor; [done|].
  by apply sublist_inserts_l.
Qed.

(** What an entry without a request id leaves of the requests' turns. *)
Lemma ids_other r seen e : request_id (contents e) <> Some r -> ids r (seen ++ [e]) = ids r seen.
Proof. intros. by rewrite ids_snoc, decide_False, app_nil_r. Qed.

Lemma ids_present r seen e : ids r seen <> [] -> ids r (seen ++ [e]) <> [].
Proof. rewrite ids_snoc. by intros ? [? _]%app_eq_nil. Qed.

(** Turns of different requests are different turns. *)
Lemma grouped_injective g seen r r' i :
  grouped g seen -> dget r (request_groups g) = Some i -> dget r' (request_groups g) = Some i -> r = r'.
Proof.
  intros [] H1 H2. pose proof (gr_request0 _ _ H1) as Ht. rewrite (gr_request0 _ _ H2) in Ht.
  simplify_eq. destruct (ids r seen) as [|e0 l] eqn:Hl; [by eapply gr_present0 in H1|].
  assert (request_id (contents e0) = Some r) by (eapply ids_request_id; rewrite Hl; left).
  assert (request_id (contents e0) = Some r') by (eapply ids_request_id; rewrite Ht; left). congruence.
Qed.

Lemma grouped_same_request g seen e rid i :
  grouped g seen -> request_id (contents e) = Some rid -> dget rid (request_groups g) = Some i ->
  grouped {| grouped_turns := append_to_group i e (grouped_turns g);
             request_groups := request_groups g; current_fallback_group := None |} (seen ++ [e]).
Proof.
  intros Hg Hrid Hi. pose proof Hg as []. split; simpl; try done.
  - intros r j Hj. unfold append_to_group. rewrite list_lookup_alter. case_decide as Hij.
    + subst. assert (r = rid) as -> by (by eapply grouped_injective).
      by rewrite (gr_request0 _ _ Hi), ids_snoc, decide_True.
    + rewrite ids_other by congruence. auto.
  - intros r Hr. rewrite ids_other by congruence. auto.
  - intros r j Hj. eapply ids_present, gr_present0, Hj.
  - by apply sublists_append.
  - eapply grouped_all_snoc; [done|]. eapply concat_append_to_group, gr_request0, Hi.
Qed.

Lemma grouped_new_request g seen e rid :
  grouped g seen -> request_id (contents e) = Some rid -> dget rid (request_groups g) = None ->
  grouped {| grouped_turns := grouped_turns g ++ [[e]];
             request_groups := dset rid (length (grouped_turns g)) (request_groups g);
             current_fallback_group := None |} (seen ++ [e]).
Proof.
  intros Hg Hrid Hi. pose proof Hg as []. split; simpl; try done.
  - intros r j. rewrite dget_dset. case_decide as Hr.
    + intros [= <-]. subst. rewrite ids_snoc, decide_True, gr_absent0 by done.
      by rewrite lookup_app_r, Nat.sub_diag by done.
    + intros Hj. rewrite ids_other by congruence. apply lookup_app_l_Some. auto.
  - intros r. rewrite dget_dset. case_decide; [done|]. intros Hr.
    rewrite ids_other by congruence. auto.
  - intros r j. rewrite dget_dset. case_decide as Hr.
    + intros _. subst. rewrite ids_snoc, decide_True by done. by intros [_ ?]%app_eq_nil.
    + intros Hj. eapply ids_present, gr_present0, Hj.
  - by apply sublists_new_turn.
  - eapply grouped_all_snoc; [done|]. apply concat_new_turn.
Qed.

Lemma grouped_open g seen e :
  grouped g seen -> request_id (contents e) = None ->
  grouped {| grouped_turns := grouped_turns g ++ [[e]]; request_groups := request_groups g;
             current_fallback_group := Some (length (grouped_turns g)) |} (seen ++ [e]).
Proof.
  intros Hg Hrid. pose proof Hg as []. split; simpl.
  - intros r i Hi. rewrite ids_other by congruence. apply lookup_app_l_Some. auto.
  - intros r Hr. rewrite ids_other by congruence. auto.
  - intros r i Hi. eapply ids_present, gr_present0, Hi.
  - intros i [= <-]. exists [e]. split; [by rewrite lookup_app_r, Nat.sub_diag by done|].
    by repeat constructor.
  - by apply sublists_new_turn.
  - eapply grouped_all_snoc; [done|]. apply concat_new_turn.
Qed.

Lemma grouped_continue g seen e i :
  grouped g seen -> request_id (contents e) = None -> current_fallback_group g = Some i ->
  grouped {| grouped_turns := append_to_group i e (grouped_turns g);
             request_groups := request_groups g; current_fallback_group := Some i |} (seen ++ [e]).
Proof.
  intros Hg Hrid Hcur. pose proof Hg as []. destruct (gr_current0 _ Hcur) as (t & Ht & Hnone).
  split; simpl.
  - intros r j Hj. rewrite ids_other by congruence. unfold append_to_group.
    rewrite list_lookup_alter. case_decide as Hij; [|auto]. exfalso. subst j.
    rewrite (gr_request0 _ _ Hj) in Ht. simplify_eq.
    destruct (ids r seen) as [|e0 l] eqn:Hl; [by eapply gr_present0|].
    assert (request_id (contents e0) = Some r) by (eapply ids_request_id; rewrite Hl; left).
    apply Forall_cons in Hnone as [? _]. congruence.
  - intros r Hr. rewrite ids_other by congruence. auto.
  - intros r j Hj. eapply ids_present, gr_present0, Hj.
  - intros j [= <-]. exists (t ++ [e]). unfold append_to_group.
    rewrite list_lookup_alter, decide_True, Ht by done. split; [done|].
    apply Forall_app. by repeat constructor.
  - by apply sublists_append.
  - eapply grouped_all_snoc; [done|]. by eapply concat_append_to_group.
Qed.

Lemma grouped_drop g seen e : grouped g seen -> ~ anchored e -> grouped g (seen ++ [e]).
Proof.
  intros Hg Hd. pose proof Hg as [].
  assert (Hrid : request_id (contents e) = None).
  { destruct (request_id (contents e)) eqn:Hr; [|done]. destruct Hd. left. eauto. }
  split; [| | |done|by apply sublists_snoc|].
  - intros r i Hi. rewrite ids_other by congruence. auto.
  - intros r Hr. rewrite ids_other by congruence. auto.
  - intros r i Hi. eapply ids_present, gr_present0, Hi.
  - destruct gr_all0 as (kept & dropped & Hk & Hs & Hds). exists kept, (dropped ++ [e]).
    split_and!; [done|by rewrite app_assoc, Hs|]. apply Forall_app. by repeat constructor.
Qed.

Lemma group_entry_grouped g seen e : grouped g seen -> grouped (group_entry contents g e) (seen ++ [e]).
Proof.
  intros Hg. unfold group_entry. destruct (request_id (contents e)) as [rid|] eqn:Hrid.
  - destruct (dget rid (request_groups g)) as [i|] eqn:Hi;
      [by eapply grouped_same_request | by apply grouped_new_request].
  - case_bool_decide; [by apply grouped_open|].
    destruct (current_fallback_group g) as [i|] eqn:Hcur.
    { by apply grouped_continue. }
    case_bool_decide; [by apply grouped_open|]. apply grouped_drop; [done|].
    intros [[r Hr]|[role Hrole]]; [congruence|].
    destruct (resolve_entry_role_range _ _ Hrole); congruence.
Qed.

Lemma grouped_foldl g seen entries :
  grouped g seen -> grouped (foldl (group_entry contents) g entries) (seen ++ entries).
Proof.
  revert g seen. induction entries as [|e entries IH]; intros g seen Hg; simpl; [by rewrite app_nil_r|].
  rewrite cons_middle, app_assoc. apply IH. by apply group_entry_grouped.
Qed.

Lemma grouped_new : grouped new_grouping [].
Proof. split; simpl; try done. by exists [], []. Qed.

End TurnLemmas.

(** Grouping looks at the contents only. *)
Definition grouping_contents {E} (contents : E -> dict) (g : grouping E) : grouping dict :=
  {| grouped_turns := map (map contents) (grouped_turns g); request_groups := request_groups g;
     current_fallback_group := current_fallback_group g |}.

Lemma group_entry_map {E} (contents : E -> dict) (g : grouping E) e :
  group_entry id (grouping_contents contents g) (contents e) = grouping_contents contents (group_entry contents g e).
Proof.
  assert (Happ : forall i (ts : list (list E)),
    append_to_group i (contents e) (map (map contents) ts) = map (map contents) (append_to_group i e ts)).
  { intros i ts. revert i. induction ts as [|t ts IH]; intros [|i]; simpl; [done..| |].
    - unfold append_to_group. simpl. by rewrite map_app.
    - f_equal. apply IH. }
  unfold group_entry. cbn [grouped_turns request_groups current_fallback_group id grouping_contents].
  rewrite length_map. repeat case_match; unfold grouping_contents; cbn [grouped_turns request_groups current_fallback_group];
    rewrite ?Happ, ?map_app; done.
Qed.

Lemma group_entries_map {E} (contents : E -> dict) (es : list E) :
  group_entries_into_turns id (map contents es) = map (map contents) (group_entries_into_turns contents es).
Proof.
  unfold group_entries_into_turns.
  enough (forall g, foldl (group_entry id) (grouping_contents contents g) (map contents es)
    = grouping_contents contents (foldl (group_entry contents) g es)) as H.
  { apply (f_equal grouped_turns (H new_grouping)). }
  induction es as [|e es IH]; intros g; [done|]. cbn [map foldl]. rewrite group_entry_map. apply IH.
Qed.

(** ** Lemmas: reading *)

Definition scalar (v : value) : bool :=
  match v with VDict _ | VList _ | VStr _ => false | _ => true end.

Lemma read_lines_scalar ls1 v ls2 :
  scalar v = true -> exists e, read_lines (ls1 ++ LJson v :: ls2) = Err e.
Proof.
  intros Hv. induction ls1 as [|l ls1 [e IH]]; simpl.
  - destruct v; simpl in *; try done; eauto.
  - destruct l; rewrite ?IH; eauto. destruct (is_entry v0); simpl; eauto.
Qed.

(** A line of a transcript as Claude Code writes it: blank, not JSON, or an object whose
    [message], if any, is an object. *)
Definition ordinary (l : line) : Prop :=
  match l with
  | LBlank | LBadJson => True
  | LJson (VDict d) => forall m, dget "message" d = Some m -> is_dict m = true
  | _ => False
  end.

(** The entries of an ordinary transcript. *)
Definition line_entry (l : line) : option value :=
  match l with
  | LJson (VDict d) => if dhas "message" d || dhas "type" d then Some (VDict d) else None
  | _ => None
  end.

(** The timestamp an entry is sorted by. *)
Definition timestamp (v : value) : string := match _get_timestamp v with Ok s => s | Err _ => "" end.

Lemma read_lines_ordinary ls : Forall ordinary ls -> read_lines ls = Ok (omap line_entry ls).
Proof.
  induction 1 as [|l ls Hl _ IH]; [done|]. cbn [read_lines omap list_omap].
  destruct l as [| |v|]; try done. destruct v; try done. cbn [line_entry].
  unfold is_entry, py_in. rewrite IH. destruct (dhas "message" d), (dhas "type" d); done.
Qed.

Lemma timestamp_ordinary ls v :
  Forall ordinary ls -> v ∈ omap line_entry ls -> _get_timestamp v = Ok (timestamp v).
Proof.
  intros Hls (l & Hl & Hv)%list_elem_of_omap. rewrite Forall_forall in Hls. specialize (Hls _ Hl).
  destruct l as [| |[]|]; try done. simpl in Hv. case_match; simplify_eq.
  unfold timestamp. simpl in Hls. unfold _get_timestamp. cbn [py_get]. rewrite res_bind_ok.
  destruct (truthy _); [done|]. unfold py_in, dhas. rewrite res_bind_ok. cbn [py_get].
  unfold dget_default. destruct (dget "message" d) as [m|] eqn:Hm; simpl; [|done].
  specialize (Hls _ eq_refl). by destruct m.
Qed.

Lemma mapM_res_keyed {A} (f : A -> res string) (g : A -> string) l :
  (forall a, a ∈ l -> f a = Ok (g a)) ->
  mapM_res (fun a => (fun k => (k, a)) <$> f a) l = Ok ((fun a => (g a, a)) <$> l).
Proof.
  induction l as [|a l IH]; intros Hf; [done|]. cbn [mapM_res]. rewrite Hf by left. simpl.
  rewrite IH; [done|]. intros x Hx. apply Hf. by right.
Qed.

Lemma sort_by_fmap {A B} (key : B -> string) (f : A -> B) l :
  sort_by key (f <$> l) = f <$> sort_by (fun a => key (f a)) l.
Proof.
  induction l as [|a l IH]; [done|]. rewrite fmap_cons. cbn [sort_by]. rewrite IH. clear IH.
  induction (sort_by _ l) as [|x m IH]; [done|]. rewrite fmap_cons. cbn [insert_by].
  case_match; [done|]. by rewrite fmap_cons, IH.
Qed.

(** ** Properties *)

(** A transcript of ordinary lines is read completely: the entries returned are exactly
    the objects with a message or a type, sorted by timestamp, and those of equal
    timestamp stay in the order of the file. *)
Theorem parse_transcript_correct ls :
  Forall ordinary ls ->
  exists entries, parse_jsonl_transcript (Some ls) = Ok entries /\
    entries ≡ₚ omap line_entry ls /\
    StronglySorted (key_ordered timestamp) entries /\
    forall ts, filter (fun e => timestamp e = ts) entries
               = filter (fun e => timestamp e = ts) (omap line_entry ls).
Proof.
  intros Hls. unfold parse_jsonl_transcript, sort_entries. rewrite read_lines_ordinary by done.
  rewrite (mapM_res_keyed _ timestamp) by (intros; by eapply timestamp_ordinary).
  rewrite res_bind_ok, sort_by_fmap. eexists. split; [done|].
  rewrite <- list_fmap_compose. unfold compose. simpl. rewrite list_fmap_id.
  split_and!; [apply sort_by_perm | apply sort_by_sorted | intros ts; apply sort_by_stable].
Qed.

(** One line holding a bare JSON scalar makes the whole transcript read as empty, whatever
    the other lines hold. *)
Theorem scalar_line_loses_transcript ls1 v ls2 :
  scalar v = true -> parse_jsonl_transcript (Some (ls1 ++ LJson v :: ls2)) = Ok [].
Proof.
  intros Hv. unfold parse_jsonl_transcript. by destruct (read_lines_scalar ls1 v ls2 Hv) as [e ->].
Qed.

(** Grouping loses and invents nothing: every turn is a non-empty subsequence of the
    entries, the turns together hold every entry except ones without request id and role,
    and the entries of one request id form one turn, complete and in order, however they
    are interleaved with others. *)
Theorem turns_partition {E} (contents : E -> dict) (entries : list E) :
  let turns := group_entries_into_turns contents entries in
  Forall (fun t => t <> [] /\ sublist t entries) turns /\
  (exists dropped, concat turns ++ dropped ≡ₚ entries /\ Forall (fun e => ~ anchored contents e) dropped) /\
  (forall r, ids contents r entries <> [] -> ids contents r entries ∈ turns).
Proof.
  intros turns. destruct (grouped_foldl contents new_grouping [] entries (grouped_new contents)). split_and!; [done| |].
  - destruct gr_all0 as (kept & dropped & Hk & Hs & Hd). exists dropped. split; [|done].
    by rewrite <- Hs, <- Hk.
  - intros r Hr. destruct (dget r (request_groups (foldl (group_entry contents) new_grouping entries))) as [i|] eqn:Hi.
    + eapply list_elem_of_lookup_2. exact (gr_request0 _ _ Hi).
    + by apply gr_absent0 in Hi.
Qed.

(** An object whose message is [null] and that has no timestamp makes the sort raise. *)
Example null_message_raises :
  parse_jsonl_transcript (Some [LJson (VDict [("type", VStr "summary"); ("message", VNone)])])
  = raise AttributeError "'NoneType' object has no attribute 'get'".
Proof. vm_compute. reflexivity. Qed.

(** ** Witnesses *)

Module TranscriptSample.

Definition entry (ts rid role : string) : value :=
  VDict [("timestamp", VStr ts); ("requestId", VStr rid); ("message", VDict [("role", VStr role)])].
Definition lines : list line :=
  [LJson (entry "t2" "r1" "assistant"); LBadJson; LJson (entry "t1" "" "user"); LBlank;
   LJson (VDict [("unrelated", VNone)]); LJson (entry "t2" "r2" "assistant")].

Lemma lines_ordinary : Forall ordinary lines.
Proof. repeat constructor; simpl; intros m Hm; by simplify_eq. Defined.

Lemma parse_transcript_witness :
  exists entries, parse_jsonl_transcript (Some lines) = Ok entries /\
    entries ≡ₚ omap line_entry lines /\
    StronglySorted (key_ordered timestamp) entries /\
    forall ts, filter (fun e => timestamp e = ts) entries
               = filter (fun e => timestamp e = ts) (omap line_entry lines).
Proof. exact (parse_transcript_correct lines lines_ordinary). Defined.

Lemma scalar_line_witness : parse_jsonl_transcript (Some (lines ++ LJson VNone :: lines)) = Ok [].
Proof. apply (scalar_line_loses_transcript lines VNone lines). reflexivity. Defined.

End TranscriptSample.
