(* ===== verification/Rewind.v ===== *)
(** * Rewind: resuming a conversation before its last turns

    [src/forge/session/rewind.py]: [write_rewind_transcript_prefix] writes the lines of a
    transcript up to the end of a turn, snapping back over turns whose tool calls have no
    result yet, and [extract_rewind_file_deltas] reports the code edits of the turns dropped.
    The code tells entries apart by [id()]: an entry is an object, here its dict with the
    index of its line. [json.loads] is an argument; it may raise anything. *)

From S2P Require Import Prelude PyValue Regex PyText Transcript.

(** ** Raw entries *)

(** [_RawTranscriptEntry]. *)
Record raw_entry := { entry : dict; line_index : nat }.

(** A line of the file, stripped, as [json.loads] reads it. *)
Definition parse_line (loads : text -> res value) (raw_line : text) : res (option dict) :=
  let stripped := strip raw_line in
  if bool_decide (stripped = []) then Ok None
  else
    match loads stripped with
    | Ok parsed => Ok (as_dict parsed)
    | Err e => if bool_decide (exn_cls e = JSONDecodeError) then Ok None else Err e
    end.

Fixpoint parse_raw_from (loads : text -> res value) (i : nat) (raw_lines : list text) : res (list raw_entry) :=
  match raw_lines with
  | [] => Ok []
  | raw_line :: raw_lines =>
      parsed ← parse_line loads raw_line;
      entries ← parse_raw_from loads (S i) raw_lines;
      Ok (match parsed with
          | Some d => {| entry := d; line_index := i |} :: entries
          | None => entries
          end)
  end.

Definition _parse_raw_transcript_entries (loads : text -> res value) (raw_lines : list text) : res (list raw_entry) :=
  parse_raw_from loads 0 raw_lines.

(** [parse_rewind_transcript_entries], from the text of the file on. *)
Definition parse_rewind_transcript_entries (loads : text -> res value) (source_text : text) : res (list raw_entry) :=
  _parse_raw_transcript_entries loads (text_lines_keep source_text).

(** [group_entries_into_turns] on them. *)
Definition turns_of (raw_entries : list raw_entry) : list (list raw_entry) :=
  group_entries_into_turns entry raw_entries.

(** ** Dangling tool calls *)

Definition nonempty_str (v : value) : option string :=
  match v with VStr s => if String.eqb s "" then None else Some s | _ => None end.

Definition has_type (t : string) (block : dict) : bool := py_eq (dgetv "type" block) (VStr t).

Definition tool_uses (blocks : list dict) : list string :=
  omap (fun block => if has_type "tool_use" block then nonempty_str (dgetv "id" block) else None) blocks.

Definition tool_results (blocks : list dict) : list string :=
  omap (fun block => if has_type "tool_use" block then None
                     else if has_type "tool_result" block then nonempty_str (dgetv "tool_use_id" block) else None) blocks.

Definition _has_dangling_tool_use (entries : list dict) : bool :=
  let blocks := entries ≫= extract_entry_blocks in
  existsb (fun id => negb (bool_decide (id ∈ tool_results blocks))) (tool_uses blocks).

(** ** The cut *)

(** [_cutoff_line_for_kept_turns]: -1 when nothing is kept. *)
Definition _cutoff_line_for_kept_turns (turn_groups : list (list raw_entry)) (kept_turns : nat) : Z :=
  foldr (fun r m => Z.max (Z.of_nat (line_index r)) m) (-1) (concat (take kept_turns turn_groups)).

(** [raw.line_index <= cutoff_line]. *)
Definition before_cut (cutoff_line : Z) (r : raw_entry) : Prop := Z.of_nat (line_index r) <= cutoff_line.
#[global] Instance before_cut_dec cutoff_line r : Decision (before_cut cutoff_line r).
Proof. unfold before_cut. apply _. Defined.

Definition prefix_entries (raw_entries : list raw_entry) (cutoff_line : Z) : list raw_entry :=
  filter (before_cut cutoff_line) raw_entries.

(** The loop of [_snap_to_complete_prefix]. *)
Fixpoint snap_from (raw_entries : list raw_entry) (turn_groups : list (list raw_entry)) (kept_turns : nat) : nat :=
  match kept_turns with
  | O => O
  | S fewer =>
      let cutoff_line := _cutoff_line_for_kept_turns turn_groups kept_turns in
      if _has_dangling_tool_use (entry <$> prefix_entries raw_entries cutoff_line)
      then snap_from raw_entries turn_groups fewer
      else kept_turns
  end.

Definition _snap_to_complete_prefix (raw_entries : list raw_entry) (turn_groups : list (list raw_entry))
    (requested_keep_turns : nat) : nat :=
  snap_from raw_entries turn_groups (Nat.min requested_keep_turns (length turn_groups)).

(** The object identities of a list of entries. *)
Definition entry_ids (entries : list raw_entry) : gset nat := list_to_set (line_index <$> entries).

Definition not_contiguous : pyexn :=
  PyExn ValueError "rewind transcript turns are not a contiguous raw prefix; refusing to include dropped-window entries".

Definition _assert_kept_turns_form_raw_prefix (raw_entries : list raw_entry) (turn_groups : list (list raw_entry))
    (kept_turns : nat) (cutoff_line : Z) : res unit :=
  let grouped_entry_ids := entry_ids (concat turn_groups) in
  let expected_entry_ids := entry_ids (concat (take kept_turns turn_groups)) in
  let selected_grouped_entry_ids :=
    entry_ids (filter (fun r => before_cut cutoff_line r /\ line_index r ∈ grouped_entry_ids) raw_entries) in
  if bool_decide (selected_grouped_entry_ids = expected_entry_ids) then Ok tt else Err not_contiguous.

(** ** The prefix *)

Record RewindPrefixResult := {
  requested_drop_last : Z;
  total_turns : nat;
  requested_keep_turns : nat;
  kept_turns : nat;
  actual_dropped_turns : nat;
  lines_written : nat;
  entries_written : nat;
  snapped_to_safe_boundary : bool }.

(** [write_rewind_transcript_prefix]: the text written to the destination and the result.
    [source] is what reading the source file gives. *)
Definition write_rewind_transcript_prefix (loads : text -> res value) (source : res text) (drop_last : Z)
    : res (text * RewindPrefixResult) :=
  if drop_last <? 0 then raise ValueError "drop_last must be non-negative"
  else
    source_text ← source;
    let raw_lines := text_lines_keep source_text in
    raw_entries ← _parse_raw_transcript_entries loads raw_lines;
    let turn_groups := turns_of raw_entries in
    let total := length turn_groups in
    let requested := Z.to_nat (Z.max (Z.of_nat total - drop_last) 0) in
    if drop_last =? 0 then
      Ok (source_text,
          {| requested_drop_last := drop_last; total_turns := total; requested_keep_turns := total;
             kept_turns := total; actual_dropped_turns := 0; lines_written := length raw_lines;
             entries_written := length raw_entries; snapped_to_safe_boundary := false |})
    else
      let kept := _snap_to_complete_prefix raw_entries turn_groups requested in
      let cutoff_line := _cutoff_line_for_kept_turns turn_groups kept in
      _ ← _assert_kept_turns_form_raw_prefix raw_entries turn_groups kept cutoff_line;
      let selected_lines := if 0 <=? cutoff_line then take (Z.to_nat cutoff_line + 1) raw_lines else [] in
      Ok (concat selected_lines,
          {| requested_drop_last := drop_last; total_turns := total; requested_keep_turns := requested;
             kept_turns := kept; actual_dropped_turns := total - kept; lines_written := length selected_lines;
             entries_written := length (prefix_entries raw_entries cutoff_line);
             snapped_to_safe_boundary := negb (Nat.eqb kept requested) |}).

(** ** File deltas *)

(** [RewindFileDelta], and [_FileDeltaBuilder] while it is built. *)
Record RewindFileDelta := {
  path : string;
  first_turn : Z;
  last_turn : Z;
  tool_names : list string;
  operation_count : Z;
  latest_summary : string }.

(** [_FileDeltaBuilder.add]. *)
Definition add_call (turn_number : Z) (tool_name summary : string) (b : RewindFileDelta) : RewindFileDelta :=
  {| path := path b; first_turn := first_turn b; last_turn := turn_number;
     tool_names := if bool_decide (tool_name ∈ tool_names b) then tool_names b else tool_names b ++ [tool_name];
     operation_count := operation_count b + 1; latest_summary := summary |}.

Definition _CODE_DELTA_TOOL_NAMES : list string := ["Edit"; "Write"; "MultiEdit"; "NotebookEdit"].
Definition _CODE_DELTA_FIELD_CHARS : nat := 900.

Definition _extract_code_tool_path (tool_name : string) (tool_input : dict) : string :=
  let file_or_path := py_or (dgetv "file_path" tool_input) (dgetv "path" tool_input) in
  let raw_path := if String.eqb tool_name "NotebookEdit" then py_or (dgetv "notebook_path" tool_input) file_or_path
                  else file_or_path in
  match raw_path with VStr s => py_strip s | _ => "" end.

Definition _input_text (mapping : dict) (key : string) : string :=
  match dgetv key mapping with VStr s => s | _ => "" end.

(** The summaries of a [MultiEdit]'s edits, numbered by their places in the list. *)
Fixpoint edit_summaries (index : Z) (edits : list value) : list string :=
  match edits with
  | [] => []
  | VDict edit :: edits =>
      (pretty index +++ ". `" +++ truncate (_input_text edit "old_string") 180 +++ "` -> `"
       +++ truncate (_input_text edit "new_string") 180 +++ "`") :: edit_summaries (index + 1) edits
  | _ :: edits => edit_summaries (index + 1) edits
  end.

Definition _summarize_code_tool_call (tool_name : string) (tool_input : dict) : string :=
  let field key := truncate (_input_text tool_input key) _CODE_DELTA_FIELD_CHARS in
  if String.eqb tool_name "Edit" then
    "Edit replaces `" +++ field "old_string" +++ "` with `" +++ field "new_string" +++ "`"
  else if String.eqb tool_name "Write" then "Write sets file content to `" +++ field "content" +++ "`"
  else if String.eqb tool_name "MultiEdit" then
    match (match dgetv "edits" tool_input with VList edits => edit_summaries 1 edits | _ => [] end) with
    | [] => "MultiEdit updates the file"
    | l => "MultiEdit applies " +++ pretty (Z.of_nat (length l)) +++ " edit(s): " +++ str_join "; " l
    end
  else if String.eqb tool_name "NotebookEdit" then
    let cell_id := _input_text tool_input "cell_id" in
    let source := if String.eqb (_input_text tool_input "new_source") "" then _input_text tool_input "source"
                  else _input_text tool_input "new_source" in
    let cell_suffix := if String.eqb cell_id "" then "" else " cell " +++ cell_id in
    if String.eqb source ""
    then "NotebookEdit updates" +++ (if String.eqb cell_suffix "" then " a notebook cell" else cell_suffix)
    else "NotebookEdit updates" +++ cell_suffix +++ " to `" +++ truncate source _CODE_DELTA_FIELD_CHARS +++ "`"
  else tool_name +++ " updates the file".

(** One code edit a transcript asks for. *)
Record code_call := { call_path : string; call_turn : Z; call_tool : string; call_summary : string }.

(** The guards of the inner loop of [extract_rewind_file_deltas]: the edit a block is, if any. *)
Definition code_call_of (turn_number : Z) (block : dict) : option code_call :=
  if negb (has_type "tool_use" block) then None
  else
    match dgetv "name" block, dgetv "input" block with
    | VStr tool_name, VDict tool_input =>
        if negb (bool_decide (tool_name ∈ _CODE_DELTA_TOOL_NAMES)) then None
        else
          let path := _extract_code_tool_path tool_name tool_input in
          if String.eqb path "" then None
          else Some {| call_path := path; call_turn := turn_number; call_tool := tool_name;
                       call_summary := _summarize_code_tool_call tool_name tool_input |}
    | _, _ => None
    end.

(** The edit's builder is made or updated. *)
Definition note_call (builders : list (string * RewindFileDelta)) (c : code_call) : list (string * RewindFileDelta) :=
  match dget (call_path c) builders with
  | None =>
      dset (call_path c)
        {| path := call_path c; first_turn := call_turn c; last_turn := call_turn c; tool_names := [call_tool c];
           operation_count := 1; latest_summary := call_summary c |} builders
  | Some b => dset (call_path c) (add_call (call_turn c) (call_tool c) (call_summary c) b) builders
  end.

(** The edits of a turn, and of the turns numbered from [n]. *)
Definition turn_calls (turn_number : Z) (group : list dict) : list code_call :=
  omap (code_call_of turn_number) (group ≫= extract_entry_blocks).

Fixpoint calls_from (n : Z) (groups : list (list dict)) : list code_call :=
  match groups with
  | [] => []
  | group :: groups => turn_calls n group ++ calls_from (n + 1) groups
  end.

(** The loop over the turns. *)
Fixpoint deltas_from (kept_turns turn_number : Z) (groups : list (list dict)) (builders : list (string * RewindFileDelta))
    : list (string * RewindFileDelta) :=
  match groups with
  | [] => builders
  | group :: groups =>
      deltas_from kept_turns (turn_number + 1) groups
        (if turn_number <=? kept_turns then builders
         else foldl (fun bs block => match code_call_of turn_number block with Some c => note_call bs c | None => bs end)
                builders (group ≫= extract_entry_blocks))
  end.

Definition extract_rewind_file_deltas (entries : list dict) (kept_turns : Z) : res (list RewindFileDelta) :=
  if kept_turns <? 0 then raise ValueError "kept_turns must be non-negative"
  else Ok (snd <$> deltas_from kept_turns 1 (group_entries_into_turns id entries) []).

(** ** Lemmas: lines *)

(** [splitlines(keepends=True)] cuts the text, and cuts each beginning of it at the same
    places. *)
Lemma concat_text_lines_keep s : concat (text_lines_keep s) = s.
Proof.
  induction s as [|c s IH]; [done|]. cbn [text_lines_keep]. case_match; simpl; [by rewrite IH|].
  destruct (text_lines_keep s); simpl in *; by rewrite IH.
Qed.

Lemma text_lines_keep_nonempty s : Forall (fun l => l <> []) (text_lines_keep s).
Proof.
  induction s as [|c s IH]; [constructor|]. cbn [text_lines_keep]. case_match; [by constructor|].
  destruct (text_lines_keep s); [by repeat constructor|]. apply Forall_cons in IH as [_ IH]. by constructor.
Qed.

Lemma text_lines_keep_take n s :
  text_lines_keep (concat (take n (text_lines_keep s))) = take n (text_lines_keep s).
Proof.
  revert n. induction s as [|c s IH]; intros n; [by destruct n|].
  destruct n as [|n]; [done|]. cbn [text_lines_keep]. destruct (ends_line c s) eqn:Hc.
  - simpl. rewrite IH. replace (ends_line c _) with true; [done|]. symmetry. revert Hc.
    unfold ends_line. intros [-> Hc]%andb_true_iff. simpl. apply negb_true_iff.
    apply negb_true_iff in Hc. rewrite andb_false_iff in *. destruct Hc as [Hc|Hc]; [by left|right].
    apply bool_decide_eq_false in Hc. apply bool_decide_eq_false. contradict Hc.
    pose proof (concat_text_lines_keep s) as Hs. rewrite <- (take_drop n (text_lines_keep s)), concat_app in Hs.
    rewrite <- Hs. by destruct (concat (take n _)).
  - destruct (text_lines_keep s) as [|l ls] eqn:Hls.
    + by destruct n; simpl; case_match.
    + specialize (IH (S n)). simpl in *. rewrite IH.
      replace (ends_line c _) with false; [done|]. symmetry. revert Hc. unfold ends_line.
      assert (Hs : concat (l :: ls) = s) by (rewrite <- Hls; apply concat_text_lines_keep).
      destruct l as [|d l]; [|by rewrite <- Hs].
      pose proof (text_lines_keep_nonempty s) as Hne. rewrite Hls in Hne. by apply Forall_cons in Hne as [? _].
Qed.

(** ** Lemmas: entries *)

Definition earlier (a b : raw_entry) : Prop := (line_index a < line_index b)%nat.

Lemma parse_raw_sorted loads i raw_lines entries :
  parse_raw_from loads i raw_lines = Ok entries ->
  StronglySorted earlier entries /\ Forall (fun r => (i <= line_index r)%nat) entries.
Proof.
  revert i entries. induction raw_lines as [|l ls IH]; intros i entries; simpl.
  { intros [= <-]. by repeat constructor. }
  destruct (parse_line loads l) as [parsed|]; [|done]. simpl.
  destruct (parse_raw_from loads (S i) ls) as [es|] eqn:Hes; [|done]. intros [= <-].
  destruct (IH _ _ Hes) as [Hs Hf].
  assert (Hf' : Forall (fun r => (i <= line_index r)%nat) es) by (eapply Forall_impl; [exact Hf|]; simpl; lia).
  destruct parsed as [d|]; [|done]. split; constructor; try done.
Qed.

(** What the first [n] lines hold. *)
Lemma parse_raw_take loads i raw_lines entries n :
  parse_raw_from loads i raw_lines = Ok entries ->
  parse_raw_from loads i (take n raw_lines) = Ok (filter (fun r => (line_index r < i + n)%nat) entries).
Proof.
  revert i entries n. induction raw_lines as [|l ls IH]; intros i entries n.
  { intros [= <-]. by destruct n. }
  intros Hp. pose proof (parse_raw_sorted _ _ _ _ Hp) as [_ Hge]. simpl in Hp.
  destruct n as [|n].
  { simpl. f_equal. symmetry. apply filter_none. eapply Forall_impl; [exact Hge|]. simpl. lia. }
  simpl. destruct (parse_line loads l) as [parsed|]; [|done]. simpl in *.
  destruct (parse_raw_from loads (S i) ls) as [es|] eqn:Hes; [|done].
  rewrite (IH _ _ n Hes). simpl. injection Hp as <-. f_equal.
  assert (Heq : filter (fun r => (line_index r < S (i + n))%nat) es = filter (fun r => (line_index r < i + S n)%nat) es).
  { apply list_filter_iff. intros r. lia. }
  destruct parsed as [d|]; [|by rewrite Heq]. rewrite filter_cons_True by (simpl; lia). by rewrite Heq.
Qed.

Lemma sorted_split (P : raw_entry -> Prop) `{!forall r, Decision (P r)} entries :
  (forall a b, earlier a b -> P b -> P a) -> StronglySorted earlier entries ->
  filter P entries ++ filter (fun r => ~ P r) entries = entries.
Proof.
  intros HP. induction 1 as [|r es Hs IH Hr]; [done|]. destruct (decide (P r)) as [Hn|Hn].
  - rewrite filter_cons_True, filter_cons_False by naive_solver. simpl. by rewrite IH.
  - rewrite filter_cons_False, filter_cons_True by naive_solver.
    rewrite filter_none, filter_all; [done| |]; eapply Forall_impl; try exact Hr; naive_solver.
Qed.

Lemma sorted_inj entries a b :
  StronglySorted earlier entries -> a ∈ entries -> b ∈ entries -> line_index a = line_index b -> a = b.
Proof.
  induction 1 as [|r es Hs IH Hr]; [by intros ?%elem_of_nil|]. rewrite Forall_forall in Hr. unfold earlier in Hr.
  intros [->|Ha]%elem_of_cons [->|Hb]%elem_of_cons Hab; auto; exfalso.
  - specialize (Hr _ Hb). lia.
  - specialize (Hr _ Ha). lia.
Qed.

Lemma sorted_NoDup entries : StronglySorted earlier entries -> NoDup entries.
Proof.
  induction 1 as [|r es Hs IH Hr]; constructor; [|done]. intros Hin. rewrite Forall_forall in Hr.
  specialize (Hr _ Hin). unfold earlier in Hr. lia.
Qed.

(** ** Lemmas: turns *)

(** What more entries do to the turns: each turn keeps what it had and may grow, and there
    may be new ones. *)
Definition grown (more : list raw_entry) (turns turns' : list (list raw_entry)) : Prop :=
  forall i t', turns' !! i = Some t' ->
    exists s, t' = default [] (turns !! i) ++ s /\ Forall (fun e => e ∈ more) s.

Lemma grown_append_to_group i e (turns : list (list raw_entry)) : grown [e] turns (append_to_group i e turns).
Proof.
  intros j t'. unfold append_to_group. rewrite list_lookup_alter. case_decide as Hij.
  - subst. destruct (turns !! j) as [t|]; [|done]. intros [= <-]. exists [e]. split; [done|].
    by repeat constructor.
  - intros ->. exists []. by rewrite app_nil_r.
Qed.

Lemma grown_new_turn e (turns : list (list raw_entry)) : grown [e] turns (turns ++ [[e]]).
Proof.
  intros j t' [Hj|[Hle Hj]]%lookup_app_Some.
  - exists []. rewrite Hj. by rewrite app_nil_r.
  - rewrite lookup_ge_None_2 by done. exists [e].
    apply list_lookup_singleton_Some in Hj as [_ <-]. split; [done|]. by repeat constructor.
Qed.

Lemma grown_refl more turns : grown more turns turns.
Proof. intros j t' ->. exists []. by rewrite app_nil_r. Qed.

Lemma group_entry_grown g e : grown [e] (grouped_turns g) (grouped_turns (group_entry entry g e)).
Proof.
  unfold group_entry. repeat case_match; simpl;
    auto using grown_append_to_group, grown_new_turn, grown_refl.
Qed.

Lemma grown_trans more1 more2 ts1 ts2 ts3 :
  (length ts2 <= length ts3)%nat -> grown more1 ts1 ts2 -> grown more2 ts2 ts3 -> (length ts1 <= length ts2)%nat ->
  grown (more1 ++ more2) ts1 ts3.
Proof.
  intros Hl2 H12 H23 Hl1 i t3 Hi. destruct (H23 _ _ Hi) as (s2 & -> & Hs2).
  destruct (ts2 !! i) as [t2|] eqn:H2; simpl.
  - destruct (H12 _ _ H2) as (s1 & -> & Hs1). exists (s1 ++ s2). rewrite app_assoc. split; [done|].
    apply Forall_app. split; [eapply Forall_impl; [exact Hs1|]|eapply Forall_impl; [exact Hs2|]]; set_solver.
  - rewrite (lookup_ge_None_2 ts1) by (apply lookup_ge_None in H2; lia). exists s2. split; [done|].
    eapply Forall_impl; [exact Hs2|]. set_solver.
Qed.

Lemma group_entry_length g e : (length (grouped_turns g) <= length (grouped_turns (group_entry entry g e)))%nat.
Proof.
  unfold group_entry. repeat case_match; simpl; unfold append_to_group;
    rewrite ?length_alter, ?length_app; simpl; lia.
Qed.

Lemma group_entries_grown g more :
  (length (grouped_turns g) <= length (grouped_turns (foldl (group_entry entry) g more)))%nat /\
  grown more (grouped_turns g) (grouped_turns (foldl (group_entry entry) g more)).
Proof.
  revert g. induction more as [|e more IH]; intros g; simpl; [split; [done|apply grown_refl]|].
  destruct (IH (group_entry entry g e)) as [Hl Hg]. pose proof (group_entry_length g e).
  split; [lia|]. eapply (grown_trans [e]); eauto using group_entry_grown.
Qed.

Lemma turns_of_grouped entries : grouped entry (foldl (group_entry entry) new_grouping entries) entries.
Proof. apply (grouped_foldl entry new_grouping [] entries), grouped_new. Qed.

Lemma turns_of_NoDup entries : NoDup entries -> NoDup (concat (turns_of entries)).
Proof.
  intros Hnd. destruct (turns_of_grouped entries). destruct gr_all as (kept & dropped & Hk & Hs & _).
  unfold turns_of, group_entries_into_turns. rewrite Hk. rewrite <- Hs in Hnd. by apply NoDup_app in Hnd as [? _].
Qed.

Lemma turn_entries entries i t :
  turns_of entries !! i = Some t -> t <> [] /\ (forall e, e ∈ t -> e ∈ entries).
Proof.
  intros Hi. destruct (turns_of_grouped entries). rewrite Forall_lookup in gr_sublist.
  destruct (gr_sublist _ _ Hi) as [Hne Hs]. split; [done|]. intros e He. by eapply elem_of_sublist.
Qed.

Lemma elem_of_list_concat {A} (ts : list (list A)) e : e ∈ concat ts <-> exists t, e ∈ t /\ t ∈ ts.
Proof.
  induction ts as [|t ts IH]; simpl; [set_solver|]. rewrite elem_of_app, IH. set_solver.
Qed.

Lemma concat_take_in {A} (ts : list (list A)) k e :
  e ∈ concat (take k ts) <-> exists i t, (i < k)%nat /\ ts !! i = Some t /\ e ∈ t.
Proof.
  rewrite elem_of_list_concat. split.
  - intros (t & He & Ht). apply list_elem_of_lookup in Ht as [i Hi]. apply lookup_take_Some in Hi as [Hi Hik]. eauto.
  - intros (i & t & Hi & Ht & He). exists t. split; [done|]. apply list_elem_of_lookup. exists i.
    by rewrite lookup_take_lt.
Qed.

Lemma concat_in {A} (ts : list (list A)) i t e : ts !! i = Some t -> e ∈ t -> e ∈ concat ts.
Proof. intros Hi He. apply elem_of_list_concat. exists t. split; [done|]. by eapply list_elem_of_lookup_2. Qed.

Lemma concat_NoDup_in {A} (ts : list (list A)) k i t e :
  NoDup (concat ts) -> ts !! i = Some t -> e ∈ t -> e ∈ concat (take k ts) -> (i < k)%nat.
Proof.
  intros Hnd Hi He Hk. destruct (decide (i < k)%nat); [done|]. exfalso.
  rewrite <- (take_drop k ts), concat_app in Hnd. apply NoDup_app in Hnd as (_ & Hnd & _).
  apply (Hnd e Hk), (concat_in _ (i - k) t); [|done]. rewrite lookup_drop. by replace (k + (i - k))%nat with i by lia.
Qed.

(** ** Lemmas: the cut *)

Lemma before_cut_closed c a b : earlier a b -> before_cut c b -> before_cut c a.
Proof. unfold earlier, before_cut. lia. Qed.

(** The selected entries of turns are the entries of the kept turns. *)
Definition contiguous (entries : list raw_entry) (k : nat) (cutoff_line : Z) : Prop :=
  forall e, e ∈ prefix_entries entries cutoff_line /\ e ∈ concat (turns_of entries) <->
       e ∈ concat (take k (turns_of entries)).

Definition contiguous_ids (entries : list raw_entry) (k : nat) (cutoff_line : Z) : Prop :=
  entry_ids (filter (fun r => before_cut cutoff_line r /\ line_index r ∈ entry_ids (concat (turns_of entries))) entries)
  = entry_ids (concat (take k (turns_of entries))).

#[local] Instance contiguous_ids_dec entries k cutoff_line : Decision (contiguous_ids entries k cutoff_line).
Proof. unfold contiguous_ids. apply _. Defined.

Lemma entry_ids_in entries e es :
  StronglySorted earlier entries -> e ∈ entries -> (forall e, e ∈ es -> e ∈ entries) ->
  line_index e ∈ entry_ids es <-> e ∈ es.
Proof.
  intros Hs He Hes. unfold entry_ids. rewrite elem_of_list_to_set, list_elem_of_fmap. split.
  - intros (e' & Heq & He'). by rewrite (sorted_inj entries e e') by auto.
  - intros. by exists e.
Qed.

Lemma in_turns entries e : e ∈ concat (turns_of entries) -> e ∈ entries.
Proof.
  intros (t & He & Ht)%elem_of_list_concat. apply list_elem_of_lookup in Ht as [i Hi].
  by apply (turn_entries _ _ _ Hi).
Qed.

Lemma in_kept_turns entries k e : e ∈ concat (take k (turns_of entries)) -> e ∈ concat (turns_of entries).
Proof. intros (i & t & _ & Hi & He)%concat_take_in. by eapply concat_in. Qed.

Lemma contiguous_ids_iff entries k cutoff_line :
  StronglySorted earlier entries -> contiguous_ids entries k cutoff_line <-> contiguous entries k cutoff_line.
Proof.
  intros Hs. unfold contiguous_ids, contiguous.
  assert (Hsel : forall e, e ∈ entries ->
    line_index e ∈ entry_ids (filter (fun r => before_cut cutoff_line r /\ line_index r ∈ entry_ids (concat (turns_of entries))) entries)
    <-> e ∈ prefix_entries entries cutoff_line /\ e ∈ concat (turns_of entries)).
  { intros e He. rewrite entry_ids_in; [|done|done|]. 2:{ intros e'. rewrite list_elem_of_filter. tauto. }
    unfold prefix_entries. rewrite !list_elem_of_filter, entry_ids_in by eauto using in_turns. tauto. }
  assert (Hexp : forall e, e ∈ entries ->
    line_index e ∈ entry_ids (concat (take k (turns_of entries))) <-> e ∈ concat (take k (turns_of entries))).
  { intros e He. apply (entry_ids_in entries); eauto using in_turns, in_kept_turns. }
  split.
  - intros Heq e. split.
    + intros [Hp Ht]. pose proof (in_turns _ _ Ht) as He. apply Hexp; [done|]. rewrite <- Heq. by apply Hsel.
    + intros Hk. pose proof (in_turns _ _ (in_kept_turns _ _ _ Hk)) as He. apply Hsel; [done|].
      rewrite Heq. by apply Hexp.
  - intros Hc. apply set_eq. intros n. split; intros Hn.
    + unfold entry_ids in Hn. rewrite elem_of_list_to_set, list_elem_of_fmap in Hn.
      destruct Hn as (e & -> & He). pose proof He as [_ He']%list_elem_of_filter.
      apply Hexp; [done|]. apply Hc. apply Hsel; [done|]. apply entry_ids_in with entries; try done.
      intros e'. rewrite list_elem_of_filter. tauto.
    + unfold entry_ids in Hn. rewrite elem_of_list_to_set, list_elem_of_fmap in Hn.
      destruct Hn as (e & -> & He). pose proof (in_turns _ _ (in_kept_turns _ _ _ He)) as He'.
      apply Hsel; [done|]. by apply Hc.
Qed.

(** A contiguous prefix holds exactly the kept turns. *)
Lemma contiguous_turns entries k cutoff_line :
  StronglySorted earlier entries -> contiguous entries k cutoff_line ->
  turns_of (prefix_entries entries cutoff_line) = take k (turns_of entries).
Proof.
  intros Hs Hc. pose proof (turns_of_NoDup _ (sorted_NoDup _ Hs)) as Hnd.
  set (pre := prefix_entries entries cutoff_line).
  set (post := filter (fun r => ~ before_cut cutoff_line r) entries).
  assert (Hsplit : pre ++ post = entries) by (apply sorted_split; eauto using before_cut_closed).
  assert (Hdisj : forall e, e ∈ pre -> e ∈ post -> False).
  { intros e. unfold pre, post, prefix_entries. rewrite !list_elem_of_filter. tauto. }
  destruct (group_entries_grown (foldl (group_entry entry) new_grouping pre) post) as [Hlen Hgrown].
  rewrite <- foldl_app, Hsplit in Hlen, Hgrown.
  fold (group_entries_into_turns entry pre) (group_entries_into_turns entry entries) in *.
  fold (turns_of pre) (turns_of entries) in *.
  (* a turn that is kept is complete in the prefix *)
  assert (Hkept : forall i t, (i < k)%nat -> turns_of entries !! i = Some t -> turns_of pre !! i = Some t).
  { intros i t Hik Ht. destruct (Hgrown _ _ Ht) as (s & Heq & Hpost).
    assert (s = []) as ->.
    { destruct s as [|e s]; [done|]. exfalso. apply Forall_cons in Hpost as [He _].
      apply (Hdisj e); [|done]. apply (Hc e), concat_take_in. exists i, t. subst t. set_solver. }
    rewrite app_nil_r in Heq. subst t. destruct (turn_entries _ _ _ Ht) as [Hne _].
    by destruct (turns_of pre !! i). }
  apply list_eq. intros i. destruct (decide (i < k)%nat) as [Hik|Hik].
  - rewrite lookup_take_lt by done. destruct (turns_of entries !! i) as [t|] eqn:Ht; [by apply Hkept|].
    apply lookup_ge_None. apply lookup_ge_None in Ht. lia.
  - rewrite lookup_take_ge by lia. apply eq_None_not_Some. intros [t Ht].
    destruct (turn_entries _ _ _ Ht) as [Hne Hin]. destruct t as [|e t]; [done|].
    assert (Hi : exists t', turns_of entries !! i = Some t' /\ e ∈ t').
    { destruct (turns_of entries !! i) as [t'|] eqn:Ht'.
      - exists t'. split; [done|]. destruct (Hgrown _ _ Ht') as (s & -> & _). rewrite Ht. simpl. set_solver.
      - apply lookup_ge_None in Ht'. apply lookup_lt_Some in Ht. lia. }
    destruct Hi as (t' & Ht' & He). apply Hik. apply (concat_NoDup_in (turns_of entries) k i t' e); try done.
    apply Hc. split; [apply Hin; set_solver|by eapply concat_in].
Qed.

(** The cut is at the last line of the kept turns. *)
Lemma cutoff_spec (rs : list raw_entry) (r : raw_entry) :
  Z.of_nat (line_index r) <= foldr (fun r m => Z.max (Z.of_nat (line_index r)) m) (-1) rs
  <-> exists a, a ∈ rs /\ (line_index r <= line_index a)%nat.
Proof.
  induction rs as [|x rs IH]; simpl.
  - split; [lia|]. by intros (a & ?%elem_of_nil & _).
  - rewrite Z.max_le_iff, IH. split.
    + intros [H|(a & Ha & H)]; [exists x|exists a]; (split; [set_solver|lia]).
    + intros (a & [->|Ha]%elem_of_cons & H); [left; lia|right; eauto].
Qed.

(** An entry of a later turn lies before an entry of the first [k] turns. *)
Definition interleaved (turns : list (list raw_entry)) (k : nat) : Prop :=
  exists a b, a ∈ concat (take k turns) /\ b ∈ concat (drop k turns) /\ earlier b a.

#[local] Instance interleaved_dec turns k : Decision (interleaved turns k).
Proof.
  destruct (decide (Exists (fun a => Exists (fun b => (line_index b < line_index a)%nat) (concat (drop k turns)))
                      (concat (take k turns)))) as [H|H]; [left|right].
  - apply Exists_exists in H as (a & Ha & (b & Hb & H)%Exists_exists). by exists a, b.
  - intros (a & b & Ha & Hb & Hba). apply H, Exists_exists. exists a. split; [done|]. apply Exists_exists. by exists b.
Defined.

Lemma concat_take_drop {A} (ts : list (list A)) k e :
  e ∈ concat ts <-> e ∈ concat (take k ts) \/ e ∈ concat (drop k ts).
Proof. by rewrite <- elem_of_app, <- concat_app, take_drop. Qed.

Lemma contiguous_iff entries k :
  StronglySorted earlier entries ->
  contiguous entries k (_cutoff_line_for_kept_turns (turns_of entries) k) <-> ~ interleaved (turns_of entries) k.
Proof.
  intros Hs. pose proof (turns_of_NoDup _ (sorted_NoDup _ Hs)) as Hnd.
  rewrite <- (take_drop k (turns_of entries)), concat_app in Hnd. apply NoDup_app in Hnd as (_ & Hnd & _).
  unfold contiguous, interleaved, _cutoff_line_for_kept_turns. split.
  - intros Hc (a & b & Ha & Hb & Hba). apply (Hnd b); [|done]. apply Hc.
    assert (b ∈ concat (turns_of entries)) as Hb' by (rewrite (concat_take_drop _ k); by right).
    split; [|done]. apply list_elem_of_filter. split; [|by apply in_turns].
    apply cutoff_spec. exists a. split; [done|]. unfold earlier in Hba. lia.
  - intros Hni e. unfold prefix_entries. rewrite list_elem_of_filter. unfold before_cut. rewrite cutoff_spec. split.
    + intros [[(a & Ha & Hea) He] Hin]. apply (concat_take_drop _ k) in Hin as [|Hin]; [done|].
      destruct (decide (line_index e = line_index a)) as [Heq|Hne].
      * by rewrite (sorted_inj entries e a) by eauto using in_turns, in_kept_turns.
      * exfalso. apply Hni. exists a, e. unfold earlier. split_and!; [done..|lia].
    + intros He. split_and!; eauto using in_turns, in_kept_turns.
Qed.

(** No tool call is left without its result. *)
Definition all_answered (entries : list dict) : Prop :=
  let blocks := entries ≫= extract_entry_blocks in forall id, id ∈ tool_uses blocks -> id ∈ tool_results blocks.

Lemma not_dangling entries : _has_dangling_tool_use entries = false <-> all_answered entries.
Proof.
  unfold _has_dangling_tool_use, all_answered. rewrite <- not_true_iff_false, existsb_exists. split.
  - intros H id Hid. destruct (decide (id ∈ tool_results (entries ≫= extract_entry_blocks))); [done|].
    exfalso. apply H. exists id. rewrite <- list_elem_of_In. split; [done|]. by rewrite bool_decide_eq_false_2.
  - intros H (id & Hid%list_elem_of_In & Hn). rewrite bool_decide_eq_true_2 in Hn by auto. done.
Qed.

Lemma snap_from_spec entries turns n :
  let k := snap_from entries turns n in
  let answered k := all_answered (entry <$> prefix_entries entries (_cutoff_line_for_kept_turns turns k)) in
  (k <= n)%nat /\ answered k /\ forall j, (k < j <= n)%nat -> ~ answered j.
Proof.
  induction n as [|n IH]; simpl.
  - split_and!; [done| |lia]. unfold prefix_entries. rewrite filter_none; [by intros id ?%elem_of_nil|].
    apply Forall_true. intros r. unfold before_cut, _cutoff_line_for_kept_turns. simpl. lia.
  - case_match eqn:Hd; [|apply not_dangling in Hd; split_and!; [lia|done|lia]].
    destruct IH as (Hk & Ha & Hj). split_and!; [lia|done|]. intros j [Hkj Hjn].
    destruct (decide (j = S n)) as [->|]; [|apply Hj; lia]. rewrite <- not_dangling. congruence.
Qed.

(** ** Lemmas: file deltas *)

Definition add_new (l : list string) (x : string) : list string := if bool_decide (x ∈ l) then l else l ++ [x].

(** The strings of a list in the order of their first occurrences. *)
Definition first_occurrences (l : list string) : list string := foldl add_new [] l.

(** What is to be reported of the edits of one file: where the first and the last are, by which
    tools, how many, and the last one's summary. *)
Definition delta_of (calls : list code_call) (p : string) : option RewindFileDelta :=
  let own := filter (fun c => call_path c = p) calls in
  c ← head own; z ← last own;
  Some {| path := p; first_turn := call_turn c; last_turn := call_turn z;
          tool_names := first_occurrences (call_tool <$> own);
          operation_count := Z.of_nat (length own); latest_summary := call_summary z |}.

Definition file_deltas (calls : list code_call) : list RewindFileDelta :=
  omap (delta_of calls) (first_occurrences (call_path <$> calls)).

Lemma first_occurrences_snoc l x : first_occurrences (l ++ [x]) = add_new (first_occurrences l) x.
Proof. unfold first_occurrences. by rewrite foldl_app. Qed.

Lemma delta_of_snoc p calls c :
  delta_of (calls ++ [c]) p =
  if decide (call_path c = p) then
    Some (match delta_of calls p with
          | None => {| path := p; first_turn := call_turn c; last_turn := call_turn c; tool_names := [call_tool c];
                       operation_count := 1; latest_summary := call_summary c |}
          | Some b => add_call (call_turn c) (call_tool c) (call_summary c) b
          end)
  else delta_of calls p.
Proof.
  unfold delta_of. rewrite filter_app. destruct (decide (call_path c = p)) as [Hp|Hp].
  - rewrite filter_cons_True, filter_nil, last_snoc, fmap_app by done. simpl (call_tool <$> [c]).
    rewrite first_occurrences_snoc, length_app. destruct (filter _ calls) as [|d own]; [done|].
    simpl (head _). destruct (last (d :: own)) as [z|] eqn:Hz; [|by apply last_None in Hz].
    cbn [mbind option_bind]. unfold add_call, add_new. cbn -[first_occurrences length]. do 2 f_equal. simpl. lia.
  - rewrite filter_cons_False, filter_nil, app_nil_r by done. done.
Qed.

(** The builders hold the report of every file, in the order of their first edits. *)
Definition reports (builders : list (string * RewindFileDelta)) (calls : list code_call) : Prop :=
  (forall p, dget p builders = delta_of calls p) /\
  dkeys builders = first_occurrences (call_path <$> calls) /\ NoDup (dkeys builders).

Lemma reports_note_call builders calls c : reports builders calls -> reports (note_call builders c) (calls ++ [c]).
Proof.
  intros (Hget & Hkeys & Hnd). unfold note_call, reports.
  rewrite fmap_app, fmap_cons, fmap_nil, first_occurrences_snoc, <- Hkeys. split_and!.
  - intros p. rewrite delta_of_snoc. rewrite <- Hget.
    destruct (dget (call_path c) builders) eqn:Hc; rewrite dget_dset; repeat case_decide; subst; try done;
      rewrite ?Hc; done.
  - unfold add_new. destruct (dget (call_path c) builders) eqn:Hc; rewrite dkeys_dset;
      case_bool_decide; case_decide; done.
  - destruct (dget (call_path c) builders); by apply NoDup_dset.
Qed.

Lemma reports_calls builders calls more :
  reports builders calls -> reports (foldl note_call builders more) (calls ++ more).
Proof.
  revert builders calls. induction more as [|c more IH]; intros bs calls H; simpl; [by rewrite app_nil_r|].
  rewrite (app_assoc _ [c] more). apply IH. by apply reports_note_call.
Qed.

Lemma reports_list builders calls : reports builders calls -> snd <$> builders = file_deltas calls.
Proof.
  intros (Hget & Hkeys & Hnd). unfold file_deltas. rewrite <- Hkeys.
  assert (forall p b, (p, b) ∈ builders -> delta_of calls p = Some b) as Hin.
  { intros p b Hb. rewrite <- Hget. by apply elem_of_dget. }
  clear -Hin. induction builders as [|[p b] bs IH]; [done|]. cbn. rewrite (Hin p b) by left.
  f_equal. apply IH. intros p' b' ?. apply Hin. by right.
Qed.

(** The loop over the blocks of a turn notes the edits among them. *)
Lemma foldl_blocks n (blocks : list dict) builders :
  foldl (fun bs block => match code_call_of n block with Some c => note_call bs c | None => bs end) builders blocks
  = foldl note_call builders (omap (code_call_of n) blocks).
Proof.
  revert builders. induction blocks as [|b blocks IH]; intros bs; [done|]. cbn. rewrite IH.
  by destruct (code_call_of n b).
Qed.

Lemma deltas_from_calls kept_turns n groups builders :
  deltas_from kept_turns n groups builders
  = foldl note_call builders
      (calls_from (Z.max n (kept_turns + 1)) (drop (Z.to_nat (kept_turns + 1 - n)) groups)).
Proof.
  revert n builders. induction groups as [|group groups IH]; intros n bs; [by rewrite drop_nil|].
  cbn [deltas_from]. rewrite IH. case_match eqn:Hn.
  - apply Z.leb_le in Hn. replace (Z.to_nat (kept_turns + 1 - n)) with (S (Z.to_nat (kept_turns + 1 - (n + 1)))) by lia.
    simpl. by replace (Z.max (n + 1) (kept_turns + 1)) with (Z.max n (kept_turns + 1)) by lia.
  - apply Z.leb_gt in Hn. replace (Z.to_nat (kept_turns + 1 - n)) with 0%nat by lia.
    replace (Z.to_nat (kept_turns + 1 - (n + 1))) with 0%nat by lia.
    replace (Z.max (n + 1) (kept_turns + 1)) with (n + 1) by lia. replace (Z.max n (kept_turns + 1)) with n by lia.
    cbn [drop calls_from]. by rewrite foldl_app, foldl_blocks.
Qed.

(** The code edits of the turns of a transcript, the first numbered 1. *)
Definition transcript_calls (entries : list dict) : list code_call :=
  calls_from 1 (group_entries_into_turns id entries).

Lemma calls_from_app n gs gs' : calls_from n (gs ++ gs') = calls_from n gs ++ calls_from (n + Z.of_nat (length gs)) gs'.
Proof.
  revert n. induction gs as [|g gs IH]; intros n; simpl; [by rewrite Z.add_0_r|].
  rewrite IH, app_assoc. do 2 f_equal. lia.
Qed.

(** Grouping does not look at the identities. *)
Lemma turns_of_entries (raws : list raw_entry) :
  group_entries_into_turns id (map entry raws) = map (map entry) (turns_of raws).
Proof. apply group_entries_map. Qed.

(** ** Lemmas: the writer *)

Lemma cutoff_ge turns k : -1 <= _cutoff_line_for_kept_turns turns k.
Proof. unfold _cutoff_line_for_kept_turns. induction (concat _); simpl; lia. Qed.

Lemma assert_eq entries k cutoff_line :
  _assert_kept_turns_form_raw_prefix entries (turns_of entries) k cutoff_line
  = if bool_decide (contiguous_ids entries k cutoff_line) then Ok tt else Err not_contiguous.
Proof. done. Qed.

(** What [write_rewind_transcript_prefix] decides for a positive [drop_last]. *)
Lemma write_prefix_eq loads source_text drop_last entries :
  0 < drop_last -> parse_rewind_transcript_entries loads source_text = Ok entries ->
  let turns := turns_of entries in
  let requested := Z.to_nat (Z.max (Z.of_nat (length turns) - drop_last) 0) in
  let k := _snap_to_complete_prefix entries turns requested in
  let cutoff_line := _cutoff_line_for_kept_turns turns k in
  let selected_lines := take (Z.to_nat (cutoff_line + 1)) (text_lines_keep source_text) in
  write_rewind_transcript_prefix loads (Ok source_text) drop_last =
  if bool_decide (contiguous_ids entries k cutoff_line) then
    Ok (concat selected_lines,
        {| requested_drop_last := drop_last; total_turns := length turns; requested_keep_turns := requested;
           kept_turns := k; actual_dropped_turns := length turns - k; lines_written := length selected_lines;
           entries_written := length (prefix_entries entries cutoff_line);
           snapped_to_safe_boundary := negb (Nat.eqb k requested) |})
  else Err not_contiguous.
Proof.
  intros Hd Hp. cbv zeta. unfold write_rewind_transcript_prefix, parse_rewind_transcript_entries in *.
  destruct (drop_last <? 0) eqn:H1; [lia|]. rewrite res_bind_ok, Hp, res_bind_ok.
  destruct (drop_last =? 0) eqn:H2; [lia|].
  set (k := _snap_to_complete_prefix _ _ _). pose proof (cutoff_ge (turns_of entries) k) as Hge.
  rewrite assert_eq. set (c := _cutoff_line_for_kept_turns _ _) in *.
  case_bool_decide; [|done]. rewrite res_bind_ok.
  destruct (0 <=? c) eqn:Hc.
  - by replace (Z.to_nat (c + 1)) with (Z.to_nat c + 1)%nat by lia.
  - by replace (Z.to_nat (c + 1)) with 0%nat by lia.
Qed.

(** Reading back the first lines of a transcript. *)
Lemma parse_prefix loads source_text entries (c : Z) :
  -1 <= c -> parse_rewind_transcript_entries loads source_text = Ok entries ->
  parse_rewind_transcript_entries loads (concat (take (Z.to_nat (c + 1)) (text_lines_keep source_text)))
  = Ok (prefix_entries entries c).
Proof.
  intros Hc Hp. unfold parse_rewind_transcript_entries, _parse_raw_transcript_entries in *.
  rewrite text_lines_keep_take, (parse_raw_take _ _ _ _ _ Hp). f_equal.
  apply list_filter_iff. intros r. unfold before_cut. lia.
Qed.

Lemma parse_sorted loads source_text entries :
  parse_rewind_transcript_entries loads source_text = Ok entries -> StronglySorted earlier entries.
Proof. intros Hp. by apply parse_raw_sorted in Hp as [? _]. Qed.

(** The text written, read back. *)
Lemma prefix_read_back loads source_text drop_last entries out r :
  0 < drop_last -> parse_rewind_transcript_entries loads source_text = Ok entries ->
  write_rewind_transcript_prefix loads (Ok source_text) drop_last = Ok (out, r) ->
  exists kept, kept = prefix_entries entries (_cutoff_line_for_kept_turns (turns_of entries) (kept_turns r)) /\
    parse_rewind_transcript_entries loads out = Ok kept /\
    turns_of kept = take (kept_turns r) (turns_of entries).
Proof.
  intros Hd Hp Hw. rewrite (write_prefix_eq _ _ _ _ Hd Hp) in Hw. cbv zeta in Hw.
  case_bool_decide as Hc; [|done]. apply contiguous_ids_iff in Hc; [|by eapply parse_sorted].
  injection Hw as <- <-. simpl. eexists. split; [done|]. split.
  - apply parse_prefix; [apply cutoff_ge|done].
  - apply contiguous_turns; [by eapply parse_sorted|done].
Qed.

Lemma rewind_length loads source_text drop_last entries out r :
  0 < drop_last -> parse_rewind_transcript_entries loads source_text = Ok entries ->
  write_rewind_transcript_prefix loads (Ok source_text) drop_last = Ok (out, r) ->
  (kept_turns r <= length (turns_of entries))%nat.
Proof.
  intros Hd Hp Hw. rewrite (write_prefix_eq _ _ _ _ Hd Hp) in Hw. cbv zeta in Hw. case_bool_decide; [|done].
  injection Hw as <- <-. simpl.
  pose proof (proj1 (snap_from_spec entries (turns_of entries) (Nat.min (Z.to_nat (Z.max (Z.of_nat (length (turns_of entries)) - drop_last) 0)) (length (turns_of entries))))).
  unfold _snap_to_complete_prefix. lia.
Qed.

Lemma calls_from_turns m n groups : m < n -> Forall (fun c => m < call_turn c) (calls_from n groups).
Proof.
  revert n. induction groups as [|g gs IH]; intros n Hn; simpl; [constructor|].
  apply Forall_app. split; [|apply IH; lia]. apply Forall_forall. intros c Hc.
  apply list_elem_of_omap in Hc as (b & _ & Hb). unfold code_call_of in Hb. repeat case_match; simplify_eq. done.
Qed.

(** ** Properties *)

(** C17: A rewound conversation is the beginning of the original one, cut between turns. The
    text written is a prefix of the source text; read back, its turns are exactly the first
    [kept_turns] turns of the source, every tool call in it has its result, and no larger number
    of turns up to the number asked for leaves every tool call answered. The counts of the
    result are those of the text written. *)
Theorem rewind_keeps_whole_turns loads source_text drop_last entries out r :
  0 < drop_last -> parse_rewind_transcript_entries loads source_text = Ok entries ->
  write_rewind_transcript_prefix loads (Ok source_text) drop_last = Ok (out, r) ->
  let turns := turns_of entries in
  let asked := Z.to_nat (Z.of_nat (length turns) - drop_last) in
  (exists rest, source_text = out ++ rest) /\
  (exists kept, parse_rewind_transcript_entries loads out = Ok kept /\
     turns_of kept = take (kept_turns r) turns /\ all_answered (entry <$> kept) /\
     entries_written r = length kept /\ lines_written r = length (text_lines_keep out)) /\
  (kept_turns r <= asked)%nat /\
  (forall j, (kept_turns r < j <= asked)%nat ->
     ~ all_answered (entry <$> prefix_entries entries (_cutoff_line_for_kept_turns turns j))) /\
  (kept_turns r + actual_dropped_turns r)%nat = length turns.
Proof.
  intros Hd Hp Hw. cbv zeta. destruct (prefix_read_back _ _ _ _ _ _ Hd Hp Hw) as (kept & Hk & Hpk & Hturns).
  rewrite (write_prefix_eq _ _ _ _ Hd Hp) in Hw. cbv zeta in Hw. case_bool_decide; [|done]. injection Hw as <- <-.
  simpl in *. set (requested := Z.to_nat (Z.max (Z.of_nat (length (turns_of entries)) - drop_last) 0)) in *.
  replace (Z.to_nat (Z.of_nat (length (turns_of entries)) - drop_last)) with requested by lia.
  destruct (snap_from_spec entries (turns_of entries) (Nat.min requested (length (turns_of entries)))) as (Hle & Ha & Hj).
  fold (_snap_to_complete_prefix entries (turns_of entries) requested) in *.
  assert (requested <= length (turns_of entries))%nat by lia.
  split_and!.
  - eexists (concat (drop _ (text_lines_keep source_text))). by rewrite <- concat_app, take_drop, concat_text_lines_keep.
  - exists kept. rewrite text_lines_keep_take, Hk. split_and!; try done; by rewrite <- ?Hk.
  - lia.
  - intros j Hj'. apply Hj. lia.
  - lia.
Qed.

(** The writer refuses exactly the transcripts it could not cut honestly: it raises when an
    entry of a dropped turn lies before an entry of a kept one, and writes otherwise; so a
    transcript whose turns follow one another is never refused. *)
Theorem rewind_refused_iff loads source_text drop_last entries :
  0 < drop_last -> parse_rewind_transcript_entries loads source_text = Ok entries ->
  let turns := turns_of entries in
  let k := _snap_to_complete_prefix entries turns (Z.to_nat (Z.of_nat (length turns) - drop_last)) in
  (write_rewind_transcript_prefix loads (Ok source_text) drop_last = Err not_contiguous <-> interleaved turns k) /\
  (~ interleaved turns k ->
     exists out r, write_rewind_transcript_prefix loads (Ok source_text) drop_last = Ok (out, r) /\ kept_turns r = k) /\
  (StronglySorted earlier (concat turns) -> ~ interleaved turns k).
Proof.
  intros Hd Hp. cbv zeta. pose proof (parse_sorted _ _ _ Hp) as Hs.
  rewrite (write_prefix_eq _ _ _ _ Hd Hp). cbv zeta.
  replace (Z.to_nat (Z.max _ 0)) with (Z.to_nat (Z.of_nat (length (turns_of entries)) - drop_last)) by lia.
  set (k := _snap_to_complete_prefix _ _ _).
  pose proof (contiguous_iff entries k Hs) as Hci. rewrite <- contiguous_ids_iff in Hci by done.
  split_and!.
  - case_bool_decide as Hc; [split; [done|]; intros Hi; tauto|]. split; [intros _|done].
    destruct (decide (interleaved (turns_of entries) k)); [done|]. tauto.
  - intros Hni. rewrite bool_decide_eq_true_2 by tauto. by eexists _, _.
  - intros Hsort (a & b & Ha & Hb & Hba). rewrite <- (take_drop k (turns_of entries)), concat_app in Hsort.
    apply StronglySorted_app_1_elem_of with (x1 := a) (x2 := b) in Hsort; [|done..]. unfold earlier in *. lia.
Qed.

(** No code edit is lost by a rewind: the edits the source transcript asks for are those of
    the conversation that is resumed, followed by those reported as file deltas; each of the
    latter is of a dropped turn, and there is one delta per file, with its first and last turn,
    its tools, its number of edits and the last edit's summary. *)
Theorem rewind_accounts_for_edits loads source_text drop_last entries out r :
  0 < drop_last -> parse_rewind_transcript_entries loads source_text = Ok entries ->
  write_rewind_transcript_prefix loads (Ok source_text) drop_last = Ok (out, r) ->
  exists kept dropped,
    parse_rewind_transcript_entries loads out = Ok kept /\
    transcript_calls (map entry entries) = transcript_calls (map entry kept) ++ dropped /\
    Forall (fun c => Z.of_nat (kept_turns r) < call_turn c) dropped /\
    extract_rewind_file_deltas (map entry entries) (Z.of_nat (kept_turns r)) = Ok (file_deltas dropped).
Proof.
  intros Hd Hp Hw. destruct (prefix_read_back _ _ _ _ _ _ Hd Hp Hw) as (kept & _ & Hpk & Hturns).
  pose proof (rewind_length _ _ _ _ _ _ Hd Hp Hw) as Hlen.
  exists kept, (calls_from (Z.of_nat (kept_turns r) + 1) (drop (kept_turns r) (group_entries_into_turns id (map entry entries)))).
  split_and!; [done| | |].
  - unfold transcript_calls. rewrite !turns_of_entries, Hturns.
    rewrite <- (take_drop (kept_turns r) (map (map entry) (turns_of entries))) at 1.
    rewrite calls_from_app, <- firstn_map, length_take, length_map. do 2 f_equal. lia.
  - apply calls_from_turns. lia.
  - unfold extract_rewind_file_deltas. destruct (Z.of_nat (kept_turns r) <? 0) eqn:Hneg; [lia|].
    f_equal. apply reports_list. rewrite deltas_from_calls.
    replace (Z.max 1 _) with (Z.of_nat (kept_turns r) + 1) by lia.
    replace (Z.to_nat _) with (kept_turns r) by lia.
    apply (reports_calls [] []). split_and!; [done..|constructor].
Qed.

(** ** Witnesses *)

Module RewindSample.

Definition user (rid s : string) : value :=
  VDict [("type", VStr "user"); ("requestId", VStr rid); ("content", VStr s)].
Definition block (rid role : string) (b : dict) : value :=
  VDict [("requestId", VStr rid); ("message", VDict [("role", VStr role); ("content", VList [VDict b])])].
Definition edit (id file : string) : dict :=
  [("type", VStr "tool_use"); ("id", VStr id); ("name", VStr "Edit");
   ("input", VDict [("file_path", VStr file); ("old_string", VStr "x"); ("new_string", VStr "y")])].
Definition result (id : string) : dict := [("type", VStr "tool_result"); ("tool_use_id", VStr id)].

(** A decoder for the lines of the samples. *)
Definition loads (s : text) : res value :=
  if bool_decide (s = T "a") then Ok (user "r1" "go")
  else if bool_decide (s = T "b") then Ok (block "r1" "assistant" (edit "t1" "f.py"))
  else if bool_decide (s = T "c") then Ok (block "r1" "user" (result "t1"))
  else if bool_decide (s = T "d") then Ok (block "r2" "assistant" (edit "t2" "f.py"))
  else if bool_decide (s = T "e") then Ok (block "r3" "user" (result "t2"))
  else if bool_decide (s = T "f") then Ok (block "r3" "assistant" (edit "t3" "g.py"))
  else raise JSONDecodeError "Expecting value".

Definition lines (s : string) : text := utf8_decode s ≫= fun c => [c; 10].

(** Dropping the last turn of three: the second ends with a tool call whose result is in the
    third, so it is dropped as well. *)
Definition source : text := lines "abc?def".
Definition kept_text : text := lines "abc".

Definition parsed : list raw_entry :=
  match parse_rewind_transcript_entries loads source with Ok es => es | Err _ => [] end.
Definition written : RewindPrefixResult :=
  {| requested_drop_last := 1; total_turns := 3; requested_keep_turns := 2; kept_turns := 1;
     actual_dropped_turns := 2; lines_written := 3; entries_written := 3; snapped_to_safe_boundary := true |}.

Lemma source_parsed : parse_rewind_transcript_entries loads source = Ok parsed.
Proof. vm_compute. reflexivity. Defined.

Lemma source_written : write_rewind_transcript_prefix loads (Ok source) 1 = Ok (kept_text, written).
Proof. vm_compute. reflexivity. Defined.

Lemma rewind_keeps_whole_turns_witness :
  (exists rest, source = kept_text ++ rest) /\
  (exists kept, parse_rewind_transcript_entries loads kept_text = Ok kept /\
     turns_of kept = take 1 (turns_of parsed) /\ all_answered (entry <$> kept) /\
     entries_written written = length kept /\ lines_written written = length (text_lines_keep kept_text)) /\
  (1 <= Z.to_nat (Z.of_nat (length (turns_of parsed)) - 1))%nat /\
  (forall j, (1 < j <= Z.to_nat (Z.of_nat (length (turns_of parsed)) - 1))%nat ->
     ~ all_answered (entry <$> prefix_entries parsed (_cutoff_line_for_kept_turns (turns_of parsed) j))) /\
  (1 + 2)%nat = length (turns_of parsed).
Proof. exact (rewind_keeps_whole_turns loads source 1 parsed kept_text written eq_refl source_parsed source_written). Defined.

(** A transcript whose requests are interleaved: the second one's first line lies before the
    first one's last. *)
Definition mixed : text := lines "abecf".
Definition mixed_parsed : list raw_entry :=
  match parse_rewind_transcript_entries loads mixed with Ok es => es | Err _ => [] end.
Lemma mixed_is_parsed : parse_rewind_transcript_entries loads mixed = Ok mixed_parsed.
Proof. vm_compute. reflexivity. Defined.

Lemma rewind_refused_iff_witness :
  let turns := turns_of mixed_parsed in
  let k := _snap_to_complete_prefix mixed_parsed turns (Z.to_nat (Z.of_nat (length turns) - 1)) in
  (write_rewind_transcript_prefix loads (Ok mixed) 1 = Err not_contiguous <-> interleaved turns k) /\
  (~ interleaved turns k ->
     exists out r, write_rewind_transcript_prefix loads (Ok mixed) 1 = Ok (out, r) /\ kept_turns r = k) /\
  (StronglySorted earlier (concat turns) -> ~ interleaved turns k).
Proof. exact (rewind_refused_iff loads mixed 1 mixed_parsed eq_refl mixed_is_parsed). Defined.

Lemma rewind_accounts_for_edits_witness :
  exists kept dropped,
    parse_rewind_transcript_entries loads kept_text = Ok kept /\
    transcript_calls (map entry parsed) = transcript_calls (map entry kept) ++ dropped /\
    Forall (fun c => Z.of_nat 1 < call_turn c) dropped /\
    extract_rewind_file_deltas (map entry parsed) (Z.of_nat 1) = Ok (file_deltas dropped).
Proof. exact (rewind_accounts_for_edits loads source 1 parsed kept_text written eq_refl source_parsed source_written). Defined.

(** [str.splitlines] cuts a line at U+2028, which a JSON string may hold as it is: the two
    halves are no JSON, and the entry, a tool call without result, is not seen. *)
Example line_separator_hides_entry :
  parse_rewind_transcript_entries (fun s => if bool_decide (s = T "d" ++ [8232] ++ T "d") then loads (T "d") else loads [])
    (T "d" ++ [8232] ++ T "d" ++ [10]) = Ok [].
Proof. vm_compute. reflexivity. Qed.

(** The sample is refused. *)
Example mixed_refused : write_rewind_transcript_prefix loads (Ok mixed) 1 = Err not_contiguous.
Proof. vm_compute. reflexivity. Qed.

End RewindSample.
