(* ===== verification/Verdict.v ===== *)
(** * Verdict: what a reviewer's answer comes to

    [src/forge/policy/semantic/verdict.py], [plan_source.py] and the extraction of JSON in
    [src/forge/core/reactive/structured_output.py]: the text a reviewer model returns becomes
    a policy decision, and the quotations it gives are looked up in the approved plan. Text is
    a list of code points; [json.loads], [str] and the percent format of a number are
    arguments. *)

From S2P Require Import Prelude PyValue PyFloat PolicyTypes Regex PyText.
From Stdlib Require Import SpecFloat.

(** ** The JSON of a response *)

(** The character of a fence, and [re.IGNORECASE] for the letters of [json]. *)
Definition fence : text := T "```".
Definition same_letter (c d : Z) : bool :=
  (c =? d) || (97 <=? c) && (c <=? 122) && (d =? c - 32) || (c =? 115) && (d =? 383).

(** The text after [opening], if [s] starts with it. *)
Fixpoint after_opening (opening s : text) : option text :=
  match opening, s with
  | [], _ => Some s
  | c :: opening, d :: s => if same_letter c d then after_opening opening s else None
  | _ :: _, [] => None
  end.

(** [s.find(q)]. *)
Fixpoint text_find (q s : text) : option nat :=
  if bool_decide (q `prefix_of` s) then Some 0%nat
  else match s with
       | [] => None
       | _ :: s => S <$> text_find q s
       end.

(** The newline before a closing fence is not part of what is fenced. *)
Definition drop_newline (s : text) : text := if bool_decide (last s = Some 10) then removelast s else s.

(** A match of [opening\s*\n?(.*?)\n?```] at the start of [s]: its group and its length. White
    space is taken greedily, so the group starts after it and ends at the first closing fence. *)
Definition fenced_here (opening s : text) : option (text * nat) :=
  match after_opening opening s with
  | None => None
  | Some rest =>
      let body := drop_spaces rest in
      match text_find fence body with
      | None => None
      | Some i => Some (drop_newline (take i body), (length s - length body + i + length fence)%nat)
      end
  end.

(** [pattern.findall(s)], [skip] characters further on. *)
Fixpoint find_fenced (opening : text) (skip : nat) (s : text) : list text :=
  match s with
  | [] => []
  | _ :: s' =>
      match skip with
      | S skip => find_fenced opening skip s'
      | O => match fenced_here opening s with
             | Some (content, len) => content :: find_fenced opening (pred len) s'
             | None => find_fenced opening 0 s'
             end
      end
  end.

(** [_CODE_FENCE_PATTERNS]. *)
Definition _CODE_FENCE_PATTERNS : list text := [T "```json"; fence].

(** ** The plan *)

(** [PlanSnapshot]; an empty text, path or digest is like none. *)
Record plan_snapshot := { plan_text : option string; plan_sha : option string; plan_path : option string }.
Definition given (s : option string) : option string :=
  match s with Some t => if String.eqb t "" then None else Some t | None => None end.
Definition fingerprint (p : plan_snapshot) : string :=
  default "None" (plan_path p) +++ ":" +++ default "unavailable" (given (plan_sha p)).
Definition has_text (p : plan_snapshot) : bool := bool_decide (is_Some (given (plan_text p))).

(** ** Verdicts *)

Inductive alignment := Aligned | Divergent.
Record SupervisorVerdict := {
  sv_verdict : alignment;
  sv_confidence : spec_float;
  sv_violations : list dict }.

Definition float_one : spec_float := float_of_Z 1.
Definition CONFIDENCE_THRESHOLD : spec_float := decimal 8 (-1).

Definition meets_block_bar (confidence : spec_float) (has_citations : bool) : bool :=
  SFleb CONFIDENCE_THRESHOLD confidence && has_citations.

Definition is_finite (f : spec_float) : bool :=
  match f with S754_zero _ | S754_finite _ _ _ => true | _ => false end.

(** [float(max(0, min(1, raw_confidence)))], 0.0 for what is not a finite number. *)
Definition confidence_of (raw : value) : spec_float :=
  match raw with
  | VInt z => float_of_Z (Z.max 0 (Z.min 1 z))
  | VFloat f =>
      if is_finite f then
        let low := if SFltb f float_one then f else float_one in
        if SFltb float_zero low then low else float_zero
      else float_zero
  | _ => float_zero
  end.

(** [_warn_verdict]. *)
Definition _warn_verdict (evidence suggested_fix : string) : SupervisorVerdict :=
  {| sv_verdict := Divergent; sv_confidence := float_zero;
     sv_violations := [[("severity", VStr "low"); ("evidence", VStr evidence); ("suggested_fix", VStr suggested_fix);
                        ("citations", VList [])]] |}.

(** [_parse_verdict_data]. *)
Definition _parse_verdict_data (data : dict) : option SupervisorVerdict :=
  let raw_verdict := dgetv "verdict" data in
  let verdict := if py_eq raw_verdict (VStr "aligned") then Some Aligned
                 else if py_eq raw_verdict (VStr "divergent") then Some Divergent else None in
  match verdict with
  | None => None
  | Some verdict =>
      Some {| sv_verdict := verdict; sv_confidence := confidence_of (dgetv "confidence" data);
              sv_violations := match dget "violations" data with
                               | Some (VList l) => omap as_dict l
                               | _ => []
                               end |}
  end.

(** [_normalize_citations]. *)
Definition not_blank (s : string) : bool := negb (bool_decide (strip (T s) = [])).
Definition _normalize_citations (v : value) : list string :=
  match v with VList l => List.filter not_blank (omap as_str l) | _ => [] end.

(** [verify_citations]. *)
Definition verify_citation (path digest : string) (plan quote : text) : option VerifiedCitation :=
  if bool_decide (quote = []) then None
  else
    start ← text_find quote plan;
    Some {| vc_source := path; vc_digest := digest; vc_start := Z.of_nat start; vc_end := Z.of_nat (start + length quote);
            vc_text := encode quote |}.
Definition verify_citations (citations : list string) (snapshot : option plan_snapshot) : list VerifiedCitation :=
  match snapshot with
  | None => []
  | Some p =>
      match given (plan_text p), given (plan_path p), given (plan_sha p) with
      | Some plan, Some path, Some digest =>
          omap (verify_citation path digest (T plan)) (dedup_first [] (map (fun c => strip (T c)) citations))
      | _, _, _ => []
      end
  end.

Section Verdict.

(** [json.loads]; [str(v)], which f-strings use; a number under the format [.0%]. *)
Context (loads : text -> res value) (show : value -> string) (percent : spec_float -> string).

(** The first text that is a JSON object. Only [JSONDecodeError] is caught. *)
Fixpoint first_object (candidates : list text) : res (option dict) :=
  match candidates with
  | [] => Ok None
  | c :: candidates =>
      match loads (strip c) with
      | Ok (VDict data) => Ok (Some data)
      | Ok _ => first_object candidates
      | Err e => if bool_decide (exn_cls e = JSONDecodeError) then first_object candidates else Err e
      end
  end.

(** [extract_json_from_response]. *)
Definition extract_json_from_response (response : text) : res (option dict) :=
  if bool_decide (response = []) then Ok None
  else first_object (concat (map (fun opening => find_fenced opening 0 response) _CODE_FENCE_PATTERNS) ++ [response]).

(** [parse_supervisor_verdict_with_status]. *)
Definition parse_supervisor_verdict_with_status (response : text) : res (SupervisorVerdict * bool) :=
  if bool_decide (response = []) then
    Ok (_warn_verdict "Supervisor response was empty — check supervisor session health"
          "Verify supervisor resume_id and proxy connectivity", false)
  else
    data ← extract_json_from_response response;
    match data with
    | None =>
        Ok (_warn_verdict "Supervisor verdict could not be parsed — check supervisor response format"
              "Verify supervisor session responds with valid JSON verdict", false)
    | Some data =>
        match _parse_verdict_data data with
        | None =>
            Ok (_warn_verdict "Supervisor verdict was missing or invalid — expected exact 'aligned' or 'divergent'"
                  "Verify supervisor session returns the documented verdict schema", false)
        | Some verdict => Ok (verdict, true)
        end
    end.

(** A [Violation] of a reviewer. What the JSON gives as evidence need not be a string. *)
Record finding := {
  f_message : value;
  f_severity : Severity;
  f_evidence : value;
  f_suggested_fix : value;
  f_citations : list string;
  f_verified : list VerifiedCitation }.

Definition severity_of (v : value) : Severity :=
  match v with
  | VStr "critical" => Critical
  | VStr "high" => High
  | VStr "low" => Low
  | _ => Medium
  end.

Definition dget_or (k : string) (default : value) (d : dict) : value := match dget k d with Some v => v | None => default end.

Definition finding_of (snapshot : option plan_snapshot) (v : dict) : finding :=
  let citations := _normalize_citations (dgetv "citations" v) in
  {| f_message := dget_or "evidence" (VStr "Divergent from plan") v;
     f_severity := severity_of (dget_or "severity" (VStr "medium") v);
     f_evidence := dgetv "evidence" v; f_suggested_fix := dgetv "suggested_fix" v;
     f_citations := citations; f_verified := verify_citations citations snapshot |}.

(** The fields of [PolicyDecision] that are set. *)
Record reviewer_decision := {
  rd_decision : DecisionType;
  rd_violations : list finding;
  rd_warnings : list string;
  rd_warning_findings : list finding;
  rd_intent : option string }.

Definition blocks (confidence : spec_float) (f : finding) : bool :=
  meets_block_bar confidence (negb (bool_decide (f_citations f = []))).

(** [verdict_to_decision]. *)
Definition verdict_to_decision (verdict : SupervisorVerdict) (intent : option string) (snapshot : option plan_snapshot)
    : reviewer_decision :=
  match sv_verdict verdict with
  | Aligned => {| rd_decision := Allow; rd_violations := []; rd_warnings := []; rd_warning_findings := []; rd_intent := None |}
  | Divergent =>
      let findings := map (finding_of snapshot) (sv_violations verdict) in
      let blocking := List.filter (blocks (sv_confidence verdict)) findings in
      let warning := List.filter (fun f => negb (blocks (sv_confidence verdict) f)) findings in
      let warnings := map (fun f => "Possible divergence: " +++ show (f_message f) +++ " (confidence: "
                                      +++ percent (sv_confidence verdict) +++ ")") warning in
      if negb (bool_decide (blocking = [])) then
        {| rd_decision := Deny; rd_violations := blocking; rd_warnings := warnings; rd_warning_findings := warning; rd_intent := intent |}
      else if negb (bool_decide (warnings = [])) then
        {| rd_decision := Warn; rd_violations := []; rd_warnings := warnings; rd_warning_findings := warning; rd_intent := intent |}
      else
        {| rd_decision := Warn; rd_violations := [];
           rd_warnings := ["Divergent verdict with no specific violations (confidence: " +++ percent (sv_confidence verdict) +++ ")"];
           rd_warning_findings := []; rd_intent := None |}
  end.

(** What the supervisor makes of a response. *)
Definition judge (response : text) (intent : option string) (snapshot : option plan_snapshot) : res (reviewer_decision * bool) :=
  '(verdict, parsed) ← parse_supervisor_verdict_with_status response;
  Ok (verdict_to_decision verdict intent snapshot, parsed).

(** ** Lemmas: parts of a text *)

Definition part_of (t s : text) : Prop := exists before after, s = before ++ t ++ after.

Lemma part_of_refl s : part_of s s.
Proof. exists [], []. by rewrite app_nil_r. Qed.

Lemma part_of_trans t u s : part_of t u -> part_of u s -> part_of t s.
Proof. intros (a & b & ->) (c & d & ->). exists (c ++ a), (b ++ d). by rewrite !app_assoc. Qed.

Lemma part_of_suffix t s : t `suffix_of` s -> part_of t s.
Proof. intros [k ->]. exists k, []. by rewrite app_nil_r. Qed.

Lemma part_of_prefix t s : t `prefix_of` s -> part_of t s.
Proof. intros [k ->]. by exists [], k. Qed.

Lemma drop_spaces_suffix s : drop_spaces s `suffix_of` s.
Proof. induction s as [|c s IH]; [done|]. simpl. case_match; [by apply suffix_cons_r|done]. Qed.

Lemma strip_part s : part_of (strip s) s.
Proof.
  unfold strip. eapply part_of_trans; [|apply part_of_suffix, (drop_spaces_suffix s)].
  apply part_of_prefix. rewrite <- (rev_involutive (drop_spaces s)) at 2.
  destruct (drop_spaces_suffix (rev (drop_spaces s))) as [k Hk]. rewrite Hk at 2. rewrite rev_app_distr. by eexists.
Qed.

Lemma after_opening_suffix opening s rest : after_opening opening s = Some rest -> rest `suffix_of` s.
Proof.
  revert s. induction opening as [|c opening IH]; intros s H; [by injection H as ->|].
  destruct s as [|d s]; [done|]. simpl in H. destruct (same_letter c d); [|done]. by apply suffix_cons_r, IH.
Qed.

Lemma drop_newline_prefix s : drop_newline s `prefix_of` s.
Proof.
  unfold drop_newline. case_match; [|done]. destruct s as [|x s] using rev_ind; [done|]. rewrite removelast_last. by eexists.
Qed.

Lemma fenced_part opening s content len : fenced_here opening s = Some (content, len) -> part_of content s.
Proof.
  unfold fenced_here. destruct (after_opening opening s) as [rest|] eqn:Hr; [|done].
  destruct (text_find fence (drop_spaces rest)) as [i|]; [|done]. intros H. injection H as <- _.
  eapply part_of_trans; [apply part_of_prefix, drop_newline_prefix|].
  eapply part_of_trans; [apply part_of_prefix, prefix_take|].
  apply part_of_suffix. etrans; [apply drop_spaces_suffix|by eapply after_opening_suffix].
Qed.

Lemma find_fenced_parts opening skip s : Forall (fun t => part_of t s) (find_fenced opening skip s).
Proof.
  revert skip. induction s as [|c s IH]; intros skip; [constructor|].
  assert (Hs : forall k, Forall (fun t => part_of t (c :: s)) (find_fenced opening k s)).
  { intros k. eapply Forall_impl; [apply IH|]. intros t (a & b & ->). by exists (c :: a), b. }
  cbn [find_fenced]. destruct skip; [|apply Hs]. destruct (fenced_here opening (c :: s)) as [[content len]|] eqn:H; [|apply Hs].
  constructor; [by eapply fenced_part|apply Hs].
Qed.

Lemma first_object_from candidates data :
  first_object candidates = Ok (Some data) -> exists c, c ∈ candidates /\ loads (strip c) = Ok (VDict data).
Proof.
  induction candidates as [|c candidates IH]; [done|]. cbn. intros H.
  assert (Hrest : first_object candidates = Ok (Some data) -> exists c0, c0 ∈ c :: candidates /\ loads (strip c0) = Ok (VDict data)).
  { intros (c0 & Hc & Hl)%IH. exists c0. split; [by apply elem_of_cons; right|done]. }
  destruct (loads (strip c)) as [[]|e] eqn:Hl; try (by apply Hrest).
  - injection H as ->. exists c. split; [apply elem_of_cons; by left|done].
  - case_match; [by apply Hrest|done].
Qed.

(** The JSON is a part of the response. *)
Lemma extracted_part response data :
  extract_json_from_response response = Ok (Some data) -> exists t, part_of t response /\ loads t = Ok (VDict data).
Proof.
  unfold extract_json_from_response. case_match; [done|]. intros (c & Hc & Hl)%first_object_from. exists (strip c). split; [|done].
  eapply part_of_trans; [apply strip_part|]. apply elem_of_app in Hc as [Hc|Hc].
  - apply list_elem_of_In, in_concat in Hc as (l & Hl' & Hc). apply in_map_iff in Hl' as (opening & <- & _).
    apply list_elem_of_In in Hc. pose proof (find_fenced_parts opening 0 response) as Hp. rewrite Forall_forall in Hp. by apply Hp.
  - apply list_elem_of_singleton in Hc as ->. apply part_of_refl.
Qed.

(** ** Lemmas: the bar *)

(** A confidence that is high enough: [True] is a boolean, not a number. *)
Definition sure (raw : value) : Prop :=
  match raw with
  | VInt z => 1 <= z
  | VFloat f => is_finite f = true /\ SFleb CONFIDENCE_THRESHOLD f = true
  | _ => False
  end.

Lemma threshold_value : CONFIDENCE_THRESHOLD = S754_finite false 7205759403792794 (-53).
Proof. vm_compute. reflexivity. Qed.

Lemma one_value : float_one = S754_finite false 4503599627370496 (-52).
Proof. vm_compute. reflexivity. Qed.

Lemma lt_positive m e m' e' :
  SFltb (S754_finite false m e) (S754_finite false m' e') = ((e <? e') || (e =? e') && (m <? m')%positive).
Proof.
  unfold SFltb, SFcompare. rewrite Z.ltb_compare, Z.eqb_compare. destruct (e ?= e'); [|done..].
  change (Pos.compare_cont Eq m m') with (m ?= m')%positive. rewrite Pos.ltb_compare. by destruct (m ?= m')%positive.
Qed.

Lemma le_positive m e m' e' :
  SFleb (S754_finite false m e) (S754_finite false m' e') = ((e <? e') || (e =? e') && (m <=? m')%positive).
Proof.
  unfold SFleb, SFcompare. rewrite Z.ltb_compare, Z.eqb_compare. destruct (e ?= e'); [|done..].
  change (Pos.compare_cont Eq m m') with (m ?= m')%positive. rewrite Pos.leb_compare. by destruct (m ?= m')%positive.
Qed.

(** Clamping to at most 1 does not matter for the bar. *)
Lemma clamped_bar m e :
  SFleb CONFIDENCE_THRESHOLD (confidence_of (VFloat (S754_finite false m e))) = SFleb CONFIDENCE_THRESHOLD (S754_finite false m e).
Proof.
  assert (H1 : SFleb CONFIDENCE_THRESHOLD float_one = true) by (vm_compute; reflexivity).
  cbn [confidence_of is_finite]. destruct (SFltb (S754_finite false m e) float_one) eqn:Hlt; [done|].
  change (SFltb float_zero float_one) with true. cbv iota. rewrite H1. symmetry.
  rewrite one_value, lt_positive in Hlt. rewrite threshold_value, le_positive. lia.
Qed.

Lemma confidence_bar raw : SFleb CONFIDENCE_THRESHOLD (confidence_of raw) = true <-> sure raw.
Proof.
  assert (Hz : SFleb CONFIDENCE_THRESHOLD float_zero = false) by (vm_compute; reflexivity).
  assert (H1 : SFleb CONFIDENCE_THRESHOLD float_one = true) by (vm_compute; reflexivity).
  destruct raw as [| |z|f| | |]; cbn [confidence_of sure]; try (rewrite Hz; by split).
  - destruct (Z.le_gt_cases 1 z) as [Hle|Hgt].
    + replace (Z.max 0 (Z.min 1 z)) with 1 by lia. change (float_of_Z 1) with float_one. by rewrite H1.
    + replace (Z.max 0 (Z.min 1 z)) with 0 by lia. change (float_of_Z 0) with float_zero. rewrite Hz. split; [done|lia].
  - change (SFleb CONFIDENCE_THRESHOLD (confidence_of (VFloat f)) = true <->
            is_finite f = true /\ SFleb CONFIDENCE_THRESHOLD f = true).
    destruct f as [[]|[]| |[] m e].
    1-5: vm_compute; split; [discriminate|intros [H H']; first [discriminate H|discriminate H']].
    + change (confidence_of (VFloat (S754_finite true m e))) with float_zero. rewrite Hz, threshold_value. by split; [|intros [_ ?]].
    + rewrite clamped_bar. by split; [|intros [_ ?]].
Qed.

(** ** Lemmas: what blocks *)

Lemma in_citations v c : c ∈ _normalize_citations v <-> exists cs, v = VList cs /\ VStr c ∈ cs /\ strip (T c) <> [].
Proof.
  unfold _normalize_citations. destruct v; try (split; [by intros ?%not_elem_of_nil|by intros (? & ? & _)]).
  rewrite list_elem_of_In, filter_In, <- list_elem_of_In, list_elem_of_omap. unfold not_blank. rewrite negb_true_iff, bool_decide_eq_false.
  split.
  - intros [(w & Hw & Hc) Hb]. destruct w; try done. injection Hc as ->. eauto.
  - intros (cs & [= <-] & Hc & Hb). split; [|done]. by exists (VStr c).
Qed.

Lemma blocks_iff raw snapshot v :
  blocks (confidence_of raw) (finding_of snapshot v) = true <->
  sure raw /\ exists cs c, dgetv "citations" v = VList cs /\ VStr c ∈ cs /\ strip (T c) <> [].
Proof.
  unfold blocks, meets_block_bar. rewrite andb_true_iff, confidence_bar, negb_true_iff, bool_decide_eq_false.
  cbn [finding_of f_citations]. apply and_iff_compat_l. split.
  - destruct (_normalize_citations (dgetv "citations" v)) as [|c l] eqn:Hc; [done|]. intros _.
    assert (Hin : c ∈ _normalize_citations (dgetv "citations" v)) by (rewrite Hc; apply elem_of_cons; by left).
    apply in_citations in Hin as (cs & H). eauto.
  - intros (cs & c & H) Hn. assert (Hin : c ∈ _normalize_citations (dgetv "citations" v)) by (apply in_citations; eauto).
    rewrite Hn in Hin. by apply not_elem_of_nil in Hin.
Qed.

(** ** Lemmas: quotations *)

Lemma text_find_some q s i : text_find q s = Some i ->
  take (length q) (drop i s) = q /\ forall j, (j < i)%nat -> ~ q `prefix_of` drop j s.
Proof.
  revert i. induction s as [|c s IH]; intros i; simpl; case_bool_decide as Hp.
  - intros [= <-]. destruct Hp as [k Hk]. rewrite drop_0, Hk, take_app_length. split; [done|lia].
  - done.
  - intros [= <-]. destruct Hp as [k Hk]. rewrite drop_0, Hk, take_app_length. split; [done|lia].
  - destruct (text_find q s) as [i'|] eqn:Hf; [|done]. intros [= <-]. destruct (IH i' eq_refl) as [H1 H2]. split; [done|].
    intros [|j] Hj; [done|]. apply H2. lia.
Qed.

Lemma text_find_none q s : text_find q s = None -> ~ part_of q s.
Proof.
  induction s as [|c s IH]; simpl; case_bool_decide as Hp; [done|..].
  - intros _ (a & b & Hs). symmetry in Hs. apply app_eq_nil in Hs as [_ Hs]. apply app_eq_nil in Hs as [-> _]. by apply Hp, prefix_nil.
  - done.
  - destruct (text_find q s); [done|]. intros _ (a & b & Hs). destruct a as [|d a]; [by apply Hp; exists b|].
    injection Hs as -> Hs. apply (IH eq_refl). by exists a, b.
Qed.

Lemma NoDup_omap_inj {A B} (f : A -> option B) l :
  (forall x y z, f x = Some z -> f y = Some z -> x = y) -> NoDup l -> NoDup (omap f l).
Proof.
  intros Hf. induction 1 as [|x l Hx _ IH]; [constructor|]. cbn. destruct (f x) as [z|] eqn:Hz; [|done].
  constructor; [|done]. intros (y & Hy & Hyz)%list_elem_of_omap. by rewrite (Hf x y z) in Hx.
Qed.

(** What a quotation says that was found. *)
Lemma verify_citation_some path digest plan quote vc :
  verify_citation path digest plan quote = Some vc <->
  quote <> [] /\ exists start, text_find quote plan = Some start /\
    vc = {| vc_source := path; vc_digest := digest; vc_start := Z.of_nat start; vc_end := Z.of_nat (start + length quote);
            vc_text := encode quote |}.
Proof.
  unfold verify_citation. case_bool_decide as Hq; [by split; [|intros [? _]]|].
  destruct (text_find quote plan) as [start|]; cbn; split; try done.
  - intros [= <-]. eauto.
  - intros (_ & s' & [= <-] & ->). done.
  - by intros (_ & s' & ? & _).
Qed.

(** ** Lemmas: judging *)

Lemma judge_cases response intent snapshot d parsed :
  judge response intent snapshot = Ok (d, parsed) ->
  (exists data verdict, parsed = true /\ extract_json_from_response response = Ok (Some data) /\
     _parse_verdict_data data = Some verdict /\ d = verdict_to_decision verdict intent snapshot) \/
  (parsed = false /\ rd_decision d = Warn /\
   forall data, extract_json_from_response response = Ok (Some data) -> _parse_verdict_data data = None).
Proof.
  unfold judge, parse_supervisor_verdict_with_status. case_bool_decide as Hr.
  { intros [= <- <-]. right. split_and!; [done..|]. unfold extract_json_from_response. by rewrite bool_decide_eq_true_2. }
  destruct (extract_json_from_response response) as [[data|]|e]; [| |done].
  - cbn. destruct (_parse_verdict_data data) as [verdict|] eqn:Hp; intros [= <- <-]; [left; eauto 10|right].
    split_and!; [done..|]. by intros data' [= <-].
  - intros [= <- <-]. right. by split_and!.
Qed.

Lemma eq_str v s : py_eq v (VStr s) = true <-> v = VStr s.
Proof. destruct v; cbn; try done. rewrite String.eqb_eq. naive_solver. Qed.

Lemma some_filter {A} (f : A -> bool) l : List.filter f l <> [] <-> exists x, x ∈ l /\ f x = true.
Proof.
  split.
  - destruct (List.filter f l) as [|x k] eqn:H; [done|]. intros _. exists x. rewrite list_elem_of_In, <- filter_In, H. by left.
  - intros (x & Hx & Hf) H. rewrite list_elem_of_In in Hx. assert (Hin : In x (List.filter f l)) by (by apply filter_In).
    by rewrite H in Hin.
Qed.

Lemma verdict_denies verdict intent snapshot :
  rd_decision (verdict_to_decision verdict intent snapshot) = Deny <->
  sv_verdict verdict = Divergent /\
  exists v, v ∈ sv_violations verdict /\ blocks (sv_confidence verdict) (finding_of snapshot v) = true.
Proof.
  unfold verdict_to_decision. destruct (sv_verdict verdict); [by split; [|intros [? _]]|].
  case_bool_decide as Hb; cbn [negb].
  - split; [by case_bool_decide|]. intros [_ (v & Hv & Hf)]. exfalso. revert Hb. apply some_filter.
    exists (finding_of snapshot v). rewrite list_elem_of_fmap. eauto.
  - apply some_filter in Hb as (f & Hf & Hb). apply list_elem_of_fmap in Hf as (v & -> & Hv). split; [|done]. eauto.
Qed.

Lemma data_denies data verdict intent snapshot :
  _parse_verdict_data data = Some verdict ->
  rd_decision (verdict_to_decision verdict intent snapshot) = Deny <->
  dgetv "verdict" data = VStr "divergent" /\ sure (dgetv "confidence" data) /\
  exists violations v cs c, dget "violations" data = Some (VList violations) /\ VDict v ∈ violations /\
    dgetv "citations" v = VList cs /\ VStr c ∈ cs /\ strip (T c) <> [].
Proof.
  intros Hp. rewrite verdict_denies. unfold _parse_verdict_data in Hp.
  assert (Hv : sv_verdict verdict = Divergent <-> dgetv "verdict" data = VStr "divergent").
  { destruct (py_eq _ (VStr "aligned")) eqn:Ha; [apply eq_str in Ha; injection Hp as <-; by rewrite Ha|].
    destruct (py_eq _ (VStr "divergent")) eqn:Hd; [|done]. apply eq_str in Hd. injection Hp as <-. by rewrite Hd. }
  assert (Hf : sv_confidence verdict = confidence_of (dgetv "confidence" data) /\
               sv_violations verdict = match dget "violations" data with Some (VList l) => omap as_dict l | _ => [] end).
  { destruct (py_eq _ (VStr "aligned")); [by injection Hp as <-|]. destruct (py_eq _ (VStr "divergent")); [|done]. by injection Hp as <-. }
  destruct Hf as [-> ->]. rewrite Hv. apply and_iff_compat_l. setoid_rewrite blocks_iff. split.
  - intros (v & Hin & Hs & cs & c & Hc). split; [done|]. destruct (dget "violations" data) as [[]|]; try (by apply not_elem_of_nil in Hin).
    apply list_elem_of_omap in Hin as (w & Hw & Hd). destruct w; try done. injection Hd as ->. naive_solver.
  - intros (Hs & violations & v & cs & c & -> & Hin & Hc). exists v. split; [|eauto].
    apply list_elem_of_omap. by exists (VDict v).
Qed.

End Verdict.

(** ** Properties *)

(** C14: A reviewer's answer denies exactly when it says so with support. Whenever a response is
    judged at all: it denies if and only if the first JSON object found in it has the verdict
    divergent, a number of at least 0.8 (and no boolean, infinity or NaN) as confidence, and a
    violation that cites a string that is not blank; that object is the text of a part of the
    response; and a response that could not be parsed gives a warning. *)
Theorem denial_needs_support loads show percent response intent snapshot d parsed :
  judge loads show percent response intent snapshot = Ok (d, parsed) ->
  (rd_decision d = Deny <->
   exists data raw violations v cs c,
     extract_json_from_response loads response = Ok (Some data) /\
     dgetv "verdict" data = VStr "divergent" /\ dgetv "confidence" data = raw /\ sure raw /\
     dget "violations" data = Some (VList violations) /\ VDict v ∈ violations /\
     dgetv "citations" v = VList cs /\ VStr c ∈ cs /\ strip (T c) <> []) /\
  (forall data, extract_json_from_response loads response = Ok (Some data) ->
     exists t, part_of t response /\ loads t = Ok (VDict data)) /\
  (parsed = false -> rd_decision d = Warn).
Proof.
  intros [(data & verdict & -> & He & Hp & ->)|(-> & Hw & Hnone)]%judge_cases; (split; [|split; [apply extracted_part|done]]).
  - rewrite (data_denies _ _ _ _ _ _ Hp). split.
    + intros (Hv & Hs & violations & v & cs & c & H). exists data. naive_solver.
    + intros (data' & raw & violations & v & cs & c & He' & H). rewrite He in He'. injection He' as <-. naive_solver.
  - rewrite Hw. split; [done|]. intros (data & raw & violations & v & cs & c & He & Hv & _).
    specialize (Hnone data He). unfold _parse_verdict_data in Hnone. by rewrite Hv in Hnone.
Qed.

(** C16: A verified quotation is the plan's own text. Each names the plan's file and digest, and
    is, at the place it names and nowhere before it, the text of the plan that was read, equal to
    a citation of the reviewer up to surrounding white space; and every citation that is not
    blank and occurs in the plan is verified, once. *)
Theorem quotations_are_the_plans citations p plan path digest :
  given (plan_text p) = Some plan -> given (plan_path p) = Some path -> given (plan_sha p) = Some digest ->
  (forall vc, vc ∈ verify_citations citations (Some p) -> exists quote start,
     vc = {| vc_source := path; vc_digest := digest; vc_start := Z.of_nat start; vc_end := Z.of_nat (start + length quote);
             vc_text := encode quote |} /\
     quote <> [] /\ (exists c, c ∈ citations /\ strip (T c) = quote) /\
     take (length quote) (drop start (T plan)) = quote /\ forall j, (j < start)%nat -> ~ quote `prefix_of` drop j (T plan)) /\
  (forall c, c ∈ citations -> strip (T c) <> [] -> part_of (strip (T c)) (T plan) ->
     exists vc, vc ∈ verify_citations citations (Some p) /\ vc_text vc = encode (strip (T c))) /\
  NoDup (verify_citations citations (Some p)).
Proof.
  intros Hplan Hpath Hdigest.
  assert (Hv : forall vc, vc ∈ verify_citations citations (Some p) <-> exists c, c ∈ citations /\
            verify_citation path digest (T plan) (strip (T c)) = Some vc).
  { intros vc. unfold verify_citations. rewrite Hplan, Hpath, Hdigest, list_elem_of_omap. split.
    - intros (q & Hq & Hvc). rewrite elem_of_dedup_first in Hq. apply list_elem_of_fmap in Hq as (c & -> & Hc). eauto.
    - intros (c & Hc & Hvc). exists (strip (T c)). split; [|done]. apply elem_of_dedup_first, list_elem_of_fmap. eauto. }
  split_and!.
  - intros vc (c & Hc & (Hne & start & Hf & ->)%verify_citation_some)%Hv. exists (strip (T c)), start.
    destruct (text_find_some _ _ _ Hf) as [H1 H2]. split_and!; eauto.
  - intros c Hc Hne Hpart. destruct (text_find (strip (T c)) (T plan)) as [start|] eqn:Hf; [|by apply text_find_none in Hf].
    eexists. split; [apply Hv; exists c; split; [done|]; apply verify_citation_some; eauto|done].
  - unfold verify_citations. rewrite Hplan, Hpath, Hdigest. apply NoDup_omap_inj; [|apply NoDup_dedup_first].
    intros q q' vc (_ & start & Hf & ->)%verify_citation_some (_ & start' & Hf' & Heq)%verify_citation_some.
    injection Heq as Hs He _. apply text_find_some in Hf as [Hf _], Hf' as [Hf' _].
    assert (start' = start) as -> by lia. rewrite <- Hf, <- Hf'. f_equal. lia.
Qed.

(** ** Witnesses *)

Module VerdictSample.

(** A JSON text, its object, and a decoder that knows only this text. *)
Definition violation : dict := [("evidence", VStr "adds a server"); ("citations", VList [VInt 1; VStr " no server "; VStr "never written"])].
Definition object : dict :=
  [("verdict", VStr "divergent"); ("confidence", VFloat CONFIDENCE_THRESHOLD); ("violations", VList [VStr "?"; VDict violation])].
Definition loads (t : text) : res value :=
  if bool_decide (t = T "{..}") then Ok (VDict object) else raise JSONDecodeError "no".
Definition show (v : value) : string := match v with VStr s => s | _ => "?" end.
Definition percent (f : spec_float) : string := "80%".

(** The object is fenced in the middle of prose. *)
Definition response : text := T "I think: ```JSON
 {..}
``` bye".
Definition plan : plan_snapshot := {| plan_text := Some "There is no server in this plan."; plan_sha := Some "d1"; plan_path := Some "plan.md" |}.

Definition denied : reviewer_decision :=
  match judge loads show percent response (Some "steer") (Some plan) with Ok (d, _) => d | Err _ => verdict_to_decision show percent (_warn_verdict "" "") None None end.

Lemma sample_judged : judge loads show percent response (Some "steer") (Some plan) = Ok (denied, true).
Proof. vm_compute. reflexivity. Defined.

Lemma denial_needs_support_witness :
  rd_decision denied = Deny /\
  exists data raw violations v cs c,
     extract_json_from_response loads response = Ok (Some data) /\
     dgetv "verdict" data = VStr "divergent" /\ dgetv "confidence" data = raw /\ sure raw /\
     dget "violations" data = Some (VList violations) /\ VDict v ∈ violations /\
     dgetv "citations" v = VList cs /\ VStr c ∈ cs /\ strip (T c) <> [].
Proof.
  assert (Hd : rd_decision denied = Deny) by (vm_compute; reflexivity).
  split; [exact Hd|].
  exact (proj1 (proj1 (denial_needs_support loads show percent response (Some "steer") (Some plan) denied true sample_judged)) Hd).
Defined.

(** Of the two citations one is in the plan. *)
Definition quoted : list VerifiedCitation :=
  [{| vc_source := "plan.md"; vc_digest := "d1"; vc_start := 9; vc_end := 18; vc_text := "no server" |}].

Lemma quotations_are_the_plans_witness :
  verify_citations [" no server "; "never written"; "no server"] (Some plan) = quoted /\
  forall c, c ∈ [" no server "; "never written"; "no server"] -> strip (T c) <> [] ->
    part_of (strip (T c)) (T "There is no server in this plan.") ->
    exists vc, vc ∈ verify_citations [" no server "; "never written"; "no server"] (Some plan) /\ vc_text vc = encode (strip (T c)).
Proof.
  split; [vm_compute; reflexivity|].
  exact (proj1 (proj2 (quotations_are_the_plans [" no server "; "never written"; "no server"] plan
    "There is no server in this plan." "plan.md" "d1" eq_refl eq_refl eq_refl))).
Defined.

(** Below the bar, and with an integer and a boolean as confidence. *)
Example confidence_samples :
  map (fun v => SFleb CONFIDENCE_THRESHOLD (confidence_of v)) [VFloat (decimal 79 (-2)); VInt 7; VBool true; VFloat S754_nan]
  = [false; true; false; false].
Proof. vm_compute. reflexivity. Qed.

End VerdictSample.
