(* ===== verification/Supervisor.v ===== *)
(** * Supervisor: the reviewer as a policy

    [src/forge/policy/semantic/supervisor.py] ([SemanticSupervisorPolicy]), its cache
    ([core/reactive/throttle.py]) and the identity of an action ([policy/action_identity.py]).
    The policy asks a reviewer model about a write or an edit, and remembers a clean answer for
    a while in the session's policy state, so that a repeated action is not asked about again.

    What is outside is part of the policy's [world]: the clock, the plan that was read, the
    reviewer's answer and the recording of a cached review. Instants are microseconds;
    [isoformat], the parser of time stamps, SHA-256 and JSON's printer are arguments. *)

From S2P Require Import Prelude PyValue PyFloat PolicyTypes PolicyEngine Verdict CodexPatch.
From Stdlib Require Import SpecFloat.

(** [SupervisorConfig], as far as the policy looks at it. *)
Record supervisor_config := {
  resume_id : option string;
  has_native_source : bool;
  plan_override_path : option string;
  suspended : bool;
  throttle_seconds : Z }.

(** [config.configured]. *)
Definition configured (c : supervisor_config) : bool :=
  bool_decide (is_Some (given (resume_id c))) || has_native_source c || bool_decide (is_Some (given (plan_override_path c))).

Definition SUPERVISOR_ID : string := "semantic.supervisor".
Definition MAX_ENTRIES : nat := 50.

Section Supervisor.

Context (isoformat : Z -> string) (try_parse_iso : value -> option Z) (sha256 : string -> string) (dumps : dict -> string).

(** [now_iso]: whole seconds. *)
Definition now_iso (now : Z) : string := isoformat (now / 1000000 * 1000000).

(** ** [ThrottleCache] *)

(** [check]: an entry younger than the time to live. *)
Definition check (ttl_seconds now : Z) (cache : dict) (key : string) : res (option dict) :=
  match dget key cache with
  | None | Some VNone => Ok None
  | Some (VDict entry) =>
      match dgetv "checked_at" entry with
      | VNone => Ok None
      | checked_at =>
          match try_parse_iso checked_at with
          | None => Ok None
          | Some checked_time => Ok (if now - checked_time <? ttl_seconds * 1000000 then Some entry else None)
          end
      end
  | Some v => raise AttributeError ("'" +++ type_name v +++ "' object has no attribute 'get'")
  end.

(** [update]. *)
Definition update (now : Z) (key : string) (values : dict) (cache : dict) : dict :=
  dset key (VDict (dupdate [("checked_at", VStr (now_iso now))] values)) cache.

(** The key [get_state] sorts by. Only text is compared here. *)
Definition stamp (v : value) : res string :=
  match v with
  | VDict entry => match dget_default "checked_at" (VStr "") entry with VStr s => Ok s | _ => raise TypeError "'<' not supported" end
  | _ => raise AttributeError "no attribute 'get'"
  end.

(** [sorted(..., reverse=True)]: equal keys keep their order. *)
Definition newest_first (l : list (string * (string * value))) : list (string * (string * value)) :=
  rev (sort_by fst (rev l)).

Definition copied (p : string * value) : res (string * value) := d ← py_dict (snd p); Ok (fst p, VDict d).
Definition stamped (p : string * value) : res (string * (string * value)) := s ← stamp (snd p); Ok (s, p).

(** [ThrottleCache.get_state]. *)
Definition cache_state (cache : dict) : res dict :=
  cache ← mapM_res copied cache;
  if (MAX_ENTRIES <? length cache)%nat then
    keyed ← mapM_res stamped cache;
    Ok (map snd (take MAX_ENTRIES (newest_first keyed)))
  else Ok cache.

(** [ThrottleCache.set_state]. *)
Definition set_cache (state : value) : res dict := if truthy state then py_dict state else Ok [].

(** ** The identity of an action *)

Definition is_sha256 (s : option string) : bool :=
  match s with
  | Some s => Nat.eqb (length (utf8_chars s)) 64
              && forallb (fun c => let n := nat_of_ascii c in ((48 <=? n) && (n <=? 57) || (97 <=? n) && (n <=? 102))%nat) (str_list s)
  | None => false
  end.

(** [action_fingerprint]. *)
Definition action_fingerprint (ctx : ActionContext) : string :=
  let recomputed := compute_action_fingerprint sha256 dumps (ac_tool_name ctx) (ac_target_path ctx) (ac_tool_args ctx)
                      (ac_new_content ctx) (ac_raw_diff ctx) in
  match ac_action_fingerprint ctx with
  | Some s => if is_sha256 (Some s) then s else recomputed
  | None => recomputed
  end.

(** ** [SemanticSupervisorPolicy] *)

(** What one hook process meets: the time when it looks into the cache and when it stores an
    answer, the reviewer's cache identity, the plan it read, the reviewer ([invoke_supervisor])
    and the recording of a cached review. *)
Record surroundings := {
  w_now : Z;
  w_later : Z;
  w_identity : string;
  w_plan : plan_snapshot;
  w_review : ActionContext -> res PolicyDecision;
  w_record : PolicyDecision -> res PolicyDecision }.

Record supervisor := {
  s_config : option supervisor_config;
  s_cache : dict;
  s_world : surroundings }.

Definition with_cache (c : dict) (p : supervisor) : supervisor :=
  {| s_config := s_config p; s_cache := c; s_world := s_world p |}.

Definition supervisor_applies (p : supervisor) (ctx : ActionContext) : bool :=
  if negb (bool_decide (ac_tool_name ctx ∈ ["Write"; "Edit"])) then false
  else match s_config p with
       | None => false
       | Some c => configured c && negb (suspended c)
       end.

(** [PolicyDecision(decision="allow", ...)] with what is set of it. *)
Definition noted (warnings codes : list string) (fail_open : bool) (failure : option string) (cached : bool) : PolicyDecision :=
  {| pd_decision := Allow; pd_policy_id := SUPERVISOR_ID; pd_violations := []; pd_warnings := warnings; pd_intent := None;
     pd_cached := cached; pd_evaluated_at := None; pd_fail_open := fail_open; pd_failure_type := failure;
     pd_telemetry_run_id := None; pd_telemetry_parent_run_id := None; pd_telemetry_root_run_id := None;
     pd_warning_findings := []; pd_diagnostic_codes := codes |}.

Definition with_intent (intent : string) (d : PolicyDecision) : PolicyDecision :=
  {| pd_decision := pd_decision d; pd_policy_id := pd_policy_id d; pd_violations := pd_violations d; pd_warnings := pd_warnings d;
     pd_intent := Some intent; pd_cached := pd_cached d; pd_evaluated_at := pd_evaluated_at d; pd_fail_open := pd_fail_open d;
     pd_failure_type := pd_failure_type d; pd_telemetry_run_id := pd_telemetry_run_id d;
     pd_telemetry_parent_run_id := pd_telemetry_parent_run_id d; pd_telemetry_root_run_id := pd_telemetry_root_run_id d;
     pd_warning_findings := pd_warning_findings d; pd_diagnostic_codes := pd_diagnostic_codes d |}.

Definition cache_key (c : supervisor_config) (w : surroundings) (ctx : ActionContext) : string :=
  action_fingerprint ctx +++ "|reviewer:" +++ w_identity w
  +++ (if bool_decide (is_Some (given (plan_override_path c))) then "|plan:" +++ fingerprint (w_plan w) else "").

(** An entry that says the action was cleanly allowed. *)
Definition clean_entry (cached : dict) : bool :=
  py_eq (dgetv "verdict" cached) (VStr "aligned")
  && match dgetv "confidence" cached with
     | VInt z => z =? 1
     | VFloat f => py_eq (VFloat f) (VFloat float_one)
     | _ => false
     end.

(** An answer that may be remembered. *)
Definition clean_allow (d : PolicyDecision) : bool :=
  bool_decide (pd_decision d = Allow) && bool_decide (pd_warnings d = []) && negb (pd_fail_open d)
  && negb (bool_decide (is_Some (given (pd_failure_type d)))).

Definition SUPERVISOR_INTENT : string :=
  "Ensure implementation stays aligned with the approved plan. The supervisor checks that code changes match what was agreed upon, catching drift before it compounds.".

(** The reviewer is asked, and its answer stored when it is clean. *)
Definition ask_reviewer (c : supervisor_config) (key : string) (p : supervisor) (ctx : ActionContext)
    : supervisor * res PolicyDecision :=
  match w_review (s_world p) ctx with
  | Err e => (p, Err e)
  | Ok d =>
      let d := if bool_decide (pd_decision d ∈ [Deny; Warn]) then with_intent SUPERVISOR_INTENT d else d in
      let remembered := [("verdict", VStr "aligned"); ("confidence", VFloat float_one)] in
      (if clean_allow d && negb (has_native_source c)
       then with_cache (update (w_later (s_world p)) key remembered (s_cache p)) p else p, Ok d)
  end.

(** A cache hit is recorded; when that fails because of the system, the check fails open. *)
Definition from_cache (p : supervisor) : res PolicyDecision :=
  match w_record (s_world p) (noted [] [] false None true) with
  | Err e =>
      if bool_decide (exn_cls e ∈ [OSError; FileNotFoundError])
      then Ok (noted ["Review evidence unavailable: " +++ exn_msg e] [] true (Some "evidence_unavailable") false)
      else Err e
  | r => r
  end.

(** The cache has a clean answer for the action. *)
Definition hits (c : supervisor_config) (p : supervisor) (ctx : ActionContext) : res bool :=
  cached ← (if has_native_source c then Ok None
            else check (throttle_seconds c) (w_now (s_world p)) (s_cache p) (cache_key c (s_world p) ctx));
  Ok (match cached with Some entry => clean_entry entry | None => false end).

(** [_evaluate]. *)
Definition supervisor_evaluate (p : supervisor) (ctx : ActionContext) : supervisor * res PolicyDecision :=
  match s_config p with
  | None => (p, Ok (noted ["Supervisor not configured"] ["unconfigured"] false None false))
  | Some c =>
      if negb (configured c) then (p, Ok (noted ["Supervisor not configured"] ["unconfigured"] false None false))
      else if suspended c then (p, Ok (mk_decision Allow SUPERVISOR_ID))
      else
        match hits c p ctx with
        | Err e => (p, Err e)
        | Ok true => (p, from_cache p)
        | Ok false => ask_reviewer c (cache_key c (s_world p) ctx) p ctx
        end
  end.

Definition supervisor_get_state (p : supervisor) : res dict := s ← cache_state (s_cache p); Ok [("cache", VDict s)].

Definition supervisor_set_state (p : supervisor) (state : value) : supervisor * res unit :=
  match state with
  | VDict d =>
      match set_cache (dget_default "cache" (VDict []) d) with
      | Ok c => (with_cache c p, Ok tt)
      | Err e => (p, Err e)
      end
  | _ => (p, raise AttributeError ("'" +++ type_name state +++ "' object has no attribute 'get'"))
  end.

(** The policy is one of the engine's. *)
#[local] Instance supervisor_ops : PolicyOps supervisor := {|
  policy_id _ := SUPERVISOR_ID;
  applies_to p ctx := Ok (supervisor_applies p ctx);
  evaluate_policy := supervisor_evaluate;
  is_stateful _ := true;
  get_state := supervisor_get_state;
  set_state := supervisor_set_state |}.

#[local] Instance supervisor_laws : PolicyLaws supervisor.
Proof. by split. Qed.

(** ** A session's checks

    Each hook process starts from a saved policy state (or none), checks one action and saves
    its own; hooks that run at the same time may start from the same state. [h_clean] are the
    clean answers the reviewer gave, with the time they were stored at. *)
Record history := { h_saved : list dict; h_clean : list (string * Z) }.

Definition start (c : supervisor_config) (w : surroundings) (saved : option dict) : supervisor :=
  let p := {| s_config := Some c; s_cache := []; s_world := w |} in
  match saved with Some s => (supervisor_set_state p (VDict s)).1 | None => p end.

(** The answer the reviewer gives to this check, if it is asked and the answer is clean. *)
Definition answered (c : supervisor_config) (p : supervisor) (ctx : ActionContext) : list (string * Z) :=
  if negb (configured c) || suspended c then []
  else
  match hits c p ctx, w_review (s_world p) ctx with
  | Ok false, Ok d => if clean_allow d then [(cache_key c (s_world p) ctx, w_later (s_world p))] else []
  | _, _ => []
  end.

Inductive reaches : history -> Prop :=
| no_checks : reaches {| h_saved := []; h_clean := [] |}
| one_check h c w saved ctx s :
    reaches h -> (forall s0, saved = Some s0 -> s0 ∈ h_saved h) ->
    supervisor_get_state (supervisor_evaluate (start c w saved) ctx).1 = Ok s ->
    reaches {| h_saved := s :: h_saved h; h_clean := answered c (start c w saved) ctx ++ h_clean h |}.

(** ** Lemmas *)

(** Every entry is a clean answer that was given. *)
Definition from_answers (clean : list (string * Z)) (cache : dict) : Prop :=
  forall k v, (k, v) ∈ cache -> exists t, (k, t) ∈ clean /\ exists entry, v = VDict entry /\ dgetv "checked_at" entry = VStr (now_iso t).

Lemma from_answers_more clean clean' cache :
  (forall x, x ∈ clean -> x ∈ clean') -> from_answers clean cache -> from_answers clean' cache.
Proof. intros Hsub H k v Hkv. destruct (H k v Hkv) as (t & Ht & He). exists t. auto. Qed.

Lemma update_from_answers clean k now cache :
  from_answers clean cache -> (k, now) ∈ clean ->
  from_answers clean (update now k [("verdict", VStr "aligned"); ("confidence", VFloat float_one)] cache).
Proof.
  intros H Hin k' v [[= -> ->]|Hkv]%elem_of_dset; [|by apply H]. exists now. split; [done|]. eexists. split; [reflexivity|]. done.
Qed.

(** [dict(v)] of every entry. *)
Lemma copied_entries cache copies : mapM_res copied cache = Ok copies ->
  forall k v, (k, v) ∈ copies <-> exists v0 d, (k, v0) ∈ cache /\ py_dict v0 = Ok d /\ v = VDict d.
Proof.
  intros H%mapM_res_Forall2 k v. unfold copied in H. split.
  - intros Hin. apply list_elem_of_lookup in Hin as [i Hi]. destruct (Forall2_lookup_r _ _ _ _ _ H Hi) as ([k0 v0] & Hi0 & Hf).
    cbn in Hf. destruct (py_dict v0) as [d|] eqn:Hd; [|done]. injection Hf as <- <-. exists v0, d.
    split; [by eapply list_elem_of_lookup_2|done].
  - intros (v0 & d & Hin & Hd & ->). apply list_elem_of_lookup in Hin as [i Hi].
    destruct (Forall2_lookup_l _ _ _ _ _ H Hi) as (p & Hi0 & Hf). cbn in Hf. rewrite Hd in Hf. injection Hf as <-.
    by eapply list_elem_of_lookup_2.
Qed.

Lemma newest_first_perm l : newest_first l ≡ₚ l.
Proof. unfold newest_first. by rewrite <- !Permutation_rev, sort_by_perm, <- Permutation_rev. Qed.

Lemma stamped_entries copies keyed : mapM_res stamped copies = Ok keyed -> map snd keyed = copies /\
  forall s p, (s, p) ∈ keyed -> stamp p.2 = Ok s.
Proof.
  intros H%mapM_res_Forall2. unfold stamped in H. induction H as [|p [s q] copies keyed Hpq _ [IH1 IH2]]; [split; [done|by intros ? ? ?%not_elem_of_nil]|].
  destruct (stamp p.2) as [s0|] eqn:Hs; [|done]. injection Hpq as -> ->. split; [cbn; by rewrite IH1|].
  intros s' q' [[= -> ->]|Hin]%elem_of_cons; auto.
Qed.

(** What a saved cache holds: copies of entries; at most [MAX_ENTRIES], the newest. *)
Lemma cache_state_spec cache saved : cache_state cache = Ok saved ->
  exists copies dropped, mapM_res copied cache = Ok copies /\ copies ≡ₚ saved ++ dropped /\ (length saved <= MAX_ENTRIES)%nat /\
    (dropped <> [] -> length saved = MAX_ENTRIES) /\
    forall x y sx sy, x ∈ saved -> y ∈ dropped -> stamp x.2 = Ok sx -> stamp y.2 = Ok sy -> str_le sy sx = true.
Proof.
  unfold cache_state. destruct (mapM_res copied cache) as [copies|] eqn:Hc; [|done]. rewrite res_bind_ok. intros H. exists copies.
  destruct (MAX_ENTRIES <? length copies)%nat eqn:Hl.
  2:{ injection H as <-. exists []. rewrite app_nil_r. apply Nat.ltb_ge in Hl. split_and!; try done. by intros ? ? ? ? ? ?%not_elem_of_nil. }
  destruct (mapM_res stamped copies) as [keyed|] eqn:Hk; [|done]. rewrite res_bind_ok in H. injection H as <-. apply Nat.ltb_lt in Hl.
  apply stamped_entries in Hk as [Hmap Hstamp]. exists (map snd (drop MAX_ENTRIES (newest_first keyed))).
  rewrite <- map_app, take_drop. assert (Hlen : length (newest_first keyed) = length copies).
  { rewrite newest_first_perm, <- Hmap. by rewrite length_map. }
  split_and!; [done| | | |].
  - rewrite <- Hmap. apply Permutation_map. symmetry. apply newest_first_perm.
  - rewrite length_map, length_take. lia.
  - intros _. rewrite length_map, length_take. lia.
  - intros x y sx sy Hx Hy Hsx Hsy. apply list_elem_of_fmap in Hx as ([s1 x1] & -> & Hx), Hy as ([s2 y1] & -> & Hy). cbn in *.
    assert (Hin : forall z, z ∈ take MAX_ENTRIES (newest_first keyed) \/ z ∈ drop MAX_ENTRIES (newest_first keyed) -> z ∈ keyed).
    { intros z Hz. rewrite <- elem_of_app, take_drop in Hz. by rewrite <- (newest_first_perm keyed). }
    assert (s1 = sx) as -> by (rewrite (Hstamp s1 x1) in Hsx by auto; congruence).
    assert (s2 = sy) as -> by (rewrite (Hstamp s2 y1) in Hsy by auto; congruence).
    apply Is_true_eq_true. change (key_ordered fst (sy, y1) (sx, x1)).
    eapply (StronglySorted_app_1_elem_of _ (rev (drop MAX_ENTRIES (newest_first keyed))) (rev (take MAX_ENTRIES (newest_first keyed))));
      [|by apply list_elem_of_In, (proj1 (in_rev _ _)), list_elem_of_In..].
    rewrite <- rev_app_distr, take_drop. unfold newest_first. rewrite rev_involutive. apply sort_by_sorted.
Qed.

(** ** Lemmas: the history *)

Lemma saved_from_answers clean cache saved :
  from_answers clean cache -> cache_state cache = Ok saved -> from_answers clean saved.
Proof.
  intros H (copies & dropped & Hc & Hperm & _)%cache_state_spec k v Hkv.
  assert (Hin : (k, v) ∈ copies) by (rewrite Hperm; apply elem_of_app; by left).
  apply (copied_entries _ _ Hc) in Hin as (v0 & d & Hin & Hd & ->). destruct (H k v0 Hin) as (t & Ht & entry & -> & He).
  injection Hd as <-. exists t. eauto.
Qed.

(** A check leaves the cache, or stores the reviewer's answer in it. *)
Lemma evaluate_cache c p ctx :
  s_config p = Some c ->
  s_cache (supervisor_evaluate p ctx).1 = s_cache p \/
  exists key t, (key, t) ∈ answered c p ctx /\
    s_cache (supervisor_evaluate p ctx).1 = update t key [("verdict", VStr "aligned"); ("confidence", VFloat float_one)] (s_cache p).
Proof.
  intros Hc. unfold supervisor_evaluate, answered. rewrite Hc.
  destruct (configured c); [|by left]. destruct (suspended c); [by left|]. cbn [negb orb].
  destruct (hits c p ctx) as [[|]|e]; [by left| |by left]. unfold ask_reviewer.
  destruct (w_review (s_world p) ctx) as [d|e]; [|by left]. cbv zeta.
  assert (Hclean : clean_allow (if bool_decide (pd_decision d ∈ [Deny; Warn]) then with_intent SUPERVISOR_INTENT d else d) = clean_allow d)
    by (by case_match).
  rewrite Hclean. destruct (clean_allow d); [|by left]. destruct (has_native_source c); [by left|]. right.
  eexists _, _. split; [by apply list_elem_of_singleton|done].
Qed.

Lemma start_from_answers clean c w saved :
  (forall s, saved = Some s -> exists cache, s = [("cache", VDict cache)] /\ from_answers clean cache) ->
  from_answers clean (s_cache (start c w saved)).
Proof.
  intros H. destruct saved as [s|]; [|by intros ? ? ?%not_elem_of_nil].
  destruct (H s eq_refl) as (cache & -> & Hc). unfold start. cbn. unfold set_cache. by destruct cache.
Qed.

Definition saved_ok (h : history) : Prop :=
  forall s, s ∈ h_saved h -> exists cache, s = [("cache", VDict cache)] /\ from_answers (h_clean h) cache.

Lemma reaches_saved_ok h : reaches h -> saved_ok h.
Proof.
  induction 1 as [|h c w saved ctx s _ IH Hsaved Hs]; [by intros s ?%not_elem_of_nil|].
  assert (Hmore : forall x, x ∈ h_clean h -> x ∈ answered c (start c w saved) ctx ++ h_clean h) by (intros x Hx; apply elem_of_app; by right).
  intros s' [->|Hin]%elem_of_cons.
  2:{ destruct (IH s' Hin) as (cache & -> & Hc). exists cache. split; [done|]. by eapply from_answers_more. }
  unfold supervisor_get_state in Hs. destruct (cache_state _) as [out|] eqn:Hout; [|done]. injection Hs as <-.
  exists out. split; [done|]. eapply saved_from_answers; [|exact Hout].
  assert (Hstart : from_answers (answered c (start c w saved) ctx ++ h_clean h) (s_cache (start c w saved))).
  { eapply from_answers_more; [exact Hmore|]. apply start_from_answers. intros s0 Hs0. by apply IH, Hsaved. }
  destruct (evaluate_cache c (start c w saved) ctx) as [->|(key & t & Hin & ->)]; try done.
  - unfold start. by destruct saved as [[|]|]; cbn; repeat case_match.
  - apply update_from_answers; [done|]. apply elem_of_app. by left.
Qed.

Lemma start_config c w saved : s_config (start c w saved) = Some c /\ s_world (start c w saved) = w.
Proof. unfold start. destruct saved as [s|]; [|done]. unfold supervisor_set_state. by case_match. Qed.

End Supervisor.

(** ** Properties *)

Section Properties.

Context (isoformat : Z -> string) (try_parse_iso : value -> option Z) (sha256 : string -> string) (dumps : dict -> string).
(** [datetime.fromisoformat] reads what [isoformat] writes. *)
Hypothesis parse_isoformat : forall t, try_parse_iso (VStr (isoformat t)) = Some t.


(** The saved cache is bounded and keeps the newest. [get_state] returns at most fifty
    entries; each is one of the cache, under its key and with its fields; entries are left out
    only when fifty are kept, and none of those left out is newer than one that is kept. *)
Theorem saved_state_bounded p saved :
  supervisor_get_state p = Ok saved ->
  exists cache, saved = [("cache", VDict cache)] /\ (length cache <= 50)%nat /\
    (forall k v, (k, v) ∈ cache -> exists v0 d, (k, v0) ∈ s_cache p /\ py_dict v0 = Ok d /\ v = VDict d) /\
    forall k v0 d, (k, v0) ∈ s_cache p -> py_dict v0 = Ok d -> (k, VDict d) ∈ cache \/
      length cache = 50%nat /\
      forall k' v' s s', (k', v') ∈ cache -> stamp (VDict d) = Ok s -> stamp v' = Ok s' -> str_le s s' = true.
Proof.
  unfold supervisor_get_state. destruct (cache_state (s_cache p)) as [cache|] eqn:Hs; [|done]. intros [= <-]. exists cache.
  apply cache_state_spec in Hs as (copies & dropped & Hc & Hperm & Hlen & Hfull & Hold). split_and!; [done|done| |].
  - intros k v Hkv. apply (copied_entries _ _ Hc). rewrite Hperm. apply elem_of_app. by left.
  - intros k v0 d Hin Hd. assert (Hcopy : (k, VDict d) ∈ copies) by (apply (copied_entries _ _ Hc); eauto).
    rewrite Hperm in Hcopy. apply elem_of_app in Hcopy as [Hk|Hk]; [by left|right]. split.
    + apply Hfull. intros ->. by apply not_elem_of_nil in Hk.
    + intros k' v' s s' Hk' Hs Hs'. exact (Hold (k', v') (k, VDict d) s' s Hk' Hk Hs' Hs).
Qed.

End Properties.

(** ** Witnesses *)

Module SupervisorSample.

(** Instants as binary numerals. *)
Fixpoint digits_of (p : positive) : string :=
  match p with xH => "1" | xO p => String "0" (digits_of p) | xI p => String "+" (digits_of p) end.
Definition isoformat (t : Z) : string :=
  match t with Z0 => "z" | Zpos p => String "p" (digits_of p) | Zneg p => String "n" (digits_of p) end.
Fixpoint of_digits (s : string) : option positive :=
  match s with
  | String "1" EmptyString => Some xH
  | String "0" s => xO <$> of_digits s
  | String "+" s => xI <$> of_digits s
  | _ => None
  end.
Definition parse (v : value) : option Z :=
  match v with
  | VStr "z" => Some 0
  | VStr (String "p" s) => Zpos <$> of_digits s
  | VStr (String "n" s) => Zneg <$> of_digits s
  | _ => None
  end.

Lemma of_digits_of p : of_digits (digits_of p) = Some p.
Proof. induction p as [p IH|p IH|]; simpl; [by rewrite IH|by rewrite IH|reflexivity]. Defined.

Lemma parse_isoformat t : parse (VStr (isoformat t)) = Some t.
Proof. destruct t; cbn; rewrite ?of_digits_of; done. Defined.

Definition sha (s : string) : string := "sha".
Definition dumps (d : dict) : string := "json".
Definition config : supervisor_config :=
  {| resume_id := None; has_native_source := false; plan_override_path := Some "plan.md"; suspended := false; throttle_seconds := 30 |}.
Definition allows : PolicyDecision := mk_decision Allow SUPERVISOR_ID.
Definition refuses : PolicyDecision := mk_decision Deny SUPERVISOR_ID.
Definition at_second (s : Z) (answer : PolicyDecision) : surroundings :=
  {| w_now := s * 1000000; w_later := s * 1000000 + 500000; w_identity := "opus";
     w_plan := {| plan_text := Some "text"; plan_sha := Some "d1"; plan_path := Some "plan.md" |};
     w_review _ := Ok answer; w_record d := Ok d |}.
Definition write : ActionContext :=
  {| ac_origin := "claude"; ac_event := "PreToolUse"; ac_tool_name := "Write"; ac_tool_args := [("content", VStr "x")];
     ac_repo_root := "/w"; ac_session_name := "s"; ac_target_path := Some "a.py"; ac_new_content := Some "x"; ac_raw_diff := None;
     ac_action_fingerprint := None; ac_native_boundary := None |}.

Definition first : supervisor := (supervisor_evaluate isoformat parse sha dumps (start config (at_second 100 allows) None) write).1.
Definition saved : dict := match supervisor_get_state first with Ok s => s | Err _ => [] end.
Definition one : history := {| h_saved := [saved]; h_clean := [(cache_key sha dumps config (at_second 100 allows) write, 100500000)] |}.

Lemma one_reachable : reaches isoformat parse sha dumps one.
Proof.
  change one with {| h_saved := saved :: h_saved {| h_saved := []; h_clean := [] |};
    h_clean := answered parse sha dumps config (start config (at_second 100 allows) None) write ++ h_clean {| h_saved := []; h_clean := [] |} |}.
  apply one_check; [apply no_checks|discriminate|]. vm_compute. reflexivity.
Defined.

(** Twenty seconds later the reviewer would refuse, but it is not asked; after thirty it is. *)
Example second_and_third :
  map (fun s => match (supervisor_evaluate isoformat parse sha dumps (start config (at_second s refuses) (Some saved)) write).2 with
                | Ok d => (pd_decision d, pd_cached d) | Err _ => (Warn, false) end) [120; 130]
  = [(Allow, true); (Deny, false)].
Proof. vm_compute. reflexivity. Qed.

Definition cached_allow : PolicyDecision := noted [] [] false None true.

Lemma second_allows :
  supervisor_evaluate isoformat parse sha dumps (start config (at_second 120 refuses) (Some saved)) write
  = (start config (at_second 120 refuses) (Some saved), Ok cached_allow).
Proof. vm_compute. reflexivity. Defined.


Lemma saved_state_bounded_witness :
  exists cache, saved = [("cache", VDict cache)] /\ (length cache <= 50)%nat /\
    (forall k v, (k, v) ∈ cache -> exists v0 d, (k, v0) ∈ s_cache first /\ py_dict v0 = Ok d /\ v = VDict d) /\
    forall k v0 d, (k, v0) ∈ s_cache first -> py_dict v0 = Ok d -> (k, VDict d) ∈ cache \/
      length cache = 50%nat /\
      forall k' v' s s', (k', v') ∈ cache -> stamp (VDict d) = Ok s -> stamp v' = Ok s' -> str_le s s' = true.
Proof. apply (saved_state_bounded first saved). vm_compute. reflexivity. Defined.

End SupervisorSample.
