(* ===== verification/TurnEvidence.v ===== *)
(** * TurnEvidence: snapshots of a checkout, compared and carried over

    [src/forge/policy/semantic/turn_evidence.py], but for [capture]'s reading of the checkout
    with git: what a snapshot holds comes from outside, [capture] here stores it. [compare]
    makes the evidence a Stop reviewer is shown, [rebase_pending] carries the changes of an
    unreviewed turn into the next one, [prune] removes what no checkpoint refers to.

    Arguments: the hash of a manifest and of a file's bytes, the length of a manifest and of an
    evidence document as JSON, whether bytes decode as UTF-8, [difflib.unified_diff] on two
    texts, and how [pathlib] spells a path relative to the root. *)

From S2P Require Import Prelude.

Definition MAX_FILE_BYTES : Z := 1000000.
Definition MAX_MANIFEST_BYTES : Z := 4000000.
Definition MAX_EVIDENCE_BYTES : Z := 24000.

(** ** Snapshots *)

(** What [capture] records of one path; [symlink_parent] entries have no mode. *)
Record item := {
  i_mode : option Z;
  i_size : option Z;
  i_unsupported : option string;
  i_target : option string;
  i_mtime_ns : option Z;
  i_digest : option string }.
#[global] Instance item_eq_dec : EqDecision item.
Proof. solve_decision. Defined.

Record snapshot := {
  s_root : string;
  s_git_dir : string;
  s_head : string;
  s_index_digest : string;
  s_files : list (string * item);
  s_omissions : list string }.

(** The small reference a checkpoint holds. *)
Record reference := {
  r_digest : string;
  r_root : string;
  r_files : Z;
  r_omissions : list string }.

#[global] Instance reference_eq_dec : EqDecision reference.
Proof. solve_decision. Defined.

(** The files of the evidence directory: manifests and blobs by digest. *)
Record storage := {
  manifests : list (string * snapshot);
  blobs : list (string * string) }.

Definition hex_char (c : ascii) : bool :=
  let n := nat_of_ascii c in ((48 <=? n) && (n <=? 57) || (97 <=? n) && (n <=? 102))%nat.

(** [len(value) == size] and lowercase hexadecimal. *)
Definition is_hex (size : nat) (value : string) : bool :=
  (String.length value =? size)%nat && forallb hex_char (str_list value).

Definition _check_digest (value : option string) : res string :=
  match value with
  | Some v => if is_hex 64 v then Ok v else raise ValueError "Invalid review evidence digest"
  | None => raise ValueError "Invalid review evidence digest"
  end.

(** [sorted(set(l))]. *)
Definition sorted_set (l : list string) : list string := sorted_strs (dedup_first [] l).

(** Whether the repository itself is another one, or its index. *)
Definition same_repository (a b : snapshot) : bool :=
  bool_decide (s_root a = s_root b) && bool_decide (s_git_dir a = s_git_dir b)
  && bool_decide (s_head a = s_head b) && bool_decide (s_index_digest a = s_index_digest b).

(** ** Evidence *)

(** A recorded tool request or outcome; [a_rest] is the rest of the row as JSON text. *)
Record action := {
  a_id : string;
  a_phase : string;
  a_turn : Z;
  a_paths : list string;
  a_coverage_issue : option string;
  a_rest : string }.
#[global] Instance action_eq_dec : EqDecision action.
Proof. solve_decision. Defined.

Inductive change_kind := add | delete | modify.

Record change := {
  c_path : string;
  c_before : option item;
  c_after : option item;
  c_diff : option (string * change_kind);
  c_renamed_from : option string }.

(** What the reviewer is shown of the changes and the actions: everything, or counts only when that is too long. *)
Inductive shown :=
| Everything (changes : list change) (actions : list action)
| Counts (changes_count actions_count : Z).

Record evidence := {
  compared : option (string * string);
  complete : bool;
  omissions : list string;
  contents : shown;
  provenance_turns : list Z }.

(** [evidence.get("changes")] and [evidence.get("actions", [])]. *)
Definition shown_changes (e : evidence) : list change :=
  match contents e with Everything changes _ => changes | Counts _ _ => [] end.
Definition shown_actions (e : evidence) : list action :=
  match contents e with Everything _ actions => actions | Counts _ _ => [] end.

Section Evidence.

Context (sha_manifest : snapshot -> string) (sha_bytes : string -> string).
Context (manifest_size : snapshot -> Z) (evidence_size : evidence -> Z).
Context (decodes : string -> bool) (unified_diff : string -> string -> string -> string).
Context (relative_path : string -> string -> option string).

(** [load]: the manifest a reference names. *)
Definition load (st : storage) (ref : reference) : res snapshot :=
  sha ← _check_digest (Some (r_digest ref));
  match dget sha (manifests st) with
  | None => raise FileNotFoundError (sha +++ ".snapshot")
  | Some s =>
      if MAX_MANIFEST_BYTES <? manifest_size s then raise ValueError "Evidence input is not a bounded regular file"
      else if negb (bool_decide (sha_manifest s = sha)) then raise ValueError "Review snapshot digest changed"
      else if negb (bool_decide (s_root s = r_root ref)) then raise ValueError "Review snapshot identity changed"
      else Ok s
  end.

(** The text of one side of a change. *)
Definition item_text (st : storage) (it : option item) : res string :=
  match it with
  | None => Ok ""
  | Some it =>
      digest ← _check_digest (i_digest it);
      match dget digest (blobs st) with
      | None => raise FileNotFoundError (digest +++ ".blob")
      | Some data =>
          if MAX_FILE_BYTES <? Z.of_nat (String.length data) then raise ValueError "Evidence input is not a bounded regular file"
          else if negb (bool_decide (sha_bytes data = digest)) then raise ValueError "Review baseline content changed"
          else if decodes data then Ok data else raise UnicodeDecodeError "invalid start byte"
      end
  end.

Definition unsupported (it : option item) : bool :=
  match it with
  | Some it => match i_unsupported it with Some s => negb (String.eqb s "") | None => false end
  | None => false
  end.

Definition newlines (s : string) : Z :=
  Z.of_nat (length (List.filter (fun c => Ascii.eqb c "010"%char) (str_list s))).

(** The diff of one changed path, or what is omitted in its place. *)
Definition describe (st : storage) (path : string) (left right : option item) : res (change * list string) :=
  let bare := {| c_path := path; c_before := left; c_after := right; c_diff := None; c_renamed_from := None |} in
  if unsupported left || unsupported right then Ok (bare, ["unsupported_change:" +++ path])
  else
    l ← item_text st left;
    r ← item_text st right;
    if (256000 <? Z.of_nat (String.length l + String.length r)) || (8000 <? newlines l + newlines r)
    then Ok (bare, ["diff_input_limit:" +++ path])
    else
      let kind := match left, right with None, _ => add | _, None => delete | _, _ => modify end in
      Ok ({| c_path := path; c_before := left; c_after := right;
             c_diff := Some (unified_diff path l r, kind); c_renamed_from := None |}, []).

(** The paths of two snapshots, sorted. *)
Definition all_paths (a b : snapshot) : list string := sorted_set (dkeys (s_files a) ++ dkeys (s_files b)).

Definition differs (a b : snapshot) (path : string) : bool :=
  negb (bool_decide (dget path (s_files a) = dget path (s_files b))).

Definition describe_all (st : storage) (old new : snapshot) : res (list (change * list string)) :=
  mapM_res (fun path => describe st path (dget path (s_files old)) (dget path (s_files new)))
    (List.filter (differs old new) (all_paths old new)).

(** [renamed_from] of the additions whose contents were deleted elsewhere. *)
Definition kind_is (k : change_kind) (c : change) : bool :=
  match c_diff c, k with
  | Some (_, add), add | Some (_, delete), delete | Some (_, modify), modify => true
  | _, _ => false
  end.

Definition item_digest (it : option item) : option string := match it with Some it => i_digest it | None => None end.

Definition deleted_contents (changes : list change) : list (option string * string) :=
  map (fun c => (item_digest (c_before c), c_path c)) (List.filter (kind_is delete) changes).

(** The last deletion of the same contents. *)
Definition renamed_from (deleted : list (option string * string)) (c : change) : option string :=
  if kind_is add c
  then snd <$> last (List.filter (fun p => bool_decide (fst p = item_digest (c_after c))) deleted)
  else None.

Definition note_rename (deleted : list (option string * string)) (c : change) : change :=
  {| c_path := c_path c; c_before := c_before c; c_after := c_after c; c_diff := c_diff c;
     c_renamed_from := renamed_from deleted c |}.

(** The keys of the rows of a phase. *)
Definition row_key (a : action) : Z * string := (a_turn a, a_id a).
Definition keys_of (phase : string) (actions : list action) : list (Z * string) :=
  map row_key (List.filter (fun a => String.eqb (a_phase a) phase) actions).

Definition not_denied (actions : list action) : list action :=
  List.filter (fun a => negb (bool_decide (row_key a ∈ keys_of "denied" actions))) actions.

(** What is omitted on account of one action. *)
Definition path_known (old new : snapshot) (value : string) : bool :=
  match relative_path (s_root old) value with
  | Some path => dhas path (s_files old) || dhas path (s_files new)
  | None => false
  end.

Definition action_omissions (old new : snapshot) (a : action) : list string :=
  concat (map (fun value => if path_known old new value then [] else ["tool_path_outside_snapshot"]) (a_paths a))
  ++ match a_coverage_issue a with Some s => if String.eqb s "" then [] else [s] | None => [] end.

Definition compare (st : storage) (before after : reference) (actions : list action) : res evidence :=
  old ← load st before;
  new ← load st after;
  described ← describe_all st old new;
  let changes := map fst described in
  let changes := map (note_rename (deleted_contents changes)) changes in
  let actions := not_denied actions in
  let requests : gset (Z * string) := list_to_set (keys_of "request" actions) in
  let outcomes : gset (Z * string) := list_to_set (keys_of "outcome" actions) in
  let omitted := s_omissions old ++ s_omissions new
    ++ (if same_repository old new then [] else ["repository_identity_or_index_changed"])
    ++ concat (map snd described)
    ++ (if bool_decide (requests = outcomes) then [] else ["missing_tool_event"])
    ++ (if negb (bool_decide (changes = [])) && bool_decide (actions = []) then ["changes_without_observed_actions"] else [])
    ++ concat (map (action_omissions old new) actions) in
  let digests := Some (r_digest before, r_digest after) in
  let e := {| compared := digests; complete := bool_decide (omitted = []); omissions := sorted_set omitted;
              contents := Everything changes actions; provenance_turns := [] |} in
  Ok (if MAX_EVIDENCE_BYTES <? evidence_size e then
        {| compared := digests; complete := false; omissions := ["review_prompt_byte_limit"];
           contents := Counts (Z.of_nat (length changes)) (Z.of_nat (length actions)); provenance_turns := [] |}
      else e).

(** ** Carrying changes over *)

(** The path's contents at the start of the next turn: unless an observed change of it is
    still in place, those it has now. *)
Definition carry_path (before finish start : snapshot) (files : list (string * item)) (path : string)
    : list (string * item) :=
  if negb (differs before finish path) || differs start finish path then files
  else match dget path (s_files before) with
       | None => ddel path files
       | Some was => dset path was files
       end.

Definition merged_snapshot (before finish start : snapshot) : snapshot :=
  {| s_root := s_root start; s_git_dir := s_git_dir start; s_head := s_head start; s_index_digest := s_index_digest start;
     s_files := foldl (carry_path before finish start) (s_files start) (all_paths before finish);
     s_omissions := sorted_set (s_omissions start ++ s_omissions before ++ s_omissions finish
       ++ (if same_repository before finish then [] else ["repository_identity_or_index_changed"])) |}.

Definition store_manifest (s : snapshot) (st : storage) : storage :=
  {| manifests := dset (sha_manifest s) s (manifests st); blobs := blobs st |}.

(** [rebase_pending]: the new reference, the paths changed between observation and prompt,
    and those among the observed changes; the directory after the write. *)
Definition rebase_pending (st : storage) (baseline observed current : reference)
    : res (reference * list string * list string * storage) :=
  before ← load st baseline;
  finish ← load st observed;
  start ← load st current;
  let merged := merged_snapshot before finish start in
  let unattributed := List.filter (differs finish start) (all_paths finish start) in
  let conflicts := List.filter (fun path => differs before finish path && differs start finish path)
                     (all_paths before finish) in
  Ok ({| r_digest := sha_manifest merged; r_root := r_root current;
         r_files := Z.of_nat (length (s_files merged)); r_omissions := s_omissions merged |},
      unattributed, conflicts, store_manifest merged st).

(** ** Keeping the directory *)

Definition kept_blobs (s : snapshot) : list string := omap (fun p => i_digest (snd p)) (s_files s).

(** The files of one kind, listed in some order: those not in [keep] are removed, until one has
    no digest for a name. *)
Fixpoint prune_files {V} (keep : list string) (files : list (string * V)) : list (string * V) * res unit :=
  match files with
  | [] => ([], Ok tt)
  | (name, v) :: files =>
      if bool_decide (name ∈ keep) then
        let '(files, r) := prune_files keep files in ((name, v) :: files, r)
      else match _check_digest (Some name) with
           | Err e => ((name, v) :: files, Err e)
           | Ok _ => prune_files keep files
           end
  end.

(** [prune]: only what the references need stays. *)
Definition prune (st : storage) (references : list reference) : storage * res unit :=
  match mapM_res (load st) references with
  | Err e => (st, Err e)
  | Ok snapshots =>
      let '(ms, r) := prune_files (map r_digest references) (manifests st) in
      match r with
      | Err e => ({| manifests := ms; blobs := blobs st |}, Err e)
      | Ok _ =>
          let '(bs, r) := prune_files (concat (map kept_blobs snapshots)) (blobs st) in
          ({| manifests := ms; blobs := bs |}, r)
      end
  end.

(** [capture], given what it finds: the blobs and the manifest are stored, and the reference
    returned. *)
Definition store_capture (s : snapshot) (contents : list string) (st : storage) : storage :=
  store_manifest s {| manifests := manifests st;
                      blobs := foldl (fun bs data => dset (sha_bytes data) data bs) (blobs st) contents |}.

Definition reference_to (s : snapshot) : reference :=
  {| r_digest := sha_manifest s; r_root := s_root s; r_files := Z.of_nat (length (s_files s));
     r_omissions := s_omissions s |}.

End Evidence.

(** ** Lemmas *)

Lemma sorted_set_in l p : p ∈ sorted_set l <-> p ∈ l.
Proof. unfold sorted_set, sorted_strs. by rewrite sort_by_perm, elem_of_dedup_first. Qed.

Lemma sorted_set_NoDup l : NoDup (sorted_set l).
Proof. unfold sorted_set, sorted_strs. rewrite sort_by_perm. apply NoDup_dedup_first. Qed.

Lemma differs_iff a b p : differs a b p = true <-> dget p (s_files a) <> dget p (s_files b).
Proof. unfold differs. by rewrite negb_true_iff, bool_decide_eq_false. Qed.

Lemma differs_sym a b p : differs a b p = differs b a p.
Proof. unfold differs. f_equal. apply bool_decide_ext. split; congruence. Qed.

(** A path of which two snapshots differ is a path of one of them. *)
Lemma differs_in a b p : differs a b p = true -> p ∈ all_paths a b.
Proof.
  rewrite differs_iff. intros Hd. unfold all_paths. rewrite sorted_set_in, elem_of_app.
  destruct (decide (p ∈ dkeys (s_files a))) as [|Ha]; [by left|right].
  destruct (decide (p ∈ dkeys (s_files b))) as [|Hb]; [done|]. exfalso.
  apply dget_None in Ha, Hb. congruence.
Qed.

Lemma elem_of_filter_b {A} (f : A -> bool) l x : x ∈ List.filter f l <-> x ∈ l /\ f x = true.
Proof. by rewrite !list_elem_of_In, filter_In. Qed.

(** What the loop of [rebase_pending] makes of each path. *)
Definition carried (before finish start : snapshot) (p : string) : bool :=
  differs before finish p && negb (differs start finish p).

Lemma carry_paths before finish start files paths p :
  NoDup (dkeys files) -> NoDup paths ->
  NoDup (dkeys (foldl (carry_path before finish start) files paths)) /\
  dget p (foldl (carry_path before finish start) files paths)
  = if bool_decide (p ∈ paths) && carried before finish start p then dget p (s_files before) else dget p files.
Proof.
  intros Hf Hp. revert files Hf. induction Hp as [|q paths Hq _ IH]; intros files Hf; [done|]. cbn [foldl].
  assert (Hf' : NoDup (dkeys (carry_path before finish start files q))).
  { unfold carry_path. repeat case_match; auto using NoDup_ddel, NoDup_dset. }
  destruct (IH _ Hf') as [Hnd ->]. split; [done|].
  assert (Hstep : dget p (carry_path before finish start files q)
    = if bool_decide (p = q) && carried before finish start p then dget p (s_files before) else dget p files).
  { unfold carry_path, carried. destruct (decide (p = q)) as [->|Hne].
    - rewrite bool_decide_eq_true_2 by done.
      destruct (differs before finish q), (differs start finish q); simpl; try done.
      destruct (dget q (s_files before)) eqn:Hb; [by rewrite dget_dset_eq|by rewrite dget_ddel_eq].
    - rewrite bool_decide_eq_false_2 by done. simpl.
      repeat case_match; rewrite ?dget_dset_ne, ?dget_ddel_ne by done; done. }
  rewrite Hstep. destruct (decide (p = q)) as [->|Hne].
  - rewrite (bool_decide_eq_false_2 (q ∈ paths)) by done. by rewrite !bool_decide_eq_true_2 by set_solver.
  - rewrite (bool_decide_eq_false_2 (p = q)) by done. simpl.
    replace (bool_decide (p ∈ q :: paths)) with (bool_decide (p ∈ paths)); [by destruct (_ && _)|].
    apply bool_decide_ext. set_solver.
Qed.

Lemma merged_files before finish start p :
  NoDup (dkeys (s_files start)) ->
  dget p (s_files (merged_snapshot before finish start))
  = if carried before finish start p then dget p (s_files before) else dget p (s_files start).
Proof.
  intros Hnd. unfold merged_snapshot. cbn [s_files].
  destruct (carry_paths before finish start (s_files start) (all_paths before finish) p Hnd (sorted_set_NoDup _)) as [_ ->].
  destruct (carried before finish start p) eqn:Hc; [|by rewrite andb_false_r].
  rewrite bool_decide_eq_true_2; [done|]. unfold carried in Hc. apply andb_true_iff in Hc as [Hd _]. by apply differs_in.
Qed.

Lemma merged_differs before finish start p :
  NoDup (dkeys (s_files start)) ->
  differs (merged_snapshot before finish start) start p = carried before finish start p.
Proof.
  intros Hnd. unfold differs at 1. rewrite merged_files by done.
  destruct (carried before finish start p) eqn:Hc; [|by rewrite bool_decide_eq_true_2].
  apply andb_true_iff in Hc as [Hd Hs]. apply differs_iff in Hd. apply negb_true_iff in Hs.
  apply negb_true_iff, bool_decide_eq_false. unfold differs in Hs.
  apply negb_false_iff, bool_decide_eq_true in Hs. congruence.
Qed.

(** ** Lemmas: loading *)

Section Laws.

Context (sha_manifest : snapshot -> string) (sha_bytes : string -> string).
Context (manifest_size : snapshot -> Z) (evidence_size : evidence -> Z).
Context (decodes : string -> bool) (unified_diff : string -> string -> string -> string).
Context (relative_path : string -> string -> option string).

#[local] Notation load := (load sha_manifest manifest_size).
#[local] Notation item_text := (item_text sha_bytes decodes).
#[local] Notation prune := (prune sha_manifest manifest_size).
#[local] Notation rebase_pending := (rebase_pending sha_manifest manifest_size).
#[local] Notation compare := (compare sha_manifest sha_bytes manifest_size evidence_size decodes unified_diff relative_path).

Lemma load_Ok st ref s :
  load st ref = Ok s <->
  is_hex 64 (r_digest ref) = true /\ dget (r_digest ref) (manifests st) = Some s /\
  manifest_size s <= MAX_MANIFEST_BYTES /\ sha_manifest s = r_digest ref /\ s_root s = r_root ref.
Proof.
  unfold load, _check_digest. destruct (is_hex 64 (r_digest ref)); simpl; [|naive_solver].
  destruct (dget (r_digest ref) (manifests st)) as [s'|]; [|naive_solver].
  destruct (MAX_MANIFEST_BYTES <? manifest_size s') eqn:Hsz; [split; [done|]; intros (_ & [= ->] & ? & _); lia|].
  repeat case_bool_decide; simpl; split; intros; destruct_and?; simplify_eq; split_and?; try done; lia.
Qed.

(** Whatever is not removed can be read as before. *)
Lemma prune_files_get {V} keep (files files' : list (string * V)) r name :
  prune_files keep files = (files', r) -> name ∈ keep -> dget name files' = dget name files.
Proof.
  revert files'. induction files as [|[n v] files IH]; intros files' Hp Hname; simpl in Hp; [by simplify_eq|].
  simpl. case_bool_decide as Hn.
  - destruct (prune_files keep files) as [fs r'] eqn:Hfs. simplify_eq. simpl. case_decide; [done|]. by apply IH.
  - case_decide; [by subst|]. unfold _check_digest in Hp. destruct (is_hex 64 n); [by apply IH|].
    unfold raise in Hp. simplify_eq. simpl. by rewrite decide_False.
Qed.

Lemma prune_get st refs st' r snapshots :
  prune st refs = (st', r) -> mapM_res (load st) refs = Ok snapshots ->
  (forall name, name ∈ map r_digest refs -> dget name (manifests st') = dget name (manifests st)) /\
  (forall name, name ∈ concat (map kept_blobs snapshots) -> dget name (blobs st') = dget name (blobs st)).
Proof.
  intros Hp Hs. unfold prune in Hp. rewrite Hs in Hp.
  destruct (prune_files _ (manifests st)) as [ms rm] eqn:Hm. destruct rm as [[]|e].
  - destruct (prune_files _ (blobs st)) as [bs rb] eqn:Hb. injection Hp as <- <-.
    split; intros name Hn; simpl; eauto using prune_files_get.
  - injection Hp as <- <-. split; intros name Hn; simpl; eauto using prune_files_get.
Qed.

(** ** Lemmas: comparing *)

Lemma describe_Ok st path was now c os :
  describe sha_bytes decodes unified_diff st path was now = Ok (c, os) ->
  c_path c = path /\ c_before c = was /\ c_after c = now /\
  (os = [] -> exists l r, item_text st was = Ok l /\ item_text st now = Ok r /\
     c_diff c = Some (unified_diff path l r, match was, now with None, _ => add | _, None => delete | _, _ => modify end)).
Proof.
  unfold describe. destruct (unsupported was || unsupported now); [intros [= <- <-]; naive_solver|].
  fold (item_text st was) (item_text st now).
  destruct (item_text st was) as [l|]; [|done]. destruct (item_text st now) as [t|]; [|done]. simpl.
  case_match; intros [= <- <-]; simpl; naive_solver.
Qed.

Lemma concat_nil_in {A} (ls : list (list A)) l : concat ls = [] -> l ∈ ls -> l = [].
Proof. intros Hc Hl. destruct l as [|x l]; [done|]. apply list_elem_of_In in Hl. exfalso.
  assert (In x (concat ls)) as Hx by (apply in_concat; exists (x :: l); by split; [|left]). by rewrite Hc in Hx. Qed.

Lemma described_paths st old new described :
  describe_all sha_bytes decodes unified_diff st old new = Ok described ->
  map (fun x => c_path (fst x)) described = List.filter (differs old new) (all_paths old new).
Proof.
  intros Hd. apply mapM_res_Forall2 in Hd. induction Hd as [|p [c os] ps cs Hp _ IH]; simpl; [done|].
  apply describe_Ok in Hp as (-> & _). by rewrite IH.
Qed.

Lemma described_change st old new described c :
  describe_all sha_bytes decodes unified_diff st old new = Ok described ->
  (forall os, os ∈ map snd described -> os = []) ->
  c ∈ map (note_rename (deleted_contents (map fst described))) (map fst described) ->
  exists l r kind,
    item_text st (dget (c_path c) (s_files old)) = Ok l /\ item_text st (dget (c_path c) (s_files new)) = Ok r /\
    c_diff c = Some (unified_diff (c_path c) l r, kind).
Proof.
  intros Hd Hos Hc. rewrite map_map in Hc. apply list_elem_of_In, in_map_iff in Hc as ([c' os] & <- & Hin).
  simpl. apply mapM_res_Forall2 in Hd. apply list_elem_of_In in Hin.
  pose proof Hin as [i Hi]%list_elem_of_lookup. destruct (Forall2_lookup_r _ _ _ _ _ Hd Hi) as (p & _ & Hp).
  apply describe_Ok in Hp as (Hpath & _ & _ & Hdiff). destruct Hdiff as (l & t & Hl & Ht & Hdiff).
  { apply Hos. rewrite list_elem_of_In, in_map_iff. exists (c', os). by rewrite <- list_elem_of_In. }
  rewrite Hpath, Hdiff. eauto 10.
Qed.

Lemma action_paths_known old new actions a value :
  concat (map (action_omissions relative_path old new) actions) = [] -> a ∈ actions -> value ∈ a_paths a ->
  path_known relative_path old new value = true.
Proof.
  intros Hc Ha Hv. assert (action_omissions relative_path old new a = []) as Hn.
  { eapply concat_nil_in; [exact Hc|]. rewrite list_elem_of_In. apply in_map. by apply list_elem_of_In. }
  unfold action_omissions in Hn. apply app_nil in Hn as [Hn _].
  assert ((if path_known relative_path old new value then [] else ["tool_path_outside_snapshot"]) = []) as Hp.
  { eapply concat_nil_in; [exact Hn|]. rewrite list_elem_of_In. apply in_map_iff. exists value.
    by rewrite <- list_elem_of_In. }
  by destruct (path_known relative_path old new value).
Qed.

(** ** Properties *)

(** C22: A turn that is carried over is compared with the right baseline. Between the new
    baseline and the checkout at the next prompt, exactly those paths differ that changed
    between the old baseline and the last observation and have not been touched since, with
    their old contents as baseline; edits made between the observation and the prompt are not
    imported. They are listed as unattributed, and as conflicts when they touch a path that had
    changed. The new baseline can be loaded when it fits its limit. *)
Theorem rebase_carries_observed st baseline observed current ref unattributed conflicts st' :
  (forall s, is_hex 64 (sha_manifest s) = true) ->
  (forall name s, dget name (manifests st) = Some s -> NoDup (dkeys (s_files s))) ->
  rebase_pending st baseline observed current = Ok (ref, unattributed, conflicts, st') ->
  exists before finish start merged,
    load st baseline = Ok before /\ load st observed = Ok finish /\ load st current = Ok start /\
    dget (r_digest ref) (manifests st') = Some merged /\
    (manifest_size merged <= MAX_MANIFEST_BYTES -> load st' ref = Ok merged) /\
    (forall p, differs merged start p = differs before finish p && negb (differs finish start p)) /\
    (forall p, dget p (s_files merged)
               = dget p (s_files (if differs before finish p && negb (differs finish start p) then before else start))) /\
    (forall p, p ∈ unattributed <-> differs finish start p = true) /\
    (forall p, p ∈ conflicts <-> differs before finish p = true /\ differs finish start p = true).
Proof.
  intros Hsha Hnd. unfold rebase_pending.
  destruct (load st baseline) as [before|] eqn:Hb; [|done]. destruct (load st observed) as [finish|] eqn:Hf; [|done].
  destruct (load st current) as [start|] eqn:Hs; [|done]. rewrite !res_bind_ok. intros [= <- <- <- <-].
  apply load_Ok in Hs as (Hs1 & Hs2 & Hs3 & Hs4 & Hs5). pose proof (Hnd _ _ Hs2) as Hnd'.
  exists before, finish, start, (merged_snapshot before finish start).
  cbn [r_digest manifests store_manifest]. rewrite dget_dset_eq. split_and!; try done.
  - intros Hsz. apply load_Ok. simpl. by rewrite dget_dset_eq.
  - intros p. rewrite merged_differs by done. unfold carried. by rewrite (differs_sym start finish).
  - intros p. rewrite merged_files by done. unfold carried. rewrite (differs_sym start finish). by case_match.
  - intros p. rewrite elem_of_filter_b. split; [by intros [_ ?]|]. intros Hd. split; [by apply differs_in|done].
  - intros p. rewrite elem_of_filter_b, andb_true_iff, (differs_sym start finish). split; [by intros [_ ?]|].
    intros [Hd Hd']. split; [by apply differs_in|done].
Qed.


(** [prune] removes nothing a checkpoint still refers to: whatever the references load to
    before, they load to after, with the text of every file of theirs. *)
Theorem prune_keeps_references st references st' r ref s :
  prune st references = (st', r) -> (forall ref', ref' ∈ references -> is_ok (load st ref') = true) ->
  ref ∈ references -> load st ref = Ok s ->
  load st' ref = Ok s /\ forall p it, dget p (s_files s) = Some it -> item_text st' (Some it) = item_text st (Some it).
Proof.
  intros Hp Hall Hin Hs. destruct (mapM_res (load st) references) as [snapshots|e] eqn:Hm.
  2:{ exfalso. apply mapM_res_err in Hm as (x & Hx & Hxe). specialize (Hall _ Hx). by rewrite Hxe in Hall. }
  destruct (prune_get _ _ _ _ _ Hp Hm) as [Hman Hblob].
  assert (s ∈ snapshots) as Hsn.
  { apply mapM_res_Forall2 in Hm. apply list_elem_of_lookup in Hin as [i Hi].
    destruct (Forall2_lookup_l _ _ _ _ _ Hm Hi) as (y & Hy & Heq). rewrite Hs in Heq. injection Heq as <-.
    by eapply list_elem_of_lookup_2. }
  split.
  - apply load_Ok in Hs as (H1 & H2 & H3 & H4 & H5). apply load_Ok. split_and!; try done.
    rewrite Hman; [done|]. rewrite list_elem_of_In. apply in_map. by apply list_elem_of_In.
  - intros p it Hit. unfold item_text. destruct (i_digest it) as [d|] eqn:Hdg; [|done].
    unfold _check_digest. destruct (is_hex 64 d); [|done]. rewrite !res_bind_ok, Hblob; [done|].
    rewrite list_elem_of_In, in_concat. exists (kept_blobs s). split; [apply in_map; by apply list_elem_of_In|].
    rewrite <- list_elem_of_In. unfold kept_blobs. apply list_elem_of_omap. exists (p, it). split; [|done].
    by apply dget_elem_of.
Qed.

End Laws.

(** ** Witnesses *)

Module EvidenceSample.

(** Digests of the sample: 63 zeros and a digit. *)
Definition zeros (n : nat) : string := Nat.iter n (String "0") "".
Definition h (n : nat) : string := zeros 63 +++ pretty (Z.of_nat (n mod 10)).

Definition file (size : nat) : item :=
  {| i_mode := Some 420; i_size := Some (Z.of_nat size); i_unsupported := None; i_target := None;
     i_mtime_ns := None; i_digest := Some (h size) |}.
Definition checkout (a b : nat) : snapshot :=
  {| s_root := "/w"; s_git_dir := "/w/.git"; s_head := "c0"; s_index_digest := "i0";
     s_files := [("a", file a); ("b", file b)]; s_omissions := [] |}.

Definition total (s : snapshot) : nat :=
  foldr (fun (p : string * item) n => (Z.to_nat (default 0%Z (i_size (snd p))) + n)%nat) 0%nat (s_files s).
Definition sha_manifest (s : snapshot) : string :=
  h (total s).
Definition sha_bytes (data : string) : string := h (String.length data).
Definition small {A} (a : A) : Z := 100.
Definition diff (path l r : string) : string := path +++ ": " +++ l +++ " -> " +++ r.

Definition before : snapshot := checkout 1 2.
Definition finish : snapshot := checkout 4 2.
(** Between the observation and the prompt the user edited [b]. *)
Definition start : snapshot := checkout 4 3.

Definition st : storage :=
  {| manifests := map (fun s => (sha_manifest s, s)) [before; finish; start];
     blobs := [(h 1, "x"); (h 2, "xx"); (h 3, "xxx"); (h 4, "xxxx")] |}.
Definition ref (s : snapshot) : reference := reference_to sha_manifest s.
Definition carried_ref : reference := ref (merged_snapshot before finish start).

Lemma sha_is_hex s : is_hex 64 (sha_manifest s) = true.
Proof.
  unfold sha_manifest, h. assert (Hm := Nat.mod_upper_bound (total s) 10 ltac:(lia)).
  destruct (_ mod 10)%nat as [|[|[|[|[|[|[|[|[|[|]]]]]]]]]]; try reflexivity. lia.
Defined.

Lemma st_nodup name s : dget name (manifests st) = Some s -> NoDup (dkeys (s_files s)).
Proof.
  intros Hs%dget_elem_of. apply list_elem_of_In in Hs. simpl in Hs.
  destruct Hs as [[= _ <-]|[[= _ <-]|[[= _ <-]|[]]]]; apply (bool_decide_unpack _); vm_compute; exact I.
Defined.

Lemma sample_rebased :
  rebase_pending sha_manifest small st (ref before) (ref finish) (ref start)
  = Ok (carried_ref, ["b"], [], store_manifest sha_manifest (merged_snapshot before finish start) st).
Proof. vm_compute. reflexivity. Defined.

Lemma rebase_carries_observed_witness :
  exists before' finish' start' merged,
    load sha_manifest small st (ref before) = Ok before' /\ load sha_manifest small st (ref finish) = Ok finish' /\
    load sha_manifest small st (ref start) = Ok start' /\
    dget (r_digest carried_ref) (manifests (store_manifest sha_manifest (merged_snapshot before finish start) st)) = Some merged /\
    (small merged <= MAX_MANIFEST_BYTES ->
       load sha_manifest small (store_manifest sha_manifest (merged_snapshot before finish start) st) carried_ref = Ok merged) /\
    (forall p, differs merged start' p = differs before' finish' p && negb (differs finish' start' p)) /\
    (forall p, dget p (s_files merged)
               = dget p (s_files (if differs before' finish' p && negb (differs finish' start' p) then before' else start'))) /\
    (forall p, p ∈ ["b"] <-> differs finish' start' p = true) /\
    (forall p, p ∈ [] <-> differs before' finish' p = true /\ differs finish' start' p = true).
Proof.
  exact (rebase_carries_observed sha_manifest small st (ref before) (ref finish) (ref start) carried_ref ["b"] []
    (store_manifest sha_manifest (merged_snapshot before finish start) st) sha_is_hex st_nodup sample_rebased).
Defined.

Definition row (phase : string) : action :=
  {| a_id := "t1"; a_phase := phase; a_turn := 7; a_paths := ["a"]; a_coverage_issue := None; a_rest := "{}" |}.
Definition rows : list action := [row "request"; row "outcome"].
Definition inside (root value : string) : option string := if startswith "/" value then None else Some value.

Definition shown_evidence : evidence :=
  match compare sha_manifest sha_bytes small small (fun _ => true) diff inside st (ref before) (ref finish) rows with
  | Ok e => e
  | Err _ => {| compared := None; complete := false; omissions := []; contents := Counts 0 0; provenance_turns := [] |}
  end.

Lemma sample_compared :
  compare sha_manifest sha_bytes small small (fun _ => true) diff inside st (ref before) (ref finish) rows = Ok shown_evidence.
Proof. vm_compute. reflexivity. Defined.


Lemma prune_keeps_references_witness :
  load sha_manifest small (fst (prune sha_manifest small st [ref finish])) (ref finish) = Ok finish /\
  forall p it, dget p (s_files finish) = Some it ->
    item_text sha_bytes (fun _ => true) (fst (prune sha_manifest small st [ref finish])) (Some it)
    = item_text sha_bytes (fun _ => true) st (Some it).
Proof.
  apply (prune_keeps_references sha_manifest sha_bytes small (fun _ => true) st [ref finish]
    (fst (prune sha_manifest small st [ref finish])) (snd (prune sha_manifest small st [ref finish])) (ref finish) finish).
  - apply surjective_pairing.
  - intros r Hr. apply list_elem_of_singleton in Hr as ->. vm_compute. reflexivity.
  - left.
  - vm_compute. reflexivity.
Defined.

(** The directory of the sample does lose what is not referred to. *)
Example prune_removes : dkeys (manifests (fst (prune sha_manifest small st [ref finish]))) = [sha_manifest finish].
Proof. vm_compute. reflexivity. Qed.

(** A merged manifest is written without a check of its size: when it is over the limit, the
    carried baseline cannot be loaded, though each snapshot it is made of can. *)
Definition by_files (s : snapshot) : Z := 1500000 * Z.of_nat (length (s_files s)).
Definition only (name : string) (n : nat) : snapshot :=
  {| s_root := "/w"; s_git_dir := "/w/.git"; s_head := "c0"; s_index_digest := "i0";
     s_files := [(name, file n); (name +++ "2", file n)]; s_omissions := [] |}.
Definition nothing : snapshot :=
  {| s_root := "/w"; s_git_dir := "/w/.git"; s_head := "c0"; s_index_digest := "i0"; s_files := []; s_omissions := [] |}.
Definition st2 : storage :=
  {| manifests := map (fun s => (sha_manifest s, s)) [only "a" 1; nothing; only "b" 2]; blobs := [] |}.
Example carried_baseline_unreadable :
  match rebase_pending sha_manifest by_files st2 (ref (only "a" 1)) (ref nothing) (ref (only "b" 2)) with
  | Ok (r, _, _, st') => load sha_manifest by_files st' r
  | Err e => Err e
  end = raise ValueError "Evidence input is not a bounded regular file".
Proof. vm_compute. reflexivity. Qed.

End EvidenceSample.
