(* ===== verification/SearchIndex.v ===== *)
(** * SearchIndex: the persistent BM25 index

    [src/forge/search/bm25_store.py], the index construction of [search/engine.py] and
    [decompose_document] of [search/extractor.py]. The index file is what reading it meets
    ([content]); every operation below is a read-modify-write under the store's file lock,
    so that an execution is a sequence of them. A lock timeout or a failed write raises
    before anything changes and is not a step.

    The reference specification is the index [BM25.__init__] builds from scratch over the
    indexed documents: [incremental_matches_rebuild]. *)

From S2P Require Import Prelude PyValue PyFloat StateIO.
From Stdlib Require Import SpecFloat.

Notation counts := (list (string * Z)).

(** ** Data *)

Definition BM25_INDEX_VERSION : Z := 1.
Definition TOKENIZER_ID : string := "v1".

(** [BM25IndexData]: position [i] of the first three lists is one document. *)
Record BM25IndexData := {
  doc_keys : list string;
  doc_lens : list Z;
  term_freqs : list counts;
  doc_freqs : counts;
  avgdl : spec_float;
  k1 : spec_float;
  b : spec_float;
  tokenizer_id : string }.

(** The defaults [1.5] and [0.75]. *)
Definition default_k1 : spec_float := int_truediv 3 2.
Definition default_b : spec_float := int_truediv 3 4.

(** [BM25IndexData()]. *)
Definition new_index : BM25IndexData :=
  {| doc_keys := []; doc_lens := []; term_freqs := []; doc_freqs := []; avgdl := float_zero;
     k1 := default_k1; b := default_b; tokenizer_id := TOKENIZER_ID |}.

Definition counts_value (d : counts) : value := VDict ((fun p => (fst p, VInt (snd p))) <$> d).

(** [BM25IndexData.to_dict]: [dataclasses.asdict]. *)
Definition index_to_dict (d : BM25IndexData) : dict :=
  [("doc_keys", VList (VStr <$> doc_keys d));
   ("doc_lens", VList (VInt <$> doc_lens d));
   ("term_freqs", VList (counts_value <$> term_freqs d));
   ("doc_freqs", counts_value (doc_freqs d));
   ("avgdl", VFloat (avgdl d));
   ("k1", VFloat (k1 d));
   ("b", VFloat (b d));
   ("tokenizer_id", VStr (tokenizer_id d))].

(** ** Reading *)

(** [float(v)]. *)
Definition py_float (v : value) : res spec_float :=
  match v with
  | VFloat f => Ok f
  | VInt z => py_float_of_int z
  | VBool c => py_float_of_int (Z.b2z c)
  | VStr s => float_of_str s
  | _ => raise TypeError ("float() argument must be a string or a real number, not '" +++
                          type_name v +++ "'")
  end.

(** [_raise_bm25_corruption]. *)
Definition _raise_bm25_corruption {A} (path reason : string) : res A :=
  state_error BM25IndexCorruptedError path (reason +++ ". Run 'forge search rebuild-index' to fix.").

Section Reading.

(** [str], on any decoded value: it only occurs in messages. *)
Variable py_str : value -> string.
Variable path : string.

(** [_handle_bm25_version_mismatch], as the [reader] passed to the shared helper. *)
Definition bm25_reader : reader :=
  {| rd_version_key := "schema_version";
     rd_expected_version := BM25_INDEX_VERSION;
     rd_corrupted_error := BM25IndexCorruptedError;
     rd_unreadable_error := BM25IndexUnreadableError;
     rd_missing_version := None;
     rd_missing_version_reason := Some "missing schema_version";
     rd_none_is_missing := true;
     rd_on_version_mismatch :=
       Some (fun _ version => schema_version_error path (pretty BM25_INDEX_VERSION) (py_str version)) |}.

Definition enumerate {A} (l : list A) : list (nat * A) := zip (seq 0 (length l)) l.

(** One entry of the [doc_keys] loop. *)
Definition read_doc_key (p : nat * value) : res string :=
  match snd p with
  | VStr s => Ok s
  | v => _raise_bm25_corruption path
           ("doc_keys entry " +++ pretty (fst p) +++ " is " +++ type_name v +++ ", expected string")
  end.

(** One entry of the [doc_lens] loop: [type(doc_len) is not int] excludes [bool]. *)
Definition read_doc_len (p : nat * value) : res Z :=
  match snd p with
  | VInt z => Ok z
  | v => _raise_bm25_corruption path
           ("doc_lens entry " +++ pretty (fst p) +++ " is " +++ type_name v +++ ", expected integer")
  end.

(** The items of a count dict; a decoded JSON object's keys are strings. *)
Definition read_counts (what : string) (d : dict) : res counts :=
  mapM_res (fun p : string * value =>
    match snd p with
    | VInt z => Ok (fst p, z)
    | v => _raise_bm25_corruption path
             (what +++ " value for " +++ py_repr (fst p) +++ " is " +++ type_name v +++
              ", expected integer")
    end) d.

(** One entry of the [term_freqs] loop. *)
Definition read_term_freq (p : nat * value) : res counts :=
  match snd p with
  | VDict d => read_counts ("term_freqs entry " +++ pretty (fst p)) d
  | v => _raise_bm25_corruption path
           ("term_freqs entry " +++ pretty (fst p) +++ " is " +++ type_name v +++ ", expected object")
  end.

(** [data.get(name, [])], checked to be a list. *)
Definition read_list (name : string) (data : dict) : res (list value) :=
  match dget_default name (VList []) data with
  | VList l => Ok l
  | v => _raise_bm25_corruption path (name +++ " is " +++ type_name v +++ ", expected list")
  end.

Definition read_doc_freqs (data : dict) : res counts :=
  match dget_default "doc_freqs" (VDict []) data with
  | VDict d => read_counts "doc_freqs" d
  | v => _raise_bm25_corruption path ("doc_freqs is " +++ type_name v +++ ", expected object")
  end.

(** The [try] around the construction: [except (TypeError, ValueError)]. *)
Definition wrap_invalid {A} (r : res A) : res A :=
  match r with
  | Err e =>
      if bool_decide (exn_cls e ∈ [TypeError; ValueError])
      then state_error BM25IndexCorruptedError path
             ("invalid data: " +++ exn_msg e +++ ". Run 'forge search rebuild-index' to fix.")
      else Err e
  | Ok a => Ok a
  end.

(** [BM25IndexStore.read], after the versioned read. *)
Definition read_index (data : dict) : res BM25IndexData :=
  let stored_tokenizer := dget_default "tokenizer_id" (VStr "") data in
  if negb (py_eq stored_tokenizer (VStr TOKENIZER_ID)) then
    state_error BM25IndexCorruptedError path
      ("tokenizer mismatch: index has '" +++ py_str stored_tokenizer +++ "', current is '" +++
       TOKENIZER_ID +++ "'. Run 'forge search rebuild-index' to fix.")
  else
    raw_doc_keys ← read_list "doc_keys" data;
    keys ← mapM_res read_doc_key (enumerate raw_doc_keys);
    raw_doc_lens ← read_list "doc_lens" data;
    lens ← mapM_res read_doc_len (enumerate raw_doc_lens);
    raw_term_freqs ← read_list "term_freqs" data;
    tfs ← mapM_res read_term_freq (enumerate raw_term_freqs);
    dfs ← read_doc_freqs data;
    d ← wrap_invalid
          (f_avgdl ← py_float (dget_default "avgdl" (VFloat float_zero) data);
           f_k1 ← py_float (dget_default "k1" (VFloat default_k1) data);
           f_b ← py_float (dget_default "b" (VFloat default_b) data);
           Ok {| doc_keys := keys; doc_lens := lens; term_freqs := tfs; doc_freqs := dfs;
                 avgdl := f_avgdl; k1 := f_k1; b := f_b; tokenizer_id := TOKENIZER_ID |});
    let n_keys := length (doc_keys d) in
    let n_lens := length (doc_lens d) in
    let n_freqs := length (term_freqs d) in
    if negb (Nat.eqb n_keys n_lens) || negb (Nat.eqb n_keys n_freqs) then
      state_error BM25IndexCorruptedError path
        ("positional array length mismatch: doc_keys=" +++ pretty n_keys +++ ", doc_lens=" +++
         pretty n_lens +++ ", term_freqs=" +++ pretty n_freqs +++
         ". Run 'forge search rebuild-index' to fix.")
    else Ok d.

(** [BM25IndexStore.read]. *)
Definition read (f : option content) : res (option BM25IndexData) :=
  match f with
  | None => Ok None
  | Some c =>
      data ← read_versioned_json_object py_str path bm25_reader c;
      Some <$> read_index data
  end.

(** ** Updates *)

(** [write], at [now]: the file's new content. *)
Definition write (now : string) (d : BM25IndexData) : content :=
  CJson (VDict (dupdate [("schema_version", VInt BM25_INDEX_VERSION); ("updated_at", VStr now);
                         ("tokenizer_id", VStr (tokenizer_id d))] (index_to_dict d))).

(** [l.index(x)]. *)
Fixpoint index_of (x : string) (l : list string) : option nat :=
  match l with
  | [] => None
  | y :: l => if String.eqb y x then Some O else S <$> index_of x l
  end.

(** [l.pop(i)], [i >= 0]. *)
Definition py_pop {A} (i : nat) (l : list A) : res (list A) :=
  if Nat.ltb i (length l) then Ok (delete i l) else raise IndexError "pop index out of range".

(** One term of the removed document: decrement, and delete at zero. *)
Definition decr_doc_freq (dfs : counts) (term : string) : counts :=
  match dget term dfs with
  | Some n =>
      let dfs := dset term (n - 1) dfs in
      if n - 1 <=? 0 then ddel term dfs else dfs
  | None => dfs
  end.

(** [_remove_doc_from_data]. *)
Definition _remove_doc_from_data (d : BM25IndexData) (doc_key : string) : res (BM25IndexData * bool) :=
  match index_of doc_key (doc_keys d) with
  | None => Ok (d, false)
  | Some idx =>
      old_tf ← match term_freqs d !! idx with
               | Some tf => Ok tf
               | None => raise IndexError "list index out of range"
               end;
      let dfs := foldl decr_doc_freq (doc_freqs d) (dkeys old_tf) in
      keys ← py_pop idx (doc_keys d);
      lens ← py_pop idx (doc_lens d);
      tfs ← py_pop idx (term_freqs d);
      Ok ({| doc_keys := keys; doc_lens := lens; term_freqs := tfs; doc_freqs := dfs;
             avgdl := avgdl d; k1 := k1 d; b := b d; tokenizer_id := tokenizer_id d |}, true)
  end.

Definition sum_lens (l : list Z) : Z := foldr Z.add 0 l.

(** [sum(doc_lens) / max(len(doc_lens), 1)]. *)
Definition average (lens : list Z) : res spec_float :=
  py_int_truediv (sum_lens lens) (Z.max (Z.of_nat (length lens)) 1).

Definition set_avgdl (d : BM25IndexData) (x : spec_float) : BM25IndexData :=
  {| doc_keys := doc_keys d; doc_lens := doc_lens d; term_freqs := term_freqs d;
     doc_freqs := doc_freqs d; avgdl := x; k1 := k1 d; b := b d; tokenizer_id := tokenizer_id d |}.

(** [doc_freqs[term] = doc_freqs.get(term, 0) + 1]. *)
Definition incr (d : counts) (term : string) : counts := dset term (dget_default term 0 d + 1) d.

(** The appends of [upsert_document]. *)
Definition append_doc (d : BM25IndexData) (doc_key : string) (term_freq : counts) (doc_len : Z) :
    BM25IndexData :=
  {| doc_keys := doc_keys d ++ [doc_key];
     doc_lens := doc_lens d ++ [doc_len];
     term_freqs := term_freqs d ++ [term_freq];
     doc_freqs := foldl (fun dfs p => if 0 <? snd p then incr dfs (fst p) else dfs)
                    (doc_freqs d) term_freq;
     avgdl := avgdl d; k1 := k1 d; b := b d; tokenizer_id := tokenizer_id d |}.

(** [upsert_document]: the file's content after it. *)
Definition upsert_document (doc_key : string) (term_freq : counts) (doc_len : Z) (now : string)
    (f : option content) : res content :=
  data ← read f;
  let data := match data with None => new_index | Some d => d end in
  p ← _remove_doc_from_data data doc_key;
  let data := append_doc (fst p) doc_key term_freq doc_len in
  avg ← average (doc_lens data);
  Ok (write now (set_avgdl data avg)).

(** [remove_document]: what it returns and the file after it. *)
Definition remove_document (doc_key : string) (now : string) (f : option content) :
    res (bool * option content) :=
  data ← read f;
  match data with
  | None => Ok (false, f)
  | Some data =>
      p ← _remove_doc_from_data data doc_key;
      if snd p : bool then
        avg ← average (doc_lens (fst p));
        Ok (true, Some (write now (set_avgdl (fst p) avg)))
      else Ok (false, f)
  end.

End Reading.

(** [replace_all]. *)
Definition replace_all (d : BM25IndexData) (now : string) : content := write now d.

(** ** Building *)

(** [tf[t] = tf.get(t, 0) + 1] over the tokens: [decompose_document], [BM25.__init__]. *)
Definition term_freq_of (tokens : list string) : counts := foldl incr [] tokens.

(** [BM25], the in-memory scorer's state. *)
Record BM25 := {
  _k1 : spec_float;
  _b : spec_float;
  _doc_count : Z;
  _doc_lens : list Z;
  _avgdl : spec_float;
  _term_freqs : list counts;
  _doc_freqs : counts }.

(** One document of the constructor's loop. *)
Definition init_step (p : list counts * counts) (doc : list string) : list counts * counts :=
  let tf := term_freq_of doc in (fst p ++ [tf], foldl incr (snd p) (dkeys tf)).

(** [BM25.__init__], with the default parameters. *)
Definition BM25_init (documents : list (list string)) : res BM25 :=
  let doc_count := Z.of_nat (length documents) in
  let lens := (fun d => Z.of_nat (length d)) <$> documents in
  avg ← py_int_truediv (sum_lens lens) (Z.max doc_count 1);
  let '(tfs, dfs) := foldl init_step ([], []) documents in
  Ok {| _k1 := default_k1; _b := default_b; _doc_count := doc_count; _doc_lens := lens;
        _avgdl := avg; _term_freqs := tfs; _doc_freqs := dfs |}.

(** [from_precomputed]. *)
Definition from_precomputed (tfs : list counts) (dfs : counts) (lens : list Z)
    (avg k1 b : spec_float) : BM25 :=
  {| _k1 := k1; _b := b; _doc_count := Z.of_nat (length lens); _doc_lens := lens; _avgdl := avg;
     _term_freqs := tfs; _doc_freqs := dfs |}.

(** The index [rebuild_index_cmd] of [cli/search.py] publishes for the extracted documents: the
    scorer's exported data ([to_precomputed]) under the documents' keys. *)
Definition rebuilt (docs : list (string * list string)) : res BM25IndexData :=
  bm ← BM25_init (snd <$> docs);
  Ok {| doc_keys := fst <$> docs; doc_lens := _doc_lens bm; term_freqs := _term_freqs bm;
        doc_freqs := _doc_freqs bm; avgdl := _avgdl bm; k1 := _k1 bm; b := _b bm;
        tokenizer_id := TOKENIZER_ID |}.

(** ** The reference specification *)

(** The updates of the index file. *)
Inductive op :=
| OUpsert (key : string) (tokens : list string) (now : string)
| ORemove (key : string) (now : string)
| ORebuild (docs : list (string * list string)) (now : string).

(** One update of the file: the indexing handler's upsert of a decomposed document, a
    removal, or a rebuild. *)
Definition step (py_str : value -> string) (path : string) (f : option content) (o : op) :
    res (option content) :=
  match o with
  | OUpsert key tokens now =>
      Some <$> upsert_document py_str path key (term_freq_of tokens)
                 (Z.of_nat (length tokens)) now f
  | ORemove key now => snd <$> remove_document py_str path key now f
  | ORebuild docs now => (fun d => Some (replace_all d now)) <$> rebuilt docs
  end.

(** The documents indexed after it, in index order. *)
Definition without (key : string) (docs : list (string * list string)) :=
  filter (fun p => fst p <> key) docs.

Definition spec_step (docs : list (string * list string)) (o : op) : list (string * list string) :=
  match o with
  | OUpsert key tokens _ => without key docs ++ [(key, tokens)]
  | ORemove key _ => without key docs
  | ORebuild docs _ => docs
  end.

(** Equal but for the order of the terms in [doc_freqs]. *)
Record index_equiv (d e : BM25IndexData) : Prop := {
  ie_keys : doc_keys d = doc_keys e;
  ie_lens : doc_lens d = doc_lens e;
  ie_tfs : term_freqs d = term_freqs e;
  ie_dfs : dict_equiv (doc_freqs d) (doc_freqs e);
  ie_avgdl : avgdl d = avgdl e;
  ie_k1 : k1 d = k1 e;
  ie_b : b d = b e;
  ie_tok : tokenizer_id d = tokenizer_id e }.

(** The number of documents that contain [term], absent at zero. *)
Definition containing (term : string) (tfs : list counts) : Z :=
  foldr (fun tf n => Z.b2z (dhas term tf) + n) 0 tfs.

Definition positive (n : Z) : option Z := if n <=? 0 then None else Some n.

(** A document's distinct keys and a size any transcript has. *)
Definition docs_ok (docs : list (string * list string)) : Prop :=
  NoDup (fst <$> docs) /\ Forall (fun p => Z.of_nat (length (snd p)) < 2 ^ 64) docs.

Definition op_ok (o : op) : Prop :=
  match o with
  | OUpsert _ tokens _ => Z.of_nat (length tokens) < 2 ^ 64
  | ORemove _ _ => True
  | ORebuild docs _ => docs_ok docs
  end.

Definition doc_len_of (p : string * list string) : Z := Z.of_nat (length (snd p)).

(** The index of the documents [docs]. *)
Record indexes (d : BM25IndexData) (docs : list (string * list string)) : Prop := {
  ix_keys : doc_keys d = fst <$> docs;
  ix_lens : doc_lens d = doc_len_of <$> docs;
  ix_tfs : term_freqs d = (fun p => term_freq_of (snd p)) <$> docs;
  ix_nodup : NoDup (dkeys (doc_freqs d));
  ix_dfs : forall t, dget t (doc_freqs d) = positive (containing t (term_freqs d));
  ix_avgdl : avgdl d = int_truediv (sum_lens (doc_lens d)) (Z.max (Z.of_nat (length docs)) 1);
  ix_k1 : k1 d = default_k1;
  ix_b : b d = default_b;
  ix_tok : tokenizer_id d = TOKENIZER_ID }.

(** ** Lemmas: counting *)

Lemma incr_nodup d t : NoDup (dkeys d) -> NoDup (dkeys (incr d t)).
Proof. apply NoDup_dset. Qed.

Lemma dget_incr t t' d :
  dget t (incr d t') = if decide (t = t') then Some (dget_default t' 0 d + 1) else dget t d.
Proof. apply dget_dset. Qed.

Lemma term_freq_inv tokens :
  NoDup (dkeys (term_freq_of tokens)) /\ Forall (fun p => 0 < snd p) (term_freq_of tokens).
Proof.
  unfold term_freq_of.
  assert (H : forall d, NoDup (dkeys d) /\ Forall (fun p => 0 < snd p) d ->
    NoDup (dkeys (foldl incr d tokens)) /\ Forall (fun p => 0 < snd p) (foldl incr d tokens)).
  { induction tokens as [|t tokens IH]; intros d Hd; simpl; [done|]. apply IH. clear IH.
    destruct Hd as [Hnd Hd]. split; [by apply incr_nodup|]. unfold incr.
    assert (0 < dget_default t 0 d + 1) as Hpos.
    { unfold dget_default. destruct (dget t d) as [n|] eqn:Hn; [|lia].
      apply dget_elem_of in Hn. rewrite Forall_forall in Hd. apply Hd in Hn. simpl in *. lia. }
    generalize dependent (dget_default t 0 d + 1). intros n Hn. clear Hnd.
    induction Hd as [|[k v] d Hv Hd IH]; simpl; [by repeat constructor|].
    case_match; constructor; auto. }
  apply H. split; constructor.
Qed.

(** Adding one document's terms. *)
Lemma foldl_incr ks d :
  NoDup ks -> forall t,
  dget t (foldl incr d ks) = if decide (t ∈ ks) then Some (dget_default t 0 d + 1) else dget t d.
Proof.
  intros Hnd. revert d. induction Hnd as [|k ks Hk Hnd IH]; intros d t; cbn [foldl].
  { by rewrite decide_False by apply not_elem_of_nil. }
  rewrite IH, dget_incr. unfold dget_default. rewrite dget_incr.
  repeat case_decide; set_solver.
Qed.

Lemma foldl_incr_nodup ks d : NoDup (dkeys d) -> NoDup (dkeys (foldl incr d ks)).
Proof. revert d. induction ks; simpl; auto using incr_nodup. Qed.

(** Removing them. *)
Lemma decr_nodup d t : NoDup (dkeys d) -> NoDup (dkeys (decr_doc_freq d t)).
Proof. intros. unfold decr_doc_freq. repeat case_match; auto using NoDup_dset, NoDup_ddel. Qed.

Lemma dget_decr t t' d :
  NoDup (dkeys d) ->
  dget t (decr_doc_freq d t') =
    if decide (t = t') then n ← dget t' d; positive (n - 1) else dget t d.
Proof.
  intros Hnd. unfold decr_doc_freq, positive.
  destruct (dget t' d) as [n|] eqn:Hn; simpl; [|case_decide; congruence].
  destruct (n - 1 <=? 0).
  - rewrite dget_ddel by auto using NoDup_dset. case_decide; [done|]. by rewrite dget_dset_ne.
  - apply dget_dset.
Qed.

Lemma foldl_decr ks d :
  NoDup ks -> NoDup (dkeys d) ->
  NoDup (dkeys (foldl decr_doc_freq d ks)) /\ forall t,
  dget t (foldl decr_doc_freq d ks) =
    if decide (t ∈ ks) then n ← dget t d; positive (n - 1) else dget t d.
Proof.
  intros Hks. revert d. induction Hks as [|k ks Hk Hks IH]; intros d Hd; cbn [foldl].
  { split; [done|]. intros t. by rewrite decide_False by apply not_elem_of_nil. }
  destruct (IH (decr_doc_freq d k)) as [Hnd Hget]; [by apply decr_nodup|].
  split; [done|]. intros t. rewrite Hget, dget_decr by done.
  repeat case_decide; subst; set_solver.
Qed.

Lemma dhas_keys {V} t (d : list (string * V)) : dhas t d = bool_decide (t ∈ dkeys d).
Proof.
  unfold dhas. destruct (dget t d) as [v|] eqn:Ht; symmetry.
  - apply bool_decide_eq_true. by eapply dget_Some_keys.
  - apply bool_decide_eq_false. by apply dget_None.
Qed.

Lemma containing_nonneg t tfs : 0 <= containing t tfs.
Proof. induction tfs as [|tf tfs IH]; simpl; [lia|]. destruct (dhas t tf); simpl; lia. Qed.

Lemma containing_app t l l' : containing t (l ++ l') = containing t l + containing t l'.
Proof. induction l; simpl; lia. Qed.

Lemma positive_default n : 0 <= n -> from_option id 0 (positive n) = n.
Proof. unfold positive. case_match; zbool; simpl; lia. Qed.

(** ** Lemmas: the file *)

Section File.

Context (py_str : value -> string) (path : string).

Lemma mapM_res_enumerate {A} (f : nat * value -> res A) (g : A -> value) l :
  (forall i a, f (i, g a) = Ok a) -> mapM_res f (enumerate (g <$> l)) = Ok l.
Proof.
  intros Hf. unfold enumerate. generalize 0%nat.
  induction l as [|a l IH]; intros n; [done|]. cbn [fmap list_fmap length seq zip zip_with mapM_res].
  rewrite Hf. specialize (IH (S n)). unfold mbind, res_bind in *. cbv beta iota.
  destruct (mapM_res f _) as [l'|]; [|done]. by injection IH as ->.
Qed.

Lemma read_counts_value what d :
  read_counts path what ((fun p => (fst p, VInt (snd p))) <$> d) = Ok d.
Proof.
  apply mapM_res_fmap. by intros [k n].
Qed.

(** A written index is read back. *)
Lemma read_write now d :
  length (doc_lens d) = length (doc_keys d) -> length (term_freqs d) = length (doc_keys d) ->
  tokenizer_id d = TOKENIZER_ID ->
  read py_str path (Some (write now d)) = Ok (Some d).
Proof.
  intros Hl Ht Hid. unfold read, write.
  set (data := dupdate _ (index_to_dict d)).
  assert (read_versioned_json_object py_str path (bm25_reader py_str path) (CJson (VDict data))
          = Ok data) as -> by reflexivity.
  assert (dget "tokenizer_id" data = Some (VStr TOKENIZER_ID)) as E0 by (by rewrite <- Hid).
  assert (dget "doc_keys" data = Some (VList (VStr <$> doc_keys d))) as E1 by done.
  assert (dget "doc_lens" data = Some (VList (VInt <$> doc_lens d))) as E2 by done.
  assert (dget "term_freqs" data = Some (VList (counts_value <$> term_freqs d))) as E3 by done.
  assert (dget "doc_freqs" data = Some (counts_value (doc_freqs d))) as E4 by done.
  assert (dget "avgdl" data = Some (VFloat (avgdl d))) as E5 by done.
  assert (dget "k1" data = Some (VFloat (k1 d))) as E6 by done.
  assert (dget "b" data = Some (VFloat (b d))) as E7 by done.
  clearbody data. rewrite res_bind_ok.
  unfold read_index, read_doc_freqs, read_list, dget_default, counts_value.
  rewrite E0, E1, E2, E3, E4, E5, E6, E7. clear E0 E1 E2 E3 E4 E5 E6 E7.
  change (py_eq _ _) with true. cbv beta iota delta [negb].
  repeat (rewrite res_bind_ok || rewrite mapM_res_enumerate by (intros; done || apply read_counts_value);
          cbv beta iota).
  unfold counts_value at 1. cbv beta iota. rewrite read_counts_value. simpl. rewrite Hl, Ht, Nat.eqb_refl. simpl.
  destruct d; simpl in *. by subst.
Qed.

End File.

(** ** Lemmas: removing and appending a document *)

Lemma index_of_None key l : key ∉ l -> index_of key l = None.
Proof.
  induction l as [|x l IH]; simpl; intros Hk; [done|].
  apply not_elem_of_cons in Hk as [Hx Hl]. rewrite (proj2 (String.eqb_neq x key)) by done.
  by rewrite IH.
Qed.

Lemma index_of_middle key l1 l2 : key ∉ l1 -> index_of key (l1 ++ key :: l2) = Some (length l1).
Proof.
  induction l1 as [|x l IH]; simpl; intros Hk; [by rewrite String.eqb_refl|].
  apply not_elem_of_cons in Hk as [Hx Hl]. rewrite (proj2 (String.eqb_neq x key)) by done.
  by rewrite IH.
Qed.

Lemma py_pop_middle {A} (l1 l2 : list A) x i :
  i = length l1 -> py_pop i (l1 ++ x :: l2) = Ok (l1 ++ l2).
Proof.
  intros ->. unfold py_pop. rewrite length_app. simpl.
  rewrite (proj2 (Nat.ltb_lt _ _)) by lia. by rewrite delete_middle.
Qed.

Lemma without_none key docs : key ∉ fst <$> docs -> without key docs = docs.
Proof.
  intros Hk. unfold without. induction docs as [|p docs IH]; [done|].
  rewrite fmap_cons, not_elem_of_cons in Hk. destruct Hk.
  rewrite filter_cons_True by done. by rewrite IH.
Qed.

Lemma without_not_in key docs : key ∉ fst <$> without key docs.
Proof.
  unfold without. intros (p & -> & Hp)%list_elem_of_fmap. by apply list_elem_of_filter in Hp as [? _].
Qed.

Lemma without_sub key docs : docs_ok docs -> docs_ok (without key docs).
Proof.
  intros [Hnd Hs]. split; unfold without.
  - by apply NoDup_fmap_filter.
  - rewrite Forall_forall in *. intros p [_ Hp]%list_elem_of_filter. by apply Hs.
Qed.

Lemma docs_ok_app key tokens docs :
  docs_ok docs -> key ∉ fst <$> docs -> Z.of_nat (length tokens) < 2 ^ 64 ->
  docs_ok (docs ++ [(key, tokens)]).
Proof.
  intros [Hnd Hs] Hk Ht. split; [|by apply Forall_app; repeat constructor].
  rewrite fmap_app. simpl. apply NoDup_app. split; [done|]. split; [set_solver|apply NoDup_singleton].
Qed.

(** The part of [indexes] that does not concern [avgdl]. *)
Definition contents (d : BM25IndexData) (docs : list (string * list string)) : Prop :=
  doc_keys d = fst <$> docs /\ doc_lens d = doc_len_of <$> docs /\
  term_freqs d = (fun p => term_freq_of (snd p)) <$> docs /\ NoDup (dkeys (doc_freqs d)) /\
  (forall t, dget t (doc_freqs d) = positive (containing t (term_freqs d))) /\
  k1 d = default_k1 /\ b d = default_b /\ tokenizer_id d = TOKENIZER_ID.

Lemma indexes_contents d docs : indexes d docs -> contents d docs.
Proof. by intros []. Qed.

Lemma remove_present d l1 key tokens l2 :
  contents d (l1 ++ (key, tokens) :: l2) -> key ∉ fst <$> l1 ->
  exists d', _remove_doc_from_data d key = Ok (d', true) /\ contents d' (l1 ++ l2).
Proof.
  intros (Hk & Hl & Ht & Hnd & Hdf & Hrest) Hnot. unfold _remove_doc_from_data.
  rewrite Ht in Hdf. rewrite Hk, Hl, Ht, !fmap_app, !fmap_cons. simpl fst. simpl snd.
  rewrite index_of_middle by done. rewrite length_fmap.
  rewrite list_lookup_middle by (by rewrite length_fmap).
  repeat (rewrite res_bind_ok || rewrite py_pop_middle by (by rewrite length_fmap)). eexists. split; [done|]. unfold contents. simpl. rewrite !fmap_app.
  destruct (term_freq_inv tokens) as [Hndt _].
  destruct (foldl_decr (dkeys (term_freq_of tokens)) (doc_freqs d) Hndt Hnd) as [Hnd' Hget].
  split_and!; try done; try apply Hrest. intros t. rewrite Hget, Hdf, fmap_app, fmap_cons.
  rewrite !containing_app. simpl. rewrite dhas_keys.
  pose proof (containing_nonneg t ((fun p => term_freq_of p.2) <$> l1)).
  pose proof (containing_nonneg t ((fun p => term_freq_of p.2) <$> l2)).
  case_decide as Hin.
  - rewrite bool_decide_true by done. unfold positive at 2. simpl Z.b2z.
    rewrite (proj2 (Z.leb_gt _ _)) by lia. simpl. f_equal. lia.
  - by rewrite bool_decide_false.
Qed.

Lemma remove_contents d key docs :
  contents d docs -> NoDup (fst <$> docs) ->
  exists d', _remove_doc_from_data d key = Ok (d', bool_decide (key ∈ fst <$> docs)) /\
    contents d' (without key docs).
Proof.
  intros Hd Hnd. destruct (decide (key ∈ fst <$> docs)) as [Hin|Hin].
  - rewrite bool_decide_true by done.
    apply list_elem_of_fmap in Hin as ([k tokens] & -> & (l1 & l2 & ->)%list_elem_of_split).
    simpl in *. rewrite fmap_app, fmap_cons in Hnd. simpl in Hnd.
    apply NoDup_app in Hnd as (_ & Hdis & Hnd2). apply NoDup_cons in Hnd2 as [Hk2 _].
    assert (k ∉ fst <$> l1) by (intros Hk; eapply Hdis; [done|by left]).
    unfold without. rewrite filter_app, filter_cons_False by (simpl; congruence).
    fold (without k l1) (without k l2). rewrite !without_none by done.
    by eapply remove_present.
  - rewrite bool_decide_false by done. rewrite without_none by done. exists d. split; [|done].
    unfold _remove_doc_from_data. destruct Hd as (-> & _). by rewrite index_of_None.
Qed.

Lemma foldl_positive tf dfs :
  Forall (fun p => 0 < snd p) tf ->
  foldl (fun dfs p => if 0 <? snd p then incr dfs (fst p) else dfs) dfs tf
  = foldl incr dfs (dkeys tf).
Proof.
  revert dfs. induction tf as [|[k n] tf IH]; intros dfs H; simpl; [done|].
  inversion H; subst; simpl in *. rewrite (proj2 (Z.ltb_lt _ _)) by done. by apply IH.
Qed.

(** The effect of one document's terms on the document counts. *)
Lemma add_terms tfs dfs tokens :
  NoDup (dkeys dfs) -> (forall t, dget t dfs = positive (containing t tfs)) ->
  let dfs' := foldl incr dfs (dkeys (term_freq_of tokens)) in
  NoDup (dkeys dfs') /\
  forall t, dget t dfs' = positive (containing t (tfs ++ [term_freq_of tokens])).
Proof.
  intros Hnd Hget dfs'. subst dfs'. split; [by apply foldl_incr_nodup|]. intros t.
  destruct (term_freq_inv tokens) as [Hndt _].
  rewrite foldl_incr, containing_app by done. simpl. rewrite dhas_keys, Z.add_0_r.
  pose proof (containing_nonneg t tfs). case_decide.
  - rewrite bool_decide_true by done. unfold dget_default. rewrite Hget. simpl Z.b2z.
    unfold positive. repeat case_match; zbool; simplify_eq; try lia; f_equal; lia.
  - rewrite bool_decide_false by done. rewrite Hget. f_equal. simpl. lia.
Qed.

Lemma append_contents d docs key tokens :
  contents d docs ->
  contents (append_doc d key (term_freq_of tokens) (Z.of_nat (length tokens)))
    (docs ++ [(key, tokens)]).
Proof.
  intros (Hk & Hl & Ht & Hnd & Hdf & Hrest). unfold contents. simpl.
  destruct (term_freq_inv tokens) as [_ Hpos]. rewrite foldl_positive by done.
  destruct (add_terms (term_freqs d) (doc_freqs d) tokens Hnd Hdf) as [Hnd' Hget].
  rewrite !fmap_app. simpl. rewrite Hk, Hl. split_and!; try done; try apply Hrest. by rewrite Ht.
Qed.

(** ** Lemmas: the steps *)

Lemma sum_lens_bound docs :
  Forall (fun p => Z.of_nat (length (snd p)) < 2 ^ 64) docs ->
  0 <= sum_lens (doc_len_of <$> docs) <= 2 ^ 64 * Z.of_nat (length docs).
Proof.
  unfold sum_lens. induction 1 as [|p docs Hp _ IH]; [done|].
  rewrite fmap_cons. cbn [foldr length]. unfold doc_len_of at 1 3. lia.
Qed.

Lemma truediv_docs docs :
  docs_ok docs ->
  py_int_truediv (sum_lens (doc_len_of <$> docs)) (Z.max (Z.of_nat (length docs)) 1)
  = Ok (int_truediv (sum_lens (doc_len_of <$> docs)) (Z.max (Z.of_nat (length docs)) 1)).
Proof.
  intros [_ Hs]. apply sum_lens_bound in Hs. apply py_int_truediv_ok; [lia|].
  assert (2 ^ 64 < 2 ^ 1000) by (vm_compute; reflexivity). nia.
Qed.

Lemma average_ok d docs :
  docs_ok docs -> contents d docs ->
  exists avg, average (doc_lens d) = Ok avg /\ indexes (set_avgdl d avg) docs.
Proof.
  intros Hok (Hk & Hl & Ht & Hnd & Hdf & Hk1 & Hb & Hid). unfold average.
  rewrite Hl, length_fmap, truediv_docs by done. eexists. split; [done|].
  split; simpl; rewrite ?Hl; done.
Qed.

Lemma BM25_init_fold docs tfs dfs :
  NoDup (dkeys dfs) -> (forall t, dget t dfs = positive (containing t tfs)) ->
  exists dfs',
    foldl init_step (tfs, dfs) docs = (tfs ++ (term_freq_of <$> docs), dfs') /\
    NoDup (dkeys dfs') /\
    forall t, dget t dfs' = positive (containing t (tfs ++ (term_freq_of <$> docs))).
Proof.
  revert tfs dfs. induction docs as [|doc docs IH]; intros tfs dfs Hnd Hget; cbn [foldl].
  { rewrite app_nil_r. eauto. }
  destruct (add_terms tfs dfs doc Hnd Hget) as [Hnd' Hget'].
  destruct (IH _ _ Hnd' Hget') as (dfs' & Heq & Hrest). exists dfs'.
  assert (tfs ++ (term_freq_of <$> doc :: docs) = (tfs ++ [term_freq_of doc]) ++ (term_freq_of <$> docs))
    as -> by (by rewrite <- app_assoc).
  by rewrite <- Heq.
Qed.

Lemma rebuilt_ok docs : docs_ok docs -> exists r, rebuilt docs = Ok r /\ indexes r docs.
Proof.
  intros Hok. unfold rebuilt, BM25_init. rewrite length_fmap.
  assert (((fun d : list string => Z.of_nat (length d)) <$> (snd <$> docs)) = doc_len_of <$> docs)
    as Hlens by (rewrite <- list_fmap_compose; done).
  rewrite Hlens, truediv_docs, res_bind_ok by done.
  destruct (BM25_init_fold (snd <$> docs) [] []) as (dfs & -> & Hnd & Hget);
    [constructor|done|].
  simpl app in *. rewrite res_bind_ok. eexists. split; [done|].
  split; simpl; try done. by rewrite <- list_fmap_compose.
Qed.

Lemma indexes_equiv d r docs : indexes d docs -> indexes r docs -> index_equiv d r.
Proof.
  intros [] []. split; congruence.
Qed.

(** A file that holds the index of [docs]. *)
Definition file_indexes (py_str : value -> string) (path : string) (f : option content)
    (docs : list (string * list string)) : Prop :=
  match f with
  | None => docs = []
  | Some _ => exists d, read py_str path f = Ok (Some d) /\ indexes d docs
  end.

Lemma write_indexes py_str path now d docs :
  indexes d docs -> file_indexes py_str path (Some (write now d)) docs.
Proof.
  intros Hd. exists d. split; [|done]. destruct Hd.
  apply read_write; [by rewrite ix_lens0, ix_keys0, !length_fmap
                    | by rewrite ix_tfs0, ix_keys0, !length_fmap | done].
Qed.

Lemma read_contents py_str path f docs :
  file_indexes py_str path f docs ->
  exists o, read py_str path f = Ok o /\
    contents (match o with None => new_index | Some d => d end) docs /\
    (o = None -> f = None).
Proof.
  destruct f as [c|]; simpl.
  - intros (d & -> & Hd). exists (Some d). split_and!; [done|by apply indexes_contents|done].
  - intros ->. exists None. split_and!; [done| |done]. unfold contents. simpl. split_and!; done || constructor.
Qed.

Lemma step_indexes py_str path f docs o :
  file_indexes py_str path f docs -> docs_ok docs -> op_ok o ->
  exists f', step py_str path f o = Ok f' /\ file_indexes py_str path f' (spec_step docs o) /\
    docs_ok (spec_step docs o).
Proof.
  intros Hf Hok Ho. destruct (read_contents _ _ _ _ Hf) as (r & Hr & Hc & Hnone).
  destruct o as [key tokens now|key now|docs' now]; simpl in *.
  - pose proof (docs_ok_app key tokens (without key docs) (without_sub key docs Hok)
                  (without_not_in key docs) Ho) as Hok'.
    unfold upsert_document. rewrite Hr, res_bind_ok.
    destruct (remove_contents _ key docs Hc (proj1 Hok)) as (d' & -> & Hc').
    rewrite res_bind_ok. simpl fst. apply (append_contents _ _ key tokens) in Hc'.
    destruct (average_ok _ _ Hok' Hc') as (avg & -> & Hi). rewrite res_bind_ok.
    eexists. split; [done|]. split; [by apply write_indexes|done].
  - unfold remove_document. rewrite Hr, res_bind_ok. pose proof (without_sub key docs Hok) as Hok'.
    destruct r as [d|].
    + destruct (remove_contents _ key docs Hc (proj1 Hok)) as (d' & -> & Hc'). rewrite res_bind_ok.
      simpl. destruct (bool_decide (key ∈ docs.*1)) eqn:Hin.
      * destruct (average_ok _ _ Hok' Hc') as (avg & -> & Hi). rewrite res_bind_ok.
        eexists. split; [done|]. split; [by apply write_indexes|done].
      * apply bool_decide_eq_false in Hin. rewrite without_none by done. eauto.
    + rewrite Hnone in * by done. simpl in *. subst. eexists. split; [done|]. by split.
  - destruct (rebuilt_ok docs' Ho) as (d & -> & Hd). eexists. split; [done|].
    split; [by apply write_indexes|done].
Qed.

Lemma run_indexes py_str path ops f docs :
  file_indexes py_str path f docs -> docs_ok docs -> Forall op_ok ops ->
  exists f', foldM_res (step py_str path) f ops = Ok f' /\
    file_indexes py_str path f' (foldl spec_step docs ops) /\ docs_ok (foldl spec_step docs ops).
Proof.
  intros Hf Hok Hops. revert f docs Hf Hok.
  induction Hops as [|o ops Ho _ IH]; intros f docs Hf Hok; simpl; [eauto|].
  destruct (step_indexes _ _ _ _ _ Hf Hok Ho) as (f1 & -> & Hf1 & Hok1). rewrite res_bind_ok. auto.
Qed.

Lemma docs_ok_nil : docs_ok [].
Proof. split; constructor. Qed.

(** ** Lemmas: errors *)

(** The classes a read can raise. *)
Definition read_error_classes : list exn_class :=
  [BM25IndexCorruptedError; BM25IndexUnreadableError; SchemaVersionError; UnicodeDecodeError;
   OverflowError].

(** [r] raises nothing but exceptions of the classes [cs]. *)
Definition raises_in {A} (cs : list exn_class) (r : res A) : Prop := raises_only (.∈ cs) r.

Lemma raises_in_bind {A B} cs (m : res A) (f : A -> res B) :
  raises_in cs m -> (forall a, m = Ok a -> raises_in cs (f a)) -> raises_in cs (m ≫= f).
Proof. apply raises_only_bind. Qed.

Lemma raises_in_mapM {A B} cs (f : A -> res B) l :
  (forall a, raises_in cs (f a)) -> raises_in cs (mapM_res f l).
Proof.
  intros Hf. destruct (mapM_res f l) as [|e] eqn:Hm; [done|].
  apply mapM_res_err in Hm as (a & _ & Ha). specialize (Hf a). by rewrite Ha in Hf.
Qed.

Lemma raises_in_corruption {A} path reason :
  raises_in read_error_classes (@_raise_bm25_corruption A path reason).
Proof. simpl. set_solver. Qed.

Lemma raises_in_read_counts path what d : raises_in read_error_classes (read_counts path what d).
Proof. apply raises_in_mapM. intros [k []]; simpl; done || set_solver. Qed.

Lemma raises_in_wrap {A} path (r : res A) :
  raises_in [TypeError; ValueError; OverflowError] r ->
  raises_in read_error_classes (wrap_invalid path r).
Proof.
  destruct r as [|e]; simpl; [done|]. intros He. case_bool_decide; simpl; [set_solver|].
  unfold read_error_classes. set_solver.
Qed.

Lemma raises_in_py_float v : raises_in [TypeError; ValueError; OverflowError] (py_float v).
Proof.
  destruct v; simpl; try set_solver; try done.
  - unfold py_float_of_int. case_match; simpl; set_solver.
  - unfold py_float_of_int. case_match; simpl; set_solver.
  - unfold float_of_str. repeat case_match; simpl; set_solver.
Qed.

Lemma raises_in_read_list path name data :
  raises_in read_error_classes (read_list path name data).
Proof. unfold read_list. case_match; done || apply raises_in_corruption. Qed.

Lemma raises_in_read_index py_str path data :
  raises_in read_error_classes (read_index py_str path data).
Proof.
  unfold read_index. case_match; [simpl; set_solver|].
  repeat (apply raises_in_bind; [|intros ? _]).
  1,3,5: apply raises_in_read_list.
  1-3: apply raises_in_mapM; intros [i []];
    first [exact I | apply raises_in_corruption | apply raises_in_read_counts].
  - unfold read_doc_freqs. case_match; first [apply raises_in_read_counts | apply raises_in_corruption].
  - apply raises_in_wrap. repeat (apply raises_in_bind; [apply raises_in_py_float|intros ? _]). done.
  - case_match; simpl; [set_solver|done].
Qed.

Lemma raises_in_read py_str path f : raises_in read_error_classes (read py_str path f).
Proof.
  destruct f as [[e|e|e|v]|]; simpl; try set_solver; try done.
  apply raises_in_bind.
  - destruct v; simpl; try set_solver. repeat case_match; simpl; set_solver.
  - intros data _. pose proof (raises_in_read_index py_str path data).
    by destruct (read_index py_str path data).
Qed.

(** The alignment [read] checks. *)
Definition aligned (d : BM25IndexData) : Prop :=
  length (doc_lens d) = length (doc_keys d) /\ length (term_freqs d) = length (doc_keys d) /\
  tokenizer_id d = TOKENIZER_ID.

Lemma wrap_invalid_ok {A} path (r : res A) a : wrap_invalid path r = Ok a -> r = Ok a.
Proof. destruct r; simpl; [done|]. by case_match. Qed.

Lemma read_index_aligned py_str path data d : read_index py_str path data = Ok d -> aligned d.
Proof.
  unfold read_index. case_match; [done|]. intros Hr.
  repeat match type of Hr with
  | (?m ≫= _) = Ok _ => destruct m eqn:?; [rewrite res_bind_ok in Hr|done]
  end.
  case_match eqn:Hlen; [done|]. simplify_eq.
  apply orb_false_iff in Hlen as [H1%negb_false_iff H2%negb_false_iff].
  apply Nat.eqb_eq in H1, H2. split_and!; [done..|].
  match goal with Hw : wrap_invalid _ _ = Ok _ |- _ => rename Hw into Hwrap end.
  apply wrap_invalid_ok in Hwrap. by res_inv Hwrap.
Qed.

Lemma read_aligned py_str path f d : read py_str path f = Ok (Some d) -> aligned d.
Proof.
  destruct f as [c|]; [|done]. simpl. intros H.
  destruct (read_versioned_json_object _ _ _ c) as [data|]; [|done]. rewrite res_bind_ok in H.
  destruct (read_index py_str path data) eqn:Hi; [|done].
  unfold fmap, res_fmap in H. simplify_eq. by eapply read_index_aligned.
Qed.

Lemma index_of_Some key l i : index_of key l = Some i -> (i < length l)%nat.
Proof.
  revert i. induction l as [|x l IH]; intros i; simpl; [done|].
  case_match; [intros; simplify_eq; lia|]. destruct (index_of key l) as [j|]; simpl; [|done].
  intros; simplify_eq. specialize (IH j eq_refl). lia.
Qed.

Lemma py_pop_in_range {A} i (l : list A) : (i < length l)%nat -> py_pop i l = Ok (delete i l).
Proof. intros Hi. unfold py_pop. by rewrite (proj2 (Nat.ltb_lt _ _)). Qed.

(** On an aligned index the removal does not raise, and keeps it aligned. *)
Lemma remove_aligned d key :
  aligned d -> exists d' r, _remove_doc_from_data d key = Ok (d', r) /\ aligned d'.
Proof.
  intros (Hl & Ht & Hid). unfold _remove_doc_from_data.
  destruct (index_of key (doc_keys d)) as [i|] eqn:Hi; [|by exists d, false].
  apply index_of_Some in Hi.
  destruct (lookup_lt_is_Some_2 (term_freqs d) i) as [tf ->]; [lia|].
  repeat (rewrite res_bind_ok || rewrite py_pop_in_range by lia).
  eexists _, _. split; [done|]. unfold aligned. simpl.
  rewrite !length_delete by (apply lookup_lt_is_Some_2; lia). split_and!; done || lia.
Qed.

Lemma raises_in_average lens : raises_in read_error_classes (average lens).
Proof.
  unfold average, py_int_truediv. rewrite (proj2 (Z.eqb_neq _ _)) by lia.
  case_match; simpl; [set_solver|done].
Qed.

(** ** Properties *)

(** C25: Starting without an index file, any sequence of upserts, removals and rebuilds
    succeeds, and the index then read from the file is, document for document, the one a
    rebuild over the currently indexed documents would publish: same keys, lengths, term
    frequencies, average length and parameters, and the same document frequency of every
    term. *)
Theorem incremental_matches_rebuild py_str path ops :
  Forall op_ok ops ->
  exists f, foldM_res (step py_str path) None ops = Ok f /\
    let docs := foldl spec_step [] ops in
    match f with
    | None => docs = []
    | Some _ => exists d r, read py_str path f = Ok (Some d) /\ rebuilt docs = Ok r /\ index_equiv d r
    end.
Proof.
  intros Hops. destruct (run_indexes py_str path ops None [] eq_refl docs_ok_nil Hops)
    as (f & Hf & Hi & Hok).
  exists f. split; [done|]. destruct f as [c|]; [|done]. destruct Hi as (d & Hd & Hi).
  destruct (rebuilt_ok _ Hok) as (r & Hr & Hri). exists d, r. eauto using indexes_equiv.
Qed.

Lemma dget_term_freq_of tokens t :
  dget t (term_freq_of tokens) = positive (Z.of_nat (count_occ String.string_dec tokens t)).
Proof.
  unfold term_freq_of.
  assert (H : forall d, dget_default t 0 d >= 0 -> (dget t d = positive (dget_default t 0 d)) ->
    dget t (foldl incr d tokens)
    = positive (dget_default t 0 d + Z.of_nat (count_occ String.string_dec tokens t))).
  { induction tokens as [|x tokens IH]; intros d H0 Hd; cbn [foldl count_occ].
    { by rewrite Z.add_0_r. }
    destruct (String.string_dec x t) as [->|Hne]; rewrite IH; clear IH;
      unfold dget_default in *; rewrite ?dget_incr, ?decide_True, ?decide_False by congruence;
      unfold dget_default in *; try done; try f_equal; try lia.
    unfold positive. by rewrite (proj2 (Z.leb_gt _ _)) by lia. }
  apply H; done.
Qed.

Lemma containing_docs t docs :
  containing t ((fun p : string * list string => term_freq_of (snd p)) <$> docs)
  = Z.of_nat (length (filter (fun p => t ∈ snd p) docs)).
Proof.
  induction docs as [|[k tokens] docs IH]; [done|]. rewrite fmap_cons. cbn [containing foldr].
  fold (containing t ((fun p : string * list string => term_freq_of (snd p)) <$> docs)).
  rewrite IH. unfold dhas. simpl snd. rewrite dget_term_freq_of. unfold positive.
  pose proof (count_occ_In String.string_dec tokens t) as Hin. rewrite <- list_elem_of_In in Hin.
  destruct (decide (t ∈ tokens)) as [Ht|Ht].
  - rewrite filter_cons_True by done. apply Hin in Ht.
    rewrite (proj2 (Z.leb_gt _ _)) by lia. simpl. lia.
  - rewrite filter_cons_False by done.
    rewrite (proj2 (Z.leb_le _ _)); [simpl; lia|]. destruct (count_occ _ tokens t); [lia|].
    exfalso. apply Ht, Hin. lia.
Qed.

(** After any sequence of updates the stored counts are exact: [term_freqs[i][t]] is the
    number of occurrences of [t] in the document at position [i], and [doc_freqs[t]] is the
    number of indexed documents that contain [t]; neither holds an entry for a count of
    zero. *)
Theorem stored_counts_exact py_str path ops f d :
  Forall op_ok ops ->
  foldM_res (step py_str path) None ops = Ok f -> read py_str path f = Ok (Some d) ->
  let docs := foldl spec_step [] ops in
  Forall2 (fun tf p => forall t,
             dget t tf = positive (Z.of_nat (count_occ String.string_dec (snd p) t)))
    (term_freqs d) docs /\
  forall t, dget t (doc_freqs d)
            = positive (Z.of_nat (length (filter (fun p => t ∈ snd p) docs))).
Proof.
  intros Hops Hrun Hread docs.
  destruct (run_indexes py_str path ops None [] eq_refl docs_ok_nil Hops) as (f' & Hf & Hi & _).
  assert (f' = f) as -> by congruence. clear Hf.
  destruct f as [c|]; [|done]. destruct Hi as (d' & Hd & Hi).
  assert (d' = d) as -> by congruence. fold docs in Hi. destruct Hi. split.
  - rewrite ix_tfs0. apply Forall2_fmap_l, Forall_Forall2_diag, Forall_true.
    intros p t. apply dget_term_freq_of.
  - intros t. by rewrite ix_dfs0, ix_tfs0, containing_docs.
Qed.

(** Indexing a document again, as a retried work-queue marker does, leaves the same
    index as indexing it once. *)
Theorem upsert_idempotent py_str path ops key tokens now now' f1 f2 :
  Forall op_ok ops -> Z.of_nat (length tokens) < 2 ^ 64 ->
  foldM_res (step py_str path) None (ops ++ [OUpsert key tokens now]) = Ok f1 ->
  foldM_res (step py_str path) None
    (ops ++ [OUpsert key tokens now; OUpsert key tokens now']) = Ok f2 ->
  exists d1 d2, read py_str path f1 = Ok (Some d1) /\ read py_str path f2 = Ok (Some d2) /\
    index_equiv d2 d1.
Proof.
  intros Hops Hlen H1 H2.
  destruct (run_indexes py_str path (ops ++ [OUpsert key tokens now]) None [] eq_refl docs_ok_nil)
    as (f1' & Hf1 & Hi1 & _); [by apply Forall_app; repeat constructor|].
  destruct (run_indexes py_str path (ops ++ [OUpsert key tokens now; OUpsert key tokens now'])
              None [] eq_refl docs_ok_nil)
    as (f2' & Hf2 & Hi2 & _); [by apply Forall_app; repeat constructor|].
  assert (f1' = f1) as -> by congruence. assert (f2' = f2) as -> by congruence.
  rewrite foldl_app in Hi1, Hi2. cbn [foldl spec_step] in Hi1, Hi2.
  set (docs := without key (foldl spec_step [] ops)) in *.
  assert (without key (docs ++ [(key, tokens)]) = docs) as Heq.
  { unfold without at 1. rewrite filter_app, filter_cons_False by (simpl; congruence).
    fold (without key docs). rewrite without_none by apply without_not_in. apply app_nil_r. }
  rewrite Heq in Hi2.
  destruct f1 as [c1|]; [|by destruct docs]. destruct f2 as [c2|]; [|by destruct docs].
  destruct Hi1 as (d1 & ? & ?), Hi2 as (d2 & ? & ?). exists d1, d2. eauto using indexes_equiv.
Qed.

(** Whatever the index file holds, an upsert either succeeds or raises one of the
    store's errors, a decoding error or an overflow: an index that passes [read]'s checks never
    makes the positional arrays go out of step. *)
Theorem upsert_errors py_str path key tf len now f :
  match upsert_document py_str path key tf len now f with
  | Ok c => exists d, read py_str path (Some c) = Ok (Some d) /\ last (doc_keys d) = Some key
  | Err e => exn_cls e ∈ read_error_classes
  end.
Proof.
  unfold upsert_document. pose proof (raises_in_read py_str path f) as Hread.
  destruct (read py_str path f) as [o|e] eqn:Hr; [|done]. rewrite res_bind_ok.
  set (d0 := match o with None => new_index | Some d => d end).
  assert (aligned d0) as Hal by (destruct o; [by eapply read_aligned|done]).
  destruct (remove_aligned d0 key Hal) as (d1 & r & -> & Hl & Ht & Hid).
  rewrite res_bind_ok. simpl fst.
  pose proof (raises_in_average (doc_lens (append_doc d1 key tf len))) as Havg.
  destruct (average _) as [avg|e]; [|done]. rewrite res_bind_ok. eexists. split.
  - apply read_write; simpl; rewrite ?length_app; simpl; done || lia.
  - simpl. apply last_snoc.
Qed.

(** ** Witnesses *)

Module IndexSample.

Definition ops : list op :=
  [OUpsert "/a.jsonl" ["forge"; "queue"; "forge"] "t1"; OUpsert "/b.jsonl" ["queue"] "t2";
   OUpsert "/a.jsonl" ["policy"] "t3"; ORemove "/c.jsonl" "t4";
   ORebuild [("/b.jsonl", ["queue"; "lock"]); ("/a.jsonl", ["lock"])] "t5"].

Lemma ops_ok : Forall op_ok ops.
Proof.
  repeat apply Forall_cons_2; try apply Forall_nil_2; simpl; try done.
  split; [by apply (bool_decide_unpack _) | by repeat constructor].
Defined.

Definition file (ops : list op) : option content :=
  match foldM_res (step (fun _ => "") "idx") None ops with Ok f => f | Err _ => None end.

Definition index (ops : list op) : BM25IndexData :=
  match read (fun _ => "") "idx" (file ops) with Ok (Some d) => d | _ => new_index end.

Lemma incremental_witness :
  Forall op_ok ops /\
  exists f, foldM_res (step (fun _ => "") "idx") None ops = Ok f /\
    let docs := foldl spec_step [] ops in
    match f with
    | None => docs = []
    | Some _ => exists d r, read (fun _ => "") "idx" f = Ok (Some d) /\ rebuilt docs = Ok r /\ index_equiv d r
    end.
Proof. split; [exact ops_ok | exact (incremental_matches_rebuild _ _ ops ops_ok)]. Defined.

Lemma stored_counts_witness :
  let docs := foldl spec_step [] (take 3 ops) in
  Forall2 (fun tf p => forall t,
             dget t tf = positive (Z.of_nat (count_occ String.string_dec (snd p) t)))
    (term_freqs (index (take 3 ops))) docs /\
  forall t, dget t (doc_freqs (index (take 3 ops)))
            = positive (Z.of_nat (length (filter (fun p => t ∈ snd p) docs))).
Proof.
  apply (stored_counts_exact (fun _ => "") "idx" (take 3 ops) (file (take 3 ops)));
    [apply Forall_take; exact ops_ok | vm_compute; reflexivity | vm_compute; reflexivity].
Defined.

Lemma upsert_idempotent_witness :
  let o1 := OUpsert "/b.jsonl" ["lock"; "lock"] "t6" in
  let o2 := OUpsert "/b.jsonl" ["lock"; "lock"] "t7" in
  exists d1 d2, read (fun _ => "") "idx" (file (ops ++ [o1])) = Ok (Some d1) /\
    read (fun _ => "") "idx" (file (ops ++ [o1; o2])) = Ok (Some d2) /\ index_equiv d2 d1.
Proof.
  apply (upsert_idempotent (fun _ => "") "idx" ops "/b.jsonl" ["lock"; "lock"] "t6" "t7");
    [exact ops_ok | vm_compute; reflexivity | vm_compute; reflexivity | vm_compute; reflexivity].
Defined.

End IndexSample.
