(* ===== verification/SearchEngine.v ===== *)
(** * SearchEngine: tokens, scores, ranking and snippets

    [src/forge/search/tokenizer.py] and [search/engine.py]. A [str] is handled as its list
    of characters ([utf8_chars]); scores are binary64 floats computed operation by operation
    in the code's order; [math.log] is an argument of the definitions that use it, and the
    content loader and the metadata mapping are the query's arguments.

    The index the engine scores is [SearchIndex]'s: a query answered from the incrementally
    maintained index is answered as from a rebuilt one ([search_same_as_rebuild]). *)

From S2P Require Import Prelude PyValue PyFloat StateIO Regex SearchIndex.
From Stdlib Require Import SpecFloat.

(** ** Tokens *)

Definition MIN_TOKEN_LENGTH : Z := 2.

(** A character of [TOKEN_RE]: [[a-zA-Z0-9_]]. *)
Definition is_token_char (c : string) : bool :=
  match c with
  | String a EmptyString =>
      let n := Z.of_nat (nat_of_ascii a) in
      ((97 <=? n) && (n <=? 122)) || ((65 <=? n) && (n <=? 90)) || ((48 <=? n) && (n <=? 57))
      || (n =? 95)
  | _ => false
  end.

(** [TOKEN_RE.finditer]: the maximal runs of token characters and where they start. [cur] is
    the run being read. *)
Fixpoint finditer (pos : nat) (cur : option (nat * string)) (l : list string) : list (nat * string) :=
  match l with
  | [] => option_list cur
  | c :: l =>
      if is_token_char c then
        finditer (S pos) (Some (match cur with Some (s, w) => (s, w +++ c) | None => (pos, c) end)) l
      else option_list cur ++ finditer (S pos) None l
  end.

(** [tokenize]. *)
Definition tokenize (text : string) : list string :=
  filter (fun m => MIN_TOKEN_LENGTH <= py_len m) (snd <$> finditer 0 None (lower (utf8_chars text))).

(** ** Scores *)

(** Float division raises on a zero divisor. *)
Definition py_float_div (a b : spec_float) : res spec_float :=
  match b with
  | S754_zero _ => raise ZeroDivisionError "float division by zero"
  | _ => Ok (float_div a b)
  end.

Definition float_sub : spec_float -> spec_float -> spec_float := SFsub 53 1024.
Definition half : spec_float := int_truediv 1 2.
Definition one : spec_float := float_of_Z 1.

Section Scoring.

(** [math.log]. *)
Variable math_log : spec_float -> res spec_float.

(** [math.log((N - df + 0.5) / (df + 0.5) + 1.0)]. *)
Definition idf (n df : Z) : res spec_float :=
  ndf ← py_float_of_int (n - df);
  fdf ← py_float_of_int df;
  q ← py_float_div (float_add ndf half) (float_add fdf half);
  math_log (float_add q one).

(** [(tf * (k1 + 1)) / (tf + k1 * (1 - b + b * dl / avgdl))]. *)
Definition tf_norm (bm : BM25) (tf dl : Z) : res spec_float :=
  ftf ← py_float_of_int tf;
  fdl ← py_float_of_int dl;
  r ← py_float_div (float_mul (_b bm) fdl) (_avgdl bm);
  py_float_div (float_mul ftf (float_add (_k1 bm) one))
    (float_add ftf (float_mul (_k1 bm) (float_add (float_sub one (_b bm)) r))).

(** The body of the inner loop for document [i]: [scores[i]] after it. *)
Definition score_doc (bm : BM25) (term : string) (w : spec_float) (i : nat) (s : spec_float) :
    res spec_float :=
  tfs ← match _term_freqs bm !! i with
        | Some d => Ok d
        | None => raise IndexError "list index out of range"
        end;
  let tf := dget_default term 0 tfs in
  if tf =? 0 then Ok s
  else
    dl ← match _doc_lens bm !! i with
         | Some n => Ok n
         | None => raise IndexError "list index out of range"
         end;
    norm ← tf_norm bm tf dl;
    Ok (float_add s (float_mul w norm)).

(** The outer loop's body for one query term. *)
Definition score_term (bm : BM25) (scores : list spec_float) (term : string) : res (list spec_float) :=
  match dget term (_doc_freqs bm) with
  | None => Ok scores
  | Some df =>
      w ← idf (_doc_count bm) df;
      mapM_res (fun p => score_doc bm term w (fst p) (snd p)) (enumerate scores)
  end.

(** [BM25.score]. *)
Definition score (bm : BM25) (query : list string) : res (list spec_float) :=
  foldM_res (score_term bm) (replicate (Z.to_nat (_doc_count bm)) float_zero) query.

End Scoring.

(** ** Snippets *)

Definition SNIPPET_LENGTH : Z := 300.
Definition DEFAULT_LIMIT : Z := 10.

(** [l[:n]], negative [n] included. *)
Definition slice_to {A} (n : Z) (l : list A) : list A :=
  if 0 <=? n then take (Z.to_nat n) l else take (Z.to_nat (Z.of_nat (length l) + n)) l.

(** [l[a:b]], [0 <= a]. *)
Definition slice {A} (a b : Z) (l : list A) : list A :=
  take (Z.to_nat (b - a)) (drop (Z.to_nat a) l).

(** [_extract_window], on the characters of [content]. *)
Definition _extract_window (content : list string) (center len : Z) : list string :=
  let n := Z.of_nat (length content) in
  let start := Z.max 0 (center - len / 2) in
  let stop := start + len in
  let '(start, stop) := if n <? stop then (Z.max 0 (n - len), n) else (start, stop) in
  let snippet := slice start stop content in
  let prefix := if 0 <? start then ["."; "."; "."] else [] in
  let suffix := if stop <? n then ["."; "."; "."] else [] in
  prefix ++ snippet ++ suffix.

(** [doc_freqs.get(token, 0) if doc_freqs else 0]. *)
Definition rarity (doc_freqs : option counts) (token : string) : Z :=
  match doc_freqs with Some d => dget_default token 0 d | None => 0 end.

Definition lower_token (w : string) : string := list_str (map ascii_lower (str_list w)).

(** The loop over the matches: [best] is [(best_pos, best_rarity)], [None] while the rarity
    is infinite. *)
Fixpoint best_match (query : list string) (dfs : option counts) (best : option (nat * Z))
    (ms : list (nat * string)) : option (nat * Z) :=
  match ms with
  | [] => best
  | (p, w) :: ms =>
      let token := lower_token w in
      if negb (bool_decide (token ∈ query)) then best_match query dfs best ms
      else
        let r := rarity dfs token in
        if match best with Some (_, br) => r <? br | None => true end then
          if r <=? 1 then Some (p, r) else best_match query dfs (Some (p, r)) ms
        else best_match query dfs best ms
  end.

(** [_best_snippet]. *)
Definition _best_snippet (content : string) (query_tokens : list string) (len : Z)
    (dfs : option counts) : list string :=
  let chars := utf8_chars content in
  if Z.of_nat (length chars) <=? len then chars
  else
    match best_match query_tokens dfs None (finditer 0 None chars) with
    | Some (p, _) => _extract_window chars (Z.of_nat p) len
    | None => slice_to len chars
    end.

(** ** Search *)

(** [SearchDocumentMeta]. *)
Record SearchDocumentMeta := {
  transcript_path : string;
  session_name : string;
  session_id : string;
  extracted_at : string;
  metadata : dict }.

Record SearchResult := {
  sr_session_name : string;
  sr_session_id : string;
  sr_score : spec_float;
  sr_snippet : string;
  sr_transcript_path : string;
  sr_metadata : dict }.

(** [a < b] on floats. *)
Definition float_lt (a b : spec_float) : bool := SFltb a b.

(** [scored.sort(key=lambda x: x[0], reverse=True)]: stable, larger scores first. *)
Fixpoint insert_desc (x : spec_float * string) (l : list (spec_float * string)) :=
  match l with
  | [] => [x]
  | y :: l => if float_lt (fst x) (fst y) then y :: insert_desc x l else x :: y :: l
  end.

Fixpoint sort_desc (l : list (spec_float * string)) : list (spec_float * string) :=
  match l with [] => [] | x :: l => insert_desc x (sort_desc l) end.

Section Search.

Variable math_log : spec_float -> res spec_float.
Variable content_loader : list string -> res (list (string * string)).
Variable doc_metadata : list (string * SearchDocumentMeta).

(** The scored documents above zero, best first, cut to [limit]. *)
Definition rank (scores : list spec_float) (keys : list string) (limit : Z) :
    list (spec_float * string) :=
  slice_to limit (sort_desc (filter (fun p => float_lt float_zero (fst p) = true) (zip scores keys))).

(** One result. *)
Definition make_result (query_tokens : list string) (dfs : counts) (content_map : list (string * string))
    (p : spec_float * string) : res SearchResult :=
  match dget (snd p) doc_metadata, dget (snd p) content_map with
  | Some meta, Some content =>
      Ok {| sr_session_name := session_name meta;
            sr_session_id := session_id meta;
            sr_score := py_round 4 (fst p);
            sr_snippet := str_join "" (_best_snippet content query_tokens SNIPPET_LENGTH (Some dfs));
            sr_transcript_path := transcript_path meta;
            sr_metadata := metadata meta |}
  | _, _ => raise KeyError (py_repr (snd p))
  end.

(** [not query.strip()]. *)
Definition is_blank (query : string) : bool := forallb is_space (utf8_decode query).

(** [search_from_index]. *)
Definition search_from_index (query : string) (keys : list string) (tfs : list counts)
    (dfs : counts) (lens : list Z) (avg k1 b : spec_float) (limit : Z) : res (list SearchResult) :=
  if is_blank query || bool_decide (keys = []) then Ok []
  else
      let query_tokens := tokenize query in
      match query_tokens with
      | [] => Ok []
      | _ =>
          let missing_meta := filter (fun k => dhas k doc_metadata = false) keys in
          match missing_meta with
          | _ :: _ =>
              state_error BM25IndexCorruptedError "bm25_index"
                (pretty (length missing_meta) +++
                 " indexed documents missing from metadata store. " +++
                 "Run 'forge search rebuild-index' to fix.")
          | [] =>
              scores ← score math_log (from_precomputed tfs dfs lens avg k1 b) query_tokens;
              let top_k := rank scores keys limit in
              match top_k with
              | [] => Ok []
              | _ =>
                  let top_keys := snd <$> top_k in
                  content_map ← content_loader top_keys;
                  let missing_content := filter (fun k => dhas k content_map = false) top_keys in
                  match missing_content with
                  | _ :: _ =>
                      state_error ContentStoreCorruptedError "content"
                        (pretty (length missing_content) +++
                         " top-K documents missing from content store. " +++
                         "Run 'forge search rebuild-index' to fix.")
                  | [] => mapM_res (make_result query_tokens dfs content_map) top_k
                  end
              end
          end
      end.

End Search.

Example tokenize_sample :
  tokenize "Forge's work_queue: 12 x RETRIES!" = ["forge"; "work_queue"; "12"; "retries"].
Proof. vm_compute. reflexivity. Qed.

(** ** Lemmas: scoring *)

Lemma enumerate_lookup {A} (l : list A) i : enumerate l !! i = (fun a => (i, a)) <$> l !! i.
Proof.
  unfold enumerate. rewrite lookup_zip_with. destruct (l !! i) as [a|] eqn:Hi; simpl.
  - rewrite lookup_seq_lt; [done|]. by apply lookup_lt_Some in Hi.
  - by destruct (seq 0 (length l) !! i).
Qed.

Lemma score_term_lookup math_log bm scores term scores' i s' :
  score_term math_log bm scores term = Ok scores' -> scores' !! i = Some s' ->
  exists s, scores !! i = Some s /\
    (s' = s \/ exists tf, _term_freqs bm !! i = Some tf /\ dget_default term 0 tf <> 0).
Proof.
  unfold score_term. destruct (dget term (_doc_freqs bm)) as [df|].
  2: { intros [= <-]. eauto. }
  destruct (idf _ _ _) as [w|]; [|done]. rewrite res_bind_ok. intros H Hs.
  apply mapM_res_Forall2 in H. eapply Forall2_lookup_r in H as (p & Hp & Hd); [|done].
  rewrite enumerate_lookup in Hp. destruct (scores !! i) as [s|]; simplify_eq/=.
  exists s. split; [done|]. unfold score_doc in Hd.
  destruct (_term_freqs bm !! i) as [tf|]; [|done]. rewrite res_bind_ok in Hd.
  destruct (dget_default term 0 tf =? 0) eqn:Htf; zbool; [by left; simplify_eq|]. right. eauto.
Qed.

(** A document in which no query term occurs keeps the score it started with. *)
Lemma score_fold_lookup math_log bm query scores scores' i s' :
  foldM_res (score_term math_log bm) scores query = Ok scores' -> scores' !! i = Some s' ->
  exists s, scores !! i = Some s /\
    (s' = s \/ exists term tf, term ∈ query /\ _term_freqs bm !! i = Some tf /\
                              dget_default term 0 tf <> 0).
Proof.
  revert scores. induction query as [|t query IH]; intros scores; simpl; [intros [= <-]; eauto|].
  destruct (score_term math_log bm scores t) as [scores1|] eqn:Ht; [|done]. rewrite res_bind_ok.
  intros H Hs. destruct (IH _ H Hs) as (s1 & Hs1 & Hor).
  destruct (score_term_lookup _ _ _ _ _ _ _ Ht Hs1) as (s & Hi & Hor').
  exists s. split; [done|].
  destruct Hor as [->|(t' & tf & ? & ? & ?)]; [|right; exists t', tf; set_solver].
  destruct Hor' as [->|(tf & ? & ?)]; [by left|]. right. exists t, tf. set_solver.
Qed.

(** ** Lemmas: the order of positive floats *)

Definition fpos (x : spec_float) : Prop := float_lt float_zero x = true.

Lemma float_lt_trans x y z : fpos x -> fpos y -> fpos z ->
  float_lt x y = false -> float_lt y z = false -> float_lt x z = false.
Proof.
  unfold fpos, float_lt, SFltb.
  destruct x as [[]|[]| |[] m1 e1], y as [[]|[]| |[] m2 e2], z as [[]|[]| |[] m3 e3]; simpl; try done.
  intros _ _ _. destruct (Z.compare_spec e1 e2), (Z.compare_spec e2 e3), (Z.compare_spec e1 e3);
    try done; try lia.
  unfold Pos.compare.
  change (Pos.compare_cont Eq m1 m2) with (m1 ?= m2)%positive.
  change (Pos.compare_cont Eq m2 m3) with (m2 ?= m3)%positive.
  change (Pos.compare_cont Eq m1 m3) with (m1 ?= m3)%positive.
  destruct (Pos.compare_spec m1 m2), (Pos.compare_spec m2 m3), (Pos.compare_spec m1 m3);
    try done; lia.
Qed.

Lemma float_lt_asym x y : fpos x -> fpos y -> float_lt x y = true -> float_lt y x = false.
Proof.
  unfold fpos, float_lt, SFltb.
  destruct x as [[]|[]| |[] m1 e1], y as [[]|[]| |[] m2 e2]; simpl; try done.
  intros _ _. rewrite (Z.compare_antisym e1 e2). destruct (e1 ?= e2); simpl; try done.
  change (Pos.compare_cont Eq m1 m2) with (m1 ?= m2)%positive.
  change (Pos.compare_cont Eq m2 m1) with (m2 ?= m1)%positive.
  rewrite (Pos.compare_antisym m1 m2). by destruct (m1 ?= m2)%positive.
Qed.

(** [x] may come before [y]: its score is not smaller. *)
Definition before (x y : spec_float * string) : Prop := float_lt (fst x) (fst y) = false.

Lemma insert_desc_perm x l : insert_desc x l ≡ₚ x :: l.
Proof. induction l as [|y l IH]; simpl; [done|]. case_match; [rewrite IH; apply Permutation_swap|done]. Qed.

Lemma sort_desc_perm l : sort_desc l ≡ₚ l.
Proof. induction l as [|x l IH]; simpl; [done|]. by rewrite insert_desc_perm, IH. Qed.

Lemma insert_desc_sorted x l :
  fpos (fst x) -> Forall (fun y => fpos (fst y)) l ->
  StronglySorted before l -> StronglySorted before (insert_desc x l).
Proof.
  intros Hx Hl Hs. induction Hs as [|y l Hs IH Hy]; simpl; [by repeat constructor|].
  apply Forall_cons in Hl as [Hy0 Hl]. destruct (float_lt (fst x) (fst y)) eqn:Hlt.
  - constructor; [by apply IH|]. rewrite insert_desc_perm. constructor; [|done].
    by apply float_lt_asym.
  - constructor; [by constructor|]. constructor; [done|].
    rewrite Forall_forall in *. intros z Hz. apply (float_lt_trans _ (fst y)); auto. by apply Hy.
Qed.

Lemma sort_desc_sorted l : Forall (fun y => fpos (fst y)) l -> StronglySorted before (sort_desc l).
Proof.
  induction 1 as [|x l Hx Hl IH]; simpl; [constructor|]. apply insert_desc_sorted; [done| |done].
  by rewrite sort_desc_perm.
Qed.

Lemma StronglySorted_app_before l1 l2 :
  StronglySorted before (l1 ++ l2) ->
  StronglySorted before l1 /\ forall x y, x ∈ l1 -> y ∈ l2 -> before x y.
Proof.
  induction l1 as [|z l1 IH]; simpl; intros Hs; [split; [constructor|set_solver]|].
  inversion Hs as [|? ? Hs1 Hz]; subst. destruct (IH Hs1) as [H1 H2].
  apply Forall_app in Hz as [Hz1 Hz2]. split; [by constructor|].
  intros x y [->|Hx]%elem_of_cons Hy; [|by apply H2]. rewrite Forall_forall in Hz2. by apply Hz2.
Qed.

(** ** Lemmas: token runs *)

(** [w] is the text of the token characters [cs]. *)
Definition run_text (cs : list string) : string := foldl String.append "" cs.

Lemma run_text_snoc cs c : run_text (cs ++ [c]) = run_text cs +++ c.
Proof. unfold run_text. by rewrite foldl_app. Qed.

(** A run of token characters of [all], from position [p], that no longer run contains. *)
Definition maximal_run (all : list string) (p : nat) (w : string) : Prop :=
  exists l1 cs l2, all = l1 ++ cs ++ l2 /\ length l1 = p /\ cs <> [] /\ run_text cs = w /\
    Forall (fun c => is_token_char c = true) cs /\
    (forall c, last l1 = Some c -> is_token_char c = false) /\
    (forall c, head l2 = Some c -> is_token_char c = false).

(** The state of the scan at the end of [l1 ++ cs], [cs] being the run read so far. *)
Lemma finditer_sound l1 cs l p w :
  Forall (fun c => is_token_char c = true) cs ->
  (forall c, last l1 = Some c -> is_token_char c = false) ->
  (p, w) ∈ finditer (length (l1 ++ cs))
             (match cs with [] => None | _ => Some (length l1, run_text cs) end) l ->
  maximal_run (l1 ++ cs ++ l) p w.
Proof.
  revert l1 cs. induction l as [|c l IH]; intros l1 cs Hcs Hl1; cbn [finditer].
  { destruct cs as [|c cs]; simpl option_list; [by intros ?%elem_of_nil|].
    intros [= -> ->]%list_elem_of_singleton. exists l1, (c :: cs), []. by rewrite app_nil_r. }
  destruct (is_token_char c) eqn:Hc.
  - intros Hin.
    assert (l1 ++ cs ++ c :: l = l1 ++ (cs ++ [c]) ++ l) as -> by (by rewrite <- (app_assoc cs)).
    apply IH; [apply Forall_app; by repeat constructor|done|].
    rewrite app_assoc, length_app. simpl. rewrite Nat.add_1_r.
    destruct cs as [|c0 cs]; simpl app.
    + rewrite app_nil_r in *. done.
    + change (c0 :: cs ++ [c]) with ((c0 :: cs) ++ [c]). by rewrite run_text_snoc.
  - rewrite elem_of_app. intros [Hin|Hin].
    + destruct cs as [|c0 cs]; [by apply elem_of_nil in Hin|].
      apply list_elem_of_singleton in Hin as [= -> ->]. exists l1, (c0 :: cs), (c :: l).
      split_and!; try done. by intros ? [= <-].
    + assert (l1 ++ cs ++ c :: l = (l1 ++ cs ++ [c]) ++ [] ++ l) as ->
        by (by rewrite <- !app_assoc).
      apply IH; [constructor|by intros ? H; rewrite app_assoc, last_snoc in H; simplify_eq|].
      rewrite app_nil_r, app_assoc, (length_app _ [c]). simpl. by rewrite Nat.add_1_r.
Qed.

Lemma finditer_runs l p w : (p, w) ∈ finditer 0 None l -> maximal_run l p w.
Proof. intros Hin. by apply (finditer_sound [] []). Qed.

Lemma maximal_run_position l p w : maximal_run l p w -> (p < length l)%nat.
Proof.
  intros (l1 & cs & l2 & -> & <- & Hne & _). rewrite !length_app. destruct cs; [done|]. simpl. lia.
Qed.

(** ** Lemmas: snippets *)

(** The matches whose lowercased token is in the query. *)
Definition hits (query : list string) (ms : list (nat * string)) : list (nat * string) :=
  filter (fun m => lower_token (snd m) ∈ query) ms.

(** [(p, r)] is the first of the rarest among the hits read, up to the point where a term of
    at most one document ends the search. *)
Definition rarest (dfs : option counts) (hs : list (nat * string)) (p : nat) (r : Z) : Prop :=
  exists h1 w h2, hs = h1 ++ (p, w) :: h2 /\ r = rarity dfs (lower_token w) /\
    Forall (fun h => r < rarity dfs (lower_token (snd h))) h1 /\
    (r <= 1 \/ Forall (fun h => r <= rarity dfs (lower_token (snd h))) h2).

Lemma best_match_spec query dfs ms hs best p r :
  match best with
  | None => hs = []
  | Some (p0, r0) => 1 < r0 /\ rarest dfs hs p0 r0
  end ->
  best_match query dfs best ms = Some (p, r) -> rarest dfs (hs ++ hits query ms) p r.
Proof.
  revert hs best. induction ms as [|[q w] ms IH]; intros hs best Hb; cbn [best_match].
  { intros ->. unfold hits. rewrite app_nil_r. by destruct Hb. }
  destruct (decide (lower_token w ∈ query)) as [Hq|Hq].
  2: { rewrite bool_decide_false by done. simpl. intros Hm. unfold hits.
       rewrite filter_cons_False by done. by eapply IH. }
  rewrite bool_decide_true by done. cbn [negb]. unfold hits. rewrite filter_cons_True by done.
  fold (hits query ms). set (rw := rarity dfs (lower_token w)).
  destruct best as [[p0 r0]|]; [destruct (rw <? r0) eqn:Hlt|]; zbool.
  - assert (Hnew : forall h2, (rw <= 1 \/ h2 = []) -> rarest dfs (hs ++ (q, w) :: h2) q rw).
    { intros h2 Hh2. exists hs, w, h2. split_and!; [done..| |].
      - destruct Hb as [Hr0 (h1 & w0 & h3 & -> & -> & H1 & H2)].
        destruct H2 as [H2|H2]; [lia|].
        apply Forall_app. split; [|constructor]; simpl; [|lia|]; (eapply Forall_impl; [done|]); simpl; lia.
      - destruct Hh2 as [Hr | ->]; [by left|]. right. constructor. }
    destruct (rw <=? 1) eqn:Hr1; zbool; [intros [= <- <-]; apply Hnew; by left|].
    intros Hm. rewrite cons_middle, app_assoc. eapply IH; [|done]. split; [done|].
    apply Hnew. by right.
  - intros Hm. rewrite cons_middle, app_assoc. eapply IH; [|done].
    destruct Hb as [Hr0 (h1 & w0 & h3 & -> & -> & H1 & H2)]. split; [done|].
    exists h1, w0, (h3 ++ [(q, w)]). rewrite <- app_assoc. split_and!; [done..|].
    right. destruct H2 as [H2|H2]; [lia|]. apply Forall_app. split; [done|]. constructor; [|constructor].
    simpl. fold rw. lia.
  - subst hs. simpl app. destruct (rw <=? 1) eqn:Hr1; zbool.
    + intros [= <- <-]. exists [], w, (hits query ms). split_and!; [done..|by left].
    + intros Hm. change ((q, w) :: hits query ms) with ([(q, w)] ++ hits query ms).
      eapply IH; [|done]. split; [done|]. exists [], w, []. split_and!; [done..|]. right. constructor.
Qed.

(** A hit is always found. *)
Lemma best_match_some query dfs ms best :
  hits query ms <> [] \/ is_Some best -> is_Some (best_match query dfs best ms).
Proof.
  revert best. induction ms as [|[q w] ms IH]; intros best Hor; cbn [best_match].
  { by destruct Hor. }
  destruct (decide (lower_token w ∈ query)) as [Hq|Hq].
  - rewrite bool_decide_true by done. cbn [negb]. repeat case_match; eauto.
  - rewrite bool_decide_false by done. cbn [negb]. apply IH. destruct Hor as [Hh|]; [|by right].
    left. unfold hits in Hh. by rewrite filter_cons_False in Hh.
Qed.

(** ** Lemmas: errors *)

Definition score_error_classes : list exn_class := [ZeroDivisionError; OverflowError; ValueError].

Lemma raises_in_weaken {A} cs cs' (r : res A) : cs ⊆ cs' -> raises_in cs r -> raises_in cs' r.
Proof. destruct r; simpl; auto. Qed.

Lemma raises_in_float_of_int z : raises_in score_error_classes (py_float_of_int z).
Proof. unfold py_float_of_int. case_match; simpl; [set_solver|done]. Qed.

Lemma raises_in_float_div a b : raises_in score_error_classes (py_float_div a b).
Proof. destruct b; simpl; done || set_solver. Qed.

Lemma enumerate_fst {A} (l : list A) p : p ∈ enumerate l -> (fst p < length l)%nat.
Proof.
  intros (i & Hi)%list_elem_of_lookup. rewrite enumerate_lookup in Hi.
  destruct (l !! i) eqn:Hl; simplify_eq/=. by eapply lookup_lt_Some.
Qed.

Lemma raises_in_mapM_in {A B} cs (f : A -> res B) l :
  (forall a, a ∈ l -> raises_in cs (f a)) -> raises_in cs (mapM_res f l).
Proof.
  intros Hf. destruct (mapM_res f l) as [|e] eqn:Hm; [done|].
  apply mapM_res_err in Hm as (a & Hin & Ha). specialize (Hf a Hin). by rewrite Ha in Hf.
Qed.

Section Errors.

Variable math_log : spec_float -> res spec_float.
Hypothesis math_log_domain : forall x, raises_in [ValueError] (math_log x).

Lemma raises_in_idf n df : raises_in score_error_classes (idf math_log n df).
Proof.
  unfold idf. repeat (apply raises_in_bind; [|intros ? _]);
    auto using raises_in_float_of_int, raises_in_float_div.
  eapply raises_in_weaken; [|apply math_log_domain]. unfold score_error_classes. set_solver.
Qed.

Lemma raises_in_score_doc bm term w i s :
  (i < length (_term_freqs bm))%nat -> (i < length (_doc_lens bm))%nat ->
  raises_in score_error_classes (score_doc bm term w i s).
Proof.
  intros [tf Htf]%lookup_lt_is_Some_2 [dl Hdl]%lookup_lt_is_Some_2. unfold score_doc, tf_norm.
  rewrite Htf, Hdl, !res_bind_ok. case_match; [done|].
  repeat (apply raises_in_bind; [|intros ? _]);
    auto using raises_in_float_of_int, raises_in_float_div. done.
Qed.

Lemma score_length bm query scores scores' :
  foldM_res (score_term math_log bm) scores query = Ok scores' -> length scores' = length scores.
Proof.
  revert scores. induction query as [|t query IH]; intros scores; simpl; [by intros [= <-]|].
  destruct (score_term math_log bm scores t) as [scores1|] eqn:Ht; [|done]. rewrite res_bind_ok.
  intros ->%IH. unfold score_term in Ht. destruct (dget t _); [|by simplify_eq].
  destruct (idf _ _ _); [|done]. rewrite res_bind_ok in Ht.
  apply mapM_res_Forall2, Forall2_length in Ht. rewrite <- Ht.
  unfold enumerate. rewrite length_zip, length_seq. lia.
Qed.

Lemma raises_in_score bm query :
  length (_term_freqs bm) = length (_doc_lens bm) -> _doc_count bm = Z.of_nat (length (_doc_lens bm)) ->
  raises_in score_error_classes (score math_log bm query).
Proof.
  intros Hlen Hcount. unfold score.
  assert (Hs : length (replicate (Z.to_nat (_doc_count bm)) float_zero) = length (_doc_lens bm)).
  { rewrite length_replicate. lia. }
  revert Hs. generalize (replicate (Z.to_nat (_doc_count bm)) float_zero).
  induction query as [|t query IH]; intros scores Hs; simpl; [done|].
  apply raises_in_bind.
  - unfold score_term. destruct (dget t _); [|done]. apply raises_in_bind; [apply raises_in_idf|].
    intros w _. apply raises_in_mapM_in. intros p Hp%enumerate_fst.
    apply raises_in_score_doc; lia.
  - intros scores1 H1. apply IH. rewrite <- Hs.
    apply (score_length bm [t]). simpl. rewrite H1. done.
Qed.

End Errors.

(** ** Properties *)

Definition search_index math_log content_loader doc_metadata (query : string) (d : BM25IndexData)
    (limit : Z) : res (list SearchResult) :=
  search_from_index math_log content_loader doc_metadata query (doc_keys d) (term_freqs d)
    (doc_freqs d) (doc_lens d) (avgdl d) (k1 d) (b d) limit.

Lemma score_equiv math_log tfs dfs dfs' lens avg k1 b query :
  dict_equiv dfs dfs' ->
  score math_log (from_precomputed tfs dfs lens avg k1 b) query
  = score math_log (from_precomputed tfs dfs' lens avg k1 b) query.
Proof.
  intros Heq. unfold score. simpl. generalize (replicate (Z.to_nat (Z.of_nat (length lens))) float_zero).
  induction query as [|t query IH]; intros scores; simpl; [done|].
  assert (score_term math_log (from_precomputed tfs dfs lens avg k1 b) scores t
          = score_term math_log (from_precomputed tfs dfs' lens avg k1 b) scores t) as ->.
  { unfold score_term. simpl. by rewrite Heq. }
  destruct (score_term _ _ scores t); [apply IH|done].
Qed.

Lemma best_match_equiv query dfs dfs' best ms :
  dict_equiv dfs dfs' -> best_match query (Some dfs) best ms = best_match query (Some dfs') best ms.
Proof.
  intros Heq. revert best. induction ms as [|[p w] ms IH]; intros best; simpl; [done|].
  unfold rarity, dget_default. rewrite Heq. by rewrite !IH.
Qed.

Lemma make_result_equiv doc_metadata q dfs dfs' content_map p :
  dict_equiv dfs dfs' -> make_result doc_metadata q dfs content_map p = make_result doc_metadata q dfs' content_map p.
Proof.
  intros Heq. unfold make_result, _best_snippet.
  destruct (dget (snd p) doc_metadata), (dget (snd p) content_map); try done.
  by rewrite (best_match_equiv _ _ _ _ _ Heq).
Qed.

Lemma mapM_res_ext {A B} (f g : A -> res B) l : (forall a, f a = g a) -> mapM_res f l = mapM_res g l.
Proof. intros Hfg. induction l as [|a l IH]; simpl; [done|]. by rewrite Hfg, IH. Qed.

Lemma search_equiv math_log loader meta query d e limit :
  index_equiv d e ->
  search_index math_log loader meta query d limit = search_index math_log loader meta query e limit.
Proof.
  intros [Hk Hl Ht Hdfs Ha Hk1 Hb _]. unfold search_index, search_from_index.
  rewrite Hk, Hl, Ht, Ha, Hk1, Hb, (score_equiv _ _ _ _ _ _ _ _ _ Hdfs).
  repeat case_match; try done.
  destruct (score _ _ _); [|done]. rewrite !res_bind_ok. case_match; [done|].
  destruct (loader _); [|done]. rewrite !res_bind_ok. case_match; [|done].
  apply mapM_res_ext. intros q. by apply make_result_equiv.
Qed.

Lemma rank_elem scores keys limit s key :
  (s, key) ∈ rank scores keys limit ->
  exists i, scores !! i = Some s /\ keys !! i = Some key /\ fpos s.
Proof.
  intros Hin.
  assert (Hsc : (s, key) ∈ filter (fun p => float_lt float_zero (fst p) = true) (zip scores keys)).
  { rewrite <- sort_desc_perm. unfold rank, slice_to in Hin.
    case_match; by apply elem_of_take in Hin as (? & ?%list_elem_of_lookup_2 & ?). }
  apply list_elem_of_filter in Hsc as [Hpos Hzip]. simpl in Hpos.
  apply list_elem_of_lookup in Hzip as [i Hi]. rewrite lookup_zip_with in Hi.
  destruct (scores !! i) as [s'|] eqn:Hs; [|done]. destruct (keys !! i) as [k|] eqn:Hk; simplify_eq/=.
  eauto.
Qed.

(** A query answered from the incrementally maintained index returns exactly what it would
    return from a rebuilt index of the same documents: the same results, scores, order and
    snippets, or the same error. *)
Theorem search_same_as_rebuild py_str path math_log loader meta ops f d r query limit :
  Forall op_ok ops ->
  foldM_res (step py_str path) None ops = Ok f -> read py_str path f = Ok (Some d) ->
  rebuilt (foldl spec_step [] ops) = Ok r ->
  search_index math_log loader meta query d limit = search_index math_log loader meta query r limit.
Proof.
  intros Hops Hrun Hread Hr.
  destruct (run_indexes py_str path ops None [] eq_refl docs_ok_nil Hops) as (f' & Hf & Hi & Hok).
  assert (f' = f) as -> by congruence. clear Hf.
  destruct f as [c|]; [|done]. destruct Hi as (d' & Hd & Hi).
  assert (d' = d) as -> by congruence.
  destruct (rebuilt_ok _ Hok) as (r' & Hr' & Hri). assert (r' = r) as -> by congruence.
  apply search_equiv. by eapply indexes_equiv.
Qed.

(** The ranking is the top of the positively scored documents: the returned list and the
    rest of them make up all of them, it is sorted by score, no document left out scores
    higher than one returned, and there are [limit] of them unless fewer score above zero. *)
Theorem rank_top scores keys limit :
  0 <= limit ->
  let scored := filter (fun p => float_lt float_zero (fst p) = true) (zip scores keys) in
  let top := rank scores keys limit in
  length top = Nat.min (Z.to_nat limit) (length scored) /\
  StronglySorted before top /\
  exists rest, top ++ rest ≡ₚ scored /\ forall x y, x ∈ top -> y ∈ rest -> before x y.
Proof.
  intros Hlim scored top.
  assert (Htop : top = take (Z.to_nat limit) (sort_desc scored)).
  { unfold top, rank, slice_to. by rewrite (proj2 (Z.leb_le _ _)). }
  assert (Hs : StronglySorted before (sort_desc scored)).
  { apply sort_desc_sorted, Forall_forall. intros p [Hp _]%list_elem_of_filter. done. }
  rewrite <- (take_drop (Z.to_nat limit) (sort_desc scored)), <- Htop in Hs.
  apply StronglySorted_app_before in Hs as [Hs Hb]. split_and!; [|done|].
  - by rewrite Htop, length_take, (Permutation_length (sort_desc_perm scored)).
  - exists (drop (Z.to_nat limit) (sort_desc scored)). split; [|done].
    by rewrite Htop, take_drop, sort_desc_perm.
Qed.

(** Every ranked document is an indexed one in which some query term occurs. *)
Theorem ranked_documents_match math_log bm query scores keys limit s key :
  score math_log bm query = Ok scores -> (s, key) ∈ rank scores keys limit ->
  exists i term tf, keys !! i = Some key /\ scores !! i = Some s /\ term ∈ query /\
    _term_freqs bm !! i = Some tf /\ dget_default term 0 tf <> 0.
Proof.
  intros Hscore (i & Hs & Hk & Hpos)%rank_elem.
  destruct (score_fold_lookup _ _ _ _ _ _ _ Hscore Hs) as (s0 & H0 & Hor).
  apply lookup_replicate_1 in H0 as [-> _]. destruct Hor as [->|(t & tf & ? & ? & ?)]; [done|]. eauto 10.
Qed.

(** A snippet is the whole content when it fits; else, when a query token occurs, a
    contiguous window of exactly [len] characters that contains the start of the first
    occurrence of the rarest query token (a token of at most one document counts as rarest),
    with an ellipsis on each cut side; else the content's beginning. *)
Theorem snippet_window content query len dfs :
  0 < len ->
  let chars := utf8_chars content in
  let n := Z.of_nat (length chars) in
  let hs := hits query (finditer 0 None chars) in
  let snippet := _best_snippet content query len dfs in
  (n <= len -> snippet = chars) /\
  (len < n -> hs = [] -> snippet = take (Z.to_nat len) chars) /\
  (len < n -> hs <> [] -> exists p r a, rarest dfs hs p r /\
     0 <= a <= Z.of_nat p /\ Z.of_nat p < a + len <= n /\
     snippet = (if 0 <? a then ["."; "."; "."] else []) ++ slice a (a + len) chars ++
               (if a + len <? n then ["."; "."; "."] else [])).
Proof.
  intros Hlen chars n hs snippet. unfold snippet, _best_snippet. fold chars. fold n.
  split_and!; intros Hn; [by rewrite (proj2 (Z.leb_le _ _))|..];
    rewrite (proj2 (Z.leb_gt _ _)) by lia; intros Hh.
  - destruct (best_match query dfs None _) as [[p r]|] eqn:Hm.
    + apply (best_match_spec _ _ _ []) in Hm; [|done]. simpl in Hm. fold hs in Hm. rewrite Hh in Hm.
      destruct Hm as (h1 & w & h2 & Heq & _). by destruct h1.
    + unfold slice_to. by rewrite (proj2 (Z.leb_le _ _)) by lia.
  - destruct (best_match_some query dfs (finditer 0 None chars) None) as [[p r] Hm]; [by left|].
    rewrite Hm. apply (best_match_spec _ _ _ []) in Hm; [|done]. simpl in Hm. fold hs in Hm.
    assert (Hp : Z.of_nat p < n).
    { destruct Hm as (h1 & w & h2 & Heq & _).
      assert ((p, w) ∈ finditer 0 None chars) as Hin.
      { assert ((p, w) ∈ hs) as Hin by (rewrite Heq; set_solver).
        by apply list_elem_of_filter in Hin as [_ Hin]. }
      apply finditer_runs, maximal_run_position in Hin. unfold n. lia. }
    exists p, r. unfold _extract_window. fold n.
    pose proof (Z.div_mod len 2 ltac:(lia)). pose proof (Z.mod_pos_bound len 2 ltac:(lia)).
    destruct (n <? Z.max 0 (Z.of_nat p - len / 2) + len) eqn:Hclip; zbool.
    + exists (n - len). rewrite Z.max_r by lia.
      replace (n - len + len) with n by lia. rewrite !Z.ltb_irrefl. split_and!; done || lia.
    + exists (Z.max 0 (Z.of_nat p - len / 2)). split_and!; done || lia.
Qed.

(** A query over an aligned index never fails on a lookup: it raises only the
    arithmetic errors of scoring, the two stores' corruption errors, or what the content
    loader raises. *)
Theorem search_errors math_log loader meta query d limit cs :
  (forall x, raises_in [ValueError] (math_log x)) ->
  (forall ks, raises_in cs (loader ks)) ->
  aligned d ->
  raises_in (score_error_classes ++ [BM25IndexCorruptedError; ContentStoreCorruptedError] ++ cs)
    (search_index math_log loader meta query d limit).
Proof.
  intros Hlog Hload (Hl & Ht & _). unfold search_index, search_from_index.
  destruct (_ || _); [done|]. destruct (tokenize query) as [|q0 q]; [done|].
  destruct (filter (fun k => dhas k meta = false) (doc_keys d)) as [|k0 ks] eqn:Hmeta;
    [|simpl; set_solver].
  apply raises_in_bind.
  { eapply raises_in_weaken; [|apply raises_in_score; simpl; done || congruence]. set_solver. }
  intros scores Hscore. destruct (rank scores (doc_keys d) limit) as [|p top] eqn:Hrank; [done|].
  rewrite <- Hrank. apply raises_in_bind.
  { eapply raises_in_weaken; [|apply Hload]. set_solver. }
  intros content_map _.
  destruct (filter (fun k => dhas k content_map = false) (rank scores (doc_keys d) limit).*2)
    as [|k1 ks1] eqn:Hcontent; [|simpl; set_solver].
  apply raises_in_mapM_in. intros [s key] Hin. unfold make_result.
  assert (Hk : key ∈ doc_keys d).
  { apply rank_elem in Hin as (i & _ & Hi & _). by eapply list_elem_of_lookup_2. }
  destruct (dget (snd (s, key)) meta) eqn:Hm; [destruct (dget (snd (s, key)) content_map) eqn:Hc; [done|]|].
  - exfalso. apply (not_elem_of_nil key). rewrite <- Hcontent. apply list_elem_of_filter.
    split; [by apply dhas_false|]. apply list_elem_of_fmap. by exists (s, key).
  - exfalso. apply (not_elem_of_nil key). rewrite <- Hmeta. apply list_elem_of_filter.
    split; [by apply dhas_false|done].
Qed.

(** ** Witnesses *)

Module EngineSample.

(** A stand-in for the logarithm with its domain. *)
Definition log (x : spec_float) : res spec_float :=
  if float_lt float_zero x then Ok (float_sub x half) else raise ValueError "math domain error".

Definition meta (path : string) : SearchDocumentMeta :=
  {| transcript_path := path; session_name := "demo"; session_id := "s"; extracted_at := "t";
     metadata := [] |}.
Definition metas := [("/a.jsonl", meta "/a.jsonl"); ("/b.jsonl", meta "/b.jsonl")].
Definition loader (ks : list string) : res (list (string * string)) :=
  Ok ((fun k => (k, "the work queue holds a lock")) <$> ks).

Definition the_index : BM25IndexData := IndexSample.index IndexSample.ops.
Definition bm : BM25 :=
  from_precomputed (term_freqs the_index) (doc_freqs the_index) (doc_lens the_index)
    (avgdl the_index) (k1 the_index) (b the_index).
Definition scores : list spec_float :=
  match score log bm ["queue"; "lock"] with Ok l => l | Err _ => [] end.
Definition rebuilt_index : BM25IndexData :=
  match rebuilt (foldl spec_step [] IndexSample.ops) with Ok r => r | Err _ => new_index end.

Example query_result :
  sr_transcript_path <$> match search_index log loader metas "the QUEUE lock" the_index 10 with
                         | Ok l => l | Err _ => [] end = ["/b.jsonl"; "/a.jsonl"].
Proof. vm_compute. reflexivity. Qed.

Lemma search_same_witness :
  search_index log loader metas "queue lock" the_index 10
  = search_index log loader metas "queue lock" rebuilt_index 10.
Proof.
  apply (search_same_as_rebuild (fun _ => "") "idx" log loader metas IndexSample.ops
           (IndexSample.file IndexSample.ops));
    [exact IndexSample.ops_ok | vm_compute; reflexivity | vm_compute; reflexivity
    | vm_compute; reflexivity].
Defined.

Lemma rank_top_witness :
  let scored := filter (fun p => float_lt float_zero (fst p) = true) (zip scores ["/b.jsonl"; "/a.jsonl"]) in
  let top := rank scores ["/b.jsonl"; "/a.jsonl"] 1 in
  length top = 1%nat /\ length scored = 2%nat /\
  StronglySorted before top /\
  exists rest, top ++ rest ≡ₚ scored /\ forall x y, x ∈ top -> y ∈ rest -> before x y.
Proof.
  pose proof (rank_top scores ["/b.jsonl"; "/a.jsonl"] 1 ltac:(lia)) as (_ & H).
  split; [vm_compute; reflexivity|]. split; [vm_compute; reflexivity|]. exact H.
Defined.

Lemma ranked_documents_match_witness :
  exists s i term tf, ["/b.jsonl"; "/a.jsonl"] !! i = Some "/b.jsonl" /\ scores !! i = Some s /\
    term ∈ ["queue"; "lock"] /\ _term_freqs bm !! i = Some tf /\ dget_default term 0 tf <> 0.
Proof.
  exists (default float_zero (scores !! 0%nat)).
  apply (ranked_documents_match log bm ["queue"; "lock"] scores _ 2); vm_compute; [reflexivity|].
  left.
Defined.

Lemma snippet_window_witness :
  let chars := utf8_chars "a lock is held by the queue" in
  exists p r a,
    rarest (Some (doc_freqs the_index)) (hits ["queue"; "lock"] (finditer 0 None chars)) p r /\
    0 <= a <= Z.of_nat p /\ Z.of_nat p < a + 6 <= Z.of_nat (length chars) /\
    _best_snippet "a lock is held by the queue" ["queue"; "lock"] 6 (Some (doc_freqs the_index))
    = (if 0 <? a then ["."; "."; "."] else []) ++ slice a (a + 6) chars ++
      (if a + 6 <? Z.of_nat (length chars) then ["."; "."; "."] else []).
Proof.
  apply (snippet_window "a lock is held by the queue" ["queue"; "lock"] 6 (Some (doc_freqs the_index)));
    [lia | vm_compute; reflexivity | vm_compute; discriminate].
Defined.

Lemma search_errors_witness :
  raises_in (score_error_classes ++ [BM25IndexCorruptedError; ContentStoreCorruptedError] ++ [])
    (search_index log loader metas "queue lock" the_index 10).
Proof.
  apply (search_errors log loader metas "queue lock" the_index 10 []).
  - intros x. unfold log. destruct (float_lt _ _); [exact I | left].
  - intros ks. exact I.
  - vm_compute. repeat split.
Defined.

End EngineSample.
