(* ===== verification/SearchStores.v ===== *)
(** * SearchStores: extraction, the four search files and the operations across them

    [src/forge/search/extractor.py], [search/store.py] (metadata), [search/content_store.py],
    [search/index_state.py] (fingerprints), [search/cleanup.py], and the places where the
    files meet: [_index_handler] of [cli/main.py] (publishing a transcript), [_search_project]
    and [_run_clean] of [cli/search.py]. The BM25 file and its operations are [SearchIndex]'s.

    A project is its four index files. Every store operation is a read-modify-write of one
    file under its lock and writes by atomic replacement; what can happen between two of
    them (a lock timeout, a failing write, the death of the process) is the argument
    [fails] of the operations that span several files: it may stop them before any step. *)

From S2P Require Import Prelude PyValue PyFloat StateIO Transcript SearchIndex SearchEngine.
From Stdlib Require Import SpecFloat.

(** ** Extraction *)

Definition TOOL_RESULT_TRUNCATE_CHARS : nat := 500.
Definition TOOL_ARG_TRUNCATE_CHARS : nat := 100.

(** [SearchDocument]. *)
Record SearchDocument := {
  sd_transcript_path : string;
  sd_session_name : string;
  sd_session_id : string;
  sd_content : string;
  sd_extracted_at : string;
  sd_metadata : dict;
  sd_tokens : option (list string) }.

Section Extraction.

(** [str] and [json.dumps(_, ensure_ascii=False)] on a decoded value that is not a [str]. *)
Variables (py_str json_dumps : value -> string).

Definition str_of (v : value) : string := match v with VStr s => s | _ => py_str v end.

(** The text of a [tool_use] block. *)
Definition tool_use_text (block : dict) : string :=
  let name := str_of (dget_default "name" (VStr "unknown") block) in
  match dget_default "input" (VDict []) block with
  | VDict inp =>
      let path := py_or (dgetv "file_path" inp) (dgetv "path" inp) in
      let cmd := dgetv "command" inp in
      if truthy path then name +++ "(path=" +++ truncate (str_of path) TOOL_ARG_TRUNCATE_CHARS +++ ")"
      else if truthy cmd then
        name +++ "(command=" +++ truncate (str_of cmd) TOOL_ARG_TRUNCATE_CHARS +++ ")"
      else name +++ "(...)"
  | _ => name +++ "(...)"
  end.

(** The text of a [tool_result] block, empty when there is none. *)
Definition tool_result_text (block : dict) : list string :=
  let result := match dget_default "content" (VStr "") block with
                | VStr s => s
                | v => json_dumps v
                end in
  if String.eqb result "" then []
  else ["[result: " +++ truncate result TOOL_RESULT_TRUNCATE_CHARS +++ "]"].

(** The loop's body for one block. *)
Definition block_text (block : value) : list string :=
  match block with
  | VDict b =>
      let block_type := dgetv "type" b in
      if py_eq block_type (VStr "text") then
        match dgetv "text" b with
        | VStr t => if String.eqb t "" then [] else [t]
        | _ => []
        end
      else if py_eq block_type (VStr "tool_use") then [tool_use_text b]
      else if py_eq block_type (VStr "tool_result") then tool_result_text b
      else []
  | _ => []
  end.

(** [_extract_entry_text]: the role, the text and the timestamp. *)
Definition _extract_entry_text (entry : dict) : option (string * string * string) :=
  match dgetv "message" entry with
  | VDict message =>
      match dgetv "role" message with
      | VStr role =>
          if String.eqb role "user" || String.eqb role "assistant" then
            match dgetv "content" message with
            | VList content =>
                match mjoin (block_text <$> content) with
                | [] => None
                | text_parts =>
                    let timestamp := match dget_default "timestamp" (VStr "") entry with
                                     | VStr s => s
                                     | _ => ""
                                     end in
                    Some (role, str_join " " text_parts, timestamp)
                end
            | _ => None
            end
          else None
      | _ => None
      end
  | _ => None
  end.

(** The loop's variables. *)
Record extraction := {
  ex_parts : list string;
  ex_message_count : Z;
  ex_first_ts : string;
  ex_last_ts : string }.

Definition extract_entry (x : extraction) (entry : dict) : extraction :=
  match _extract_entry_text entry with
  | None => x
  | Some (role, text, timestamp) =>
      {| ex_parts := ex_parts x ++ ["[" +++ role +++ "] " +++ text];
         ex_message_count := ex_message_count x + 1;
         ex_first_ts := if String.eqb timestamp "" then ex_first_ts x
                        else if String.eqb (ex_first_ts x) "" then timestamp else ex_first_ts x;
         ex_last_ts := if String.eqb timestamp "" then ex_last_ts x else timestamp |}
  end.

(** [extract_document], the file's lines as [Transcript] reads them. *)
Definition extract_document (transcript_path session_name session_id worktree_path now : string)
    (f : option (list line)) : res SearchDocument :=
  match f with
  | None => raise FileNotFoundError transcript_path
  | Some _ =>
      entries ← parse_jsonl_transcript f;
      entries ← mapM_res (fun v => match v with
                                   | VDict d => Ok d
                                   | v => raise AttributeError
                                            ("'" +++ type_name v +++ "' object has no attribute 'get'")
                                   end) entries;
      let x := foldl extract_entry
                 {| ex_parts := []; ex_message_count := 0; ex_first_ts := ""; ex_last_ts := "" |}
                 entries in
      let content := str_join newline (ex_parts x) in
      Ok {| sd_transcript_path := transcript_path;
            sd_session_name := session_name;
            sd_session_id := session_id;
            sd_content := content;
            sd_extracted_at := now;
            sd_metadata := [("message_count", VInt (ex_message_count x));
                            ("first_timestamp", VStr (ex_first_ts x));
                            ("last_timestamp", VStr (ex_last_ts x));
                            ("worktree_path", VStr worktree_path)];
            sd_tokens := Some (tokenize content) |}
  end.

End Extraction.

(** [decompose_document]. *)
Definition doc_tokens (doc : SearchDocument) : list string :=
  match sd_tokens doc with Some t => t | None => tokenize (sd_content doc) end.

Definition decompose_document (doc : SearchDocument) : SearchDocumentMeta * counts * Z * string :=
  let tokens := doc_tokens doc in
  ({| transcript_path := sd_transcript_path doc;
      session_name := sd_session_name doc;
      session_id := sd_session_id doc;
      extracted_at := sd_extracted_at doc;
      metadata := sd_metadata doc |},
   term_freq_of tokens, Z.of_nat (length tokens), sd_content doc).

(** ** The metadata store *)

(** The reader a store hands to [read_versioned_json_object]. *)
Definition store_reader (py_str : value -> string) (path : string) (version : Z)
    (corrupted unreadable : exn_class) : reader :=
  {| rd_version_key := "schema_version";
     rd_expected_version := version;
     rd_corrupted_error := corrupted;
     rd_unreadable_error := unreadable;
     rd_missing_version := None;
     rd_missing_version_reason := Some "missing schema_version";
     rd_none_is_missing := true;
     rd_on_version_mismatch :=
       Some (fun _ v => schema_version_error path (pretty version) (py_str v)) |}.

Definition DOCUMENT_STORE_VERSION : Z := 1.
Definition CONTENT_STORE_VERSION : Z := 1.
Definition INDEX_STATE_VERSION : Z := 1.

Section Stores.

Variables (py_str json_dumps : value -> string).

(** [dacite.from_dict(SearchDocumentMeta, raw, Config(strict=True))]. *)
Variable dacite_from_dict : dict -> res SearchDocumentMeta.

(** What [os.stat] returns for a path: the modification time and the size. What reading a
    path as a transcript gives, [None] when it is not a file. *)
Variable stat : string -> res (spec_float * Z).
Variable lines_of : string -> option (list line).

Definition is_file (path : string) : bool := bool_decide (is_Some (lines_of path)).

(** [SearchDocumentMeta.to_dict]. *)
Definition meta_to_dict (m : SearchDocumentMeta) : dict :=
  [("transcript_path", VStr (transcript_path m)); ("session_name", VStr (session_name m));
   ("session_id", VStr (session_id m)); ("extracted_at", VStr (extracted_at m));
   ("metadata", VDict (metadata m))].

Definition doc_path : string := "documents.json".
Definition content_path : string := "content.json".
Definition bm25_path : string := "bm25_index.json".
Definition state_path : string := "state.json".

Definition document_reader : reader :=
  store_reader py_str doc_path DOCUMENT_STORE_VERSION
    SearchDocumentStoreCorruptedError SearchDocumentStoreUnreadableError.

Definition rebuild_hint : string := ". Run 'forge search rebuild-index' to fix.".

(** One entry of the [documents] loop. *)
Definition read_document (p : nat * value) : res SearchDocumentMeta :=
  match snd p with
  | VDict raw =>
      match dacite_from_dict raw with
      | Ok doc => Ok doc
      | Err e =>
          if bool_decide (exn_cls e ∈ [DaciteError; KeyError; TypeError])
          then state_error SearchDocumentStoreCorruptedError doc_path
                 ("entry " +++ pretty (fst p) +++ " deserialization error: " +++ exn_msg e +++ rebuild_hint)
          else Err e
      end
  | v => state_error SearchDocumentStoreCorruptedError doc_path
           ("entry " +++ pretty (fst p) +++ " is " +++ type_name v +++ ", expected object" +++ rebuild_hint)
  end.

(** [SearchDocumentStore.read]. *)
Definition read_documents (f : option content) : res (list SearchDocumentMeta) :=
  match f with
  | None => Ok []
  | Some c =>
      data ← read_versioned_json_object py_str doc_path document_reader c;
      match dget_default "documents" (VList []) data with
      | VList raw_docs => mapM_res read_document (enumerate raw_docs)
      | v => state_error SearchDocumentStoreCorruptedError doc_path
               ("'documents' is " +++ type_name v +++ ", expected list" +++ rebuild_hint)
      end
  end.

(** [SearchDocumentStore.write]. *)
Definition write_documents (now : string) (docs : list SearchDocumentMeta) : content :=
  CJson (VDict [("schema_version", VInt DOCUMENT_STORE_VERSION); ("updated_at", VStr now);
                ("documents", VList ((fun d => VDict (meta_to_dict d)) <$> docs))]).

Definition other_documents (path : string) (docs : list SearchDocumentMeta) : list SearchDocumentMeta :=
  filter (fun d => transcript_path d <> path) docs.

(** [SearchDocumentStore.add]. *)
Definition add_document (doc : SearchDocumentMeta) (now : string) (f : option content) :
    res (option content) :=
  docs ← read_documents f;
  Ok (Some (write_documents now (other_documents (transcript_path doc) docs ++ [doc]))).

(** [SearchDocumentStore.find_missing] and [prune_missing]. *)
Definition missing_documents (docs : list SearchDocumentMeta) : list string :=
  transcript_path <$> filter (fun d => is_file (transcript_path d) = false) docs.

Definition prune_missing_documents (now : string) (f : option content) :
    res (list string * option content) :=
  docs ← read_documents f;
  let kept := filter (fun d => is_file (transcript_path d) = true) docs in
  match missing_documents docs with
  | [] => Ok ([], f)
  | removed => Ok (removed, Some (write_documents now kept))
  end.

(** [SearchDocumentStore.remove]. *)
Definition remove_meta (path now : string) (f : option content) : res (bool * option content) :=
  docs ← read_documents f;
  let filtered := other_documents path docs in
  if Nat.eqb (length filtered) (length docs) then Ok (false, f)
  else Ok (true, Some (write_documents now filtered)).

(** ** The content store *)

Definition content_reader : reader :=
  store_reader py_str content_path CONTENT_STORE_VERSION
    ContentStoreCorruptedError ContentStoreUnreadableError.

(** One item of the [content] loop; a decoded object's keys are strings. *)
Definition read_content_item (p : string * value) : res (string * string) :=
  match snd p with
  | VStr s => Ok (fst p, s)
  | v => state_error ContentStoreCorruptedError content_path
           ("content entry " +++ py_repr (fst p) +++ " is " +++ type_name v +++ ", expected string" +++
            rebuild_hint)
  end.

(** [ContentStore.read_all]. *)
Definition read_all (f : option content) : res (list (string * string)) :=
  match f with
  | None => Ok []
  | Some c =>
      data ← read_versioned_json_object py_str content_path content_reader c;
      match dget_default "content" (VDict []) data with
      | VDict items => mapM_res read_content_item items
      | v => state_error ContentStoreCorruptedError content_path
               ("'content' is " +++ type_name v +++ ", expected object" +++ rebuild_hint)
      end
  end.

(** [{k: all_content[k] for k in keys if k in all_content}]. *)
Definition select_keys (keys : list string) (all : list (string * string)) : list (string * string) :=
  foldl (fun acc k => match dget k all with Some v => dset k v acc | None => acc end) [] keys.

(** [ContentStore.read_keys]. *)
Definition read_keys (f : option content) (keys : list string) : res (list (string * string)) :=
  all ← read_all f;
  Ok (select_keys keys all).

(** [ContentStore.write]. *)
Definition write_content (now : string) (m : list (string * string)) : content :=
  CJson (VDict [("schema_version", VInt CONTENT_STORE_VERSION); ("updated_at", VStr now);
                ("content", VDict ((fun p => (fst p, VStr (snd p))) <$> m))]).

(** [ContentStore.add]. *)
Definition add_content (key text now : string) (f : option content) : res (option content) :=
  m ← read_all f;
  Ok (Some (write_content now (dset key text m))).

(** [ContentStore.remove]. *)
Definition remove_content (key now : string) (f : option content) : res (bool * option content) :=
  m ← read_all f;
  if dhas key m then Ok (true, Some (write_content now (ddel key m))) else Ok (false, f).

(** [ContentStore.prune_keys]. *)
Definition prune_keys (valid_keys : list string) (now : string) (f : option content) :
    res (list string * option content) :=
  m ← read_all f;
  match filter (fun k => k ∉ valid_keys) (dkeys m) with
  | [] => Ok ([], f)
  | removed => Ok (removed, Some (write_content now (foldl (fun m k => ddel k m) m removed)))
  end.

(** ** The index state *)

(** [IndexFingerprint], [IndexedFileEntry], [IndexState]. *)
Record IndexFingerprint := { fp_path : string; fp_mtime : spec_float; fp_size : Z }.

Record IndexedFileEntry := { en_mtime : spec_float; en_size : Z; en_indexed_at : string }.

Record IndexState := {
  is_updated_at : value;
  indexed_files : list (string * IndexedFileEntry) }.

Definition new_state : IndexState := {| is_updated_at := VStr ""; indexed_files := [] |}.

(** [_require_absolute]. *)
Definition _require_absolute (path : string) : res unit :=
  if startswith "/" path then Ok tt
  else raise ValueError ("path must be absolute, got: " +++ path).

(** [capture_index_fingerprint]. *)
Definition capture_index_fingerprint (path : string) : res IndexFingerprint :=
  _require_absolute path ≫= fun _ =>
  st ← stat path;
  Ok {| fp_path := path; fp_mtime := fst st; fp_size := snd st |}.

(** [==] on fingerprints, the generated dataclass equality. *)
Definition fingerprint_eqb (a b : IndexFingerprint) : bool :=
  String.eqb (fp_path a) (fp_path b) && SFeqb (fp_mtime a) (fp_mtime b) && (fp_size a =? fp_size b).

(** [except OSError]. *)
Definition is_os_error (e : pyexn) : bool := bool_decide (exn_cls e ∈ [OSError; FileNotFoundError]).

(** [matches_index_fingerprint]. *)
Definition matches_index_fingerprint (path : string) (fp : IndexFingerprint) : res bool :=
  _require_absolute path ≫= fun _ =>
  if negb (String.eqb path (fp_path fp)) then
    raise ValueError ("fingerprint path " +++ py_repr (fp_path fp) +++ " does not match " +++ path)
  else
    match capture_index_fingerprint path with
    | Ok now => Ok (fingerprint_eqb now fp)
    | Err e => if is_os_error e then Ok false else Err e
    end.

(** [IndexState.needs_reindex]. *)
Definition needs_reindex (path : string) (s : IndexState) : res bool :=
  _require_absolute path ≫= fun _ =>
  match capture_index_fingerprint path with
  | Err e => if is_os_error e then Ok false else Err e
  | Ok fp =>
      match dget path (indexed_files s) with
      | None => Ok true
      | Some entry => Ok (negb (SFeqb (en_mtime entry) (fp_mtime fp)) || negb (en_size entry =? fp_size fp))
      end
  end.

(** [IndexState.mark_indexed]. *)
Definition mark_state (path : string) (fp : option IndexFingerprint) (now : string) (s : IndexState) :
    res IndexState :=
  _require_absolute path ≫= fun _ =>
  fp ← match fp with
       | None =>
           match capture_index_fingerprint path with
           | Ok fp => Ok fp
           | Err e => if is_os_error e then raise FileNotFoundError path else Err e
           end
       | Some fp =>
           if negb (String.eqb (fp_path fp) path) then
             raise ValueError ("fingerprint path " +++ py_repr (fp_path fp) +++ " does not match " +++ path)
           else Ok fp
       end;
  Ok {| is_updated_at := is_updated_at s;
        indexed_files := dset path {| en_mtime := fp_mtime fp; en_size := fp_size fp;
                                      en_indexed_at := now |} (indexed_files s) |}.

(** [IndexState.prune_missing]: what it removes and the state after it. *)
Definition prune_state (s : IndexState) : list string * IndexState :=
  let to_remove := filter (fun k => is_file k = false) (dkeys (indexed_files s)) in
  (to_remove,
   {| is_updated_at := is_updated_at s;
      indexed_files := foldl (fun d k => ddel k d) (indexed_files s) to_remove |}).

(** [d[k]]. *)
Definition py_item (k : string) (d : dict) : res value :=
  match dget k d with Some v => Ok v | None => raise KeyError (py_repr k) end.

(** One row of [indexed_files]. *)
Definition read_row (val : dict) : res IndexedFileEntry :=
  m ← py_item "mtime" val;
  mtime ← py_float m;
  s ← py_item "size" val;
  size ← py_int s;
  Ok {| en_mtime := mtime; en_size := size;
        en_indexed_at := str_of py_str (dget_default "indexed_at" (VStr "") val) |}.

(** The loop over the rows: malformed ones are skipped. *)
Definition read_rows (raw : dict) : res (list (string * IndexedFileEntry)) :=
  foldM_res (fun acc p =>
    match snd p with
    | VDict val =>
        match read_row val with
        | Ok entry => Ok (dset (fst p) entry acc)
        | Err e => if bool_decide (exn_cls e ∈ [KeyError; TypeError; ValueError]) then Ok acc else Err e
        end
    | _ => Ok acc
    end) [] raw.

Definition state_reader : reader :=
  store_reader py_str state_path INDEX_STATE_VERSION IndexStateCorruptedError IndexStateUnreadableError.

(** [IndexStateStore.read]. *)
Definition read_state (f : option content) : res IndexState :=
  match f with
  | None => Ok new_state
  | Some c =>
      data ← read_versioned_json_object py_str state_path state_reader c;
      rows ← match dget_default "indexed_files" (VDict []) data with
             | VDict raw => read_rows raw
             | _ => Ok []
             end;
      Ok {| is_updated_at := dget_default "updated_at" (VStr "") data; indexed_files := rows |}
  end.

Definition row_value (e : IndexedFileEntry) : value :=
  VDict [("mtime", VFloat (en_mtime e)); ("size", VInt (en_size e)); ("indexed_at", VStr (en_indexed_at e))].

(** [IndexStateStore.write]. *)
Definition write_state (now : string) (s : IndexState) : content :=
  CJson (VDict [("schema_version", VInt INDEX_STATE_VERSION); ("updated_at", VStr now);
                ("indexed_files", VDict ((fun p => (fst p, row_value (snd p))) <$> indexed_files s))]).

(** [IndexStateStore.update]. *)
Definition update_state (mutate : IndexState -> res IndexState) (now : string) (f : option content) :
    res (option content) :=
  s ← read_state f;
  s ← mutate s;
  Ok (Some (write_state now s)).

(** [IndexStateStore.mark_indexed] and [prune_missing]. *)
Definition mark_indexed (path : string) (fp : option IndexFingerprint) (now : string) :
    option content -> res (option content) :=
  update_state (mark_state path fp now) now.

Definition prune_missing_state (now : string) (f : option content) :
    res (list string * option content) :=
  s ← read_state f;
  let '(removed, s) := prune_state s in
  Ok (removed, Some (write_state now s)).

(** ** Operations across the files *)

(** A project's search files. *)
Record project := {
  pj_documents : option content;
  pj_content : option content;
  pj_bm25 : option content;
  pj_state : option content }.

Definition empty_project : project :=
  {| pj_documents := None; pj_content := None; pj_bm25 := None; pj_state := None |}.

Definition set_documents (f : option content) (p : project) : project :=
  {| pj_documents := f; pj_content := pj_content p; pj_bm25 := pj_bm25 p; pj_state := pj_state p |}.
Definition set_content (f : option content) (p : project) : project :=
  {| pj_documents := pj_documents p; pj_content := f; pj_bm25 := pj_bm25 p; pj_state := pj_state p |}.
Definition set_bm25 (f : option content) (p : project) : project :=
  {| pj_documents := pj_documents p; pj_content := pj_content p; pj_bm25 := f; pj_state := pj_state p |}.
Definition set_state (f : option content) (p : project) : project :=
  {| pj_documents := pj_documents p; pj_content := pj_content p; pj_bm25 := pj_bm25 p; pj_state := f |}.

(** A sequence of store operations, the [n]-th of which may be stopped before it starts. *)
Definition act := project -> res project.

Section Failures.

Variable fails : nat -> option pyexn.

Fixpoint run_acts (n : nat) (acts : list act) (p : project) : project * res unit :=
  match acts with
  | [] => (p, Ok tt)
  | a :: acts =>
      match fails n with
      | Some e => (p, Err e)
      | None => match a p with Ok p => run_acts (S n) acts p | Err e => (p, Err e) end
      end
  end.

End Failures.

Definition on_documents (g : option content -> res (option content)) : act :=
  fun p => f ← g (pj_documents p); Ok (set_documents f p).
Definition on_content (g : option content -> res (option content)) : act :=
  fun p => f ← g (pj_content p); Ok (set_content f p).
Definition on_bm25 (g : option content -> res (option content)) : act :=
  fun p => f ← g (pj_bm25 p); Ok (set_bm25 f p).
Definition on_state (g : option content -> res (option content)) : act :=
  fun p => f ← g (pj_state p); Ok (set_state f p).

(** The four writes that publish a document, in the handler's order. *)
Definition publish (path : string) (doc : SearchDocument) (fp : IndexFingerprint) (now : string) : list act :=
  let '(meta, term_freq, doc_len, text) := decompose_document doc in
  [on_documents (add_document meta now);
   on_bm25 (fun f => Some <$> upsert_document py_str bm25_path (sd_transcript_path doc) term_freq doc_len now f);
   on_content (add_content (sd_transcript_path doc) text now);
   on_state (mark_indexed path (Some fp) now)].

(** [except StateError]. *)
Definition is_state_exn (e : pyexn) : bool :=
  bool_decide (exn_cls e ∈ [StateNotFoundError; StateUnreadableError; StateCorruptedError;
                            SchemaVersionError; IndexStateCorruptedError; IndexStateUnreadableError]).

(** [not index_store.read().needs_reindex(transcript_abs)], and [except StateError]. *)
Definition unchanged (path : string) (f : option content) : res bool :=
  match (s ← read_state f; needs_reindex path s) with
  | Ok needed => Ok (negb needed)
  | Err e => if is_state_exn e then Ok false else Err e
  end.

(** [_index_handler] from the check of the transcript's path on. [changed_before] and
    [changed_after] tell whether the file's fingerprint differs at the two later checks. *)
Definition index_handler (fails : nat -> option pyexn)
    (path session_name session_id worktree_path : string) (changed_before changed_after : bool)
    (now : string) (p : project) : project * res unit :=
  if negb (is_file path) then (p, raise FileNotFoundError ("Transcript not found: " +++ path))
  else
    match unchanged path (pj_state p) with
    | Err e => (p, Err e)
    | Ok true => (p, Ok tt)
    | Ok false =>
        match (fp ← capture_index_fingerprint path;
               doc ← extract_document py_str json_dumps path session_name session_id worktree_path now
                       (lines_of path);
               Ok (fp, doc)) with
        | Err e => (p, Err e)
        | Ok (fp, doc) =>
            if changed_before : bool then
              (p, raise RuntimeError ("transcript changed while indexing: " +++ path))
            else
              let '(p, r) := run_acts fails 0 (publish path doc fp now) p in
              match r with
              | Err e => (p, Err e)
              | Ok _ =>
                  if changed_after : bool then
                    (p, raise RuntimeError ("transcript changed while indexing: " +++ path))
                  else (p, Ok tt)
              end
        end
    end.

(** [_search_project], without an index [None]. *)
Definition search_project (math_log : spec_float -> res spec_float) (query : string) (limit : Z)
    (p : project) : res (option (list SearchResult)) :=
  bm25_index ← read py_str bm25_path (pj_bm25 p);
  match bm25_index with
  | None => Ok None
  | Some d =>
      doc_metas ← read_documents (pj_documents p);
      match doc_metas, doc_keys d with
      | [], [] => Ok None
      | _, _ =>
          let meta_map := dupdate [] ((fun m => (transcript_path m, m)) <$> doc_metas) in
          Some <$> search_index math_log (read_keys (pj_content p)) meta_map query d limit
      end
  end.

(** The writes of [_run_clean --yes]: the orphaned documents of the metadata store, then each
    of them in the two other stores, then the stale fingerprints. *)
Definition run_clean (fails : nat -> option pyexn) (now : string) (p : project) :
    project * res unit :=
  match fails 0%nat with
  | Some e => (p, Err e)
  | None =>
      match prune_missing_documents now (pj_documents p) with
      | Err e => (p, Err e)
      | Ok (removed_docs, f) =>
          let removals := mjoin ((fun path =>
                [on_bm25 (fun f => snd <$> remove_document py_str bm25_path path now f);
                 on_content (fun f => snd <$> remove_content path now f)]) <$> removed_docs) in
          run_acts fails 1
            (removals ++ [on_state (fun f => snd <$> prune_missing_state now f)])
            (set_documents f p)
      end
  end.

(** [rebuild_index_cmd]: the data assembled from the extracted documents and the writes of its
    [publish]. *)
Definition rebuild_tokens (doc : SearchDocument) : list string :=
  match sd_tokens doc with Some t => t | None => [] end.

Definition rebuild_index (fails : nat -> option pyexn) (docs : list (SearchDocument * IndexFingerprint))
    (now : string) (p : project) : project * res unit :=
  let metas := (fun q => (decompose_document (fst q)).1.1.1) <$> docs in
  let content_map := foldl (fun m q => dset (sd_transcript_path (fst q)) (sd_content (fst q)) m) [] docs in
  match rebuilt ((fun q => (sd_transcript_path (fst q), rebuild_tokens (fst q))) <$> docs) with
  | Err e => (p, Err e)
  | Ok data =>
      run_acts fails 0
        [fun p => Ok (set_documents (Some (write_documents now metas)) p);
         fun p => Ok (set_bm25 (Some (replace_all data now)) p);
         fun p => Ok (set_content (Some (write_content now content_map)) p);
         fun p => s ← foldM_res (fun s q => mark_state (sd_transcript_path (fst q)) (Some (snd q)) now s)
                        new_state docs;
                  Ok (set_state (Some (write_state now s)) p)] p
  end.

(** [_read_state] of [cleanup.py]: malformed rows are refused instead of skipped. *)
Definition strict_row (val : value) : bool :=
  match val with
  | VDict d =>
      Nat.eqb (length d) 3 && forallb (fun k => dhas k d) ["mtime"; "size"; "indexed_at"] &&
      match dgetv "mtime" d with VInt _ | VFloat _ => true | _ => false end &&
      match dgetv "size" d with VInt _ => true | _ => false end &&
      match dgetv "indexed_at" d with VStr _ => true | _ => false end
  | _ => false
  end.

Definition read_state_strict (f : option content) : res IndexState :=
  let malformed := raise ValueError ("Malformed search fingerprints at " +++ state_path +++
                                     "; run 'forge search rebuild-index'") in
  match f with
  | None => read_state f
  | Some (CUnreadable e) => raise OSError e
  | Some (CNotUtf8 e) => raise UnicodeDecodeError e
  | Some (CBadJson e) => raise JSONDecodeError e
  | Some (CJson raw) =>
      match raw with
      | VDict d =>
          match dgetv "indexed_files" d with
          | VDict entries => if forallb (fun p => strict_row (snd p)) entries then read_state f else malformed
          | _ => malformed
          end
      | _ => malformed
      end
  end.

(** [indexed_transcript_paths], as the list the set is built from. *)
Definition indexed_transcript_paths (p : project) : res (list string) :=
  documents ← read_documents (pj_documents p);
  text ← read_all (pj_content p);
  bm25 ← read py_str bm25_path (pj_bm25 p);
  state ← read_state_strict (pj_state p);
  Ok ((transcript_path <$> documents) ++ dkeys text ++
      match bm25 with Some d => doc_keys d | None => [] end ++ dkeys (indexed_files state)).

(** The positions of the kept documents, applied to one of the aligned lists. *)
Definition at_positions {A} (keep : list nat) (l : list A) : res (list A) :=
  mapM_res (fun i => match l !! i with Some x => Ok x | None => raise IndexError "list index out of range" end)
    keep.

(** [Counter.update] over the terms with a positive count. *)
Definition count_terms (tfs : list counts) : counts :=
  foldl (fun acc tf => foldl incr acc (dkeys (filter (fun p => 0 < snd p) tf))) [] tfs.

(** The BM25 part of [remove_transcript_paths]. *)
Definition drop_documents (keys : list string) (d : BM25IndexData) : res BM25IndexData :=
  let keep := fst <$> filter (fun p => snd p ∉ keys) (enumerate (doc_keys d)) in
  ks ← at_positions keep (doc_keys d);
  lens ← at_positions keep (doc_lens d);
  tfs ← at_positions keep (term_freqs d);
  avg ← average lens;
  Ok {| doc_keys := ks; doc_lens := lens; term_freqs := tfs; doc_freqs := count_terms tfs;
        avgdl := avg; k1 := k1 d; b := b d; tokenizer_id := tokenizer_id d |}.

(** A write, when something is to be written. *)
Definition write_if (needed : bool) (a : act) : list act := if needed then [a] else [].

(** [remove_transcript_paths]: everything is read, and refused, before the first write. *)
Definition remove_transcript_paths (fails : nat -> option pyexn) (keys : list string) (now : string)
    (p : project) : project * res unit :=
  let exists_any := bool_decide (is_Some (pj_documents p)) || bool_decide (is_Some (pj_content p)) ||
                    bool_decide (is_Some (pj_bm25 p)) || bool_decide (is_Some (pj_state p)) in
  if bool_decide (keys = []) || negb exists_any then (p, Ok tt)
  else
    match (documents ← read_documents (pj_documents p);
           text ← read_all (pj_content p);
           bm25 ← read py_str bm25_path (pj_bm25 p);
           state ← read_state_strict (pj_state p);
           Ok (documents, text, bm25, state)) with
    | Err e => (p, Err e)
    | Ok (documents, text, bm25, state) =>
        let kept_documents := filter (fun d => transcript_path d ∉ keys) documents in
        let kept_content := filter (fun q => fst q ∉ keys) text in
        let kept_state := filter (fun q => fst q ∉ keys) (indexed_files state) in
        run_acts fails 0
          (write_if (negb (Nat.eqb (length kept_documents) (length documents)))
             (fun p => Ok (set_documents (Some (write_documents now kept_documents)) p)) ++
           write_if (negb (Nat.eqb (length kept_content) (length text)))
             (fun p => Ok (set_content (Some (write_content now kept_content)) p)) ++
           match bm25 with
           | Some d =>
               write_if (existsb (fun k => bool_decide (k ∈ keys)) (doc_keys d))
                 (fun p => d' ← drop_documents keys d; Ok (set_bm25 (Some (write now d')) p))
           | None => []
           end ++
           write_if (negb (Nat.eqb (length kept_state) (length (indexed_files state))))
             (fun p => Ok (set_state (Some (write_state now
                {| is_updated_at := is_updated_at state; indexed_files := kept_state |})) p))) p
    end.

End Stores.

(** ** Lemmas: what is written is read back *)

Section Properties.

Context (py_str json_dumps : value -> string) (dacite_from_dict : dict -> res SearchDocumentMeta).
Context (stat : string -> res (spec_float * Z)) (lines_of : string -> option (list line)).

(** [dacite] rebuilds a dataclass from its own [asdict]. *)
Hypothesis dacite_roundtrip : forall m, dacite_from_dict (meta_to_dict m) = Ok m.

Notation read_documents := (read_documents py_str dacite_from_dict).
Notation read_all := (read_all py_str).
Notation read_state := (read_state py_str).
Notation is_file := (is_file lines_of).

Lemma read_write_documents now docs : read_documents (Some (write_documents now docs)) = Ok docs.
Proof.
  unfold SearchStores.read_documents, write_documents.
  set (l := (fun d => VDict (meta_to_dict d)) <$> docs).
  change (mapM_res (read_document dacite_from_dict) (enumerate l) = Ok docs). subst l.
  apply mapM_res_enumerate. intros i m. unfold read_document. cbn [snd]. by rewrite dacite_roundtrip.
Qed.

Lemma read_write_content now m : read_all (Some (write_content now m)) = Ok m.
Proof.
  unfold SearchStores.read_all, write_content.
  set (l := (fun p : string * string => (fst p, VStr (snd p))) <$> m).
  change (mapM_res read_content_item l = Ok m). subst l. apply mapM_res_fmap. by intros [k v].
Qed.

Lemma row_value_read e : exists d, row_value e = VDict d /\ read_row py_str d = Ok e.
Proof. eexists. split; [reflexivity|]. by destruct e. Qed.

Lemma read_rows_written acc rows :
  NoDup (dkeys (acc ++ rows)) ->
  foldM_res (fun acc p =>
    match snd p with
    | VDict val =>
        match read_row py_str val with
        | Ok entry => Ok (dset (fst p) entry acc)
        | Err e => if bool_decide (exn_cls e ∈ [KeyError; TypeError; ValueError]) then Ok acc else Err e
        end
    | _ => Ok acc
    end) acc ((fun p => (fst p, row_value (snd p))) <$> rows) = Ok (acc ++ rows).
Proof.
  revert acc. induction rows as [|[k e] rows IH]; intros acc Hnd; [by rewrite app_nil_r|].
  rewrite fmap_cons. cbn [foldM_res fst snd].
  destruct (row_value_read e) as (d & -> & ->).
  rewrite res_bind_ok, dset_new.
  - rewrite IH; rewrite <- app_assoc; done.
  - apply dget_None. unfold dkeys in *. rewrite fmap_app, fmap_cons in Hnd.
    apply NoDup_app in Hnd as (_ & Hdis & _). intros Hk. eapply Hdis; [exact Hk|left].
Qed.

Lemma read_write_state now s :
  NoDup (dkeys (indexed_files s)) ->
  read_state (Some (write_state now s)) = Ok {| is_updated_at := VStr now; indexed_files := indexed_files s |}.
Proof.
  intros Hnd. unfold SearchStores.read_state, write_state.
  set (l := (fun p : string * IndexedFileEntry => (fst p, row_value (snd p))) <$> indexed_files s).
  change ((rows ← read_rows py_str l; Ok {| is_updated_at := VStr now; indexed_files := rows |})
          = Ok {| is_updated_at := VStr now; indexed_files := indexed_files s |}).
  subst l. unfold read_rows. by rewrite (read_rows_written [] (indexed_files s)).
Qed.

Lemma read_strict_written now s :
  NoDup (dkeys (indexed_files s)) ->
  read_state_strict py_str (Some (write_state now s))
  = Ok {| is_updated_at := VStr now; indexed_files := indexed_files s |}.
Proof.
  intros Hnd. rewrite <- read_write_state by done. unfold read_state_strict, write_state.
  set (l := (fun p : string * IndexedFileEntry => (fst p, row_value (snd p))) <$> indexed_files s).
  change (dgetv "indexed_files" _) with (VDict l). cbv beta iota.
  assert (forallb (fun p => strict_row (snd p)) l = true) as ->; [|done].
  subst l. clear Hnd. by induction (indexed_files s) as [|[k e] l IH].
Qed.

(** ** The invariant *)

Definition meta_paths (metas : list SearchDocumentMeta) : list string := transcript_path <$> metas.

(** The four files hold these contents. *)
Record holds (p : project) (metas : list SearchDocumentMeta) (texts : list (string * string))
    (docs : list (string * list string)) (st : IndexState) : Prop := {
  ho_metas : read_documents (pj_documents p) = Ok metas;
  ho_texts : read_all (pj_content p) = Ok texts;
  ho_index : file_indexes py_str bm25_path (pj_bm25 p) docs;
  ho_state : read_state (pj_state p) = Ok st;
  ho_strict : read_state_strict py_str (pj_state p) = Ok st;
  ho_metas_nodup : NoDup (meta_paths metas);
  ho_texts_nodup : NoDup (dkeys texts);
  ho_docs_ok : docs_ok docs;
  ho_state_nodup : NoDup (dkeys (indexed_files st)) }.

(** The order of publication: metadata before the index, the fingerprint last. *)
Record ordered (metas : list SearchDocumentMeta) (texts : list (string * string))
    (docs : list (string * list string)) (st : IndexState) : Prop := {
  or_index : forall k, k ∈ fst <$> docs -> k ∈ meta_paths metas;
  or_state : forall k, k ∈ dkeys (indexed_files st) -> k ∈ fst <$> docs /\ k ∈ dkeys texts }.

Definition consistent (p : project) : Prop :=
  exists metas texts docs st, holds p metas texts docs st /\ ordered metas texts docs st.

Lemma consistent_empty : consistent empty_project.
Proof.
  exists [], [], [], new_state. split; split; simpl; try done; try constructor; try constructor.
  all: intros k Hk; by apply elem_of_nil in Hk.
Qed.

Lemma meta_paths_other path metas :
  NoDup (meta_paths metas) -> NoDup (meta_paths (other_documents path metas)) /\
  (forall k, k ∈ meta_paths (other_documents path metas) <-> k ∈ meta_paths metas /\ k <> path).
Proof.
  intros Hnd. unfold meta_paths, other_documents in *.
  assert (Hel : forall k, k ∈ transcript_path <$> filter (fun d => transcript_path d <> path) metas
                          <-> k ∈ transcript_path <$> metas /\ k <> path).
  { intros k. rewrite !list_elem_of_fmap. setoid_rewrite list_elem_of_filter. naive_solver. }
  split; [|done]. by apply NoDup_fmap_filter.
Qed.

Lemma dkeys_elem {V} k (d : list (string * V)) : k ∈ dkeys d <-> is_Some (dget k d).
Proof.
  pose proof (dget_None k d) as Hn. destruct (dget k d) as [v|] eqn:Hk.
  - split; [eauto|]. intros _. by eapply dget_Some_keys.
  - split; [|by intros [? ?]]. intros Hin. exfalso. by apply Hn.
Qed.

Lemma without_elem key docs k :
  k ∈ fst <$> without key docs <-> k ∈ fst <$> docs /\ k <> key.
Proof.
  unfold without. rewrite !list_elem_of_fmap. setoid_rewrite list_elem_of_filter. naive_solver.
Qed.

(** ** Lemmas: publishing *)

Lemma holds_set_documents p metas texts docs st now metas' :
  holds p metas texts docs st -> NoDup (meta_paths metas') ->
  holds (set_documents (Some (write_documents now metas')) p) metas' texts docs st.
Proof. intros [] Hnd. split; simpl; try done. exact (read_write_documents now metas'). Qed.

Lemma holds_set_content p metas texts docs st now texts' :
  holds p metas texts docs st -> NoDup (dkeys texts') ->
  holds (set_content (Some (write_content now texts')) p) metas texts' docs st.
Proof. intros [] Hnd. split; simpl; try done. exact (read_write_content now texts'). Qed.

Lemma holds_set_state p metas texts docs st now u fs :
  holds p metas texts docs st -> NoDup (dkeys fs) ->
  holds (set_state (Some (write_state now {| is_updated_at := u; indexed_files := fs |})) p)
    metas texts docs {| is_updated_at := VStr now; indexed_files := fs |}.
Proof. intros [] Hnd. split; simpl; try done; [exact (read_write_state now {| is_updated_at := u; indexed_files := fs |} Hnd)
  | exact (read_strict_written now {| is_updated_at := u; indexed_files := fs |} Hnd)]. Qed.

Lemma holds_set_bm25 p metas texts docs st f docs' :
  holds p metas texts docs st -> file_indexes py_str bm25_path f docs' -> docs_ok docs' ->
  holds (set_bm25 f p) metas texts docs' st.
Proof. intros [] Hf Hok. by split. Qed.

Lemma add_document_holds p metas texts docs st m now :
  holds p metas texts docs st ->
  exists p', on_documents (add_document py_str dacite_from_dict m now) p = Ok p' /\
    holds p' (other_documents (transcript_path m) metas ++ [m]) texts docs st.
Proof.
  intros Hh. unfold on_documents, add_document. rewrite (ho_metas _ _ _ _ _ Hh), !res_bind_ok.
  eexists. split; [done|]. apply (holds_set_documents _ metas); [done|].
  destruct (meta_paths_other (transcript_path m) metas (ho_metas_nodup _ _ _ _ _ Hh)) as [Hnd Hel].
  unfold meta_paths in *. rewrite fmap_app. apply NoDup_app. split_and!; [done| |apply NoDup_singleton].
  intros k Hk%Hel Hk2. simpl in Hk2. apply list_elem_of_singleton in Hk2. naive_solver.
Qed.

Lemma upsert_holds p metas texts docs st path tokens now :
  holds p metas texts docs st -> Z.of_nat (length tokens) < 2 ^ 64 ->
  exists p', on_bm25 (fun f => Some <$> upsert_document py_str bm25_path path (term_freq_of tokens)
                                 (Z.of_nat (length tokens)) now f) p = Ok p' /\
    holds p' metas texts (without path docs ++ [(path, tokens)]) st.
Proof.
  intros Hh Hlen. destruct (step_indexes py_str bm25_path (pj_bm25 p) docs (OUpsert path tokens now)
    (ho_index _ _ _ _ _ Hh) (ho_docs_ok _ _ _ _ _ Hh) Hlen) as (f' & Hf & Hi & Hok).
  unfold on_bm25. cbn [step] in Hf. rewrite Hf, res_bind_ok. eexists. split; [done|].
  by apply (holds_set_bm25 _ _ _ docs).
Qed.

Lemma add_content_holds p metas texts docs st path text now :
  holds p metas texts docs st ->
  exists p', on_content (add_content py_str path text now) p = Ok p' /\
    holds p' metas (dset path text texts) docs st.
Proof.
  intros Hh. unfold on_content, add_content. rewrite (ho_texts _ _ _ _ _ Hh), !res_bind_ok.
  eexists. split; [done|]. apply (holds_set_content _ _ texts); [done|].
  apply NoDup_dset, (ho_texts_nodup _ _ _ _ _ Hh).
Qed.

Lemma mark_state_ok path fp now s :
  startswith "/" path = true -> fp_path fp = path ->
  mark_state stat path (Some fp) now s
  = Ok {| is_updated_at := is_updated_at s;
          indexed_files := dset path {| en_mtime := fp_mtime fp; en_size := fp_size fp;
                                        en_indexed_at := now |} (indexed_files s) |}.
Proof.
  intros Habs Hfp. unfold mark_state, _require_absolute.
  by rewrite Habs, res_bind_ok, Hfp, String.eqb_refl.
Qed.

Lemma mark_holds p metas texts docs st path fp now :
  holds p metas texts docs st -> startswith "/" path = true -> fp_path fp = path ->
  exists p', on_state (mark_indexed py_str stat path (Some fp) now) p = Ok p' /\
    holds p' metas texts docs
      {| is_updated_at := VStr now;
         indexed_files := dset path {| en_mtime := fp_mtime fp; en_size := fp_size fp;
                                       en_indexed_at := now |} (indexed_files st) |}.
Proof.
  intros Hh Habs Hfp. unfold on_state, mark_indexed, update_state.
  rewrite (ho_state _ _ _ _ _ Hh), res_bind_ok, mark_state_ok, !res_bind_ok by done. eexists. split; [done|]. eapply holds_set_state; [done|].
  apply NoDup_dset, (ho_state_nodup _ _ _ _ _ Hh).
Qed.

(** The contents after each of the four writes. *)
Definition st_after (path : string) (fp : IndexFingerprint) (now : string) (st : IndexState) : IndexState :=
  {| is_updated_at := VStr now;
     indexed_files := dset path {| en_mtime := fp_mtime fp; en_size := fp_size fp;
                                   en_indexed_at := now |} (indexed_files st) |}.

Definition meta_of (doc : SearchDocument) : SearchDocumentMeta := (decompose_document doc).1.1.1.

Lemma dkeys_dset_elem {V} k k' (v : V) d : k ∈ dkeys (dset k' v d) <-> k = k' \/ k ∈ dkeys d.
Proof.
  rewrite !dkeys_elem, dget_dset. case_decide; [naive_solver eauto|]. naive_solver.
Qed.

Lemma publish_ordered metas texts docs st doc path fp now tokens text :
  ordered metas texts docs st -> sd_transcript_path doc = path ->
  let metas' := other_documents path metas ++ [meta_of doc] in
  let docs' := without path docs ++ [(path, tokens)] in
  let texts' := dset path text texts in
  NoDup (meta_paths metas) ->
  ordered metas' texts docs st /\ ordered metas' texts docs' st /\ ordered metas' texts' docs' st /\
  ordered metas' texts' docs' (st_after path fp now st).
Proof.
  intros [Hi Hs] Hpath metas' docs' texts' Hnd.
  destruct (meta_paths_other path metas Hnd) as [_ Hel].
  assert (Hm : forall k, k ∈ meta_paths metas' <-> k ∈ meta_paths metas \/ k = path).
  { intros k. unfold metas', meta_paths in *. rewrite fmap_app, elem_of_app, Hel. simpl.
    rewrite list_elem_of_singleton. unfold meta_of. simpl. rewrite Hpath.
    destruct (decide (k = path)); naive_solver. }
  assert (Hd : forall k, k ∈ fst <$> docs' <-> k ∈ fst <$> docs \/ k = path).
  { intros k. unfold docs'. rewrite fmap_app, elem_of_app, without_elem. simpl.
    rewrite list_elem_of_singleton. destruct (decide (k = path)); naive_solver. }
  assert (Ht : forall k, k ∈ dkeys texts' <-> k = path \/ k ∈ dkeys texts) by (intros; apply dkeys_dset_elem).
  split_and!; split; intros k; rewrite ?Hm, ?Hd, ?Ht; simpl; rewrite ?dkeys_dset_elem; naive_solver.
Qed.

(** The project after a complete publication of [doc] at [path]. *)
Definition published (p : project) (metas : list SearchDocumentMeta) (texts : list (string * string))
    (docs : list (string * list string)) (st : IndexState) (path : string) (doc : SearchDocument)
    (fp : IndexFingerprint) (now : string) : Prop :=
  holds p (other_documents path metas ++ [meta_of doc]) (dset path (sd_content doc) texts)
    (without path docs ++ [(path, doc_tokens doc)]) (st_after path fp now st).

Lemma publish_run fails p metas texts docs st doc path fp now :
  holds p metas texts docs st -> ordered metas texts docs st ->
  Z.of_nat (length (doc_tokens doc)) < 2 ^ 64 ->
  startswith "/" path = true -> fp_path fp = path -> sd_transcript_path doc = path ->
  let '(p', r) := run_acts fails 0 (publish py_str dacite_from_dict stat path doc fp now) p in
  consistent p' /\
  (r = Ok tt -> published p' metas texts docs st path doc fp now) /\
  ((forall n, fails n = None) -> r = Ok tt).
Proof.
  intros Hh Ho Hlen Habs Hfp Hpath.
  destruct (publish_ordered metas texts docs st doc path fp now (doc_tokens doc) (sd_content doc)
              Ho Hpath (ho_metas_nodup _ _ _ _ _ Hh)) as (O1 & O2 & O3 & O4).
  destruct (add_document_holds _ _ _ _ _ (meta_of doc) now Hh) as (p1 & E1 & H1).
  assert (transcript_path (meta_of doc) = path) as Hmp by done. rewrite Hmp in H1.
  destruct (upsert_holds _ _ _ _ _ path (doc_tokens doc) now H1 Hlen) as (p2 & E2 & H2).
  destruct (add_content_holds _ _ _ _ _ path (sd_content doc) now H2) as (p3 & E3 & H3).
  destruct (mark_holds _ _ _ _ _ path fp now H3 Habs Hfp) as (p4 & E4 & H4).
  unfold publish, decompose_document. cbn [run_acts]. rewrite Hpath.
  unfold meta_of, decompose_document in E1. cbn [fst] in E1. rewrite Hpath in E1.
  rewrite E1. destruct (fails 0%nat) eqn:F0;
    [split; [by exists metas, texts, docs, st|split; [done|intros Hn; by rewrite Hn in F0]]|].
  rewrite E2. destruct (fails 1%nat) eqn:F1;
    [split; [by eexists _, _, _, _|split; [done|intros Hn; by rewrite Hn in F1]]|].
  rewrite E3. destruct (fails 2%nat) eqn:F2;
    [split; [by eexists _, _, _, _|split; [done|intros Hn; by rewrite Hn in F2]]|].
  rewrite E4. destruct (fails 3%nat) eqn:F3;
    [split; [by eexists _, _, _, _|split; [done|intros Hn; by rewrite Hn in F3]]|].
  split; [by eexists _, _, _, _|]. done.
Qed.

(** ** Lemmas: the handler *)

Notation handler := (index_handler py_str json_dumps dacite_from_dict stat lines_of).
Notation extract path sn si wp now := (extract_document py_str json_dumps path sn si wp now (lines_of path)).

Lemma capture_ok path fp :
  capture_index_fingerprint stat path = Ok fp ->
  startswith "/" path = true /\ fp_path fp = path /\ stat path = Ok (fp_mtime fp, fp_size fp).
Proof.
  unfold capture_index_fingerprint, _require_absolute. destruct (startswith "/" path); [|done].
  rewrite res_bind_ok. destruct (stat path) as [[m s]|]; [|done]. rewrite res_bind_ok.
  intros [= <-]. done.
Qed.

Lemma extract_path path sn si wp now f doc :
  extract_document py_str json_dumps path sn si wp now f = Ok doc -> sd_transcript_path doc = path.
Proof.
  unfold extract_document. destruct f; [|done]. destruct (parse_jsonl_transcript _); [|done].
  rewrite res_bind_ok. destruct (mapM_res _ _); [|done]. rewrite res_bind_ok. by intros [= <-].
Qed.

(** Whatever stops it, the handler leaves the project consistent; and when it returns having
    found the transcript in need of indexing, the project holds the extracted document. *)
Lemma handler_consistent fails path sn si wp cb ca now p :
  consistent p ->
  (forall doc, extract path sn si wp now = Ok doc -> Z.of_nat (length (doc_tokens doc)) < 2 ^ 64) ->
  consistent (fst (handler fails path sn si wp cb ca now p)).
Proof.
  intros Hp Hsmall. unfold index_handler. case_match; [done|].
  destruct (unchanged _ _ _ _) as [[]|]; try done.
  destruct (capture_index_fingerprint stat path) as [fp|] eqn:Hc; [|done]. rewrite res_bind_ok.
  destruct (extract path sn si wp now) as [doc|] eqn:Hx; [|done]. rewrite res_bind_ok.
  destruct cb; [done|]. destruct Hp as (metas & texts & docs & st & Hh & Ho).
  apply capture_ok in Hc as (Habs & Hfp & _).
  pose proof (publish_run fails p metas texts docs st doc path fp now Hh Ho (Hsmall _ eq_refl) Habs Hfp
                (extract_path _ _ _ _ _ _ _ Hx)) as Hrun.
  destruct (run_acts _ _ _ p) as [p' [r|e]]; [|apply Hrun].
  destruct ca; apply Hrun.
Qed.

Lemma handler_publishes path sn si wp now p metas texts docs st doc fp :
  holds p metas texts docs st -> ordered metas texts docs st ->
  is_file path = true -> capture_index_fingerprint stat path = Ok fp ->
  extract path sn si wp now = Ok doc -> Z.of_nat (length (doc_tokens doc)) < 2 ^ 64 ->
  needs_reindex stat path st = Ok true ->
  exists p', handler (fun _ => None) path sn si wp false false now p = (p', Ok tt) /\
    published p' metas texts docs st path doc fp now.
Proof.
  intros Hh Ho Hfile Hc Hx Hsmall Hneed. unfold index_handler, unchanged. rewrite Hfile. cbn [negb].
  rewrite (ho_state _ _ _ _ _ Hh), res_bind_ok, Hneed. cbn [negb].
  rewrite Hc, res_bind_ok, Hx, res_bind_ok. apply capture_ok in Hc as (Habs & Hfp & _).
  pose proof (publish_run (fun _ => None) p metas texts docs st doc path fp now Hh Ho Hsmall Habs Hfp
                (extract_path _ _ _ _ _ _ _ Hx)) as Hrun.
  destruct (run_acts _ _ _ p) as [p' r]. destruct Hrun as (_ & Hpub & Hok).
  rewrite (Hok (fun _ => eq_refl)) in *. eauto.
Qed.

(** A published transcript is skipped as long as its file does not change. *)
Lemma handler_skips path sn si wp cb ca now now' fails p metas texts docs st doc fp :
  published p metas texts docs st path doc fp now ->
  is_file path = true -> capture_index_fingerprint stat path = Ok fp ->
  SFeqb (fp_mtime fp) (fp_mtime fp) = true ->
  handler fails path sn si wp cb ca now' p = (p, Ok tt).
Proof.
  intros Hp Hfile Hc Hnan. unfold index_handler, unchanged. rewrite Hfile. cbn [negb].
  rewrite (ho_state _ _ _ _ _ Hp), res_bind_ok. unfold needs_reindex.
  pose proof (capture_ok _ _ Hc) as (Habs & _). unfold _require_absolute. rewrite Habs, res_bind_ok, Hc.
  unfold st_after. cbn [indexed_files]. rewrite dget_dset_eq. cbn [en_mtime en_size].
  by rewrite Hnan, Z.eqb_refl.
Qed.

(** ** Lemmas: removing documents *)

Definition no_failure : nat -> option pyexn := fun _ => None.

Lemma run_acts_app n l1 l2 p :
  run_acts no_failure n (l1 ++ l2) p =
  let '(p', r) := run_acts no_failure n l1 p in
  match r with Ok _ => run_acts no_failure (n + length l1) l2 p' | Err e => (p', Err e) end.
Proof.
  revert n p. induction l1 as [|a l1 IH]; intros n p; simpl; [by rewrite Nat.add_0_r|].
  destruct (a p); [|done]. rewrite IH. by rewrite Nat.add_succ_r.
Qed.

Lemma dkeys_ddel_elem {V} k k' (d : list (string * V)) :
  NoDup (dkeys d) -> k ∈ dkeys (ddel k' d) <-> k ∈ dkeys d /\ k <> k'.
Proof.
  intros Hnd. rewrite !dkeys_elem, dget_ddel by done. case_decide; [|naive_solver].
  split; [by intros [? ?] | naive_solver].
Qed.

Lemma ddels_elem {V} ks (d : list (string * V)) :
  NoDup (dkeys d) ->
  NoDup (dkeys (foldl (fun d k => ddel k d) d ks)) /\
  forall k, k ∈ dkeys (foldl (fun d k => ddel k d) d ks) <-> k ∈ dkeys d /\ k ∉ ks.
Proof.
  revert d. induction ks as [|k0 ks IH]; intros d Hnd; simpl; [set_solver|].
  destruct (IH (ddel k0 d) (NoDup_ddel _ _ Hnd)) as [Hnd' Hel]. split; [done|].
  intros k. rewrite Hel, dkeys_ddel_elem by done. set_solver.
Qed.

Lemma withouts_elem ks docs k :
  k ∈ fst <$> foldl (fun d k => without k d) docs ks <-> k ∈ fst <$> docs /\ k ∉ ks.
Proof.
  revert docs. induction ks as [|k0 ks IH]; intros docs; simpl; [set_solver|].
  rewrite IH, without_elem. set_solver.
Qed.

(** Removing one path from the index and the content store. *)
Lemma remove_one_holds p metas texts docs st path now n :
  holds p metas texts docs st ->
  exists p', run_acts no_failure n
      [on_bm25 (fun f => snd <$> remove_document py_str bm25_path path now f);
       on_content (fun f => snd <$> remove_content py_str path now f)] p = (p', Ok tt) /\
    holds p' metas (ddel path texts) (without path docs) st.
Proof.
  intros Hh. destruct (step_indexes py_str bm25_path (pj_bm25 p) docs (ORemove path now)
    (ho_index _ _ _ _ _ Hh) (ho_docs_ok _ _ _ _ _ Hh) I) as (f & Hf & Hi & Hok).
  cbn [run_acts no_failure]. unfold on_bm25, on_content. cbn [step] in Hf.
  rewrite Hf, res_bind_ok. pose proof (holds_set_bm25 _ _ _ _ _ f _ Hh Hi Hok) as H1.
  unfold remove_content. rewrite (ho_texts _ _ _ _ _ H1), res_bind_ok.
  destruct (dhas path texts) eqn:Hhas.
  - eexists. split; [done|]. apply (holds_set_content _ _ texts); [done|].
    by apply NoDup_ddel, (ho_texts_nodup _ _ _ _ _ Hh).
  - eexists. split; [done|]. apply dhas_false in Hhas. rewrite (ddel_not_in _ texts) by done. by destruct H1.
Qed.

Lemma remove_each_holds paths p metas texts docs st now n :
  holds p metas texts docs st ->
  exists p', run_acts no_failure n
      (mjoin ((fun path =>
         [on_bm25 (fun f => snd <$> remove_document py_str bm25_path path now f);
          on_content (fun f => snd <$> remove_content py_str path now f)]) <$> paths)) p = (p', Ok tt) /\
    holds p' metas (foldl (fun d k => ddel k d) texts paths) (foldl (fun d k => without k d) docs paths) st.
Proof.
  revert p texts docs n. induction paths as [|path paths IH]; intros p texts docs n Hh; [by exists p|].
  rewrite fmap_cons. change (mjoin (?a :: ?l)) with (a ++ mjoin l). rewrite run_acts_app.
  destruct (remove_one_holds p metas texts docs st path now n Hh) as (p1 & -> & H1). by apply IH.
Qed.

Notation clean := (run_clean py_str dacite_from_dict lines_of).

Lemma missing_elem metas k :
  k ∈ missing_documents lines_of metas <-> k ∈ meta_paths metas /\ is_file k = false.
Proof.
  unfold missing_documents, meta_paths. rewrite !list_elem_of_fmap.
  setoid_rewrite list_elem_of_filter. naive_solver.
Qed.

Lemma prune_documents_holds p metas texts docs st now :
  holds p metas texts docs st ->
  exists f metas', prune_missing_documents py_str dacite_from_dict lines_of now (pj_documents p)
                   = Ok (missing_documents lines_of metas, f) /\
    holds (set_documents f p) metas' texts docs st /\
    forall k, k ∈ meta_paths metas' <-> k ∈ meta_paths metas /\ is_file k = true.
Proof.
  intros Hh. unfold prune_missing_documents. rewrite (ho_metas _ _ _ _ _ Hh), res_bind_ok.
  set (kept := filter (fun d => is_file (transcript_path d) = true) metas).
  assert (Hkel : forall k, k ∈ meta_paths kept <-> k ∈ meta_paths metas /\ is_file k = true).
  { intros k. unfold kept, meta_paths. rewrite !list_elem_of_fmap.
    setoid_rewrite list_elem_of_filter. naive_solver. }
  destruct (missing_documents lines_of metas) as [|r0 r] eqn:Hr.
  - eexists _, metas. split; [done|]. split; [by destruct Hh|]. intros k.
    split; [|naive_solver]. intros Hk. split; [done|]. destruct (is_file k) eqn:Hf; [done|].
    exfalso. apply (not_elem_of_nil k). rewrite <- Hr. by apply missing_elem.
  - eexists _, kept. split; [done|]. split; [|done].
    apply (holds_set_documents _ metas); [done|]. by apply NoDup_fmap_filter, (ho_metas_nodup _ _ _ _ _ Hh).
Qed.

(** A complete cleanup drops what belongs to files that are gone, everywhere. *)
Lemma clean_consistent now p :
  consistent p -> exists p', clean no_failure now p = (p', Ok tt) /\ consistent p'.
Proof.
  intros (metas & texts & docs & st & Hh & Hi & Hs). unfold run_clean. cbn [no_failure].
  destruct (prune_documents_holds p metas texts docs st now Hh) as (f & metas' & -> & H1 & Hm').
  pose proof (missing_elem metas) as Hrem. set (removed := missing_documents lines_of metas) in *.
  rewrite run_acts_app.
  destruct (remove_each_holds removed _ _ _ _ _ now 1 H1) as (p2 & -> & H2).
  unfold on_state, prune_missing_state. cbn [run_acts no_failure].
  rewrite (ho_state _ _ _ _ _ H2), res_bind_ok. unfold prune_state.
  set (gone := filter (fun k => is_file k = false) (dkeys (indexed_files st))).
  destruct (ddels_elem gone (indexed_files st) (ho_state_nodup _ _ _ _ _ Hh)) as [Hnd Hgel].
  destruct (ddels_elem removed texts (ho_texts_nodup _ _ _ _ _ Hh)) as [_ Htel].
  eexists. split; [done|]. eexists _, _, _, _. split; [by eapply holds_set_state|].
  split; intros k; rewrite ?withouts_elem.
  - rewrite Hm', Hrem. intros [Hk Hn]. specialize (Hi k Hk). split; [done|].
    destruct (is_file k) eqn:Hf; [done|]. naive_solver.
  - cbn [indexed_files]. rewrite Hgel, Htel. unfold gone. rewrite list_elem_of_filter.
    intros [Hk Hf]. destruct (Hs k Hk). rewrite Hrem.
    assert (is_file k <> false) by naive_solver. naive_solver.
Qed.

(** ** Lemmas: removing keys from every file *)

Section Removal.

Context (keys : list string).

Definition keep_meta (m : SearchDocumentMeta) : Prop := transcript_path m ∉ keys.
Definition keep_key {A} (q : string * A) : Prop := fst q ∉ keys.

#[local] Instance keep_meta_dec m : Decision (keep_meta m).
Proof. unfold keep_meta. apply _. Defined.
#[local] Instance keep_key_dec {A} (q : string * A) : Decision (keep_key q).
Proof. unfold keep_key. apply _. Defined.

Lemma at_positions_from {A} (g : string * list string -> A) pre docs :
  at_positions (fst <$> filter (fun p => snd p ∉ keys)
                  (zip (seq (length pre) (length docs)) (fst <$> docs))) (pre ++ (g <$> docs))
  = Ok (g <$> filter keep_key docs).
Proof.
  unfold at_positions. revert pre. induction docs as [|x docs IH]; intros pre; [done|].
  cbn [length seq]. rewrite !fmap_cons. cbn [zip zip_with]. specialize (IH (pre ++ [g x])).
  rewrite length_app, Nat.add_1_r, <- app_assoc in IH. simpl app in IH.
  rewrite (filter_cons keep_key). rewrite filter_cons. unfold keep_key at 1. cbn [snd].
  destruct (decide (fst x ∉ keys)) as [Hx|Hx]; [|exact IH].
  rewrite fmap_cons. cbn [mapM_res fst]. rewrite list_lookup_middle by done.
  rewrite res_bind_ok. change (mapM_res _ _) with (mapM_res (fun i => match (pre ++ g x :: (g <$> docs)) !! i with
    | Some y => Ok y | None => raise IndexError "list index out of range" end)
    (fst <$> filter (fun p => snd p ∉ keys) (zip (seq (S (length pre)) (length docs)) (fst <$> docs)))).
  by rewrite IH.
Qed.

Lemma at_positions_filter {A} (g : string * list string -> A) docs :
  at_positions (fst <$> filter (fun p => snd p ∉ keys) (enumerate (fst <$> docs))) (g <$> docs)
  = Ok (g <$> filter keep_key docs).
Proof. unfold enumerate. rewrite length_fmap. apply (at_positions_from g []). Qed.

Lemma count_terms_exact (docs : list (string * list string)) :
  let tfs := (fun p => term_freq_of (snd p)) <$> docs in
  NoDup (dkeys (count_terms tfs)) /\ forall t, dget t (count_terms tfs) = positive (containing t tfs).
Proof.
  intros tfs. unfold count_terms.
  assert (H : forall pre acc, NoDup (dkeys acc) -> (forall t, dget t acc = positive (containing t pre)) ->
    let acc' := foldl (fun acc tf => foldl incr acc (dkeys (filter (fun p => 0 < snd p) tf))) acc tfs in
    NoDup (dkeys acc') /\ forall t, dget t acc' = positive (containing t (pre ++ tfs))).
  { subst tfs. induction docs as [|[k tokens] docs IH]; intros pre acc Hnd Hacc.
    { cbn. by rewrite app_nil_r. }
    rewrite fmap_cons. cbn [foldl snd].
    rewrite filter_all by apply term_freq_inv.
    destruct (add_terms pre acc tokens Hnd Hacc) as [Hnd' Hacc'].
    destruct (IH (pre ++ [term_freq_of tokens]) _ Hnd' Hacc') as [H1 H2]. split; [done|].
    intros t. by rewrite H2, <- app_assoc. }
  apply (H []); [constructor|done].
Qed.

Lemma docs_ok_filter docs : docs_ok docs -> docs_ok (filter keep_key docs).
Proof.
  intros [Hnd Hs]. split; [by apply NoDup_fmap_filter|].
  rewrite Forall_forall in *. intros p [_ Hp]%list_elem_of_filter. by apply Hs.
Qed.

Lemma drop_documents_indexes d docs :
  indexes d docs -> docs_ok docs ->
  exists d', drop_documents keys d = Ok d' /\ indexes d' (filter keep_key docs).
Proof.
  intros [Hks Hlens Htfs _ _ _ Hk1 Hb Hid] Hok. unfold drop_documents. rewrite Hks, Hlens, Htfs.
  rewrite !at_positions_filter, !res_bind_ok.
  unfold average. rewrite length_fmap, truediv_docs by (by apply docs_ok_filter). rewrite res_bind_ok.
  destruct (count_terms_exact (filter keep_key docs)) as [Hnd Hct].
  eexists. split; [done|]. by split.
Qed.

(** *** The stages of the removal *)

Lemma file_indexes_some f docs :
  file_indexes py_str bm25_path f docs -> is_Some f ->
  exists d, read py_str bm25_path f = Ok (Some d) /\ indexes d docs.
Proof. by intros Hf [c ->]. Qed.

(** What a removal that may have been stopped leaves: every file as it was or without the
    keys, and all of them without the keys when it returned. *)
Definition removal_outcome (metas : list SearchDocumentMeta) (texts : list (string * string))
    (docs : list (string * list string)) (rows : list (string * IndexedFileEntry))
    (pr : project * res unit) : Prop :=
  exists metas' texts' docs' st',
    holds (fst pr) metas' texts' docs' st' /\
    (metas' = metas \/ metas' = filter keep_meta metas) /\
    (texts' = texts \/ texts' = filter keep_key texts) /\
    (docs' = docs \/ docs' = filter keep_key docs) /\
    (indexed_files st' = rows \/ indexed_files st' = filter keep_key rows) /\
    (snd pr = Ok tt -> metas' = filter keep_meta metas /\ texts' = filter keep_key texts /\
                      docs' = filter keep_key docs /\ indexed_files st' = filter keep_key rows).

Lemma run_write_if fails n needed a rest p :
  run_acts fails n (write_if needed a ++ rest) p =
  if needed : bool then
    match fails n with
    | Some e => (p, Err e)
    | None => match a p with Ok p' => run_acts fails (S n) rest p' | Err e => (p, Err e) end
    end
  else run_acts fails n rest p.
Proof. by destruct needed. Qed.

Context (fails : nat -> option pyexn) (now : string).
Context (metas : list SearchDocumentMeta) (texts : list (string * string))
        (docs : list (string * list string)) (rows : list (string * IndexedFileEntry)).

Notation outcome := (removal_outcome metas texts docs rows).

Lemma negb_length_filter {A} (P : A -> Prop) `{forall x, Decision (P x)} l :
  negb (Nat.eqb (length (filter P l)) (length l)) = false -> filter P l = l.
Proof. intros Hl%negb_false_iff%Nat.eqb_eq. by apply filter_same_length. Qed.

Lemma stage_state n st u p :
  holds p (filter keep_meta metas) (filter keep_key texts) (filter keep_key docs) st ->
  indexed_files st = rows ->
  outcome (run_acts fails n
    (write_if (negb (Nat.eqb (length (filter keep_key rows)) (length rows)))
       (fun p => Ok (set_state (Some (write_state now
          {| is_updated_at := u; indexed_files := filter keep_key rows |})) p))) p).
Proof.
  intros Hh <-. set (fs := indexed_files st) in *. rewrite <- (app_nil_r (write_if _ _)), run_write_if.
  destruct (negb _) eqn:Hw.
  - destruct (fails n); [by eexists _, _, _, _; split_and!; eauto|].
    eexists _, _, _, _. split; [eapply holds_set_state; [done|]|split_and!; eauto].
    apply NoDup_fmap_filter, (ho_state_nodup _ _ _ _ _ Hh).
  - apply negb_length_filter in Hw. eexists _, _, _, _. split_and!; eauto.
Qed.

Lemma stage_index n d st p rest :
  indexes d docs ->
  holds p (filter keep_meta metas) (filter keep_key texts) docs st -> indexed_files st = rows ->
  (forall n p, holds p (filter keep_meta metas) (filter keep_key texts) (filter keep_key docs) st ->
               outcome (run_acts fails n rest p)) ->
  outcome (run_acts fails n
    (write_if (existsb (fun k => bool_decide (k ∈ keys)) (doc_keys d))
       (fun p => d' ← drop_documents keys d; Ok (set_bm25 (Some (write now d')) p)) ++ rest) p).
Proof.
  intros Hd Hh Hst Hrest. rewrite run_write_if. pose proof (ho_docs_ok _ _ _ _ _ Hh) as Hok.
  destruct (existsb _ _) eqn:Hw.
  - destruct (fails n); [by eexists _, _, _, _; split_and!; eauto|].
    destruct (drop_documents_indexes d docs Hd Hok) as (d' & -> & Hd'). rewrite res_bind_ok.
    apply Hrest. eapply holds_set_bm25; [done|by apply write_indexes|by apply docs_ok_filter].
  - assert (filter keep_key docs = docs) as Heq; [|rewrite Heq in *; auto].
    apply filter_all, Forall_forall. intros q Hq. unfold keep_key.
    rewrite (ix_keys _ _ Hd) in Hw. intros Hin. apply not_true_iff_false in Hw. apply Hw.
    apply existsb_exists. exists (fst q). split; [|by apply bool_decide_eq_true].
    apply list_elem_of_In, list_elem_of_fmap. eauto.
Qed.

Lemma stage_content n st p rest :
  holds p (filter keep_meta metas) texts docs st -> indexed_files st = rows ->
  (forall n p, holds p (filter keep_meta metas) (filter keep_key texts) docs st ->
               outcome (run_acts fails n rest p)) ->
  outcome (run_acts fails n
    (write_if (negb (Nat.eqb (length (filter keep_key texts)) (length texts)))
       (fun p => Ok (set_content (Some (write_content now (filter keep_key texts))) p)) ++ rest) p).
Proof.
  intros Hh Hst Hrest. rewrite run_write_if. destruct (negb _) eqn:Hw.
  - destruct (fails n); [by eexists _, _, _, _; split_and!; eauto|]. apply Hrest.
    eapply holds_set_content; [done|]. apply NoDup_fmap_filter, (ho_texts_nodup _ _ _ _ _ Hh).
  - apply negb_length_filter in Hw. apply Hrest. by rewrite Hw.
Qed.

Lemma stage_documents n st p rest :
  holds p metas texts docs st -> indexed_files st = rows ->
  (forall n p, holds p (filter keep_meta metas) texts docs st -> outcome (run_acts fails n rest p)) ->
  outcome (run_acts fails n
    (write_if (negb (Nat.eqb (length (filter keep_meta metas)) (length metas)))
       (fun p => Ok (set_documents (Some (write_documents now (filter keep_meta metas))) p)) ++ rest) p).
Proof.
  intros Hh Hst Hrest. rewrite run_write_if. destruct (negb _) eqn:Hw.
  - destruct (fails n); [by eexists _, _, _, _; split_and!; eauto|]. apply Hrest.
    eapply holds_set_documents; [done|]. apply NoDup_fmap_filter, (ho_metas_nodup _ _ _ _ _ Hh).
  - apply negb_length_filter in Hw. apply Hrest. by rewrite Hw.
Qed.

Lemma outcome_unchanged p st :
  holds p metas texts docs st -> indexed_files st = rows ->
  filter keep_meta metas = metas -> filter keep_key texts = texts -> filter keep_key docs = docs ->
  filter keep_key rows = rows -> outcome (p, Ok tt).
Proof.
  intros Hh Hst H1 H2 H3 H4. exists metas, texts, docs, st. rewrite H1, H2, H3, H4. split_and!; eauto.
Qed.

Lemma removal_run p st :
  holds p metas texts docs st -> indexed_files st = rows ->
  outcome (remove_transcript_paths py_str dacite_from_dict fails keys now p).
Proof.
  intros Hh Hst. unfold remove_transcript_paths.
  destruct (bool_decide (keys = [])) eqn:Hk.
  { apply bool_decide_eq_true in Hk.
    eapply outcome_unchanged; try done; apply filter_all, Forall_forall; intros x _;
      unfold keep_meta, keep_key; rewrite Hk; apply not_elem_of_nil. }
  simpl orb. destruct (negb _) eqn:Hany.
  { apply negb_true_iff in Hany. repeat rewrite orb_false_iff, !bool_decide_eq_false in Hany.
    destruct Hany as [[[H1 H2] H3] H4]. pose proof Hh as [Hm Ht Hi Hs _ _ _ _ _].
    destruct (pj_documents p), (pj_content p), (pj_bm25 p), (pj_state p); try (exfalso; eauto; done).
    simpl in Hm, Ht, Hi, Hs. injection Hm as Hm. injection Ht as Ht. injection Hs as Hs.
    apply outcome_unchanged with st; [done..| | | |].
    - by rewrite <- Hm.
    - by rewrite <- Ht.
    - by rewrite Hi.
    - by rewrite <- Hst, <- Hs. }
  rewrite (ho_metas _ _ _ _ _ Hh), res_bind_ok, (ho_texts _ _ _ _ _ Hh), res_bind_ok.
  destruct (pj_bm25 p) as [c|] eqn:Hc.
  - destruct (file_indexes_some _ _ (ho_index _ _ _ _ _ Hh)) as (d & Hd & Hi); [by rewrite Hc|].
    rewrite Hc in Hd. rewrite Hd, res_bind_ok, (ho_strict _ _ _ _ _ Hh), !res_bind_ok. rewrite Hst.
    apply stage_documents with st; [done..|]. intros n1 p1 H1.
    apply stage_content with st; [done..|]. intros n2 p2 H2.
    apply stage_index with st; [done..|]. intros n3 p3 H3.
    by apply stage_state with st.
  - pose proof (ho_index _ _ _ _ _ Hh) as Hnil. rewrite Hc in Hnil. simpl in Hnil.
    cbn [read]. rewrite res_bind_ok, (ho_strict _ _ _ _ _ Hh), !res_bind_ok. rewrite Hst.
    apply stage_documents with st; [done..|]. intros n1 p1 H1.
    apply stage_content with st; [done..|]. intros n2 p2 H2.
    apply stage_state with st; [|done]. rewrite Hnil in *. exact H2.
Qed.

End Removal.

(** ** Lemmas: rebuilding *)

Definition rebuild_ok (docs : list (SearchDocument * IndexFingerprint)) : Prop :=
  NoDup ((fun q => sd_transcript_path (fst q)) <$> docs) /\
  Forall (fun q => startswith "/" (sd_transcript_path (fst q)) = true /\
                   fp_path (snd q) = sd_transcript_path (fst q) /\
                   Z.of_nat (length (rebuild_tokens (fst q))) < 2 ^ 64) docs.

Lemma mark_all docs now s :
  Forall (fun q => startswith "/" (sd_transcript_path (fst q)) = true /\
                   fp_path (snd q) = sd_transcript_path (fst q) /\
                   Z.of_nat (length (rebuild_tokens (fst q))) < 2 ^ 64) docs ->
  NoDup (dkeys (indexed_files s)) ->
  exists s', foldM_res (fun s q => mark_state stat (sd_transcript_path (fst q)) (Some (snd q)) now s) s docs
             = Ok s' /\ NoDup (dkeys (indexed_files s')) /\
    forall k, k ∈ dkeys (indexed_files s') <->
              k ∈ dkeys (indexed_files s) \/ k ∈ (fun q => sd_transcript_path (fst q)) <$> docs.
Proof.
  intros Hd. revert s. induction Hd as [|q docs (Habs & Hfp & _) _ IH]; intros s Hnd; cbn [foldM_res].
  { exists s. set_solver. }
  rewrite (mark_state_ok _ _ now s Habs Hfp), res_bind_ok. edestruct IH as (s' & Hs' & Hnd' & Hel).
  2: { exists s'. split; [exact Hs'|]. split; [done|]. intros k. rewrite Hel. cbn [indexed_files].
       rewrite dkeys_dset_elem, fmap_cons, elem_of_cons. naive_solver. }
  by apply NoDup_dset.
Qed.

Lemma content_map_keys docs m :
  NoDup (dkeys m) ->
  let m' := foldl (fun m (q : SearchDocument * IndexFingerprint) =>
                     dset (sd_transcript_path (fst q)) (sd_content (fst q)) m) m docs in
  NoDup (dkeys m') /\
  forall k, k ∈ dkeys m' <-> k ∈ dkeys m \/ k ∈ (fun q => sd_transcript_path (fst q)) <$> docs.
Proof.
  revert m. induction docs as [|q docs IH]; intros m Hnd; cbn [foldl]; [set_solver|].
  destruct (IH _ (NoDup_dset (sd_transcript_path (fst q)) (sd_content (fst q)) m Hnd)) as [H1 H2].
  split; [done|]. intros k. rewrite H2, dkeys_dset_elem, fmap_cons, elem_of_cons. naive_solver.
Qed.

Lemma rebuild_consistent docs now p :
  rebuild_ok docs -> (exists metas texts idx st, holds p metas texts idx st) ->
  exists p', rebuild_index stat no_failure docs now p = (p', Ok tt) /\ consistent p'.
Proof.
  intros [Hnd Hall] (metas & texts & idx & st & Hh). unfold rebuild_index.
  set (pairs := (fun q => (sd_transcript_path (fst q), rebuild_tokens (fst q))) <$> docs).
  assert (Hpairs : fst <$> pairs = (fun q => sd_transcript_path (fst q)) <$> docs)
    by (unfold pairs; by rewrite <- list_fmap_compose).
  assert (Hok : docs_ok pairs).
  { split; [by rewrite Hpairs|]. unfold pairs. apply Forall_fmap. eapply Forall_impl; [exact Hall|].
    intros q (_ & _ & Hlen). exact Hlen. }
  destruct (rebuilt_ok pairs Hok) as (d & -> & Hd). cbn [run_acts no_failure].
  destruct (mark_all docs now new_state Hall) as (s & Hs & Hsnd & Hsel); [constructor|].
  rewrite Hs, res_bind_ok. destruct (content_map_keys docs []) as [Hcnd Hcel]; [constructor|].
  eexists. split; [done|].
  set (metas' := (fun q => (decompose_document (fst q)).1.1.1) <$> docs).
  assert (Hm : meta_paths metas' = (fun q => sd_transcript_path (fst q)) <$> docs)
    by (unfold metas', meta_paths; by rewrite <- list_fmap_compose).
  eexists metas', _, pairs, {| is_updated_at := VStr now; indexed_files := indexed_files s |}. split.
  - destruct s as [u fs]. eapply holds_set_state; [|done]. eapply holds_set_content; [|done].
    eapply holds_set_bm25; [|by apply write_indexes|done].
    eapply holds_set_documents; [done|by rewrite Hm].
  - split; intros k; cbn [indexed_files]; rewrite ?Hm, ?Hpairs; [done|].
    rewrite Hsel, Hcel. simpl. set_solver.
Qed.

(** ** Lemmas: histories *)

(** What happens to a project's search files: an indexing run, stopped anywhere or not; a
    complete cleanup; a complete removal of some transcripts; a complete rebuild. *)
Inductive event :=
| EIndex (fails : nat -> option pyexn) (path sn si wp : string) (cb ca : bool) (now : string)
| EClean (now : string)
| ERemove (keys : list string) (now : string)
| ERebuild (docs : list (SearchDocument * IndexFingerprint)) (now : string).

Definition run_event (p : project) (ev : event) : project :=
  match ev with
  | EIndex fails path sn si wp cb ca now => fst (handler fails path sn si wp cb ca now p)
  | EClean now => fst (clean no_failure now p)
  | ERemove keys now => fst (remove_transcript_paths py_str dacite_from_dict no_failure keys now p)
  | ERebuild docs now => fst (rebuild_index stat no_failure docs now p)
  end.

(** Sizes any transcript has; a rebuild's documents are of distinct absolute paths. *)
Definition event_ok (ev : event) : Prop :=
  match ev with
  | EIndex _ path sn si wp _ _ now =>
      forall doc, extract path sn si wp now = Ok doc -> Z.of_nat (length (doc_tokens doc)) < 2 ^ 64
  | ERebuild docs _ => rebuild_ok docs
  | _ => True
  end.

Definition history (evs : list event) : project := foldl run_event empty_project evs.

Lemma fmap_filter_elem {A} (f : A -> string) (P : string -> Prop) `{forall x, Decision (P x)}
    `{forall x, Decision (P (f x))} (l : list A) k :
  k ∈ f <$> filter (fun x => P (f x)) l <-> k ∈ f <$> l /\ P k.
Proof. rewrite !list_elem_of_fmap. setoid_rewrite list_elem_of_filter. naive_solver. Qed.

(** Filtering every file by the same keys keeps the publication order. *)
Lemma ordered_filter keys metas texts docs st u :
  ordered metas texts docs st ->
  ordered (filter (keep_meta keys) metas) (filter (keep_key keys) texts) (filter (keep_key keys) docs)
    {| is_updated_at := u; indexed_files := filter (keep_key keys) (indexed_files st) |}.
Proof.
  intros [Hi Hs]. unfold keep_meta, keep_key, dkeys, meta_paths in *.
  split; intros k Hk; cbn [indexed_files] in *; apply (fmap_filter_elem fst (fun x => x ∉ keys)) in Hk as [Hk Hn].
  - apply (fmap_filter_elem transcript_path (fun x => x ∉ keys)). split; [by apply Hi|done].
  - destruct (Hs k Hk). split; by apply (fmap_filter_elem fst (fun x => x ∉ keys)).
Qed.

Lemma ordered_state_rows metas texts docs st st' :
  indexed_files st' = indexed_files st -> ordered metas texts docs st -> ordered metas texts docs st'.
Proof. intros Heq [Hi Hs]. split; [done|]. by rewrite Heq. Qed.

Notation remove fails keys now p := (remove_transcript_paths py_str dacite_from_dict fails keys now p).

(** A sequence of operations none of which raises. *)
Definition total_act (a : act) : Prop := forall p, exists p', a p = Ok p'.

Lemma run_total n acts p : Forall total_act acts -> snd (run_acts no_failure n acts p) = Ok tt.
Proof.
  intros Ha. revert n p. induction Ha as [|a acts Ha _ IH]; intros n p; [done|].
  cbn [run_acts no_failure]. destruct (Ha p) as [p' ->]. apply IH.
Qed.

Lemma total_write_if needed a : total_act a -> Forall total_act (write_if needed a).
Proof. intros Ha. destruct needed; by repeat constructor. Qed.

(** Without interruption every write of a removal succeeds. *)
Lemma remove_never_fails keys now p metas texts docs st :
  holds p metas texts docs st -> snd (remove no_failure keys now p) = Ok tt.
Proof.
  intros Hh. unfold remove_transcript_paths. destruct (_ || _); [done|].
  rewrite (ho_metas _ _ _ _ _ Hh), res_bind_ok, (ho_texts _ _ _ _ _ Hh), res_bind_ok.
  pose proof (ho_index _ _ _ _ _ Hh) as Hix. destruct (pj_bm25 p) as [c|] eqn:Hc.
  - destruct Hix as (d & Hd & Hi). rewrite Hd, res_bind_ok, (ho_strict _ _ _ _ _ Hh), !res_bind_ok.
    destruct (drop_documents_indexes keys d docs Hi (ho_docs_ok _ _ _ _ _ Hh)) as (d' & Hd' & _).
    apply run_total. rewrite !Forall_app. split_and!; apply total_write_if; intros q; rewrite ?Hd'; eauto.
  - cbn [read]. rewrite res_bind_ok, (ho_strict _ _ _ _ _ Hh), !res_bind_ok.
    apply run_total. rewrite !Forall_app. split_and!; try apply Forall_nil_2; apply total_write_if; intros q; eauto.
Qed.

Lemma remove_consistent keys now p :
  consistent p -> consistent (fst (remove no_failure keys now p)).
Proof.
  intros (metas & texts & docs & st & Hh & Ho).
  destruct (removal_run keys no_failure now metas texts docs (indexed_files st) p st Hh eq_refl)
    as (metas' & texts' & docs' & st' & Hh' & _ & _ & _ & _ & Hdone).
  pose proof (remove_never_fails keys now p metas texts docs st Hh) as Hok.
  destruct (Hdone Hok) as (-> & -> & -> & Hrows). eexists _, _, _, _. split; [exact Hh'|].
  eapply ordered_state_rows; [|apply (ordered_filter keys _ _ _ _ VNone Ho)]. done.
Qed.

Lemma history_consistent evs : Forall event_ok evs -> consistent (history evs).
Proof.
  unfold history. intros Hevs. generalize consistent_empty. generalize empty_project.
  induction Hevs as [|ev evs Hev _ IH]; intros p Hp; [done|]. cbn [foldl]. apply IH. clear IH.
  destruct ev as [fails path sn si wp cb ca now|now|keys now|docs now]; cbn [run_event].
  - by apply handler_consistent.
  - destruct (clean_consistent now p Hp) as (p' & -> & ?). done.
  - by apply remove_consistent.
  - destruct Hp as (metas & texts & idx & st & Hh & _).
    destruct (rebuild_consistent docs now p Hev) as (p' & -> & ?); [by eauto|]. done.
Qed.

(** ** Lemmas: searching a consistent project *)

Lemma dkeys_dupdate {V} k (d e : list (string * V)) : k ∈ dkeys (dupdate d e) <-> k ∈ dkeys d \/ k ∈ dkeys e.
Proof.
  revert d. induction e as [|[j v] e IH]; intros d; [set_solver|].
  change (dupdate d ((j, v) :: e)) with (dupdate (dset j v d) e).
  rewrite IH, dkeys_dset_elem. unfold dkeys. rewrite fmap_cons, elem_of_cons. naive_solver.
Qed.

Lemma meta_map_has metas k :
  k ∈ meta_paths metas -> dhas k (dupdate [] ((fun m => (transcript_path m, m)) <$> metas)) = true.
Proof.
  intros Hk. rewrite dhas_keys. apply bool_decide_eq_true, dkeys_dupdate. right.
  unfold dkeys, meta_paths in *. by rewrite <- list_fmap_compose.
Qed.

Lemma search_index_with_metadata math_log loader meta query d limit cs :
  (forall x, raises_in [ValueError] (math_log x)) -> (forall ks, raises_in cs (loader ks)) ->
  aligned d -> (forall k, k ∈ doc_keys d -> dhas k meta = true) ->
  raises_in (score_error_classes ++ [ContentStoreCorruptedError; KeyError] ++ cs)
    (search_index math_log loader meta query d limit).
Proof.
  intros Hlog Hload (Hl & Ht & _) Hmeta. unfold search_index, search_from_index.
  destruct (_ || _); [done|]. destruct (tokenize query) as [|q0 q]; [done|].
  assert (filter (fun k => dhas k meta = false) (doc_keys d) = []) as ->.
  { apply filter_none, Forall_forall. intros k Hk. by rewrite Hmeta. }
  apply raises_in_bind.
  { eapply raises_in_weaken; [|apply raises_in_score; simpl; done || congruence]. set_solver. }
  intros scores _. destruct (rank scores (doc_keys d) limit) as [|x top]; [done|].
  apply raises_in_bind; [eapply raises_in_weaken; [|apply Hload]; set_solver|].
  intros content_map _. case_match; [|simpl; set_solver].
  apply raises_in_mapM. intros [s key]. unfold make_result. repeat case_match; simpl; done || set_solver.
Qed.

Lemma search_consistent math_log query limit p :
  (forall x, raises_in [ValueError] (math_log x)) -> consistent p ->
  raises_in (score_error_classes ++ [ContentStoreCorruptedError; KeyError])
    (search_project py_str dacite_from_dict math_log query limit p).
Proof.
  intros Hlog (metas & texts & docs & st & Hh & Hi & _). unfold search_project.
  destruct (pj_bm25 p) as [c|] eqn:Hc; [|done].
  destruct (file_indexes_some _ _ (ho_index _ _ _ _ _ Hh)) as (d & Hd & Hix); [by rewrite Hc|].
  rewrite Hc in Hd. pose proof (read_aligned _ _ _ _ Hd) as Hal.
  rewrite Hd, res_bind_ok, (ho_metas _ _ _ _ _ Hh), res_bind_ok.
  assert (Hs : raises_in (score_error_classes ++ [ContentStoreCorruptedError; KeyError])
            (search_index math_log (read_keys py_str (pj_content p))
               (dupdate [] ((fun m => (transcript_path m, m)) <$> metas)) query d limit)).
  { eapply raises_in_weaken; [|apply (search_index_with_metadata _ _ _ _ _ _ []); [done| |done|]].
    - set_solver.
    - intros ks. unfold read_keys. by rewrite (ho_texts _ _ _ _ _ Hh).
    - intros k Hk. apply meta_map_has, Hi. by rewrite <- (ix_keys _ _ Hix). }
  destruct metas, (doc_keys d); try done; unfold fmap, res_fmap; by destruct (search_index _ _ _ _ _ _).
Qed.

(** The keys [indexed_transcript_paths] collects. *)
Lemma paths_of_holds p metas texts docs st l k :
  holds p metas texts docs st -> indexed_transcript_paths py_str dacite_from_dict p = Ok l ->
  k ∈ l <-> k ∈ transcript_path <$> metas \/ k ∈ fst <$> texts \/ k ∈ fst <$> docs \/
            k ∈ fst <$> indexed_files st.
Proof.
  intros Hh Hl. unfold indexed_transcript_paths in Hl.
  rewrite (ho_metas _ _ _ _ _ Hh), res_bind_ok, (ho_texts _ _ _ _ _ Hh), res_bind_ok in Hl.
  pose proof (ho_index _ _ _ _ _ Hh) as Hix. destruct (pj_bm25 p) as [c|].
  - destruct Hix as (d & Hd & Hix). rewrite Hd, res_bind_ok, (ho_strict _ _ _ _ _ Hh), res_bind_ok in Hl.
    injection Hl as <-. rewrite (ix_keys _ _ Hix), !elem_of_app. done.
  - cbn [read] in Hl. rewrite res_bind_ok, (ho_strict _ _ _ _ _ Hh), res_bind_ok in Hl.
    injection Hl as <-. simpl in Hix. subst docs. unfold dkeys. set_solver.
Qed.

Lemma filtered_metas keys (metas : list SearchDocumentMeta) k :
  k ∈ transcript_path <$> filter (keep_meta keys) metas <-> k ∈ transcript_path <$> metas /\ k ∉ keys.
Proof. apply (fmap_filter_elem transcript_path (fun x => x ∉ keys)). Qed.

Lemma filtered_keys {A} keys (l : list (string * A)) k :
  k ∈ fst <$> filter (keep_key keys) l <-> k ∈ fst <$> l /\ k ∉ keys.
Proof. apply (fmap_filter_elem fst (fun x => x ∉ keys)). Qed.

(** What a published transcript's files hold. *)
Definition in_stores (p : project) (path : string) (doc : SearchDocument) (fp : IndexFingerprint)
    (now : string) : Prop :=
  (exists metas, read_documents (pj_documents p) = Ok metas /\
     filter (fun m => transcript_path m = path) metas = [meta_of doc]) /\
  (exists texts, read_all (pj_content p) = Ok texts /\ dget path texts = Some (sd_content doc)) /\
  (exists d, read py_str bm25_path (pj_bm25 p) = Ok (Some d) /\
     last (doc_keys d) = Some path /\ last (term_freqs d) = Some (term_freq_of (doc_tokens doc)) /\
     last (doc_lens d) = Some (Z.of_nat (length (doc_tokens doc)))) /\
  (exists st, read_state (pj_state p) = Ok st /\
     dget path (indexed_files st) = Some {| en_mtime := fp_mtime fp; en_size := fp_size fp;
                                            en_indexed_at := now |}).

Lemma published_in_stores p metas texts docs st path doc fp now :
  published p metas texts docs st path doc fp now -> sd_transcript_path doc = path ->
  in_stores p path doc fp now.
Proof.
  intros Hp Hpath. split_and!.
  - eexists. split; [exact (ho_metas _ _ _ _ _ Hp)|]. rewrite filter_app, filter_cons_True by done.
    rewrite filter_none; [done|]. unfold other_documents. apply Forall_forall.
    by intros m [Hm _]%list_elem_of_filter.
  - eexists. split; [exact (ho_texts _ _ _ _ _ Hp)|]. apply dget_dset_eq.
  - pose proof (ho_index _ _ _ _ _ Hp) as Hix. destruct (pj_bm25 p) as [c|] eqn:Hc.
    + destruct Hix as (d & Hd & [Hk Hl Ht _ _ _ _ _ _]). exists d.
      rewrite Hk, Hl, Ht, !fmap_app. simpl. rewrite !last_snoc. done.
    + simpl in Hix. by destruct (without path docs).
  - eexists. split; [exact (ho_state _ _ _ _ _ Hp)|]. simpl. by rewrite dget_dset_eq.
Qed.

(** ** Properties *)

(** C38: Whatever indexing runs (each possibly stopped before any of its writes), cleanups,
    removals and rebuilds a project has seen, a transcript recorded as indexed is in all three
    search stores, and a query never fails for a document without metadata. *)
Theorem publication_consistent math_log evs :
  (forall x, raises_in [ValueError] (math_log x)) -> Forall event_ok evs ->
  let p := history evs in
  (exists metas texts st, read_documents (pj_documents p) = Ok metas /\
     read_all (pj_content p) = Ok texts /\ read_state (pj_state p) = Ok st /\
     forall path, path ∈ dkeys (indexed_files st) ->
       path ∈ meta_paths metas /\ path ∈ dkeys texts /\
       exists d, read py_str bm25_path (pj_bm25 p) = Ok (Some d) /\ path ∈ doc_keys d) /\
  forall query limit e,
    search_project py_str dacite_from_dict math_log query limit p = Err e ->
    exn_cls e <> BM25IndexCorruptedError.
Proof.
  intros Hlog Hevs p. pose proof (history_consistent evs Hevs) as Hc. fold p in Hc. split.
  - destruct Hc as (metas & texts & docs & st & Hh & Hi & Hs).
    exists metas, texts, st. split_and!; try apply Hh. intros path Hpath.
    destruct (Hs path Hpath) as [Hd Ht]. split_and!; [by apply Hi|done|].
    pose proof (ho_index _ _ _ _ _ Hh) as Hix. destruct (pj_bm25 p) as [c|].
    + destruct Hix as (d & Hread & Hix). exists d. split; [done|]. by rewrite (ix_keys _ _ Hix).
    + simpl in Hix. subst docs. by apply elem_of_nil in Hd.
  - intros query limit e He. pose proof (search_consistent math_log query limit p Hlog Hc) as Hr.
    rewrite He in Hr. simpl in Hr. intros Hcls. rewrite Hcls in Hr. unfold score_error_classes in Hr.
    set_solver.
Qed.

(** A handler run that nothing stops publishes the extracted transcript in the four files
    whatever interrupted runs came before it, and from then on the transcript is skipped until
    its file changes. *)
Theorem retry_publishes evs path sn si wp now doc fp :
  Forall event_ok evs -> is_file path = true ->
  capture_index_fingerprint stat path = Ok fp -> SFeqb (fp_mtime fp) (fp_mtime fp) = true ->
  extract path sn si wp now = Ok doc -> Z.of_nat (length (doc_tokens doc)) < 2 ^ 64 ->
  unchanged py_str stat path (pj_state (history evs)) = Ok false ->
  exists p', handler no_failure path sn si wp false false now (history evs) = (p', Ok tt) /\
    in_stores p' path doc fp now /\
    forall fails cb ca now', handler fails path sn si wp cb ca now' p' = (p', Ok tt).
Proof.
  intros Hevs Hfile Hc Hnan Hx Hsmall Hneed.
  destruct (history_consistent evs Hevs) as (metas & texts & docs & st & Hh & Ho).
  assert (Hn : needs_reindex stat path st = Ok true).
  { unfold unchanged in Hneed. rewrite (ho_state _ _ _ _ _ Hh), res_bind_ok in Hneed.
    destruct (needs_reindex stat path st) as [[]|e] eqn:Hn; try done.
    unfold needs_reindex, _require_absolute in Hn.
    pose proof (capture_ok _ _ Hc) as (Habs & _). rewrite Habs, res_bind_ok, Hc in Hn.
    by destruct (dget path (indexed_files st)). }
  destruct (handler_publishes path sn si wp now _ metas texts docs st doc fp Hh Ho Hfile Hc Hx Hsmall Hn)
    as (p' & Hrun & Hpub).
  exists p'. split; [exact Hrun|]. split.
  - eapply published_in_stores; [done|]. by eapply extract_path.
  - intros. by eapply handler_skips.
Qed.

(** Removing transcripts is retryable: after a removal stopped before any of its writes,
    running it again completes, the files are again in publication order (no document without
    metadata), and they hold exactly the other transcripts' entries. *)
Theorem removal_retry evs fails keys now now' :
  Forall event_ok evs ->
  let p := history evs in
  let p1 := fst (remove fails keys now p) in
  exists p2, remove no_failure keys now' p1 = (p2, Ok tt) /\ consistent p2 /\
    forall before after, indexed_transcript_paths py_str dacite_from_dict p = Ok before ->
      indexed_transcript_paths py_str dacite_from_dict p2 = Ok after ->
      forall k, k ∈ after <-> k ∈ before /\ k ∉ keys.
Proof.
  intros Hevs p p1. destruct (history_consistent evs Hevs) as (metas & texts & docs & st & Hh & Ho).
  destruct (removal_run keys fails now metas texts docs (indexed_files st) p st Hh eq_refl)
    as (metas1 & texts1 & docs1 & st1 & Hh1 & Hm & Ht & Hd & Hs & _). fold p1 in Hh1.
  destruct (removal_run keys no_failure now' metas1 texts1 docs1 (indexed_files st1) p1 st1 Hh1 eq_refl)
    as (metas2 & texts2 & docs2 & st2 & Hh2 & _ & _ & _ & _ & Hdone).
  pose proof (remove_never_fails keys now' p1 _ _ _ _ Hh1) as Hok. specialize (Hdone Hok).
  destruct (remove no_failure keys now' p1) as [p2 r] eqn:Hr. simpl in Hok, Hh2. subst r.
  destruct Hdone as (E1 & E2 & E3 & E4).
  assert (metas2 = filter (keep_meta keys) metas) as -> by (by destruct Hm; subst; rewrite ?filter_idem).
  assert (texts2 = filter (keep_key keys) texts) as -> by (by destruct Ht; subst; rewrite ?filter_idem).
  assert (docs2 = filter (keep_key keys) docs) as -> by (by destruct Hd; subst; rewrite ?filter_idem).
  assert (indexed_files st2 = filter (keep_key keys) (indexed_files st)) as Hrows
    by (rewrite E4; destruct Hs as [-> | ->]; by rewrite ?filter_idem).
  exists p2. split; [done|]. split.
  { eexists _, _, _, _. split; [exact Hh2|].
    eapply ordered_state_rows; [|apply (ordered_filter keys _ _ _ _ VNone Ho)]. done. }
  intros before after Hb Ha k.
  rewrite (paths_of_holds _ _ _ _ _ _ k Hh Hb), (paths_of_holds _ _ _ _ _ _ k Hh2 Ha), Hrows.
  rewrite filtered_metas, !filtered_keys. tauto.
Qed.

End Properties.

(** ** Witnesses *)

Module StoresSample.

Definition field_str (k : string) (d : dict) : string :=
  match dgetv k d with VStr s => s | _ => "" end.

Definition from_dict (d : dict) : res SearchDocumentMeta :=
  match dget "metadata" d with
  | Some (VDict m) =>
      Ok {| transcript_path := field_str "transcript_path" d; session_name := field_str "session_name" d;
            session_id := field_str "session_id" d; extracted_at := field_str "extracted_at" d;
            metadata := m |}
  | _ => raise DaciteError "wrong value type for field metadata"
  end.

Lemma from_dict_roundtrip m : from_dict (meta_to_dict m) = Ok m.
Proof. by destruct m. Defined.

Definition show (_ : value) : string := "?".
Definition path : string := "/p/.forge/t.jsonl".
Definition the_lines : list line :=
  [LJson (VDict [("timestamp", VStr "t1");
                 ("message", VDict [("role", VStr "user");
                                    ("content", VList [VDict [("type", VStr "text");
                                                              ("text", VStr "drain the work queue")]])])])].
Definition lines_of (p : string) : option (list line) := if String.eqb p path then Some the_lines else None.
Definition stat (p : string) : res (spec_float * Z) :=
  if String.eqb p path then Ok (float_of_Z 17, 200) else raise FileNotFoundError p.
Definition doc : SearchDocument :=
  match extract_document show show path "demo" "s" "/p" "t" (lines_of path) with
  | Ok d => d
  | Err _ => {| sd_transcript_path := ""; sd_session_name := ""; sd_session_id := ""; sd_content := "";
                sd_extracted_at := ""; sd_metadata := []; sd_tokens := None |}
  end.
Definition fp : IndexFingerprint := {| fp_path := path; fp_mtime := float_of_Z 17; fp_size := 200 |}.

Definition stop_at (k n : nat) : option pyexn :=
  if Nat.eqb n k then Some (PyExn FileLockTimeoutError "locked") else None.

(** An indexing run stopped before the content is written, then a cleanup. *)
Definition events : list event := [EIndex (stop_at 2) path "demo" "s" "/p" false false "t"; EClean "t"].

Lemma events_ok : Forall (event_ok show show lines_of) events.
Proof.
  repeat apply Forall_cons_2; try apply Forall_nil_2; simpl; [|exact I].
  intros d Hd. vm_compute in Hd. injection Hd as <-. vm_compute. reflexivity.
Defined.

Definition log := EngineSample.log.

Lemma log_domain x : raises_in [ValueError] (log x).
Proof. unfold log, EngineSample.log. destruct (float_lt _ _); [exact I | left]. Defined.

Definition project_after : project := history show show from_dict stat lines_of events.

Lemma publication_consistent_witness :
  is_ok (search_project show from_dict log "queue" 10 project_after) = false /\
  forall query limit e, search_project show from_dict log query limit project_after = Err e ->
    exn_cls e <> BM25IndexCorruptedError.
Proof.
  split; [vm_compute; reflexivity|].
  exact (proj2 (publication_consistent show show from_dict stat lines_of from_dict_roundtrip log events
                  log_domain events_ok)).
Defined.

Lemma retry_publishes_witness :
  exists p', index_handler show show from_dict stat lines_of no_failure path "demo" "s" "/p" false false "t"
               project_after = (p', Ok tt) /\
    in_stores show from_dict p' path doc fp "t" /\
    forall fails cb ca now', index_handler show show from_dict stat lines_of fails path "demo" "s" "/p"
                               cb ca now' p' = (p', Ok tt).
Proof.
  apply (retry_publishes show show from_dict stat lines_of from_dict_roundtrip events path "demo" "s" "/p"
           "t" doc fp events_ok); vm_compute; reflexivity.
Defined.

Lemma removal_retry_witness :
  let p1 := fst (remove_transcript_paths show from_dict (stop_at 1) [path] "t" project_after) in
  exists p2, remove_transcript_paths show from_dict no_failure [path] "t" p1 = (p2, Ok tt) /\
    consistent show from_dict p2 /\
    forall before after, indexed_transcript_paths show from_dict project_after = Ok before ->
      indexed_transcript_paths show from_dict p2 = Ok after ->
      forall k, k ∈ after <-> k ∈ before /\ k ∉ [path].
Proof.
  exact (removal_retry show show from_dict stat lines_of from_dict_roundtrip events (stop_at 1) [path]
           "t" "t" events_ok).
Defined.

(** A cleanup stopped between the metadata store and the index leaves the project unsearchable,
    and a later complete cleanup does not repair it: the pruned metadata no longer names the
    documents to remove from the index. *)
Example interrupted_cleanup :
  let search p := search_project show from_dict log "queue" 10 p in
  let indexed := fst (index_handler show show from_dict stat lines_of no_failure path "demo" "s" "/p"
                        false false "t" empty_project) in
  let stopped := fst (run_clean show from_dict (fun _ => None) (stop_at 1) "t" indexed) in
  let cleaned := run_clean show from_dict (fun _ => None) no_failure "t" stopped in
  is_ok (search indexed) = true /\
  match search stopped with Err e => exn_cls e = BM25IndexCorruptedError | Ok _ => False end /\
  snd cleaned = Ok tt /\
  match search (fst cleaned) with Err e => exn_cls e = BM25IndexCorruptedError | Ok _ => False end.
Proof. vm_compute. repeat split. Qed.

End StoresSample.
