(* ===== verification/Overrides.v ===== *)
(** * Overrides: session overrides and the effective configuration

    [src/forge/session/overrides.py] (valid paths, validation, set, delete, wildcards),
    [session/effective.py] (merging overrides into the intent) and the lifecycle paths of
    [session/derived_overrides.py]. The schema is [SessionIntent] of [session/models.py]
    with its nested dataclasses, walked by [_collect_paths].

    The overrides are a dict mutated in place: every operation returns the dict after it,
    also when it raises. *)

From S2P Require Import Prelude PyValue.

(** ** The schema *)

(** A field's type annotation: a dataclass (its fields in order), a dict type, any other
    type, or [T | None]. *)
Inductive annot :=
| TClass (fields : list (string * annot))
| TDict
| TName (name : string)
| TOptional (t : annot).

(** [unwrap_optional]. *)
Definition unwrap_optional (t : annot) : annot := match t with TOptional t => t | t => t end.

Definition is_dataclass (t : annot) : bool := match t with TClass _ => true | _ => false end.

Definition t_str := TName "str".
Definition t_int := TName "int".
Definition t_float := TName "float".
Definition t_bool := TName "bool".
Definition t_strs := TName "list[str]".
Definition t_str_none := TOptional t_str.
Definition t_int_none := TOptional t_int.

Definition ProxyIntent := TClass [("template", t_str); ("base_url", t_str)].

Definition SystemPromptIntent := TClass [("mode", t_str); ("file", t_str_none)].

Definition SidecarLaunchIntent := TClass [("mounts", t_strs); ("image", t_str_none)].

Definition ModelRouteIntent :=
  TClass [("requested_model", t_str); ("selected_tier", t_str); ("kind", TName "Literal");
          ("source_id", t_str_none)].

Definition LaunchIntent :=
  TClass [("mode", t_str); ("sidecar", TOptional SidecarLaunchIntent); ("direct_model", t_str_none);
          ("model_route", TOptional ModelRouteIntent); ("runtime", t_str)].

Definition AuthorityIntent := TClass [("role", t_str); ("tier", t_str_none)].

Definition MemoryWriterConfig :=
  TClass [("enabled", t_bool); ("mode", t_str); ("proxy", t_str_none); ("direct", t_bool);
          ("min_turns", t_int); ("effort", t_str_none)].

Definition MemoryIntent :=
  TClass [("auto_recall", t_bool); ("tags", t_strs); ("strategy", t_str); ("max_chars", t_int);
          ("auto_update", TOptional MemoryWriterConfig)].

Definition NativeSupervisorSource :=
  TClass [("runtime", t_str); ("thread_id", t_str); ("home", t_str); ("rollout_path", t_str);
          ("source_cwd", t_str); ("header_digest", t_str); ("managed_session", t_str_none);
          ("managed_root", t_str_none)].

Definition SupervisorConfig :=
  TClass [("auth_mode", t_str); ("review_trigger", t_str); ("supervisor_model", t_str_none);
          ("resume_id", t_str_none); ("native_source", TOptional NativeSupervisorSource);
          ("proxy", t_str_none); ("direct", t_bool); ("base_url", t_str_none);
          ("forge_root", t_str_none); ("timeout_seconds", t_int); ("throttle_seconds", t_int);
          ("fork_session", t_bool); ("suspended", t_bool); ("plan_override_path", t_str_none);
          ("cascade", t_bool); ("checker_model", t_str_none); ("checker_provider", t_str_none);
          ("checker_budget_tokens", t_int_none); ("checker_effort", t_str_none);
          ("supervisor_effort", t_str_none); ("shadow_sample_rate", t_float);
          ("shadow_max_per_session", t_int); ("shadow_seed", t_str_none)].

Definition TeamSupervisorConfig :=
  TClass [("enabled", t_bool); ("tagger_model", t_str); ("resume_id", t_str_none);
          ("proxy", t_str_none); ("direct", t_bool); ("base_url", t_str_none);
          ("timeout_seconds", t_int); ("throttle_seconds", t_int);
          ("max_blocks_per_task", t_int); ("effort", t_str_none)].

Definition PolicyIntent :=
  TClass [("enabled", t_bool); ("fail_mode", TName "FailMode"); ("bundles", t_strs);
          ("bundle_config", TDict); ("supervisor", TOptional SupervisorConfig);
          ("team_supervisor", TOptional TeamSupervisorConfig)].

Definition VerificationConfig :=
  TClass [("type", t_str); ("promise", t_str_none); ("max_iterations", t_int);
          ("max_minutes", t_int_none); ("bypass", t_bool); ("on_incomplete", t_str);
          ("re_inject_prompt", t_str_none); ("test_timeout_seconds", t_int)].

Definition LaneRecord := TClass [("runtime_id", t_str); ("backend_id", t_str); ("model", t_str)].

Definition ConsumerLaneIntent :=
  TClass [("supervisor", TOptional LaneRecord); ("memory_writer", TOptional LaneRecord);
          ("shadow_curation", TOptional LaneRecord); ("team_supervisor", TOptional LaneRecord)].

Definition SessionIntent :=
  TClass [("agent", t_str); ("proxy", TOptional ProxyIntent); ("subprocess_proxy", t_str_none);
          ("launch", TOptional LaunchIntent); ("authority", TOptional AuthorityIntent);
          ("system_prompt", TOptional SystemPromptIntent); ("memory", TOptional MemoryIntent);
          ("policy", TOptional PolicyIntent); ("verification", TOptional VerificationConfig);
          ("consumer_lanes", TOptional ConsumerLaneIntent)].

(** [_collect_paths], in field order. *)
Fixpoint _collect_paths (prefix : string) (cls : annot) : list string :=
  match cls with
  | TClass fields =>
      (fix go (fields : list (string * annot)) : list string :=
         match fields with
         | [] => []
         | (name, ft) :: fields =>
             (if startswith "_" name then []
              else let path := prefix +++ name in
                   path :: match ft with
                           | TOptional t => _collect_paths (path +++ ".") t
                           | t => _collect_paths (path +++ ".") t
                           end) ++ go fields
         end) fields
  | _ => []
  end.

(** [get_valid_intent_paths]: a set, whose elements are distinct here. *)
Definition get_valid_intent_paths : list string := _collect_paths "" SessionIntent.

(** ** Validation *)

Definition _MANIFEST_FIELDS : list string :=
  ["schema_version"; "name"; "created_at"; "last_accessed_at"; "parent_session"; "is_fork";
   "is_incognito"; "worktree"; "intent"; "overrides"; "confirmed"].

(** [raise InvalidOverrideKeyError(key, reason, hint)]. *)
Definition key_error {A} (key reason : string) (hint : option string) : res A :=
  raise InvalidOverrideKeyError
    ("invalid override key '" +++ key +++ "': " +++ reason +++
     match hint with
     | Some h => if String.eqb h "" then "" else " (" +++ h +++ ")"
     | None => ""
     end).

Definition authority_error {A} (key : string) : res A :=
  key_error key "authority is managed by the session authority control plane, not overrides"
    (Some "use 'forge session authority set' or 'forge session authority clear'").

(** The valid paths without a dot, sorted. *)
Definition top_level_fields (valid_paths : list string) : string :=
  str_join ", " (sorted_strs (filter (fun p => contains "." p = false) valid_paths)).

(** [expand_wildcard]. *)
Definition expand_wildcard (pattern : string) (valid_paths : list string) : res (list string) :=
  if negb (contains "*" pattern) then key_error pattern "not a wildcard pattern" None
  else match split_on "." pattern with
  | [prefix; last] =>
      if negb (String.eqb last "*") then
        key_error pattern "unsupported wildcard format"
          (Some "only <top_level>.* patterns supported (e.g., proxy.*, memory.*)")
      else if String.eqb prefix "authority" then authority_error pattern
      else if String.eqb prefix "custom" then key_error pattern "custom.* is not supported" None
      else
        match filter (fun p => startswith (prefix +++ ".") p = true) valid_paths with
        | [] =>
            if bool_decide (prefix ∈ valid_paths)
            then key_error pattern ("'" +++ prefix +++ "' has no nested fields to expand") None
            else key_error pattern ("unknown field '" +++ prefix +++ "'")
                   (Some ("valid top-level fields: " +++ top_level_fields valid_paths))
        | matching => Ok (sorted_strs matching)
        end
  | _ =>
      key_error pattern "unsupported wildcard format"
        (Some "only <top_level>.* patterns supported (e.g., proxy.*, memory.*)")
  end.

Definition _reject_launch_runtime_override {A} (key : string) : res A :=
  key_error key "runtime is immutable launch identity"
    (Some "start a new session with --runtime instead").

Definition _is_launch_model_route_path (key : string) : bool :=
  String.eqb key "launch.model_route" ||
  (startswith "launch.model_route." key && bool_decide (key ∈ get_valid_intent_paths)).

Definition _reject_launch_model_route_override {A} (key : string) : res A :=
  key_error key "model_route is resolved launch state, not an override surface"
    (Some "choose a route with --model on session start, resume, fork, or incognito").

Definition _is_native_supervisor_source_path (key : string) : bool :=
  String.eqb key "policy.supervisor.native_source" ||
  (startswith "policy.supervisor.native_source." key && bool_decide (key ∈ get_valid_intent_paths)).

Definition _reject_native_supervisor_source_override {A} (key : string) : res A :=
  key_error key "native_source is supervisor identity, not an override surface"
    (Some "use 'forge policy supervisor set' to configure a native source").

(** [_find_similar_paths]. *)
Definition _find_similar_paths (key : string) (valid_paths : list string) : list string :=
  let key_lower := lower_str key in
  sorted_strs
    (filter (fun path => contains key_lower (lower_str path) || contains (lower_str path) key_lower = true)
       valid_paths).

(** [validate_key]. *)
Definition validate_key (key : string) : res (list string) :=
  if String.eqb key "" then key_error key "key cannot be empty" None
  else
    let parts := split_on "." key in
    if bool_decide ("" ∈ parts) then key_error key "empty segment in path" None
    else
      let first_part := hd "" parts in
      if String.eqb first_part "intent" then
        key_error key "keys should be relative to intent" (Some "use 'agent' not 'intent.agent'")
      else if String.eqb first_part "confirmed" then
        key_error key "cannot override confirmed.* fields"
          (Some "confirmed values are set by hooks and immutable")
      else if bool_decide (first_part ∈ _MANIFEST_FIELDS) then
        key_error key ("'" +++ first_part +++ "' is a manifest field, not an intent field")
          (Some "overrides apply to intent configuration only")
      else if String.eqb first_part "custom" then key_error key "custom.* is not supported" None
      else if String.eqb first_part "authority" then authority_error key
      else if String.eqb key "launch.runtime" then _reject_launch_runtime_override key
      else if _is_launch_model_route_path key then _reject_launch_model_route_override key
      else if _is_native_supervisor_source_path key then _reject_native_supervisor_source_override key
      else if String.eqb first_part "consumer_lanes" then
        key_error key "consumer lanes are set via resolving commands, not overrides"
          (Some ("use --supervisor-runtime at session start/fork or " +++
                 "'forge policy supervisor set <target> --runtime'"))
      else if contains "*" key then
        key_error key "use expand_wildcard() for wildcard patterns" None
      else
        let valid_paths := get_valid_intent_paths in
        if bool_decide (key ∈ valid_paths) then Ok parts
        else if existsb (fun p => startswith (key +++ ".") p) valid_paths then Ok parts
        else
          key_error key ("unknown field '" +++ key +++ "'")
            (Some match _find_similar_paths key valid_paths with
                  | [] => "valid top-level fields: " +++ top_level_fields valid_paths
                  | similar => "did you mean: " +++ str_join ", " (take 3 similar)
                  end).

(** ** Set and delete *)

(** [_set_path]. A missing or non-dict intermediate becomes an empty dict in place. [parts]
    comes from [split] and is never empty. *)
Fixpoint _set_path (d : dict) (parts : list string) (v : value) : dict :=
  match parts with
  | [] => d
  | [last] => dset last v d
  | part :: parts =>
      let current := match dget part d with Some (VDict c) => c | _ => [] end in
      dset part (VDict (_set_path current parts v)) d
  end.

(** [_delete_path]. *)
Fixpoint _delete_path (d : dict) (parts : list string) : dict * bool :=
  match parts with
  | [] => (d, false)
  | [last] => if dhas last d then (ddel last d, true) else (d, false)
  | part :: parts =>
      match dget part d with
      | Some (VDict c) =>
          let '(c, deleted) := _delete_path c parts in (dset part (VDict c) d, deleted)
      | _ => (d, false)
      end
  end.

(** What the overrides object is after an operation: a tree of dicts, or an object that
    contains itself. *)
Inductive overrides_object :=
| Tree (d : dict)
| Cyclic.

(** A path and a path below it. *)
Definition is_below (p q : list string) : bool :=
  (length p <? length q)%nat && bool_decide (take (length p) q = p).

(** The loop of a wildcard write. Every path is assigned the same object [v]: when [v] is a
    dict and one path is below another, [v] is stored inside itself. *)
Definition set_each (d : dict) (parts_by_path : list (list string)) (v : value) : overrides_object :=
  if is_dict v && existsb (fun p => existsb (is_below p) parts_by_path) parts_by_path then Cyclic
  else Tree (foldl (fun d parts => _set_path d parts v) d parts_by_path).

(** The checks of [set_override] on the object assigned to a parent of a lifecycle-owned field. *)
Definition check_parent_value (key : string) (v : value) : res unit :=
  _ ← (match v with
       | VDict d =>
           if String.eqb key "launch" then
             if dhas "runtime" d then _reject_launch_runtime_override key
             else if dhas "model_route" d then _reject_launch_model_route_override key
             else Ok tt
           else Ok tt
       | _ => Ok tt
       end : res unit);
  match v with
  | VDict d =>
      if String.eqb key "policy" || String.eqb key "policy.supervisor" then
        match (if String.eqb key "policy" then dgetv "supervisor" d else v) with
        | VDict supervisor =>
            if dhas "native_source" supervisor then _reject_native_supervisor_source_override key
            else Ok tt
        | _ => Ok tt
        end
      else Ok tt
  | _ => Ok tt
  end.

(** [set_override]. *)
Definition set_override (overrides : dict) (key : string) (v : value) : overrides_object * res unit :=
  if contains "*" key then
    match (expanded ← expand_wildcard key get_valid_intent_paths;
           if bool_decide ("launch.runtime" ∈ expanded) then _reject_launch_runtime_override key
           else mapM_res validate_key expanded) with
    | Ok parts_by_path => (set_each overrides parts_by_path v, Ok tt)
    | Err e => (Tree overrides, Err e)
    end
  else
    match (parts ← validate_key key; _ ← check_parent_value key v; Ok parts) with
    | Ok parts => (Tree (_set_path overrides parts v), Ok tt)
    | Err e => (Tree overrides, Err e)
    end.

(** The loop of a wildcard delete. *)
Definition delete_one (acc : dict * bool) (path : string) : dict * bool :=
  let '(d, deleted) := _delete_path (fst acc) (split_on "." path) in (d, snd acc || deleted).

Definition delete_each (d : dict) (paths : list string) : dict * bool := foldl delete_one (d, false) paths.

(** [delete_override]. *)
Definition delete_override (overrides : dict) (key : string) : dict * res bool :=
  if contains "*" key then
    match expand_wildcard key get_valid_intent_paths with
    | Ok expanded => let '(d, deleted) := delete_each overrides expanded in (d, Ok deleted)
    | Err e => (overrides, Err e)
    end
  else
    match (if String.eqb key "launch.runtime" then Ok ["launch"; "runtime"]
           else if _is_launch_model_route_path key || _is_native_supervisor_source_path key
           then Ok (split_on "." key)
           else validate_key key) with
    | Ok parts => let '(d, deleted) := _delete_path overrides parts in (d, Ok deleted)
    | Err e => (overrides, Err e)
    end.

(** ** The effective configuration *)

(** [apply_overrides], one key of the overrides: what [result] holds under it afterwards. *)
Fixpoint merge (old : option value) (v : value) : value :=
  match v, old with
  | VDict d, Some (VDict base) =>
      VDict ((fix go (result : dict) (d : dict) : dict :=
                match d with
                | [] => result
                | (k, v) :: d => go (dset k (merge (dget k result) v) result) d
                end) base d)
  | v, _ => v
  end.

(** [apply_overrides]. Its result shares no object with the arguments. *)
Fixpoint apply_overrides (result : dict) (overrides : dict) : dict :=
  match overrides with
  | [] => result
  | (key, v) :: overrides => apply_overrides (dset key (merge (dget key result) v) result) overrides
  end.

(** [current = d; for part in parts: ...; return current], [None] where the path stops. *)
Fixpoint path_get (v : value) (parts : list string) : option value :=
  match parts, v with
  | [], _ => Some v
  | part :: parts, VDict d => match dget part d with Some v => path_get v parts | None => None end
  | _, _ => None
  end.

Section Effective.

(** [SessionIntent] objects, with dacite's [from_dict] in strict mode and [asdict]. *)
Context {intent : Type} (from_dict : dict -> res intent) (asdict : intent -> dict).

(** [SessionState], the two fields the computation reads. *)
Record session_config := { intent_of : intent; overrides_of : dict }.

(** [_infer_actual_type] and [_infer_expected_type]. *)
Definition _infer_actual_type (e : pyexn) : string :=
  let error_str := exn_msg e in
  if contains "expected" (lower_str error_str) && contains "got" (lower_str error_str)
  then error_str else "invalid value (" +++ error_str +++ ")".

Definition _infer_expected_type (e : pyexn) : string :=
  let error_str := exn_msg e in
  if contains "str" error_str then "str"
  else if contains "list" error_str then "list"
  else if contains "int" error_str then "int"
  else if contains "bool" error_str then "bool"
  else "valid type".

(** [except (dacite.DaciteError, TypeError, ValueError)]; the decoding errors are [ValueError]s. *)
Definition is_value_rejection (c : exn_class) : bool :=
  bool_decide (c ∈ [DaciteError; TypeError; ValueError; UnicodeDecodeError; JSONDecodeError]).

Definition merged (st : session_config) : dict :=
  match overrides_of st with
  | [] => asdict (intent_of st)
  | overrides => apply_overrides (asdict (intent_of st)) overrides
  end.

(** [compute_effective_intent]. *)
Definition compute_effective_intent (st : session_config) (strict : bool) (override_key : option string) : res intent :=
  match from_dict (merged st) with
  | Ok i => Ok i
  | Err e =>
      if strict && is_value_rejection (exn_cls e) then
        let key := match override_key with Some k => if String.eqb k "" then "unknown" else k | None => "unknown" end in
        raise InvalidOverrideValueError
          ("invalid value for '" +++ key +++ "': expected " +++ _infer_expected_type e +++
           ", got " +++ _infer_actual_type e)
      else Err e
  end.

(** [get_effective_value]. *)
Definition get_effective_value (st : session_config) (key : string) : res (option value) :=
  if String.eqb key "" then key_error key "key cannot be empty" None
  else
    let parts := split_on "." key in
    if bool_decide ("" ∈ parts) then key_error key "empty segment in path" None
    else
      effective ← compute_effective_intent st true None;
      Ok (path_get (VDict (asdict effective)) parts).

End Effective.

(** ** Lifecycle-owned paths *)

Definition _LIFECYCLE_PATHS : list string :=
  ["launch.runtime"; "launch.model_route"; "authority"; "consumer_lanes";
   "policy.supervisor.native_source"].

(** [_lifecycle_override]. *)
Definition _lifecycle_override (overrides : dict) : option string :=
  List.find (fun path => bool_decide (is_Some (path_get (VDict overrides) (split_on "." path))))
    _LIFECYCLE_PATHS.

(** ** Paths in nested dicts *)

(** Neither path continues the other. *)
Definition apart (p q : list string) : Prop := ~ p `prefix_of` q /\ ~ q `prefix_of` p.

Lemma apart_cons k p q : apart (k :: p) (k :: q) <-> apart p q.
Proof.
  assert (forall a b : list string, k :: a `prefix_of` k :: b <-> a `prefix_of` b) as H.
  { intros a b. split; [apply prefix_cons_inv_2|apply prefix_cons]. }
  unfold apart. by rewrite !H.
Qed.

Lemma apart_nil_l p : ~ apart [] p.
Proof. intros [H _]. apply H, prefix_nil. Qed.

Lemma apart_nil_r p : ~ apart p [].
Proof. intros [_ H]. apply H, prefix_nil. Qed.

Lemma path_get_app v p q : path_get v (p ++ q) = path_get v p ≫= fun w => path_get w q.
Proof.
  revert v. induction p as [|k p IH]; intros v; simpl; [by destruct v|].
  destruct v as [| | | | | |d]; simpl; try done. by destruct (dget k d).
Qed.

Lemma path_get_cons d k p :
  path_get (VDict d) (k :: p) = match dget k d with Some v => path_get v p | None => None end.
Proof. done. Qed.

Lemma path_get_scalar v p : p <> [] -> is_dict v = false -> path_get v p = None.
Proof. by destruct p, v. Qed.

Lemma set_path_cons d k p v :
  p <> [] ->
  _set_path d (k :: p) v
  = dset k (VDict (_set_path (match dget k d with Some (VDict c) => c | _ => [] end) p v)) d.
Proof. by destruct p. Qed.

(** Reading under the assigned path. *)
Lemma path_get_set_below d p q v :
  p <> [] -> path_get (VDict (_set_path d p v)) (p ++ q) = path_get v q.
Proof.
  revert d. induction p as [|k p IH]; intros d Hp; [done|]. destruct (decide (p = [])) as [->|Hne].
  - simpl. by rewrite dget_dset_eq.
  - rewrite set_path_cons by done. simpl. rewrite dget_dset_eq. by apply IH.
Qed.

Lemma path_get_set_eq d p v : p <> [] -> path_get (VDict (_set_path d p v)) p = Some v.
Proof. intros Hp. rewrite <- (app_nil_r p) at 2. rewrite path_get_set_below by done. by destruct v. Qed.

(** Reading elsewhere. *)
Lemma path_get_set_apart d p q v :
  apart p q -> path_get (VDict (_set_path d p v)) q = path_get (VDict d) q.
Proof.
  revert d q. induction p as [|k p IH]; intros d q Ha; [by apply apart_nil_l in Ha|].
  destruct q as [|j q]; [by apply apart_nil_r in Ha|]. destruct (decide (j = k)) as [->|Hne].
  - apply apart_cons in Ha. destruct p as [|k' p]; [by apply apart_nil_l in Ha|].
    destruct q as [|j' q]; [by apply apart_nil_r in Ha|].
    rewrite set_path_cons, !path_get_cons, dget_dset_eq, IH by done.
    by destruct (dget k d) as [[]|].
  - destruct p as [|k' p]; [simpl|rewrite set_path_cons, !path_get_cons by done]; by rewrite dget_dset_ne.
Qed.

(** A value with no repeated key in any dict, as every Python dict. *)
Fixpoint wf_value (v : value) : Prop :=
  match v with
  | VDict d =>
      NoDup (dkeys d) /\
      (fix go (d : dict) : Prop :=
         match d with [] => True | (_, v) :: d => wf_value v /\ go d end) d
  | _ => True
  end.

Lemma wf_value_dict d : wf_value (VDict d) <-> NoDup (dkeys d) /\ Forall (fun p => wf_value (snd p)) d.
Proof.
  simpl. apply and_iff_compat_l. induction d as [|[k v] d IH]; [by split|].
  rewrite Forall_cons, <- IH. done.
Qed.

Lemma wf_value_dget k v d : wf_value (VDict d) -> dget k d = Some v -> wf_value v.
Proof. intros [_ Hd]%wf_value_dict Hk%dget_elem_of. by apply (proj1 (Forall_forall _ _) Hd (k, v)). Qed.

(** Deleting. *)
Lemma delete_path_cons d k p :
  p <> [] ->
  _delete_path d (k :: p)
  = match dget k d with
    | Some (VDict c) => (dset k (VDict (fst (_delete_path c p))) d, snd (_delete_path c p))
    | _ => (d, false)
    end.
Proof.
  intros Hp. destruct p as [|j p]; [done|].
  cbn [_delete_path]. destruct (dget k d) as [[| | | | | |c]|]; try done.
  by match goal with |- (let '(_, _) := ?x in _) = _ => destruct x end.
Qed.

Lemma delete_path_deleted d p :
  snd (_delete_path d p) = bool_decide (p <> [] /\ is_Some (path_get (VDict d) p)).
Proof.
  revert d. induction p as [|k p IH]; intros d; [by rewrite bool_decide_false by naive_solver|].
  destruct (decide (p = [])) as [->|Hne].
  - simpl. destruct (dhas k d) eqn:Hd; symmetry.
    + apply bool_decide_true. split; [done|]. apply dhas_true in Hd as [w ->]. by destruct w; eexists.
    + apply bool_decide_false. apply dhas_false in Hd. rewrite Hd. naive_solver.
  - rewrite delete_path_cons, path_get_cons by done.
    destruct (dget k d) as [[| | | | | |c]|]; cbn [snd]; rewrite ?IH; try solve
      [symmetry; apply bool_decide_false; rewrite ?path_get_scalar by done; intros [_ [? ?]]; done].
    apply bool_decide_ext. naive_solver.
Qed.

Lemma path_get_delete_apart d p q :
  apart p q -> path_get (VDict (fst (_delete_path d p))) q = path_get (VDict d) q.
Proof.
  revert d q. induction p as [|k p IH]; intros d q Ha; [done|].
  destruct q as [|j q]; [by apply apart_nil_r in Ha|]. destruct (decide (j = k)) as [->|Hne].
  - apply apart_cons in Ha. destruct p as [|k' p]; [by apply apart_nil_l in Ha|].
    rewrite delete_path_cons by done. destruct (dget k d) as [[| | | | | |c]|] eqn:Hk; try done.
    cbn [fst]. by rewrite !path_get_cons, dget_dset_eq, IH, Hk by done.
  - destruct p as [|k' p].
    + simpl. destruct (dhas k d); [|done]. simpl. by rewrite dget_ddel_ne.
    + rewrite delete_path_cons by done. destruct (dget k d) as [[]|]; try done.
      cbn [fst]. by rewrite !path_get_cons, dget_dset_ne.
Qed.

Lemma path_get_delete_eq d p :
  wf_value (VDict d) -> p <> [] -> path_get (VDict (fst (_delete_path d p))) p = None.
Proof.
  revert d. induction p as [|k p IH]; intros d Hd Hp; [done|]. destruct (decide (p = [])) as [->|Hne].
  - simpl. destruct (dhas k d) eqn:Hk; simpl.
    + apply wf_value_dict in Hd as [Hnd _]. by rewrite dget_ddel_eq.
    + apply dhas_false in Hk. by rewrite Hk.
  - rewrite delete_path_cons by done. destruct (dget k d) as [v|] eqn:Hk.
    + destruct (is_dict v) eqn:Hv.
      * destruct v as [| | | | | |c]; try done. cbn [fst]. rewrite path_get_cons, dget_dset_eq.
        apply IH; [by eapply wf_value_dget|done].
      * destruct v; try done; cbn [fst]; rewrite path_get_cons, Hk; by apply path_get_scalar.
    + cbn [fst]. by rewrite path_get_cons, Hk.
Qed.

(** ** Merging *)

Lemma merge_dict base d : merge (Some (VDict base)) (VDict d) = VDict (apply_overrides base d).
Proof. reflexivity. Qed.

Lemma merge_other old v : (forall base d, old = Some (VDict base) -> v <> VDict d) -> merge old v = v.
Proof. destruct v; try done. destruct old as [[]|]; try done. intros H. by destruct (H _ d eq_refl). Qed.

Lemma dget_apply_overrides k base d :
  NoDup (dkeys d) ->
  dget k (apply_overrides base d)
  = match dget k d with Some v => Some (merge (dget k base) v) | None => dget k base end.
Proof.
  unfold dkeys. revert base. induction d as [|[j w] d IH]; intros base; csimpl; [done|].
  intros [Hj Hnd]%NoDup_cons. rewrite IH by done. destruct (decide (k = j)) as [->|Hne].
  - rewrite (proj2 (dget_None j d)) by done. by rewrite dget_dset_eq.
  - by rewrite dget_dset_ne.
Qed.

(** The overrides stop the path: a value that is not a dict sits above it. *)
Fixpoint blocked (v : value) (p : list string) : bool :=
  match p, v with
  | [], _ => false
  | k :: p, VDict d => match dget k d with Some v => blocked v p | None => false end
  | _, _ => true
  end.

(** What the merge holds at any path, in full. *)
Lemma path_get_merge old v p :
  wf_value v ->
  path_get (merge old v) p
  = match path_get v p with
    | Some w => Some (merge (old ≫= fun b => path_get b p) w)
    | None => if blocked v p then None else old ≫= fun b => path_get b p
    end.
Proof.
  revert old v. induction p as [|k p IH]; intros old v Hwf.
  - assert (forall w, path_get w [] = Some w) as Hnil by (by intros []). rewrite !Hnil. f_equal. f_equal.
    by destruct old as [[]|].
  - destruct v as [| | | | | |d]; try (rewrite merge_other by done; done).
    assert (match dget k d with Some w => wf_value w | None => True end) as Hw.
    { destruct (dget k d) eqn:Hk; [|done]. by eapply wf_value_dget. }
    destruct old as [[| | | | | |b]|]; try solve
      [rewrite merge_other by done; rewrite path_get_cons; cbn [blocked];
       destruct (dget k d) as [w|]; [|done]; specialize (IH None w Hw); rewrite merge_other in IH by done;
       rewrite IH; destruct (path_get w p); simpl; [by rewrite merge_other by done|by destruct (blocked w p)]].
    rewrite merge_dict. pose proof (proj1 (proj1 (wf_value_dict d) Hwf)) as Hnd.
    cbn [mbind option_bind]. rewrite !path_get_cons, dget_apply_overrides by done. cbn [blocked].
    destruct (dget k d) as [w|]; [|by destruct (dget k b)].
    rewrite IH by done. by destruct (dget k b).
Qed.

(** Merging the same overrides again changes nothing, not even the order of the keys. *)
Lemma merge_again old v : wf_value v -> merge (Some (merge old v)) v = merge old v.
Proof.
  revert old. induction v as [| | | | | |d IH] using value_nested_ind; intros old Hwf; try done.
  apply wf_value_dict in Hwf as [Hnd Hwf].
  assert (forall r, Forall (fun p => exists w, dget p.1 r = Some w /\ merge (Some w) p.2 = w) d ->
            apply_overrides r d = r) as Hid.
  { clear. intros r. induction d as [|[k v] d IHd]; [done|].
    intros [(w & Hw & Hm) Hd]%Forall_cons. simpl in *. rewrite Hw, Hm, dset_id by done. by apply IHd. }
  assert (exists r, merge old (VDict d) = VDict r /\
            Forall (fun p => exists w, dget p.1 r = Some w /\ merge (Some w) p.2 = w) d) as (r & -> & Hr).
  { rewrite Forall_forall in IH, Hwf.
    destruct old as [[| | | | | |b]|]; try (exists d; rewrite merge_other by done; split; [done|];
      apply Forall_forall; intros [k v] Hin; exists v; split; [by apply elem_of_dget|];
      specialize (IH _ Hin None (Hwf _ Hin)); by rewrite !(merge_other None) in IH by done).
    exists (apply_overrides b d). split; [apply merge_dict|]. apply Forall_forall. intros [k v] Hin.
    exists (merge (dget k b) v). simpl. rewrite dget_apply_overrides, (elem_of_dget _ v) by done.
    split; [done|]. by apply (IH _ Hin), (Hwf _ Hin). }
  rewrite merge_dict. f_equal. by apply Hid.
Qed.

(** ** Valid keys *)

(** The parts of [s] before each of its dots. *)
Fixpoint dot_prefixes (s : string) : list string :=
  match s with
  | EmptyString => []
  | String c s => (if decide (c = "."%char) then [EmptyString] else []) ++ (String c <$> dot_prefixes s)
  end.

Lemma startswith_dot k s : startswith (k +++ ".") s = true -> k ∈ dot_prefixes s.
Proof.
  revert k. induction s as [|c s IH]; intros [|a k]; cbn [dot_prefixes]; try done.
  - change ("" +++ ".") with (String "." ""). rewrite startswith_cons. case_decide as Hc; [|done]. intros _. rewrite decide_True by done. by left.
  - change (String a k +++ ".") with (String a (k +++ ".")). rewrite startswith_cons.
    case_decide as Hc; [|done]. subst. intros H%IH. apply elem_of_app. right. by apply list_elem_of_fmap_2.
Qed.

Lemma valid_paths_closed p k : p ∈ get_valid_intent_paths -> startswith (k +++ ".") p = true -> k ∈ get_valid_intent_paths.
Proof.
  intros Hp Hk%startswith_dot.
  assert (forallb (fun p => forallb (fun k => bool_decide (k ∈ get_valid_intent_paths)) (dot_prefixes p))
            get_valid_intent_paths = true) as H by (vm_compute; reflexivity).
  rewrite forallb_forall in H. specialize (H p (proj1 (list_elem_of_In _ _) Hp)).
  rewrite forallb_forall in H. specialize (H k (proj1 (list_elem_of_In _ _) Hk)).
  by apply bool_decide_eq_true in H.
Qed.

Lemma validate_key_valid key parts :
  validate_key key = Ok parts -> key ∈ get_valid_intent_paths /\ parts = split_on "." key.
Proof.
  unfold validate_key. intros H.
  repeat match type of H with
  | (if ?b then key_error _ _ _ else _) = _ => destruct b; [discriminate H|]
  | (if ?b then authority_error _ else _) = _ => destruct b; [discriminate H|]
  | (if ?b then _reject_launch_runtime_override _ else _) = _ => destruct b; [discriminate H|]
  | (if ?b then _reject_launch_model_route_override _ else _) = _ => destruct b; [discriminate H|]
  | (if ?b then _reject_native_supervisor_source_override _ else _) = _ => destruct b; [discriminate H|]
  end.
  case_bool_decide as Hin; [by simplify_eq|].
  destruct (existsb _ _) eqn:Hex; [|done]. simplify_eq. split; [|done].
  apply existsb_exists in Hex as (p & Hp & Hk). apply (valid_paths_closed p); [by apply list_elem_of_In|done].
Qed.

(** A property of every valid key, by evaluation. *)
Lemma for_valid_keys (f : string -> bool) key :
  forallb f get_valid_intent_paths = true -> key ∈ get_valid_intent_paths -> f key = true.
Proof. intros H Hin. rewrite forallb_forall in H. by apply H, list_elem_of_In. Qed.

(** The wildcards that can be written. *)
Lemma expand_wildcard_prefix pattern paths :
  expand_wildcard pattern get_valid_intent_paths = Ok paths ->
  exists prefix, prefix ∈ get_valid_intent_paths /\ pattern = prefix +++ ".*" /\
    paths = sorted_strs (filter (fun p => startswith (prefix +++ ".") p = true) get_valid_intent_paths).
Proof.
  unfold expand_wildcard. intros H. destruct (contains "*" pattern); [|done]. cbn [negb] in H.
  destruct (split_on "." pattern) as [|prefix [|last [|]]] eqn:Hs; try done.
  destruct (String.eqb_spec last "*") as [->|]; [|done]. cbn [negb] in H.
  repeat (case_match; [done|]). destruct (filter _ _) as [|p ps] eqn:Hf; [case_match; done|].
  assert (p ∈ filter (fun p => startswith (prefix +++ ".") p = true) get_valid_intent_paths) as Hp
    by (rewrite Hf; left).
  apply list_elem_of_filter in Hp as [Hp Hin]. exists prefix. split; [by eapply valid_paths_closed|].
  split; [|congruence].
  rewrite <- (str_join_split "." pattern), Hs. reflexivity.
Qed.

(** ** What a write and a reset do to the effective configuration *)

Lemma wf_dset k v d : wf_value (VDict d) -> wf_value v -> wf_value (VDict (dset k v d)).
Proof.
  rewrite !wf_value_dict. intros [Hnd Hd] Hv. split; [by apply NoDup_dset|].
  clear Hnd. induction Hd as [|[j w] d Hw Hd IH]; simpl; [by repeat constructor|].
  case_decide; by constructor.
Qed.

Lemma wf_set_path d p v : wf_value (VDict d) -> wf_value v -> wf_value (VDict (_set_path d p v)).
Proof.
  revert d. induction p as [|k p IH]; intros d Hd Hv; [done|].
  destruct (decide (p = [])) as [->|Hne]; [by apply wf_dset|]. rewrite set_path_cons by done.
  apply wf_dset; [done|]. apply IH; [|done].
  destruct (dget k d) as [[| | | | | |c]|] eqn:Hk; try (split; [constructor|done]). by eapply wf_value_dget.
Qed.

Lemma wf_delete_path d p : wf_value (VDict d) -> wf_value (VDict (_delete_path d p).1).
Proof.
  revert d. induction p as [|k p IH]; intros d Hd; [done|].
  destruct (decide (p = [])) as [->|Hne].
  - simpl. destruct (dhas k d); [|done]. cbn [fst]. apply wf_value_dict in Hd as [Hnd Hd]. apply wf_value_dict.
    split; [by apply NoDup_ddel|]. clear Hnd. induction Hd as [|[j w] d Hw Hd IHd]; simpl; [constructor|].
    case_decide; [done|]. by constructor.
  - rewrite delete_path_cons by done. destruct (dget k d) as [[| | | | | |c]|] eqn:Hk; try done.
    apply wf_dset; [done|]. apply IH. by eapply wf_value_dget.
Qed.

Lemma blocked_cons d k p :
  blocked (VDict d) (k :: p) = match dget k d with Some v => blocked v p | None => false end.
Proof. done. Qed.

Lemma blocked_set_apart d p q v :
  apart p q -> blocked (VDict d) q = false -> blocked (VDict (_set_path d p v)) q = false.
Proof.
  revert d q. induction p as [|k p IH]; intros d q Ha; [done|].
  destruct q as [|j q]; [done|]. rewrite blocked_cons. intros Hb.
  destruct (decide (p = [])) as [->|Hne]; [cbn [_set_path]|rewrite set_path_cons by done];
    rewrite blocked_cons, dget_dset; case_decide as Hj; subst; try done.
  - exfalso. destruct Ha as [Ha _]. apply Ha. apply prefix_cons, prefix_nil.
  - apply apart_cons in Ha. apply IH; [done|]. destruct q as [|j' q]; [done|].
    by destruct (dget k d) as [[| | | | | |c]|].
Qed.

Lemma blocked_delete_apart d p q :
  apart p q -> blocked (VDict (_delete_path d p).1) q = blocked (VDict d) q.
Proof.
  revert d q. induction p as [|k p IH]; intros d q Ha; [done|].
  destruct q as [|j q]; [done|]. destruct (decide (p = [])) as [->|Hne].
  - cbn [_delete_path]. destruct (dhas k d); [|done]. cbn [fst]. rewrite !blocked_cons, dget_ddel_ne; [done|]. intros ->.
    destruct Ha as [Ha _]. apply Ha. apply prefix_cons, prefix_nil.
  - rewrite delete_path_cons by done. destruct (dget k d) as [[| | | | | |c]|] eqn:Hk; try done.
    cbn [fst]. rewrite !blocked_cons, dget_dset. case_decide as Hj; [|done]. subst.
    rewrite Hk. apply IH. by apply apart_cons in Ha.
Qed.

Lemma blocked_delete_eq d p :
  wf_value (VDict d) -> is_Some (path_get (VDict d) p) -> blocked (VDict (_delete_path d p).1) p = false.
Proof.
  revert d. induction p as [|k p IH]; intros d Hd; [done|]. rewrite path_get_cons.
  destruct (dget k d) as [v|] eqn:Hk; [|by intros [? ?]]. intros Hp. destruct (decide (p = [])) as [->|Hne].
  - cbn [_delete_path]. destruct (dhas k d) eqn:Hh; cbn [fst]; rewrite blocked_cons.
    + apply wf_value_dict in Hd as [Hnd _]. by rewrite dget_ddel_eq.
    + apply dhas_false in Hh. by rewrite Hh.
  - destruct v as [| | | | | |c]; try (rewrite path_get_scalar in Hp by done; by destruct Hp).
    rewrite delete_path_cons, Hk by done. cbn [fst]. rewrite blocked_cons, dget_dset_eq.
    apply IH; [by eapply wf_value_dget|done].
Qed.

Lemma delete_path_false d p : wf_value (VDict d) -> (_delete_path d p).2 = false -> (_delete_path d p).1 = d.
Proof.
  revert d. induction p as [|k p IH]; intros d Hd; [done|]. destruct (decide (p = [])) as [->|Hne].
  - simpl. by destruct (dhas k d).
  - rewrite delete_path_cons by done. destruct (dget k d) as [[| | | | | |c]|] eqn:Hk; try done.
    cbn [fst snd]. intros Hf. rewrite IH by (done || by eapply wf_value_dget). by apply dset_id.
Qed.

(** The effective value at a path, when the overrides are merged into [base]. *)
Definition effective_at (base o : dict) (p : list string) : option value :=
  path_get (VDict (apply_overrides base o)) p.

Lemma effective_at_merge base o p :
  wf_value (VDict o) ->
  effective_at base o p
  = match path_get (VDict o) p with
    | Some w => Some (merge (path_get (VDict base) p) w)
    | None => if blocked (VDict o) p then None else path_get (VDict base) p
    end.
Proof. intros Ho. unfold effective_at. rewrite <- merge_dict. by rewrite path_get_merge. Qed.

(** [apply_overrides] follows its documented merge rules at every path: a path the
    overrides hold has the override's value, merged into the base only where both are dicts
    (so scalars, lists and null replace); a path below an override that is not a dict does
    not exist; every other path keeps the base's value. Applying the same overrides again
    changes nothing. *)
Theorem apply_overrides_lookup (base o : dict) :
  wf_value (VDict o) ->
  (forall p, effective_at base o p
     = match path_get (VDict o) p with
       | Some w => Some (merge (path_get (VDict base) p) w)
       | None => if blocked (VDict o) p then None else path_get (VDict base) p
       end) /\
  (forall old w, is_dict w = false \/ (forall d, old <> Some (VDict d)) -> merge old w = w) /\
  apply_overrides (apply_overrides base o) o = apply_overrides base o.
Proof.
  intros Ho. split; [intros p; by apply effective_at_merge|]. split.
  - intros old w Hw. apply merge_other. intros b d -> ->. destruct Hw as [Hw|Hw]; [done|by apply (Hw b)].
  - pose proof (merge_again (Some (VDict base)) (VDict o) Ho) as H.
    rewrite !merge_dict in H. by injection H.
Qed.

Lemma set_override_path o key v o' :
  contains "*" key = false -> set_override o key v = (Tree o', Ok tt) ->
  validate_key key = Ok (split_on "." key) /\ check_parent_value key v = Ok tt /\ o' = _set_path o (split_on "." key) v.
Proof.
  unfold set_override. intros -> H. destruct (validate_key key) as [ps|e] eqn:Hval; [|done].
  rewrite res_bind_ok in H. pose proof (validate_key_valid _ _ Hval) as [_ ->].
  destruct (check_parent_value key v) as [[]|e]; [|done]. by injection H as <-.
Qed.

Lemma delete_override_path o key o' deleted :
  contains "*" key = false -> delete_override o key = (o', Ok deleted) ->
  _delete_path o (split_on "." key) = (o', deleted).
Proof.
  unfold delete_override. intros -> H. destruct (String.eqb_spec key "launch.runtime") as [->|_].
  - change (split_on "." "launch.runtime") with ["launch"; "runtime"]. destruct (_delete_path _ _). by simplify_eq.
  - destruct (_ || _).
    + destruct (_delete_path _ _). by simplify_eq.
    + destruct (validate_key key) as [ps|e] eqn:Hval; [|done]. apply validate_key_valid in Hval as [_ ->].
      destruct (_delete_path _ _). by simplify_eq.
Qed.

(** A write that succeeds makes the key's effective value the written one (merged into
    the intent's when both are dicts), and no path apart from the key changes unless it was
    hidden by a non-dict override above it. A reset reports whether there was an override at
    the key; when there was, the key's effective value is the intent's again and no path
    apart from it changes; when there was none, nothing changes at all. *)
Theorem set_then_reset (base o : dict) (key : string) (v : value) :
  wf_value (VDict o) -> wf_value v -> contains "*" key = false ->
  let parts := split_on "." key in
  (forall o', set_override o key v = (Tree o', Ok tt) ->
     effective_at base o' parts = Some (merge (path_get (VDict base) parts) v) /\
     (forall q, apart parts q -> blocked (VDict o) q = false ->
        effective_at base o' q = effective_at base o q)) /\
  (forall o' deleted, delete_override o key = (o', Ok deleted) ->
     deleted = bool_decide (is_Some (path_get (VDict o) parts)) /\
     (deleted = false -> o' = o) /\
     (deleted = true ->
        effective_at base o' parts = path_get (VDict base) parts /\
        (forall q, apart parts q -> effective_at base o' q = effective_at base o q))).
Proof.
  intros Ho Hv Hk parts. pose proof (split_on_ne "." key) as Hne. fold parts in Hne. split.
  - intros o' (_ & _ & ->)%set_override_path; [|done]. fold parts.
    assert (wf_value (VDict (_set_path o parts v))) by by apply wf_set_path.
    split; [by rewrite effective_at_merge, path_get_set_eq|]. intros q Hq Hb.
    by rewrite !effective_at_merge, path_get_set_apart, blocked_set_apart, Hb.
  - intros o' deleted H%delete_override_path; [|done]. fold parts in H.
    pose proof (delete_path_deleted o parts) as Hdel. pose proof (delete_path_false o parts Ho) as Hsame.
    pose proof (path_get_delete_eq o parts Ho Hne) as Hgone. pose proof (wf_delete_path o parts Ho) as Ho'.
    pose proof (blocked_delete_eq o parts Ho) as Hfree.
    pose proof (fun q => path_get_delete_apart o parts q) as Hget.
    pose proof (fun q => blocked_delete_apart o parts q) as Hblk.
    rewrite H in *. cbn [fst snd] in *. split; [rewrite Hdel; apply bool_decide_ext; naive_solver|].
    split; [done|]. rewrite Hdel. intros [_ Hp]%bool_decide_eq_true.
    split; [by rewrite effective_at_merge, Hgone, Hfree|]. intros q Hq.
    by rewrite !effective_at_merge, Hget, Hblk.
Qed.

(** ** Lifecycle-owned fields *)

Definition starts_with_path (p q : list string) : bool := bool_decide (take (length p) q = p).

Lemma starts_with_path_spec p q : starts_with_path p q = true <-> p `prefix_of` q.
Proof.
  unfold starts_with_path. rewrite bool_decide_eq_true. split.
  - intros H. exists (drop (length p) q). by rewrite <- H at 1; rewrite take_drop.
  - intros [r ->]. by rewrite take_app_length.
Qed.

(** The keys a value above a lifecycle-owned field is checked for, with the rest of the path. *)
Definition checked_parents : list (string * list string) :=
  [("launch", ["runtime"]); ("launch", ["model_route"]);
   ("policy", ["supervisor"; "native_source"]); ("policy.supervisor", ["native_source"])].

(** No valid key names a lifecycle-owned field or one below it, and the keys above one are checked. *)
Definition key_respects_lifecycle (key : string) : bool :=
  match validate_key key with
  | Ok parts =>
      forallb (fun lp =>
        let l := split_on "." lp in
        negb (starts_with_path l parts) &&
        (negb (starts_with_path parts l) ||
         bool_decide ((key, drop (length parts) l) ∈ checked_parents))) _LIFECYCLE_PATHS
  | Err _ => true
  end.

Lemma keys_respect_lifecycle : forallb key_respects_lifecycle get_valid_intent_paths = true.
Proof. vm_compute. reflexivity. Qed.

Lemma checked_parent_safe key rest v :
  (key, rest) ∈ checked_parents -> check_parent_value key v = Ok tt -> path_get v rest = None.
Proof.
  unfold checked_parents. rewrite !elem_of_cons, elem_of_nil.
  intros [[= -> ->]|[[= -> ->]|[[= -> ->]|[[= -> ->]|[]]]]] Hc; destruct v as [| | | | | |d]; try done;
    unfold check_parent_value in Hc; cbn in Hc; rewrite ?path_get_cons.
  - destruct (dhas "runtime" d) eqn:E; [done|]. apply dhas_false in E. by rewrite E.
  - destruct (dhas "runtime" d); [done|]. destruct (dhas "model_route" d) eqn:E; [done|].
    apply dhas_false in E. by rewrite E.
  - unfold dgetv, dget_default in Hc. destruct (dget "supervisor" d) as [[| | | | | |c]|]; try done.
    rewrite path_get_cons. destruct (dhas "native_source" c) eqn:E; [done|]. apply dhas_false in E. by rewrite E.
  - destruct (dhas "native_source" d) eqn:E; [done|]. apply dhas_false in E. by rewrite E.
Qed.

(** The paths a wildcard writes. *)
Definition wildcard_parts (pattern : string) : res (list (list string)) :=
  expanded ← expand_wildcard pattern get_valid_intent_paths;
  if bool_decide ("launch.runtime" ∈ expanded) then _reject_launch_runtime_override pattern
  else mapM_res validate_key expanded.

Definition wildcard_respects_lifecycle (prefix : string) : bool :=
  match wildcard_parts (prefix +++ ".*") with
  | Ok parts_by_path =>
      forallb (fun parts => forallb (fun lp =>
        negb (starts_with_path (split_on "." lp) parts) && negb (starts_with_path parts (split_on "." lp)))
        _LIFECYCLE_PATHS) parts_by_path &&
      (negb (existsb (fun p => existsb (is_below p) parts_by_path) parts_by_path) || String.eqb prefix "memory")
  | Err _ => true
  end.

Lemma wildcards_respect_lifecycle : forallb wildcard_respects_lifecycle get_valid_intent_paths = true.
Proof. vm_compute. reflexivity. Qed.

Lemma path_get_set_each ps d v q :
  Forall (fun p => apart p q) ps ->
  path_get (VDict (foldl (fun d parts => _set_path d parts v) d ps)) q = path_get (VDict d) q.
Proof.
  intros Hps. revert d. induction Hps as [|p ps Hp Hps IH]; intros d; simpl; [done|].
  by rewrite IH, path_get_set_apart.
Qed.

Lemma wildcard_set_safe o key v r obj :
  contains "*" key = true -> set_override o key v = (obj, r) ->
  (obj = Tree o \/
   exists ps, r = Ok tt /\ obj = set_each o ps v /\
     (forall lp, lp ∈ _LIFECYCLE_PATHS -> Forall (fun p => apart p (split_on "." lp)) ps) /\
     (existsb (fun p => existsb (is_below p) ps) ps = true -> key = "memory.*")).
Proof.
  unfold set_override. intros ->. fold (wildcard_parts key).
  destruct (wildcard_parts key) as [ps|e] eqn:Hw; intros H; simplify_eq; [right|by left].
  assert (exists paths, expand_wildcard key get_valid_intent_paths = Ok paths) as [paths Hex].
  { unfold wildcard_parts in Hw. destruct (expand_wildcard _ _); [by eexists|done]. }
  apply expand_wildcard_prefix in Hex as (prefix & Hin & -> & _).
  pose proof (for_valid_keys _ _ wildcards_respect_lifecycle Hin) as H.
  unfold wildcard_respects_lifecycle in H. rewrite Hw in H. apply andb_true_iff in H as [Hsafe Hmem].
  exists ps. split_and!; [done|done| |].
  - intros lp Hlp. apply Forall_forall. intros p Hp. rewrite forallb_forall in Hsafe.
    specialize (Hsafe p (proj1 (list_elem_of_In _ _) Hp)). rewrite forallb_forall in Hsafe.
    specialize (Hsafe lp (proj1 (list_elem_of_In _ _) Hlp)).
    rewrite andb_true_iff, !negb_true_iff, <- !not_true_iff_false, !starts_with_path_spec in Hsafe.
    split; tauto.
  - intros Hb. rewrite Hb in Hmem. apply String.eqb_eq in Hmem. by subst.
Qed.

Lemma key_set_safe o key v o' lp :
  contains "*" key = false -> set_override o key v = (Tree o', Ok tt) -> lp ∈ _LIFECYCLE_PATHS ->
  path_get (VDict o') (split_on "." lp) = path_get (VDict o) (split_on "." lp) \/
  path_get (VDict o') (split_on "." lp) = None.
Proof.
  intros Hk (Hval & Hcheck & ->)%set_override_path Hlp; [|done].
  pose proof (validate_key_valid _ _ Hval) as [Hin _].
  pose proof (for_valid_keys _ _ keys_respect_lifecycle Hin) as H.
  unfold key_respects_lifecycle in H. rewrite Hval in H. rewrite forallb_forall in H.
  specialize (H lp (proj1 (list_elem_of_In _ _) Hlp)). cbv zeta in H.
  apply andb_true_iff in H as [Hnb Hab]. apply negb_true_iff in Hnb.
  rewrite <- not_true_iff_false, starts_with_path_spec in Hnb.
  destruct (starts_with_path (split_on "." key) (split_on "." lp)) eqn:Hpre; cbn [negb orb] in Hab.
  - right. apply starts_with_path_spec in Hpre as [rest Hrest]. rewrite Hrest in Hab |- *.
    rewrite drop_app_length in Hab. apply bool_decide_eq_true in Hab.
    rewrite path_get_set_below by apply split_on_ne. by apply (checked_parent_safe key).
  - left. apply path_get_set_apart. rewrite <- not_true_iff_false, starts_with_path_spec in Hpre. by split.
Qed.

(** C27: No write, whatever its key, pattern and value, introduces or changes an override of
    a field owned by a lifecycle command (launch.runtime, launch.model_route, authority,
    consumer_lanes, policy.supervisor.native_source): afterwards each of them is as before
    or gone. So overrides without such a field stay without one. A write makes the overrides
    object contain itself only for an object written to [memory.*]. *)
Theorem lifecycle_fields_safe (o : dict) (key : string) (v : value) :
  match set_override o key v with
  | (Tree o', _) =>
      (forall lp, lp ∈ _LIFECYCLE_PATHS ->
         path_get (VDict o') (split_on "." lp) = path_get (VDict o) (split_on "." lp) \/
         path_get (VDict o') (split_on "." lp) = None) /\
      (_lifecycle_override o = None -> _lifecycle_override o' = None)
  | (Cyclic, _) => key = "memory.*" /\ is_dict v = true
  end.
Proof.
  assert (forall o', (forall lp, lp ∈ _LIFECYCLE_PATHS ->
            path_get (VDict o') (split_on "." lp) = path_get (VDict o) (split_on "." lp) \/
            path_get (VDict o') (split_on "." lp) = None) ->
          _lifecycle_override o = None -> _lifecycle_override o' = None) as Hfind.
  { intros o' Ho' Hnone. unfold _lifecycle_override in *. destruct (List.find _ _) as [lp|] eqn:Hf in |- *; [|done].
    apply find_some in Hf as [Hlp [w Hw]%bool_decide_eq_true]. pose proof (find_none _ _ Hnone _ Hlp) as Hn.
    apply list_elem_of_In in Hlp. apply bool_decide_eq_false in Hn. destruct (Ho' lp Hlp); [|congruence].
    exfalso. apply Hn. exists w. congruence. }
  destruct (set_override o key v) as [obj r] eqn:H. destruct (contains "*" key) eqn:Hk.
  - destruct (wildcard_set_safe _ _ _ _ _ Hk H) as [->|(ps & -> & -> & Hps & Hmem)].
    { split; [by left|done]. }
    unfold set_each in *. destruct (is_dict v && _) eqn:Hb.
    + apply andb_true_iff in Hb as [Hd Hb]. split; [by apply Hmem|done].
    + assert (forall lp, lp ∈ _LIFECYCLE_PATHS ->
                path_get (VDict (foldl (fun d parts => _set_path d parts v) o ps)) (split_on "." lp)
                = path_get (VDict o) (split_on "." lp)) as Heq by (intros; apply path_get_set_each; by apply Hps).
      split; [by intros lp Hlp; left; apply Heq|]. apply Hfind. by intros lp Hlp; left; apply Heq.
  - assert (obj = Tree o \/ exists o', obj = Tree o' /\ set_override o key v = (Tree o', Ok tt)) as [->|(o' & -> & Hs)].
    { clear Hfind. revert H. unfold set_override. rewrite Hk. destruct (_ ≫= _); intros; simplify_eq; eauto. }
    + split; [by left|done].
    + pose proof (fun lp => key_set_safe _ _ _ _ lp Hk Hs) as Hsafe. split; [done|]. by apply Hfind.
Qed.

Module OverridesSample.

Definition base : dict :=
  [("agent", VStr "claude-code");
   ("proxy", VDict [("template", VStr "litellm-gemini"); ("base_url", VStr "http://localhost:8084")]);
   ("memory", VNone); ("verification", VNone)].

Definition o : dict := [("proxy", VDict [("template", VStr "openrouter")])].

Lemma wf_o : wf_value (VDict o).
Proof. apply wf_value_dict. repeat constructor; set_solver. Qed.

Lemma apply_overrides_lookup_witness :
  apply_overrides (apply_overrides base o) o = apply_overrides base o /\
  effective_at base o ["proxy"; "base_url"] = Some (VStr "http://localhost:8084").
Proof. split; [exact (proj2 (proj2 (apply_overrides_lookup base o wf_o)))|reflexivity]. Defined.

Lemma set_then_reset_witness :
  effective_at base [("proxy", VDict [("template", VStr "x")])] ["proxy"; "template"] = Some (VStr "x") /\
  (true = true ->
     effective_at base [("proxy", VDict [])] ["proxy"; "template"] = Some (VStr "litellm-gemini") /\
     forall q, apart ["proxy"; "template"] q -> effective_at base [("proxy", VDict [])] q = effective_at base o q).
Proof.
  pose proof (set_then_reset base o "proxy.template" (VStr "x") wf_o I eq_refl) as [H1 H2].
  specialize (H1 [("proxy", VDict [("template", VStr "x")])]).
  specialize (H2 [("proxy", VDict [])] true). split.
  - apply H1. vm_compute. reflexivity.
  - apply H2. vm_compute. reflexivity.
Defined.

(** A reset of a nested key leaves the emptied section behind: here the intent has no
    verification, and after [set verification.max_iterations 10] and [reset
    verification.max_iterations] the merged configuration has an empty one, which
    [from_dict] turns into a default [VerificationConfig]. *)
Example reset_leaves_section :
  match set_override [] "verification.max_iterations" (VInt 10) with
  | (Tree o1, Ok _) =>
      match delete_override o1 "verification.max_iterations" with
      | (o2, Ok true) => effective_at base o2 ["verification"] = Some (VDict []) /\
                         effective_at base [] ["verification"] = Some VNone
      | _ => False
      end
  | _ => False
  end.
Proof. split; reflexivity. Qed.

(** An object written to [memory.*] ends up inside itself. *)
Example wildcard_object_cyclic :
  set_override [] "memory.*" (VDict [("enabled", VBool true)]) = (Cyclic, Ok tt).
Proof. vm_compute. reflexivity. Qed.

(** The wildcards that can be written at all. *)
Example writable_wildcards :
  filter (fun p => is_ok (wildcard_parts (p +++ ".*")) = true) get_valid_intent_paths
  = ["proxy"; "system_prompt"; "memory"; "verification"].
Proof. vm_compute. reflexivity. Qed.

End OverridesSample.
