(* ===== verification/Manifest.v ===== *)
(** * Manifest: the session manifest on disk

    [src/forge/session/store.py]: the fields stripped from legacy manifests, the validation
    of a manifest that has been read ([SessionStore._validate_data] with the overrides
    schema), its projection to the current schema ([upgrade_manifest_for_read]), the version
    chosen when writing ([manifest_for_write]), and [SessionStore.read].

    A manifest is the decoded JSON object; [SessionState] objects are seen through
    [dataclasses.asdict]. *)

From S2P Require Import Prelude PyValue StateIO Overrides.

(** ** Changing nested objects *)

(** Apply [f] to the dict at [path], if every step of the path is a dict. *)
Fixpoint modify (d : dict) (path : list string) (f : dict -> dict) : dict :=
  match path with
  | [] => f d
  | k :: path =>
      match dget k d with Some (VDict c) => dset k (VDict (modify c path f)) d | _ => d end
  end.

(** The dict at [path]: [x.get(k) if isinstance(x, dict) else None], step by step. *)
Definition dict_at (d : dict) (path : list string) : option dict := path_get (VDict d) path ≫= as_dict.

(** ** Legacy fields *)

Definition strip_removed_memory_generated_file (data : dict) : dict :=
  modify data ["intent"; "memory"] (ddel "generated_file").

Definition strip_preview_memory_doc_lists (data : dict) : dict :=
  foldl (fun data section => modify data [section; "memory"] (ddel "designated_docs")) data
    ["intent"; "overrides"].

Definition strip_removed_supervisor_runtime (data : dict) : dict :=
  foldl (fun data section => modify data [section; "policy"; "supervisor"] (ddel "supervisor_runtime")) data
    ["intent"; "overrides"].

(** ** Validation *)

Definition _SUPPORTED_SCHEMA_VERSIONS : list Z := [1; 2; 3; 4; 5].

Definition SCHEMA_VERSION : Z := 5.

(** [raise ManifestCorruptedError(path, reason)]. *)
Definition corrupted {A} (path reason : string) : res A :=
  raise ManifestCorruptedError ("manifest at '" +++ path +++ "': " +++ reason).

(** [v in {versions}] for a hashable [v]. *)
Definition version_in (v : value) (versions : list Z) : bool := existsb (fun z => py_eq v (VInt z)) versions.

(** [_validate_overrides_dict_against_dataclass]. *)
Fixpoint _validate_overrides_dict_against_dataclass
    (manifest_path : string) (path_prefix : string) (cls : annot) (overrides : value) : res unit :=
  match cls, overrides with
  | TClass fields, VDict d =>
      (fix go (d : dict) : res unit :=
         match d with
         | [] => Ok tt
         | (key, v) :: d =>
             if String.eqb key "custom" then corrupted manifest_path "overrides.custom is not supported"
             else match (if startswith "_" key then None else dget key fields) with
             | None => corrupted manifest_path ("unknown override key: " +++ path_prefix +++ "." +++ key)
             | Some field_type =>
                 _ ← (match v with
                      | VDict _ =>
                          match unwrap_optional field_type with
                          | TClass fs =>
                              _validate_overrides_dict_against_dataclass manifest_path
                                (path_prefix +++ "." +++ key) (TClass fs) v
                          | TDict => Ok tt
                          | _ => corrupted manifest_path
                                   (path_prefix +++ "." +++ key +++ " does not support nested override keys")
                          end
                      | _ => Ok tt
                      end : res unit);
                 go d
             end
         end) d
  | TClass _, _ => Ok tt
  | _, _ => corrupted manifest_path "internal error: not a dataclass"
  end.

Definition _validate_overrides_schema (overrides : dict) (manifest_path : string) : res unit :=
  _validate_overrides_dict_against_dataclass manifest_path "overrides" SessionIntent (VDict overrides).

Section Validation.

(** The manifest's path, and [str] of a value (it only occurs in messages). *)
Context (path : string) (py_str : value -> string).

(** The checks of [schema_version], with the field when it is missing. *)
Definition check_version (data : dict) : res (list string) :=
  match dget "schema_version" data with
  | None => Ok ["schema_version"]
  | Some v =>
      if negb (hashable v) then raise TypeError ("unhashable type: '" +++ type_name v +++ "'")
      else if version_in v _SUPPORTED_SCHEMA_VERSIONS then Ok []
      else corrupted path ("incompatible schema version " +++ py_str v +++
             " (this Forge expects [1, 2, 3, 4, 5]). Delete this session and recreate it.")
  end.

(** The overrides must be an object. *)
Definition check_overrides (data : dict) : res (list string) :=
  match dget "overrides" data with
  | None => Ok ["overrides"]
  | Some (VDict _) => Ok []
  | Some _ => corrupted path "overrides must be an object"
  end.

(** The intent, [{}] when it is missing. *)
Definition check_intent (data : dict) : res (dict * list string) :=
  match dget "intent" data with
  | None => Ok ([], ["intent"])
  | Some (VDict intent) => Ok (intent, [])
  | Some _ => corrupted path "intent must be an object"
  end.

(** [intent.proxy] has both fields. *)
Definition check_proxy (intent : dict) : res (list string) :=
  match dgetv "proxy" intent with
  | VNone => Ok []
  | VDict proxy =>
      Ok ((if dhas "template" proxy then [] else ["intent.proxy.template"]) ++
          (if dhas "base_url" proxy then [] else ["intent.proxy.base_url"]))
  | _ => corrupted path "intent.proxy must be an object"
  end.

(** [intent.launch] has a model route exactly from schema 2 on. *)
Definition check_launch (version : value) (intent : dict) : res (list string) :=
  match dgetv "launch" intent with
  | VDict launch =>
      if py_eq version (VInt 1) && dhas "model_route" launch
      then corrupted path "schema v1 intent.launch cannot contain model_route"
      else if version_in version [2; 3; 4; 5] && negb (dhas "model_route" launch)
      then Ok ["intent.launch.model_route"]
      else Ok []
  | _ => Ok []
  end.

(** The supervisor's fields that each schema version requires or refuses. *)
Definition check_supervisor_field (version : value) (supervisor : dict) (field_name : string) : res unit :=
  if version_in version [1; 2] && dhas field_name supervisor
  then corrupted path ("schema v" +++ py_str version +++ " cannot contain supervisor." +++ field_name)
  else if version_in version [3; 4; 5] && negb (dhas field_name supervisor)
  then corrupted path ("schema v" +++ py_str version +++ " requires supervisor." +++ field_name)
  else Ok tt.

Definition check_supervisor (version : value) (supervisor : option dict) : res unit :=
  match supervisor with
  | Some s => foldM_res (fun _ name => check_supervisor_field version s name) tt ["auth_mode"; "supervisor_model"]
  | None => Ok tt
  end.

Definition configs (supervisor override_supervisor : option dict) : list dict :=
  option_list supervisor ++ option_list override_supervisor.

Definition check_native (version : value) (supervisor override_supervisor : option dict) : res unit :=
  if negb (py_eq version (VInt 5)) && existsb (dhas "native_source") (configs supervisor override_supervisor)
  then corrupted path "Native supervisor source requires schema v5"
  else match supervisor with
  | Some s => if py_eq version (VInt 5) && negb (dhas "native_source" s)
              then corrupted path "schema v5 requires supervisor.native_source" else Ok tt
  | None => Ok tt
  end.

Definition check_trigger (version : value) (supervisor override_supervisor : option dict) : res unit :=
  if version_in version [1; 2; 3] then
    if existsb (dhas "review_trigger") (configs supervisor override_supervisor)
    then corrupted path ("schema v" +++ py_str version +++ " cannot contain supervisor.review_trigger")
    else Ok tt
  else match supervisor with
  | Some s => if version_in version [4; 5] && negb (dhas "review_trigger" s)
              then corrupted path ("schema v" +++ py_str version +++ " requires supervisor.review_trigger")
              else Ok tt
  | None => Ok tt
  end.

(** [confirmed], an object whose proxy snapshot is well typed. *)
Definition check_confirmed (data : dict) : res unit :=
  match dget_default "confirmed" (VDict []) data with
  | VDict confirmed =>
      match dgetv "started_with_proxy" confirmed with
      | VNone => Ok tt
      | VDict s =>
          if match dgetv "base_url" s with VStr u => String.eqb u "" | _ => true end
          then corrupted path "confirmed.started_with_proxy.base_url is required"
          else if match dgetv "proxy_id" s with VNone | VStr _ => false | _ => true end
          then corrupted path "confirmed.started_with_proxy.proxy_id must be a string"
          else if match dgetv "template" s with VNone | VStr _ => false | _ => true end
          then corrupted path "confirmed.started_with_proxy.template must be a string"
          else if match dgetv "port" s with VNone | VInt _ | VBool _ => false | _ => true end
          then corrupted path "confirmed.started_with_proxy.port must be an integer"
          else Ok tt
      | _ => corrupted path "confirmed.started_with_proxy must be an object"
      end
  | _ => corrupted path "confirmed must be an object"
  end.

(** [_validate_data]. *)
Definition _validate_data (data : dict) : res unit :=
  m1 ← check_version data;
  m2 ← check_overrides data;
  let m3 := filter (fun k => dhas k data = false) ["name"; "created_at"; "last_accessed_at"] in
  '(intent, m4) ← check_intent data;
  m5 ← check_proxy intent;
  let version := dgetv "schema_version" data in
  m6 ← check_launch version intent;
  let supervisor := dict_at intent ["policy"; "supervisor"] in
  let override_supervisor := dict_at data ["overrides"; "policy"; "supervisor"] in
  _ ← check_supervisor version supervisor;
  _ ← check_native version supervisor override_supervisor;
  _ ← check_trigger version supervisor override_supervisor;
  _ ← (match dget "overrides" data with
       | Some (VDict overrides) => _validate_overrides_schema overrides path
       | _ => Ok tt
       end : res unit);
  _ ← check_confirmed data;
  match m1 ++ m2 ++ m3 ++ m4 ++ m5 ++ m6 with
  | [] => Ok tt
  | missing => raise ManifestValidationError
      ("manifest at '" +++ path +++ "' missing required fields: " +++ str_join ", " missing)
  end.

End Validation.

(** ** Projection to the current schema *)

(** [v.get(k)]: only dicts have [get]. *)
Definition attr_get (k : string) (v : value) : res value :=
  match v with
  | VDict d => Ok (dgetv k d)
  | _ => raise AttributeError ("'" +++ type_name v +++ "' object has no attribute 'get'")
  end.

(** [(v or {}).get(k)]. *)
Definition or_get (k : string) (v : value) : res value := attr_get k (if truthy v then v else VDict []).

Definition is_legacy_timeout (v : value) : bool := match v with VInt t => 45 <? t | _ => false end.

(** The loop body of [upgrade_manifest_for_read] on one supervisor object. *)
Definition upgrade_config (lane : value) (config : dict) : res dict :=
  let config := if is_legacy_timeout (dgetv "timeout_seconds" config)
                then dset "timeout_seconds" (VInt 45) config else config in
  codex ← (if truthy lane then runtime ← attr_get "runtime_id" lane; Ok (py_eq runtime (VStr "codex"))
           else Ok false);
  Ok (if codex : bool then
        foldl (fun config key => if dhas key config then dset key VNone config else config)
          config ["proxy"; "base_url"]
      else config).

(** The lane of the supervisor: the frozen one, or else the requested one. *)
Definition supervisor_lane (confirmed : value) (effective : dict) : res value :=
  lanes ← or_get "consumer_lanes" confirmed;
  binding ← or_get "supervisor" lanes;
  if truthy binding then attr_get "lane" binding
  else or_get "supervisor" (dgetv "consumer_lanes" effective).

(** [upgrade_manifest_for_read], on a validated manifest. *)
Definition upgrade_manifest_for_read (data : dict) : res dict :=
  let version := dgetv "schema_version" data in
  if negb (version_in version [1; 2]) then Ok data
  else
    let data := if py_eq version (VInt 1)
                then modify data ["intent"; "launch"] (dset "model_route" VNone) else data in
    let data := modify data ["intent"; "policy"; "supervisor"]
                  (fun s => dset "supervisor_model" VNone (dset "auth_mode" (VStr "inherit") s)) in
    let intent := default [] (dict_at data ["intent"]) in
    let overrides := default [] (dict_at data ["overrides"]) in
    let effective := apply_overrides intent overrides in
    lane ← supervisor_lane (dgetv "confirmed" data) effective;
    override_sup ← or_get "supervisor" (dgetv "policy" overrides);
    data ← (match dict_at data ["intent"; "policy"; "supervisor"] with
            | Some s => s ← upgrade_config lane s;
                        Ok (modify data ["intent"; "policy"; "supervisor"] (fun _ => s))
            | None => Ok data
            end : res dict);
    data ← (match override_sup with
            | VDict s => s ← upgrade_config lane s;
                         Ok (modify data ["overrides"; "policy"; "supervisor"] (fun _ => s))
            | _ => Ok data
            end : res dict);
    Ok (dset "schema_version" (VInt 3) data).

(** ** Writing *)

(** [(section.get("policy") or {}).get("supervisor")]. *)
Definition section_supervisor (section : dict) : res value := or_get "supervisor" (dgetv "policy" section).

(** [bool(supervisor and supervisor.get(k))] on a supervisor that is null or an object. *)
Definition has_truthy (k : string) (supervisor : value) : bool :=
  match supervisor with VDict s => truthy (dgetv k s) | _ => false end.

Definition drop_key (k : string) (data : dict) : dict :=
  foldl (fun data section => modify data [section; "policy"; "supervisor"] (ddel k)) data
    ["intent"; "overrides"].

(** [config.get("review_trigger", "pre-tool-use") != "pre-tool-use"]. *)
Definition wants_stop (config : dict) : bool :=
  negb (py_eq (dget_default "review_trigger" (VStr "pre-tool-use") config) (VStr "pre-tool-use")).

(** A supervisor that schema 2 can express: none, or inherited auth without a model. *)
Definition is_legacy (supervisor : value) : bool :=
  match supervisor with
  | VDict s => negb (truthy supervisor) ||
               (py_eq (dgetv "auth_mode" s) (VStr "inherit") && bool_decide (dgetv "supervisor_model" s = VNone))
  | _ => true
  end.

(** The version [manifest_for_write] chooses. *)
Definition write_version (supervisor override_sup : value) : Z :=
  let new_override := match override_sup with
                      | VDict s => dhas "auth_mode" s || dhas "supervisor_model" s
                      | _ => false
                      end in
  let stop_required := existsb wants_stop (configs (as_dict supervisor) (as_dict override_sup)) in
  let native_required := has_truthy "native_source" supervisor ||
                         match override_sup with VDict s => dhas "native_source" s | _ => false end in
  if native_required then SCHEMA_VERSION
  else if stop_required then 4
  else if is_legacy supervisor && negb new_override then 2 else 3.

(** [manifest_for_write], on [session_state_to_dict(manifest)]. The supervisor of the intent
    is a [SupervisorConfig] or null, so its fields are present. *)
Definition manifest_for_write (data : dict) : res dict :=
  let intent := default [] (dict_at data ["intent"]) in
  let overrides := default [] (dict_at data ["overrides"]) in
  supervisor ← section_supervisor intent;
  override_sup ← section_supervisor overrides;
  let version := write_version supervisor override_sup in
  let data := if version =? SCHEMA_VERSION then data else drop_key "native_source" data in
  let data := if (version =? SCHEMA_VERSION) || (version =? 4) then data else drop_key "review_trigger" data in
  let data := dset "schema_version" (VInt version) data in
  Ok (if version =? 2
      then modify data ["intent"; "policy"; "supervisor"] (fun s => ddel "supervisor_model" (ddel "auth_mode" s))
      else data).

(** ** The store *)

Section Store.

Context {state : Type} (from_dict : dict -> res state) (state_name : state -> string).
Context (asdict : state -> dict) (py_str : value -> string).
Context (path session_name : string).

(** What [dacite] raises for a payload that does not fit. *)
Definition is_deserialization_error (c : exn_class) : bool :=
  bool_decide (c ∈ [DaciteError; TypeError; KeyError; ValueError; UnicodeDecodeError; JSONDecodeError]).

(** [SessionStore.read]. *)
Definition read (f : option content) : res state :=
  match f with
  | None => raise SessionFileNotFoundError ("session file not found at '" +++ path +++ "'")
  | Some (CBadJson e) => corrupted path ("invalid JSON: " +++ e)
  | Some (CUnreadable e) =>
      raise ManifestUnreadableError ("manifest at '" +++ path +++ "': read error: " +++ e)
  | Some (CNotUtf8 e) => raise UnicodeDecodeError e
  | Some (CJson (VDict data)) =>
      let data := strip_removed_memory_generated_file data in
      let data := strip_preview_memory_doc_lists data in
      let data := strip_removed_supervisor_runtime data in
      _ ← _validate_data path py_str data;
      data ← upgrade_manifest_for_read data;
      match from_dict data with
      | Err e =>
          if is_deserialization_error (exn_cls e)
          then corrupted path ("deserialization error: " +++ exn_msg e) else Err e
      | Ok manifest =>
          if String.eqb (state_name manifest) session_name then Ok manifest
          else corrupted path ("manifest names session '" +++ state_name manifest +++
                 "' but lives in directory '" +++ session_name +++ "'")
      end
  | Some (CJson v) => corrupted path ("expected a JSON object, got " +++ type_name v)
  end.

End Store.

(** ** Typed overrides *)

(** Reference: [v] may override a field annotated [t]. *)
Fixpoint fits (t : annot) (v : value) : bool :=
  match v with
  | VDict d =>
      match unwrap_optional t with
      | TClass fields =>
          (fix go (d : dict) : bool :=
             match d with
             | [] => true
             | (key, v) :: d =>
                 negb (String.eqb key "custom") && negb (startswith "_" key) &&
                 match dget key fields with Some ft => fits ft v | None => false end && go d
             end) d
      | TDict => true
      | _ => false
      end
  | _ => true
  end.

(** The annotation at a path of the schema. *)
Fixpoint annot_at (t : annot) (p : list string) : option annot :=
  match p with
  | [] => Some t
  | k :: p =>
      if String.eqb k "custom" || startswith "_" k then None
      else match unwrap_optional t with
           | TClass fields => match dget k fields with Some ft => annot_at ft p | None => None end
           | _ => None
           end
  end.

Definition field_fits (fields : list (string * annot)) (p : string * value) : bool :=
  negb (String.eqb (fst p) "custom") && negb (startswith "_" (fst p)) &&
  match dget (fst p) fields with Some ft => fits ft (snd p) | None => false end.

Lemma fits_class t fields d :
  unwrap_optional t = TClass fields -> fits t (VDict d) = forallb (field_fits fields) d.
Proof. intros Ht. simpl. rewrite Ht. induction d as [|[k v] d IH]; [done|]. simpl. by rewrite IH. Qed.

Lemma validate_fits mp pre fields v :
  is_dict v = true -> is_ok (_validate_overrides_dict_against_dataclass mp pre (TClass fields) v) = fits (TClass fields) v.
Proof.
  revert pre fields. induction v as [| | | | | |d IH] using value_nested_ind; intros pre fields Hv; try done.
  rewrite (fits_class _ fields) by done. simpl. clear Hv. revert pre.
  induction IH as [|[k v] d Hv _ IHd]; intros pre; [done|]. cbn [forallb]. rewrite <- (IHd pre).
  unfold field_fits. cbn [fst snd]. destruct (String.eqb k "custom"); [done|].
  destruct (startswith "_" k); [done|]. cbn [negb andb]. destruct (dget k fields) as [ft|]; [|done].
  destruct v as [| | | | | |d']; try (rewrite res_bind_ok; done).
  destruct (unwrap_optional ft) as [fs| | |] eqn:Hft; try (cbn [fits]; rewrite Hft; done).
  specialize (Hv (pre +++ "." +++ k) fs eq_refl). change ((k, VDict d').2) with (VDict d') in Hv.
  rewrite (fits_class ft fs), <- (fits_class (TClass fs) fs), <- Hv by done.
  by destruct (_validate_overrides_dict_against_dataclass _ _ _ _) as [[]|].
Qed.

Lemma schema_ok_fits o mp : _validate_overrides_schema o mp = Ok tt <-> fits SessionIntent (VDict o) = true.
Proof.
  unfold _validate_overrides_schema. pose proof (validate_fits mp "overrides") as H.
  unfold SessionIntent in *. rewrite <- H by done.
  destruct (_validate_overrides_dict_against_dataclass _ _ _ _) as [[]|]; done.
Qed.

Lemma forallb_dset (f : string * value -> bool) k v d :
  forallb f d = true -> f (k, v) = true -> forallb f (dset k v d) = true.
Proof.
  induction d as [|[j w] d IH]; simpl; [by intros _ ->|]. intros [Hj Hd]%andb_true_iff Hv.
  case_decide; subst; simpl; rewrite andb_true_iff; [done|auto].
Qed.

Lemma forallb_ddel (f : string * value -> bool) k d : forallb f d = true -> forallb f (ddel k d) = true.
Proof.
  induction d as [|[j w] d IH]; simpl; [done|]. intros [Hj Hd]%andb_true_iff.
  case_decide; [done|]. simpl. rewrite andb_true_iff. auto.
Qed.

Lemma forallb_dget (f : string * value -> bool) k v d : forallb f d = true -> dget k d = Some v -> f (k, v) = true.
Proof. intros Hd Hk%dget_elem_of%list_elem_of_In. rewrite forallb_forall in Hd. by apply Hd. Qed.

(** The fields of an annotation along a path. *)
Lemma annot_at_cons t k p t' :
  annot_at t (k :: p) = Some t' ->
  exists fields ft, unwrap_optional t = TClass fields /\ dget k fields = Some ft /\ annot_at ft p = Some t' /\
    forall v, field_fits fields (k, v) = fits ft v.
Proof.
  cbn [annot_at]. destruct (String.eqb k "custom") eqn:Hc; [done|]. destruct (startswith "_" k) eqn:Hu; [done|].
  cbn [orb]. destruct (unwrap_optional t) as [fields| | |]; try done. destruct (dget k fields) as [ft|] eqn:Hft; [|done].
  intros H. exists fields, ft. split_and!; try done. intros v. unfold field_fits. cbn [fst snd].
  by rewrite Hc, Hu, Hft.
Qed.

Lemma fits_set_path t d p v t' :
  fits t (VDict d) = true -> p <> [] -> annot_at t p = Some t' -> fits t' v = true ->
  fits t (VDict (_set_path d p v)) = true.
Proof.
  revert t d. induction p as [|k p IH]; intros t d Hd Hp Ht Hv; [done|].
  apply annot_at_cons in Ht as (fields & ft & Hf & Hk & Ht & Hfit).
  rewrite (fits_class _ fields) in Hd by done. rewrite (fits_class _ fields) by done.
  destruct (decide (p = [])) as [->|Hne].
  - simpl in Ht |- *. simplify_eq. apply forallb_dset; [done|by rewrite Hfit].
  - rewrite set_path_cons by done. apply forallb_dset; [done|]. rewrite Hfit. apply IH; [|done..].
    assert (exists fs, unwrap_optional ft = TClass fs) as [fs Hfs].
    { destruct p as [|k' p]; [done|]. apply annot_at_cons in Ht as (fs & _ & ? & _). by exists fs. }
    destruct (dget k d) as [[| | | | | |c]|] eqn:Hc; try by rewrite (fits_class _ fs).
    rewrite <- Hfit. by eapply forallb_dget.
Qed.

(** Removing keys keeps overrides well typed. *)
Lemma fits_dset_same t d k c c' :
  fits t (VDict d) = true -> dget k d = Some c -> (forall ft, fits ft c = true -> fits ft c' = true) ->
  fits t (VDict (dset k c' d)) = true.
Proof.
  intros Hd Hk Hc. destruct (unwrap_optional t) as [fields| | |] eqn:Hf; try (cbn [fits] in *; by rewrite Hf in *).
  rewrite (fits_class _ fields) in Hd |- * by done. apply forallb_dset; [done|].
  pose proof (forallb_dget _ _ _ _ Hd Hk) as H. unfold field_fits in *. cbn [fst snd] in *.
  apply andb_true_iff in H as [-> H]. destruct (dget k fields); [by apply Hc|done].
Qed.

Lemma fits_ddel t k d : fits t (VDict d) = true -> fits t (VDict (ddel k d)) = true.
Proof.
  intros Hd. destruct (unwrap_optional t) as [fields| | |] eqn:Hf; try (cbn [fits] in *; by rewrite Hf in *).
  rewrite (fits_class _ fields) in Hd |- * by done. by apply forallb_ddel.
Qed.

Lemma fits_delete_path t d p : fits t (VDict d) = true -> fits t (VDict (_delete_path d p).1) = true.
Proof.
  revert t d. induction p as [|k p IH]; intros t d Hd; [done|]. destruct (decide (p = [])) as [->|Hne].
  - cbn [_delete_path]. destruct (dhas k d); [by apply fits_ddel|done].
  - rewrite delete_path_cons by done. destruct (dget k d) as [[| | | | | |c]|] eqn:Hc; try done.
    cbn [fst]. eapply fits_dset_same; [done..|]. intros ft. apply IH.
Qed.

Lemma fits_modify t d p f :
  (forall t d, fits t (VDict d) = true -> fits t (VDict (f d)) = true) ->
  fits t (VDict d) = true -> fits t (VDict (modify d p f)) = true.
Proof.
  intros Hf. revert t d. induction p as [|k p IH]; intros t d Hd; [by apply Hf|]. cbn [modify].
  destruct (dget k d) as [[| | | | | |c]|] eqn:Hc; try done.
  eapply fits_dset_same; [done..|]. intros ft. apply IH.
Qed.

(** The paths a write assigns. *)
Definition written_paths (key : string) : res (list (list string)) :=
  if contains "*" key then wildcard_parts key else parts ← validate_key key; Ok [parts].

(** [v] fits the schema at every path the write assigns. *)
Definition value_fits (key : string) (v : value) : bool :=
  match written_paths key with
  | Ok ps => forallb (fun p => match annot_at SessionIntent p with Some t => fits t v | None => false end) ps
  | Err _ => true
  end.

Lemma valid_key_annot key :
  key ∈ get_valid_intent_paths -> is_Some (annot_at SessionIntent (split_on "." key)).
Proof.
  intros Hin. assert (forallb (fun k => bool_decide (is_Some (annot_at SessionIntent (split_on "." k))))
                        get_valid_intent_paths = true) as H by (vm_compute; reflexivity).
  by apply (for_valid_keys _ _ H), bool_decide_eq_true in Hin.
Qed.

Lemma written_paths_annot key ps :
  written_paths key = Ok ps -> Forall (fun p => p <> [] /\ is_Some (annot_at SessionIntent p)) ps.
Proof.
  unfold written_paths. destruct (contains "*" key).
  - unfold wildcard_parts. destruct (expand_wildcard _ _) as [paths|]; [|done]. rewrite res_bind_ok.
    case_bool_decide; [done|]. intros Hm%mapM_res_Forall2. clear -Hm.
    induction Hm as [|p q ps qs Hpq _ IH]; constructor; [|done].
    apply validate_key_valid in Hpq as [Hin ->]. split; [apply split_on_ne|by apply valid_key_annot].
  - destruct (validate_key key) as [parts|] eqn:Hv; [|done]. rewrite res_bind_ok. intros [= <-].
    apply validate_key_valid in Hv as [Hin ->]. repeat constructor; [apply split_on_ne|by apply valid_key_annot].
Qed.

Lemma set_override_written o key v o' :
  set_override o key v = (Tree o', Ok tt) ->
  exists ps, written_paths key = Ok ps /\ o' = foldl (fun d parts => _set_path d parts v) o ps.
Proof.
  intros H. unfold written_paths. destruct (contains "*" key) eqn:Hk.
  - unfold set_override in H. rewrite Hk in H. fold (wildcard_parts key) in H.
    destruct (wildcard_parts key) as [ps|]; [|done]. exists ps. split; [done|].
    unfold set_each in H. destruct (_ && _); by simplify_eq.
  - apply set_override_path in H as (-> & _ & ->); [|done]. by exists [split_on "." key].
Qed.

Lemma fits_set_each o v ps :
  fits SessionIntent (VDict o) = true ->
  Forall (fun p => p <> [] /\ exists t, annot_at SessionIntent p = Some t /\ fits t v = true) ps ->
  fits SessionIntent (VDict (foldl (fun d parts => _set_path d parts v) o ps)) = true.
Proof.
  intros Ho Hps. revert o Ho. induction Hps as [|p ps (Hp & t & Ht & Hv) _ IH]; intros o Ho; [done|].
  cbn [foldl]. apply IH. by apply (fits_set_path _ _ _ _ t).
Qed.

Lemma fits_delete_each o paths : fits SessionIntent (VDict o) = true ->
  fits SessionIntent (VDict (delete_each o paths).1) = true.
Proof.
  intros Ho. unfold delete_each. enough (forall acc, fits SessionIntent (VDict acc.1) = true ->
    fits SessionIntent (VDict (foldl delete_one acc paths).1) = true) as H by by apply H.
  clear o Ho. induction paths as [|p ps IH]; intros acc Hacc; [done|]. cbn [foldl]. apply IH.
  unfold delete_one. pose proof (fits_delete_path _ _ (split_on "." p) Hacc) as Hd.
  by destruct (_delete_path acc.1 (split_on "." p)).
Qed.

(** C35: Overrides the manifest reader accepts stay acceptable. A write that succeeds keeps
    them so whenever the value is no object, or is an object the schema allows at every
    path the key (or its expansion) names; a reset, successful or not, always does. *)
Theorem overrides_stay_typed (path : string) (o : dict) (key : string) :
  _validate_overrides_schema o path = Ok tt ->
  (forall v o', set_override o key v = (Tree o', Ok tt) -> is_dict v = false \/ value_fits key v = true ->
     _validate_overrides_schema o' path = Ok tt) /\
  (forall o' r, delete_override o key = (o', r) -> _validate_overrides_schema o' path = Ok tt).
Proof.
  rewrite schema_ok_fits. intros Ho. split.
  - intros v o' (ps & Hps & ->)%set_override_written Hv. apply schema_ok_fits, fits_set_each; [done|].
    pose proof (written_paths_annot _ _ Hps) as Hann. unfold value_fits in Hv. rewrite Hps in Hv.
    apply Forall_forall. intros p Hp. rewrite Forall_forall in Hann. destruct (Hann p Hp) as [Hne [t Ht]].
    split; [done|]. exists t. split; [done|]. destruct Hv as [Hv|Hv]; [by destruct v|].
    rewrite forallb_forall in Hv. specialize (Hv p (proj1 (list_elem_of_In _ _) Hp)). by rewrite Ht in Hv.
  - intros o' r H. apply schema_ok_fits. unfold delete_override in H. destruct (contains "*" key).
    + destruct (expand_wildcard _ _) as [paths|]; [|by simplify_eq].
      pose proof (fits_delete_each o paths Ho). destruct (delete_each o paths). by simplify_eq.
    + destruct (if String.eqb key "launch.runtime" then _ else _) as [parts|]; [|by simplify_eq].
      pose proof (fits_delete_path _ _ parts Ho). destruct (_delete_path o parts). by simplify_eq.
Qed.

(** ** What reading a manifest can raise *)

Section ReadErrors.

Context (path : string) (py_str : value -> string).

(** The two classes the checks of a manifest's content raise. *)
Definition rejection (c : exn_class) : Prop := c = ManifestCorruptedError \/ c = ManifestValidationError.

Lemma rejects_overrides mp pre cls v : raises_only rejection (_validate_overrides_dict_against_dataclass mp pre cls v).
Proof.
  revert pre cls. induction v as [| | | | | |d IH] using value_nested_ind; intros pre [fields| | |]; try done; try by left.
  simpl. revert pre. induction IH as [|[k v] d Hv _ IHd]; intros pre; [done|].
  destruct (String.eqb k "custom"); [by left|]. destruct (if startswith "_" k then None else _) as [ft|]; [|by left].
  apply raises_only_bind; [|intros; apply IHd]. destruct v; try done.
  destruct (unwrap_optional ft); [apply Hv|done|by left..].
Qed.

Lemma rejects_supervisor version s : raises_only rejection (check_supervisor path py_str version s).
Proof.
  assert (forall v s k, raises_only rejection (check_supervisor_field path py_str v s k)) as Hf.
  { intros ???. unfold check_supervisor_field. repeat case_match; try done; by left. }
  destruct s as [s|]; [|done]. cbn [check_supervisor foldM_res].
  apply raises_only_bind; [apply Hf|intros _ _]. by apply raises_only_bind; [apply Hf|].
Qed.

(** [hashable] is what the membership test of [schema_version] needs. *)
Lemma validate_data_errors data :
  match dget "schema_version" data with Some v => hashable v = true | None => True end ->
  raises_only rejection (_validate_data path py_str data).
Proof.
  intros Hh. unfold _validate_data.
  apply raises_only_bind. { unfold check_version. destruct (dget _ data); [|done]. rewrite Hh. cbn [negb].
    case_match; [done|by left]. }
  intros m1 _. apply raises_only_bind. { unfold check_overrides. repeat case_match; try done; by left. }
  intros m2 _. apply raises_only_bind. { unfold check_intent. repeat case_match; try done; by left. }
  intros [intent m4] _. apply raises_only_bind. { unfold check_proxy. repeat case_match; try done; by left. }
  intros m5 _. apply raises_only_bind. { unfold check_launch. repeat case_match; try done; by left. }
  intros m6 _. apply raises_only_bind; [apply rejects_supervisor|intros _ _].
  apply raises_only_bind. { unfold check_native. repeat case_match; try done; by left. } intros _ _.
  apply raises_only_bind. { unfold check_trigger. repeat case_match; try done; by left. } intros _ _.
  apply raises_only_bind. { destruct (dget "overrides" data) as [[]|]; try done. apply rejects_overrides. } intros _ _.
  apply raises_only_bind. { unfold check_confirmed. repeat case_match; try done; by left. } intros _ _.
  destruct (m1 ++ _); [done|by right].
Qed.

Lemma attr_get_raises k v : raises_only (eq AttributeError) (attr_get k v).
Proof. by destruct v. Qed.

Lemma upgrade_config_raises lane s : raises_only (eq AttributeError) (upgrade_config lane s).
Proof.
  unfold upgrade_config. apply raises_only_bind; [|done]. destruct (truthy lane); [|done].
  apply raises_only_bind; [apply attr_get_raises|done].
Qed.

Lemma supervisor_lane_raises c f : raises_only (eq AttributeError) (supervisor_lane c f).
Proof.
  unfold supervisor_lane, or_get. apply raises_only_bind; [apply attr_get_raises|intros lanes _].
  apply raises_only_bind; [apply attr_get_raises|intros binding _].
  destruct (truthy binding); apply attr_get_raises.
Qed.

Lemma upgrade_raises data : raises_only (eq AttributeError) (upgrade_manifest_for_read data).
Proof.
  unfold upgrade_manifest_for_read. destruct (version_in _ _); [|done]. cbn [negb].
  apply raises_only_bind; [apply supervisor_lane_raises|intros lane _].
  apply raises_only_bind; [apply attr_get_raises|intros sup _].
  apply raises_only_bind; [|intros data' _].
  - destruct (dict_at _ _); [|done]. by apply raises_only_bind; [apply upgrade_config_raises|].
  - apply raises_only_bind; [|done]. destruct sup; try done.
    by apply raises_only_bind; [apply upgrade_config_raises|].
Qed.
End ReadErrors.

Lemma dget_modify_ne k j p d f : k <> j -> dget k (modify d (j :: p) f) = dget k d.
Proof.
  intros Hne. cbn [modify]. destruct (dget j d) as [[]|]; try done. by rewrite dget_dset_ne.
Qed.

(** The three legacy clean-ups, and what they leave alone. *)
Definition strip_legacy (data : dict) : dict :=
  strip_removed_supervisor_runtime (strip_preview_memory_doc_lists (strip_removed_memory_generated_file data)).

Lemma strip_legacy_keeps k data : k <> "intent" -> k <> "overrides" -> dget k (strip_legacy data) = dget k data.
Proof.
  intros H1 H2. unfold strip_legacy, strip_removed_supervisor_runtime, strip_preview_memory_doc_lists,
    strip_removed_memory_generated_file. cbn [foldl]. by rewrite !dget_modify_ne by done.
Qed.


(** ** Writing and reading back *)

Lemma dget_modify_eq k p d f c : dget k d = Some (VDict c) -> dget k (modify d (k :: p) f) = Some (VDict (modify c p f)).
Proof. intros H. cbn [modify]. by rewrite H, dget_dset_eq. Qed.

Lemma path_get_modify_eq d p f :
  p <> [] ->
  path_get (VDict (modify d p f)) p
  = match path_get (VDict d) p with Some (VDict c) => Some (VDict (f c)) | r => r end.
Proof.
  revert d. induction p as [|k p IH]; intros d Hp; [done|]. rewrite !path_get_cons. clear Hp.
  cbn [modify]. destruct (dget k d) as [v|] eqn:Hk; [|by rewrite Hk].
  destruct (is_dict v) eqn:Hv.
  - destruct v as [| | | | | |c]; try done. rewrite dget_dset_eq. destruct p as [|k' p]; [done|]. by apply IH.
  - assert (match v with VDict c => dset k (VDict (modify c p f)) d | _ => d end = d) as -> by by destruct v.
    rewrite Hk. destruct p; [by destruct v|]. by rewrite path_get_scalar.
Qed.

Lemma path_get_modify_apart d p q f : apart p q -> path_get (VDict (modify d p f)) q = path_get (VDict d) q.
Proof.
  revert d q. induction p as [|k p IH]; intros d q Ha; [by apply apart_nil_l in Ha|].
  destruct q as [|j q]; [by apply apart_nil_r in Ha|]. rewrite !path_get_cons. destruct (decide (j = k)) as [->|Hne].
  - apply apart_cons in Ha. cbn [modify]. destruct (dget k d) as [[| | | | | |c]|] eqn:Hk; rewrite ?Hk; try done.
    rewrite dget_dset_eq. by apply IH.
  - by rewrite dget_modify_ne.
Qed.

Lemma modify_id d p f :
  (forall c, path_get (VDict d) p = Some (VDict c) -> f c = c) -> modify d p f = d.
Proof.
  revert d. induction p as [|k p IH]; intros d Hf; [by apply Hf|]. cbn [modify].
  destruct (dget k d) as [[| | | | | |c]|] eqn:Hk; try done. rewrite IH; [by apply dset_id|].
  intros c' Hc. apply Hf. by rewrite path_get_cons, Hk.
Qed.

Lemma wf_modify d p f :
  (forall c, wf_value (VDict c) -> wf_value (VDict (f c))) -> wf_value (VDict d) -> wf_value (VDict (modify d p f)).
Proof.
  intros Hf. revert d. induction p as [|k p IH]; intros d Hd; [by apply Hf|]. cbn [modify].
  destruct (dget k d) as [[| | | | | |c]|] eqn:Hk; try done.
  apply wf_dset; [done|]. apply IH. by eapply wf_value_dget.
Qed.

Lemma wf_ddel k d : wf_value (VDict d) -> wf_value (VDict (ddel k d)).
Proof.
  intros Hd. pose proof (wf_delete_path d [k] Hd) as H. cbn [_delete_path] in H.
  destruct (dhas k d) eqn:E; [done|]. apply dhas_false in E. by rewrite ddel_not_in.
Qed.

Notation sup_path := ["policy"; "supervisor"].

(** An unknown field is in no typed object. *)
Lemma fits_path t d p t' c :
  fits t (VDict d) = true -> annot_at t p = Some t' -> path_get (VDict d) p = Some (VDict c) -> fits t' (VDict c) = true.
Proof.
  revert t d. induction p as [|k p IH]; intros t d Hd Ht Hc; [by simplify_eq/=|].
  apply annot_at_cons in Ht as (fields & ft & Hf & Hk & Ht & Hfit).
  rewrite path_get_cons in Hc. destruct (dget k d) as [v|] eqn:Hv; [|done].
  rewrite (fits_class _ fields) in Hd by done. pose proof (forallb_dget _ _ _ _ Hd Hv) as Hvf.
  rewrite Hfit in Hvf. destruct v as [| | | | | |d']; try (destruct p; done). by apply (IH ft d').
Qed.

Lemma strip_field_id t d p k t' :
  fits t (VDict d) = true -> annot_at t p = Some t' ->
  (exists fields, unwrap_optional t' = TClass fields /\ dget k fields = None) -> modify d p (ddel k) = d.
Proof.
  intros Hd Ht (fields & Hf & Hk). apply modify_id. intros c Hc. apply ddel_not_in.
  pose proof (fits_path _ _ _ _ _ Hd Ht Hc) as Hfit. rewrite (fits_class _ fields) in Hfit by done.
  destruct (dget k c) as [v|] eqn:Hv; [|done]. pose proof (forallb_dget _ _ _ _ Hfit Hv) as H.
  unfold field_fits in H. cbn [fst] in H. rewrite Hk, andb_false_r in H. done.
Qed.

Lemma strip_legacy_typed data :
  (forall sec c, sec ∈ ["intent"; "overrides"] -> dget sec data = Some (VDict c) -> fits SessionIntent (VDict c) = true) ->
  strip_legacy data = data.
Proof.
  intros Hfit. assert (forall sec p k, sec ∈ ["intent"; "overrides"] ->
      (exists t', annot_at SessionIntent p = Some t' /\
         exists fields, unwrap_optional t' = TClass fields /\ dget k fields = None) ->
      modify data (sec :: p) (ddel k) = data) as H.
  { intros sec p k Hsec (t' & Ht & Hk). cbn [modify]. destruct (dget sec data) as [[| | | | | |c]|] eqn:Hc; try done.
    rewrite (strip_field_id SessionIntent c p k t') by (done || by eapply Hfit). by apply dset_id. }
  unfold strip_legacy, strip_removed_memory_generated_file, strip_preview_memory_doc_lists,
    strip_removed_supervisor_runtime. cbn [foldl].
  repeat (rewrite H; [|set_solver|eexists; split; [reflexivity|eexists; split; reflexivity]]). done.
Qed.

(** The supervisor of a section, null when there is none. *)
Definition supervisor_of (section : dict) : value := default VNone (path_get (VDict section) sup_path).

(** The section's policy is an object or null. *)
Definition policy_readable (section : dict) : Prop :=
  match dgetv "policy" section with VNone | VDict _ => True | _ => False end.

(** A section whose supervisor lost the fields [ks] and nothing else. *)
Definition ddels (ks : list string) (s : dict) : dict := foldl (fun s k => ddel k s) s ks.

Record edited (ks : list string) (c c' : dict) : Prop := {
  ed_at : path_get (VDict c') sup_path
          = match path_get (VDict c) sup_path with Some (VDict s) => Some (VDict (ddels ks s)) | r => r end;
  ed_apart : forall q, apart sup_path q -> path_get (VDict c') q = path_get (VDict c) q;
  ed_fits : fits SessionIntent (VDict c) = true -> fits SessionIntent (VDict c') = true;
  ed_wf : wf_value (VDict c) -> wf_value (VDict c');
  ed_policy : policy_readable c -> policy_readable c' }.

Lemma policy_readable_modify c f : policy_readable c -> policy_readable (modify c sup_path f).
Proof.
  unfold policy_readable, dgetv, dget_default. cbn [modify].
  destruct (dget "policy" c) as [[| | | | | |p]|] eqn:Hp; rewrite ?Hp; try done. by rewrite dget_dset_eq.
Qed.

Lemma edited_refl c : edited [] c c.
Proof. split; try done. by destruct (path_get _ _) as [[]|]. Qed.

Lemma edited_drop ks k c c' : edited ks c c' -> edited (ks ++ [k]) c (modify c' sup_path (ddel k)).
Proof.
  intros [Hat Hap Hfit Hwf Hpol]. split.
  - rewrite path_get_modify_eq, Hat by done. destruct (path_get (VDict c) sup_path) as [[]|]; try done.
    unfold ddels. by rewrite foldl_app.
  - intros q Hq. by rewrite path_get_modify_apart, Hap.
  - intros Hc. apply fits_modify; [intros ??; apply fits_ddel|auto].
  - intros Hc. apply wf_modify; [intros ?; apply wf_ddel|auto].
  - intros Hc. by apply policy_readable_modify, Hpol.
Qed.

(** The manifest [w] is [data] up to the schema version, with such sections. *)
Record written (ks_intent ks_overrides : list string) (data w intent overrides : dict) : Prop := {
  wr_intent : exists c, dget "intent" w = Some (VDict c) /\ edited ks_intent intent c;
  wr_overrides : exists c, dget "overrides" w = Some (VDict c) /\ edited ks_overrides overrides c;
  wr_rest : forall k, k ∉ ["schema_version"; "intent"; "overrides"] -> dget k w = dget k data }.

Section WrittenSteps.
Context (data intent overrides : dict).

Lemma written_refl :
  dget "intent" data = Some (VDict intent) -> dget "overrides" data = Some (VDict overrides) ->
  written [] [] data data intent overrides.
Proof. intros Hi Ho. split; [exists intent|exists overrides|done]; (split; [done|apply edited_refl]). Qed.

Lemma written_drop ki ko k w :
  written ki ko data w intent overrides ->
  written (ki ++ [k]) (ko ++ [k]) data (drop_key k w) intent overrides.
Proof.
  intros [(ci & Hi & Ei) (co & Ho & Eo) Hr]. unfold drop_key. cbn [foldl]. split.
  - exists (modify ci sup_path (ddel k)). split; [|by apply edited_drop].
    rewrite dget_modify_ne by done. by apply dget_modify_eq.
  - exists (modify co sup_path (ddel k)). split; [|by apply edited_drop].
    apply dget_modify_eq. by rewrite dget_modify_ne.
  - intros j Hj. rewrite !dget_modify_ne by set_solver. by apply Hr.
Qed.

Lemma written_drop_intent ki ko k w :
  written ki ko data w intent overrides ->
  written (ki ++ [k]) ko data (modify w ("intent" :: sup_path) (ddel k)) intent overrides.
Proof.
  intros [(ci & Hi & Ei) (co & Ho & Eo) Hr]. split.
  - exists (modify ci sup_path (ddel k)). split; [by apply dget_modify_eq|by apply edited_drop].
  - exists co. by rewrite dget_modify_ne.
  - intros j Hj. rewrite dget_modify_ne by set_solver. by apply Hr.
Qed.

Lemma written_version ki ko v w :
  written ki ko data w intent overrides -> written ki ko data (dset "schema_version" v w) intent overrides.
Proof.
  intros [(ci & Hi & Ei) (co & Ho & Eo) Hr].
  split; [exists ci|exists co|intros j Hj]; rewrite dget_dset_ne by (done || set_solver); auto.
Qed.
End WrittenSteps.

Lemma section_supervisor_ok section : policy_readable section -> section_supervisor section = Ok (supervisor_of section).
Proof.
  unfold policy_readable, section_supervisor, supervisor_of, or_get, dgetv, dget_default. rewrite path_get_cons.
  destruct (dget "policy" section) as [[| | | | | |p]|]; try done. intros _. destruct p as [|[k v] p]; [done|].
  cbn [truthy attr_get]. rewrite path_get_cons. unfold dgetv, dget_default.
  by destruct (dget "supervisor" ((k, v) :: p)) as [[]|].
Qed.

Definition intent_drops (v : Z) : list string :=
  (if v =? 5 then [] else ["native_source"]) ++ (if (v =? 5) || (v =? 4) then [] else ["review_trigger"]) ++
  (if v =? 2 then ["auth_mode"; "supervisor_model"] else []).

Definition override_drops (v : Z) : list string :=
  (if v =? 5 then [] else ["native_source"]) ++ (if (v =? 5) || (v =? 4) then [] else ["review_trigger"]).

Lemma modify_modify d p f g :
  p <> [] -> modify (modify d p f) p g = modify d p (fun c => g (f c)).
Proof.
  revert d. induction p as [|k p IH]; intros d Hp; [done|]. cbn [modify].
  destruct (dget k d) as [[| | | | | |c]|] eqn:Hk; rewrite ?Hk; try done.
  rewrite dget_dset_eq, dset_dset. destruct (decide (p = [])) as [->|]; [done|]. by rewrite IH.
Qed.

Lemma write_version_cases s o : write_version s o ∈ [2; 3; 4; 5].
Proof. unfold write_version. repeat case_match; set_solver. Qed.

Lemma manifest_for_write_written data intent overrides :
  dget "intent" data = Some (VDict intent) -> dget "overrides" data = Some (VDict overrides) ->
  policy_readable intent -> policy_readable overrides ->
  let v := write_version (supervisor_of intent) (supervisor_of overrides) in
  exists w, manifest_for_write data = Ok w /\ dget "schema_version" w = Some (VInt v) /\
    written (intent_drops v) (override_drops v) data w intent overrides.
Proof.
  intros Hi Ho Hpi Hpo v. unfold manifest_for_write, dict_at. rewrite !path_get_cons, Hi, Ho.
  cbn [path_get mbind option_bind as_dict default id]. rewrite !section_supervisor_ok, !res_bind_ok by done. fold v.
  pose proof (written_refl _ _ _ Hi Ho) as W0.
  pose proof (written_drop _ _ _ _ _ "native_source" _ W0) as W1.
  pose proof (written_drop _ _ _ _ _ "review_trigger" _ W1) as W2.
  assert (v ∈ [2; 3; 4; 5]) as Hv by apply write_version_cases.
  eexists. split; [reflexivity|]. clearbody v.
  repeat (apply elem_of_cons in Hv as [->|Hv]); try (by apply elem_of_nil in Hv);
    cbn [Z.eqb Pos.eqb SCHEMA_VERSION orb]; unfold intent_drops, override_drops;
    cbn [Z.eqb Pos.eqb SCHEMA_VERSION orb app] in *.
  - split; [by rewrite dget_modify_ne, dget_dset_eq|].
    rewrite <- (modify_modify _ ("intent" :: sup_path) (ddel "auth_mode") (ddel "supervisor_model")) by done.
    apply (written_drop_intent _ _ _ ["native_source"; "review_trigger"; "auth_mode"]).
    apply (written_drop_intent _ _ _ ["native_source"; "review_trigger"]). by apply written_version.
  - split; [apply dget_dset_eq|by apply written_version].
  - split; [apply dget_dset_eq|by apply written_version].
  - split; [apply dget_dset_eq|by apply written_version].
Qed.

(** [session_state_to_dict] of a valid state: the fields its dataclasses guarantee, with
    overrides the reader accepts. *)
Record state_dict (data intent overrides : dict) : Prop := {
  sd_intent : dget "intent" data = Some (VDict intent);
  sd_overrides : dget "overrides" data = Some (VDict overrides);
  sd_required : Forall (fun k => dhas k data = true) ["name"; "created_at"; "last_accessed_at"];
  sd_wf : wf_value (VDict data);
  sd_typed : fits SessionIntent (VDict intent) = true /\ fits SessionIntent (VDict overrides) = true;
  sd_policy : policy_readable intent /\ policy_readable overrides;
  sd_proxy : match dgetv "proxy" intent with
             | VNone => True
             | VDict p => dhas "template" p = true /\ dhas "base_url" p = true
             | _ => False
             end;
  sd_launch : match dgetv "launch" intent with
              | VNone => True
              | VDict l => dhas "model_route" l = true
              | _ => False
              end;
  sd_supervisor : match supervisor_of intent with
                  | VNone => True
                  | VDict s =>
                      Forall (fun k => dhas k s = true)
                        ["auth_mode"; "supervisor_model"; "review_trigger"; "native_source"] /\
                      (dgetv "native_source" s = VNone \/ truthy (dgetv "native_source" s) = true)
                  | _ => False
                  end;
  sd_confirmed : forall path, check_confirmed path data = Ok tt;
  sd_lane : exists lane, supervisor_lane (dgetv "confirmed" data) (apply_overrides intent overrides) = Ok lane /\
              (truthy lane = false \/ is_dict lane = true) }.

Lemma dget_ddels k ks s :
  NoDup (dkeys s) -> dget k (ddels ks s) = if existsb (String.eqb k) ks then None else dget k s.
Proof.
  unfold ddels. revert s. induction ks as [|j ks IH]; intros s Hs; [done|]. cbn [foldl existsb].
  rewrite IH by by apply NoDup_ddel. destruct (String.eqb_spec k j) as [->|Hne]; cbn [orb].
  - rewrite dget_ddel_eq by done. by destruct (existsb _ _).
  - by rewrite dget_ddel_ne.
Qed.

Lemma dhas_ddels k ks s :
  NoDup (dkeys s) -> dhas k (ddels ks s) = negb (existsb (String.eqb k) ks) && dhas k s.
Proof. intros Hs. unfold dhas. rewrite dget_ddels by done. by destruct (existsb _ _). Qed.

Lemma dgetv_edited ks c c' k : edited ks c c' -> k <> "policy" -> dgetv k c' = dgetv k c.
Proof.
  intros E Hk. unfold dgetv, dget_default. pose proof (ed_apart _ _ _ E [k]) as H.
  rewrite !path_get_cons in H. assert (forall o : option value, match o with Some v => path_get v [] | None => None end = o) as Ho
    by by intros [[]|]. rewrite !Ho in H. rewrite H; [done|].
  split; intros Hp; [by apply prefix_length in Hp; simpl in Hp; lia|]. by apply prefix_cons_inv_1 in Hp.
Qed.

Lemma dict_at_edited ks c c' :
  edited ks c c' -> dict_at c' sup_path = ddels ks <$> as_dict (supervisor_of c).
Proof.
  intros E. unfold dict_at, supervisor_of. rewrite (ed_at _ _ _ E).
  by destruct (path_get (VDict c) sup_path) as [[]|].
Qed.

(** What the chosen version says about the supervisor and its override. *)
Lemma write_version_spec s o :
  let v := write_version s o in
  (v <> 5 -> has_truthy "native_source" s = false /\ forall d, o = VDict d -> dhas "native_source" d = false) /\
  (v <> 5 -> v <> 4 -> Forall (fun c => wants_stop c = false) (configs (as_dict s) (as_dict o))) /\
  (v = 2 -> is_legacy s = true /\
     forall d, o = VDict d -> dhas "auth_mode" d = false /\ dhas "supervisor_model" d = false).
Proof.
  intros v. unfold v, write_version. clear v.
  assert (forall l, existsb wants_stop l = false -> Forall (fun c => wants_stop c = false) l) as Hl.
  { intros l H. apply Forall_forall. intros c Hc. apply not_true_iff_false. intros Hw.
    rewrite <- not_true_iff_false in H. apply H, existsb_exists. exists c. by rewrite <- list_elem_of_In. }
  destruct (_ || _) eqn:Hn; [by split_and!|].
  apply orb_false_iff in Hn as [Hs Ho].
  assert (forall d, o = VDict d -> dhas "native_source" d = false) as Hno by (by intros d ->).
  destruct (existsb wants_stop _) eqn:Hst; [by split_and!|].
  destruct (is_legacy s && _) eqn:Hleg; [|by split_and!; auto]. split_and!; auto. intros _.
  apply andb_true_iff in Hleg as [-> Hneg]. split; [done|]. intros d ->. apply negb_true_iff, orb_false_iff in Hneg. done.
Qed.

Lemma wf_sup section s : wf_value (VDict section) -> supervisor_of section = VDict s -> wf_value (VDict s).
Proof.
  unfold supervisor_of. rewrite path_get_cons. intros Hwf. destruct (dget "policy" section) as [p|] eqn:Hp; [|done].
  pose proof (wf_value_dget _ _ _ Hwf Hp) as Hwp. destruct p as [| | | | | |p]; try done. rewrite path_get_cons.
  destruct (dget "supervisor" p) as [v|] eqn:Hv; [|done].
  assert (path_get v [] = Some v) as -> by by destruct v. intros [= ->]. by apply (wf_value_dget _ _ _ Hwp Hv).
Qed.

Lemma configs_ddels ki ko s o k :
  (forall d, s = VDict d -> NoDup (dkeys d)) -> (forall d, o = VDict d -> NoDup (dkeys d)) ->
  existsb (String.eqb k) ki = true ->
  existsb (String.eqb k) ko = true \/ (forall d, o = VDict d -> dhas k d = false) ->
  existsb (dhas k) (configs (ddels ki <$> as_dict s) (ddels ko <$> as_dict o)) = false.
Proof.
  intros Hs Ho Hki Hko. unfold configs. rewrite existsb_app. apply orb_false_iff. split.
  - destruct s as [| | | | | |d]; try done. cbn. rewrite dhas_ddels, Hki by by apply Hs. done.
  - destruct o as [| | | | | |d]; try done. cbn. rewrite dhas_ddels by by apply Ho.
    destruct Hko as [-> |Hd]; [done|]. rewrite Hd by done. by rewrite andb_false_r.
Qed.

Section Accepted.
Context (path : string) (py_str : value -> string) (data intent overrides w : dict).
Hypothesis S : state_dict data intent overrides.
Let s := supervisor_of intent.
Let o := supervisor_of overrides.
Let v := write_version s o.
Hypothesis W : written (intent_drops v) (override_drops v) data w intent overrides.
Hypothesis Wv : dget "schema_version" w = Some (VInt v).

Lemma wf_sections : wf_value (VDict intent) /\ wf_value (VDict overrides).
Proof.
  pose proof (sd_wf _ _ _ S) as Hwf.
  split; eapply wf_value_dget; [exact Hwf|exact (sd_intent _ _ _ S)|exact Hwf|exact (sd_overrides _ _ _ S)].
Qed.

Lemma nodup_sups : (forall d, s = VDict d -> NoDup (dkeys d)) /\ (forall d, o = VDict d -> NoDup (dkeys d)).
Proof.
  destruct wf_sections as [Hi Ho].
  split; intros d Hd; [eapply wf_sup in Hd; [|exact Hi]|eapply wf_sup in Hd; [|exact Ho]];
    by apply wf_value_dict in Hd as [? _].
Qed.

Lemma version_cases : v = 2 \/ v = 3 \/ v = 4 \/ v = 5.
Proof. pose proof (write_version_cases s o) as H. fold v in H. set_solver. Qed.

Lemma supervisor_dhas d k :
  s = VDict d -> k ∈ ["auth_mode"; "supervisor_model"; "review_trigger"; "native_source"] -> dhas k d = true.
Proof.
  intros Hs Hk. pose proof (sd_supervisor _ _ _ S) as H. fold s in H. rewrite Hs in H.
  destruct H as [H _]. rewrite Forall_forall in H. by apply H.
Qed.

(** The supervisor's fields in what was written. *)
Lemma written_dhas d k :
  s = VDict d -> k ∈ ["auth_mode"; "supervisor_model"; "review_trigger"; "native_source"] ->
  dhas k (ddels (intent_drops v) d) = negb (existsb (String.eqb k) (intent_drops v)).
Proof.
  intros Hs Hk. rewrite dhas_ddels by by apply (proj1 nodup_sups).
  by rewrite (supervisor_dhas d k Hs Hk), andb_true_r.
Qed.

Lemma check_supervisor_written :
  check_supervisor path py_str (VInt v) (ddels (intent_drops v) <$> as_dict s) = Ok tt.
Proof.
  destruct (as_dict s) as [d|] eqn:Hd; [|done]. assert (s = VDict d) as Hs by (by destruct s; simplify_eq/=).
  cbn [fmap option_fmap option_map check_supervisor foldM_res]. unfold check_supervisor_field.
  rewrite !(written_dhas d) by (done || set_solver).
  by destruct version_cases as [-> |[-> |[-> | ->]]].
Qed.

Lemma check_native_written :
  check_native path (VInt v) (ddels (intent_drops v) <$> as_dict s) (ddels (override_drops v) <$> as_dict o) = Ok tt.
Proof.
  destruct nodup_sups as [Hns Hno]. unfold check_native.
  assert (v = 5 \/ existsb (dhas "native_source")
            (configs (ddels (intent_drops v) <$> as_dict s) (ddels (override_drops v) <$> as_dict o)) = false) as Hn.
  { destruct version_cases as [-> |[-> |[-> | ->]]]; auto; right; (apply configs_ddels; [done..|by left]). }
  assert (negb (py_eq (VInt v) (VInt 5)) && existsb (dhas "native_source")
            (configs (ddels (intent_drops v) <$> as_dict s) (ddels (override_drops v) <$> as_dict o)) = false) as ->.
  { destruct Hn as [-> | ->]; [done|by rewrite andb_false_r]. }
  destruct (as_dict s) as [d|] eqn:Hd; [|done]. assert (s = VDict d) as Hs by (by destruct s; simplify_eq/=).
  cbn [fmap option_fmap option_map]. rewrite (written_dhas d) by (done || set_solver).
  by destruct version_cases as [-> |[-> |[-> | ->]]].
Qed.

Lemma check_trigger_written :
  check_trigger path py_str (VInt v) (ddels (intent_drops v) <$> as_dict s) (ddels (override_drops v) <$> as_dict o) = Ok tt.
Proof.
  assert (forall d, s = VDict d -> dhas "review_trigger" (ddels (intent_drops v) d)
            = negb (existsb (String.eqb "review_trigger") (intent_drops v))) as Hd.
  { intros d Hs. apply written_dhas; [done|set_solver]. }
  destruct nodup_sups as [Hns Hno]. pose proof version_cases as Hv. clear W Wv. revert Hd Hv. clearbody v s o.
  unfold check_trigger. intros Hd [-> |[-> |[-> | ->]]]; cbn [version_in existsb py_eq Z.eqb Pos.eqb orb].
  1,2: by rewrite configs_ddels by (done || by left).
  1,2: destruct s as [| | | | | |d]; try done; cbn [as_dict fmap option_fmap option_map]; by rewrite (Hd d).
Qed.

Lemma written_accepted : _validate_data path py_str w = Ok tt.
Proof.
  destruct W as [(ci & Hi & Ei) (co & Ho & Eo) Hrest]. unfold _validate_data.
  assert (check_version path py_str w = Ok []) as ->.
  { unfold check_version. rewrite Wv. by destruct version_cases as [-> |[-> |[-> | ->]]]. }
  rewrite res_bind_ok. unfold check_overrides, check_intent. rewrite Ho, Hi, !res_bind_ok.
  assert (filter (fun k => dhas k w = false) ["name"; "created_at"; "last_accessed_at"] = []) as ->.
  { apply filter_none.
    pose proof (sd_required _ _ _ S) as Hreq. rewrite Forall_forall in Hreq |- *. intros k Hk.
    specialize (Hreq k Hk). unfold dhas in *. rewrite Hrest by set_solver. by rewrite Hreq. }
  assert (check_proxy path ci = Ok []) as ->.
  { unfold check_proxy. rewrite (dgetv_edited _ _ _ _ Ei) by done. pose proof (sd_proxy _ _ _ S) as Hp.
    destruct (dgetv "proxy" intent); try done. by destruct Hp as [-> ->]. }
  assert (dgetv "schema_version" w = VInt v) as -> by (unfold dgetv, dget_default; by rewrite Wv).
  assert (check_launch path (VInt v) ci = Ok []) as ->.
  { unfold check_launch. rewrite (dgetv_edited _ _ _ _ Ei) by done. pose proof (sd_launch _ _ _ S) as Hl.
    destruct (dgetv "launch" intent); try done. rewrite Hl, andb_false_r.
    by destruct version_cases as [-> |[-> |[-> | ->]]]. }
  assert (dict_at w ["overrides"; "policy"; "supervisor"] = dict_at co sup_path) as ->
    by (unfold dict_at; by rewrite path_get_cons, Ho).
  rewrite !(dict_at_edited _ _ _ Ei), !(dict_at_edited _ _ _ Eo), !res_bind_ok. fold s o.
  rewrite check_supervisor_written, check_native_written, check_trigger_written, !res_bind_ok.
  rewrite (proj2 (schema_ok_fits co path)) by (apply (ed_fits _ _ _ Eo), (sd_typed _ _ _ S)). rewrite res_bind_ok.
  assert (check_confirmed path w = Ok tt) as ->.
  { rewrite <- (sd_confirmed _ _ _ S path). unfold check_confirmed, dget_default. by rewrite Hrest by set_solver. }
  by rewrite res_bind_ok.
Qed.

Lemma written_strip : strip_legacy w = w.
Proof.
  destruct W as [(ci & Hi & Ei) (co & Ho & Eo) Hrest]. apply strip_legacy_typed. intros sec c Hsec Hc.
  apply elem_of_cons in Hsec as [-> |Hsec%list_elem_of_singleton]; [|subst].
  - rewrite Hi in Hc. simplify_eq. apply (ed_fits _ _ _ Ei), (sd_typed _ _ _ S).
  - rewrite Ho in Hc. simplify_eq. apply (ed_fits _ _ _ Eo), (sd_typed _ _ _ S).
Qed.
End Accepted.

(** The fields of a supervisor that reading an old manifest may normalise. *)
Definition normalised_fields : list string := ["timeout_seconds"; "proxy"; "base_url"].

Lemma upgrade_config_ok lane c :
  truthy lane = false \/ is_dict lane = true ->
  exists c', upgrade_config lane c = Ok c' /\ forall k, k ∉ normalised_fields -> dget k c' = dget k c.
Proof.
  intros Hl. unfold upgrade_config.
  assert (exists b : bool, (if truthy lane then runtime ← attr_get "runtime_id" lane; Ok (py_eq runtime (VStr "codex"))
            else Ok false) = Ok b) as [b ->].
  { destruct Hl as [-> |Hl]; [by exists false|]. destruct lane; try done. destruct (truthy _); by eexists. }
  rewrite res_bind_ok. eexists. split; [done|]. intros k Hk. unfold normalised_fields in Hk.
  assert (forall c, dget k (if is_legacy_timeout (dgetv "timeout_seconds" c)
                    then dset "timeout_seconds" (VInt 45) c else c) = dget k c) as Ht.
  { intros d. destruct (is_legacy_timeout _); [|done]. rewrite dget_dset_ne by set_solver. done. }
  destruct b; [|apply Ht]. cbn [foldl].
  assert (forall j c, j ∈ ["proxy"; "base_url"] -> dget k (if dhas j c then dset j VNone c else c) = dget k c) as Hj.
  { intros j d Hjin. destruct (dhas j d); [|done]. rewrite dget_dset_ne by set_solver. done. }
  rewrite !Hj by set_solver. apply Ht.
Qed.

(** A section read back: everything but the supervisor is the same, and each field of the
    supervisor is the same or was left out holding its default. *)
Definition supervisor_field (section : dict) (k : string) : option value :=
  path_get (VDict section) (sup_path ++ [k]).

Definition is_default (k : string) (v : option value) : Prop :=
  (k = "review_trigger" /\ v = Some (VStr "pre-tool-use")) \/ (k = "native_source" /\ v = Some VNone).

Record read_back (normalised : list string) (c c' : dict) : Prop := {
  rb_apart : forall q, apart sup_path q -> path_get (VDict c') q = path_get (VDict c) q;
  rb_field : forall k, k ∉ normalised ->
    supervisor_field c' k = supervisor_field c k \/
    (supervisor_field c' k = None /\ is_default k (supervisor_field c k)) }.

Lemma supervisor_field_of c k :
  supervisor_field c k = match supervisor_of c with VDict s => dget k s | _ => None end.
Proof.
  unfold supervisor_field, supervisor_of. rewrite path_get_app.
  destruct (path_get (VDict c) sup_path) as [[| | | | | |s]|]; try done.
  cbn [mbind option_bind default id]. rewrite path_get_cons. by destruct (dget k s) as [[]|].
Qed.

Lemma supervisor_lane_cong c f f' :
  dget "consumer_lanes" f = dget "consumer_lanes" f' -> supervisor_lane c f = supervisor_lane c f'.
Proof. intros H. unfold supervisor_lane, dgetv, dget_default. by rewrite H. Qed.

Lemma dget_edited ks c c' k : edited ks c c' -> k <> "policy" -> dget k c' = dget k c.
Proof.
  intros E Hk. pose proof (ed_apart _ _ _ E [k]) as H. rewrite !path_get_cons in H.
  assert (forall o : option value, match o with Some v => path_get v [] | None => None end = o) as Ho by by intros [[]|].
  rewrite !Ho in H. apply H. split; intros Hp; [by apply prefix_length in Hp; simpl in Hp; lia|].
  by apply prefix_cons_inv_1 in Hp.
Qed.

Lemma supervisor_of_modify c f :
  supervisor_of (modify c sup_path f) = match supervisor_of c with VDict s => VDict (f s) | x => x end.
Proof. unfold supervisor_of. rewrite path_get_modify_eq by done. by destruct (path_get _ _) as [[]|]. Qed.

Lemma supervisor_of_edited ks c c' :
  edited ks c c' -> supervisor_of c' = match supervisor_of c with VDict s => VDict (ddels ks s) | x => x end.
Proof. intros E. unfold supervisor_of. rewrite (ed_at _ _ _ E). by destruct (path_get _ _) as [[]|]. Qed.

Lemma supervisor_field_None c k : (forall s, supervisor_of c <> VDict s) -> supervisor_field c k = None.
Proof. intros H. rewrite supervisor_field_of. destruct (supervisor_of c); try done. by destruct (H d). Qed.

(** Reading back a section [c'] that lost only defaults, after any rewriting of its
    supervisor that keeps the fields outside [normalised]. *)
Lemma read_back_modify ks normalised c c' f :
  edited ks c c' -> (forall s, supervisor_of c = VDict s -> NoDup (dkeys s)) ->
  (forall s k, supervisor_of c = VDict s -> k ∉ normalised ->
     dget k (f (ddels ks s)) = dget k s \/ (dget k (f (ddels ks s)) = None /\ is_default k (dget k s))) ->
  read_back normalised c (modify c' sup_path f).
Proof.
  intros E Hnd Hf. split.
  - intros q Hq. rewrite path_get_modify_apart by done. by apply (ed_apart _ _ _ E).
  - intros k Hk. rewrite !supervisor_field_of, supervisor_of_modify, (supervisor_of_edited _ _ _ E).
    destruct (supervisor_of c) as [| | | | | |s] eqn:Hs; auto.
Qed.

Lemma read_back_same ks normalised c c' :
  edited ks c c' -> (forall s, supervisor_of c = VDict s -> NoDup (dkeys s)) ->
  (forall s k, supervisor_of c = VDict s -> k ∈ ks -> dget k s = None \/ is_default k (dget k s)) ->
  read_back normalised c c'.
Proof.
  intros E Hnd Hd. rewrite <- (modify_id c' sup_path (fun s => s)) by done.
  apply (read_back_modify ks); [done..|]. intros s k Hs Hk. rewrite dget_ddels by by apply Hnd.
  destruct (existsb (String.eqb k) ks) eqn:Hin; [|by left].
  apply existsb_exists in Hin as (j & Hj & ->%String.eqb_eq).
  destruct (Hd s j Hs) as [-> |]; [by apply list_elem_of_In|by left|by right].
Qed.

Section ReadBack.
Context (data intent overrides w : dict).
Hypothesis S : state_dict data intent overrides.
Let s := supervisor_of intent.
Let o := supervisor_of overrides.
Let v := write_version s o.

(** Only defaults are dropped from the supervisor and from its override. *)
Lemma intent_drops_default d k : s = VDict d -> k ∈ ["native_source"; "review_trigger"] -> k ∈ intent_drops v ->
  is_default k (dget k d).
Proof.
  intros Hs Hk Hin. pose proof (write_version_spec s o) as (Hnat & Htrig & _). fold v in Hnat, Htrig.
  pose proof (sd_supervisor _ _ _ S) as Hsup. fold s in Hsup. rewrite Hs in *. destruct Hsup as [Hall Hns].
  rewrite Forall_forall in Hall. unfold is_default. unfold intent_drops in Hin.
  apply elem_of_cons in Hk as [-> |Hk%list_elem_of_singleton]; [right|subst; left]; split; try done.
  - specialize (Hall "native_source" ltac:(set_solver)). apply dhas_true in Hall as [x Hx].
    unfold dgetv, dget_default in Hns. rewrite Hx in *. destruct Hnat as [Hnat _].
    { intros ->. set_solver. }
    cbn [has_truthy] in Hnat. unfold dgetv, dget_default in Hnat. rewrite Hx in Hnat. destruct Hns; congruence.
  - specialize (Hall "review_trigger" ltac:(set_solver)). apply dhas_true in Hall as [x Hx]. rewrite Hx.
    assert (Forall (fun c => wants_stop c = false) (configs (as_dict (VDict d)) (as_dict o))) as Hw.
    { apply Htrig; intros Hv; rewrite Hv in Hin; set_solver. }
    apply Forall_app in Hw as [Hw _]. apply Forall_cons in Hw as [Hw _].
    unfold wants_stop, dget_default in Hw. rewrite Hx in Hw. apply negb_false_iff in Hw.
    destruct x; try done. cbn [py_eq] in Hw. apply String.eqb_eq in Hw. by subst.
Qed.

Lemma override_drops_default d k : o = VDict d -> k ∈ override_drops v -> dget k d = None \/ is_default k (dget k d).
Proof.
  intros Ho Hin. pose proof (write_version_spec s o) as (Hnat & Htrig & _). fold v in Hnat, Htrig.
  unfold override_drops in Hin. apply elem_of_app in Hin as [Hin|Hin].
  - destruct (v =? 5) eqn:Hv; [set_solver|]. apply Z.eqb_neq in Hv. apply list_elem_of_singleton in Hin as ->.
    left. apply dhas_false. by apply (Hnat Hv).
  - destruct ((v =? 5) || (v =? 4)) eqn:Hv; [set_solver|]. apply list_elem_of_singleton in Hin as ->.
    apply orb_false_iff in Hv as [?%Z.eqb_neq ?%Z.eqb_neq].
    assert (Forall (fun c => wants_stop c = false) (configs (as_dict s) (as_dict o))) as Hw by by apply Htrig.
    apply Forall_app in Hw as [_ Hw]. rewrite Ho in Hw. apply Forall_cons in Hw as [Hw _].
    unfold wants_stop, dget_default in Hw. destruct (dget "review_trigger" d) as [x|] eqn:Hx; [|by left].
    right. left. split; [done|]. apply negb_false_iff in Hw.
    destruct x; try done. cbn [py_eq] in Hw. apply String.eqb_eq in Hw. by subst.
Qed.

Lemma legacy_fields d k : v = 2 -> s = VDict d -> k ∈ ["auth_mode"; "supervisor_model"] ->
  dget k d = Some (if String.eqb k "auth_mode" then VStr "inherit" else VNone).
Proof.
  intros Hv Hs Hk. pose proof (write_version_spec s o) as (_ & _ & Hleg). fold v in Hleg.
  destruct (Hleg Hv) as [Hl _]. pose proof (sd_supervisor _ _ _ S) as Hsup. fold s in Hsup. rewrite Hs in *.
  destruct Hsup as [Hall _]. rewrite Forall_forall in Hall.
  pose proof (Hall "auth_mode" ltac:(set_solver)) as [a Ha]%dhas_true.
  pose proof (Hall "supervisor_model" ltac:(set_solver)) as [m Hm]%dhas_true.
  cbn [is_legacy] in Hl. unfold dgetv, dget_default in Hl. rewrite Ha, Hm in Hl.
  assert (truthy (VDict d) = true) as Ht by by destruct d. rewrite Ht in Hl. cbn [negb orb] in Hl.
  apply andb_true_iff in Hl as [Hl ->%bool_decide_eq_true].
  apply elem_of_cons in Hk as [-> |Hk%list_elem_of_singleton]; [|by subst].
  rewrite Ha. destruct a; try done. cbn [py_eq] in Hl. apply String.eqb_eq in Hl. by subst.
Qed.

End ReadBack.

(** The projection of a manifest written with schema 3 or later is the identity. *)
Lemma upgrade_current w v : dget "schema_version" w = Some (VInt v) -> v ∈ [3; 4; 5] -> upgrade_manifest_for_read w = Ok w.
Proof.
  intros Hw Hv. unfold upgrade_manifest_for_read, dgetv, dget_default. rewrite Hw.
  by repeat (apply elem_of_cons in Hv as [-> |Hv]); try (by apply elem_of_nil in Hv).
Qed.

Lemma dict_at_section d k c p : dget k d = Some (VDict c) -> dict_at d (k :: p) = dict_at c p.
Proof. intros H. unfold dict_at. by rewrite path_get_cons, H. Qed.

Lemma dict_at_nil d : dict_at d [] = Some d.
Proof. done. Qed.

(** The legacy branch of [upgrade_manifest_for_read], on sections as written with schema 2. *)
Lemma upgrade_legacy w ci co lane :
  dget "schema_version" w = Some (VInt 2) -> dget "intent" w = Some (VDict ci) ->
  dget "overrides" w = Some (VDict co) -> policy_readable co -> NoDup (dkeys co) ->
  supervisor_lane (dgetv "confirmed" w) (apply_overrides ci co) = Ok lane ->
  truthy lane = false \/ is_dict lane = true ->
  let legacy := fun s => dset "supervisor_model" VNone (dset "auth_mode" (VStr "inherit") s) in
  exists r f g, upgrade_manifest_for_read w = Ok r /\
    dget "intent" r = Some (VDict (modify ci sup_path f)) /\
    dget "overrides" r = Some (VDict (modify co sup_path g)) /\
    (forall k, k ∉ ["schema_version"; "intent"; "overrides"] -> dget k r = dget k w) /\
    (forall s k, supervisor_of ci = VDict s -> k ∉ normalised_fields -> dget k (f s) = dget k (legacy s)) /\
    (forall s k, supervisor_of co = VDict s -> k ∉ normalised_fields -> dget k (g s) = dget k s).
Proof.
  intros Hv Hi Ho Hpol Hnd Hlane Hok legacy. unfold upgrade_manifest_for_read.
  assert (dgetv "schema_version" w = VInt 2) as -> by (unfold dgetv, dget_default; by rewrite Hv).
  cbn [version_in existsb py_eq Z.eqb Pos.eqb orb negb]. fold legacy.
  set (w1 := modify w ("intent" :: sup_path) legacy).
  assert (dget "intent" w1 = Some (VDict (modify ci sup_path legacy))) as Hi1 by by apply dget_modify_eq.
  assert (dget "overrides" w1 = Some (VDict co)) as Ho1 by by (unfold w1; rewrite dget_modify_ne).
  assert (dgetv "confirmed" w1 = dgetv "confirmed" w) as ->
    by (unfold dgetv, dget_default, w1; by rewrite dget_modify_ne).
  rewrite !(dict_at_section _ _ _ _ Hi1), (dict_at_section _ _ _ _ Ho1), !dict_at_nil. cbn [default id].
  rewrite (supervisor_lane_cong _ _ (apply_overrides ci co)), Hlane, res_bind_ok.
  2: { rewrite !dget_apply_overrides by done. by rewrite dget_modify_ne. }
  change (or_get "supervisor" (dgetv "policy" co)) with (section_supervisor co).
  rewrite section_supervisor_ok, res_bind_ok by done.
  assert (exists f, (forall s k, supervisor_of ci = VDict s -> k ∉ normalised_fields -> dget k (f s) = dget k (legacy s)) /\
     (match dict_at (modify ci sup_path legacy) sup_path with
      | Some s => s ← upgrade_config lane s; Ok (modify w1 ("intent" :: sup_path) (fun _ => s))
      | None => Ok w1
      end : res dict) = Ok (modify w ("intent" :: sup_path) f)) as (f & Hf & ->).
  { unfold dict_at. rewrite path_get_modify_eq by done.
    destruct (path_get (VDict ci) sup_path) as [[| | | | | |s]|] eqn:Hs; try (exists legacy; split; [done|done]).
    destruct (upgrade_config_ok lane (legacy s) Hok) as (s' & Hs' & Hk). exists (fun _ => s'). split.
    - intros s0 k Hs0. unfold supervisor_of in Hs0. rewrite Hs in Hs0. simplify_eq/=. apply Hk.
    - cbn [mbind option_bind as_dict]. unfold mbind, res_bind. rewrite Hs'. unfold w1. by rewrite modify_modify. }
  rewrite res_bind_ok. set (w2 := modify w ("intent" :: sup_path) f).
  assert (dget "overrides" w2 = Some (VDict co)) as Ho2 by by (unfold w2; rewrite dget_modify_ne).
  assert (exists g, (forall s k, supervisor_of co = VDict s -> k ∉ normalised_fields -> dget k (g s) = dget k s) /\
     (match supervisor_of co with
      | VDict s => s ← upgrade_config lane s; Ok (modify w2 ("overrides" :: sup_path) (fun _ => s))
      | _ => Ok w2
      end : res dict) = Ok (modify w2 ("overrides" :: sup_path) g)) as (g & Hg & ->).
  { destruct (supervisor_of co) as [| | | | | |s] eqn:Hs; try (exists (fun s => s); split; [done|by rewrite modify_id]).
    destruct (upgrade_config_ok lane s Hok) as (s' & Hs' & Hk). exists (fun _ => s'). split.
    - intros s0 k [= <-]. apply Hk.
    - unfold mbind, res_bind. by rewrite Hs'. }
  rewrite res_bind_ok. eexists _, f, g. split; [reflexivity|]. split_and!; [| | |done|done].
  - rewrite dget_dset_ne, dget_modify_ne by done. by apply dget_modify_eq.
  - rewrite dget_dset_ne by done. by apply dget_modify_eq.
  - intros k Hk. rewrite dget_dset_ne, !dget_modify_ne by set_solver. unfold w2. by rewrite dget_modify_ne by set_solver.
Qed.

Section UpgradeWritten.
Context (data intent overrides w : dict).
Hypothesis S : state_dict data intent overrides.
Let v := write_version (supervisor_of intent) (supervisor_of overrides).
Hypothesis W : written (intent_drops v) (override_drops v) data w intent overrides.
Hypothesis Wv : dget "schema_version" w = Some (VInt v).

(** What the projection of [w] gives back. *)
Definition gives_back (normalised : list string) : Prop :=
  exists r intent' overrides', upgrade_manifest_for_read w = Ok r /\
    dget "intent" r = Some (VDict intent') /\ read_back normalised intent intent' /\
    dget "overrides" r = Some (VDict overrides') /\ read_back normalised overrides overrides' /\
    (forall k, k ∉ ["schema_version"; "intent"; "overrides"] -> dget k r = dget k data).

Lemma gives_back_current : v <> 2 -> gives_back [].
Proof.
  intros H2. pose proof (nodup_sups _ _ _ S) as [Hns Hno].
  destruct W as [(ci & Hi & Ei) (co & Ho & Eo) Hrest]. exists w, ci, co. split_and!; try done.
  - apply (upgrade_current _ v Wv). pose proof (write_version_cases (supervisor_of intent) (supervisor_of overrides)) as Hv.
    fold v in Hv. set_solver.
  - apply (read_back_same (intent_drops v)); [done..|]. intros s k Hs Hk. right.
    apply (intent_drops_default _ _ _ S s k Hs); [|done]. unfold intent_drops in Hk.
    rewrite (proj2 (Z.eqb_neq v 2) H2) in Hk. destruct (v =? 5), (v =? 4); set_solver.
  - apply (read_back_same (override_drops v)); [done..|]. intros s k Hs Hk.
    by apply (override_drops_default _ _ _ S s k Hs).
Qed.

Lemma legacy_lane ci co :
  edited (intent_drops v) intent ci -> edited (override_drops v) overrides co ->
  exists lane, supervisor_lane (dgetv "confirmed" w) (apply_overrides ci co) = Ok lane /\
    (truthy lane = false \/ is_dict lane = true).
Proof.
  intros Ei Eo. destruct (sd_lane _ _ _ S) as (lane & Hlane & Hok). exists lane. split; [|done].
  rewrite <- Hlane. unfold dgetv at 1, dget_default. rewrite (wr_rest _ _ _ _ _ _ W) by set_solver.
  apply supervisor_lane_cong. destruct (wf_sections _ _ _ S) as [_ Hwo].
  pose proof (ed_wf _ _ _ Eo Hwo) as Hwo'. apply wf_value_dict in Hwo as [Hnd _]. apply wf_value_dict in Hwo' as [Hnd' _].
  rewrite !dget_apply_overrides by done. by rewrite (dget_edited _ _ _ _ Ei), (dget_edited _ _ _ _ Eo) by done.
Qed.

Lemma gives_back_legacy : v = 2 -> gives_back normalised_fields.
Proof.
  intros H2. pose proof (nodup_sups _ _ _ S) as [Hns Hno].
  destruct W as [(ci & Hi & Ei) (co & Ho & Eo) Hrest]. destruct (legacy_lane ci co Ei Eo) as (lane & Hlane & Hok).
  destruct (wf_sections _ _ _ S) as [_ Hwo]. apply (ed_wf _ _ _ Eo), wf_value_dict in Hwo as [Hnd _].
  pose proof Wv as Hwv. rewrite H2 in Hwv.
  destruct (upgrade_legacy w ci co lane Hwv Hi Ho (ed_policy _ _ _ Eo (proj2 (sd_policy _ _ _ S))) Hnd Hlane Hok)
    as (r & f & g & Hr & Hri & Hro & Hrr & Hf & Hg).
  exists r, (modify ci sup_path f), (modify co sup_path g). split_and!; try done.
  - apply (read_back_modify (intent_drops v)); [done..|]. intros s k Hs Hk.
    rewrite Hf; [|by rewrite (supervisor_of_edited _ _ _ Ei), Hs|done]. rewrite !dget_dset, dget_ddels by by apply Hns.
    pose proof (fun k => legacy_fields _ _ _ S s k H2 Hs) as Hleg.
    case_decide; [subst; left; by rewrite Hleg by set_solver|].
    case_decide; [subst; left; by rewrite Hleg by set_solver|].
    destruct (existsb (String.eqb k) (intent_drops v)) eqn:Hin; [|by left].
    apply existsb_exists in Hin as (j & Hj%list_elem_of_In & ->%String.eqb_eq). right. split; [done|].
    apply (intent_drops_default _ _ _ S s j Hs); [|done]. rewrite H2 in Hj. set_solver.
  - apply (read_back_modify (override_drops v)); [done..|]. intros s k Hs Hk.
    rewrite Hg; [|by rewrite (supervisor_of_edited _ _ _ Eo), Hs|done]. rewrite dget_ddels by by apply Hno.
    destruct (existsb (String.eqb k) (override_drops v)) eqn:Hin; [|by left].
    apply existsb_exists in Hin as (j & Hj%list_elem_of_In & ->%String.eqb_eq).
    destruct (override_drops_default _ _ _ S s j Hs Hj) as [-> |]; [by left|by right].
  - intros k Hk. by rewrite Hrr, Hrest.
Qed.
End UpgradeWritten.

(** C28: A manifest written from a valid state is accepted when it is read back, with the
    schema version the state needs, and what reaches the decoder is the state: every field
    outside the supervisor unchanged, every supervisor field unchanged or left out while it
    holds its default. Only a manifest that fits schema 2 has its supervisor's timeout, proxy
    and base URL normalised. *)
Theorem manifest_roundtrip (path : string) (py_str : value -> string) (data intent overrides : dict) :
  state_dict data intent overrides ->
  let v := write_version (supervisor_of intent) (supervisor_of overrides) in
  let normalised := if v =? 2 then normalised_fields else [] in
  exists w r intent' overrides', manifest_for_write data = Ok w /\ dget "schema_version" w = Some (VInt v) /\
    _validate_data path py_str (strip_legacy w) = Ok tt /\
    upgrade_manifest_for_read (strip_legacy w) = Ok r /\
    dget "intent" r = Some (VDict intent') /\ read_back normalised intent intent' /\
    dget "overrides" r = Some (VDict overrides') /\ read_back normalised overrides overrides' /\
    (forall k, k ∉ ["schema_version"; "intent"; "overrides"] -> dget k r = dget k data).
Proof.
  intros S v normalised.
  destruct (manifest_for_write_written data intent overrides (sd_intent _ _ _ S) (sd_overrides _ _ _ S)
    (proj1 (sd_policy _ _ _ S)) (proj2 (sd_policy _ _ _ S))) as (w & Hw & Hwv & W). fold v in Hwv, W.
  assert (gives_back data intent overrides w normalised) as (r & ci & co & Hgb).
  { subst normalised. destruct (Z.eqb_spec v 2) as [H2|H2].
    - by apply (gives_back_legacy data intent overrides w S W Hwv).
    - by apply (gives_back_current data intent overrides w S W Hwv). }
  exists w, r, ci, co. rewrite (written_strip data intent overrides w S W).
  pose proof (written_accepted path py_str data intent overrides w S W Hwv) as Hacc. tauto.
Qed.

Module ManifestSample.

Definition supervisor : dict :=
  [("auth_mode", VStr "inherit"); ("review_trigger", VStr "pre-tool-use"); ("supervisor_model", VNone);
   ("resume_id", VStr "planner"); ("native_source", VNone); ("timeout_seconds", VInt 60)].

Definition intent : dict :=
  [("agent", VStr "claude-code"); ("proxy", VNone); ("launch", VDict [("mode", VStr "host"); ("model_route", VNone)]);
   ("policy", VDict [("enabled", VBool true); ("supervisor", VDict supervisor)])].

Definition overrides : dict := [("memory", VDict [("tags", VList [VStr "a"])])].

Definition data : dict :=
  [("schema_version", VInt 5); ("name", VStr "planner"); ("created_at", VStr "t0"); ("last_accessed_at", VStr "t1");
   ("intent", VDict intent); ("overrides", VDict overrides);
   ("confirmed", VDict [("started_with_proxy", VNone); ("consumer_lanes", VNone)])].

Ltac nodup_keys := repeat (apply NoDup_cons; split; [set_solver|]); apply NoDup_nil_2.

Lemma data_ok : state_dict data intent overrides.
Proof.
  split; try reflexivity; try (split; reflexivity).
  - repeat constructor.
  - repeat (apply wf_value_dict; split; [nodup_keys|]; repeat (apply Forall_cons; split); try apply Forall_nil_2; try exact I).
  - split; [repeat constructor|by left].
  - exists VNone. split; [reflexivity|by left].
Qed.

Lemma manifest_roundtrip_witness :
  exists w r, manifest_for_write data = Ok w /\ dget "schema_version" w = Some (VInt 2) /\
    upgrade_manifest_for_read (strip_legacy w) = Ok r.
Proof.
  destruct (manifest_roundtrip "forge.session.json" (fun _ => "") data intent overrides data_ok)
    as (w & r & _ & _ & Hw & Hv & _ & Hr & _).
  exists w, r. split_and!; [exact Hw|exact Hv|exact Hr].
Defined.

(** The 60 s timeout of this state reads back as 45 s. *)
Example timeout_normalised :
  (w ← manifest_for_write data; r ← upgrade_manifest_for_read w;
   Ok (supervisor_field (default [] (dict_at r ["intent"])) "timeout_seconds")) = Ok (Some (VInt 45)).
Proof. vm_compute. reflexivity. Qed.

Lemma overrides_stay_typed_witness :
  _validate_overrides_schema [("memory", VDict [("tags", VList [VStr "a"]); ("auto_recall", VBool true)])] "m" = Ok tt.
Proof.
  apply (proj1 (overrides_stay_typed "m" overrides "memory.auto_recall" eq_refl) (VBool true));
    [vm_compute; reflexivity|by left].
Defined.

(** Without the check of the value, an object written to a plain field makes the manifest unreadable. *)
Example untyped_value_rejected :
  match set_override [] "agent" (VDict [("x", VNone)]) with
  | (Tree o, Ok _) => _validate_overrides_schema o "m" = corrupted "m" "overrides.agent does not support nested override keys"
  | _ => False
  end.
Proof. vm_compute. reflexivity. Qed.

(** Decoding stubbed by the identity; the name is the manifest's. *)
Definition name_of (d : dict) : string := match dgetv "name" d with VStr s => s | _ => "" end.
Definition read_sample (f : option content) : res dict := read Ok name_of type_name "m" "planner" f.

Definition legacy_data : dict :=
  [("schema_version", VInt 2); ("name", VStr "planner"); ("created_at", VStr "t0"); ("last_accessed_at", VStr "t1");
   ("intent", VDict []); ("overrides", VDict [("policy", VBool true)])].


(** The classes [read] does not document. *)
Example unhashable_version :
  exn_cls <$> match read_sample (Some (CJson (VDict [("schema_version", VList [])]))) with Err e => Some e | _ => None end
  = Some TypeError.
Proof. reflexivity. Qed.

Example legacy_scalar_policy :
  exn_cls <$> match read_sample (Some (CJson (VDict legacy_data))) with Err e => Some e | _ => None end
  = Some AttributeError.
Proof. vm_compute. reflexivity. Qed.

End ManifestSample.
