(* ===== verification/Effects.v ===== *)
(** * Effects: steps on a shared store that can fail or be cut short

    A small state monad for the code that changes files under locks. A durable step (a lock
    taken or released, an atomic write, an unlink) is a [commit]: the environment may let it
    happen, make it raise before or after its effect is durable (a failing write, a signal
    after [os.replace]), or kill the process. [wp] is the predicate transformer the theorems
    use; [wp_step] applies its rules. *)

From S2P Require Import Prelude.

(** What becomes of a computation. *)
Inductive outcome (A : Type) :=
| Ret (a : A)
| Raise (e : pyexn)
| Killed.
Arguments Ret {A} a.
Arguments Raise {A} e.
Arguments Killed {A}.

(** What the environment does to one durable step. *)
Inductive fault :=
| NoFault
| Before (e : pyexn)
| After (e : pyexn)
| Kill.

(** Computations on a store [W]; the faults to come are consumed one per step. *)
Definition M (W A : Type) : Type := list fault -> W -> outcome A * list fault * W.

Section Monad.
Context {W : Type}.

#[global] Instance M_ret : MRet (M W) := fun A a fs w => (Ret a, fs, w).

#[global] Instance M_bind : MBind (M W) := fun A B f m fs w =>
  match m fs w with
  | (Ret a, fs, w) => f a fs w
  | (Raise e, fs, w) => (Raise e, fs, w)
  | (Killed, fs, w) => (Killed, fs, w)
  end.

Definition throw {A} (e : pyexn) : M W A := fun fs w => (Raise e, fs, w).

Definition lift {A} (r : res A) : M W A := match r with Ok a => mret a | Err e => throw e end.

(** The store as it is now. *)
Definition get : M W W := fun fs w => (Ret w, fs, w).

(** One durable step. *)
Definition commit (f : W -> W) : M W unit := fun fs w =>
  match fs with
  | [] => (Ret tt, [], f w)
  | NoFault :: fs => (Ret tt, fs, f w)
  | Before e :: fs => (Raise e, fs, w)
  | After e :: fs => (Raise e, fs, f w)
  | Kill :: fs => (Killed, fs, w)
  end.

(** [try: ...], the exception as a value. A killed process handles nothing. *)
Definition attempt {A} (m : M W A) : M W (res A) := fun fs w =>
  match m fs w with
  | (Ret a, fs, w) => (Ret (Ok a), fs, w)
  | (Raise e, fs, w) => (Ret (Err e), fs, w)
  | (Killed, fs, w) => (Killed, fs, w)
  end.

(** [with file_lock_for_target(...): body]. Acquiring the lock creates its file, so the
    parent directory too ([mk]); it can time out. Releasing it can raise as well. *)
Definition with_lock {A} (mk : W -> W) (body : M W A) : M W A :=
  _ ← commit mk;
  r ← attempt body;
  _ ← commit id;
  lift r.

(** What other processes do while this one holds no lock. *)
Definition others (f : W -> W) : M W unit := fun fs w => (Ret tt, fs, f w).

(** ** Weakest preconditions *)

(** [wp faulty m Q w]: run from [w], [m] ends with an outcome and a store that satisfy [Q];
    whatever the faults are if [faulty], and without faults otherwise. *)
Definition wp {A} (faulty : bool) (m : M W A) (Q : outcome A -> W -> Prop) (w : W) : Prop :=
  forall fs, (faulty = false -> fs = []) ->
    match m fs w with
    | (o, fs', w') => (faulty = false -> fs' = []) /\ Q o w'
    end.

Lemma wp_ret {A} b (a : A) (Q : outcome A -> W -> Prop) w : Q (Ret a) w -> wp b (mret a) Q w.
Proof. by intros H fs Hfs. Qed.

Lemma wp_throw {A} b e (Q : outcome A -> W -> Prop) w : Q (Raise e) w -> wp b (throw e) Q w.
Proof. by intros H fs Hfs. Qed.

Lemma wp_lift {A} b (r : res A) (Q : outcome A -> W -> Prop) w :
  (forall a, r = Ok a -> Q (Ret a) w) -> (forall e, r = Err e -> Q (Raise e) w) -> wp b (lift r) Q w.
Proof. destruct r; intros H1 H2; [by apply wp_ret, H1|by apply wp_throw, H2]. Qed.

Lemma wp_get b (Q : outcome W -> W -> Prop) w : Q (Ret w) w -> wp b get Q w.
Proof. by intros H fs Hfs. Qed.

Lemma wp_others b f (Q : outcome unit -> W -> Prop) w : Q (Ret tt) (f w) -> wp b (others f) Q w.
Proof. by intros H fs Hfs. Qed.

Lemma wp_commit b f (Q : outcome unit -> W -> Prop) w :
  Q (Ret tt) (f w) ->
  (b = true -> (forall e, Q (Raise e) w) /\ (forall e, Q (Raise e) (f w)) /\ Q Killed w) ->
  wp b (commit f) Q w.
Proof.
  intros Hret Hb fs Hfs. destruct b.
  - destruct (Hb eq_refl) as (H1 & H2 & H3). destruct fs as [|[] fs]; simpl; by split.
  - rewrite Hfs by done. by split.
Qed.

Lemma wp_bind {A B} b (m : M W A) (f : A -> M W B) (Q : outcome B -> W -> Prop) w :
  wp b m (fun o w' => match o with
                      | Ret a => wp b (f a) Q w'
                      | Raise e => Q (Raise e) w'
                      | Killed => Q Killed w'
                      end) w ->
  wp b (m ≫= f) Q w.
Proof.
  intros H fs Hfs. specialize (H fs Hfs). unfold mbind, M_bind.
  destruct (m fs w) as [[[a|e|] fs'] w']; [|done..]. destruct H as [Hfs' H]. by apply H.
Qed.

Lemma wp_attempt {A} b (m : M W A) (Q : outcome (res A) -> W -> Prop) w :
  wp b m (fun o w' => match o with
                      | Ret a => Q (Ret (Ok a)) w'
                      | Raise e => Q (Ret (Err e)) w'
                      | Killed => Q Killed w'
                      end) w ->
  wp b (attempt m) Q w.
Proof. intros H fs Hfs. specialize (H fs Hfs). unfold attempt. by destruct (m fs w) as [[[] ?] ?]. Qed.

Lemma wp_mono {A} b (m : M W A) (P Q : outcome A -> W -> Prop) w :
  wp b m P w -> (forall o w', P o w' -> Q o w') -> wp b m Q w.
Proof. intros H HPQ fs Hfs. specialize (H fs Hfs). destruct (m fs w) as [[o fs'] w']. split; [|apply HPQ]; tauto. Qed.

Lemma wp_and {A} b (m : M W A) (P Q : outcome A -> W -> Prop) w :
  wp b m P w -> wp b m Q w -> wp b m (fun o w' => P o w' /\ Q o w') w.
Proof.
  intros HP HQ fs Hfs. specialize (HP fs Hfs). specialize (HQ fs Hfs). destruct (m fs w) as [[o fs'] w'].
  split; [|split]; tauto.
Qed.

(** Nothing is known of a computation that is an argument. *)
Lemma wp_any {A} (m : M W A) (Q : outcome A -> W -> Prop) w : (forall o w', Q o w') -> wp true m Q w.
Proof. intros H fs _. destruct (m fs w) as [[o fs'] w']. by split. Qed.

(** A lock: the body's outcome, or the exception of acquiring or releasing it. *)
Lemma wp_with_lock {A} b mk (body : M W A) (Q : outcome A -> W -> Prop) w :
  wp b body (fun o w' => Q o w' /\ (b = true -> (forall e, Q (Raise e) w') /\ Q Killed w')) (mk w) ->
  (b = true -> (forall e, Q (Raise e) w) /\ (forall e, Q (Raise e) (mk w)) /\ Q Killed w) ->
  wp b (with_lock mk body) Q w.
Proof.
  intros Hbody Hacq. apply wp_bind, wp_commit; [|done]. apply wp_bind, wp_attempt.
  eapply wp_mono; [apply Hbody|]. intros o w' [HQ Hrel].
  destruct o as [a|e|]; [| |done]; (apply wp_bind, wp_commit;
    [apply wp_lift; intros ? [= <-]; done|intros Hb; destruct (Hrel Hb); done]).
Qed.

(** ** Invariants

    [preserves I m]: from a store with [I], [m] leaves a store with [I], however it ends and
    whatever the faults are. *)

Section Preserves.
Context (I : W -> Prop).

Definition preserves {A} (m : M W A) : Prop := forall w, I w -> wp true m (fun _ => I) w.

Lemma preserves_ret {A} (a : A) : preserves (mret a).
Proof. intros w Hw. by apply wp_ret. Qed.

Lemma preserves_throw {A} e : preserves (throw e : M W A).
Proof. intros w Hw. by apply wp_throw. Qed.

Lemma preserves_lift {A} (x : res A) : preserves (lift x).
Proof. intros w Hw. by apply wp_lift. Qed.

Lemma preserves_bind {A B} (m : M W A) (f : A -> M W B) : preserves m -> (forall a, preserves (f a)) -> preserves (m ≫= f).
Proof.
  intros Hm Hf w Hw. apply wp_bind. eapply wp_mono; [by apply Hm|]. intros [a|e|] w' Hw'; [by apply Hf|done..].
Qed.

(** The store that was read has [I]. *)
Lemma preserves_get {A} (f : W -> M W A) : (forall w, I w -> preserves (f w)) -> preserves (w ← get; f w).
Proof. intros Hf w Hw. apply wp_bind, wp_get. by apply Hf. Qed.

Lemma preserves_lift_bind {A B} (x : res A) (f : A -> M W B) : (forall a, x = Ok a -> preserves (f a)) -> preserves (lift x ≫= f).
Proof. intros Hf w Hw. apply wp_bind, wp_lift; [|done]. intros a Ha. by apply Hf. Qed.

Lemma preserves_attempt {A} (m : M W A) : preserves m -> preserves (attempt m).
Proof. intros Hm w Hw. apply wp_attempt. eapply wp_mono; [by apply Hm|]. by intros [] w'. Qed.

Lemma preserves_commit f : (forall w, I w -> I (f w)) -> preserves (commit f).
Proof. intros Hf w Hw. apply wp_commit; [auto|]. intros _. auto. Qed.

Lemma preserves_with_lock {A} mk (m : M W A) : (forall w, I w -> I (mk w)) -> preserves m -> preserves (with_lock mk m).
Proof.
  intros Hmk Hm w Hw. apply wp_with_lock; [|auto]. eapply wp_mono; [apply Hm; auto|]. intros o w' Hw'. by split.
Qed.

Lemma preserves_others f : (forall w, I w -> I (f w)) -> preserves (others f).
Proof. intros Hf w Hw. apply wp_others. auto. Qed.

Lemma preserves_if {A} (b : bool) (m1 m2 : M W A) : preserves m1 -> preserves m2 -> preserves (if b then m1 else m2).
Proof. by destruct b. Qed.
End Preserves.

(** ** Results

    [returns P m]: what [m] returns, when it returns, satisfies [P]. *)

Definition returns {A} (P : A -> Prop) (m : M W A) : Prop :=
  forall w, wp true m (fun o _ => match o with Ret a => P a | _ => True end) w.

Lemma returns_ret {A} (P : A -> Prop) a : P a -> returns P (mret a).
Proof. intros H w. by apply wp_ret. Qed.

Lemma returns_throw {A} (P : A -> Prop) e : returns P (throw e).
Proof. intros w. by apply wp_throw. Qed.

Lemma returns_any {A} (m : M W A) : returns (fun _ => True) m.
Proof. intros w. apply wp_any. by intros []. Qed.

Lemma returns_lift {A} (P : A -> Prop) x : (forall a, x = Ok a -> P a) -> returns P (lift x).
Proof. intros H w. by apply wp_lift. Qed.

Lemma returns_bind {A B} (R : A -> Prop) (P : B -> Prop) m (f : A -> M W B) :
  returns R m -> (forall a, R a -> returns P (f a)) -> returns P (m ≫= f).
Proof.
  intros Hm Hf w. apply wp_bind. eapply wp_mono; [apply Hm|]. intros [a|e|] w' Ha; [by apply Hf|done..].
Qed.

(** Nothing needs to be known of the first result. *)
Lemma returns_then {A B} (P : B -> Prop) (m : M W A) (f : A -> M W B) : (forall a, returns P (f a)) -> returns P (m ≫= f).
Proof. intros Hf. eapply returns_bind; [apply returns_any|]. auto. Qed.

Lemma returns_lift_bind {A B} (P : B -> Prop) x (f : A -> M W B) :
  (forall a, x = Ok a -> returns P (f a)) -> returns P (lift x ≫= f).
Proof. intros Hf w. apply wp_bind, wp_lift; [|done]. intros a Ha. by apply Hf. Qed.

Lemma returns_attempt {A} (P : A -> Prop) (m : M W A) :
  returns P m -> returns (fun r => match r with Ok a => P a | Err _ => True end) (attempt m).
Proof. intros H w. apply wp_attempt. eapply wp_mono; [apply H|]. by intros [] w'. Qed.

Lemma returns_with_lock {A} (P : A -> Prop) mk (m : M W A) : returns P m -> returns P (with_lock mk m).
Proof.
  intros H. apply returns_then. intros _. eapply returns_bind; [apply returns_attempt, H|]. intros r Hr.
  apply returns_then. intros _. apply returns_lift. by intros a ->.
Qed.

Lemma returns_if {A} (P : A -> Prop) (b : bool) (m1 m2 : M W A) :
  (b = true -> returns P m1) -> (b = false -> returns P m2) -> returns P (if b then m1 else m2).
Proof. destruct b; auto. Qed.

(** Running without faults. *)
Definition run {A} (m : M W A) (w : W) : outcome A * W := let '(o, _, w') := m [] w in (o, w').

Lemma wp_run {A} (m : M W A) (Q : outcome A -> W -> Prop) w :
  wp false m Q w -> Q (fst (run m w)) (snd (run m w)).
Proof. intros H. specialize (H [] (fun _ => eq_refl)). unfold run. destruct (m [] w) as [[o fs] w']. apply H. Qed.

(** A fault-free run is one of the runs. *)
Lemma wp_weaken {A} (m : M W A) (Q : outcome A -> W -> Prop) w : wp true m Q w -> forall fs,
  match m fs w with (o, _, w') => Q o w' end.
Proof. intros H fs. specialize (H fs ltac:(done)). destruct (m fs w) as [[o fs'] w']. apply H. Qed.

End Monad.

#[global] Opaque wp.

(** The obligations of a fault at a step, from [Q] at the stores before and after it. *)
Ltac wp_faults := let Hb := fresh "Hb" in intros Hb; try discriminate Hb; split_and!; try (intros ?).

(** One step of a computation that is not a [commit]. *)
Ltac wp_step :=
  lazymatch goal with
  | |- wp _ (mret _) _ _ => apply wp_ret
  | |- wp _ (throw _) _ _ => apply wp_throw
  | |- wp _ get _ _ => apply wp_get
  | |- wp _ (others _) _ _ => apply wp_others
  | |- wp _ (attempt _) _ _ => apply wp_attempt
  | |- wp _ (mbind _ _) _ _ => apply wp_bind
  | |- wp _ (lift (raise _ _)) _ _ => apply wp_throw
  | |- wp _ (lift (Err _)) _ _ => apply wp_throw
  | |- wp _ (lift (Ok _)) _ _ => apply wp_ret
  end; cbv beta iota.

(** One step of a proof of [preserves]; the stores a step makes are left to [hyps]. *)
Ltac preserve1 hyps :=
  lazymatch goal with
  | |- preserves _ (mret _) => apply preserves_ret
  | |- preserves _ (throw _) => apply preserves_throw
  | |- preserves _ (lift _) => apply preserves_lift
  | |- preserves _ (mbind _ get) => apply preserves_get; intros ? ?
  | |- preserves _ (mbind _ (lift _)) => apply preserves_lift_bind; intros ? ?
  | |- preserves _ (mbind _ _) => apply preserves_bind; [|intros ?]
  | |- preserves _ (attempt _) => apply preserves_attempt
  | |- preserves _ (if _ then _ else _) => apply preserves_if
  | |- preserves _ (with_lock _ _) => apply preserves_with_lock; [by hyps|]
  | |- preserves _ (commit _) => apply preserves_commit; by hyps
  | |- preserves _ (others _) => apply preserves_others; by hyps
  end; cbv beta zeta.
