(* ===== verification/SessionFiles.v ===== *)
(** * SessionFiles: session names, keys and the per-session directory

    [src/forge/session/validation.py] (names), [session/identity.py] (compound index keys),
    [session/cleanup_state.py] and the operations of [session/store.py]'s [SessionStore] that
    create, claim, update and delete a session's directory. What a manifest holds is
    Manifest.v's business; here it is a file next to the owner token [review-identity]. *)

From S2P Require Import Prelude PyValue StateIO Manifest Effects.

(** ** Names *)

Definition MIN_NAME_LENGTH : Z := 2.
Definition MAX_NAME_LENGTH : Z := 64.

(** [[a-z0-9]] and [[a-z0-9-]]. *)
Definition lower_alnum (c : ascii) : bool :=
  let n := nat_of_ascii c in
  ((97 <=? n) && (n <=? 122))%nat || ((48 <=? n) && (n <=? 57))%nat.
Definition name_char (c : ascii) : bool := lower_alnum c || Ascii.eqb c "-".

(** [[a-z0-9]([a-z0-9-]*[a-z0-9])?] on the whole text. *)
Definition name_shape (l : list ascii) : bool :=
  match l, rev l with
  | first :: _, final :: _ => lower_alnum first && lower_alnum final && forallb name_char l
  | _, _ => false
  end.

(** [_NAME_PATTERN.match]: [$] also matches before a final newline. *)
Definition _NAME_PATTERN (s : string) : bool :=
  let l := str_list s in
  name_shape l ||
  match rev l with
  | c :: l' => Ascii.eqb c "010" && name_shape (rev l')
  | [] => false
  end.

Definition validate_name (name : string) : res unit :=
  if py_len name <? MIN_NAME_LENGTH then
    raise InvalidSessionNameError "name must be at least 2 characters"
  else if MAX_NAME_LENGTH <? py_len name then
    raise InvalidSessionNameError "name must be at most 64 characters"
  else if negb (_NAME_PATTERN name) then
    raise InvalidSessionNameError
      "name must be lowercase alphanumeric with hyphens, starting and ending with alphanumeric"
  else if contains "--" name then
    raise InvalidSessionNameError "name cannot contain consecutive hyphens"
  else Ok tt.

(** ** Instance identities *)

Definition hex_digit (c : ascii) : bool :=
  let n := nat_of_ascii c in ((48 <=? n) && (n <=? 57))%nat || ((97 <=? n) && (n <=? 102))%nat.

(** 32 lowercase hexadecimal digits. *)
Definition is_token (s : string) : bool :=
  (String.length s =? 32)%nat && forallb hex_digit (str_list s).

Definition _valid_instance_id (v : value) : bool := match v with VStr s => is_token s | _ => false end.

Definition _require_instance_id (s : string) : res unit :=
  if is_token s then Ok tt
  else raise ValueError
    "A valid session instance_id is required; explicitly migrate legacy session ownership first".

(** The owner file: a regular file's bytes, another kind of file, or one that cannot be
    opened (a symbolic link, with [O_NOFOLLOW]). *)
Inductive owner_file :=
| OwnerBytes (raw : string)
| OwnerIrregular
| OwnerRefused (e : pyexn).

Definition owner_prefix : string := "review-owner-v1:".

(** [bytes.removesuffix] of a newline. *)
Definition strip_newline (s : string) : string :=
  match rev (str_list s) with
  | c :: l => if Ascii.eqb c "010" then list_str (rev l) else s
  | [] => s
  end.

(** The token in the first 80 bytes. *)
Definition parse_owner (content : string) : option string :=
  let raw := String.substring 0 80 content in
  if startswith owner_prefix raw then
    let v := strip_newline (str_drop (String.length owner_prefix) raw) in
    if is_token v then Some v else None
  else None.

Definition owner_text (token : string) : string := owner_prefix +++ token +++ newline.

(** ** The file system *)

Record file := File { meets : content; bytes : string }.

(** A session directory, as far as the code looks into it: the manifest and the owner file.
    The lock file, which makes the directory exist, is not distinguished. *)
Record session_dir := Dir { manifest : option file; owner : option owner_file }.

Definition empty_dir : session_dir := Dir None None.

Record world := World {
  index_file : option content;                          (* ~/.forge/sessions/index.json *)
  dirs : gmap (string * string) session_dir;            (* by real root and session name *)
  roots : gset string;                                  (* existing project roots, real paths *)
  history : gset (string * string);                     (* sessions with Stop review artifacts *)
  cleanup : gset string;                                (* retry inventories of unfinished cleanups *)
  active_file : option content }.                       (* ~/.forge/sessions/active.json *)

Definition on_dir (key : string * string) (f : session_dir -> session_dir) (w : world) : world :=
  World (index_file w) (<[key := f (default empty_dir (dirs w !! key))]> (dirs w))
    ({[ key.1 ]} ∪ roots w) (history w) (cleanup w) (active_file w).

Definition rm_dir (key : string * string) (w : world) : world :=
  World (index_file w) (delete key (dirs w)) (roots w) (history w) (cleanup w) (active_file w).

Definition set_index (f : content) (w : world) : world :=
  World (Some f) (dirs w) (roots w) (history w) (cleanup w) (active_file w).

Definition set_manifest (m : option file) (d : session_dir) : session_dir := Dir m (owner d).
Definition set_owner (o : option owner_file) (d : session_dir) : session_dir := Dir (manifest d) o.

(** [SessionState], the fields these operations read; [st_rest] stands for the others. *)
Record SessionState := {
  st_name : string;
  st_worktree : option string;                          (* worktree.path *)
  st_forge_root : option string;
  st_parent_session : option string;
  st_is_fork : bool;
  st_is_incognito : bool;
  st_claude_session_id : option string;                 (* confirmed.claude_session_id *)
  st_codex_thread_id : option string;                   (* confirmed.codex.thread_id *)
  st_rest : dict }.

(** What comes from outside the source: [hashlib.sha256(...).hexdigest()] of a text,
    [Path.resolve], [str] of a decoded value, [json.dumps], and the encoding of a
    [SessionState] by [dacite] and [asdict]. *)
Class Platform := {
  sha256 : string -> string;
  real : string -> string;
  py_str : value -> string;
  dumps : dict -> string;
  state_from_dict : dict -> res SessionState;
  state_to_dict : SessionState -> dict }.

Section SessionFiles.
Context `{P : Platform}.

(** ** Keys *)

(** [session_name_from_key]. *)
Definition session_name_from_key (key : string) : string := fst (split_once "|" key).

Definition make_scoped_key (name forge_root : string) : string :=
  name +++ "|" +++ String.substring 0 12 (sha256 forge_root).

Section Resolve.
Context {row : Type} (root : row -> string).

Definition resolve_key_strict (sessions : list (string * row)) (name : string) (forge_root : option string)
  : res (option string) :=
  match forge_root with
  | Some r => let key := make_scoped_key name r in Ok (if dhas key sessions then Some key else None)
  | None =>
      match filter (fun p => startswith (name +++ "|") p.1 = true) sessions with
      | [] => Ok None
      | [(key, _)] => Ok (Some key)
      | matches =>
          raise AmbiguousSessionError
            ("session '" +++ name +++ "' exists in multiple projects: " +++
             str_join ", " (map (fun p => root p.2) matches) +++
             ". Run from within the target project directory to disambiguate.")
      end
  end.

Definition resolve_key_best_effort (sessions : list (string * row)) (name : string) (forge_root : option string)
  : option string :=
  match forge_root with
  | Some r => let key := make_scoped_key name r in if dhas key sessions then Some key else None
  | None => fst <$> List.find (fun p => startswith (name +++ "|") p.1) sessions
  end.

End Resolve.

(** ** Unfinished cleanups *)

Definition cleanup_state_path (forge_root name : string) : res string :=
  _ ← validate_name name; Ok (sha256 (real forge_root +++ String "000" name)).

(** [path.exists() or path.is_symlink()]. *)
Definition _cleanup_pending (w : world) (forge_root name : string) : res bool :=
  path ← cleanup_state_path forge_root name; Ok (bool_decide (path ∈ cleanup w)).

(** ** [SessionStore(forge_root, name)] *)

Definition dir_key (forge_root name : string) : string * string := (real forge_root, name).

Definition manifest_path (forge_root name : string) : string :=
  real forge_root +++ "/.forge/sessions/" +++ name +++ "/forge.session.json".

(** The manifest file, when it is there. *)
Definition manifest_at (w : world) (forge_root name : string) : option file :=
  dirs w !! dir_key forge_root name ≫= manifest.

Definition owner_at (w : world) (forge_root name : string) : option owner_file :=
  dirs w !! dir_key forge_root name ≫= owner.

(** [SessionStore.exists]. *)
Definition exists_ (w : world) (forge_root name : string) : bool :=
  match manifest_at w forge_root name with Some _ => true | None => false end.

(** [SessionStore.read]. *)
Definition store_read (w : world) (forge_root name : string) : res SessionState :=
  Manifest.read state_from_dict st_name py_str (manifest_path forge_root name) name
    (meets <$> manifest_at w forge_root name).

Definition history_error {A} : res A :=
  raise ValueError
    "Stop review history has no session owner; restore the owner file or create a new session".

(** [review_identity(create=False)]. *)
Definition review_identity (w : world) (forge_root name : string) : res (option string) :=
  match owner_at w forge_root name with
  | None => if bool_decide (dir_key forge_root name ∈ history w) then history_error else Ok None
  | Some OwnerIrregular => raise ValueError "Invalid Stop review owner file"
  | Some (OwnerRefused e) => Err e
  | Some (OwnerBytes raw) =>
      match parse_owner raw with
      | Some token => Ok (Some token)
      | None => raise ValueError
          "Invalid Stop review owner; restore the session directory or create a new session"
      end
  end.

Section Store.
Context (forge_root name : string).

(** The session directory, created when a file in it is written or its lock is taken. *)
Definition touch : world -> world := on_dir (dir_key forge_root name) id.

Definition manifest_lock {A} (body : M world A) : M world A := with_lock touch body.

Definition write_owner (token : string) : M world unit :=
  _ ← commit (on_dir (dir_key forge_root name) (set_owner (Some (OwnerBytes (owner_text token)))));
  commit id (* chmod *).

Definition _ensure_session_dir : M world unit := _ ← lift (validate_name name); commit touch.

Definition _write_unlocked (state : SessionState) : M world unit :=
  _ ← lift (validate_name (st_name state));
  if negb (String.eqb (st_name state) name) then
    lift (raise ValueError
      ("Manifest name '" +++ st_name state +++ "' does not match store session name '" +++ name +++
       "'. This would create a directory/name mismatch."))
  else
    data ← lift (manifest_for_write (state_to_dict state));
    commit (on_dir (dir_key forge_root name) (set_manifest (Some (File (CJson (VDict data)) (dumps data))))).

(** [SessionStore.write]. *)
Definition store_write (state : SessionState) : M world unit :=
  _ ← _ensure_session_dir; manifest_lock (_write_unlocked state).

(** [create_exclusive], with the token [uuid4] gives. *)
Definition create_exclusive (token : string) (state : SessionState) : M world unit :=
  _ ← _ensure_session_dir;
  manifest_lock (
    w ← get;
    if exists_ w forge_root name then
      lift (raise SessionExistsError ("session '" +++ name +++ "' already exists"))
    else
      _ ← write_owner token;
      _write_unlocked state).

Definition not_found {A} : res A :=
  raise SessionFileNotFoundError ("session file not found at '" +++ manifest_path forge_root name +++ "'").

Definition changed {A} : res A :=
  raise ManifestChangedError
    ("session manifest changed since it was scanned: " +++ manifest_path forge_root name).

(** The comparison of the manifest's bytes with a digest captured earlier. *)
Definition check_digest (w : world) (expected : string) : res unit :=
  match manifest_at w forge_root name with
  | None => not_found
  | Some (File (CUnreadable e) _) =>
      raise ManifestUnreadableError
        ("manifest at '" +++ manifest_path forge_root name +++ "': read error: " +++ e)
  | Some f => if String.eqb (sha256 (bytes f)) expected then Ok tt else changed
  end.

(** [migrate_instance_identity], with the token [uuid4] gives. *)
Definition migrate_instance_identity (fresh : string) (expected_manifest_sha256 expected_instance_id : option string)
    (require_ownerless : bool) : M world string :=
  w ← get;
  if negb (exists_ w forge_root name) then lift not_found
  else manifest_lock (
    w ← get;
    _ ← lift (store_read w forge_root name);
    _ ← lift match expected_manifest_sha256 with
             | Some sha => check_digest w sha
             | None => Ok tt
             end;
    token ← lift (review_identity w forge_root name);
    if require_ownerless && bool_decide (token <> None) then
      lift (raise ValueError "Session instance changed since preview; expected an ownerless session")
    else if bool_decide (expected_instance_id <> None) && negb (bool_decide (token = expected_instance_id)) then
      lift (raise ValueError
        ("Session '" +++ name +++ "' has inconsistent instance ownership; restore its owner file"))
    else match token with
    | Some token => mret token
    | None => _ ← write_owner fresh; mret fresh
    end).

(** [delete_locked]: the manifest goes first, then the rest of the directory. *)
Definition delete_locked : M world bool :=
  w ← get;
  match dirs w !! dir_key forge_root name with
  | None => mret false
  | Some _ =>
      _ ← commit (on_dir (dir_key forge_root name) (set_manifest None));
      _ ← commit (on_dir (dir_key forge_root name) (set_owner None));
      _ ← commit (rm_dir (dir_key forge_root name));
      mret true
  end.

(** The deletion callback of [session/manager.py]. *)
Definition _delete_session_manifest : M world unit := _ ← delete_locked; mret tt.

(** [SessionStore.delete]. *)
Definition store_delete : M world bool :=
  w ← get;
  match dirs w !! dir_key forge_root name with
  | None => mret false
  | Some _ => manifest_lock delete_locked
  end.

(** [SessionStore.update]. *)
Definition update (mutate : SessionState -> res SessionState) (expected_instance_id : option string)
  : M world SessionState :=
  w ← get;
  if bool_decide (expected_instance_id <> None) && negb (exists_ w forge_root name) then lift not_found
  else manifest_lock (
    w ← get;
    state ← lift (store_read w forge_root name);
    _ ← lift match expected_instance_id with
             | None => Ok tt
             | Some expected =>
                 pending ← _cleanup_pending w forge_root name;
                 token ← review_identity w forge_root name;
                 if negb (bool_decide (token = Some expected)) || pending then changed else Ok tt
             end;
    state ← lift (mutate state);
    _ ← _write_unlocked state;
    mret state).

(** [SessionStore.update_if_unchanged]. *)
Definition update_if_unchanged (expected_sha256 : string) (mutate : option (SessionState -> res SessionState))
  : M world unit :=
  manifest_lock (
    w ← get;
    _ ← lift (check_digest w expected_sha256);
    match mutate with
    | None => mret tt
    | Some mutate =>
        state ← lift (store_read w forge_root name);
        state ← lift (mutate state);
        _write_unlocked state
    end).

End Store.
End SessionFiles.

(** ** Names and keys *)

Lemma list_str_list s : list_str (str_list s) = s.
Proof. induction s as [|c s IH]; simpl; [done|]. by rewrite IH. Qed.

Lemma split_once_app c a b :
  Forall (fun x => x <> c) (str_list a) -> split_once c (a +++ String c b) = (a, Some b).
Proof.
  induction a as [|x a IH]; simpl; intros H.
  - by destruct (decide (c = c)).
  - apply Forall_cons in H as [Hx H]. destruct (decide (c = x)); [congruence|]. by rewrite IH.
Qed.

Lemma name_shape_chars l : name_shape l = true -> Forall (fun c => name_char c = true) l.
Proof.
  unfold name_shape. destruct l; [done|]. destruct (rev _); [done|]. intros H.
  apply andb_prop in H as [_ H]. apply Forall_forall. intros x Hx. by apply (proj1 (forallb_forall _ _) H), list_elem_of_In.
Qed.

(** A valid name holds letters, digits, hyphens and perhaps a final newline. *)
Lemma valid_name_chars name :
  validate_name name = Ok tt -> Forall (fun c => name_char c = true \/ c = "010"%char) (str_list name).
Proof.
  unfold validate_name. repeat case_match; try done. intros _.
  destruct (_NAME_PATTERN name) eqn:Hp; [|done]. unfold _NAME_PATTERN in Hp. apply orb_prop in Hp as [Hp|Hp].
  - eapply Forall_impl; [by apply name_shape_chars|]. by left.
  - destruct (rev (str_list name)) as [|c l] eqn:Hrev; [done|]. apply andb_prop in Hp as [Hc Hp].
    apply (f_equal (@rev ascii)) in Hrev. rewrite rev_involutive in Hrev. rewrite Hrev. simpl. apply Forall_app. split.
    + eapply Forall_impl; [by apply name_shape_chars|]. by left.
    + constructor; [right; by apply Ascii.eqb_eq|constructor].
Qed.

Lemma valid_name_no_bar name :
  validate_name name = Ok tt -> Forall (fun c => c <> "|"%char) (str_list name).
Proof. intros H%valid_name_chars. eapply Forall_impl; [done|]. intros c [Hc|Hc] ->; by vm_compute in Hc. Qed.

(** ** Owner files *)

Lemma substring_all n s : (String.length s <= n)%nat -> String.substring 0 n s = s.
Proof. revert n. induction s as [|c s IH]; intros [|n]; simpl; try done; [lia|]. intros H. by rewrite IH by lia. Qed.

Lemma length_str_app a b : String.length (a +++ b) = (String.length a + String.length b)%nat.
Proof. induction a as [|c a IH]; simpl; [done|]. by rewrite IH. Qed.

Lemma startswith_app p s : startswith p (p +++ s) = true.
Proof.
  unfold startswith. induction p as [|c p IH]; [by destruct s|]. simpl. rewrite IH. by destruct (ascii_dec c c).
Qed.

Lemma strip_newline_app s : strip_newline (s +++ newline) = s.
Proof. unfold strip_newline. rewrite str_list_app, rev_app_distr. simpl. by rewrite rev_involutive, list_str_list. Qed.

Lemma parse_owner_text token : is_token token = true -> parse_owner (owner_text token) = Some token.
Proof.
  intros Ht. pose proof Ht as Hlen. apply andb_prop in Hlen as [Hlen _]. apply Nat.eqb_eq in Hlen.
  unfold parse_owner. rewrite substring_all.
  2: { unfold owner_text. rewrite !length_str_app, Hlen. simpl. lia. }
  cbv zeta. change (str_drop _ (owner_text token)) with (token +++ newline).
  unfold owner_text at 1. rewrite startswith_app.
  by rewrite strip_newline_app, Ht.
Qed.

Lemma parse_owner_token raw token : parse_owner raw = Some token -> is_token token = true.
Proof. unfold parse_owner. repeat case_match; try done. by intros [= <-]. Qed.

Section FileLemmas.
Context `{P : Platform}.

Lemma name_of_key name r : validate_name name = Ok tt -> session_name_from_key (make_scoped_key name r) = name.
Proof.
  intros H%valid_name_no_bar. unfold session_name_from_key, make_scoped_key.
  apply (f_equal fst (split_once_app "|" name _ H)).
Qed.

Lemma review_identity_token w r name t : review_identity w r name = Ok (Some t) -> is_token t = true.
Proof. unfold review_identity. repeat case_match; try done. intros [= <-]. by eapply parse_owner_token. Qed.

Lemma review_identity_written w r name t :
  is_token t = true -> owner_at w r name = Some (OwnerBytes (owner_text t)) -> review_identity w r name = Ok (Some t).
Proof. intros Ht Ho. unfold review_identity. by rewrite Ho, parse_owner_text. Qed.

(** ** What changes in the store *)

(** Nothing but the directory [key] (and the existence of its project root) has changed. *)
Record only_dir (key : string * string) (w w' : world) : Prop := {
  od_index : index_file w' = index_file w;
  od_dirs k : k <> key -> dirs w' !! k = dirs w !! k;
  od_history : history w' = history w;
  od_cleanup : cleanup w' = cleanup w }.

#[global] Instance only_dir_refl key : Reflexive (only_dir key).
Proof. by split. Qed.

#[global] Instance only_dir_trans key : Transitive (only_dir key).
Proof. intros x y z [A1 A2 A3 A4] [B1 B2 B3 B4]. split; [congruence| |congruence..]. intros k Hk. by rewrite B2, A2. Qed.

Lemma only_dir_on key f w : only_dir key w (on_dir key f w).
Proof. split; try done. intros k Hk. simpl. by rewrite lookup_insert_ne. Qed.

Lemma only_dir_rm key w : only_dir key w (rm_dir key w).
Proof. split; try done. intros k Hk. simpl. by rewrite lookup_delete_ne. Qed.

Lemma manifest_at_on r name f w :
  manifest_at (on_dir (dir_key r name) f w) r name = manifest (f (default empty_dir (dirs w !! dir_key r name))).
Proof. unfold manifest_at. simpl. by rewrite lookup_insert_eq. Qed.

Lemma owner_at_on r name f w :
  owner_at (on_dir (dir_key r name) f w) r name = owner (f (default empty_dir (dirs w !! dir_key r name))).
Proof. unfold owner_at. simpl. by rewrite lookup_insert_eq. Qed.

Lemma manifest_at_default w r name : manifest_at w r name = manifest (default empty_dir (dirs w !! dir_key r name)).
Proof. unfold manifest_at. by destruct (dirs w !! _). Qed.

Lemma owner_at_default w r name : owner_at w r name = owner (default empty_dir (dirs w !! dir_key r name)).
Proof. unfold owner_at. by destruct (dirs w !! _). Qed.

(** The files of the directory are the same. *)
Definition same_files (r name : string) (w w' : world) : Prop :=
  manifest_at w' r name = manifest_at w r name /\ owner_at w' r name = owner_at w r name.

Lemma same_files_touch r name w : same_files r name w (touch r name w).
Proof. split; unfold touch; [rewrite manifest_at_on|rewrite owner_at_on]; symmetry; [apply manifest_at_default|apply owner_at_default]. Qed.

Lemma exists_manifest w r name : exists_ w r name = true <-> is_Some (manifest_at w r name).
Proof. unfold exists_. destruct (manifest_at w r name); split; done || by intros []. Qed.

Lemma exists_congr w w' r name : manifest_at w' r name = manifest_at w r name -> exists_ w' r name = exists_ w r name.
Proof. unfold exists_. by intros ->. Qed.

(** Two roots with the same real path. *)
Lemma same_root r1 r2 name w :
  real r1 = real r2 ->
  dir_key r1 name = dir_key r2 name /\ manifest_at w r1 name = manifest_at w r2 name /\
  owner_at w r1 name = owner_at w r2 name /\ exists_ w r1 name = exists_ w r2 name /\
  review_identity w r1 name = review_identity w r2 name.
Proof. intros H. unfold exists_, review_identity, manifest_at, owner_at, dir_key. by rewrite H. Qed.

Lemma review_identity_congr r name w w' :
  same_files r name w w' -> history w' = history w -> review_identity w' r name = review_identity w r name.
Proof. intros [_ Ho] Hh. unfold review_identity. by rewrite Ho, Hh. Qed.

(** ** The store's operations, whatever fails *)

(** The file [_write_unlocked] writes. *)
Definition manifest_file (state : SessionState) : res file :=
  data ← manifest_for_write (state_to_dict state); Ok (File (CJson (VDict data)) (dumps data)).

Lemma wp_write_unlocked b r name state w (Q : outcome unit -> world -> Prop) :
  (forall e, Q (Raise e) w) -> (b = true -> Q Killed w) ->
  (forall m, validate_name name = Ok tt -> st_name state = name -> manifest_file state = Ok m ->
     let w' := on_dir (dir_key r name) (set_manifest (Some m)) w in
     Q (Ret tt) w' /\ (b = true -> forall e, Q (Raise e) w')) ->
  wp b (_write_unlocked r name state) Q w.
Proof.
  intros Hw Hk Hm. unfold _write_unlocked, manifest_file in *. apply wp_bind, wp_lift; [intros [] Hv|done].
  destruct (String.eqb_spec (st_name state) name) as [Hn|Hn]; cbn [negb]; [|apply wp_throw, Hw].
  rewrite Hn in Hv. apply wp_bind, wp_lift; [intros data Hd|done]. rewrite Hd, res_bind_ok in Hm.
  destruct (Hm _ Hv Hn eq_refl) as [Hret Hraise]. apply wp_commit; [done|]. intros Hb. auto.
Qed.

(** The manifest [_write_unlocked] may leave: the one before, or the state's. *)
Definition old_or_written (r name : string) (state : SessionState) (w w' : world) : Prop :=
  manifest_at w' r name = manifest_at w r name \/
  exists m, manifest_file state = Ok m /\ manifest_at w' r name = Some m.

(** The files of a created session. *)
Definition created_files (r name token : string) (state : SessionState) (w' : world) : Prop :=
  exists m, st_name state = name /\ manifest_file state = Ok m /\
    manifest_at w' r name = Some m /\ owner_at w' r name = Some (OwnerBytes (owner_text token)).

Lemma write_new_spec r name token state w :
  wp true (_ ← write_owner r name token; _write_unlocked r name state) (fun o w' =>
    only_dir (dir_key r name) w w' /\ old_or_written r name state w w' /\
    (o = Ret tt -> created_files r name token state w')) w.
Proof.
  set (Q := fun (o : outcome unit) w' => _).
  assert (forall w' o, o <> Ret tt -> only_dir (dir_key r name) w w' -> old_or_written r name state w w' -> Q o w') as Hfail by done.
  set (w1 := on_dir (dir_key r name) (set_owner (Some (OwnerBytes (owner_text token)))) w).
  assert (only_dir (dir_key r name) w w1) as Ho1 by apply only_dir_on.
  assert (manifest_at w1 r name = manifest_at w r name) as Hm1.
  { unfold w1. rewrite manifest_at_on. simpl. by rewrite <- manifest_at_default. }
  unfold write_owner. do 2 wp_step.
  apply wp_commit; [|wp_faults; apply Hfail; try done; by left].
  apply wp_commit; [|wp_faults; apply Hfail; try done; by left].
  apply wp_write_unlocked; [intros e; apply Hfail; try done; by left|intros _; apply Hfail; try done; by left|].
  intros m _ Hn Hm. set (w2 := on_dir _ _ _).
  assert (only_dir (dir_key r name) w w2) as Ho2 by (etrans; [done|apply only_dir_on]).
  assert (manifest_at w2 r name = Some m) as Hm2 by (unfold w2; by rewrite manifest_at_on).
  assert (old_or_written r name state w w2) by (right; by exists m).
  split; [|intros _ e; by apply Hfail]. split_and!; [done..|]. intros _. exists m. split_and!; try done.
  unfold w2. rewrite owner_at_on. etrans; [symmetry; apply owner_at_default|]. unfold id. by rewrite owner_at_on.
Qed.

(** [create_exclusive] changes nothing outside the session's directory, never the files of a
    session that exists, and leaves the state's manifest and the new owner when it returns. *)
Lemma create_exclusive_spec r name token state w :
  wp true (create_exclusive r name token state) (fun o w' =>
    only_dir (dir_key r name) w w' /\
    (exists_ w r name = true -> same_files r name w w' /\ o <> Ret tt) /\
    old_or_written r name state w w' /\
    (o = Ret tt -> created_files r name token state w')) w.
Proof.
  unfold create_exclusive, _ensure_session_dir. set (Q := fun (o : outcome unit) w' => _).
  assert (forall w' o, o <> Ret tt -> same_files r name w w' /\ only_dir (dir_key r name) w w' -> Q o w') as Hsame.
  { intros w' o Ho [Hs Hw']. split_and!; try done. left. apply Hs. }
  assert (forall w1, same_files r name w w1 /\ only_dir (dir_key r name) w w1 ->
    same_files r name w (touch r name w1) /\ only_dir (dir_key r name) w (touch r name w1)) as Htouch.
  { intros w1 [[] Ho1]. destruct (same_files_touch r name w1). split; [split; congruence|].
    etrans; [done|apply only_dir_on]. }
  assert (same_files r name w w /\ only_dir (dir_key r name) w w) as H0 by done.
  pose proof (Htouch _ H0) as H1. pose proof (Htouch _ H1) as H2.
  do 2 wp_step. apply wp_lift; [intros [] Hv|intros e _; by apply Hsame].
  apply wp_commit; [|wp_faults; by apply Hsame].
  apply wp_with_lock; [|wp_faults; by apply Hsame]. do 2 wp_step.
  rewrite (exists_congr w) by apply H2. destruct (exists_ w r name) eqn:He.
  { wp_step. split; [by apply Hsame|wp_faults; by apply Hsame]. }
  eapply wp_mono; [apply write_new_spec|]. intros o w' (Ho & Hm & Hret).
  assert (forall o, (o = Ret tt -> created_files r name token state w') -> Q o w') as HQ.
  { intros o' Hc. split_and!; try done; [etrans; [apply H2|done]|].
    destruct Hm as [Hm|Hm]; [left|by right]. rewrite Hm. apply H2. }
  split; [by apply HQ|]. wp_faults; by apply HQ.
Qed.

(** Without faults, it returns exactly for a name that is free and a state it can encode, and
    a failure leaves no manifest behind. *)
Lemma create_exclusive_result r name token state w :
  wp false (create_exclusive r name token state) (fun o w' =>
    only_dir (dir_key r name) w w' /\
    match o with
    | Ret _ => exists_ w r name = false /\ validate_name name = Ok tt /\ is_ok (manifest_file state) = true /\
               created_files r name token state w'
    | Raise _ => exists_ w' r name = exists_ w r name /\
                 ~ (exists_ w r name = false /\ validate_name name = Ok tt /\ st_name state = name /\
                    is_ok (manifest_file state) = true)
    | Killed => False
    end) w.
Proof.
  unfold create_exclusive, _ensure_session_dir. do 2 wp_step.
  apply wp_lift; [intros [] Hv|intros e Hv; split_and!; try done; rewrite Hv; naive_solver].
  apply wp_commit; [|by wp_faults]. apply wp_with_lock; [|by wp_faults]. do 2 wp_step.
  set (w2 := touch r name (touch r name w)).
  assert (same_files r name w w2) as [Hm2 Ho2].
  { destruct (same_files_touch r name w), (same_files_touch r name (touch r name w)). split; unfold w2; congruence. }
  assert (only_dir (dir_key r name) w w2) as Hd2 by (etrans; apply only_dir_on).
  rewrite (exists_congr w) by done. destruct (exists_ w r name) eqn:He.
  { wp_step. split; [|by wp_faults]. split_and!; try done; [by rewrite (exists_congr w)|naive_solver]. }
  unfold write_owner. do 2 wp_step. apply wp_commit; [|by wp_faults]. apply wp_commit; [|by wp_faults].
  unfold _write_unlocked, manifest_file, created_files. wp_step.
  set (w3 := id (on_dir _ _ w2)).
  assert (only_dir (dir_key r name) w w3) as Hd3 by (etrans; [done|apply only_dir_on]).
  assert (exists_ w3 r name = false) as He3.
  { rewrite <- He. apply exists_congr. unfold w3, id. rewrite manifest_at_on, <- Hm2. symmetry. apply manifest_at_default. }
  apply wp_lift; [intros [] Hn|intros e Hn; split; [|by wp_faults]; split_and!; [done..|]; intros (_ & Hv' & <- & _); congruence].
  destruct (String.eqb_spec (st_name state) name) as [Heq|Hne]; cbn [negb].
  2: { wp_step. split; [|by wp_faults]. split_and!; [done..|]. naive_solver. }
  wp_step. apply wp_lift; [intros data Hd|intros e Hd; split; [|by wp_faults]; split_and!; [done..|];
    rewrite Hd; naive_solver].
  apply wp_commit; [|by wp_faults]. split; [|by wp_faults]. split; [etrans; [done|apply only_dir_on]|].
  rewrite Hd. split_and!; [done..|]. exists (File (CJson (VDict data)) (dumps data)).
  split_and!; [done|unfold manifest_file; by rewrite Hd|by rewrite manifest_at_on|].
  rewrite owner_at_on. etrans; [symmetry; apply owner_at_default|]. unfold w3, id. by rewrite owner_at_on.
Qed.

(** [delete_locked] removes the directory and nothing else. *)
Lemma delete_locked_spec b r name w :
  wp b (delete_locked r name) (fun o w' =>
    only_dir (dir_key r name) w w' /\
    match o with Ret _ => dirs w' !! dir_key r name = None | _ => b = true end) w.
Proof.
  unfold delete_locked. do 2 wp_step. destruct (dirs w !! dir_key r name) eqn:Hd; [|by wp_step].
  set (w1 := on_dir (dir_key r name) (set_manifest None) w). assert (only_dir (dir_key r name) w w1) by apply only_dir_on.
  wp_step. apply wp_commit; [|by wp_faults]. fold w1.
  set (w2 := on_dir (dir_key r name) (set_owner None) w1). assert (only_dir (dir_key r name) w w2) by (etrans; [done|apply only_dir_on]).
  wp_step. apply wp_commit; [|by wp_faults]. fold w2.
  assert (only_dir (dir_key r name) w (rm_dir (dir_key r name) w2)) by (etrans; [done|apply only_dir_rm]).
  wp_step. apply wp_commit; [|by wp_faults]. wp_step. split; [done|]. simpl. apply lookup_delete_eq.
Qed.

(** The token a migration gives is well formed; only the session's directory changes. *)
Lemma migrate_spec r name fresh sha expected ownerless w :
  is_token fresh = true ->
  wp true (migrate_instance_identity r name fresh sha expected ownerless) (fun o w' =>
    only_dir (dir_key r name) w w' /\ match o with Ret t => is_token t = true | _ => True end) w.
Proof.
  intros Hf. unfold migrate_instance_identity. do 2 wp_step. destruct (negb _); [by apply wp_lift|].
  assert (only_dir (dir_key r name) w (touch r name w)) as Ho by apply only_dir_on.
  set (Q := fun o w' => only_dir (dir_key r name) w w' /\ match o with Ret t => is_token t = true | _ => True end).
  unfold manifest_lock. apply wp_with_lock; [|by wp_faults].
  eapply wp_mono with (P := Q); [|intros o w' [Hw' Hout]; by split; [|wp_faults]].
  do 3 wp_step. apply wp_lift; [intros state _|done]. wp_step. apply wp_lift; [intros [] _|done].
  wp_step. apply wp_lift; [intros token Htok|done]. destruct (ownerless && _); [by apply wp_lift|].
  destruct (_ && _); [by apply wp_lift|]. destruct token as [t|]; [wp_step; split; [done|by eapply review_identity_token]|].
  assert (only_dir (dir_key r name) w (on_dir (dir_key r name) (set_owner (Some (OwnerBytes (owner_text fresh)))) (touch r name w))) as Ho2
    by (etrans; [done|apply only_dir_on]).
  unfold write_owner. do 2 wp_step. apply wp_commit; [|by wp_faults]. apply wp_commit; [|by wp_faults]. by wp_step.
Qed.

End FileLemmas.
