(* ===== verification/SessionIndex.v ===== *)
(** * SessionIndex: the global session index and its transactions

    [src/forge/session/index.py] ([IndexStore]) on the session directories of SessionFiles.v:
    reading and writing the index, listing with pruning, the creation transaction (row first,
    then the manifest, compensation on failure), updates, ownership migration, fenced worker
    output and fenced deletion. Every durable step can fail or be the last one before the
    process is killed (Effects.v).

    Operations that hold the index lock are one step for other Forge processes; between two
    lock sections of one operation, the others may do anything. *)

From S2P Require Import Prelude PyValue StateIO Manifest Effects SessionFiles.

(** ** Rows *)

Record SessionIndexEntry := {
  e_worktree_path : string;
  e_project_root : string;
  e_last_accessed_at : string;
  e_is_fork : bool;
  e_is_incognito : bool;
  e_parent_session : option string;
  e_claude_session_id : option string;
  e_codex_thread_id : option string;
  e_forge_root : string;
  e_checkout_root : string;
  e_relative_path : string;
  e_instance_id : option string }.

(** [index.sessions]. *)
Definition SessionIndex : Type := list (string * SessionIndexEntry).

(** [a or b] on strings. *)
Definition or_str (a b : string) : string := if String.eqb a "" then b else a.

(** [entry.root]. *)
Definition root (e : SessionIndexEntry) : string := or_str (e_forge_root e) (e_worktree_path e).

Definition opt_value (o : option string) : value := match o with Some s => VStr s | None => VNone end.

Definition entry_to_dict (e : SessionIndexEntry) : dict :=
  [("worktree_path", VStr (e_worktree_path e)); ("project_root", VStr (e_project_root e));
   ("last_accessed_at", VStr (e_last_accessed_at e)); ("is_fork", VBool (e_is_fork e));
   ("is_incognito", VBool (e_is_incognito e)); ("parent_session", opt_value (e_parent_session e));
   ("claude_session_id", opt_value (e_claude_session_id e));
   ("codex_thread_id", opt_value (e_codex_thread_id e)); ("forge_root", VStr (e_forge_root e));
   ("checkout_root", VStr (e_checkout_root e)); ("relative_path", VStr (e_relative_path e));
   ("instance_id", opt_value (e_instance_id e))].

Definition INDEX_VERSION : Z := 2.

(** [asdict(index)]. *)
Definition index_to_dict (i : SessionIndex) : dict :=
  [("version", VInt INDEX_VERSION); ("sessions", VDict (prod_map id (VDict ∘ entry_to_dict) <$> i))].

Definition set_instance_id (o : option string) (e : SessionIndexEntry) : SessionIndexEntry :=
  Build_SessionIndexEntry (e_worktree_path e) (e_project_root e) (e_last_accessed_at e) (e_is_fork e)
    (e_is_incognito e) (e_parent_session e) (e_claude_session_id e) (e_codex_thread_id e)
    (e_forge_root e) (e_checkout_root e) (e_relative_path e) o.

Definition set_claude_session_id (o : option string) (e : SessionIndexEntry) : SessionIndexEntry :=
  Build_SessionIndexEntry (e_worktree_path e) (e_project_root e) (e_last_accessed_at e) (e_is_fork e)
    (e_is_incognito e) (e_parent_session e) o (e_codex_thread_id e)
    (e_forge_root e) (e_checkout_root e) (e_relative_path e) (e_instance_id e).

Definition set_codex_thread_id (o : option string) (e : SessionIndexEntry) : SessionIndexEntry :=
  Build_SessionIndexEntry (e_worktree_path e) (e_project_root e) (e_last_accessed_at e) (e_is_fork e)
    (e_is_incognito e) (e_parent_session e) (e_claude_session_id e) o
    (e_forge_root e) (e_checkout_root e) (e_relative_path e) (e_instance_id e).

Definition set_last_accessed_at (s : string) (e : SessionIndexEntry) : SessionIndexEntry :=
  Build_SessionIndexEntry (e_worktree_path e) (e_project_root e) s (e_is_fork e)
    (e_is_incognito e) (e_parent_session e) (e_claude_session_id e) (e_codex_thread_id e)
    (e_forge_root e) (e_checkout_root e) (e_relative_path e) (e_instance_id e).

Section SessionIndexOps.
Context `{P : Platform}.

(** [dacite.from_dict(SessionIndex, ...)], the timestamp of an ISO string in microseconds
    ([None] when it raises), and the index's path. *)
Context (index_from_dict : dict -> res SessionIndex) (iso_to_timestamp : string -> option Z).
Context (index_path : string).

(** ** Reading and writing the index *)

Definition index_corrupted {A} (reason : string) : res A :=
  raise IndexCorruptedError ("index at '" +++ index_path +++ "': " +++ reason).

(** The check of one row; a row of schema 1 gets [instance_id: null]. *)
Definition check_row (version : Z) (p : string * value) : res (string * value) :=
  match p with
  | (key, VDict row) =>
      row ← (if version =? 1 then
               if dhas "instance_id" row then index_corrupted "schema v1 cannot contain instance_id"
               else Ok (dset "instance_id" VNone row)
             else if dhas "instance_id" row then Ok row
             else index_corrupted ("missing instance_id for '" +++ key +++ "'") : res dict);
      if bool_decide (dgetv "instance_id" row = VNone) || _valid_instance_id (dgetv "instance_id" row)
      then Ok (key, VDict row)
      else index_corrupted ("invalid instance_id for '" +++ key +++ "'")
  | p => Ok p
  end.

(** [entry_data.get("forge_root") or entry_data.get("worktree_path")]. *)
Definition row_root (row : dict) : value :=
  if truthy (dgetv "forge_root" row) then dgetv "forge_root" row else dgetv "worktree_path" row.

(** [_validate_key_shape], one entry. *)
Definition check_key (p : string * value) : res unit :=
  match p with
  | (key, VDict row) =>
      match row_root row with
      | VStr root =>
          if String.eqb root "" then
            index_corrupted ("invalid session index entry for '" +++ key +++ "': missing forge_root/worktree_path")
          else if String.eqb key (make_scoped_key (session_name_from_key key) root) then Ok tt
          else index_corrupted ("unsupported pre-OSS session index shape: expected scoped keys; " +++
                                "delete ~/.forge/sessions/index.json and rerun Forge")
      | _ => index_corrupted ("invalid session index entry for '" +++ key +++ "': missing forge_root/worktree_path")
      end
  | _ => Ok tt
  end.

Definition _validate_key_shape (data : dict) : res unit :=
  match dget "sessions" data with
  | Some (VDict sessions) => _ ← mapM_res check_key sessions; Ok tt
  | _ => Ok tt
  end.

(** The version of an index that can be read: [type(version) is int] and 1 or 2. *)
Definition index_version (data : dict) : res Z :=
  match dget "version" data with
  | None => index_corrupted "missing version field"
  | Some (VInt 1) => Ok 1
  | Some (VInt 2) => Ok 2
  | Some v => index_corrupted ("incompatible version " +++ py_str v +++
                " (this Forge expects 1 or 2). Upgrade Forge or restore this index from a compatible backup.")
  end.

(** [IndexStore.read]. *)
Definition read_index (f : option content) : res SessionIndex :=
  match f with
  | None => Ok []
  | Some (CBadJson e) => index_corrupted ("invalid JSON: " +++ e)
  | Some (CUnreadable e) =>
      raise IndexUnreadableError ("index at '" +++ index_path +++ "': read error: " +++ e)
  | Some (CNotUtf8 e) => raise UnicodeDecodeError e
  | Some (CJson (VDict data)) =>
      version ← index_version data;
      data ← (match dget "sessions" data with
              | Some (VDict sessions) =>
                  rows ← mapM_res (check_row version) sessions; Ok (dset "sessions" (VDict rows) data)
              | _ => Ok data
              end : res dict);
      let data := dset "version" (VInt INDEX_VERSION) data in
      _ ← _validate_key_shape data;
      match index_from_dict data with
      | Ok i => Ok i
      | Err e =>
          if bool_decide (exn_cls e ∈ [DaciteError; TypeError; KeyError])
          then index_corrupted ("deserialization error: " +++ exn_msg e) else Err e
      end
  | Some (CJson _) => index_corrupted "expected JSON object"
  end.

Definition write_index (i : SessionIndex) : M world unit :=
  commit (set_index (CJson (VDict (index_to_dict i)))).

(** [self.read()] under the lock. *)
Definition read_locked : M world SessionIndex := w ← get; lift (read_index (index_file w)).

Definition index_lock {A} (body : M world A) : M world A := with_lock id body.

(** ** Listing *)

(** [_session_recency_sort_key]. *)
Definition recency_key (p : string * SessionIndexEntry) : Z * Z * string :=
  match iso_to_timestamp (e_last_accessed_at p.2) with
  | Some t => (0, - t, p.1)
  | None => (1, 0, p.1)
  end.

(** Comparison of the key tuples. *)
Definition key_leb (x y : Z * Z * string) : bool :=
  let '(a, b, s) := x in let '(c, d, t) := y in
  (a <? c) || ((a =? c) && ((b <? d) || ((b =? d) && str_le s t))).

Fixpoint insert_recent (x : string * SessionIndexEntry) (l : list (string * SessionIndexEntry)) :=
  match l with
  | [] => [x]
  | y :: l => if key_leb (recency_key x) (recency_key y) then x :: y :: l else y :: insert_recent x l
  end.

(** [sessions.sort(key=_session_recency_sort_key)]. *)
Definition sort_recent (l : list (string * SessionIndexEntry)) := foldr insert_recent [] l.

Record list_options := {
  include_incognito : bool;
  project_root_filter : option string;
  forge_root_filter : option string }.

Definition selected (o : list_options) (e : SessionIndexEntry) : bool :=
  (include_incognito o || negb (e_is_incognito e)) &&
  match project_root_filter o with Some r => String.eqb (e_project_root e) r | None => true end &&
  match forge_root_filter o with Some r => String.eqb (e_forge_root e) r | None => true end.

(** The rows under their display names, filtered and sorted. *)
Definition listing (o : list_options) (i : SessionIndex) : list (string * SessionIndexEntry) :=
  sort_recent (filter (fun p => selected o p.2 = true) (prod_map session_name_from_key id <$> i)).

(** [_manifest_exists_for_row]. *)
Definition _manifest_exists_for_row (w : world) (key : string) (e : SessionIndexEntry) : bool :=
  exists_ w (root e) (session_name_from_key key).

(** No manifest and no unfinished cleanup. *)
Definition is_stale (w : world) (p : string * SessionIndexEntry) : res bool :=
  if _manifest_exists_for_row w p.1 p.2 then Ok false
  else pending ← _cleanup_pending w (root p.2) (session_name_from_key p.1); Ok (negb pending).

(** The prune under the second lock: a row that was stale and still is goes. *)
Definition prune_row (w : world) (latest : SessionIndex) (key : string) : res SessionIndex :=
  match dget key latest with
  | None => Ok latest
  | Some e => stale ← is_stale w (key, e); Ok (if stale : bool then ddel key latest else latest)
  end.

Definition stale_keys (w : world) (i : SessionIndex) : res (list string) :=
  foldM_res (fun acc p => stale ← is_stale w p; Ok (if stale : bool then acc ++ [p.1] else acc)) [] i.

(** [list_sessions]. [interfere] is what other processes do between the lock sections. *)
Definition list_sessions (o : list_options) (interfere1 interfere2 : world -> world)
  : M world (list (string * SessionIndexEntry)) :=
  index ← index_lock read_locked;
  _ ← others interfere1;
  w ← get;
  stale ← lift (stale_keys w index);
  index ← (if bool_decide (stale = []) then mret index
           else
             _ ← others interfere2;
             index_lock (
               latest ← read_locked;
               w ← get;
               pruned ← lift (foldM_res (prune_row w) latest stale);
               _ ← (if (length pruned <? length latest)%nat then write_index pruned else mret tt);
               mret pruned));
  mret (listing o index).

(** [peek_sessions]. *)
Definition peek_sessions (o : list_options) : M world (list (string * SessionIndexEntry)) :=
  index ← index_lock read_locked;
  w ← get;
  stale ← lift (stale_keys w index);
  mret (listing o (filter (fun p => p.1 ∉ stale) index)).

(** ** One session *)

Definition session_not_found {A} (name : string) : res A :=
  raise SessionNotFoundError ("session '" +++ name +++ "' not found").

(** The key and row of a session, or [SessionNotFoundError]. *)
Definition find_row (i : SessionIndex) (name : string) (forge_root : option string)
  : res (string * SessionIndexEntry) :=
  key ← resolve_key_strict root i name forge_root;
  match key with
  | Some key => match dget key i with Some e => Ok (key, e) | None => session_not_found name end
  | None => session_not_found name
  end.

(** [store_root.exists() and manifest_path.is_file()]. *)
Definition on_disk (w : world) (e : SessionIndexEntry) (name : string) : bool :=
  bool_decide (real (root e) ∈ roots w) && exists_ w (root e) name.

(** [get_session]. *)
Definition get_session (name : string) (forge_root : option string) (interfere1 interfere2 : world -> world)
  : M world SessionIndexEntry :=
  _ ← lift (validate_name name);
  p ← index_lock (index ← read_locked; lift (find_row index name forge_root));
  _ ← others interfere1;
  w ← get;
  pending ← (if on_disk w p.2 name then mret true else lift (_cleanup_pending w (root p.2) name));
  if pending : bool then mret p.2
  else
    _ ← others interfere2;
    index_lock (
      latest ← read_locked;
      q ← lift (find_row latest name forge_root);
      w ← get;
      pending ← lift (_cleanup_pending w (root q.2) name);
      if pending : bool then mret q.2
      else if negb (on_disk w q.2 name) then
        _ ← write_index (ddel q.1 latest);
        lift (session_not_found name)
      else mret q.2).

(** [peek_session]. *)
Definition peek_session (name : string) (forge_root : option string) : M world (option SessionIndexEntry) :=
  _ ← lift (validate_name name);
  p ← index_lock (
    index ← read_locked;
    key ← lift (resolve_key_strict root index name forge_root);
    mret (key ≫= fun k => dget k index));
  match p with
  | None => mret None
  | Some e =>
      w ← get;
      live ← (if on_disk w e name then mret true else lift (_cleanup_pending w (root e) name));
      mret (if live : bool then Some e else None)
  end.

(** [session_exists] and [live_session_exists]. *)
Definition row_exists (test : world -> string -> SessionIndexEntry -> bool) (name : string) (forge_root : option string)
  : M world bool :=
  match validate_name name with
  | Err e => if bool_decide (exn_cls e = InvalidSessionNameError) then mret false else throw e
  | Ok _ =>
      index_lock (
        index ← read_locked;
        key ← lift (resolve_key_strict root index name forge_root);
        w ← get;
        mret match key ≫= (fun k => (k,.) <$> dget k index) with
             | Some (k, e) => test w k e
             | None => false
             end)
  end.

Definition session_exists := row_exists (fun _ _ _ => true).
Definition live_session_exists := row_exists _manifest_exists_for_row.

(** [find_session_by_uuid]. *)
Definition find_session_by_uuid (session_uuid : string) : M world (option (string * string)) :=
  index_lock (
    index ← read_locked;
    mret ((fun p => (session_name_from_key p.1, root p.2)) <$>
          List.find (fun p => bool_decide (e_claude_session_id p.2 = Some session_uuid)) index)).

(** ** Creation *)

Definition _build_entry (state : SessionState) (worktree_path project_root forge_root : string)
    (checkout_root relative_path : option string) (now : string) : SessionIndexEntry :=
  Build_SessionIndexEntry worktree_path project_root now (st_is_fork state) (st_is_incognito state)
    (st_parent_session state) (st_claude_session_id state) (st_codex_thread_id state) forge_root
    (or_str (default "" checkout_root) worktree_path) (or_str (default "" relative_path) ".") None.

(** [wanted and held == wanted]. *)
Definition holds (wanted held : option string) : bool :=
  match wanted with
  | Some s => negb (String.eqb s "") && bool_decide (held = Some s)
  | None => false
  end.

(** [_require_conversation_unbound]. *)
Fixpoint _require_conversation_unbound (i : SessionIndex) (claude codex : option string) : res unit :=
  match i with
  | [] => Ok tt
  | (key, e) :: i =>
      let taken wanted := raise UuidAlreadyBoundError
        ("conversation '" +++ opt_str wanted +++ "' is already bound to session '" +++ session_name_from_key key +++ "'") in
      if holds claude (e_claude_session_id e) then taken claude
      else if holds codex (e_codex_thread_id e) then taken codex
      else _require_conversation_unbound i claude codex
  end.

(** [_compensate_locked]: a failing write is only logged. *)
Definition _compensate_locked (i : SessionIndex) (key : string) : M world unit :=
  _ ← attempt (write_index (ddel key i)); mret tt.

Record create_args := {
  ca_project_root : string;
  ca_checkout_root : option string;
  ca_forge_root : option string;
  ca_relative_path : option string;
  ca_require_uuid_unbound : bool }.

Definition worktree_of (state : SessionState) (a : create_args) : string :=
  default (ca_project_root a) (st_worktree state).

(** [forge_root or state.forge_root or worktree_path]. *)
Definition effective_forge_root (state : SessionState) (a : create_args) : string :=
  or_str (default "" (ca_forge_root a)) (or_str (default "" (st_forge_root state)) (worktree_of state a)).

(** [create_session_txn]. *)
Definition create_session_txn (state : SessionState) (a : create_args) (now : string) (write_manifest : M world unit)
  : M world SessionIndexEntry :=
  let name := st_name state in
  _ ← lift (validate_name name);
  let forge_root := effective_forge_root state a in
  index_lock (
    index ← read_locked;
    let key := make_scoped_key name forge_root in
    w ← get;
    pending ← lift (_cleanup_pending w forge_root name);
    if pending : bool then
      path ← lift (cleanup_state_path forge_root name);
      lift (raise ValueError
        ("Session '" +++ name +++ "' has unfinished cleanup; rerun its original delete or purge command " +++
         "before reusing this name. Retry inventory: " +++ path))
    else
    if match dget key index with Some e => _manifest_exists_for_row w key e | None => false end then
      lift (raise SessionExistsError ("session '" +++ name +++ "' already exists"))
    else
    let index := ddel key index in
    _ ← (if ca_require_uuid_unbound a
         then lift (_require_conversation_unbound index (st_claude_session_id state) (st_codex_thread_id state))
         else mret tt);
    let entry := _build_entry state (worktree_of state a) (ca_project_root a) forge_root
                   (ca_checkout_root a) (ca_relative_path a) now in
    let manifest_existed_before := exists_ w forge_root name in
    _ ← write_index (dset key entry index);
    r ← attempt (
      _ ← write_manifest;
      w ← get;
      token ← lift (review_identity w forge_root name);
      let entry := set_instance_id token entry in
      _ ← write_index (dset key entry index);
      mret entry);
    match r with
    | Ok entry => mret entry
    | Err e =>
        w ← get;
        _ ← (if negb manifest_existed_before && exists_ w forge_root name then mret tt
             else _compensate_locked (dset key entry index) key);
        throw e
    end).

(** The callback of [SessionManager._publish_created_session]. *)
Definition publish_manifest (forge_root : string) (state : SessionState) (token : string) : M world unit :=
  _ ← create_exclusive forge_root (st_name state) token state;
  w ← get;
  _ ← lift (review_identity w forge_root (st_name state));
  mret tt.

(** ** Updates *)

(** Set the row of a session, if there is one. *)
Definition set_row (i : SessionIndex) (key : string) (f : SessionIndexEntry -> SessionIndexEntry) : SessionIndex :=
  match dget key i with Some e => dset key (f e) i | None => i end.

(** [update_session]; an empty timestamp means now. *)
Definition update_session (name : string) (last_accessed_at forge_root : option string) (now : string)
  : M world SessionIndexEntry :=
  _ ← lift (validate_name name);
  index_lock (
    index ← read_locked;
    p ← lift (find_row index name forge_root);
    let e := set_last_accessed_at (or_str (default "" last_accessed_at) now) p.2 in
    _ ← write_index (dset p.1 e index);
    mret e).

(** [try: body except Exception: return fallback]. *)
Definition best_effort {A} (fallback : A) (body : M world A) : M world A :=
  r ← attempt body;
  match r with
  | Ok a => mret a
  | Err e => if is_exception (exn_cls e) then mret fallback else throw e
  end.

(** [update_uuid]. *)
Definition update_uuid (name claude_session_id : string) (forge_root : option string) : M world unit :=
  best_effort tt (index_lock (
    index ← read_locked;
    match resolve_key_best_effort index name forge_root with
    | None => mret tt
    | Some key => write_index (set_row index key (set_claude_session_id (Some claude_session_id)))
    end)).

(** A row's session is the expected instance: the manifest is there, its owner file says so
    and no cleanup is pending. [other_root] is the root the inventory is looked up under. *)
Definition owned (w : world) (e : SessionIndexEntry) (name expected : string) : res bool :=
  pending ← _cleanup_pending w (real (root e)) name;
  if pending : bool then Ok false
  else if negb (exists_ w (root e) name) then Ok false
  else token ← review_identity w (root e) name; Ok (bool_decide (token = Some expected)).

(** [update_codex_thread]. *)
Definition update_codex_thread (name thread_id : string) (forge_root : option string) (expected_instance_id : string)
  : M world bool :=
  _ ← lift (_require_instance_id expected_instance_id);
  best_effort false (index_lock (
    index ← read_locked;
    match resolve_key_best_effort index name forge_root ≫= (fun k => (k,.) <$> dget k index) with
    | None => mret false
    | Some (key, e) =>
        if negb (bool_decide (e_instance_id e = Some expected_instance_id)) then mret false
        else
          w ← get;
          ok ← lift (owned w e name expected_instance_id);
          if ok : bool then
            _ ← write_index (dset key (set_codex_thread_id (Some thread_id) e) index);
            mret true
          else mret false
    end)).

(** [sync_uuid_from_state]. *)
Definition sync_uuid_from_state (name : string) (state : SessionState) : M world SessionIndexEntry :=
  index_lock (
    index ← read_locked;
    match resolve_key_best_effort index name (st_forge_root state) ≫= (fun k => (k,.) <$> dget k index) with
    | None => lift (session_not_found name)
    | Some (key, e) =>
        let e := match st_claude_session_id state with
                 | Some u => set_claude_session_id (Some u) e
                 | None => e
                 end in
        _ ← write_index (dset key e index);
        mret e
    end).

(** [migrate_session_identity]. *)
Definition migrate_session_identity (name : string) (forge_root expected_manifest_sha256 : option string)
    (require_ownerless : bool) (fresh : string) : M world string :=
  _ ← lift (validate_name name);
  index_lock (
    index ← read_locked;
    p ← lift (find_row index name forge_root);
    if require_ownerless && bool_decide (e_instance_id p.2 <> None) then
      lift (raise ValueError "Session instance changed since preview; expected an ownerless session")
    else
      token ← migrate_instance_identity (root p.2) name fresh expected_manifest_sha256 (e_instance_id p.2)
                require_ownerless;
      if bool_decide (e_instance_id p.2 = Some token) then mret token
      else
        _ ← write_index (dset p.1 (set_instance_id (Some token) p.2) index);
        mret token).

(** ** Fenced output and deletion *)

(** The row of [name] under [forge_root], when it is the expected instance. *)
Definition instance_row (i : SessionIndex) (name : string) (forge_root : option string) (expected : string)
  : res (option (string * SessionIndexEntry)) :=
  key ← resolve_key_strict root i name forge_root;
  Ok match key ≫= (fun k => (k,.) <$> dget k i) with
     | Some (k, e) => if bool_decide (e_instance_id e = Some expected) then Some (k, e) else None
     | None => None
     end.

(** The loop over [required_instances]: every source is still the captured instance. *)
Fixpoint all_owned (w : world) (i : SessionIndex) (required : list (string * string * string)) : res bool :=
  match required with
  | [] => Ok true
  | (source_root, source_name, source_token) :: required =>
      _ ← _require_instance_id source_token;
      row ← instance_row i source_name (Some source_root) source_token;
      match row with
      | None => Ok false
      | Some (_, e) =>
          ok ← owned w e source_name source_token;
          if ok : bool then all_owned w i required else Ok false
      end
  end.

(** [run_session_instance_txn]. *)
Definition run_session_instance_txn (name forge_root expected_instance_id : string)
    (required : list (string * string * string)) (callback : M world unit) : M world bool :=
  _ ← lift (validate_name name);
  _ ← lift (_require_instance_id expected_instance_id);
  index_lock (
    index ← read_locked;
    w ← get;
    row ← lift (instance_row index name (Some forge_root) expected_instance_id);
    match row with
    | None => mret false
    | Some (_, e) =>
        ok ← lift (owned w e name expected_instance_id);
        if negb ok then mret false
        else
          ok ← lift (all_owned w index required);
          if negb ok then mret false else _ ← callback; mret true
    end).

(** [delete_session_txn]. The manifest lock is taken only while the directory is there. *)
Definition delete_session_txn (name : string) (forge_root : option string) (expected_instance_id : string)
    (delete_manifest : M world unit) : M world bool :=
  _ ← lift (validate_name name);
  _ ← lift (_require_instance_id expected_instance_id);
  index_lock (
    index ← read_locked;
    w ← get;
    row ← lift (instance_row index name forge_root expected_instance_id);
    match row with
    | None => mret false
    | Some (key, e) =>
        let guarded : M world bool :=
          w ← get;
          mine ← (if exists_ w (root e) name || bool_decide (owner_at w (root e) name <> None)
                  then lift (token ← review_identity w (root e) name;
                             Ok (bool_decide (token = Some expected_instance_id)))
                  else mret true);
          if negb mine then mret false else _ ← delete_manifest; mret true in
        deleted ← match dirs w !! dir_key (root e) name with
                  | Some _ => manifest_lock (root e) name guarded
                  | None => guarded
                  end;
        if negb deleted then mret false
        else
          _ ← write_index (ddel key index);
          mret true
    end).

(** ** What Forge writes, Forge reads *)

(** dacite gives back what [asdict] encoded. *)
Hypothesis index_decodes : forall i, index_from_dict (index_to_dict i) = Ok i.

Definition token_ok (o : option string) : Prop := match o with Some t => is_token t = true | None => True end.

(** A row under the key of its own root and name, with a well-formed instance. *)
Definition row_ok (p : string * SessionIndexEntry) : Prop :=
  p.1 = make_scoped_key (session_name_from_key p.1) (root p.2) /\ root p.2 <> "" /\ token_ok (e_instance_id p.2).

Definition wf_index (i : SessionIndex) : Prop := NoDup (dkeys i) /\ Forall row_ok i.

(** The index file holds [i]: Forge wrote it, or there is none yet. *)
Definition indexed (w : world) (i : SessionIndex) : Prop :=
  wf_index i /\ (index_file w = Some (CJson (VDict (index_to_dict i))) \/ (index_file w = None /\ i = [])).

Lemma row_root_entry e : row_root (entry_to_dict e) = VStr (root e).
Proof.
  unfold row_root, root, or_str. simpl. unfold dgetv, dget_default. simpl.
  destruct (String.eqb_spec (e_forge_root e) "") as [->|Hne]; [done|]. destruct (e_forge_root e); [done|]. done.
Qed.

Lemma check_row_ok p : row_ok p -> check_row INDEX_VERSION (prod_map id (VDict ∘ entry_to_dict) p) = Ok (prod_map id (VDict ∘ entry_to_dict) p).
Proof.
  destruct p as [key e]. intros (_ & _ & Ht). simpl. unfold dgetv, dget_default. simpl.
  cbn [snd] in Ht. destruct (e_instance_id e) as [t|]; [|done].
  cbn [opt_value _valid_instance_id token_ok] in *. by rewrite Ht, orb_true_r.
Qed.

Lemma check_key_ok p : row_ok p -> check_key (prod_map id (VDict ∘ entry_to_dict) p) = Ok tt.
Proof.
  destruct p as [key e]. intros (Hkey & Hroot & _). cbn [prod_map check_key id compose]. rewrite row_root_entry.
  cbn [fst snd] in *. destruct (String.eqb_spec (root e) ""); [done|]. rewrite <- Hkey. by rewrite String.eqb_refl.
Qed.

Lemma mapM_res_id {A B} (f : A -> res B) (g : A -> B) l :
  Forall (fun x => f x = Ok (g x)) l -> mapM_res f l = Ok (g <$> l).
Proof. induction 1 as [|x l Hx _ IH]; simpl; [done|]. by rewrite Hx, res_bind_ok, IH. Qed.

Lemma read_indexed w i : indexed w i -> read_index (index_file w) = Ok i.
Proof.
  intros [[_ Hrows] [->|[-> ->]]]; [|done]. unfold read_index.
  replace (index_version (index_to_dict i)) with (Ok INDEX_VERSION : res Z) by done. rewrite res_bind_ok.
  change (dget "sessions" (index_to_dict i)) with (Some (VDict (prod_map id (VDict ∘ entry_to_dict) <$> i))).
  cbv iota beta. rewrite (mapM_res_id _ id), list_fmap_id.
  2: { apply Forall_fmap. eapply Forall_impl; [done|]. intros p Hp. by apply check_row_ok. }
  rewrite !res_bind_ok. cbv zeta.
  replace (dset "version" _ _) with (index_to_dict i) by done.
  unfold _validate_key_shape.
  change (dget "sessions" (index_to_dict i)) with (Some (VDict (prod_map id (VDict ∘ entry_to_dict) <$> i))).
  cbv iota beta. rewrite (mapM_res_id _ (fun _ => tt)), !res_bind_ok, index_decodes; [done|].
  apply Forall_fmap. eapply Forall_impl; [done|]. intros p Hp. by apply check_key_ok.
Qed.

Lemma indexed_write w i : wf_index i -> indexed (set_index (CJson (VDict (index_to_dict i))) w) i.
Proof. intros H. split; [done|by left]. Qed.

Lemma indexed_congr w w' i : index_file w' = index_file w -> indexed w i -> indexed w' i.
Proof. intros H [Hwf Hi]. split; [done|]. by rewrite H. Qed.

Lemma wp_read_locked {b w i} {Q : outcome SessionIndex -> world -> Prop} :
  indexed w i -> Q (Ret i) w -> wp b read_locked Q w.
Proof. intros Hi HQ. unfold read_locked. do 2 wp_step. rewrite (read_indexed _ _ Hi). by wp_step. Qed.

(** ** Well-formed indexes *)

Lemma wf_index_dget i : wf_index i <-> NoDup (dkeys i) /\ forall k e, dget k i = Some e -> row_ok (k, e).
Proof.
  unfold wf_index. split; intros [Hnd H]; (split; [done|]).
  - intros k e Hke%dget_elem_of. by apply (proj1 (Forall_forall _ _) H).
  - apply Forall_forall. intros [k e] Hin. apply H. by apply elem_of_dget.
Qed.

Lemma wf_index_dset k e i : wf_index i -> row_ok (k, e) -> wf_index (dset k e i).
Proof.
  rewrite !wf_index_dget. intros [Hnd Hi] He. split; [by apply NoDup_dset|]. intros k' e'. rewrite dget_dset.
  case_decide; [intros [= <-]; by subst|apply Hi].
Qed.

Lemma wf_index_ddel k i : wf_index i -> wf_index (ddel k i).
Proof.
  rewrite !wf_index_dget. intros [Hnd Hi]. split; [by apply NoDup_ddel|]. intros k' e'. rewrite dget_ddel by done.
  case_decide; [done|apply Hi].
Qed.

Lemma wf_row i k e : wf_index i -> dget k i = Some e -> row_ok (k, e).
Proof. rewrite wf_index_dget. intros [_ H]. apply H. Qed.

Lemma wf_NoDup i : wf_index i -> NoDup (dkeys i).
Proof. by intros []. Qed.

(** ** Creation *)

Section Create.
Context (state : SessionState) (a : create_args) (now token : string).
Let r := effective_forge_root state a.
Let name := st_name state.
Let key := make_scoped_key name r.
Context (w : world) (i : SessionIndex).
Hypothesis Hi : indexed w i.
Hypothesis Hr : r <> "".
Hypothesis Htoken : is_token token = true.

(** No other root of the index has the same key. *)
Hypothesis no_collision : forall e, dget key i = Some e -> real (root e) = real r.

Let entry := _build_entry state (worktree_of state a) (ca_project_root a) r (ca_checkout_root a)
               (ca_relative_path a) now.

Lemma root_entry o : root (set_instance_id o entry) = r.
Proof. unfold root, or_str. simpl. by destruct (String.eqb_spec r ""). Qed.

Lemma entry_ok o : validate_name name = Ok tt -> token_ok o -> row_ok (key, set_instance_id o entry).
Proof. intros Hv Ho. split_and!; cbn [fst snd]; rewrite ?root_entry; [|done..]. unfold key. by rewrite name_of_key. Qed.

(** What is unchanged outside the session. *)
Record others_kept (i' : SessionIndex) (w' : world) : Prop := {
  ok_indexed : indexed w' i';
  ok_rows k : k <> key -> dget k i' = dget k i;
  ok_dirs d : d <> dir_key r name -> dirs w' !! d = dirs w !! d;
  ok_files : exists_ w r name = true -> same_files r name w w';
  ok_cleanup : cleanup w' = cleanup w }.

(** The conversations are free, if the caller asked for the check. *)
Definition unbound : Prop :=
  ca_require_uuid_unbound a = true ->
  _require_conversation_unbound (ddel key i) (st_claude_session_id state) (st_codex_thread_id state) = Ok tt.

(** The session's row is this creation's, without an instance yet or with the new one. *)
Definition own_row (i' : SessionIndex) : Prop :=
  unbound /\ exists o, (o = None \/ o = Some token) /\ dget key i' = Some (set_instance_id o entry).

(** After any number of steps of the creation: other sessions are as before; the session's
    row is the old one, this creation's, or gone; a session that existed has its files and
    its row; and there is no new manifest without this creation's row. *)
Definition create_safe (o : outcome SessionIndexEntry) (w' : world) : Prop :=
  exists i', others_kept i' w' /\
    (dget key i' = dget key i \/ dget key i' = None \/ own_row i') /\
    (exists_ w r name = true -> is_Some (dget key i) -> dget key i' = dget key i) /\
    (exists_ w' r name = true -> exists_ w r name = true \/ own_row i') /\
    match o with
    | Ret e => exists_ w r name = false /\ dget key i' = Some e /\ e = set_instance_id (Some token) entry /\
               created_files r name token state w' /\ _cleanup_pending w' r name = Ok false
    | _ => True
    end.

Lemma create_safe_start o : (forall e, o <> Ret e) -> create_safe o w.
Proof. intros Ho. exists i. split_and!; try done; [by left|by left|]. destruct o; try done. by destruct (Ho a0). Qed.

(** The store while the row is published and the manifest is being written. *)
Definition row_published (w' : world) : Prop :=
  exists i', others_kept i' w' /\ own_row i'.

Lemma create_safe_published o w' :
  row_published w' -> (exists_ w r name = true -> dget key i = None) -> (forall e, o <> Ret e) -> create_safe o w'.
Proof.
  intros (i' & Hk & He) Hfree Ho. exists i'. split_and!; try done; [by right; right| |by right|].
  - intros Hex [e Hke]. by rewrite (Hfree Hex) in Hke.
  - destruct o; try done. by destruct (Ho a0).
Qed.

(** Writing the index with the session's row, or without it. *)
Lemma others_kept_write w1 i1 i2 :
  others_kept i1 w1 -> wf_index i2 -> (forall k, k <> key -> dget k i2 = dget k i) ->
  others_kept i2 (set_index (CJson (VDict (index_to_dict i2))) w1).
Proof. intros [] Hwf Hi2. split; try done. by apply indexed_write. Qed.

Lemma others_kept_dir w1 w2 i1 :
  others_kept i1 w1 -> only_dir (dir_key r name) w1 w2 -> (exists_ w r name = true -> same_files r name w1 w2) ->
  others_kept i1 w2.
Proof.
  intros [Hidx Hrows Hdirs Hfiles Hc] [Hi1 Hd _ Hc1] Hs. split; try done; [| | |congruence].
  - by eapply indexed_congr.
  - intros d Hne. by rewrite Hd, Hdirs.
  - intros He. destruct (Hfiles He), (Hs He). split; congruence.
Qed.

Lemma publish_manifest_spec w1 :
  wp true (publish_manifest r state token) (fun o w' =>
    only_dir (dir_key r name) w1 w' /\
    (exists_ w1 r name = true -> same_files r name w1 w' /\ o <> Ret tt) /\
    (o = Ret tt -> created_files r name token state w')) w1.
Proof.
  unfold publish_manifest. wp_step. eapply wp_mono; [apply create_exclusive_spec|].
  intros o w' (Ho & Hold & _ & Hret). assert (Hrest : forall o, o <> Ret tt -> only_dir (dir_key r name) w1 w' /\
    (exists_ w1 r name = true -> same_files r name w1 w' /\ o <> Ret tt) /\ (o = Ret tt -> created_files r name token state w')).
  { intros o' Hne. split_and!; try done. intros He. by destruct (Hold He). }
  destruct o as [[]|e|]; [|by apply Hrest..].
  do 3 wp_step. destruct (Hret eq_refl) as (m & Hn & Hm & Hmw & Hown).
  rewrite (review_identity_written _ _ _ token) by done. do 2 wp_step. split_and!; [done|intros He|].
  - by destruct (Hold He).
  - intros _. by exists m.
Qed.

Let i1 := dset key entry (ddel key i).
Let i2 := dset key (set_instance_id (Some token) entry) (ddel key i).

Lemma wf_published o : validate_name name = Ok tt -> token_ok o -> wf_index (dset key (set_instance_id o entry) (ddel key i)).
Proof. intros Hv Ho. apply wf_index_dset; [apply wf_index_ddel, Hi|by apply entry_ok]. Qed.

Lemma rows_published e k : k <> key -> dget k (dset key e (ddel key i)) = dget k i.
Proof. intros Hk. by rewrite dget_dset_ne, dget_ddel_ne. Qed.

Lemma publish_block w1 :
  validate_name name = Ok tt -> _cleanup_pending w r name = Ok false -> unbound ->
  others_kept i1 w1 -> exists_ w1 r name = exists_ w r name ->
  wp true (_ ← publish_manifest r state token; w ← get; token ← lift (review_identity w r name);
           _ ← write_index (dset key (set_instance_id token entry) (ddel key i));
           mret (set_instance_id token entry))
    (fun o w' => match o with Ret e => create_safe o w' | _ => row_published w' end) w1.
Proof.
  intros Hv Hp Hu Hk Hex. wp_step. eapply wp_mono; [apply publish_manifest_spec|].
  intros o w' (Ho & Hold & Hret). rewrite Hex in Hold.
  assert (others_kept i1 w') as Hk' by (apply (others_kept_dir w1); [done..|]; intros He; by apply Hold).
  assert (row_published w') as Hpub.
  { exists i1. split; [done|]. split; [done|]. exists None. split; [by left|apply dget_dset_eq]. }
  destruct o as [[]|e|]; [|done..]. destruct (Hret eq_refl) as (m & Hn & Hm & Hmw & Hown).
  do 3 wp_step. rewrite (review_identity_written _ _ _ token) by done. do 2 wp_step.
  assert (others_kept i2 (set_index (CJson (VDict (index_to_dict i2))) w')) as Hk2.
  { apply (others_kept_write w' i1); [done|by apply wf_published|apply rows_published]. }
  assert (row_published (set_index (CJson (VDict (index_to_dict i2))) w')) as Hp2.
  { exists i2. split; [done|]. split; [done|]. exists (Some token). split; [by right|apply dget_dset_eq]. }
  apply wp_commit; [|wp_faults; done]. wp_step.
  assert (own_row i2) by (split; [done|]; exists (Some token); split; [by right|apply dget_dset_eq]).
  exists i2. split_and!; try done; [by right; right| |by right|..].
  - intros He. by destruct (Hold He).
  - destruct (exists_ w r name); [|done]. by destruct (Hold eq_refl).
  - apply dget_dset_eq.
  - by exists m.
  - unfold _cleanup_pending. simpl. by rewrite (ok_cleanup _ _ Hk').
Qed.

Let i3 := ddel key i1.

Lemma compensated w2 e :
  validate_name name = Ok tt -> row_published w2 -> (exists_ w r name = true -> dget key i = None) ->
  negb (exists_ w r name) && exists_ w2 r name = false ->
  create_safe (Raise e) (set_index (CJson (VDict (index_to_dict i3))) w2).
Proof.
  intros Hv (i' & Hk & _) Hfree Hex.
  assert (wf_index i1) as Hwf by (apply (wf_published None); done).
  assert (forall k, dget k i3 = if decide (k = key) then None else dget k i) as Hget.
  { intros k. unfold i3. rewrite dget_ddel by apply Hwf. case_decide; [done|]. by apply rows_published. }
  exists i3. split; [|split_and!; try done; [by right; left; rewrite Hget, decide_True|..]].
  - apply (others_kept_write w2 i'); [done|by apply wf_index_ddel|]. intros k Hne. by rewrite Hget, decide_False.
  - intros He [e0 Hke]. by rewrite (Hfree He) in Hke.
  - intros He. change (exists_ w2 r name = true) in He. rewrite He, andb_true_r in Hex.
    left. by apply negb_false_iff.
Qed.

(** The row's manifest is the session's. *)
Lemma row_test :
  validate_name name = Ok tt ->
  match dget key i with Some e => _manifest_exists_for_row w key e | None => false end =
  dhas key i && exists_ w r name.
Proof.
  intros Hv. unfold dhas. destruct (dget key i) as [e|] eqn:Hke; [|done]. unfold _manifest_exists_for_row, key.
  rewrite name_of_key by done. unfold exists_, manifest_at, dir_key. by rewrite (no_collision e).
Qed.

Lemma create_session_safe :
  wp true (create_session_txn state a now (publish_manifest r state token)) create_safe w.
Proof.
  unfold create_session_txn. fold name r. wp_step. apply wp_lift; [intros [] Hv|intros e _; by apply create_safe_start].
  unfold index_lock. apply wp_with_lock; [|wp_faults; by apply create_safe_start].
  set (Q := fun (o : outcome SessionIndexEntry) w' => create_safe o w' /\ _).
  assert (forall o w', create_safe o w' -> Q o w') as HQ.
  { intros o w' Ho. split; [done|]. wp_faults; destruct Ho as (i' & Hk & H0 & H1 & H2 & _); by exists i'. }
  assert (forall e, Q (Raise e) w) as Hstart by (intros e; by apply HQ, create_safe_start).
  change (id w) with w. wp_step. apply (wp_read_locked Hi). fold key. do 2 wp_step. wp_step.
  apply wp_lift; [intros [] Hp|intros e _; apply Hstart].
  { wp_step. apply wp_lift; [intros path _|intros e _; apply Hstart]. wp_step. apply Hstart. }
  rewrite row_test by done. destruct (dhas key i && exists_ w r name) eqn:Hexists; [wp_step; apply Hstart|].
  assert (exists_ w r name = true -> dget key i = None) as Hfree.
  { intros He. rewrite He, andb_true_r in Hexists. by apply dhas_false. }
  fold entry. wp_step.
  eapply wp_mono with (P := fun o w' => w' = w /\ match o with Ret _ => unbound | Raise _ => True | Killed => False end).
  { unfold unbound. destruct (ca_require_uuid_unbound a); [apply wp_lift; [by intros []|done]|by wp_step]. }
  intros o ? [-> Ho]. destruct o as [[]|e|]; [|apply Hstart|done]. wp_step.
  assert (others_kept i1 (set_index (CJson (VDict (index_to_dict i1))) w)) as Hk1.
  { apply (others_kept_write w i); [done|by apply (wf_published None)|apply rows_published]. }
  assert (row_published (set_index (CJson (VDict (index_to_dict i1))) w)) as Hp1.
  { exists i1. split; [done|]. split; [done|]. exists None. split; [by left|apply dget_dset_eq]. }
  apply wp_commit; [|wp_faults; first [apply Hstart | apply HQ; by apply create_safe_start | apply HQ; by apply create_safe_published]].
  wp_step. wp_step. eapply wp_mono; [by apply publish_block|]. clear Ho. intros o w' Ho.
  destruct o as [e|e|]; [wp_step; by apply HQ| |apply HQ; by apply create_safe_published].
  do 3 wp_step. destruct (negb (exists_ w r name) && exists_ w' r name) eqn:Hpub.
  { do 2 wp_step. apply HQ. by apply create_safe_published. }
  unfold _compensate_locked. do 2 wp_step.
  apply wp_commit; [do 2 wp_step; by apply HQ, compensated|].
  wp_faults; try (do 2 wp_step); apply HQ; first [by apply compensated | by apply create_safe_published].
Qed.

(** The conditions under which a session is created. *)
Definition creatable : Prop :=
  validate_name name = Ok tt /\ _cleanup_pending w r name = Ok false /\ exists_ w r name = false /\ unbound /\
  is_ok (manifest_file state) = true.

Definition create_result (o : outcome SessionIndexEntry) (w' : world) : Prop :=
  exists i', indexed w' i' /\ (forall k, k <> key -> dget k i' = dget k i) /\
    match o with
    | Ret e => creatable /\ dget key i' = Some e /\ e = set_instance_id (Some token) entry /\
               created_files r name token state w'
    | Raise _ => ~ creatable /\ exists_ w' r name = exists_ w r name /\ (dget key i' = dget key i \/ dget key i' = None)
    | Killed => False
    end.

Lemma create_result_start e : ~ creatable -> create_result (Raise e) w.
Proof. intros H. exists i. split_and!; try done. by left. Qed.

Lemma create_session_runs : wp false (create_session_txn state a now (publish_manifest r state token)) create_result w.
Proof.
  clear iso_to_timestamp. unfold create_session_txn. fold name r. wp_step.
  apply wp_lift; [intros [] Hv|intros e Hv; apply create_result_start; unfold creatable; naive_solver congruence].
  unfold index_lock. apply wp_with_lock; [|by wp_faults]. change (id w) with w.
  eapply wp_mono with (P := create_result); [|intros o w' Ho; split; [done|by wp_faults]].
  wp_step. apply (wp_read_locked Hi). fold key. do 2 wp_step. wp_step.
  apply wp_lift; [intros [] Hp|intros e Hp; apply create_result_start; unfold creatable; naive_solver congruence].
  { wp_step. apply wp_lift; [intros path _|intros e _]; [wp_step|]; apply create_result_start; unfold creatable; naive_solver congruence. }
  rewrite row_test by done. destruct (dhas key i && exists_ w r name) eqn:Hexists.
  { apply andb_prop in Hexists as [_ He]. wp_step. apply create_result_start. unfold creatable. rewrite He. naive_solver. }
  fold entry. wp_step.
  eapply wp_mono with (P := fun o w' => w' = w /\ match o with
    | Ret _ => unbound
    | Raise _ => ~ creatable
    | Killed => False end).
  { unfold creatable, unbound. destruct (ca_require_uuid_unbound a); [|by wp_step].
    apply wp_lift; [intros [] Hu; by split|intros e Hu; split; [done|]; naive_solver congruence]. }
  intros o ? [-> Ho]. destruct o as [[]|e|]; [|by apply create_result_start|done]. rename Ho into Hunbound.
  wp_step. apply wp_commit; [|by wp_faults]. do 2 wp_step.
  set (w1 := set_index _ w). unfold publish_manifest. fold name. do 2 wp_step.
  eapply wp_mono; [apply create_exclusive_result|]. intros o w2 [Ho2 Hc].
  change (exists_ w1 r name) with (exists_ w r name) in Hc.
  assert (indexed w2 i1) as Hi1 by (eapply indexed_congr; [apply Ho2|by apply indexed_write, (wf_published None)]).
  destruct o as [[]|e|]; [| |done].
  - destruct Hc as (He & _ & Hm & m & Hn & Hm' & Hmw & Hown). do 3 wp_step.
    rewrite (review_identity_written _ _ _ token) by done. do 5 wp_step.
    rewrite (review_identity_written _ _ _ token) by done. do 2 wp_step. apply wp_commit; [|by wp_faults]. do 2 wp_step.
    exists i2. split_and!; [by apply indexed_write, wf_published|apply rows_published|done|apply dget_dset_eq|done|by exists m].
  - destruct Hc as [He Hnot].
    assert (negb (exists_ w r name) && exists_ w2 r name = false) as Hpub by (rewrite He; by destruct (exists_ w r name)).
    do 3 wp_step. rewrite Hpub. unfold _compensate_locked. do 2 wp_step. apply wp_commit; [|by wp_faults]. do 2 wp_step.
    assert (wf_index i1) as Hwf by apply Hi1.
    exists i3. split_and!; [by apply indexed_write, wf_index_ddel| | |done|right; apply dget_ddel_eq, Hwf].
    + intros k Hne. unfold i3. rewrite dget_ddel_ne by done. by apply rows_published.
    + unfold creatable. naive_solver.
Qed.

End Create.
(** ** Deletion *)

Section Delete.
Context (name r token : string).
Let key := make_scoped_key name r.
Context (w : world) (i : SessionIndex).
Hypothesis Hi : indexed w i.
Hypothesis no_collision : forall e, dget key i = Some e -> real (root e) = real r.

(** The row is the captured instance, and so is what is left of its directory. *)
Definition is_mine : Prop :=
  exists e, dget key i = Some e /\ e_instance_id e = Some token /\
    (exists_ w r name = true \/ is_Some (owner_at w r name) -> review_identity w r name = Ok (Some token)).

Definition delete_safe (faulty : bool) (o : outcome bool) (w' : world) : Prop :=
  exists i', indexed w' i' /\ (forall k, k <> key -> dget k i' = dget k i) /\
    (forall d, d <> dir_key r name -> dirs w' !! d = dirs w !! d) /\
    (dget key i' = dget key i \/ dget key i' = None /\ dirs w' !! dir_key r name = None) /\
    (same_files r name w w' /\ dget key i' = dget key i \/ is_mine) /\
    match o with
    | Ret true => is_mine /\ dget key i' = None /\ dirs w' !! dir_key r name = None
    | Ret false => ~ is_mine /\ dget key i' = dget key i
    | _ => faulty = false -> ~ is_mine
    end.

Hypothesis Hname : validate_name name = Ok tt.
Hypothesis Htoken : is_token token = true.

Lemma delete_safe_start b o : (forall t, o <> Ret t) -> b = true \/ ~ is_mine -> delete_safe b o w.
Proof.
  intros Ho Hb. exists i. split_and!; try done; [by left..|]. destruct o as [t|e|]; [by destruct (Ho t)|..]; intros ->; by destruct Hb.
Qed.

(** From a store where only the session's directory has changed, and only if it is ours. *)
Lemma delete_safe_dir b o w1 :
  only_dir (dir_key r name) w w1 -> same_files r name w w1 \/ is_mine ->
  match o with Ret true => False | Ret false => ~ is_mine | _ => b = false -> ~ is_mine end ->
  delete_safe b o w1.
Proof.
  intros Ho Hs Hout. exists i. split_and!; try done.
  - eapply indexed_congr; [apply Ho|done].
  - apply Ho.
  - by left.
  - destruct Hs; [by left|by right].
  - destruct o as [[]|e|]; done.
Qed.

(** The body under the manifest lock. *)
Definition guarded (e : SessionIndexEntry) : M world bool :=
  w ← get;
  mine ← (if exists_ w (root e) name || bool_decide (owner_at w (root e) name <> None)
          then lift (found ← review_identity w (root e) name; Ok (bool_decide (found = Some token)))
          else mret true);
  if negb mine then mret false else _ ← _delete_session_manifest r name; mret true.

Definition guarded_post (b : bool) (o : outcome bool) (w2 : world) : Prop :=
  only_dir (dir_key r name) w w2 /\ (same_files r name w w2 \/ is_mine) /\
  match o with
  | Ret true => is_mine /\ dirs w2 !! dir_key r name = None
  | Ret false => ~ is_mine
  | _ => b = false -> ~ is_mine
  end.

Lemma guarded_spec b e w1 :
  dget key i = Some e -> e_instance_id e = Some token ->
  only_dir (dir_key r name) w w1 -> same_files r name w w1 -> wp b (guarded e) (guarded_post b) w1.
Proof.
  intros Hke Hinst Ho1 Hs1. destruct (same_root (root e) r name w1 (no_collision e Hke)) as (_ & _ & Hown & Hex & Hrev).
  unfold guarded. do 2 wp_step. rewrite Hown, Hex, Hrev.
  rewrite (review_identity_congr _ _ _ _ Hs1) by apply Ho1. rewrite (exists_congr w) by apply Hs1.
  replace (owner_at w1 r name) with (owner_at w r name) by (symmetry; apply Hs1).
  assert (forall o, (o = Ret false -> ~ is_mine) -> o <> Ret true -> (b = false -> ~ is_mine) -> guarded_post b o w1) as Hstay.
  { intros o Hf Ht Hb. split_and!; [done|by left|]. destruct o as [[]|?|]; [done|by apply Hf|done..]. }
  assert (is_mine <-> (exists_ w r name || bool_decide (owner_at w r name <> None) = true ->
                       review_identity w r name = Ok (Some token))) as Hmine.
  { assert (exists_ w r name || bool_decide (owner_at w r name <> None) = true <->
            exists_ w r name = true \/ is_Some (owner_at w r name)) as ->.
    { rewrite orb_true_iff, bool_decide_eq_true. by rewrite <- not_eq_None_Some. }
    unfold is_mine. split; [intros (e' & He' & _ & H); apply H|]. intros H. by exists e. }
  assert (is_mine -> wp b (_ ← _delete_session_manifest r name; mret true) (guarded_post b) w1) as Hdel.
  { intros Hm. unfold _delete_session_manifest. do 2 wp_step.
    eapply wp_mono; [apply delete_locked_spec|]. intros o w2 [Ho2 Hout].
    assert (only_dir (dir_key r name) w w2) by (by etrans). destruct o as [t|err|].
    - do 2 wp_step. by split_and!; [|right|..].
    - split_and!; [done|by right|]. by rewrite Hout.
    - split_and!; [done|by right|]. by rewrite Hout. }
  wp_step. destruct (exists_ w r name || bool_decide (owner_at w r name <> None)); [|by wp_step; apply Hdel, Hmine].
  destruct (review_identity w r name) as [found|err].
  2: { unfold mbind, res_bind. wp_step. apply Hstay; [done..|]. intros _ Hm. by apply Hmine in Hm. }
  rewrite res_bind_ok. wp_step. case_bool_decide as Hf; cbn [negb].
  - apply Hdel, Hmine. by subst.
  - wp_step. apply Hstay; [|done|]; intros _ Hm; apply Hmine in Hm; congruence.
Qed.

Lemma guarded_weaken o o' w2 : guarded_post true o w2 -> (forall t, o' <> Ret t) -> guarded_post true o' w2.
Proof. intros (H1 & H2 & _) Ho. split_and!; [done..|]. destruct o' as [t|?|]; [by destruct (Ho t)|done..]. Qed.

Lemma locked_spec b e :
  dget key i = Some e -> e_instance_id e = Some token ->
  wp b (match dirs w !! dir_key (root e) name with
        | Some _ => manifest_lock (root e) name (guarded e)
        | None => guarded e
        end) (guarded_post b) w.
Proof.
  intros Hke Hinst. destruct (dirs w !! _); [|by apply guarded_spec].
  assert (touch (root e) name w = touch r name w) as Htouch.
  { unfold touch. by rewrite (proj1 (same_root (root e) r name w (no_collision e Hke))). }
  pose proof (same_files_touch r name w) as Ht. pose proof (only_dir_on (dir_key r name) id w) as Ho.
  assert (guarded_post true Killed w) as Hw by (split_and!; [done|by left|done]).
  assert (guarded_post true Killed (touch r name w)) as Htw by (split_and!; [done|by left|done]).
  unfold manifest_lock. apply wp_with_lock; rewrite Htouch.
  - eapply wp_mono; [by apply guarded_spec|]. intros o w2 Hp. split; [done|]. intros ->.
    by split; [intros err|]; apply (guarded_weaken o).
  - intros ->. by split_and!; [intros err..|]; first [apply (guarded_weaken Killed) | done].
Qed.

(** The row goes once the directory is gone. *)
Lemma delete_row b o w2 :
  guarded_post b (Ret true) w2 -> match o with Ret false => False | Ret true => True | _ => b = true end ->
  delete_safe b o (set_index (CJson (VDict (index_to_dict (ddel key i)))) w2).
Proof.
  intros (Ho & _ & Hmine & Hgone) Hout. assert (dget key (ddel key i) = None) as Hnone by apply dget_ddel_eq, Hi.
  exists (ddel key i). split_and!.
  - apply indexed_write, wf_index_ddel, Hi.
  - intros k Hk. by apply dget_ddel_ne.
  - apply Ho.
  - by right.
  - by right.
  - destruct o as [[]|e|]; [done|done|by rewrite Hout..].
Qed.

Lemma delete_session_runs b :
  wp b (delete_session_txn name (Some r) token (_delete_session_manifest r name)) (delete_safe b) w.
Proof.
  unfold delete_session_txn. rewrite Hname. do 2 wp_step. unfold _require_instance_id. rewrite Htoken. do 2 wp_step.
  unfold index_lock. apply wp_with_lock; [|wp_faults; apply delete_safe_start; try done; by left]. change (id w) with w.
  assert (forall o w', delete_safe true o w' -> forall o', (forall t, o' <> Ret t) -> delete_safe true o' w') as Hweak.
  { intros o w' (i' & H1 & H2 & H3 & H4 & H5 & _) o' Ho'. exists i'. split_and!; try done.
    by destruct o' as [t|?|]; [destruct (Ho' t)|..]. }
  eapply wp_mono with (P := delete_safe b).
  2: { intros o w' Ho. split; [done|]. intros ->. split; [intros e|]; by apply (Hweak o). }
  wp_step. apply (wp_read_locked Hi). do 3 wp_step. unfold instance_row, resolve_key_strict. fold key.
  unfold dhas. rewrite res_bind_ok.
  assert (forall e, dget key i = Some e -> e_instance_id e <> Some token -> ~ is_mine) as Hother by (intros e He Hne (e' & He' & Hm & _); congruence).
  destruct (dget key i) as [e|] eqn:Hke in |- *; cbn [mbind option_bind fmap option_fmap option_map].
  2: { do 2 wp_step. apply delete_safe_dir; [done|by left|]. intros (e & He & _). congruence. }
  rewrite Hke. cbn [mbind option_bind fmap option_fmap option_map].
  case_bool_decide as Hinst; do 2 wp_step.
  2: { apply delete_safe_dir; [done|by left|]. by apply (Hother e). }
  eapply wp_mono; [by apply (locked_spec b e)|]. intros o w2 Hp.
  assert (forall o', guarded_post b o' w2 -> o' <> Ret true -> delete_safe b o' w2) as Hkeep.
  { intros o' (H1 & H2 & H3) Hne. apply delete_safe_dir; [done..|]. by destruct o' as [[]|?|]. }
  destruct o as [[]|err|]; cbn [negb]; [|wp_step|..]; try by apply Hkeep.
  wp_step. apply wp_commit.
  - wp_step. by apply delete_row.
  - intros ->. split_and!; [intros err|intros err|].
    + apply Hkeep; [by apply (guarded_weaken (Ret true))|done].
    + by apply delete_row.
    + apply Hkeep; [by apply (guarded_weaken (Ret true))|done].
Qed.

End Delete.

(** ** Fenced output *)

(** The session's row and files are the instance [token]'s, and no cleanup is pending. *)
Definition live (w : world) (i : SessionIndex) (name r token : string) : Prop :=
  exists e, dget (make_scoped_key name r) i = Some e /\ e_instance_id e = Some token /\
    owned w e name token = Ok true.

Lemma instance_row_find i name r token :
  instance_row i name (Some r) token =
  Ok match dget (make_scoped_key name r) i with
     | Some e => if bool_decide (e_instance_id e = Some token) then Some (make_scoped_key name r, e) else None
     | None => None
     end.
Proof.
  unfold instance_row, resolve_key_strict, dhas. destruct (dget (make_scoped_key name r) i) eqn:Hk; rewrite res_bind_ok; [|done].
  cbn [mbind option_bind fmap option_fmap option_map]. by rewrite Hk.
Qed.

(** The callback does not run for an instance that is not live. *)
Lemma stale_not_run w i name r token required callback :
  indexed w i -> ~ live w i name r token ->
  wp true (run_session_instance_txn name r token required callback) (fun o w' => w' = w /\ o <> Ret true) w.
Proof.
  intros Hi Hlive. unfold run_session_instance_txn.
  wp_step. apply wp_lift; [intros _ _|done]. wp_step. apply wp_lift; [intros _ _|done].
  unfold index_lock. apply wp_with_lock; [|by wp_faults]. change (id w) with w.
  eapply wp_mono with (P := fun o w' => w' = w /\ o <> Ret true); [|intros o w' [-> Ho]; by split; [|wp_faults]].
  wp_step. apply (wp_read_locked Hi). do 3 wp_step. rewrite instance_row_find. wp_step.
  destruct (dget _ i) as [e|] eqn:Hke; [|by wp_step]. case_bool_decide as Hinst; [|by wp_step].
  wp_step. apply wp_lift; [intros [] Hown|done]; cbn [negb]; [|by wp_step].
  destruct Hlive. by exists e.
Qed.

(** For the live instance, a transaction is its callback. *)
Lemma live_runs w i name r token callback (Q : outcome bool -> world -> Prop) :
  indexed w i -> validate_name name = Ok tt -> is_token token = true -> live w i name r token ->
  wp false callback (fun o w' => Q (match o with Ret _ => Ret true | Raise e => Raise e | Killed => Killed end) w') w ->
  wp false (run_session_instance_txn name r token [] callback) Q w.
Proof.
  intros Hi Hn Ht (e & Hke & Hinst & Hown) Hcb. unfold run_session_instance_txn, _require_instance_id.
  rewrite Hn, Ht. do 4 wp_step. unfold index_lock. apply wp_with_lock; [|by wp_faults]. change (id w) with w.
  eapply wp_mono with (P := Q); [|intros o w' Ho; by split; [|wp_faults]].
  wp_step. apply (wp_read_locked Hi). do 3 wp_step. rewrite instance_row_find, Hke. wp_step.
  rewrite bool_decide_eq_true_2 by done. cbv iota beta. wp_step. rewrite Hown. wp_step. cbn [negb all_owned]. do 2 wp_step. cbn [negb]. wp_step.
  eapply wp_mono; [apply Hcb|]. intros o w' Ho. destruct o as [[]|err|]; [by wp_step|done..].
Qed.

(** [Path.resolve] of a resolved path. *)
Hypothesis real_real : forall r, real (real r) = real r.

Lemma created_live w i state a now token e w' :
  effective_forge_root state a <> "" -> is_token token = true ->
  create_safe state a now token w i (Ret e) w' ->
  exists i', indexed w' i' /\ live w' i' (st_name state) (effective_forge_root state a) token.
Proof.
  intros Hr Ht (i' & Hk & _ & _ & _ & _ & Hrow & He & (m & _ & _ & Hm & Hown) & Hp).
  exists i'. split; [apply Hk|]. exists e. rewrite Hrow. split_and!; [done|by rewrite He|].
  assert (root e = effective_forge_root state a) as Hroot by (rewrite He; by apply root_entry).
  unfold owned. rewrite Hroot. unfold _cleanup_pending, cleanup_state_path in *. rewrite real_real, Hp, res_bind_ok.
  replace (exists_ w' _ _) with true by (unfold exists_; by rewrite Hm). cbn [negb].
  rewrite (review_identity_written _ _ _ token), res_bind_ok by done. by rewrite bool_decide_eq_true_2.
Qed.

(** C4: Creating a session is safe against failures and kills at any step: other sessions' rows
    and directories are as before; the session's own row is the old one, this creation's, or
    gone; a session that existed under the name keeps its files and its row; a new manifest
    never appears without this creation's row (row first, then manifest); and a return means
    that the row, the manifest and the owner token are all in place and agree. *)
Theorem create_session_crash_safe (state : SessionState) (a : create_args) (now token : string) (w : world) (i : SessionIndex) :
  let r := effective_forge_root state a in
  indexed w i -> r <> "" -> is_token token = true ->
  (forall e, dget (make_scoped_key (st_name state) r) i = Some e -> real (root e) = real r) ->
  forall faults,
    match create_session_txn state a now (publish_manifest r state token) faults w with
    | (o, _, w') => create_safe state a now token w i o w'
    end.
Proof. intros r Hi Hr Ht Hc. by apply wp_weaken, create_session_safe. Qed.

(** Without failures, a session is created exactly when its name is valid and free, no
    cleanup is pending, its conversations are unbound (if that was asked for) and its state
    can be encoded; otherwise an exception is raised, no manifest was added, and the row is
    the old one or gone. *)
Theorem create_session_result (state : SessionState) (a : create_args) (now token : string) (w : world) (i : SessionIndex) :
  let r := effective_forge_root state a in
  indexed w i -> r <> "" -> is_token token = true ->
  (forall e, dget (make_scoped_key (st_name state) r) i = Some e -> real (root e) = real r) ->
  let '(o, w') := run (create_session_txn state a now (publish_manifest r state token)) w in
  create_result state a now token w i o w'.
Proof.
  intros r Hi Hr Ht Hc. pose proof (wp_run _ _ _ (create_session_runs state a now token w i Hi Hr Ht Hc)) as H.
  fold r in H. by destruct (run _ w).
Qed.

(** C19: Deletion is fenced by the captured instance: unless the row and what is left of the
    directory are that instance's, nothing changes. Other sessions are never touched. At any
    failure the row stays until the directory is gone, so a retry still finds it; a return of
    true means both are gone. Without failures it deletes exactly when the session is the
    captured instance's. *)
Theorem delete_session_fenced (name r token : string) (w : world) (i : SessionIndex) :
  indexed w i -> validate_name name = Ok tt -> is_token token = true ->
  (forall e, dget (make_scoped_key name r) i = Some e -> real (root e) = real r) ->
  let delete := delete_session_txn name (Some r) token (_delete_session_manifest r name) in
  (forall faults, match delete faults w with (o, _, w') => delete_safe name r token w i true o w' end) /\
  let '(o, w') := run delete w in delete_safe name r token w i false o w'.
Proof.
  intros Hi Hn Ht Hc delete. split; [by apply wp_weaken, delete_session_runs|].
  pose proof (wp_run _ _ _ (delete_session_runs name r token w i Hi Hc Hn Ht false)) as H. fold delete in H. by destruct (run delete w).
Qed.

(** Reusing a name does not let an old worker in: after a deletion and another creation
    under the same name, however that creation ends, output for the old instance is refused
    and its callback does not run; output for the new instance is accepted. *)
Theorem stale_worker_refused (name r old token : string) (w : world) (i : SessionIndex)
    (state : SessionState) (a : create_args) (now : string) (faults1 faults2 faults3 : list fault)
    (required : list (string * string * string)) (callback : M world unit) :
  indexed w i -> validate_name name = Ok tt -> is_token old = true -> is_token token = true -> token <> old ->
  (forall e, dget (make_scoped_key name r) i = Some e -> real (root e) = real r) ->
  st_name state = name -> effective_forge_root state a = r -> r <> "" ->
  match delete_session_txn name (Some r) old (_delete_session_manifest r name) faults1 w with
  | (Ret true, _, w1) =>
      match create_session_txn state a now (publish_manifest r state token) faults2 w1 with
      | (created, _, w2) =>
          match run_session_instance_txn name r old required callback faults3 w2 with
          | (o, _, w3) => w3 = w2 /\ o <> Ret true
          end /\
          forall e f, created = Ret e -> run (run_session_instance_txn name r token [] (commit f)) w2 = (Ret true, f w2)
      end
  | _ => True
  end.
Proof.
  intros Hi Hn Hold Htok Hne Hc <- <- Hr.
  pose proof (wp_weaken _ _ _ (delete_session_runs _ _ old w i Hi Hc Hn Hold true) faults1) as Hdel.
  destruct (delete_session_txn _ _ _ _ faults1 w) as [[[[]|?|] ?] w1]; try done.
  destruct Hdel as (i1 & Hi1 & _ & _ & _ & _ & _ & Hgone & _).
  pose proof (wp_weaken _ _ _ (create_session_safe state a now token w1 i1 Hi1 Hr Htok ltac:(congruence)) faults2) as Hcreate.
  destruct (create_session_txn _ _ _ _ faults2 w1) as [[created ?] w2].
  split.
  - destruct Hcreate as (i2 & [Hi2 _ _ _ _] & Hrow & _). refine (wp_weaken _ _ _ (stale_not_run w2 i2 _ _ old required callback Hi2 _) faults3).
    intros (e & He & Hinst & _). destruct Hrow as [Hrow|[Hrow|(_ & o & Ho & Hrow)]]; [congruence..|].
    rewrite Hrow in He. injection He as <-. simpl in Hinst. destruct Ho; congruence.
  - intros e f ->. apply created_live in Hcreate as (i2 & Hi2 & Hlive); [|done..].
    pose proof (wp_run _ _ _ (live_runs w2 i2 _ _ token (commit f) (fun o w' => o = Ret true /\ w' = f w2) Hi2 Hn Htok Hlive
      ltac:(apply wp_commit; [done|by wp_faults]))) as [H1 H2].
    destruct (run _ w2). simpl in *. by subst.
Qed.

(** ** Conversations *)

(** Two rows record the same conversation. *)
Definition shares (e1 e2 : SessionIndexEntry) : bool :=
  holds (e_claude_session_id e1) (e_claude_session_id e2) || holds (e_codex_thread_id e1) (e_codex_thread_id e2).

Definition distinct_conversations (i : SessionIndex) : Prop :=
  forall k1 k2 e1 e2, dget k1 i = Some e1 -> dget k2 i = Some e2 -> shares e1 e2 = true -> k1 = k2.

Lemma holds_sym x y : holds x y = true -> holds y x = true.
Proof.
  unfold holds. destruct x as [x|], y as [y|]; try done; [|by rewrite andb_false_r].
  intros [Hx Hy]%andb_prop. apply bool_decide_eq_true in Hy as [= <-]. by rewrite Hx, bool_decide_eq_true_2.
Qed.

Lemma shares_sym e1 e2 : shares e1 e2 = true -> shares e2 e1 = true.
Proof. unfold shares. intros [H|H]%orb_prop; rewrite (holds_sym _ _ H); [done|apply orb_true_r]. Qed.

Lemma unbound_not_held i claude codex k e :
  _require_conversation_unbound i claude codex = Ok tt -> dget k i = Some e ->
  holds claude (e_claude_session_id e) || holds codex (e_codex_thread_id e) = false.
Proof.
  intros Hu He%dget_elem_of. revert Hu. induction i as [|[k' e'] i IH]; [by apply elem_of_nil in He|]. simpl.
  destruct (holds claude (e_claude_session_id e')) eqn:H1; [done|].
  destruct (holds codex (e_codex_thread_id e')) eqn:H2; [done|].
  intros Hu. apply elem_of_cons in He as [[= Hk He]|He]; [subst e|by apply IH].
  by rewrite H1, H2.
Qed.

(** With the uniqueness check, creation never binds a conversation (Claude session or
    Codex thread) that another row holds, whatever fails on the way: if the rows' conversations
    were distinct, they still are. *)
Theorem conversations_stay_distinct (state : SessionState) (a : create_args) (now token : string) (w : world) (i : SessionIndex) :
  let r := effective_forge_root state a in
  indexed w i -> r <> "" -> is_token token = true ->
  (forall e, dget (make_scoped_key (st_name state) r) i = Some e -> real (root e) = real r) ->
  ca_require_uuid_unbound a = true -> distinct_conversations i ->
  forall faults,
    match create_session_txn state a now (publish_manifest r state token) faults w with
    | (_, _, w') => exists i', indexed w' i' /\ distinct_conversations i'
    end.
Proof.
  intros r Hi Hr Ht Hc Hreq Hd faults.
  pose proof (wp_weaken _ _ _ (create_session_safe state a now token w i Hi Hr Ht Hc) faults) as H.
  destruct (create_session_txn _ _ _ _ faults w) as [[o fs] w'].
  destruct H as (i' & [Hi' Hrows _ _ _] & Hrow & _). exists i'. split; [done|].
  subst r. set (key := make_scoped_key (st_name state) (effective_forge_root state a)) in *.
  destruct Hrow as [Hrow|[Hrow|[Hu (x & _ & Hrow)]]].
  { assert (forall k, dget k i' = dget k i) as Hall by (intros k; destruct (decide (k = key)) as [->|]; auto).
    intros k1 k2 e1 e2. rewrite !Hall. apply Hd. }
  { intros k1 k2 e1 e2 H1 H2. destruct (decide (k1 = key)) as [->|], (decide (k2 = key)) as [->|]; [congruence..|].
    rewrite Hrows in H1, H2 by done. by apply Hd. }
  assert (forall k e own, k <> key -> dget k i' = Some e -> dget key i' = Some own -> shares own e = false) as Hother.
  { intros k e own Hk He Hown. rewrite Hrows in He by done. fold key in Hrow. rewrite Hrow in Hown. injection Hown as <-.
    apply (unbound_not_held (ddel key i) _ _ k); [by apply Hu|by rewrite dget_ddel_ne]. }
  intros k1 k2 e1 e2 H1 H2 Hs. destruct (decide (k1 = key)) as [->|H1'], (decide (k2 = key)) as [->|H2']; [done| | |].
  - by rewrite (Hother k2 e2 e1) in Hs.
  - apply shares_sym in Hs. by rewrite (Hother k1 e1 e2) in Hs.
  - rewrite Hrows in H1, H2 by done. by apply (Hd k1 k2 e1 e2).
Qed.

(** ** Listing and pruning *)

Lemma insert_recent_perm x l : insert_recent x l ≡ₚ x :: l.
Proof. induction l as [|y l IH]; simpl; [done|]. case_match; [done|]. rewrite IH. constructor. Qed.

Lemma sort_recent_perm l : sort_recent l ≡ₚ l.
Proof. induction l as [|x l IH]; simpl; [done|]. by rewrite insert_recent_perm, IH. Qed.

Lemma str_le_total s t : str_le s t || str_le t s = true.
Proof. unfold str_le. destruct (String.leb_total s t) as [-> | ->]; [done|apply orb_true_r]. Qed.

Lemma key_leb_total x y : key_leb x y || key_leb y x = true.
Proof.
  destruct x as [[a b] s], y as [[c d] t]. unfold key_leb. pose proof (str_le_total s t).
  destruct (str_le s t), (str_le t s); try done; rewrite ?andb_true_r, ?andb_false_r, ?orb_false_r; lia.
Qed.

Definition recent_first (p q : string * SessionIndexEntry) : Prop := key_leb (recency_key p) (recency_key q) = true.

Lemma insert_recent_sorted x l : Sorted recent_first l -> Sorted recent_first (insert_recent x l).
Proof.
  induction 1 as [|y l Hs IH Hy]; simpl; [by repeat constructor|].
  destruct (key_leb (recency_key x) (recency_key y)) eqn:Hxy; [by repeat constructor|].
  assert (recent_first y x) as Hyx.
  { unfold recent_first. pose proof (key_leb_total (recency_key x) (recency_key y)) as Ht. by rewrite Hxy in Ht. }
  constructor; [done|]. destruct l as [|z l]; simpl; [by constructor|]. inversion Hy. case_match; by constructor.
Qed.

Lemma sort_recent_sorted l : Sorted recent_first (sort_recent l).
Proof. induction l; [constructor|]. by apply insert_recent_sorted. Qed.

(** [j] is [i] without some rows that have no manifest and no unfinished cleanup in [w]. *)
Definition pruned_from (w : world) (i j : SessionIndex) : Prop :=
  (forall k e, dget k j = Some e -> dget k i = Some e) /\
  (forall k e, dget k i = Some e -> dget k j = Some e \/ dget k j = None /\ is_stale w (k, e) = Ok true).

Lemma pruned_from_refl w i : pruned_from w i i.
Proof. split; [done|]. by left. Qed.

Lemma prune_row_ok w i l k l' :
  wf_index l -> pruned_from w i l -> prune_row w l k = Ok l' -> wf_index l' /\ pruned_from w i l'.
Proof.
  intros Hl Hp. unfold prune_row. destruct (dget k l) as [e|] eqn:Hke; [|by intros [= <-]].
  destruct (is_stale w (k, e)) as [st|] eqn:Hst; [|done]. rewrite res_bind_ok. destruct st; intros [= <-]; [|done].
  split; [by apply wf_index_ddel|]. destruct Hp as [Hsub Hrest]. split.
  - intros k' e'. rewrite dget_ddel by apply Hl. case_decide; [done|apply Hsub].
  - intros k' e' Hk'. rewrite dget_ddel by apply Hl. case_decide as Heq; [|by apply Hrest]. subst.
    right. split; [done|]. apply Hsub in Hke. congruence.
Qed.

Lemma prune_rows w stale i l j :
  wf_index l -> pruned_from w i l -> foldM_res (prune_row w) l stale = Ok j -> wf_index j /\ pruned_from w i j.
Proof.
  revert l. induction stale as [|k stale IH]; intros l Hl Hp; cbn [foldM_res]; [by intros [= <-]|].
  destruct (prune_row w l k) as [l'|] eqn:Hrow; [|done]. rewrite res_bind_ok.
  destruct (prune_row_ok _ _ _ _ _ Hl Hp Hrow). by apply IH.
Qed.

Lemma length_ddel k (i : SessionIndex) : is_Some (dget k i) -> S (length (ddel k i)) = length i.
Proof.
  induction i as [|[k' e] i IH]; simpl; [by intros []|]. case_decide; [done|]. intros Hs. simpl. by rewrite IH.
Qed.

(** A prune that keeps the length keeps the index. *)
Lemma prune_rows_length w stale l j :
  foldM_res (prune_row w) l stale = Ok j -> j = l \/ (length j < length l)%nat.
Proof.
  revert l. induction stale as [|k stale IH]; intros l; cbn [foldM_res]; [intros [= <-]; by left|].
  destruct (prune_row w l k) as [l'|] eqn:Hrow; [|done]. rewrite res_bind_ok. intros Hj.
  assert (l' = l \/ (length l' < length l)%nat) as Hl'.
  { unfold prune_row in Hrow. destruct (dget k l) eqn:Hk; [|left; congruence].
    destruct (is_stale _ _) as [[]|]; [|left; by injection Hrow|done]. injection Hrow as <-.
    right. rewrite <- (length_ddel k l) by by eexists. lia. }
  destruct (IH l' Hj) as [->|], Hl' as [->|]; auto; right; lia.
Qed.

(** A store an operation may leave: an earlier one, or one whose index lost stale rows. *)
Definition pruned_or_same (base w' : world) : Prop :=
  w' = base \/ exists i j, indexed base i /\ wf_index j /\ pruned_from base i j /\
    w' = set_index (CJson (VDict (index_to_dict j))) base.

(** The result of a listing: the rows that are selected, most recent first. *)
Definition listing_of (o : list_options) (i : SessionIndex) (rows : list (string * SessionIndexEntry)) : Prop :=
  rows ≡ₚ filter (fun p => selected o p.2 = true) (prod_map session_name_from_key id <$> i) /\ Sorted recent_first rows.

Lemma listing_ok o i : listing_of o i (listing o i).
Proof. split; [apply sort_recent_perm|apply sort_recent_sorted]. Qed.

(** Other processes keep the index readable. *)
Definition readable (w : world) : Prop := exists i, indexed w i.

Lemma list_sessions_safe o f1 f2 w :
  readable w -> (forall v, readable v -> readable (f1 v)) -> (forall v, readable v -> readable (f2 v)) ->
  wp true (list_sessions o f1 f2) (fun out w' =>
    (w' = w \/ w' = f1 w \/ pruned_or_same (f2 (f1 w)) w') /\
    match out with
    | Ret rows => exists i, listing_of o i rows /\ (indexed w i /\ w' = f1 w \/ indexed w' i)
    | _ => True
    end) w.
Proof.
  intros [i Hi] Hf1 Hf2. set (Q := fun (out : outcome _) w' => _).
  unfold list_sessions, index_lock. wp_step.
  eapply wp_mono with (P := fun out w' => w' = w /\ match out with Ret x => x = i | _ => True end).
  { apply wp_with_lock; [|wp_faults; done]. apply (wp_read_locked Hi). split; [done|]. by wp_faults. }
  intros out ? [-> Hx]. destruct out as [?|e|]; [subst|by split; [left|]..]. do 4 wp_step.
  assert (forall e, Q (Raise e) (f1 w)) as H1 by (intros e; by split; [right; left|]).
  wp_step. apply wp_lift; [intros stale _|done]. wp_step. case_bool_decide.
  { do 2 wp_step. split; [by right; left|]. exists i. split; [apply listing_ok|by left]. }
  assert (forall out, (forall x, out <> Ret x) -> Q out (f2 (f1 w))) as H2.
  { intros out Hout. split; [right; right; by left|]. destruct out as [x|?|]; [by destruct (Hout x)|done..]. }
  do 2 wp_step. set (w2 := f2 (f1 w)) in *. destruct (Hf2 (f1 w)) as [i2 Hi2]; [by apply Hf1; exists i|]. fold w2 in Hi2.
  set (P2 := fun (out : outcome SessionIndex) w' => pruned_or_same w2 w' /\ match out with Ret j => indexed w' j | _ => True end).
  eapply wp_mono with (P := P2).
  2: { intros out w' [Hp Hout]. destruct out as [j|e|]; [wp_step|by split; [by right; right|]..].
       split; [by right; right|]. exists j. split; [apply listing_ok|by right]. }
  apply wp_with_lock; [|wp_faults; by split; [left|]]. change (id w2) with w2.
  eapply wp_mono with (P := P2); [|intros out w' [Hp Hout]; split; [done|by wp_faults]].
  wp_step. apply (wp_read_locked Hi2). do 3 wp_step. apply wp_lift; [intros j Hj|intros e _; by split; [left|]].
  destruct (prune_rows w2 stale i2 i2 j) as [Hwf Hpr]; [apply Hi2|apply pruned_from_refl|done|].
  assert (pruned_or_same w2 (set_index (CJson (VDict (index_to_dict j))) w2)) as Hps by (right; by exists i2, j).
  wp_step. destruct (Nat.ltb_spec (length j) (length i2)) as [Hlt|Hge].
  - apply wp_commit; [|wp_faults; by split; [try by left|]]. wp_step. split; [done|by apply indexed_write].
  - do 2 wp_step. destruct (prune_rows_length _ _ _ _ Hj) as [->|]; [by split; [left|]|lia].
Qed.

(** ** The index stays readable *)

#[local] Notation keeps := (preserves readable).

Lemma readable_on key f w : readable w -> readable (on_dir key f w).
Proof. intros [i Hi]. exists i. by eapply indexed_congr. Qed.

Lemma readable_rm key w : readable w -> readable (rm_dir key w).
Proof. intros [i Hi]. exists i. by eapply indexed_congr. Qed.

Lemma keeps_write j : wf_index j -> keeps (write_index j).
Proof. intros Hj. apply preserves_commit. intros w _. exists j. by apply indexed_write. Qed.

(** A body that reads the index may use that it is well formed. *)
Lemma keeps_read {A} (f : SessionIndex -> M world A) : (forall i, wf_index i -> keeps (f i)) -> keeps (i ← read_locked; f i).
Proof. intros Hf w [i Hi]. wp_step. apply (wp_read_locked Hi). apply Hf; [apply Hi|by exists i]. Qed.

Ltac keep1 :=
  lazymatch goal with
  | |- preserves _ (mbind _ read_locked) => apply keeps_read; intros ? ?; cbv beta zeta
  | _ => preserve1 ltac:(auto using readable_on, readable_rm)
  end.
Ltac keep := repeat keep1.

Lemma keeps_write_unlocked r name state : keeps (_write_unlocked r name state).
Proof. unfold _write_unlocked. keep. Qed.

Lemma keeps_publish r state token : keeps (publish_manifest r state token).
Proof. unfold publish_manifest, create_exclusive, _ensure_session_dir, manifest_lock, write_owner, touch. keep. apply keeps_write_unlocked. Qed.

Lemma keeps_delete r name : keeps (_delete_session_manifest r name).
Proof. unfold _delete_session_manifest, delete_locked. keep. destruct (dirs _ !! _); keep. Qed.

(** A row that was found and changed without its root keeps the index well formed. *)
Lemma wf_change i k e e' :
  wf_index i -> dget k i = Some e -> root e' = root e -> token_ok (e_instance_id e') -> wf_index (dset k e' i).
Proof. intros Hi He Hroot Ht. apply wf_index_dset; [done|]. destruct (wf_row _ _ _ Hi He) as (H1 & H2 & _). split_and!; simpl in *; rewrite ?Hroot; done. Qed.

Lemma wf_token i k e : wf_index i -> dget k i = Some e -> token_ok (e_instance_id e).
Proof. intros Hi He. apply (wf_row _ _ _ Hi He). Qed.

Lemma find_row_found i name r p : find_row i name r = Ok p -> dget p.1 i = Some p.2.
Proof.
  unfold find_row. destruct (resolve_key_strict _ _ _ _) as [[k|]|]; [|done..]. rewrite res_bind_ok.
  destruct (dget k i) eqn:Hk; [|done]. by intros [= <-].
Qed.

Lemma instance_row_found i name r t k e : instance_row i name r t = Ok (Some (k, e)) -> dget k i = Some e /\ e_instance_id e = Some t.
Proof.
  unfold instance_row. destruct (resolve_key_strict _ _ _ _) as [o|]; [|done]. rewrite res_bind_ok.
  destruct o as [k'|]; [|done]. simpl. destruct (dget k' i) eqn:Hk; [|done]. simpl.
  case_bool_decide; [|done]. by intros [= -> ->].
Qed.

(** The operations that may write the index. [interfere] is what other processes do meanwhile. *)
Inductive index_op :=
| OpCreate (state : SessionState) (a : create_args) (now token : string)
| OpUpdate (name : string) (last_accessed_at forge_root : option string) (now : string)
| OpUuid (name uuid : string) (forge_root : option string)
| OpCodexThread (name thread_id : string) (forge_root : option string) (expected : string)
| OpSync (name : string) (state : SessionState)
| OpMigrate (name : string) (forge_root sha : option string) (ownerless : bool) (fresh : string)
| OpDelete (name : string) (forge_root : option string) (expected store_root : string)
| OpList (o : list_options) (interfere1 interfere2 : world -> world)
| OpGet (name : string) (forge_root : option string) (interfere1 interfere2 : world -> world).

Definition forget {A} (m : M world A) : M world unit := _ ← m; mret tt.

Definition perform (op : index_op) : M world unit :=
  match op with
  | OpCreate state a now token =>
      forget (create_session_txn state a now (publish_manifest (effective_forge_root state a) state token))
  | OpUpdate name t r now => forget (update_session name t r now)
  | OpUuid name uuid r => update_uuid name uuid r
  | OpCodexThread name thread r expected => forget (update_codex_thread name thread r expected)
  | OpSync name state => forget (sync_uuid_from_state name state)
  | OpMigrate name r sha ownerless fresh => forget (migrate_session_identity name r sha ownerless fresh)
  | OpDelete name r expected store_root =>
      forget (delete_session_txn name r expected (_delete_session_manifest store_root name))
  | OpList o f1 f2 => forget (list_sessions o f1 f2)
  | OpGet name r f1 f2 => forget (get_session name r f1 f2)
  end.

(** What the callers provide: a root, 32 hexadecimal digits from [uuid4], and neighbours that
    keep the index readable too. *)
Definition op_ok (op : index_op) : Prop :=
  match op with
  | OpCreate state a _ token => effective_forge_root state a <> "" /\ is_token token = true
  | OpMigrate _ _ _ _ fresh => is_token fresh = true
  | OpList _ f1 f2 | OpGet _ _ f1 f2 =>
      (forall w, readable w -> readable (f1 w)) /\ (forall w, readable w -> readable (f2 w))
  | _ => True
  end.

Lemma keeps_create state a now token :
  effective_forge_root state a <> "" -> is_token token = true ->
  keeps (create_session_txn state a now (publish_manifest (effective_forge_root state a) state token)).
Proof.
  intros Hr Ht. unfold create_session_txn, index_lock. keep1. rename H into Hv. destruct a0.
  set (entry := _build_entry _ _ _ _ _ _ _).
  assert (forall i o, wf_index i -> token_ok o ->
    wf_index (dset (make_scoped_key (st_name state) (effective_forge_root state a)) (set_instance_id o entry)
                (ddel (make_scoped_key (st_name state) (effective_forge_root state a)) i))) as Hwf.
  { intros i o Hi Ho. apply wf_index_dset; [by apply wf_index_ddel|]. by apply entry_ok. }
  keep.
  - by apply keeps_write, (Hwf _ None).
  - apply keeps_publish.
  - apply keeps_write, Hwf; [done|]. destruct a4; [|done]. by eapply review_identity_token.
  - destruct a3; keep. unfold _compensate_locked. keep. by apply keeps_write, wf_index_ddel, (Hwf _ None).
Qed.

Lemma keeps_update name t r now : keeps (update_session name t r now).
Proof.
  unfold update_session, index_lock. keep. apply keeps_write. apply find_row_found in H1.
  eapply wf_change; [done..|]. apply (wf_token _ _ _ H0 H1).
Qed.

Lemma wf_set_row i k f :
  wf_index i -> (forall e, root (f e) = root e /\ e_instance_id (f e) = e_instance_id e) -> wf_index (set_row i k f).
Proof.
  intros Hi Hf. unfold set_row. destruct (dget k i) as [e|] eqn:He; [|done].
  eapply wf_change; [done..|apply Hf|]. rewrite (proj2 (Hf e)). by eapply wf_token.
Qed.

Lemma keeps_best_effort {A} (d : A) m : keeps m -> keeps (best_effort d m).
Proof. intros Hm. unfold best_effort. keep; [done|]. destruct a; keep. Qed.

Lemma keeps_uuid name uuid r : keeps (update_uuid name uuid r).
Proof.
  unfold update_uuid, index_lock. apply keeps_best_effort. keep.
  destruct (resolve_key_best_effort _ _ _); keep. by apply keeps_write, wf_set_row.
Qed.

(** The row a best-effort resolution gives. *)
Lemma best_effort_found (i : SessionIndex) (o : option string) k e :
  o ≫= (fun k => (k,.) <$> dget k i) = Some (k, e) -> dget k i = Some e.
Proof. destruct o as [k'|]; [|done]. simpl. destruct (dget k' i) eqn:H; [|done]. by intros [= <- <-]. Qed.

Lemma keeps_codex name thread r expected : keeps (update_codex_thread name thread r expected).
Proof.
  unfold update_codex_thread, index_lock. keep1. apply keeps_best_effort. keep.
  destruct (_ ≫= _) as [[k e]|] eqn:Hfound; keep. apply best_effort_found in Hfound. apply keeps_write.
  eapply wf_change; [done..|]. by apply (wf_token i k e).
Qed.

Lemma keeps_sync name state : keeps (sync_uuid_from_state name state).
Proof.
  unfold sync_uuid_from_state, index_lock. keep.
  destruct (_ ≫= _) as [[k e]|] eqn:Hfound; keep. apply best_effort_found in Hfound. apply keeps_write.
  eapply wf_change; [done..| |]; destruct (st_claude_session_id state); try done; by apply (wf_token i k e).
Qed.

Lemma keeps_delete_txn name r expected store_root :
  keeps (delete_session_txn name r expected (_delete_session_manifest store_root name)).
Proof.
  unfold delete_session_txn, index_lock, manifest_lock, touch. keep. destruct a1 as [[k e]|]; keep.
  - destruct (dirs _ !! _); keep; apply keeps_delete.
  - by apply keeps_write, wf_index_ddel.
Qed.

Lemma keeps_get_session name r f1 f2 :
  (forall w, readable w -> readable (f1 w)) -> (forall w, readable w -> readable (f2 w)) ->
  keeps (get_session name r f1 f2).
Proof.
  intros Hf1 Hf2. unfold get_session, index_lock. keep. by apply keeps_write, wf_index_ddel.
Qed.

Lemma keeps_list o f1 f2 :
  (forall w, readable w -> readable (f1 w)) -> (forall w, readable w -> readable (f2 w)) ->
  keeps (list_sessions o f1 f2).
Proof.
  intros Hf1 Hf2 w Hw. eapply wp_mono; [by apply list_sessions_safe|]. intros out w' [Hw' _].
  destruct Hw' as [->|[->|[->|(i & j & _ & Hj & _ & ->)]]]; auto. exists j. by apply indexed_write.
Qed.

Lemma keeps_migrate name r sha ownerless fresh :
  is_token fresh = true -> keeps (migrate_session_identity name r sha ownerless fresh).
Proof.
  intros Hf. unfold migrate_session_identity, index_lock. do 5 (keep1; cbv beta); [keep1|].
  apply find_row_found in H1. intros w [i' Hi'].
  wp_step. eapply wp_mono; [by apply migrate_spec|]. intros o w' [Ho Ht].
  assert (readable w') as Hw' by (exists i'; eapply indexed_congr; [apply Ho|done]).
  destruct o as [t|e|]; [|done..].
  assert (keeps (_ ← write_index (dset a0.1 (set_instance_id (Some t) a0.2) i); mret t)) as Hk.
  { keep. apply keeps_write. by eapply wf_change. }
  case_bool_decide; [by wp_step|by apply Hk].
Qed.

Lemma keeps_forget {A} (m : M world A) : keeps m -> keeps (forget m).
Proof. intros Hm. unfold forget. by keep. Qed.

Lemma perform_keeps op : op_ok op -> keeps (perform op).
Proof.
  destruct op; simpl; intros Hok; try apply keeps_forget; destruct_and?.
  - by apply keeps_create.
  - apply keeps_update.
  - apply keeps_uuid.
  - apply keeps_codex.
  - apply keeps_sync.
  - by apply keeps_migrate.
  - apply keeps_delete_txn.
  - by apply keeps_list.
  - by apply keeps_get_session.
Qed.

(** A history of the index: each operation runs under its own faults. *)
Fixpoint history_run (ops : list (index_op * list fault)) (w : world) : world :=
  match ops with
  | [] => w
  | (op, faults) :: ops => history_run ops (snd (perform op faults w))
  end.

(** C21: Whatever operations run on the index, with whatever failures and kills, and whatever
    other processes do meanwhile, the index file reads back, as a well-formed index: every row
    under the key of its own name and root, with a valid instance or none. *)
Theorem index_always_readable (ops : list (index_op * list fault)) (w : world) :
  index_file w = None -> Forall (fun p => op_ok p.1) ops ->
  exists i, read_index (index_file (history_run ops w)) = Ok i /\ wf_index i.
Proof.
  intros Hw Hops. assert (readable w) as Hr by (exists []; split; [by repeat constructor|by right]). clear Hw.
  revert w Hr. induction Hops as [|[op faults] ops Hop _ IH]; intros w Hr; simpl.
  - destruct Hr as [i Hi]. exists i. split; [by apply read_indexed|apply Hi].
  - apply IH. pose proof (wp_weaken _ _ _ (perform_keeps op Hop w Hr) faults) as H.
    by destruct (perform op faults w) as [[??]?].
Qed.

(** Listing sessions removes only rows that have no manifest and no pending cleanup at the
    time of the write, even when other processes change the index and the directories between
    its two lock sections; it changes nothing else. The result is the selected rows of the
    index, most recent first, then by name. *)
Theorem pruning_safe (o : list_options) (f1 f2 : world -> world) (w : world) (faults : list fault) :
  readable w -> (forall v, readable v -> readable (f1 v)) -> (forall v, readable v -> readable (f2 v)) ->
  match list_sessions o f1 f2 faults w with
  | (out, _, w') =>
      (w' = w \/ w' = f1 w \/ pruned_or_same (f2 (f1 w)) w') /\
      match out with
      | Ret rows => exists i, listing_of o i rows /\ (indexed w i /\ w' = f1 w \/ indexed w' i)
      | _ => True
      end
  end.
Proof. intros Hw H1 H2. by apply (wp_weaken _ _ _ (list_sessions_safe o f1 f2 w Hw H1 H2) faults). Qed.

End SessionIndexOps.

(** ** A concrete platform and store *)

Module IndexSample.

(** One digest for the project [/p] and its cleanup inventories, another for everything else. *)
Definition sample_sha256 (s : string) : string :=
  if startswith "/p" s then "aaaaaaaaaaaaaaaa" +++ s else "bbbbbbbbbbbbbbbb" +++ s.

Definition sample_to_dict (st : SessionState) : dict :=
  [("schema_version", VInt 5); ("name", VStr (st_name st)); ("intent", VDict []); ("overrides", VDict [])].

#[global] Instance sample_platform : Platform := {|
  sha256 := sample_sha256;
  real := fun r => r;
  py_str := type_name;
  dumps := fun _ => "{}";
  state_from_dict := fun _ => raise DaciteError "not decoded";
  state_to_dict := sample_to_dict |}.

Definition str_of (k : string) (d : dict) : string := match dgetv k d with VStr s => s | _ => "" end.
Definition bool_of (k : string) (d : dict) : bool := match dgetv k d with VBool b => b | _ => false end.
Definition opt_of (k : string) (d : dict) : option string := match dgetv k d with VStr s => Some s | _ => None end.

Definition entry_from (v : value) : SessionIndexEntry :=
  match v with
  | VDict d => Build_SessionIndexEntry (str_of "worktree_path" d) (str_of "project_root" d) (str_of "last_accessed_at" d)
                 (bool_of "is_fork" d) (bool_of "is_incognito" d) (opt_of "parent_session" d)
                 (opt_of "claude_session_id" d) (opt_of "codex_thread_id" d) (str_of "forge_root" d)
                 (str_of "checkout_root" d) (str_of "relative_path" d) (opt_of "instance_id" d)
  | _ => Build_SessionIndexEntry "" "" "" false false None None None "" "" "" None
  end.

Definition sample_from_dict (data : dict) : res SessionIndex :=
  match dgetv "sessions" data with VDict rows => Ok (prod_map id entry_from <$> rows) | _ => Ok [] end.

Lemma entry_from_to e : entry_from (VDict (entry_to_dict e)) = e.
Proof. destruct e as [????? [] [] [] ??? []]; reflexivity. Qed.

Lemma sample_decodes i : sample_from_dict (index_to_dict i) = Ok i.
Proof.
  unfold sample_from_dict. change (dgetv "sessions" _) with (VDict (prod_map id (VDict ∘ entry_to_dict) <$> i)). cbv iota beta.
  f_equal. induction i as [|[k e] i IH]; [done|]. change ((k, entry_from (VDict (entry_to_dict e))) ::
    (prod_map id entry_from <$> (prod_map id (VDict ∘ entry_to_dict) <$> i)) = (k, e) :: i).
  by rewrite IH, entry_from_to.
Qed.

Definition token : string := "0123456789abcdef0123456789abcdef".
Definition token2 : string := "ffffffffffffffffffffffffffffffff".

Definition planner : SessionState :=
  {| st_name := "planner"; st_worktree := Some "/p"; st_forge_root := None; st_parent_session := None;
     st_is_fork := false; st_is_incognito := false; st_claude_session_id := Some "uuid-1";
     st_codex_thread_id := None; st_rest := [] |}.

Definition args : create_args := {|
  ca_project_root := "/p"; ca_checkout_root := None; ca_forge_root := None; ca_relative_path := None;
  ca_require_uuid_unbound := true |}.

Definition empty : world := World None ∅ ∅ ∅ ∅ None.

Definition create (st : SessionState) (t : string) := create_session_txn sample_from_dict "i" st args "t0" (publish_manifest "/p" st t).

Lemma empty_indexed : indexed empty [].
Proof. split; [by repeat constructor|by right]. Qed.

Lemma no_rows {A} (Q : A -> Prop) k e : dget k [] = Some e -> Q e.
Proof. done. Qed.

(** Killed after the owner file was written: a row without a manifest stays. *)
Lemma create_session_crash_safe_witness :
  match create planner token [NoFault; NoFault; NoFault; NoFault; NoFault; NoFault; Kill] empty with
  | (o, _, w') => create_safe planner args "t0" token empty [] o w' /\ o = Killed /\
                  exists_ w' "/p" "planner" = false /\ index_file w' <> None
  end.
Proof.
  pose proof (create_session_crash_safe sample_from_dict "i" sample_decodes planner args "t0" token empty []
    empty_indexed ltac:(discriminate) ltac:(reflexivity) (no_rows _ _)
    [NoFault; NoFault; NoFault; NoFault; NoFault; NoFault; Kill]) as H.
  unfold create. change (effective_forge_root planner args) with "/p" in H.
  destruct (create_session_txn _ _ _ _ _ _ _ _) as [[o fs] w'] eqn:Hrun. vm_compute in Hrun. injection Hrun as <- <- <-.
  split_and!; [exact H|reflexivity|vm_compute; reflexivity|discriminate].
Defined.

Lemma create_session_result_witness :
  let '(o, w') := run (create planner token) empty in
  create_result planner args "t0" token empty [] o w' /\
  match o with Ret e => e_instance_id e = Some token /\ root e = "/p" | _ => False end.
Proof.
  pose proof (create_session_result sample_from_dict "i" sample_decodes planner args "t0" token empty []
    empty_indexed ltac:(discriminate) ltac:(reflexivity) (no_rows _ _)) as H.
  unfold create. change (effective_forge_root planner args) with "/p" in H.
  destruct (run _ empty) as [o w'] eqn:Hrun. split; [exact H|]. vm_compute in Hrun. injection Hrun as <- <-. split; reflexivity.
Defined.

(** The store with one session. *)
Definition with_planner : world := snd (run (create planner token) empty).
Definition planner_row : SessionIndexEntry :=
  set_instance_id (Some token) (_build_entry planner "/p" "/p" "/p" None None "t0").
Definition planner_key : string := make_scoped_key "planner" "/p".

Lemma planner_indexed : indexed with_planner [(planner_key, planner_row)].
Proof. split; [|left; vm_compute; reflexivity]. split; [apply NoDup_singleton|]. by repeat constructor. Qed.

Lemma planner_root k e : dget k [(planner_key, planner_row)] = Some e -> real (root e) = real "/p".
Proof. simpl. case_decide; [|done]. by intros [= <-]. Qed.

Definition delete (t : string) := delete_session_txn sample_from_dict "i" "planner" (Some "/p") t (_delete_session_manifest "/p" "planner").

Lemma delete_session_fenced_witness :
  (let '(o, w') := run (delete token) with_planner in
   delete_safe "planner" "/p" token with_planner [(planner_key, planner_row)] false o w' /\ o = Ret true) /\
  fst (run (delete token2) with_planner) = Ret false.
Proof.
  pose proof (delete_session_fenced sample_from_dict "i" sample_decodes "planner" "/p" token with_planner
    [(planner_key, planner_row)] planner_indexed ltac:(reflexivity) ltac:(reflexivity) (planner_root _)) as H.
  cbv zeta in H. destruct H as [_ H].
  assert (fst (run (delete token) with_planner) = Ret true) as Ho by (vm_compute; reflexivity).
  split; [|vm_compute; reflexivity]. unfold delete in *.
  destruct (run _ with_planner) as [o w']. by split.
Defined.

(** After the name was reused, the old worker's output is refused and the new one's accepted. *)
Lemma stale_worker_refused_witness :
  match run (delete token) with_planner with
  | (Ret true, w1) =>
      match run (create planner token2) w1 with
      | (Ret _, w2) =>
          fst (run (run_session_instance_txn sample_from_dict "i" "planner" "/p" token [] (commit (rm_dir ("/p", "planner")))) w2) <> Ret true
      | _ => False
      end
  | _ => False
  end.
Proof.
  pose proof (stale_worker_refused sample_from_dict "i" sample_decodes (fun _ => eq_refl) "planner" "/p" token token2 with_planner
    [(planner_key, planner_row)] planner args "t0" [] [] [] [] (commit (rm_dir ("/p", "planner"))) planner_indexed
    ltac:(reflexivity) ltac:(reflexivity) ltac:(reflexivity) ltac:(discriminate) (planner_root _)
    ltac:(reflexivity) ltac:(reflexivity) ltac:(discriminate)) as H.
  unfold run, delete, create. destruct (delete_session_txn _ _ _ _ _ _ [] with_planner) as [[o1 fs1] w1] eqn:H1.
  vm_compute in H1. injection H1 as <- <- <-.
  destruct (create_session_txn _ _ _ _ _ _ [] _) as [[o2 fs2] w2] eqn:H2. vm_compute in H2. injection H2 as <- <- <-.
  destruct (run_session_instance_txn _ _ _ _ _ _ _ [] _) as [[o3 fs3] w3]. apply H.
Defined.

Definition reviewer : SessionState :=
  {| st_name := "reviewer"; st_worktree := Some "/p"; st_forge_root := None; st_parent_session := None;
     st_is_fork := false; st_is_incognito := false; st_claude_session_id := Some "uuid-1";
     st_codex_thread_id := None; st_rest := [] |}.

(** The conversation of [planner] cannot be bound a second time. *)
Lemma conversations_stay_distinct_witness :
  match create reviewer token2 [] with_planner with
  | (o, _, w') => (exists i', indexed w' i' /\ distinct_conversations i') /\
                  match o with Raise e => exn_cls e = UuidAlreadyBoundError | _ => False end
  end.
Proof.
  pose proof (conversations_stay_distinct sample_from_dict "i" sample_decodes reviewer args "t0" token2 with_planner
    [(planner_key, planner_row)] planner_indexed ltac:(discriminate) ltac:(reflexivity) (planner_root _) ltac:(reflexivity)) as H.
  assert (distinct_conversations [(planner_key, planner_row)]) as Hd.
  { intros k1 k2 e1 e2. simpl. repeat case_decide; congruence. }
  specialize (H Hd []). unfold create. change (effective_forge_root reviewer args) with "/p" in H.
  destruct (create_session_txn _ _ _ _ _ _ [] with_planner) as [[o fs] w'] eqn:Hrun. split; [exact H|].
  vm_compute in Hrun. injection Hrun as <- _ _. reflexivity.
Defined.

(** A history with a killed creation, its retry, and a deletion that fails halfway. *)
Definition sample_ops : list (index_op * list fault) :=
  [(OpCreate planner args "t0" token, [NoFault; NoFault; Kill]);
   (OpCreate planner args "t1" token2, []);
   (OpDelete "planner" (Some "/p") token2 "/p", [NoFault; NoFault; NoFault; Before (PyExn OSError "busy")]);
   (OpList {| include_incognito := true; project_root_filter := None; forge_root_filter := None |} id id, [])].

Lemma index_always_readable_witness :
  exists i, read_index sample_from_dict "i" (index_file (history_run sample_from_dict (fun _ => None) "i" sample_ops empty)) = Ok i /\
            wf_index i.
Proof.
  apply (index_always_readable sample_from_dict (fun _ => None) "i" sample_decodes sample_ops empty); [reflexivity|].
  repeat constructor; simpl; auto; discriminate.
Defined.

(** Another process deletes the manifest after the first read: the row goes, the listing is empty. *)
Lemma pruning_safe_witness :
  let options := {| include_incognito := true; project_root_filter := None; forge_root_filter := None |} in
  match list_sessions sample_from_dict (fun _ => None) "i" options (rm_dir ("/p", "planner")) id [] with_planner with
  | (out, _, w') =>
      (w' = with_planner \/ w' = rm_dir ("/p", "planner") with_planner \/
       pruned_or_same (rm_dir ("/p", "planner") with_planner) w') /\ out = Ret []
  end.
Proof.
  intros options.
  pose proof (pruning_safe sample_from_dict (fun _ => None) "i" sample_decodes options (rm_dir ("/p", "planner")) id with_planner []
    ltac:(by eexists; apply planner_indexed) (fun v => readable_rm _ _) (fun v H => H)) as H.
  destruct (list_sessions _ _ _ _ _ _ [] with_planner) as [[out fs] w'] eqn:Hrun. split; [apply H|].
  vm_compute in Hrun. injection Hrun as <- _ _. reflexivity.
Defined.

(** A name may end in a newline: [$] matches before it. *)
Example name_with_newline : validate_name ("ab" +++ newline) = Ok tt.
Proof. reflexivity. Qed.

End IndexSample.
