(* ===== verification/ActiveSessions.v ===== *)
(** * ActiveSessions: the registry of live launches

    [src/forge/session/active.py] ([ActiveSessionStore]), its admission inside an index
    transaction, and the activity check that [session/deletion.py] makes inside the deletion
    transaction. The registry is one JSON file of the store of SessionFiles.v
    ([active_file]); it is runtime-only state, so a file that cannot be used is discarded.
    Whether processes and containers run is asked of the environment ([Probes]). *)

From S2P Require Import Prelude PyValue StateIO Manifest Effects SessionFiles SessionIndex.

Definition ACTIVE_INDEX_VERSION : Z := 1.
Definition MAX_REPRESENTABLE_PID : Z := Z.shiftl 1 31 - 1.
Definition LAUNCH_MODE_SIDECAR : string := "sidecar".

(** [launcher_pid] is an int or [None]; a decoded file may also hold a bool there. *)
Record ActiveSessionEntry := {
  a_worktree_path : string;
  a_started_at : string;
  a_launch_mode : string;
  a_launcher_pid : value;
  a_claude_session_id : option string;
  a_container_name : option string;
  a_forge_root : option string;
  a_authority_run_id : option string;
  a_authority_config_sha256 : option string;
  a_authority_hook_registration_sha256 : option string }.

(** [index.sessions]. *)
Definition ActiveSessionIndex : Type := list (string * ActiveSessionEntry).

Definition active_to_dict (e : ActiveSessionEntry) : dict :=
  [("worktree_path", VStr (a_worktree_path e)); ("started_at", VStr (a_started_at e));
   ("launch_mode", VStr (a_launch_mode e)); ("launcher_pid", a_launcher_pid e);
   ("claude_session_id", opt_value (a_claude_session_id e));
   ("container_name", opt_value (a_container_name e)); ("forge_root", opt_value (a_forge_root e));
   ("authority_run_id", opt_value (a_authority_run_id e));
   ("authority_config_sha256", opt_value (a_authority_config_sha256 e));
   ("authority_hook_registration_sha256", opt_value (a_authority_hook_registration_sha256 e))].

(** [asdict(index)]. *)
Definition registry_to_dict (i : ActiveSessionIndex) : dict :=
  [("version", VInt ACTIVE_INDEX_VERSION); ("sessions", VDict (prod_map id (VDict ∘ active_to_dict) <$> i))].

Definition set_active_uuid (s : string) (e : ActiveSessionEntry) : ActiveSessionEntry := {|
  a_worktree_path := a_worktree_path e; a_started_at := a_started_at e; a_launch_mode := a_launch_mode e;
  a_launcher_pid := a_launcher_pid e; a_claude_session_id := Some s; a_container_name := a_container_name e;
  a_forge_root := a_forge_root e; a_authority_run_id := a_authority_run_id e;
  a_authority_config_sha256 := a_authority_config_sha256 e;
  a_authority_hook_registration_sha256 := a_authority_hook_registration_sha256 e |}.

(** [entry.forge_root or entry.worktree_path]. *)
Definition active_root (e : ActiveSessionEntry) : string := or_str (default "" (a_forge_root e)) (a_worktree_path e).

(** The environment's answers: a process by its pid, a container by its name (lenient and
    strict), each possibly an exception. *)
Record Probes := {
  is_pid_alive : Z -> bool;
  is_container_running : string -> res bool;
  docker_ps : string -> res bool }.

Section ActiveSessions.
Context `{P : Platform}.

(** [dacite.from_dict(ActiveSessionIndex, ...)], and the index's decoder and path. *)
Context (active_from_dict : dict -> res ActiveSessionIndex).
Context (index_from_dict : dict -> res SessionIndex) (index_path : string).

(** ** Reading *)

(** [_has_current_key_shape]: the loop's body, and the loop. *)
Definition entry_shape (p : string * value) : bool :=
  match snd p with
  | VDict row =>
      match row_root row with
      | VStr root => negb (String.eqb root "") &&
                     String.eqb (fst p) (make_scoped_key (session_name_from_key (fst p)) root)
      | _ => false
      end
  | _ => false
  end.

Definition _has_current_key_shape (data : dict) : bool :=
  match dgetv "sessions" data with VDict sessions => forallb entry_shape sessions | _ => true end.

Definition pid_ok (v : value) : bool :=
  match v with VNone => true | VInt pid => (0 <? pid) && (pid <=? MAX_REPRESENTABLE_PID) | _ => false end.

(** [_read_validated], of what reading the file meets. *)
Definition _read_validated (c : content) : res ActiveSessionIndex :=
  data ← (match c with
          | CUnreadable e => raise OSError e
          | CNotUtf8 e => raise UnicodeDecodeError e
          | CBadJson e => raise JSONDecodeError e
          | CJson v => Ok v
          end : res value);
  match data with
  | VDict data =>
      if py_eq (dgetv "version" data) (VInt ACTIVE_INDEX_VERSION) && _has_current_key_shape data then
        index ← active_from_dict data;
        if forallb (fun p => pid_ok (a_launcher_pid (snd p))) index then Ok index
        else raise ValueError "launcher_pid is outside the supported PID range"
      else raise ValueError "incompatible active-session registry"
  | _ => raise ValueError "incompatible active-session registry"
  end.

(** [self._read_validated() if self.exists() else ActiveSessionIndex()]. *)
Definition peek_registry (w : world) : res ActiveSessionIndex :=
  match active_file w with Some c => _read_validated c | None => Ok [] end.

(** [except (OSError, ValueError, DaciteError)]. *)
Definition is_discardable (c : exn_class) : bool :=
  bool_decide (c ∈ [OSError; FileNotFoundError; ValueError; UnicodeDecodeError; JSONDecodeError; DaciteError]).

Definition set_active (i : ActiveSessionIndex) (w : world) : world :=
  World (index_file w) (dirs w) (roots w) (history w) (cleanup w) (Some (CJson (VDict (registry_to_dict i)))).

(** [ActiveSessionStore.write]. *)
Definition write_registry (i : ActiveSessionIndex) : M world unit := commit (set_active i).

(** [ActiveSessionStore.read]: an unusable file is replaced by an empty registry. *)
Definition read_registry : M world ActiveSessionIndex :=
  w ← get;
  match peek_registry w with
  | Ok i => mret i
  | Err e => if is_discardable (exn_cls e) then _ ← write_registry []; mret [] else throw e
  end.

Definition active_lock {A} (body : M world A) : M world A := with_lock id body.

(** ** Liveness *)

Section Liveness.
Context (probes : Probes).

(** The recorded launcher runs. *)
Definition launcher_alive (e : ActiveSessionEntry) : bool :=
  match a_launcher_pid e with VInt pid => (0 <? pid) && is_pid_alive probes pid | _ => false end.

(** [_entry_is_live]. *)
Definition _entry_is_live (strict : bool) (e : ActiveSessionEntry) : res bool :=
  match a_container_name e with
  | Some container =>
      if String.eqb (a_launch_mode e) LAUNCH_MODE_SIDECAR && negb (String.eqb container "") then
        if strict then
          match docker_ps probes container with
          | Ok running => Ok (running || launcher_alive e)
          | Err error =>
              if bool_decide (exn_cls error ∈ [OSError; FileNotFoundError; SubprocessError])
              then raise ValueError ("Cannot verify sidecar '" +++ container +++ "' activity: " +++ exn_msg error)
              else Err error
          end
        else match is_container_running probes container with
             | Ok running => Ok (running || launcher_alive e)
             | Err error => if is_exception (exn_cls error) then Ok (launcher_alive e) else Err error
             end
      else Ok (launcher_alive e)
  | None => Ok (launcher_alive e)
  end.

(** The entries that pass the liveness test, in order. *)
Fixpoint keep_live (strict : bool) (i : ActiveSessionIndex) : res ActiveSessionIndex :=
  match i with
  | [] => Ok []
  | (key, e) :: i =>
      live ← _entry_is_live strict e;
      rest ← keep_live strict i;
      Ok (if live : bool then (key, e) :: rest else rest)
  end.

(** Sorted by display name. *)
Definition by_name (i : ActiveSessionIndex) : list (string * ActiveSessionEntry) :=
  sort_by fst (map (fun p => (session_name_from_key (fst p), snd p)) i).

(** ** Operations *)

Record launch := {
  l_worktree_path : string;
  l_launch_mode : string;
  l_launcher_pid : option Z;
  l_claude_session_id : option string;
  l_container_name : option string;
  l_forge_root : option string;
  l_authority_run_id : option string;
  l_authority_config_sha256 : option string;
  l_authority_hook_registration_sha256 : option string }.

(** [forge_root or worktree_path]. *)
Definition launch_root (l : launch) : string := or_str (default "" (l_forge_root l)) (l_worktree_path l).

Definition set_launch_root (root : string) (l : launch) : launch := {|
  l_worktree_path := l_worktree_path l; l_launch_mode := l_launch_mode l; l_launcher_pid := l_launcher_pid l;
  l_claude_session_id := l_claude_session_id l; l_container_name := l_container_name l;
  l_forge_root := Some root; l_authority_run_id := l_authority_run_id l;
  l_authority_config_sha256 := l_authority_config_sha256 l;
  l_authority_hook_registration_sha256 := l_authority_hook_registration_sha256 l |}.

(** The entry of a launch, with the current process's pid and time. *)
Definition new_entry (l : launch) (root : string) (getpid : Z) (now : string) : ActiveSessionEntry := {|
  a_worktree_path := l_worktree_path l; a_started_at := now; a_launch_mode := l_launch_mode l;
  a_launcher_pid := VInt (default getpid (l_launcher_pid l)); a_claude_session_id := l_claude_session_id l;
  a_container_name := l_container_name l; a_forge_root := Some root;
  a_authority_run_id := l_authority_run_id l; a_authority_config_sha256 := l_authority_config_sha256 l;
  a_authority_hook_registration_sha256 := l_authority_hook_registration_sha256 l |}.

(** [upsert_session]. *)
Definition upsert_session (name : string) (l : launch) (getpid : Z) (now : string) : M world ActiveSessionEntry :=
  let root := launch_root l in
  active_lock (
    index ← read_registry;
    let e := new_entry l root getpid now in
    _ ← write_registry (dset (make_scoped_key name root) e index);
    mret e).

(** [register_session]; [fresh] is the token a migration would write. *)
Definition register_session (name : string) (l : launch) (getpid : Z) (now fresh : string)
    (expected_instance_id : option string) : M world ActiveSessionEntry :=
  let root := launch_root l in
  let migrate := migrate_session_identity index_from_dict index_path name (Some root) None false fresh in
  token ← match expected_instance_id with
          | Some t => if String.eqb t "" then migrate else mret t
          | None => migrate
          end;
  let l := set_launch_root root l in
  admitted ← run_session_instance_txn index_from_dict index_path name root token []
               (_ ← upsert_session name l getpid now; mret tt);
  if admitted : bool then mret (new_entry l root getpid now)
  else throw (PyExn SessionNotFoundError ("session '" +++ name +++ "' not found")).

(** [update_uuid]. *)
Definition update_active_uuid (name claude_session_id : string) (forge_root : option string) : M world bool :=
  active_lock (
    index ← read_registry;
    match resolve_key_best_effort index name forge_root with
    | None => mret false
    | Some key =>
        _ ← write_registry (match dget key index with
                            | Some e => dset key (set_active_uuid claude_session_id e) index
                            | None => index
                            end);
        mret true
    end).

(** [clear_session]. *)
Definition clear_session (name : string) (forge_root : option string) : M world bool :=
  active_lock (
    index ← read_registry;
    key ← lift (resolve_key_strict active_root index name forge_root);
    match key with
    | None => mret false
    | Some key => _ ← write_registry (ddel key index); mret true
    end).

(** [clear_by_claude_session_id]. *)
Definition clear_by_claude_session_id (claude_session_id : string) : M world bool :=
  active_lock (
    index ← read_registry;
    let kept := List.filter (fun p => negb (bool_decide (a_claude_session_id (snd p) = Some claude_session_id))) index in
    if (length kept <? length index)%nat then _ ← write_registry kept; mret true else mret false).

(** [get_session]; [between] is what others do between its two lock sections. *)
Definition get_active_session (name : string) (forge_root : option string) (between : world -> world)
  : M world (option ActiveSessionEntry) :=
  found ← active_lock (
    index ← read_registry;
    key ← lift (resolve_key_strict active_root index name forge_root);
    mret (key ≫= fun key => (key,.) <$> dget key index));
  match found with
  | None => mret None
  | Some (key, e) =>
      live ← lift (_entry_is_live false e);
      if live : bool then mret (Some e)
      else
        _ ← others between;
        active_lock (
          latest ← read_registry;
          match dget key latest with
          | None => mret None
          | Some e =>
              live ← lift (_entry_is_live false e);
              if live : bool then mret (Some e)
              else _ ← write_registry (ddel key latest); mret None
          end)
  end.

(** [peek_session]. *)
Definition peek_active_session (name : string) (forge_root : option string) : M world (option ActiveSessionEntry) :=
  found ← active_lock (
    w ← get;
    index ← lift (peek_registry w);
    key ← lift (resolve_key_strict active_root index name forge_root);
    mret (key ≫= fun key => dget key index));
  match found with
  | None => mret None
  | Some e => live ← lift (_entry_is_live false e); mret (if live : bool then Some e else None)
  end.

(** The loop of [list_sessions] over the stale keys: what is left, and whether it changed. *)
Fixpoint prune_stale (stale : list string) (latest : ActiveSessionIndex) : res (ActiveSessionIndex * bool) :=
  match stale with
  | [] => Ok (latest, false)
  | key :: stale =>
      match dget key latest with
      | None => prune_stale stale latest
      | Some e =>
          live ← _entry_is_live false e;
          if live : bool then prune_stale stale latest
          else rest ← (prune_stale stale (ddel key latest) : res (ActiveSessionIndex * bool)); Ok (fst rest, true)
      end
  end.

(** The keys of entries that are not live. *)
Fixpoint not_live (i : ActiveSessionIndex) : res (list string) :=
  match i with
  | [] => Ok []
  | (key, e) :: i =>
      live ← _entry_is_live false e;
      rest ← not_live i;
      Ok (if live : bool then rest else key :: rest)
  end.

(** [list_sessions]. *)
Definition list_active_sessions (between : world -> world) : M world (list (string * ActiveSessionEntry)) :=
  index ← active_lock read_registry;
  stale ← lift (not_live index);
  match stale with
  | [] => mret (by_name index)
  | _ =>
      _ ← others between;
      index ← active_lock (
        latest ← read_registry;
        pruned ← lift (prune_stale stale latest);
        _ ← (if snd pruned : bool then write_registry (fst pruned) else mret tt : M world unit);
        mret (fst pruned));
      mret (by_name index)
  end.

(** [peek_sessions]. *)
Definition peek_active_sessions : M world (list (string * ActiveSessionEntry)) :=
  index ← active_lock (
    w ← get;
    match peek_registry w with
    | Ok i => mret i
    | Err e => if is_discardable (exn_cls e) then mret [] else throw e
    end);
  live ← lift (keep_live false index);
  mret (by_name live).

(** [peek_sessions_strict]. *)
Definition peek_sessions_strict (w : world) : res (list (string * ActiveSessionEntry)) :=
  index ← peek_registry w;
  live ← keep_live true index;
  Ok (by_name live).

(** [track_active_session] around a launch. *)
Definition track_active_session {A} (name : string) (l : launch) (getpid : Z) (now fresh : string)
    (body : M world A) : M world A :=
  _ ← register_session name l getpid now fresh None;
  r ← attempt body;
  cleared ← attempt (clear_session name (Some (launch_root l)));
  match cleared with
  | Err e => if is_exception (exn_cls e) then lift r else throw e
  | Ok _ => lift r
  end.

(** ** Deletion *)

(** The activity part of [_admission_refusals]: why the session may not be deleted now. *)
Definition active_refusals (w : world) (name forge_root : string) : res (list string) :=
  match peek_sessions_strict w with
  | Ok entries =>
      Ok (if existsb (fun p => String.eqb (fst p) name && String.eqb (real (active_root (snd p))) forge_root) entries
          then ["Session is active; exit its runtime before cleanup"] else [])
  | Err e =>
      if is_discardable (exn_cls e) || bool_decide (exn_cls e = SubprocessError)
      then Ok ["Cannot verify active session registry: " +++ exn_msg e +++ "; restore it before cleanup"]
      else Err e
  end.

(** What a deletion plan brings: the refusals other than activity (workers, dependencies,
    native content, worktree overlaps); the checks of the approved inventory and the removal
    of the content and the worktree; and the digest of the manifest as it is on disk. *)
Record deletion_plan := {
  dp_manifest_sha256 : string;
  dp_retry : bool;
  other_refusals : world -> res (list string);
  remove_content : M world unit;
  manifest_digest : world -> res string }.

(** The last check, when the directory is still there: nobody wrote the manifest meanwhile; on
    a retry it may be gone already. *)
Definition check_manifest (w : world) (plan : deletion_plan) : res unit :=
  match manifest_digest plan w with
  | Ok digest =>
      if String.eqb digest (dp_manifest_sha256 plan) then Ok tt
      else raise ValueError "Session manifest changed during cleanup"
  | Err e => if bool_decide (exn_cls e = FileNotFoundError) && dp_retry plan then Ok tt else Err e
  end.

(** [cleanup_while_leased]: the refusals come before any change; then the content and the
    worktree go, the registry entry, and the session directory. *)
Definition cleanup_session (name forge_root : string) (plan : deletion_plan) : M world unit :=
  w ← get;
  active ← lift (active_refusals w name forge_root);
  other ← lift (other_refusals plan w);
  match dedup_first [] (active ++ other) with
  | (_ :: _) as refusals => lift (raise ValueError (str_join "; " refusals))
  | [] =>
      _ ← remove_content plan;
      _ ← clear_session name (Some forge_root);
      w ← get;
      match dirs w !! dir_key forge_root name with
      | None => mret tt
      | Some _ =>
          _ ← lift (check_manifest w plan);
          _ ← delete_locked forge_root name;
          mret tt
      end
  end.

(** The transaction of [apply_session_deletion]. *)
Definition delete_session (name forge_root instance_id : string) (plan : deletion_plan) : M world bool :=
  delete_session_txn index_from_dict index_path name (Some forge_root) instance_id
    (cleanup_session name forge_root plan).

(** ** What Forge writes, Forge reads *)

(** dacite gives back what [asdict] encoded. *)
Hypothesis active_decodes : forall i, active_from_dict (registry_to_dict i) = Ok i.
Hypothesis index_decodes : forall i, index_from_dict (index_to_dict i) = Ok i.

(** An entry under the key of its own root and name, with a representable launcher. *)
Definition entry_ok (p : string * ActiveSessionEntry) : Prop :=
  p.1 = make_scoped_key (session_name_from_key p.1) (active_root p.2) /\ active_root p.2 <> "" /\
  pid_ok (a_launcher_pid p.2) = true.

(** The registry file holds [i]: Forge wrote it, or there is none yet. *)
Definition registered (w : world) (i : ActiveSessionIndex) : Prop :=
  Forall entry_ok i /\
  (active_file w = Some (CJson (VDict (registry_to_dict i))) \/ (active_file w = None /\ i = [])).

Lemma row_root_active e : row_root (active_to_dict e) = VStr (active_root e).
Proof.
  unfold row_root, active_root, or_str. destruct e as [wt ? ? ? ? ? [r|] ? ? ?]; cbn; [|done].
  unfold dgetv, dget_default. simpl. destruct (String.eqb_spec r "") as [->|]; [done|]. by destruct r.
Qed.

Lemma key_shape_written i : Forall entry_ok i -> _has_current_key_shape (registry_to_dict i) = true.
Proof.
  intros Hi. change (forallb entry_shape (prod_map id (VDict ∘ active_to_dict) <$> i) = true).
  apply forallb_forall. intros p ([key e] & -> & Hp)%list_elem_of_In%list_elem_of_fmap.
  rewrite Forall_forall in Hi. destruct (Hi _ Hp) as (Hk & Hr & _). cbn [fst snd] in *.
  unfold entry_shape. cbn [prod_map fst snd compose id]. rewrite row_root_active.
  apply andb_true_iff. split; [by apply negb_true_iff, String.eqb_neq|by apply String.eqb_eq].
Qed.

Lemma peek_registered w i : registered w i -> peek_registry w = Ok i.
Proof.
  intros [Hi [E|[E ->]]]; unfold peek_registry; rewrite E; [|done]. unfold _read_validated. rewrite res_bind_ok.
  change (py_eq (dgetv "version" (registry_to_dict i)) (VInt ACTIVE_INDEX_VERSION)) with true.
  rewrite key_shape_written by done. cbn [andb]. rewrite active_decodes, res_bind_ok.
  replace (forallb _ i) with true; [done|]. symmetry. apply forallb_forall. intros p Hp.
  rewrite Forall_forall in Hi. rewrite <- list_elem_of_In in Hp. by apply Hi.
Qed.

Lemma registered_write w i : Forall entry_ok i -> registered (set_active i w) i.
Proof. intros Hi. split; [done|]. by left. Qed.

Lemma Forall_dset {A} (Q : string * A -> Prop) k v i : Q (k, v) -> Forall Q i -> Forall Q (dset k v i).
Proof. intros Hkv. induction 1 as [|[k' v'] i Hx Hi IH]; simpl; [by repeat constructor|]. case_decide; subst; by constructor. Qed.

Lemma Forall_ddel {A} (Q : string * A -> Prop) k i : Forall Q i -> Forall Q (ddel k i).
Proof. induction 1 as [|[k' v'] i Hx Hi IH]; simpl; [done|]. case_decide; [done|by constructor]. Qed.

Lemma wp_read_registry b w i (Q : outcome ActiveSessionIndex -> world -> Prop) :
  registered w i -> Q (Ret i) w -> wp b read_registry Q w.
Proof. intros Hi HQ. unfold read_registry. do 2 wp_step. rewrite (peek_registered _ _ Hi). by wp_step. Qed.

(** ** Lemmas: activity *)

(** The registry shows a launch of the session that runs, or cannot show that none does. *)
Definition maybe_running (w : world) (name forge_root : string) : Prop :=
  match peek_registry w with
  | Err _ => True
  | Ok reg => exists key e, (key, e) ∈ reg /\ session_name_from_key key = name /\
                real (active_root e) = forge_root /\ _entry_is_live true e <> Ok false
  end.

Lemma keep_live_kept reg live key e : keep_live true reg = Ok live -> (key, e) ∈ reg ->
  _entry_is_live true e <> Ok false -> (key, e) ∈ live.
Proof.
  revert live. induction reg as [|[key' e'] reg IH]; intros live H Hin Hlive; [by apply elem_of_nil in Hin|].
  simpl in H. destruct (_entry_is_live true e') as [b|] eqn:He; [|done]. rewrite res_bind_ok in H.
  destruct (keep_live true reg) as [rest|] eqn:Hrest; [|done]. rewrite res_bind_ok in H. injection H as <-.
  apply elem_of_cons in Hin as [[= -> ->]|Hin].
  - destruct b; [by left|]. congruence.
  - specialize (IH rest eq_refl Hin Hlive). destruct b; [by right|done].
Qed.

Lemma active_refused w name forge_root : maybe_running w name forge_root -> active_refusals w name forge_root <> Ok [].
Proof.
  unfold maybe_running, active_refusals, peek_sessions_strict. destruct (peek_registry w) as [reg|e].
  2: { intros _. cbn. by destruct (_ || _). }
  rewrite res_bind_ok. intros (key & e & Hin & Hname & Hroot & Hlive).
  destruct (keep_live true reg) as [live|err] eqn:Hk.
  2: { cbn. by destruct (_ || _). }
  rewrite res_bind_ok.
  apply (keep_live_kept _ _ _ _ Hk Hin) in Hlive. destruct (existsb _ _) eqn:Hex; [done|]. exfalso.
  apply not_true_iff_false in Hex. apply Hex, existsb_exists. exists (session_name_from_key key, e). split.
  - apply list_elem_of_In. unfold by_name. rewrite sort_by_perm. apply list_elem_of_In, in_map_iff. exists (key, e).
    by rewrite <- list_elem_of_In.
  - apply andb_true_iff. split; by apply String.eqb_eq.
Qed.

Lemma maybe_running_congr w w' name root : active_file w' = active_file w -> maybe_running w name root -> maybe_running w' name root.
Proof. unfold maybe_running, peek_registry. by intros ->. Qed.

(** The stores differ at most in which project roots exist. *)
Definition nothing_lost (w w' : world) : Prop :=
  index_file w' = index_file w /\ active_file w' = active_file w /\ forall k, dirs w' !! k = dirs w !! k.

Lemma nothing_lost_touch r name w : is_Some (dirs w !! dir_key r name) -> nothing_lost w (touch r name w).
Proof.
  intros [d Hd]. split_and!; [done|done|]. intros k. unfold touch, on_dir. simpl. rewrite Hd. simpl.
  destruct (decide (k = dir_key r name)) as [->|]; [by rewrite lookup_insert_eq, Hd|by rewrite lookup_insert_ne].
Qed.

Section Refused.
Context (name r token : string) (plan : deletion_plan).

Lemma wp_cleanup_refused b w (Q : outcome unit -> world -> Prop) : maybe_running w name r ->
  (forall e, Q (Raise e) w) -> wp b (cleanup_session name r plan) Q w.
Proof.
  intros Hrun HQ. apply active_refused in Hrun. unfold cleanup_session. do 2 wp_step. wp_step. apply wp_lift; [|done].
  intros active Hactive. wp_step. apply wp_lift; [|done]. intros other _.
  destruct active as [|x active]; [done|]. simpl. by wp_step.
Qed.

Lemma delete_session_refused w i : indexed w i -> maybe_running w name r ->
  wp true (delete_session name r token plan)
    (fun o w' => o <> Ret true /\ nothing_lost w w') w.
Proof.
  intros Hi Hrun. assert (nothing_lost w w) as Hrefl by done.
  unfold delete_session, delete_session_txn. wp_step. apply wp_lift; [intros _ _|done].
  wp_step. apply wp_lift; [intros _ _|done]. unfold index_lock. apply wp_with_lock; [|by wp_faults].
  change (id w) with w. eapply wp_mono with (P := fun o w' => o <> Ret true /\ nothing_lost w w').
  2: { intros o w' [Ho Hw']. split; [done|]. by wp_faults. }
  wp_step. apply (wp_read_locked index_from_dict index_path index_decodes Hi). do 3 wp_step. apply wp_lift; [|done].
  intros [[key e]|] Hrow; [|by wp_step].
  assert (forall w1, nothing_lost w w1 ->
    wp true (w0 ← get;
             mine ← (if exists_ w0 (root e) name || bool_decide (owner_at w0 (root e) name <> None)
                     then lift (t ← review_identity w0 (root e) name; Ok (bool_decide (t = Some token)))
                     else mret true);
             if negb mine then mret false
             else _ ← cleanup_session name r plan; mret true)
      (fun o w' => o <> Ret true /\ nothing_lost w w') w1) as Hguarded.
  { intros w1 Hw1. do 2 wp_step. wp_step.
    assert (forall mine : bool, wp true (if negb mine then mret false
              else _ ← cleanup_session name r plan; mret true)
              (fun o w' => o <> Ret true /\ nothing_lost w w') w1) as Hrest.
    { intros []; cbn [negb]; [|by wp_step]. wp_step. apply wp_cleanup_refused; [|done].
      eapply maybe_running_congr; [|done]. apply Hw1. }
    case_match; [apply wp_lift; [intros mine _; apply Hrest|done]|wp_step; apply Hrest]. }
  wp_step. eapply wp_mono with (P := fun o w' => o <> Ret true /\ nothing_lost w w').
  2: { intros [[]|err|] w' [Ho Hw']; cbn [negb]; [done|by wp_step|done..]. }
  destruct (dirs w !! dir_key (root e) name) as [d|] eqn:Hd; [|by apply Hguarded].
  assert (nothing_lost w (touch (root e) name w)) as Ht by by apply nothing_lost_touch.
  unfold manifest_lock. apply wp_with_lock; [|by wp_faults].
  eapply wp_mono; [by apply Hguarded|]. intros o w' [Ho Hw']. split; [done|]. by wp_faults.
Qed.
End Refused.

(** ** Lemmas: admission *)

(** A deletion that returns true leaves no row, whatever the cleanup did. *)
Lemma delete_drops_row w i name r token cleanup_content : indexed w i ->
  wp true (delete_session_txn index_from_dict index_path name (Some r) token cleanup_content)
    (fun o w' => o = Ret true -> is_token token = true /\ exists i', indexed w' i' /\ dget (make_scoped_key name r) i' = None) w.
Proof.
  intros Hi. unfold delete_session_txn. wp_step. apply wp_lift; [intros _ _|done].
  wp_step. apply wp_lift; [intros [] Htok|done]. unfold index_lock. apply wp_with_lock; [|by wp_faults].
  change (id w) with w.
  eapply wp_mono with (P := fun o w' => o = Ret true -> is_token token = true /\ exists i', indexed w' i' /\ dget (make_scoped_key name r) i' = None).
  2: { intros o w' Ho. split; [done|]. by wp_faults. }
  wp_step. apply (wp_read_locked index_from_dict index_path index_decodes Hi). do 3 wp_step. rewrite instance_row_find. wp_step.
  assert (is_token token = true) as Ht.
  { unfold _require_instance_id in Htok. by destruct (is_token token). }
  destruct (dget (make_scoped_key name r) i) as [e|] eqn:Hkey; [|by wp_step]. case_bool_decide; [|by wp_step].
  wp_step. apply wp_any. intros [[]|err|] w'; cbn [negb]; [|by wp_step|done..].
  wp_step. unfold write_index. apply wp_commit; [|by wp_faults]. wp_step. intros _. split; [done|].
  exists (ddel (make_scoped_key name r) i). destruct Hi as [Hwf _]. split.
  - by apply indexed_write, wf_index_ddel.
  - rewrite dget_ddel by apply Hwf. by rewrite decide_True.
Qed.

Section Admission.
Context (name : string) (l : launch) (getpid : Z) (now fresh : string).
Let r := launch_root l.
Let key := make_scoped_key name r.
Let entry := new_entry l r getpid now.
Hypothesis Hr : r <> "".
Hypothesis Hpid : pid_ok (VInt (default getpid (l_launcher_pid l))) = true.

Lemma active_root_new : active_root entry = r.
Proof. unfold active_root, or_str. simpl. by destruct (String.eqb_spec r ""). Qed.

Lemma new_entry_ok : validate_name name = Ok tt -> entry_ok (key, entry).
Proof. intros Hn. split_and!; cbn [fst snd]; [|by rewrite active_root_new|done]. rewrite active_root_new. unfold key. by rewrite name_of_key. Qed.

(** What a registration leaves: the store, or the store with the entry; the entry if it is [done]. *)
Definition registered_or_same (w : world) (reg : ActiveSessionIndex) (done : Prop) (w' : world) : Prop :=
  w' = set_active (dset key entry reg) w \/ ~ done /\ w' = w.

Lemma ros_mono w reg (p q : Prop) w' : (q -> p) -> registered_or_same w reg p w' -> registered_or_same w reg q w'.
Proof. intros Hqp [->|[Hp ->]]; [by left|right; tauto]. Qed.

Lemma upsert_rooted : upsert_session name (set_launch_root r l) getpid now = upsert_session name l getpid now.
Proof.
  unfold upsert_session. replace (launch_root (set_launch_root r l)) with r; [done|].
  unfold launch_root at 1, or_str. simpl. by destruct (String.eqb_spec r "").
Qed.

Lemma wp_upsert w reg : registered w reg ->
  wp true (upsert_session name l getpid now) (fun o w' => registered_or_same w reg (exists e, o = Ret e) w') w.
Proof.
  intros Hreg. unfold upsert_session, active_lock. assert (forall o, (forall e, o <> Ret e) ->
    registered_or_same w reg (exists e : ActiveSessionEntry, o = Ret e) w) as Hno by (right; naive_solver).
  apply wp_with_lock; [|wp_faults; by apply Hno].
  change (id w) with w. eapply wp_mono with (P := fun o w' => registered_or_same w reg (exists e, o = Ret e) w').
  2: { intros o w' Ho. split; [done|]. wp_faults; (eapply ros_mono; [|done]); naive_solver. }
  wp_step. apply (wp_read_registry _ _ _ _ Hreg). cbv zeta. wp_step. unfold write_registry. apply wp_commit; [wp_step; by left|].
  wp_faults; (by left) || by apply Hno.
Qed.

(** The instance transaction of a registration: the callback runs under the index lock. *)
Lemma wp_admission w i reg token (callback : M world unit) : indexed w i -> registered w reg ->
  wp true callback (fun o w' => registered_or_same w reg (o = Ret tt) w') w ->
  wp true (run_session_instance_txn index_from_dict index_path name r token [] callback) (fun o w' =>
    registered_or_same w reg (o = Ret true) w' /\ (o = Ret true -> validate_name name = Ok tt)) w.
Proof.
  intros Hi Hreg Hcb.
  set (Q := fun o w' => registered_or_same w reg (o = Ret true) w' /\ (o = Ret true -> validate_name name = Ok tt)).
  assert (forall o, o <> Ret true -> Q o w) as Hno by (intros o Ho; by split; [right|]).
  unfold run_session_instance_txn. wp_step. apply wp_lift; [intros [] Hn|by auto].
  wp_step. apply wp_lift; [intros _ _|by auto]. unfold index_lock. apply wp_with_lock; [|wp_faults; by apply Hno].
  change (id w) with w. eapply wp_mono with (P := Q).
  2: { intros o w' [Ho Ho']. split; [done|]. wp_faults; (split; [|done]); (by eapply ros_mono; [|done]). }
  wp_step. apply (wp_read_locked index_from_dict index_path index_decodes Hi). do 3 wp_step. apply wp_lift; [|by auto].
  intros [[k e]|] _; [|wp_step; by apply Hno]. wp_step. apply wp_lift; [|by auto]. intros [] _; cbn [negb]; [|wp_step; by apply Hno].
  cbn [all_owned]. do 2 wp_step. cbn [negb]. wp_step. eapply wp_mono; [apply Hcb|].
  intros [[]|err|] w' Ho; [wp_step; by split; [eapply ros_mono; [|done]|]| |]; (split; [|done]); by eapply ros_mono; [|done].
Qed.

(** The registry holds the launch, and the index is readable. *)
Definition admitted (w : world) (reg : ActiveSessionIndex) : Prop :=
  validate_name name = Ok tt /\ readable w /\ registered w (dset key entry reg).

Lemma registered_congr w w' reg : active_file w' = active_file w -> registered w reg -> registered w' reg.
Proof. unfold registered. by intros ->. Qed.

(** Migrating an instance does not write the registry. *)
Lemma migrate_registered sha ownerless reg root' :
  preserves (fun w => registered w reg) (migrate_session_identity index_from_dict index_path name root' sha ownerless fresh).
Proof.
  assert (forall k f w, registered w reg -> registered (on_dir k f w) reg) as Hdir by (intros k f w; by apply registered_congr).
  assert (forall c w, registered w reg -> registered (set_index c w) reg) as Hindex by (intros c w; by apply registered_congr).
  unfold migrate_session_identity, migrate_instance_identity, index_lock, read_locked, write_index, manifest_lock, write_owner, touch.
  repeat first [preserve1 ltac:(auto) | case_match].
Qed.

Lemma wp_register w i reg expected : indexed w i -> registered w reg -> is_token fresh = true ->
  wp true (register_session name l getpid now fresh expected) (fun o w' => forall e, o = Ret e -> e = entry /\ admitted w' reg) w.
Proof.
  intros Hi Hreg Hf. unfold register_session. fold r. cbv zeta. wp_step.
  set (migrate := migrate_session_identity _ _ _ _ _ _ _).
  assert (wp true migrate (fun _ w' => readable w' /\ registered w' reg) w) as Hmigrate.
  { apply wp_and; [|by apply migrate_registered]. apply keeps_migrate; [done..|by exists i]. }
  eapply wp_mono with (P := fun _ w' => readable w' /\ registered w' reg).
  { assert (readable w) by by exists i. destruct expected as [t|]; [|done]. destruct (String.eqb t ""); [done|by wp_step]. }
  intros [t|err|] w1 [[i1 Hi1] Hreg1]; [|done..]. wp_step.
  eapply wp_mono; [eapply (wp_admission w1 i1 reg t); [done..|]|].
  - rewrite upsert_rooted. wp_step. eapply wp_mono; [by apply wp_upsert|].
    intros [e|err|] w' Hw'; cbn beta iota; [wp_step|..]; (eapply ros_mono; [|exact Hw']); [by eexists|done..].
  - intros [[]|err|] w' [Hw' Hn]; [wp_step|by wp_step|done..]. intros e [= <-]. split; [done|].
    destruct Hw' as [->|[[] _]]; [|done]. split; [auto|]. split; [exists i1; by eapply indexed_congr|].
    apply registered_write, Forall_dset; [apply new_entry_ok; auto|apply Hreg1].
Qed.

(** A launch that was admitted and may run keeps the session from deletion. *)
Lemma admitted_running w reg : real r = r -> admitted w reg -> _entry_is_live true entry <> Ok false -> maybe_running w name r.
Proof.
  intros Hreal (Hn & _ & Hreg) Hlive. unfold maybe_running. rewrite (peek_registered _ _ Hreg). exists key, entry.
  rewrite active_root_new. split_and!; [|by apply name_of_key|done..]. apply dget_elem_of. by rewrite dget_dset, decide_True.
Qed.

(** No row, no launch. *)
Lemma register_refused w i token expected : indexed w i -> dget key i = None -> token <> "" ->
  expected = None \/ expected = Some token ->
  wp true (register_session name l getpid now fresh expected) (fun o w' => w' = w /\ forall e, o <> Ret e) w.
Proof.
  intros Hi Hgone Hne Hexp. unfold register_session. fold r. cbv zeta. wp_step. destruct Hexp as [-> | ->].
  - eapply wp_mono with (P := fun o w' => w' = w /\ forall t, o <> Ret t).
    2: { intros [t|err|] w' [-> Ho]; [by destruct (Ho t)|done..]. }
    unfold migrate_session_identity. wp_step. apply wp_lift; [intros _ _|done]. unfold index_lock. apply wp_with_lock; [|by wp_faults].
    change (id w) with w. eapply wp_mono with (P := fun o w' => w' = w /\ forall t, o <> Ret t).
    2: { intros o w' [-> Ho]. split; [done|]. by wp_faults. }
    wp_step. apply (wp_read_locked index_from_dict index_path index_decodes Hi). wp_step. apply wp_lift; [|done].
    unfold find_row, resolve_key_strict, dhas. fold key. by rewrite Hgone.
  - destruct (String.eqb_spec token ""); [done|]. do 2 wp_step. eapply wp_mono; [apply (stale_not_run index_from_dict index_path index_decodes w i _ _ token [] _ Hi)|].
    + intros (e & He & _). fold key in He. congruence.
    + intros [[]|err|] w' [-> Ho]; [done|by wp_step|done..].
Qed.
End Admission.


(** ** The registry stays valid *)

Definition has_registry (w : world) : Prop := exists reg, registered w reg.

Lemma has_registry_congr w w' : active_file w' = active_file w -> has_registry w -> has_registry w'.
Proof. intros H [reg Hreg]. exists reg. by eapply registered_congr. Qed.

Lemma keeps_write_registry reg : Forall entry_ok reg -> preserves has_registry (write_registry reg).
Proof. intros H. apply preserves_commit. intros w _. exists reg. by apply registered_write. Qed.

(** A body that reads the registry may use that its entries are well formed. *)
Lemma keeps_read_registry {A} (f : ActiveSessionIndex -> M world A) :
  (forall reg, Forall entry_ok reg -> preserves has_registry (f reg)) -> preserves has_registry (reg ← read_registry; f reg).
Proof. intros Hf w [reg Hreg]. wp_step. apply (wp_read_registry _ _ _ _ Hreg). apply Hf; [apply Hreg|by exists reg]. Qed.

Ltac registry_step :=
  lazymatch goal with
  | |- preserves _ (mbind _ read_registry) => apply keeps_read_registry; intros ? ?; cbv beta zeta
  | |- preserves _ (write_registry _) => apply keeps_write_registry; try by auto using Forall_ddel
  | _ => preserve1 ltac:(eauto using has_registry_congr)
  end.

Lemma Forall_dget {A} (Q : string * A -> Prop) k v i : Forall Q i -> dget k i = Some v -> Q (k, v).
Proof. rewrite Forall_forall. intros H Hk%dget_elem_of. by apply H. Qed.

Lemma entry_ok_uuid k e s : entry_ok (k, e) -> entry_ok (k, set_active_uuid s e).
Proof. done. Qed.

Lemma keeps_upsert name l getpid now : validate_name name = Ok tt -> launch_root l <> "" ->
  pid_ok (VInt (default getpid (l_launcher_pid l))) = true -> preserves has_registry (upsert_session name l getpid now).
Proof.
  intros Hn Hr Hpid. unfold upsert_session, active_lock. repeat registry_step. apply Forall_dset; [|done].
  by apply new_entry_ok.
Qed.

Lemma keeps_update_uuid name uuid root' : preserves has_registry (update_active_uuid name uuid root').
Proof.
  unfold update_active_uuid, active_lock. repeat registry_step. destruct (resolve_key_best_effort _ _ _) as [k|]; repeat registry_step.
  destruct (dget k reg) as [e|] eqn:Hk; [|done]. apply Forall_dset; [|done]. apply entry_ok_uuid. by eapply Forall_dget.
Qed.

Lemma keeps_clear name root' : preserves has_registry (clear_session name root').
Proof. unfold clear_session, active_lock. repeat registry_step. destruct a; repeat registry_step. Qed.

Lemma keeps_clear_uuid uuid : preserves has_registry (clear_by_claude_session_id uuid).
Proof.
  unfold clear_by_claude_session_id, active_lock. repeat registry_step. apply Forall_forall. intros p Hp%list_elem_of_In.
  apply filter_In in Hp as [Hp _]. rewrite Forall_forall in H. by apply H, list_elem_of_In.
Qed.

Lemma prune_stale_ok stale reg p : Forall entry_ok reg -> prune_stale stale reg = Ok p -> Forall entry_ok p.1.
Proof.
  revert reg p. induction stale as [|k stale IH]; intros reg p Hreg; simpl; [by intros [= <-]|].
  destruct (dget k reg) as [e|]; [|by apply IH]. destruct (_entry_is_live false e) as [[]|]; [by apply IH| |done].
  rewrite res_bind_ok. destruct (prune_stale stale (ddel k reg)) as [q|] eqn:Hq; [|done]. intros [= <-].
  apply (IH (ddel k reg) q); [by apply Forall_ddel|done].
Qed.

Section Neighbours.
Context (between : world -> world).
Hypothesis Hbetween : forall w, has_registry w -> has_registry (between w).

Lemma keeps_list_active : preserves has_registry (list_active_sessions between).
Proof.
  unfold list_active_sessions, active_lock. repeat registry_step.
  { intros w [reg Hreg]. apply (wp_read_registry _ _ _ _ Hreg). by exists reg. }
  destruct a0; repeat registry_step. by eapply prune_stale_ok.
Qed.

Lemma keeps_get_active name root' : preserves has_registry (get_active_session name root' between).
Proof.
  unfold get_active_session, active_lock. repeat registry_step. destruct a as [[k e]|]; repeat registry_step.
  destruct (dget k _) as [e'|]; repeat registry_step.
Qed.
End Neighbours.

(** The operations that may write the registry. *)
Inductive registry_op :=
| OpRegister (name : string) (l : launch) (getpid : Z) (now fresh : string) (expected : option string)
| OpUpdateUuid (name uuid : string) (forge_root : option string)
| OpClear (name : string) (forge_root : option string)
| OpClearUuid (uuid : string)
| OpGetActive (name : string) (forge_root : option string) (between : world -> world)
| OpListActive (between : world -> world).

Definition perform_registry (op : registry_op) : M world unit :=
  match op with
  | OpRegister name l getpid now fresh expected => forget (register_session name l getpid now fresh expected)
  | OpUpdateUuid name uuid r => forget (update_active_uuid name uuid r)
  | OpClear name r => forget (clear_session name r)
  | OpClearUuid uuid => forget (clear_by_claude_session_id uuid)
  | OpGetActive name r between => forget (get_active_session name r between)
  | OpListActive between => forget (list_active_sessions between)
  end.

(** What the callers provide: a root and a pid, and neighbours that keep the registry valid. *)
Definition registry_op_ok (op : registry_op) : Prop :=
  match op with
  | OpRegister _ l getpid _ _ _ =>
      launch_root l <> "" /\ pid_ok (VInt (default getpid (l_launcher_pid l))) = true
  | OpGetActive _ _ between | OpListActive between => forall w, has_registry w -> has_registry (between w)
  | _ => True
  end.

Lemma keeps_register name l getpid now fresh expected : launch_root l <> "" ->
  pid_ok (VInt (default getpid (l_launcher_pid l))) = true ->
  preserves has_registry (register_session name l getpid now fresh expected).
Proof.
  intros Hr Hpid. unfold register_session. cbv zeta. apply preserves_bind.
  { assert (forall sha ownerless root', preserves has_registry
      (migrate_session_identity index_from_dict index_path name root' sha ownerless fresh)) as Hm.
    { intros sha ownerless root' w [reg Hreg]. eapply wp_mono; [by apply migrate_registered|]. intros o w' H. by exists reg. }
    destruct expected as [t|]; [|apply Hm]. destruct (String.eqb t ""); [apply Hm|by repeat registry_step]. }
  intros t. rewrite upsert_rooted by done. apply preserves_bind; [|intros []; repeat registry_step].
  unfold run_session_instance_txn, index_lock, read_locked. repeat registry_step.
  destruct a2 as [[k e]|]; repeat registry_step. destruct a. by apply keeps_upsert.
Qed.

Lemma keeps_forget_registry {A} (m : M world A) : preserves has_registry m -> preserves has_registry (forget m).
Proof. intros Hm. unfold forget. by repeat registry_step. Qed.

Lemma perform_registry_keeps op : registry_op_ok op -> preserves has_registry (perform_registry op).
Proof.
  destruct op; simpl; intros Hok; apply keeps_forget_registry; destruct_and?;
    auto using keeps_register, keeps_update_uuid, keeps_clear, keeps_clear_uuid, keeps_get_active, keeps_list_active.
Qed.

(** A history of the registry: each operation runs under its own faults. *)
Fixpoint registry_run (ops : list (registry_op * list fault)) (w : world) : world :=
  match ops with
  | [] => w
  | (op, faults) :: ops => registry_run ops (snd (perform_registry op faults w))
  end.


End Liveness.
End ActiveSessions.

(** ** A concrete registry *)

Module ActiveSample.
Import IndexSample.

Definition active_from (v : value) : ActiveSessionEntry :=
  let d := match v with VDict d => d | _ => [] end in
  {| a_worktree_path := str_of "worktree_path" d; a_started_at := str_of "started_at" d;
     a_launch_mode := str_of "launch_mode" d; a_launcher_pid := dgetv "launcher_pid" d;
     a_claude_session_id := opt_of "claude_session_id" d; a_container_name := opt_of "container_name" d;
     a_forge_root := opt_of "forge_root" d; a_authority_run_id := opt_of "authority_run_id" d;
     a_authority_config_sha256 := opt_of "authority_config_sha256" d;
     a_authority_hook_registration_sha256 := opt_of "authority_hook_registration_sha256" d |}.

Definition registry_from (data : dict) : res ActiveSessionIndex :=
  match dgetv "sessions" data with VDict rows => Ok (prod_map id active_from <$> rows) | _ => Ok [] end.

Lemma active_from_to e : active_from (VDict (active_to_dict e)) = e.
Proof. destruct e as [???? [] [] [] [] [] []]; reflexivity. Qed.

Lemma registry_decodes i : registry_from (registry_to_dict i) = Ok i.
Proof.
  unfold registry_from. change (dgetv "sessions" _) with (VDict (prod_map id (VDict ∘ active_to_dict) <$> i)). cbv iota beta.
  f_equal. induction i as [|[k e] i IH]; [done|]. change ((k, active_from (VDict (active_to_dict e))) ::
    (prod_map id active_from <$> (prod_map id (VDict ∘ active_to_dict) <$> i)) = (k, e) :: i).
  by rewrite IH, active_from_to.
Qed.

(** Process 42 runs; there is no Docker. *)
Definition probes : Probes := {|
  is_pid_alive := fun pid => pid =? 42;
  is_container_running := fun _ => raise OSError "no docker";
  docker_ps := fun _ => raise OSError "no docker" |}.

Definition host_launch : launch := {|
  l_worktree_path := "/p"; l_launch_mode := "host"; l_launcher_pid := None; l_claude_session_id := None;
  l_container_name := None; l_forge_root := None; l_authority_run_id := None; l_authority_config_sha256 := None;
  l_authority_hook_registration_sha256 := None |}.

Definition launch_planner := register_session registry_from sample_from_dict "i" "planner" host_launch 42 "t1" token2 (Some token).
Definition removal : deletion_plan := {|
  dp_manifest_sha256 := "sha"; dp_retry := false; other_refusals := fun _ => Ok []; remove_content := mret tt;
  manifest_digest := fun _ => Ok "sha" |}.
Definition delete_planner := delete_session registry_from sample_from_dict "i" probes "planner" "/p" token removal.

Lemma no_registry : registered with_planner [].
Proof. split; [done|by right]. Qed.


(** A killed launch, another one, and a listing after the first process is gone. *)
Definition registry_ops : list (registry_op * list fault) :=
  [(OpRegister "planner" host_launch 41 "t1" token2 (Some token), [NoFault; NoFault; Kill]);
   (OpRegister "planner" host_launch 41 "t2" token2 (Some token), []);
   (OpUpdateUuid "planner" "uuid-9" None, []);
   (OpListActive id, [])].


Example listed_pruned : active_file (registry_run registry_from sample_from_dict "i" probes registry_ops with_planner) =
  Some (CJson (VDict (registry_to_dict []))).
Proof. vm_compute. reflexivity. Qed.

End ActiveSample.
