(* ===== verification/SessionEvents.v ===== *)
(** * SessionEvents: the review checkpoint of a session

    [src/forge/session/events.py]: [update_review_checkpoint] and [read_review_checkpoint], the
    journal that holds the state of Stop reviews, with the marker beside it. A journal is the
    records that a strict read gives, or the exception it raises; the records' validation is an
    argument, and so is the length of a record's line. The steps on disk are durable steps of
    Effects.v. *)

From S2P Require Import Prelude Effects.

Inductive journal (Ev : Type) :=
| NoJournal
| Records (rs : list Ev)
| Unreadable (e : pyexn).
Arguments NoJournal {Ev}.
Arguments Records {Ev} rs.
Arguments Unreadable {Ev} e.

(** The file [checkpoint-established]. *)
Inductive established := NoMarker | Marker | DamagedMarker.

(** A store that has a journal and its marker. *)
Class CheckpointStore (W Ev : Type) := {
  journal_of : W -> journal Ev;
  set_journal : journal Ev -> W -> W;
  marker_of : W -> established;
  set_marker : established -> W -> W;
  journal_of_set_journal j w : journal_of (set_journal j w) = j;
  marker_of_set_journal j w : marker_of (set_journal j w) = marker_of w;
  marker_of_set_marker m w : marker_of (set_marker m w) = m;
  journal_of_set_marker m w : journal_of (set_marker m w) = journal_of w }.

Definition read_error {A} (msg : string) : res A := raise ForgeSessionError msg.

(** [_validate_review_marker]. *)
Definition _validate_review_marker (m : established) : res unit :=
  match m with DamagedMarker => read_error "review checkpoint marker is damaged" | _ => Ok tt end.

Definition marker_exists (m : established) : bool := match m with NoMarker => false | _ => true end.
Definition journal_exists {Ev} (j : journal Ev) : bool := match j with NoJournal => false | _ => true end.

Definition MAX_JOURNAL_BYTES : Z := 2000000.
Definition MAX_CHECKPOINT_BYTES : Z := 900000.
Definition MAX_RETAINED_BYTES : Z := 1800000.
Definition MAX_RETAINED_RECORDS : nat := 16.

Section Checkpoint.
Context {W Ev : Type} `{!CheckpointStore W Ev}.

(** The callback of an update gives its candidate and what it leaves in the variables it closes
    over ([X]). *)
Context {X : Type}.

(** The bytes of an event's line. *)
Context (line_size : Ev -> Z).
Context (validate : Ev -> res unit).

Definition journal_size (rs : list Ev) : Z := foldr (fun r n => line_size r + n) 0 rs.

(** [read_session_events] with [max_bytes]. *)
Definition read_session_events (j : journal Ev) : res (list Ev) :=
  match j with
  | NoJournal => Ok []
  | Records rs =>
      if MAX_JOURNAL_BYTES <? journal_size rs then read_error "session-event journal exceeds the bounded reader limit"
      else Ok rs
  | Unreadable e => Err e
  end.

(** [read_review_checkpoint]. *)
Definition read_review_checkpoint (w : W) : res (option Ev) :=
  _ ← _validate_review_marker (marker_of w);
  if marker_exists (marker_of w) && negb (journal_exists (journal_of w))
  then read_error "review checkpoint history is missing"
  else
    records ← read_session_events (journal_of w);
    match last records with
    | None => if journal_exists (journal_of w) then read_error "established review checkpoint is empty" else Ok None
    | previous => Ok previous
    end.

(** The records the new one is appended to: none when they are too many or too long. *)
Definition retained (records : list Ev) (event : Ev) : list Ev :=
  if (MAX_RETAINED_BYTES <? journal_size (records ++ [event])) || (MAX_RETAINED_RECORDS <=? length records)%nat
  then [] else records.

(** The part of [update_review_checkpoint] after the callback: the journal is replaced, then the
    marker made. A [commit id] is a step that can fail but changes nothing here (directories,
    [chmod], [fsync]). *)
Definition publish (records : list Ev) (event : Ev) : M W (option Ev) :=
  _ ← lift (validate event);
  if MAX_CHECKPOINT_BYTES <? line_size event
  then lift (raise ForgeSessionError "review checkpoint exceeds its bounded storage limit")
  else
    _ ← commit (set_journal (Records (retained records event ++ [event])));
    _ ← commit id;
    w ← get;
    _ ← (if marker_exists (marker_of w) then mret tt
         else _ ← commit (set_marker Marker); commit id);
    mret (Some event).

(** [update_review_checkpoint]. *)
Definition update_review_checkpoint (update : option Ev -> M W (option Ev * X)) : M W (option Ev * X) :=
  _ ← commit id;
  with_lock id (
    w ← get;
    _ ← lift (_validate_review_marker (marker_of w));
    if marker_exists (marker_of w) && negb (journal_exists (journal_of w))
    then lift (read_error "review checkpoint history is missing; restore artifacts or use a new session")
    else
      records ← lift (read_session_events (journal_of w));
      let previous := last records in
      if journal_exists (journal_of w) && negb (bool_decide (is_Some previous))
      then lift (read_error "established review checkpoint is empty")
      else
        '(candidate, x) ← update previous;
        stored ← match candidate with
                 | None => mret previous
                 | Some event => publish records event
                 end;
        mret (stored, x)).

(** ** Lemmas *)

(** A journal as this program writes it: it can be read, holds at least one record and at most
    [MAX_RETAINED_RECORDS], and is there if the marker is. *)
Definition intact (w : W) : Prop :=
  marker_of w <> DamagedMarker /\
  match journal_of w with
  | NoJournal => marker_of w = NoMarker
  | Records rs => rs <> [] /\ (length rs <= MAX_RETAINED_RECORDS)%nat /\ journal_size rs <= MAX_RETAINED_BYTES
  | Unreadable _ => False
  end.

(** The state the next update will see. *)
Definition latest (w : W) : option Ev := match journal_of w with Records rs => last rs | _ => None end.

Lemma read_intact w : intact w -> exists rs, read_session_events (journal_of w) = Ok rs /\ last rs = latest w /\
  (rs = [] <-> journal_of w = NoJournal) /\ (forall r, journal_of w = Records r -> r = rs).
Proof.
  unfold intact, latest, read_session_events. destruct (journal_of w) as [|rs|e]; [|intros (_ & Hne & Hl & Hs)|naive_solver].
  - intros _. exists []. naive_solver.
  - exists rs. destruct (MAX_JOURNAL_BYTES <? journal_size rs) eqn:H; [exfalso; unfold MAX_JOURNAL_BYTES, MAX_RETAINED_BYTES in *; lia|].
    naive_solver.
Qed.

Lemma intact_marker w : intact w -> _validate_review_marker (marker_of w) = Ok tt /\
  marker_exists (marker_of w) && negb (journal_exists (journal_of w)) = false.
Proof.
  unfold intact. destruct (marker_of w), (journal_of w); simpl; naive_solver.
Qed.

Lemma retained_intact rs event :
  line_size event <= MAX_CHECKPOINT_BYTES ->
  (length rs <= MAX_RETAINED_RECORDS)%nat ->
  (length (retained rs event ++ [event]) <= MAX_RETAINED_RECORDS)%nat /\
  journal_size (retained rs event ++ [event]) <= MAX_RETAINED_BYTES.
Proof.
  intros Hsz Hl. unfold retained, MAX_CHECKPOINT_BYTES, MAX_RETAINED_RECORDS, MAX_RETAINED_BYTES in *.
  destruct (1800000 <? journal_size (rs ++ [event])) eqn:H1; cbn [orb].
  { simpl. split; lia. }
  destruct (16 <=? length rs)%nat eqn:H2; [simpl; split; lia|].
  apply Nat.leb_gt in H2. rewrite length_app. simpl. split; lia.
Qed.

Lemma intact_written rs event w :
  line_size event <= MAX_CHECKPOINT_BYTES -> (length rs <= MAX_RETAINED_RECORDS)%nat -> marker_of w <> DamagedMarker ->
  intact (set_journal (Records (retained rs event ++ [event])) w) /\
  latest (set_journal (Records (retained rs event ++ [event])) w) = Some event.
Proof.
  intros Hsz Hl Hm. destruct (retained_intact rs event Hsz Hl) as [H1 H2].
  unfold intact, latest. rewrite journal_of_set_journal, marker_of_set_journal, last_snoc.
  split_and!; try done. by destruct (retained rs event).
Qed.

Lemma intact_marked w : intact w -> journal_of w <> NoJournal -> intact (set_marker Marker w) /\ latest (set_marker Marker w) = latest w.
Proof.
  unfold intact, latest. rewrite journal_of_set_marker, marker_of_set_marker.
  destruct (journal_of w); naive_solver.
Qed.

(** ** One update *)

Definition ends {A} (o : outcome A) : Prop := match o with Ret _ => False | _ => True end.
Definition returns_or_ends {A} (a : A) (o : outcome A) : Prop := match o with Ret b => b = a | _ => True end.

(** The checkpoint is as it was. *)
Definition keeps (w w' : W) : Prop := journal_of w' = journal_of w /\ marker_of w' = marker_of w.

(** The store after [event] has been written; the marker follows. *)
Definition written (event : Ev) (w w' : W) : Prop :=
  let w1 := set_journal (Records (retained (match journal_of w with Records rs => rs | _ => [] end) event ++ [event])) w in
  w' = w1 \/ w' = set_marker Marker w1.

(** How an update ends, by what the callback gives: [C c x w1] if it returns [c] and [x] and
    leaves [w1], [D w1] if it does not return. *)
Inductive update_ends (C : option Ev -> X -> W -> Prop) (D : W -> Prop) (w : W) : outcome (option Ev * X) -> W -> Prop :=
| stopped_before o : ends o -> update_ends C D w o w
| callback_ended o w1 : ends o -> D w1 -> keeps w w1 -> update_ends C D w o w1
| left_as_it_was o x w1 : C None x w1 -> keeps w w1 -> returns_or_ends (latest w, x) o -> update_ends C D w o w1
| not_written o event x w1 : ends o -> C (Some event) x w1 -> keeps w w1 -> update_ends C D w o w1
| event_written o event x w1 w' :
    C (Some event) x w1 -> keeps w w1 -> validate event = Ok tt -> line_size event <= MAX_CHECKPOINT_BYTES ->
    written event w1 w' -> returns_or_ends (Some event, x) o -> update_ends C D w o w'.

Hint Constructors update_ends : core.

Lemma keeps_trans w w1 w2 : keeps w w1 -> keeps w1 w2 -> keeps w w2.
Proof. unfold keeps. intros [H1 H2] [H3 H4]. split; congruence. Qed.

Lemma keeps_latest w w1 : keeps w w1 -> latest w1 = latest w.
Proof. unfold keeps, latest. by intros [-> _]. Qed.

Lemma keeps_intact w w1 : keeps w w1 -> intact w -> intact w1.
Proof. unfold keeps, intact. by intros [-> ->]. Qed.

Lemma written_intact event w w' :
  intact w -> line_size event <= MAX_CHECKPOINT_BYTES -> written event w w' -> intact w' /\ latest w' = Some event.
Proof.
  intros Hi Hsz Hw. unfold written in Hw.
  assert (Hl : (length (match journal_of w with Records rs => rs | _ => [] end) <= MAX_RETAINED_RECORDS)%nat).
  { unfold intact in Hi. destruct (journal_of w); [cbn; lia|naive_solver|cbn; lia]. }
  destruct (intact_written _ event w Hsz Hl (proj1 Hi)) as [H1 H2].
  destruct Hw as [->| ->]; [done|]. rewrite <- H2. apply intact_marked; [done|]. by rewrite journal_of_set_journal.
Qed.

(** What publishing leaves. *)
Inductive published (event : Ev) (w : W) : outcome (option Ev) -> W -> Prop :=
| nothing_published o : ends o -> published event w o w
| was_published o w' :
    validate event = Ok tt -> line_size event <= MAX_CHECKPOINT_BYTES -> written event w w' ->
    returns_or_ends (Some event) o -> published event w o w'.

Lemma wp_publish records event w :
  match journal_of w with Records rs => rs | _ => [] end = records ->
  wp true (publish records event) (published event w) w.
Proof.
  intros Hrec. unfold publish. apply wp_bind, wp_lift; [|intros; by apply nothing_published].
  intros [] Hv. destruct (MAX_CHECKPOINT_BYTES <? line_size event) eqn:Hsz; [by apply wp_throw, nothing_published|].
  apply Z.ltb_ge in Hsz. set (w1 := set_journal (Records (retained records event ++ [event])) w).
  assert (H1 : forall o, returns_or_ends (Some event) o -> published event w o w1).
  { intros o Ho. apply was_published; try done. left. by rewrite Hrec. }
  assert (H2 : forall o, returns_or_ends (Some event) o -> published event w o (set_marker Marker w1)).
  { intros o Ho. apply was_published; try done. right. by rewrite Hrec. }
  apply wp_bind, wp_commit; fold w1; cbv beta iota; [|wp_faults; by first [apply nothing_published|apply H1]].
  apply wp_bind, wp_commit; cbv beta iota; unfold id; [|wp_faults; by apply H1].
  wp_step. wp_step. apply wp_bind. destruct (marker_exists (marker_of w1)); [by apply wp_ret, wp_ret, H1|].
  apply wp_bind, wp_commit; cbv beta iota; [|wp_faults; by first [apply H1|apply H2]].
  apply wp_commit; cbv beta iota; unfold id; [|wp_faults; by apply H2]. by apply wp_ret, H2.
Qed.

(** A postcondition for the body of a lock: it holds of failing outcomes too. *)
Definition lockable (Q : outcome (option Ev * X) -> W -> Prop) (o : outcome (option Ev * X)) (w : W) : Prop :=
  Q o w /\ (true = true -> (forall e, Q (Raise e) w) /\ Q Killed w).

Lemma lockable_published C D w event x o w1 w' :
  C (Some event) x w1 -> keeps w w1 -> published event w1 o w' ->
  match o with
  | Ret stored => lockable (update_ends C D w) (Ret (stored, x)) w'
  | Raise e => lockable (update_ends C D w) (Raise e) w'
  | Killed => lockable (update_ends C D w) Killed w'
  end.
Proof.
  intros HC Hk [o' Ho|o' w2 Hv Hsz Hw Ho].
  - destruct o'; [done|..]; (split; [by eapply not_written|]; intros _; split; [intros ?|]; by eapply not_written).
  - destruct o'; simpl in Ho; subst;
      (split; [by eapply event_written|]; intros _; split; [intros ?|]; by eapply event_written).
Qed.

Lemma wp_update_checkpoint (C : option Ev -> X -> W -> Prop) (D : W -> Prop) update w :
  intact w ->
  wp true (update (latest w)) (fun o w1 => keeps w w1 /\ match o with Ret (c, x) => C c x w1 | _ => D w1 end) w ->
  wp true (update_review_checkpoint update) (update_ends C D w) w.
Proof.
  intros Hi Hu. destruct (read_intact w Hi) as (rs & Hrs & Hlast & Hnil & Heq).
  destruct (intact_marker w Hi) as [Hm1 Hm2].
  unfold update_review_checkpoint. apply wp_bind, wp_commit; [|wp_faults; by apply stopped_before].
  apply wp_with_lock; [|wp_faults; by apply stopped_before].
  unfold id. wp_step. wp_step. cbv beta. rewrite Hm1. wp_step. wp_step. rewrite Hm2, Hrs. do 2 wp_step. rewrite Hlast.
  assert (journal_exists (journal_of w) && negb (bool_decide (is_Some (latest w))) = false) as ->.
  { rewrite <- Hlast. destruct rs as [|r0 rs0]; [by rewrite (proj1 Hnil eq_refl)|].
    rewrite bool_decide_eq_true_2; [by rewrite andb_false_r|by apply last_is_Some]. }
  apply wp_bind. eapply wp_mono; [exact Hu|]. intros [[[event|] x]|e|] w1 [Hk HC]; cbv beta iota.
  2:{ do 3 wp_step. split; [by eapply left_as_it_was|]. intros _. by split; [intros e|]; eapply left_as_it_was. }
  2,3: split; [by eapply callback_ended|]; intros _; split; [intros ?|]; by eapply callback_ended.
  apply wp_bind. eapply wp_mono; [apply wp_publish|].
  - destruct Hk as [-> _]. unfold intact in Hi. destruct (journal_of w) as [|r|]; [by rewrite (proj2 Hnil eq_refl)|by apply Heq|].
    by destruct Hi.
  - intros o w' Hp. pose proof (lockable_published C D w event x o w1 w' HC Hk Hp) as Hl.
    destruct o as [stored|e|]; [by apply wp_ret|exact Hl..].
Qed.

Lemma read_latest w : intact w -> read_review_checkpoint w = Ok (latest w).
Proof.
  intros Hi. destruct (read_intact w Hi) as (rs & Hrs & Hlast & Hnil & Heq).
  destruct (intact_marker w Hi) as [Hm1 Hm2]. unfold read_review_checkpoint.
  rewrite Hm1, res_bind_ok, Hm2, Hrs, res_bind_ok, Hlast. destruct (latest w) as [ev|] eqn:Hl; [done|].
  apply last_None in Hlast. rewrite (proj1 Hnil Hlast). done.
Qed.

(** What an update leaves as the latest record, and what it returns. *)
Lemma update_ends_latest C D w o w' :
  intact w -> update_ends C D w o w' ->
  intact w' /\ (latest w' = latest w \/ exists event x w1, C (Some event) x w1 /\ validate event = Ok tt /\ latest w' = Some event) /\
  match o with
  | Ret (stored, x) => stored = latest w' /\ exists c w1, C c x w1 /\
      match c with Some event => validate event = Ok tt /\ latest w' = Some event | None => latest w' = latest w end
  | _ => True
  end.
Proof.
  intros Hi [o1 Ho|o1 w1 Ho _ Hk|o1 x w1 HC Hk Ho|o1 event x w1 Ho _ Hk|o1 event x w1 w2 HC Hk Hv Hsz Hw Ho];
    try (split_and!; [by eapply keeps_intact|left; by apply keeps_latest|]).
  - by destruct o1.
  - by destruct o1.
  - rewrite (keeps_latest w w1) by done. destruct o1 as [[? ?]|e|]; [|done..]. injection Ho as -> ->.
    split; [done|]. exists None. eauto.
  - by destruct o1.
  - destruct (written_intact event w1 w2) as [Hi' Hl]; [by eapply keeps_intact|done..|].
    rewrite Hl. split_and!; [done|right; eauto 10|]. destruct o1 as [[? ?]|e|]; [|done..]. injection Ho as -> ->.
    split; [done|]. exists (Some event). eauto.
Qed.

(** What the journal and the marker do not touch is left as the callback leaves it. *)
Lemma preserves_update (I : W -> Prop) update :
  (forall j w, I w -> I (set_journal j w)) -> (forall m w, I w -> I (set_marker m w)) ->
  (forall previous, preserves I (update previous)) -> preserves I (update_review_checkpoint update).
Proof.
  intros Hj Hm Hu. unfold update_review_checkpoint. repeat (preserve1 ltac:(auto) || apply preserves_if); [auto|].
  intros. destruct a2 as [[event|] x]; [|repeat preserve1 ltac:(auto)]. unfold publish.
  repeat (preserve1 ltac:(auto) || apply preserves_if).
Qed.

(** What an update returns is what its callback returned. *)
Lemma returns_update (P : X -> Prop) update :
  (forall previous, returns (fun '(_, x) => P x) (update previous)) ->
  returns (fun '(_, x) => P x) (update_review_checkpoint update).
Proof.
  intros Hu. unfold update_review_checkpoint. apply returns_then. intros _. apply returns_with_lock, returns_then. intros w.
  apply returns_then. intros _. apply returns_if; [intros; by apply returns_lift|]. intros _. apply returns_then. intros records.
  apply returns_if; [intros; by apply returns_lift|]. intros _. eapply returns_bind; [apply Hu|].
  intros [candidate x] Hx. apply returns_then. intros stored. by apply returns_ret.
Qed.

End Checkpoint.

(** ** Properties *)


(** ** Witnesses *)

Module CheckpointSample.

Record store := { s_journal : journal Z; s_marker : established }.
#[global] Instance store_checkpoint : CheckpointStore store Z.
Proof.
  refine {| journal_of := s_journal; set_journal j w := {| s_journal := j; s_marker := s_marker w |};
            marker_of := s_marker; set_marker m w := {| s_journal := s_journal w; s_marker := m |} |}; done.
Defined.

(** Events are numbers; their lines are 100 bytes. *)
Definition line_size (_ : Z) : Z := 100.
Definition validate (z : Z) : res unit := if 0 <=? z then Ok tt else raise ValueError "negative".
Definition next (previous : option Z) : M store (option Z * unit) := mret (Some (default 0 previous + 1), tt).
Definition w0 : store := {| s_journal := Records [1; 2]; s_marker := Marker |}.


(** An update without faults, and one killed after the journal is written. *)
Example next_run : run (update_review_checkpoint line_size validate next) w0
  = (Ret (Some 3, tt), {| s_journal := Records [1; 2; 3]; s_marker := Marker |}).
Proof. vm_compute. reflexivity. Qed.
Example next_killed : update_review_checkpoint line_size validate next [NoFault; NoFault; NoFault; Kill] w0
  = (Killed, [], {| s_journal := Records [1; 2; 3]; s_marker := Marker |}).
Proof. vm_compute. reflexivity. Qed.

End CheckpointSample.
