(* ===== verification/StopReview.v ===== *)
(** * StopReview: one review per explicit turn

    [src/forge/policy/semantic/stop_review.py]. A turn of a Codex executor is opened at the
    user's prompt ([begin_turn]), its actions are recorded ([record_action]), and at Stop its
    already-applied changes may be reviewed once ([review_stop]). The allowance lives in the
    checkpoint of SessionEvents.v; every change of it is one [update_review_checkpoint], and
    several hook processes run at the same time.

    A checkpoint's payload is a record here ([review_state]); turn and thread identities are
    UUIDs, given by their integers. What comes from outside is an argument: what [capture] finds
    in the checkout, the plan, the reviewer's answer, the clock, and the hashes and lengths of
    TurnEvidence.v. Left out: the time stamps, the reviewer's cache identity, and how a worker
    lease is admitted (it can raise). *)

From S2P Require Import Prelude PyValue Effects Verdict TurnEvidence SessionEvents.

Definition MAX_ACTIONS : nat := 48.
Definition MAX_ACTION_BYTES : Z := 8000.
Definition MAX_PROVENANCE_TURNS : nat := 32.

(** ** The checkpoint's payload *)

(** Whose turn it is. *)
Record turn_scope := {
  session_identity : string;
  forge_root : string;
  checkout : string;
  thread_id : Z;
  turn_id : Z;
  watermark : Z;
  config_digest : string;
  provenance : list Z }.

Record standing := {
  status : string;
  reason : option string;
  outstanding : bool }.

(** What there is to review. *)
Record material := {
  baseline : option reference;
  start_snapshot : option reference;
  observed_snapshot : option reference;
  actions : list action;
  carry_omissions : list string;
  unattributed_changes : Z * list string }.

(** [PolicyDecision], as far as it is looked at. *)
Record review_decision := {
  verdict : string;
  fail_open : bool;
  failure_type : option string }.

(** The spending of the turn's review. *)
Record spending := {
  spent : bool;
  dispatched : option bool;
  reviewed : option reference;
  attempt_id : option string;
  evidence_digest : option string;
  frozen_evidence : option evidence;
  plan_digest : option string;
  review_decision_of : option review_decision;
  correction_consumed : bool }.

Record exclusion := {
  ex_turns : Z;
  ex_last_turn : Z;
  ex_last_thread : Z;
  ex_reason : string }.

Record review_state := {
  scope : turn_scope;
  stand : standing;
  work : material;
  spend : spending;
  coverage : option (bool * list string);
  excluded_work : option exclusion;
  reset_requested : bool;
  blocked_until_turn : option Z;
  baseline_error : option exn_class }.

(** [state.update(...)] on the fields that are written together. *)
Definition with_standing (s : string) (r : option string) (o : bool) (st : review_state) : review_state :=
  {| scope := scope st; stand := {| status := s; reason := r; outstanding := o |}; work := work st; spend := spend st;
     coverage := coverage st; excluded_work := excluded_work st; reset_requested := reset_requested st;
     blocked_until_turn := blocked_until_turn st; baseline_error := baseline_error st |}.

Definition with_work (w : material) (st : review_state) : review_state :=
  {| scope := scope st; stand := stand st; work := w; spend := spend st; coverage := coverage st;
     excluded_work := excluded_work st; reset_requested := reset_requested st;
     blocked_until_turn := blocked_until_turn st; baseline_error := baseline_error st |}.

Definition with_spend (s : spending) (st : review_state) : review_state :=
  {| scope := scope st; stand := stand st; work := work st; spend := s; coverage := coverage st;
     excluded_work := excluded_work st; reset_requested := reset_requested st;
     blocked_until_turn := blocked_until_turn st; baseline_error := baseline_error st |}.

Definition with_excluded (x : option exclusion) (st : review_state) : review_state :=
  {| scope := scope st; stand := stand st; work := work st; spend := spend st; coverage := coverage st;
     excluded_work := x; reset_requested := reset_requested st;
     blocked_until_turn := blocked_until_turn st; baseline_error := baseline_error st |}.

Definition with_coverage (c : bool * list string) (st : review_state) : review_state :=
  {| scope := scope st; stand := stand st; work := work st; spend := spend st; coverage := Some c;
     excluded_work := excluded_work st; reset_requested := reset_requested st;
     blocked_until_turn := blocked_until_turn st; baseline_error := baseline_error st |}.

Definition with_flags (reset : bool) (blocked : option Z) (error : option exn_class) (st : review_state) : review_state :=
  {| scope := scope st; stand := stand st; work := work st; spend := spend st; coverage := coverage st;
     excluded_work := excluded_work st; reset_requested := reset; blocked_until_turn := blocked; baseline_error := error |}.

Definition with_scope (s : turn_scope) (st : review_state) : review_state :=
  {| scope := s; stand := stand st; work := work st; spend := spend st; coverage := coverage st;
     excluded_work := excluded_work st; reset_requested := reset_requested st;
     blocked_until_turn := blocked_until_turn st; baseline_error := baseline_error st |}.

Definition observed (r : option reference) (m : material) : material :=
  {| baseline := baseline m; start_snapshot := start_snapshot m; observed_snapshot := r; actions := actions m;
     carry_omissions := carry_omissions m; unattributed_changes := unattributed_changes m |}.

Definition with_actions (l : list action) (m : material) : material :=
  {| baseline := baseline m; start_snapshot := start_snapshot m; observed_snapshot := observed_snapshot m; actions := l;
     carry_omissions := carry_omissions m; unattributed_changes := unattributed_changes m |}.

Definition with_omissions (l : list string) (m : material) : material :=
  {| baseline := baseline m; start_snapshot := start_snapshot m; observed_snapshot := observed_snapshot m;
     actions := actions m; carry_omissions := l; unattributed_changes := unattributed_changes m |}.

(** [TurnContext]. *)
Record TurnContext := {
  x_forge_root : string;
  x_checkout : string;
  x_thread_id : Z;
  x_turn_id : Z;
  x_config_digest : string;
  x_session_identity : string }.

(** ** Validation *)

(** [UUID(value).version == 7]. *)
Definition native_id (z : Z) : bool :=
  (0 <=? z) && (z <? 2 ^ 128) && (Z.land (Z.shiftr z 62) 3 =? 2) && (Z.land (Z.shiftr z 76) 15 =? 7).

Definition option_hex (size : nat) (s : option string) : bool := match s with Some s => is_hex size s | None => false end.

Definition EXCLUSION_REASONS : list string :=
  ["operator_reset"; "partial_evidence"; "unattributed_pending_work"; "missing_turn_start"; "missing_observation"].
Definition STATUSES : list string :=
  ["collecting"; "reviewing"; "reviewed"; "unavailable"; "unreviewed"; "incomplete"; "no_changes"; "partial"].
Definition SPENT_STATUSES : list string := ["reviewing"; "reviewed"; "partial"; "incomplete"; "unreviewed"].
Definition PHASES : list string := ["request"; "outcome"; "denied"].

Fixpoint check_all (checks : list (bool * string)) : res unit :=
  match checks with
  | [] => Ok tt
  | (ok, msg) :: checks => if ok then check_all checks else raise ValueError msg
  end.

(** [x is None or p x]. *)
Definition none_or {A} (p : A -> bool) (x : option A) : bool := match x with Some a => p a | None => true end.
Definition is_none {A} (x : option A) : bool := match x with None => true | Some _ => false end.

Section Review.

Context (sha_manifest : snapshot -> string) (sha_bytes : string -> string) (sha_evidence : evidence -> string).
Context (manifest_size : snapshot -> Z) (evidence_size : evidence -> Z) (action_size : action -> Z) (line_size : review_state -> Z).
Context (decodes : string -> bool) (unified_diff : string -> string -> string -> string).
Context (relative_path : string -> string -> option string).

Definition check_reference (root : string) (r : reference) : bool :=
  is_hex 64 (r_digest r) && bool_decide (r_root r = root).

Definition check_exclusion (x : exclusion) : bool := (1 <=? ex_turns x) && bool_decide (ex_reason x ∈ EXCLUSION_REASONS).

Definition check_action (turns : list Z) (a : action) : list (bool * string) :=
  [(negb (String.eqb (a_id a) ""), "Invalid action identity");
   (bool_decide (a_phase a ∈ PHASES), "Invalid action phase");
   (bool_decide (a_turn a ∈ turns), "Invalid action provenance");
   (action_size a <=? MAX_ACTION_BYTES, "Unbounded action evidence")].

(** [validate_payload], but for what the types of [review_state] say. *)
Definition validate_payload (st : review_state) : res unit :=
  let sc := scope st in let w := work st in let sp := spend st in
  let reference_ok := none_or (check_reference (checkout sc)) in
  check_all (
    [(none_or check_exclusion (excluded_work st), "Invalid excluded review scope");
     (none_or (fun x => native_id (ex_last_turn x) && native_id (ex_last_thread x)) (excluded_work st), "Invalid review turn identity");
     (native_id (turn_id sc) && native_id (thread_id sc), "Invalid review turn identity");
     (is_hex 32 (session_identity sc), "Invalid review identity digest");
     ((0 <=? fst (unattributed_changes w)) && (length (snd (unattributed_changes w)) <=? 32)%nat, "Invalid unattributed change summary");
     (turn_id sc =? watermark sc, "Invalid review watermark");
     (none_or native_id (blocked_until_turn st), "Invalid review turn identity");
     (none_or (fun b => watermark sc <? b) (blocked_until_turn st), "Invalid blocked review watermark");
     ((length (actions w) <=? MAX_ACTIONS)%nat, "Invalid bounded action evidence");
     ((length (provenance sc) <=? MAX_PROVENANCE_TURNS)%nat, "Invalid bounded review provenance");
     (startswith "/" (forge_root sc) && startswith "/" (checkout sc), "Invalid review checkout identity");
     (bool_decide (status (stand st) ∈ STATUSES), "Invalid review status");
     (is_hex 64 (config_digest sc), "Invalid review identity digest");
     (reference_ok (baseline w) && reference_ok (reviewed sp) && reference_ok (start_snapshot w)
      && reference_ok (observed_snapshot w), "Invalid review snapshot scope");
     (bool_decide (last (provenance sc) = Some (turn_id sc)), "Invalid review provenance");
     (forallb native_id (provenance sc), "Invalid review turn identity")]
    ++ concat (map (check_action (provenance sc)) (actions w))
    ++ (if spent sp then
          [(option_hex 32 (attempt_id sp), "Invalid review identity digest");
           (option_hex 64 (evidence_digest sp), "Invalid review identity digest");
           (option_hex 64 (plan_digest sp), "Invalid review identity digest");
           (negb (is_none (frozen_evidence sp)) && negb (is_none (reviewed sp)), "Spent review lacks frozen evidence");
           (bool_decide (sha_evidence <$> frozen_evidence sp = evidence_digest sp), "Changed frozen review evidence")]
        else
          [(negb (bool_decide (status (stand st) ∈ SPENT_STATUSES)) && is_none (attempt_id sp) && is_none (frozen_evidence sp)
            && is_none (review_decision_of sp), "Completed or reserved review cannot regain its allowance")])
    ++ [(negb (correction_consumed sp) || spent sp, "Correction without a spent review")]).

(** The envelope's [reason_code]: [re.sub] and the token's pattern. *)
Definition token_char (c : ascii) : bool :=
  let n := nat_of_ascii c in ((97 <=? n) && (n <=? 122) || (48 <=? n) && (n <=? 57) || (n =? 95))%nat.
Definition reason_char (c : string) : string :=
  match c with String a "" => if token_char a then c else "_" | _ => "_" end.
Definition reason_code (r : string) : string := str_join "" (map reason_char (utf8_chars r)).
Definition is_token (s : string) : bool :=
  match str_list s with
  | c :: cs => (97 <=? nat_of_ascii c)%nat && (nat_of_ascii c <=? 122)%nat && forallb token_char cs
  | [] => false
  end.

Definition validate_event (st : review_state) : res unit :=
  _ ← check_all [(match reason (stand st) with
                  | Some r => String.eqb r "" || is_token (reason_code r)
                  | None => true
                  end, "must be null or a lowercase machine token")];
  validate_payload st.

(** [_event]. *)
Definition _event (st : review_state) : res (option review_state) := _ ← validate_event st; Ok (Some st).

(** [_state]. *)
Definition _state (event : option review_state) (ctx : TurnContext) : res (option review_state) :=
  match event with
  | None => Ok None
  | Some st =>
      if negb (bool_decide (session_identity (scope st) = x_session_identity ctx))
      then raise ValueError "Review checkpoint belongs to another session lifetime"
      else if negb (bool_decide (forge_root (scope st) = x_forge_root ctx) && bool_decide (checkout (scope st) = x_checkout ctx))
      then raise ValueError "Review checkpoint belongs to another checkout"
      else Ok (Some st)
  end.

(** [_current]. *)
Definition _current (st : review_state) (ctx : TurnContext) : bool :=
  bool_decide (thread_id (scope st) = x_thread_id ctx) && bool_decide (turn_id (scope st) = x_turn_id ctx).

(** [_exclude]. *)
Definition _exclude (st source : review_state) (why : string) : review_state :=
  let from := match excluded_work st with Some x => ex_last_turn x | None => 0 end in
  let added := Z.of_nat (length (List.filter (fun t => from <? t) (provenance (scope source)))) in
  if negb (is_none (excluded_work st)) && (added =? 0) then st
  else
    with_excluded (Some {| ex_turns := (match excluded_work st with Some x => ex_turns x | None => 0 end) + added;
                           ex_last_turn := turn_id (scope source); ex_last_thread := thread_id (scope source);
                           ex_reason := why |}) st.

(** [_new_state]. *)
Definition _new_state (ctx : TurnContext) (s : option reference) : review_state :=
  {| scope := {| session_identity := x_session_identity ctx; forge_root := x_forge_root ctx; checkout := x_checkout ctx;
                 thread_id := x_thread_id ctx; turn_id := x_turn_id ctx; watermark := x_turn_id ctx;
                 config_digest := x_config_digest ctx; provenance := [x_turn_id ctx] |};
     stand := {| status := "collecting"; reason := None; outstanding := false |};
     work := {| baseline := s; start_snapshot := s; observed_snapshot := s; actions := []; carry_omissions := [];
                unattributed_changes := (0, []) |};
     spend := {| spent := false; dispatched := Some false; reviewed := None; attempt_id := None; evidence_digest := None;
                 frozen_evidence := None; plan_digest := None; review_decision_of := None; correction_consumed := false |};
     coverage := None; excluded_work := None; reset_requested := false; blocked_until_turn := None; baseline_error := None |}.

(** ** The disk *)

(** A question put to the reviewer. *)
Record question := { q_turn : Z; q_attempt : string; q_evidence : evidence }.

(** What hook processes share: the checkpoint, the evidence directory, whose the session is
    ([SessionStore.review_identity]), and the questions that have been sent, which no process
    can take back. *)
Record disk := {
  d_journal : journal review_state;
  d_marker : established;
  d_storage : storage;
  d_owner : option string;
  d_sent : list question }.

#[export] Instance disk_checkpoint : CheckpointStore disk review_state.
Proof.
  refine {| journal_of := d_journal; marker_of := d_marker;
    set_journal j d := {| d_journal := j; d_marker := d_marker d; d_storage := d_storage d; d_owner := d_owner d; d_sent := d_sent d |};
    set_marker m d := {| d_journal := d_journal d; d_marker := m; d_storage := d_storage d; d_owner := d_owner d; d_sent := d_sent d |} |};
    done.
Defined.

Definition on_storage (f : storage -> storage) (d : disk) : disk :=
  {| d_journal := d_journal d; d_marker := d_marker d; d_storage := f (d_storage d); d_owner := d_owner d; d_sent := d_sent d |}.

Definition send (q : question) (d : disk) : disk :=
  {| d_journal := d_journal d; d_marker := d_marker d; d_storage := d_storage d; d_owner := d_owner d; d_sent := d_sent d ++ [q] |}.

(** [turn_evidence.capture]: what it finds, or the exception it raises. *)
Definition found := res (snapshot * list string).
Definition capture (f : found) : M disk reference :=
  '(s, contents) ← lift f;
  _ ← commit (on_storage (store_capture sha_manifest sha_bytes s contents));
  mret (reference_to sha_manifest s).

(** [turn_evidence.prune]. *)
Definition prune_storage (references : list reference) : M disk unit :=
  d ← get;
  let '(st, r) := prune sha_manifest manifest_size (d_storage d) references in
  _ ← commit (on_storage (fun _ => st));
  lift r.

(** [turn_evidence.rebase_pending]. *)
Definition rebase (old now current : reference) : M disk (reference * list string * list string) :=
  d ← get;
  '(ref, unattributed, conflicts, st) ← lift (rebase_pending sha_manifest manifest_size (d_storage d) old now current);
  _ ← commit (on_storage (fun _ => st));
  mret (ref, unattributed, conflicts).

(** [except (OSError, ValueError, TimeoutError, RuntimeError, subprocess.SubprocessError)]. A
    lock that is not free in time raises [FileLockTimeoutError], which is none of them. *)
Definition caught (e : pyexn) : bool :=
  bool_decide (exn_cls e ∈ [OSError; FileNotFoundError; ValueError; UnicodeDecodeError; JSONDecodeError; RuntimeError; SubprocessError]).

(** [_update]: one update of the checkpoint under a worker lease, for the session's owner. *)
Definition _update {X} (ctx : TurnContext) (callback : option review_state -> M disk (option review_state * X))
    : M disk (option review_state * X) :=
  with_lock id
    (update_review_checkpoint line_size validate_event (fun previous =>
       d ← get;
       if negb (bool_decide (d_owner d = Some (x_session_identity ctx)))
       then lift (raise ValueError "Stop event belongs to a deleted or replaced session")
       else callback previous)).

(** ** [begin_turn] *)

(** The newest turn the checkpoint has seen. *)
Definition seen_turn (st : review_state) : Z := Z.max (watermark (scope st)) (default (turn_id (scope st)) (blocked_until_turn st)).

(** Work of the previous turns that is still to be reviewed. *)
Definition is_pending (old : review_state) : bool :=
  negb (reset_requested old)
  && (outstanding (stand old)
      || (bool_decide (status (stand old) = "collecting")
          && (negb (bool_decide (actions (work old) = [])) || negb (bool_decide (carry_omissions (work old) = []))
              || negb (bool_decide (baseline (work old) = observed_snapshot (work old)))))).

(** The references of a checkpoint that [prune] keeps. *)
Definition kept_references (old : review_state) : list reference :=
  omap id [baseline (work old); reviewed (spend old); observed_snapshot (work old)].

Definition with_unattributed (paths : list string) (m : material) : material :=
  {| baseline := baseline m; start_snapshot := start_snapshot m; observed_snapshot := observed_snapshot m;
     actions := actions m; carry_omissions := carry_omissions m;
     unattributed_changes := (Z.of_nat (length paths), take 32 paths) |}.

(** The state of a turn that carries pending work over. *)
Definition carried_state (ctx : TurnContext) (old st : review_state) (base : reference)
    (unattributed conflicts : list string) : review_state :=
  let sc := scope st in
  let st := with_scope {| session_identity := session_identity sc; forge_root := forge_root sc; checkout := checkout sc;
                          thread_id := thread_id sc; turn_id := turn_id sc; watermark := watermark sc;
                          config_digest := config_digest sc; provenance := provenance (scope old) ++ [x_turn_id ctx] |} st in
  let st := with_standing (status (stand st)) (reason (stand st)) true st in
  let st := with_work (with_unattributed unattributed
                         {| baseline := Some base; start_snapshot := start_snapshot (work st);
                            observed_snapshot := observed_snapshot (work st); actions := actions (work old);
                            carry_omissions := carry_omissions (work old);
                            unattributed_changes := unattributed_changes (work st) |}) st in
  if bool_decide (conflicts = []) then st
  else
    let st := with_work (with_omissions (carry_omissions (work st) ++ ["unattributed_pending_work"])
                           (with_actions [] (work st))) st in
    _exclude st old "unattributed_pending_work".

(** The new turn's state, from the old one and what was captured. *)
Definition opened_state (ctx : TurnContext) (old : option review_state) (current : option reference) : M disk review_state :=
  let st := with_excluded (match old with Some o => excluded_work o | None => None end) (_new_state ctx current) in
  match old with
  | None => mret st
  | Some o =>
      if reset_requested o then mret (_exclude st o "operator_reset")
      else if is_pending o then
        match current, baseline (work o), observed_snapshot (work o) with
        | Some c, Some b, Some now =>
            '(base, unattributed, conflicts) ← rebase b now c;
            mret (carried_state ctx o st base unattributed conflicts)
        | _, _, _ => mret (_exclude st o "missing_observation")
        end
      else
        match current, observed_snapshot (work o) with
        | Some c, Some now =>
            '(_, unattributed, _) ← rebase now now c;
            mret (with_work (with_unattributed unattributed (work st)) st)
        | _, _ => mret st
        end
  end.

(** A turn is not opened while more turns are pending than can be carried. *)
Definition carry_limit (ctx : TurnContext) (old : option review_state) : option review_state :=
  match old with
  | Some o =>
      if is_pending o && (MAX_PROVENANCE_TURNS <=? length (provenance (scope o)))%nat then
        let st := with_standing "unavailable" (Some "carry_limit") true o in
        Some (with_flags (reset_requested st) (Some (x_turn_id ctx)) (baseline_error st) st)
      else None
  | None => None
  end.

(** The callback of [begin_turn]. *)
Definition begin_update (ctx : TurnContext) (f : found) (previous : option review_state)
    : M disk (option review_state * unit) :=
  old ← lift (_state previous ctx);
  if x_turn_id ctx <=? match old with Some o => seen_turn o | None => 0 end then mret (None, tt)
  else
    match carry_limit ctx old with
    | Some st => event ← lift (_event st); mret (event, tt)
    | None =>
        captured ← attempt (
          _ ← prune_storage (match old with
                             | Some o => if reset_requested o then [] else kept_references o
                             | None => []
                             end);
          capture f);
        match captured with
        | Err e =>
            if caught e then
              st ← opened_state ctx old None;
              let st := with_standing "unavailable" (Some "baseline_unavailable") true st in
              event ← lift (_event (with_flags (reset_requested st) (blocked_until_turn st) (Some (exn_cls e)) st));
              mret (event, tt)
            else throw e
        | Ok current =>
            st ← opened_state ctx old (Some current);
            event ← lift (_event st);
            mret (event, tt)
        end
    end.

Definition begin_turn (ctx : TurnContext) (f : found) : M disk unit :=
  _ ← _update ctx (begin_update ctx f); mret tt.

(** ** [record_action] *)

(** [state.update(baseline=snapshot, actions=[], observed_snapshot=snapshot, carry_omissions=[])]. *)
Definition restarted_work (r : reference) (m : material) : material :=
  {| baseline := Some r; start_snapshot := start_snapshot m; observed_snapshot := Some r; actions := [];
     carry_omissions := []; unattributed_changes := unattributed_changes m |}.

(** The action joins the others, unless there are too many. *)
Definition joined (a : action) (st : review_state) : review_state :=
  if (MAX_ACTIONS <=? length (actions (work st)))%nat then
    let st := with_standing "unavailable" (Some "action_limit") true st in
    with_work (with_omissions (sorted_set (carry_omissions (work st) ++ ["action_limit"])) (work st)) st
  else with_work (with_actions (actions (work st) ++ [a]) (work st)) st.

(** The callback of [record_action]: [f1] is found when a later tool starts after the review,
    [f2] when an outcome is observed. *)
Definition action_update (ctx : TurnContext) (a : action) (f1 f2 : found) (previous : option review_state)
    : M disk (option review_state * unit) :=
  st ← lift (_state previous ctx);
  match st with
  | None => mret (None, tt)
  | Some st =>
      if negb (_current st ctx) then mret (None, tt)
      else if negb (bool_decide (config_digest (scope st) = x_config_digest ctx)) then
        event ← lift (_event (with_standing "unavailable" (Some "configuration_changed") true st));
        mret (event, tt)
      else if reset_requested st || negb (is_none (blocked_until_turn st)) then mret (None, tt)
      else if String.eqb (a_phase a) "denied" then
        let others := List.filter (fun row => negb (bool_decide (row_key row = row_key a))) (actions (work st)) in
        event ← lift (_event (with_work (with_actions others (work st)) st));
        mret (event, tt)
      else if existsb (fun row => bool_decide (row_key row = row_key a) && String.eqb (a_phase row) (a_phase a)) (actions (work st))
      then mret (None, tt)
      else
        st ← (if spent (spend st) && negb (outstanding (stand st))
              then r ← capture f1; mret (with_work (restarted_work r (work st)) st)
              else mret st);
        let st := if spent (spend st) then with_standing "unreviewed" (Some "actions_after_review") true st else st in
        let st := joined a st in
        st ← (if String.eqb (a_phase a) "outcome" then
                r ← attempt (capture f2);
                match r with
                | Ok r => mret (with_work (observed (Some r) (work st)) st)
                | Err e =>
                    if caught e
                    then mret (with_work (with_omissions (sorted_set (carry_omissions (work st) ++ ["observation_unavailable"])) (work st)) st)
                    else throw e
                end
              else mret st);
        event ← lift (_event st);
        mret (event, tt)
  end.

Definition record_action (ctx : TurnContext) (a : action) (f1 f2 : found) : M disk unit :=
  _ ← _update ctx (action_update ctx a f1 f2); mret tt.

(** ** [review_stop] *)

(** [StopOutcome]. *)
Record StopOutcome := {
  o_status : string;
  o_reason : option string;
  o_decision : option review_decision;
  correction : bool;
  o_complete : bool }.

Definition refused (s : string) (r : option string) : StopOutcome :=
  {| o_status := s; o_reason := r; o_decision := None; correction := false; o_complete := false |}.

(** The state of a Stop without an opened turn. *)
Definition missing_turn (ctx : TurnContext) (st : option review_state) : review_state :=
  let missing := with_excluded (match st with Some st => excluded_work st | None => None end) (_new_state ctx None) in
  let missing := match st with
                 | Some st => if outstanding (stand st) || String.eqb (status (stand st)) "collecting"
                              then _exclude missing st "missing_turn_start" else missing
                 | None => missing
                 end in
  with_standing "unavailable" (Some "missing_turn_start") false (_exclude missing missing "missing_turn_start").

(** The standing of a turn whose review was already spent, and [now] the checkout's snapshot. *)
Definition after_spent (now : reference) (st : review_state) : review_state :=
  match reviewed (spend st) with
  | Some r =>
      if negb (bool_decide (r_digest now = r_digest r)) then with_standing "unreviewed" (Some "changes_after_review") true st
      else if correction_consumed (spend st) then with_standing "unreviewed" (Some "correction_not_reassessed") true st
      else st
  | None => st
  end.

Definition spent_again (f : found) (st : review_state) : M disk review_state :=
  let lost := with_standing "incomplete" (Some "reserved_without_completed_review") true in
  let st := if String.eqb (status (stand st)) "reviewing" then lost st else st in
  match reviewed (spend st) with
  | Some _ =>
      now ← capture f;
      mret (after_spent now (with_work (observed (Some now) (work st)) st))
  | None => mret (lost st)
  end.

(** The evidence of the turn, with what was omitted while it was collected. *)
Definition turn_evidence (st : review_state) (e : evidence) : evidence :=
  let e := if bool_decide (carry_omissions (work st) = []) then e
           else {| compared := compared e; complete := false;
                   omissions := sorted_set (omissions e ++ carry_omissions (work st));
                   contents := contents e; provenance_turns := provenance_turns e |} in
  let e := {| compared := compared e; complete := complete e; omissions := omissions e; contents := contents e;
              provenance_turns := provenance (scope st) |} in
  if MAX_EVIDENCE_BYTES <? evidence_size e then
    {| compared := None; complete := false; omissions := ["review_prompt_byte_limit"];
       contents := Counts (Z.of_nat (length (shown_changes e))) (Z.of_nat (length (shown_actions e)));
       provenance_turns := provenance (scope st) |}
  else e.

Definition is_outcome (a : action) : bool := String.eqb (a_phase a) "outcome".

(** The allowance is spent: [state.update(spent=True, ...)]. *)
Definition reserved (attempt : string) (plan : plan_snapshot) (now : reference) (e : evidence) (st : review_state) : review_state :=
  with_standing "reviewing" None true
    (with_spend {| spent := true; dispatched := None; reviewed := Some now; attempt_id := Some attempt;
                   evidence_digest := Some (sha_evidence e); frozen_evidence := Some e; plan_digest := plan_sha plan;
                   review_decision_of := review_decision_of (spend st);
                   correction_consumed := correction_consumed (spend st) |} st).

Definition with_reviewed (now : reference) (sp : spending) : spending :=
  {| spent := spent sp; dispatched := dispatched sp; reviewed := Some now; attempt_id := attempt_id sp;
     evidence_digest := evidence_digest sp; frozen_evidence := frozen_evidence sp; plan_digest := plan_digest sp;
     review_decision_of := review_decision_of sp; correction_consumed := correction_consumed sp |}.

(** What [reserve] does with the evidence of a turn that may be reviewed: the new state, the
    outcome so far and whether it is a reservation. *)
Definition decide_review (attempt : string) (plan : plan_snapshot) (now : reference) (e : evidence) (st : review_state)
    : review_state * StopOutcome * bool :=
  let st := with_coverage (complete e, omissions e) st in
  let meaningful_actions := existsb is_outcome (actions (work st)) in
  if negb (complete e) && negb (negb (bool_decide (shown_changes e = [])) || existsb is_outcome (shown_actions e)) then
    (with_standing "unavailable" (Some "incomplete_evidence") false (_exclude st st "partial_evidence"),
     refused "unavailable" (Some "incomplete_evidence"), false)
  else if bool_decide (shown_changes e = []) && negb meaningful_actions && negb (outstanding (stand st)) then
    (with_standing "no_changes" (Some "complete_unchanged_turn") (outstanding (stand st)) (with_spend (with_reviewed now (spend st)) st),
     {| o_status := "no_changes"; o_reason := None; o_decision := None; correction := false; o_complete := true |}, false)
  else if negb (has_text plan) then
    (with_standing "unavailable" (Some "plan_unavailable") true st, refused "unavailable" (Some "plan_unavailable"), false)
  else
    (reserved attempt plan now e st, refused "incomplete" (Some "reserved_without_completed_review"), true).

(** The callback [reserve]: besides the candidate, the outcome so far and the reservation. *)
Definition reserve (ctx : TurnContext) (f : found) (plan : plan_snapshot) (attempt : string) (previous : option review_state)
    : M disk (option review_state * (StopOutcome * option review_state)) :=
  old ← lift (_state previous ctx);
  let keep o := mret (None, (o, None)) in
  let store st o := event ← lift (_event st); mret (event, (o, None)) in
  match old with
  | None => store (missing_turn ctx None) (refused "unavailable" (Some "missing_turn_start"))
  | Some st =>
      if reset_requested st || negb (is_none (blocked_until_turn st))
      then keep (refused "unavailable" (Some (if reset_requested st then "new_explicit_turn_required" else "carry_limit")))
      else if negb (_current st ctx) then
        if watermark (scope st) <? x_turn_id ctx
        then store (missing_turn ctx (Some st)) (refused "unavailable" (Some "missing_turn_start"))
        else keep (refused "unavailable" (Some "missing_or_stale_turn"))
      else if negb (bool_decide (config_digest (scope st) = x_config_digest ctx)) then
        store (with_standing "unavailable" (Some "configuration_changed") true st)
          (refused "unavailable" (Some "configuration_changed"))
      else if spent (spend st) then
        st ← spent_again f st;
        store st (refused (status (stand st)) (reason (stand st)))
      else
        match baseline (work st) with
        | None => keep (refused "unavailable" (Some (match reason (stand st) with
                                                     | Some r => if String.eqb r "" then "missing_baseline" else r
                                                     | None => "missing_baseline"
                                                     end)))
        | Some base =>
            if bool_decide (reason (stand st) = Some "configuration_changed")
            then keep (refused "unavailable" (Some "configuration_changed"))
            else
              now ← capture f;
              let st := with_work (observed (Some now) (work st)) st in
              d ← get;
              e ← lift (compare sha_manifest sha_bytes manifest_size evidence_size decodes unified_diff relative_path
                          (d_storage d) base now (actions (work st)));
              let '(st, o, reserving) := decide_review attempt plan now (turn_evidence st e) st in
              event ← lift (_event st);
              mret (event, (o, if reserving : bool then Some st else None))
        end
  end.

(** What the reviewer answers: [SupervisorRun]. *)
Record answer := {
  decision : review_decision;
  run_ok : bool;
  parsed : bool;
  was_dispatched : option bool }.

(** The reservation is this process's: [state.get("attempt_id") == frozen["attempt_id"]]. *)
Definition is_own (ctx : TurnContext) (frozen st : review_state) : bool :=
  _current st ctx && bool_decide (attempt_id (spend st) = attempt_id (spend frozen)).

Definition with_decision (a : answer) (st : review_state) : review_state :=
  let sp := spend st in
  with_spend {| spent := spent sp; dispatched := was_dispatched a; reviewed := reviewed sp; attempt_id := attempt_id sp;
                evidence_digest := evidence_digest sp; frozen_evidence := frozen_evidence sp; plan_digest := plan_digest sp;
                review_decision_of := Some (decision a); correction_consumed := correction_consumed sp |} st.

Definition with_correction (c : bool) (st : review_state) : review_state :=
  let sp := spend st in
  with_spend {| spent := spent sp; dispatched := dispatched sp; reviewed := reviewed sp; attempt_id := attempt_id sp;
                evidence_digest := evidence_digest sp; frozen_evidence := frozen_evidence sp; plan_digest := plan_digest sp;
                review_decision_of := review_decision_of sp; correction_consumed := c |} st.

(** The callback [save_result]. *)
Definition save_result (ctx : TurnContext) (frozen : review_state) (a : answer) (previous : option review_state)
    : M disk (option review_state * unit) :=
  st ← lift (_state previous ctx);
  match st with
  | Some st => if is_own ctx frozen st then event ← lift (_event (with_decision a st)); mret (event, tt) else mret (None, tt)
  | None => mret (None, tt)
  end.

(** How fresh the review is when the answer has come: whether completing it failed, and whether
    something changed in the meantime. *)
Record freshness := { completion_failed : bool; stale : bool }.

(** The state and the outcome [finish] settles on. *)
Definition settle (frozen : review_state) (a : answer) (fresh : freshness) (st : review_state) : review_state * StopOutcome :=
  let st := with_decision a st in
  if reset_requested st || negb (is_none (blocked_until_turn st)) then
    (st, refused "unavailable" (Some (if reset_requested st then "new_explicit_turn_required" else "carry_limit")))
  else if completion_failed fresh then
    (with_standing "unavailable" (Some "completion_unavailable") true st, refused "unavailable" (Some "completion_unavailable"))
  else if stale fresh then
    (with_standing "unreviewed" (Some "stale_review") true st, refused "unreviewed" (Some "stale_review"))
  else
    let failure := match failure_type (decision a) with Some t => if String.eqb t "" then None else Some t | None => None end in
    if negb (run_ok a) || negb (parsed a) || fail_open (decision a) || negb (is_none failure) then
      let why := default "review_unavailable" failure in
      (with_standing "unavailable" (Some why) true st, refused "unavailable" (Some why))
    else if negb (match frozen_evidence (spend frozen) with Some e => complete e | None => false end) then
      (with_standing "partial" (Some "incomplete_evidence") false (_exclude st st "partial_evidence"),
       {| o_status := "partial"; o_reason := Some "incomplete_evidence"; o_decision := Some (decision a); correction := false; o_complete := false |})
    else
      let deny := String.eqb (verdict (decision a)) "deny" in
      (with_correction deny (with_standing "reviewed" None deny st),
       {| o_status := "reviewed"; o_reason := None; o_decision := Some (decision a); correction := deny; o_complete := true |}).

(** The callback [finish]. *)
Definition finish (ctx : TurnContext) (frozen : review_state) (a : answer) (fresh : freshness) (previous : option review_state)
    : M disk (option review_state * StopOutcome) :=
  st ← lift (_state previous ctx);
  let changed := refused "unavailable" (Some "turn_changed_during_review") in
  match st with
  | Some st =>
      if is_own ctx frozen st
      then let '(st, o) := settle frozen a fresh st in event ← lift (_event st); mret (event, o)
      else mret (None, changed)
  | None => mret (None, changed)
  end.

(** The first part of [_review_stop]: the allowance is reserved, if there is one. *)
Definition reserve_review (ctx : TurnContext) (f : found) (plan : plan_snapshot) (attempt : string)
    : M disk (StopOutcome * option review_state) :=
  '(_, x) ← _update ctx (reserve ctx f plan attempt); mret x.

(** [run_supervisor_check]: the question is sent; the reviewer may raise. *)
Definition sending (frozen : review_state) : disk -> disk :=
  match frozen_evidence (spend frozen), attempt_id (spend frozen) with
  | Some e, Some attempt => send {| q_turn := turn_id (scope frozen); q_attempt := attempt; q_evidence := e |}
  | _, _ => id
  end.
Definition ask (frozen : review_state) (reply : res answer) : M disk answer :=
  _ ← commit (sending frozen);
  lift reply.

(** What happens after the answer, by the clock and by what is found then: the checkout, the
    plan, and the digest of the configuration. *)
Record completion := {
  c_found : found;
  c_plan : plan_snapshot;
  c_config : res string;
  c_late : bool }.

(** The [try] after the answer. *)
Definition check_freshness (ctx : TurnContext) (plan : plan_snapshot) (frozen : review_state) (c : completion) : M disk freshness :=
  r ← attempt (
    after ← capture (c_found c);
    config ← lift (c_config c);
    if c_late c then lift (raise OSError "Stop completion budget exhausted")
    else
      mret (negb (bool_decide (Some (r_digest after) = r_digest <$> reviewed (spend frozen)))
            || negb (String.eqb (fingerprint (c_plan c)) (fingerprint plan))
            || negb (String.eqb config (x_config_digest ctx))));
  match r with
  | Ok s => mret {| completion_failed := false; stale := s |}
  | Err e => if caught e then mret {| completion_failed := true; stale := true |} else throw e
  end.

(** The rest of [_review_stop] once the reviewer has been asked. *)
Definition save_review (ctx : TurnContext) (frozen : review_state) (a : answer) : M disk unit :=
  _ ← _update ctx (save_result ctx frozen a); mret tt.

Definition finish_review (ctx : TurnContext) (plan : plan_snapshot) (frozen : review_state) (a : answer) (c : completion) : M disk StopOutcome :=
  fresh ← check_freshness ctx plan frozen c;
  '(_, o) ← _update ctx (finish ctx frozen a fresh);
  mret o.

(** [_review_stop], and what other processes do where it holds no lock. *)
Definition _review_stop (ctx : TurnContext) (f : found) (plan : plan_snapshot) (attempt : string) (reply : res answer)
    (c : completion) (between1 between2 between3 : disk -> disk) : M disk StopOutcome :=
  '(o, reservation) ← reserve_review ctx f plan attempt;
  match reservation with
  | None => mret o
  | Some frozen =>
      _ ← others between1;
      a ← ask frozen reply;
      _ ← others between2;
      _ ← save_review ctx frozen a;
      _ ← others between3;
      finish_review ctx plan frozen a c
  end.

(** [review_stop]: the whole under a lease of the session. *)
Definition review_stop (ctx : TurnContext) (f : found) (plan : plan_snapshot) (attempt : string) (reply : res answer)
    (c : completion) (between1 between2 between3 : disk -> disk) : M disk StopOutcome :=
  with_lock id (_review_stop ctx f plan attempt reply c between1 between2 between3).

(** The callback of [reset_review] with [apply]: whether anything is there to be reset. *)
Definition reset_update (previous : option review_state) : M disk (option review_state * bool) :=
  match previous with
  | None => mret (None, false)
  | Some st =>
      let st := with_standing "unavailable" (Some "operator_reset") true st in
      event ← lift (_event (with_flags true (blocked_until_turn st) (baseline_error st) st));
      mret (event, true)
  end.

Definition reset_review : M disk bool :=
  with_lock id ('(_, applied) ← update_review_checkpoint line_size validate_event reset_update; mret applied).

(** ** Lemmas: what callbacks leave alone *)

(** Only the evidence directory may differ. *)
Definition same_books (d d' : disk) : Prop :=
  d_journal d' = d_journal d /\ d_marker d' = d_marker d /\ d_owner d' = d_owner d /\ d_sent d' = d_sent d.

Lemma same_books_storage f d d' : same_books d d' -> same_books d (on_storage f d').
Proof. done. Qed.
Lemma same_books_refl d : same_books d d.
Proof. done. Qed.

Ltac books := repeat (preserve1 ltac:(auto using same_books_storage) || case_match || (intros; progress simpl)).

Lemma capture_books d f : preserves (same_books d) (capture f).
Proof. unfold capture. apply preserves_lift_bind. intros [s contents] _. books. Qed.

Lemma prune_books d refs : preserves (same_books d) (prune_storage refs).
Proof. unfold prune_storage. apply preserves_get. intros w Hw. destruct (prune _ _ _ _). books. Qed.

Lemma rebase_books d a b c : preserves (same_books d) (rebase a b c).
Proof. unfold rebase. apply preserves_get. intros w Hw. apply preserves_lift_bind. intros [[[r u] cs] st] _. books. Qed.

#[local] Create HintDb books.
#[local] Hint Resolve capture_books prune_books rebase_books : books.

Lemma opened_books d ctx old current : preserves (same_books d) (opened_state ctx old current).
Proof.
  unfold opened_state. destruct old as [o|]; [|books]. destruct (reset_requested o); [books|].
  destruct (is_pending o); destruct current, (baseline (work o)), (observed_snapshot (work o)); try apply preserves_ret;
    (apply preserves_bind; [auto with books|intros [[? ?] ?]; apply preserves_ret]).
Qed.
#[local] Hint Resolve opened_books : books.

Lemma begin_books d ctx f previous : preserves (same_books d) (begin_update ctx f previous).
Proof.
  unfold begin_update. apply preserves_lift_bind. intros old _. apply preserves_if; [books|].
  destruct (carry_limit ctx old); [books|].
  apply preserves_bind; [apply preserves_attempt, preserves_bind; auto with books|].
  intros [current|e]; [|destruct (caught e); [|books]];
    (apply preserves_bind; [auto with books|intros st; books]).
Qed.

Lemma action_books d ctx a f1 f2 previous : preserves (same_books d) (action_update ctx a f1 f2 previous).
Proof.
  unfold action_update. apply preserves_lift_bind. intros [st|] _; [|books].
  repeat (apply preserves_if; [books|]).
  apply preserves_bind.
  { apply preserves_if; [|books]. apply preserves_bind; auto with books. intros now. books. }
  intros st'. apply preserves_bind.
  { apply preserves_if; [|books]. apply preserves_bind; [apply preserves_attempt; auto with books|].
    intros [r|e]; [books|]. apply preserves_if; books. }
  intros st''. books.
Qed.

Lemma spent_again_books d f st : preserves (same_books d) (spent_again f st).
Proof.
  unfold spent_again. destruct (reviewed _); [|books]. apply preserves_bind; auto with books. intros now. books.
Qed.
#[local] Hint Resolve spent_again_books : books.

Lemma reserve_books d ctx f plan attempt previous : preserves (same_books d) (reserve ctx f plan attempt previous).
Proof.
  unfold reserve. apply preserves_lift_bind. intros [st|] _; [|books].
  apply preserves_if; [books|]. apply preserves_if; [apply preserves_if; books|]. apply preserves_if; [books|].
  apply preserves_if; [apply preserves_bind; [auto with books|intros st'; books]|].
  destruct (baseline (work st)) as [base|]; [|books]. apply preserves_if; [books|].
  apply preserves_bind; [auto with books|]. intros now. apply preserves_get. intros w Hw.
  apply preserves_lift_bind. intros e _. destruct (decide_review _ _ _ _ _) as [[st' o] reserving]. books.
Qed.

Lemma save_books d ctx frozen a previous : preserves (same_books d) (save_result ctx frozen a previous).
Proof. unfold save_result. apply preserves_lift_bind. intros [st|] _; books. Qed.

Lemma finish_books d ctx frozen a fresh previous : preserves (same_books d) (finish ctx frozen a fresh previous).
Proof.
  unfold finish. apply preserves_lift_bind. intros [st|] _; [|books]. apply preserves_if; [|books].
  destruct (settle frozen a fresh st). books.
Qed.

Lemma reset_books d previous : preserves (same_books d) (reset_update previous).
Proof. unfold reset_update. books. Qed.

(** ** Lemmas: what callbacks give *)

(** The turn of a state; at a validated state its watermark is the same. *)
Definition turn (st : review_state) : Z := turn_id (scope st).

(** How the checkpoint evolves: an update leaves the turn, which remains spent and gets no
    baseline while it is not, or starts a later turn that is not spent, which has a baseline only
    if [opens] says so. *)
Definition follows (opens : Z -> Prop) (previous : option review_state) (event : review_state) : Prop :=
  (exists old, previous = Some old /\ turn event = turn old /\ (spent (spend old) = true -> spent (spend event) = true) /\
     (spent (spend event) = false -> baseline (work event) <> None -> baseline (work old) <> None)) \/
  (spent (spend event) = false /\ (forall old, previous = Some old -> watermark (scope old) < turn event) /\
   (baseline (work event) <> None -> opens (turn event))).

Lemma event_is st x : _event st = Ok x -> x = Some st.
Proof. unfold _event. destruct (validate_event st); simpl; congruence. Qed.

Lemma state_is previous ctx x : _state previous ctx = Ok x -> x = previous.
Proof. unfold _state, raise. repeat case_match; congruence. Qed.

Lemma check_all_ok checks : check_all checks = Ok tt -> forall ok msg, (ok, msg) ∈ checks -> ok = true.
Proof.
  induction checks as [|[[|] m] checks IH]; [by intros _ ? ? ?%not_elem_of_nil| |done].
  intros H ok msg [[= -> ->]|]%elem_of_cons; [done|]. by eapply IH.
Qed.

Lemma validated_payload st : validate_event st = Ok tt -> validate_payload st = Ok tt.
Proof. unfold validate_event. destruct (check_all _) as [[]|]; [done|discriminate]. Qed.

Lemma validated_turn st : validate_event st = Ok tt -> watermark (scope st) = turn st.
Proof.
  intros H%validated_payload. assert (Ht : (turn_id (scope st) =? watermark (scope st)) = true).
  { eapply check_all_ok; [exact H|]. apply elem_of_app. left. do 5 (apply elem_of_cons; right). apply elem_of_cons. by left. }
  unfold turn. lia.
Qed.

(** The last step of every callback: the candidate is validated. *)
Lemma returns_event {A} (P : option review_state * A -> Prop) st (a : A) :
  P (Some st, a) -> returns P (lift (_event st) ≫= fun event => mret (event, a) : M disk _).
Proof. intros H. apply returns_lift_bind. intros x Hx. apply event_is in Hx as ->. by apply returns_ret. Qed.

Lemma exclude_scope st source why : scope (_exclude st source why) = scope st /\ spend (_exclude st source why) = spend st /\
  work (_exclude st source why) = work st.
Proof. unfold _exclude. by case_match. Qed.

Lemma carried_scope ctx old st base u c :
  turn (carried_state ctx old st base u c) = turn st /\ spend (carried_state ctx old st base u c) = spend st.
Proof. unfold carried_state. case_match; [done|]. unfold turn. edestruct exclude_scope as (-> & -> & _). done. Qed.

(** The callback's candidate follows the state before. *)
Definition gives_next {X} (opens : Z -> Prop) (previous : option review_state) (m : M disk (option review_state * X)) : Prop :=
  returns (fun x => forall event, x.1 = Some event -> follows opens previous event) m.

Lemma follows_none {X} opens previous (x : X) : gives_next opens previous (mret (None, x)).
Proof. by apply returns_ret. Qed.

Lemma follows_event {X} opens previous st (x : X) : follows opens previous st -> gives_next opens previous (event ← lift (_event st); mret (event, x)).
Proof. intros H. apply returns_event. by intros event [= <-]. Qed.

(** The turn and its spending are as they were, and the baseline of a turn that is not spent. *)
Definition same_turn (old st : review_state) : Prop :=
  turn st = turn old /\ spent (spend st) = spent (spend old) /\
  (spent (spend st) = true \/ baseline (work st) = baseline (work old)).

Lemma follows_same opens old st : same_turn old st -> follows opens (Some old) st.
Proof.
  intros (Ht & Hs & Hb). left. exists old. split_and!; [done..|by rewrite Hs|].
  intros H1. destruct Hb as [Hb| ->]; [congruence|done].
Qed.

Lemma opened_turn ctx old current :
  returns (fun st => turn st = x_turn_id ctx /\ spent (spend st) = false) (opened_state ctx old current).
Proof.
  unfold opened_state. destruct old as [o|]; [|by apply returns_ret].
  assert (forall r, turn (_exclude (with_excluded (excluded_work o) (_new_state ctx current)) o r) = x_turn_id ctx /\
            spent (spend (_exclude (with_excluded (excluded_work o) (_new_state ctx current)) o r)) = false) as Hex.
  { intros r. unfold turn. by edestruct exclude_scope as (-> & -> & _). }
  destruct (reset_requested o); [by apply returns_ret|].
  destruct (is_pending o); repeat case_match; try (by apply returns_ret);
    apply returns_then; intros [[base u] c]; apply returns_ret; [|done].
  by edestruct carried_scope as [-> ->].
Qed.

Lemma begin_follows ctx f previous : gives_next (fun t => t = x_turn_id ctx) previous (begin_update ctx f previous).
Proof.
  apply returns_lift_bind. intros old ->%state_is. apply returns_if; [intros _; apply follows_none|]. intros Hnew%Z.leb_gt.
  assert (Hopen : forall st, turn st = x_turn_id ctx -> spent (spend st) = false -> follows (fun t => t = x_turn_id ctx) previous st).
  { intros st Ht Hs. right. split_and!; [done| |by intros _]. intros o ->. unfold seen_turn in Hnew. lia. }
  destruct (carry_limit ctx previous) as [st|] eqn:Hc.
  { apply follows_event. unfold carry_limit in Hc. destruct previous as [o|]; [|done]. destruct (_ && _); [|done]. injection Hc as <-.
    apply follows_same. by split_and!; auto. }
  apply returns_then. intros [r|e].
  - eapply returns_bind; [apply opened_turn|]. intros st [Ht Hs]. apply follows_event. by apply Hopen.
  - apply returns_if; [intros _|intros; apply returns_throw].
    eapply returns_bind; [apply opened_turn|]. intros st [Ht Hs]. apply follows_event. by apply Hopen.
Qed.

Lemma joined_same a st : turn (joined a st) = turn st /\ spend (joined a st) = spend st /\ baseline (work (joined a st)) = baseline (work st).
Proof. unfold joined. by case_match. Qed.

Lemma same_turn_exclude old st source why : same_turn old st -> same_turn old (_exclude st source why).
Proof. unfold same_turn, turn. by edestruct exclude_scope as (-> & -> & ->). Qed.

Lemma same_turn_joined old a st : same_turn old st -> same_turn old (joined a st).
Proof. unfold same_turn. by destruct (joined_same a st) as (-> & -> & ->). Qed.

Lemma action_follows opens ctx a f1 f2 previous : gives_next opens previous (action_update ctx a f1 f2 previous).
Proof.
  apply returns_lift_bind. intros [old|] H%state_is; subst; [|apply follows_none].
  assert (Hsame : same_turn old old) by (split_and!; auto).
  apply returns_if; intros _; [apply follows_none|]. apply returns_if; intros _; [by apply follows_event, follows_same|].
  apply returns_if; intros _; [apply follows_none|]. apply returns_if; intros _; [by apply follows_event, follows_same|].
  apply returns_if; intros _; [apply follows_none|].
  apply returns_bind with (same_turn old).
  { apply returns_if; intros Hb; [|by apply returns_ret]. apply andb_true_iff in Hb as [Hb _].
    apply returns_then. intros r. apply returns_ret. split_and!; auto. }
  intros st1 Hst1. apply returns_bind with (same_turn old).
  { assert (Hst2 : same_turn old (joined a (if spent (spend st1)
        then with_standing "unreviewed" (Some "actions_after_review") true st1 else st1))) by (apply same_turn_joined; by case_match).
    apply returns_if; intros _; [|by apply returns_ret]. apply returns_then. intros [r|e]; [by apply returns_ret|].
    apply returns_if; intros _; [by apply returns_ret|apply returns_throw]. }
  intros st2 Hst2. by apply follows_event, follows_same.
Qed.

Lemma spent_again_same old f : returns (same_turn old) (spent_again f old).
Proof.
  assert (Hsame : same_turn old old) by (split_and!; auto). unfold spent_again.
  assert (forall st, same_turn old st -> same_turn old (with_standing "incomplete" (Some "reserved_without_completed_review") true st)) as Hlost
    by done.
  destruct (String.eqb _ _), (reviewed _); try (apply returns_ret; auto);
    apply returns_then; intros now; apply returns_ret; unfold after_spent; repeat case_match; done.
Qed.

Lemma missing_fields ctx st :
  scope (missing_turn ctx st) = scope (_new_state ctx None) /\ spend (missing_turn ctx st) = spend (_new_state ctx None) /\
  work (missing_turn ctx st) = work (_new_state ctx None).
Proof.
  unfold missing_turn. cbn -[_exclude _new_state]. edestruct exclude_scope as (-> & -> & ->). destruct st as [st|]; [|done].
  case_match; [|done]. by edestruct exclude_scope as (-> & -> & ->).
Qed.

Lemma missing_turn_follows opens ctx previous :
  (forall old, previous = Some old -> watermark (scope old) < x_turn_id ctx) -> follows opens previous (missing_turn ctx previous).
Proof.
  intros H. right. unfold turn. destruct (missing_fields ctx previous) as (-> & -> & ->). by split_and!.
Qed.

(** What [decide_review] gives: a reservation, or the state with its turn as it was. *)
Lemma decide_cases attempt plan now e st :
  match decide_review attempt plan now e st with
  | (st', o, reserving) =>
      if reserving then turn st' = turn st /\ spent (spend st') = true else same_turn st st'
  end.
Proof.
  unfold decide_review. cbv zeta. repeat case_match; simplify_eq; try done.
  - apply same_turn_exclude. split_and!; auto.
  - split_and!; auto.
  - split_and!; auto.
Qed.

(** A reservation: the turn was not spent and had a baseline, and is spent now. *)
Definition reserves (previous : option review_state) (frozen : review_state) : Prop :=
  exists old, previous = Some old /\ spent (spend old) = false /\ baseline (work old) <> None /\
    turn frozen = turn old /\ spent (spend frozen) = true.

(** What [reserve] gives: a reservation is the candidate. *)
Definition reserve_gives (previous : option review_state) (x : option review_state * (StopOutcome * option review_state)) : Prop :=
  (forall event, x.1 = Some event -> follows (fun _ => False) previous event) /\
  (forall frozen, x.2.2 = Some frozen -> x.1 = Some frozen /\ reserves previous frozen).

Lemma reserves_follows opens previous frozen : reserves previous frozen -> follows opens previous frozen.
Proof. intros (old & -> & Hs & Hb & Ht & Hs'). left. exists old. by split_and!. Qed.

Lemma reserve_spec ctx f plan attempt previous : returns (reserve_gives previous) (reserve ctx f plan attempt previous).
Proof.
  apply returns_lift_bind. intros old ->%state_is. cbv zeta.
  assert (Hkeep : forall o, returns (reserve_gives previous) (mret (None, (o, None)) : M disk _)) by (intros o; by apply returns_ret).
  assert (Hstore : forall st o, follows (fun _ => False) previous st ->
    returns (reserve_gives previous) (lift (_event st) ≫= fun event => mret (event, (o, None)) : M disk _)).
  { intros st o Hq. apply returns_event. split; [|done]. by intros event [= <-]. }
  destruct previous as [old|]; [|by apply Hstore, missing_turn_follows].
  assert (Hsame : same_turn old old) by (split_and!; auto).
  apply returns_if; intros _; [apply Hkeep|]. apply returns_if; intros _.
  { apply returns_if; intros Hw; [|apply Hkeep]. apply Hstore, missing_turn_follows. intros o [= <-]. lia. }
  apply returns_if; intros _; [by apply Hstore, follows_same|].
  apply returns_if; intros Hspent.
  { eapply returns_bind; [apply spent_again_same|]. intros st Hst. by apply Hstore, follows_same. }
  destruct (baseline (work old)) as [base|] eqn:Hbase; [|apply Hkeep].
  apply returns_if; intros _; [apply Hkeep|]. apply returns_then. intros now. apply returns_then. intros d.
  apply returns_then. intros e.
  pose proof (decide_cases attempt plan now (turn_evidence (with_work (observed (Some now) (work old)) old) e)
    (with_work (observed (Some now) (work old)) old)) as Hd.
  destruct (decide_review _ _ _ _ _) as [[st' o] []]; [|by apply Hstore, follows_same].
  assert (Hres : reserves (Some old) st') by (exists old; rewrite Hbase; destruct Hd as [Ht Hs]; by split_and!).
  apply returns_event. split; [intros event [= <-]; by apply reserves_follows|by intros frozen [= <-]].
Qed.

Lemma save_follows opens ctx frozen a previous : gives_next opens previous (save_result ctx frozen a previous).
Proof.
  apply returns_lift_bind. intros [old|] H%state_is; subst; [|apply follows_none].
  apply returns_if; intros _; [|apply follows_none]. apply follows_event, follows_same. split_and!; auto.
Qed.

Lemma settle_same frozen a fresh st : same_turn st (settle frozen a fresh st).1.
Proof.
  assert (same_turn st st) by (split_and!; auto).
  unfold settle. repeat (case_match; try done).
  all: by apply (same_turn_exclude st (with_decision a st)).
Qed.

Lemma finish_follows opens ctx frozen a fresh previous : gives_next opens previous (finish ctx frozen a fresh previous).
Proof.
  apply returns_lift_bind. intros [old|] H%state_is; subst; [|apply follows_none].
  apply returns_if; intros _; [|apply follows_none]. pose proof (settle_same frozen a fresh old) as Hs.
  destruct (settle frozen a fresh old) as [st o]. by apply follows_event, follows_same.
Qed.

Lemma reset_follows opens previous : gives_next opens previous (reset_update previous).
Proof.
  unfold reset_update. destruct previous as [old|]; [|apply follows_none]. apply follows_event, follows_same. split_and!; auto.
Qed.

(** ** One update of the checkpoint *)

(** What an update leaves: nothing new, or the candidate [P] describes. *)
Definition updated {X} (P : option review_state * X -> Prop) (d d' : disk) : Prop :=
  intact line_size d' /\ d_sent d' = d_sent d /\
  (latest d' = latest d \/ exists event x, P (Some event, x) /\ validate_event event = Ok tt /\ latest d' = Some event).

(** And what it returns. *)
Definition delivered {X} (P : option review_state * X -> Prop) (d' : disk) (o : outcome (option review_state * X)) : Prop :=
  match o with
  | Ret (_, x) => exists c, P (c, x) /\ match c with Some event => validate_event event = Ok tt /\ latest d' = Some event | None => True end
  | _ => True
  end.

Lemma keeps_books d d' : same_books d d' -> keeps d d'.
Proof. intros (H1 & H2 & _). by split. Qed.

Lemma wp_callback {X} (P : option review_state * X -> Prop) cb d :
  (forall d previous, preserves (same_books d) (cb previous)) -> returns P (cb (latest d)) ->
  wp true (cb (latest d)) (fun o w1 => keeps d w1 /\
    match o with Ret (c, x) => P (c, x) | _ => True end) d.
Proof.
  intros Hb HP. eapply wp_mono; [apply wp_and; [apply (Hb d (latest d) d), same_books_refl|apply HP]|].
  intros o w1 [H1%keeps_books H2]. split; [done|]. by destruct o as [[c x]|e|].
Qed.

Lemma wp_checkpoint {X} (P : option review_state * X -> Prop) (cb : option review_state -> M disk (option review_state * X)) d :
  intact line_size d -> (forall d previous, preserves (same_books d) (cb previous)) -> returns P (cb (latest d)) ->
  wp true (update_review_checkpoint line_size validate_event cb) (fun o d' => updated P d d' /\ delivered P d' o) d.
Proof.
  intros Hi Hb HP.
  eapply wp_mono; [apply wp_and; [apply (wp_update_checkpoint line_size validate_event (fun c x _ => P (c, x)) (fun _ => True)); [done|]|]|].
  - by apply wp_callback.
  - apply (preserves_update line_size validate_event (fun d' => d_sent d' = d_sent d)); try done.
    intros previous w Hw. rewrite <- Hw. eapply wp_mono; [apply (Hb w previous w), same_books_refl|].
    by intros o w' (_ & _ & _ & ->).
  - intros o w' [He Hsent]. destruct (update_ends_latest _ _ _ _ _ _ _ Hi He) as (Hi' & Hl & Ho). split.
    + split_and!; [done..|]. destruct Hl as [Hl|(event & x & w1 & Hl)]; naive_solver.
    + destruct o as [[stored x]|e|]; [|done..]. destruct Ho as (_ & c & w1 & HC & Hc). exists c. split; [done|].
      by destruct c.
Qed.

(** The same for [_update], which is under a lease and checks the owner. *)
Lemma wp__update {X} (P : option review_state * X -> Prop) ctx (cb : option review_state -> M disk (option review_state * X)) d :
  intact line_size d -> (forall d previous, preserves (same_books d) (cb previous)) -> returns P (cb (latest d)) ->
  wp true (_update ctx cb) (fun o d' => updated P d d' /\ delivered P d' o) d.
Proof.
  intros Hi Hb HP.
  assert (Hd : updated P d d) by (split_and!; auto).
  apply wp_with_lock; [|intros _; repeat split; by apply Hd || auto].
  eapply wp_mono; [apply wp_checkpoint; [done| |]|].
  - intros d0 previous. apply preserves_get. intros w Hw. apply preserves_if; [apply preserves_lift|apply Hb].
  - apply returns_then. intros w. apply returns_if; [intros _; by apply returns_lift|]. intros _. exact HP.
  - intros o d' [H1 H2]. split; [done|]. intros _. split; [intros e|]; by split.
Qed.

(** ** Several hook processes

    The disk, the turns whose prompts have been given to [begin_turn], and the reservations
    whose processes have yet to ask. *)

Record world := {
  w_disk : disk;
  w_prompts : list Z;
  w_waiting : list review_state }.

Definition on_disk (d : disk) (w : world) : world := {| w_disk := d; w_prompts := w_prompts w; w_waiting := w_waiting w |}.

(** What a process that reserved is to ask, if it got that far. *)
Definition reservation_of (o : outcome (StopOutcome * option review_state)) : list review_state :=
  match o with Ret (_, Some frozen) => [frozen] | _ => [] end.

(** A step of some process: an operation between its locks, with any faults. A hook may be
    started for any turn, in any order and more than once; a process may end at any time; the
    session may be deleted, and the evidence directory changed, by others. *)
Inductive step (w : world) : world -> Prop :=
| s_begin ctx f fs o fs' d' :
    begin_turn ctx f fs (w_disk w) = (o, fs', d') ->
    step w {| w_disk := d'; w_prompts := x_turn_id ctx :: w_prompts w; w_waiting := w_waiting w |}
| s_action ctx a f1 f2 fs o fs' d' :
    record_action ctx a f1 f2 fs (w_disk w) = (o, fs', d') -> step w (on_disk d' w)
| s_reserve ctx f plan attempt fs o fs' d' :
    reserve_review ctx f plan attempt fs (w_disk w) = (o, fs', d') ->
    step w {| w_disk := d'; w_prompts := w_prompts w; w_waiting := reservation_of o ++ w_waiting w |}
| s_ask frozen before after reply fs o fs' d' :
    w_waiting w = before ++ frozen :: after -> ask frozen reply fs (w_disk w) = (o, fs', d') ->
    step w {| w_disk := d'; w_prompts := w_prompts w; w_waiting := before ++ after |}
| s_dies frozen before after :
    w_waiting w = before ++ frozen :: after ->
    step w {| w_disk := w_disk w; w_prompts := w_prompts w; w_waiting := before ++ after |}
| s_save ctx frozen a fs o fs' d' :
    save_review ctx frozen a fs (w_disk w) = (o, fs', d') -> step w (on_disk d' w)
| s_finish ctx plan frozen a c fs o fs' d' :
    finish_review ctx plan frozen a c fs (w_disk w) = (o, fs', d') -> step w (on_disk d' w)
| s_reset fs o fs' d' :
    reset_review fs (w_disk w) = (o, fs', d') -> step w (on_disk d' w)
| s_environment st owner :
    step w (on_disk {| d_journal := d_journal (w_disk w); d_marker := d_marker (w_disk w); d_storage := st; d_owner := owner;
                       d_sent := d_sent (w_disk w) |} w).

Inductive reachable : world -> Prop :=
| r_start st owner :
    reachable {| w_disk := {| d_journal := NoJournal; d_marker := NoMarker; d_storage := st; d_owner := owner; d_sent := [] |};
                 w_prompts := []; w_waiting := [] |}
| r_step w w' : reachable w -> step w w' -> reachable w'.

(** The turns a review has been reserved for and is or will be asked about. *)
Definition asked (w : world) : list Z := map q_turn (d_sent (w_disk w)) ++ map turn (w_waiting w).

(** The latest state covers what has been asked: each such turn is earlier or spent. *)
Definition covers (d : disk) (t : Z) : Prop :=
  exists st, latest d = Some st /\ (t < turn st \/ t = turn st /\ spent (spend st) = true).

Record inv (w : world) : Prop := {
  inv_intact : intact line_size (w_disk w);
  inv_valid : forall st, latest (w_disk w) = Some st -> validate_event st = Ok tt;
  inv_once : NoDup (asked w);
  inv_covered : Forall (covers (w_disk w)) (asked w);
  inv_prompted : Forall (fun t => t ∈ w_prompts w) (asked w);
  inv_opened : forall st, latest (w_disk w) = Some st -> spent (spend st) = false -> baseline (work st) <> None ->
                 turn st ∈ w_prompts w }.

Lemma follows_covers opens d d' event t :
  (forall st, latest d = Some st -> validate_event st = Ok tt) ->
  follows opens (latest d) event -> latest d' = Some event -> covers d t -> covers d' t.
Proof.
  intros Hv Hq Hl (old & Hold & Ht). exists event. split; [done|].
  destruct Hq as [(old' & Hold' & H1 & H2 & _)|(_ & H2 & _)].
  - rewrite Hold in Hold'. injection Hold' as <-. rewrite H1. tauto.
  - specialize (H2 old Hold). rewrite (validated_turn old) in H2 by auto. left. lia.
Qed.

(** A follows update by a step that may open turns [opens]. *)
Lemma inv_follows {X} opens (w : world) prompts d' :
  inv w ->
  updated (fun x : option review_state * X => forall event, x.1 = Some event -> follows opens (latest (w_disk w)) event) (w_disk w) d' ->
  (forall t, t ∈ w_prompts w -> t ∈ prompts) -> (forall t, opens t -> t ∈ prompts) ->
  inv {| w_disk := d'; w_prompts := prompts; w_waiting := w_waiting w |}.
Proof.
  intros [Hi Hv Ho Hc Hp Hop] (Hi' & Hs & Hl) Hsub Hopens.
  assert (Hasked : asked {| w_disk := d'; w_prompts := prompts; w_waiting := w_waiting w |} = asked w)
    by (unfold asked; cbn; by rewrite Hs).
  split; cbn [w_disk w_prompts w_waiting]; rewrite ?Hasked; try done.
  - destruct Hl as [-> |(event & x & _ & He & ->)]; [done|]. by intros st [= <-].
  - eapply Forall_impl; [exact Hc|]. intros t Ht. destruct Hl as [Hl|(event & x & HP & He & Hl)].
    + unfold covers. by rewrite Hl.
    + eapply follows_covers; eauto.
  - eapply Forall_impl; [exact Hp|]. auto.
  - intros st Hst Hns Hb. destruct Hl as [Hl|(event & x & HP & He & Hl)]; [rewrite Hl in Hst; auto|].
    rewrite Hl in Hst. injection Hst as ->. destruct (HP st eq_refl) as [(old & Hold & H1 & H2 & H3)|(_ & _ & H3)]; [|auto].
    rewrite H1. apply Hsub, Hop; auto. destruct (spent (spend old)); [|done]. by rewrite H2 in Hns.
Qed.

(** Steps that leave the checkpoint as it is and ask nothing new. *)
Lemma inv_fewer (w w' : world) :
  inv w -> keeps (w_disk w) (w_disk w') -> w_prompts w' = w_prompts w -> asked w' ⊆+ asked w -> inv w'.
Proof.
  intros [Hi Hv Ho Hc Hp Hop] Hk Hpr Hsub. pose proof (keeps_latest _ _ Hk) as Hl.
  apply submseteq_Permutation in Hsub as [rest Hperm].
  assert (Hin : forall (P : Z -> Prop), Forall P (asked w) -> Forall P (asked w')).
  { intros P HP. rewrite Hperm in HP. by apply Forall_app in HP as [HP _]. }
  split; rewrite ?Hl, ?Hpr; try done.
  - by eapply keeps_intact.
  - rewrite Hperm in Ho. by apply NoDup_app in Ho as [Ho _].
  - unfold covers. rewrite Hl. by apply Hin.
  - by apply Hin.
Qed.

Lemma wp_disk {A} (m : M disk A) Q d fs o fs' d' : wp true m Q d -> m fs d = (o, fs', d') -> Q o d'.
Proof. intros H Hrun. pose proof (wp_weaken m Q d H fs) as Hw. by rewrite Hrun in Hw. Qed.

(** The steps whose update is follows. *)
Lemma inv_update {X Y} opens (w : world) prompts ctx (cb : option review_state -> M disk (option review_state * X))
    (k : option review_state * X -> Y) fs o fs' d' :
  inv w -> (forall d previous, preserves (same_books d) (cb previous)) ->
  (forall previous, gives_next opens previous (cb previous)) ->
  (forall t, t ∈ w_prompts w -> t ∈ prompts) -> (forall t, opens t -> t ∈ prompts) ->
  (x ← _update ctx cb; mret (k x)) fs (w_disk w) = (o, fs', d') ->
  inv {| w_disk := d'; w_prompts := prompts; w_waiting := w_waiting w |}.
Proof.
  intros Hinv Hb Hq Hsub Hop Hrun. eapply inv_follows; [done| |done|done].
  eapply (wp_disk _ (fun _ d' => updated (X := X) _ (w_disk w) d')); [|exact Hrun]. apply wp_bind.
  eapply wp_mono; [apply wp__update; [apply Hinv|done|apply Hq]|]. intros [x|e|] d1 [Hd1 _]; [by apply wp_ret|done..].
Qed.

(** What a process that reserved has done. *)
Lemma wp_reserve ctx f plan attempt d :
  intact line_size d ->
  wp true (reserve_review ctx f plan attempt) (fun o d' =>
    updated (reserve_gives (latest d)) d d' /\
    forall frozen, frozen ∈ reservation_of o -> reserves (latest d) frozen /\ latest d' = Some frozen) d.
Proof.
  intros Hi. apply wp_bind.
  eapply wp_mono; [apply (wp__update (reserve_gives (latest d)) ctx (reserve ctx f plan attempt));
    [done|intros; apply reserve_books|apply reserve_spec]|].
  assert (Hnone : forall d1 (o : outcome (StopOutcome * option review_state)), reservation_of o = [] -> forall frozen,
            frozen ∈ reservation_of o -> reserves (latest d) frozen /\ latest d1 = Some frozen)
    by (intros d1 o -> frozen H; by apply not_elem_of_nil in H).
  intros [[stored [out r]]|e|] d1 [Hd1 Hdel]; [|split; [done|by apply Hnone]..]. apply wp_ret. split; [done|].
  destruct r as [st|]; [|by apply Hnone]. intros frozen ->%list_elem_of_singleton.
  destruct Hdel as (c & [_ Hres] & Hl). destruct (Hres st eq_refl) as [Hc Hr]. cbn in Hc. subst c. by destruct Hl.
Qed.

(** A reservation joins what is waiting: its turn has not been asked about before. *)
Lemma inv_reserve (w : world) ctx f plan attempt fs o fs' d' :
  inv w -> reserve_review ctx f plan attempt fs (w_disk w) = (o, fs', d') ->
  inv {| w_disk := d'; w_prompts := w_prompts w; w_waiting := reservation_of o ++ w_waiting w |}.
Proof.
  intros Hinv Hrun. destruct (wp_disk _ _ _ _ _ _ _ (wp_reserve ctx f plan attempt _ (inv_intact w Hinv)) Hrun) as [Hup Hres].
  assert (Hinv' : inv {| w_disk := d'; w_prompts := w_prompts w; w_waiting := w_waiting w |}).
  { eapply (inv_follows (X := StopOutcome * option review_state) (fun _ => False)); try done.
    destruct Hup as (Hi & Hs & Hl). split_and!; [done..|]. destruct Hl as [Hl|(event & x & [HP _] & Hl)]; eauto. }
  destruct Hup as (_ & Hsent & _). destruct o as [[out [frozen|]]|e|]; try done.
  destruct (Hres frozen) as [(old & Hold & Hns & Hb & Ht & Hsp) Hl]; [by apply list_elem_of_singleton|].
  destruct Hinv as [Hi Hv Ho Hc Hp Hop]. destruct Hinv' as [Hi' Hv' Ho' Hc' Hp' Hop'].
  assert (Hnew : turn frozen ∉ asked w).
  { intros Hin. rewrite Forall_forall in Hc. destruct (Hc _ Hin) as (st & Hst & Hlt).
    rewrite Hold in Hst. injection Hst as <-. rewrite Hns in Hlt. destruct Hlt as [Hlt|[_ Hlt]]; [lia|done]. }
  assert (Hperm : asked {| w_disk := d'; w_prompts := w_prompts w; w_waiting := frozen :: w_waiting w |} ≡ₚ turn frozen :: asked w)
    by (unfold asked; cbn; rewrite Hsent; symmetry; apply Permutation_middle).
  assert (Hsame : asked {| w_disk := d'; w_prompts := w_prompts w; w_waiting := w_waiting w |} = asked w)
    by (unfold asked; cbn; by rewrite Hsent).
  rewrite Hsame in *. split; cbn [reservation_of app w_disk w_prompts w_waiting] in *; rewrite ?Hperm; try done.
  - by constructor.
  - constructor; [|done]. exists frozen. auto.
  - constructor; [|done]. rewrite Ht. by apply Hop.
Qed.

(** Asking sends at most the question of the reservation. *)
Definition sends (t : Z) (d d' : disk) : Prop :=
  keeps d d' /\ (d_sent d' = d_sent d \/ exists q, q_turn q = t /\ d_sent d' = d_sent d ++ [q]).

Lemma wp_ask frozen reply d : wp true (ask frozen reply) (fun _ => sends (turn frozen) d) d.
Proof.
  assert (Hstay : sends (turn frozen) d d) by (split; auto; done).
  assert (Hsend : sends (turn frozen) d (sending frozen d)).
  { unfold sending. destruct (frozen_evidence _) as [e|]; [|done]. destruct (attempt_id _) as [attempt|]; [|done].
    split; [done|]. right. eexists. split; [|reflexivity]. done. }
  unfold ask. apply wp_bind, wp_commit; [by apply wp_lift|]. intros _. by split_and!.
Qed.

Lemma asked_sublist (w w' : world) before frozen after :
  w_waiting w = before ++ frozen :: after -> w_waiting w' = before ++ after ->
  (d_sent (w_disk w') = d_sent (w_disk w) \/
   exists q, q_turn q = turn frozen /\ d_sent (w_disk w') = d_sent (w_disk w) ++ [q]) ->
  asked w' ⊆+ asked w.
Proof.
  intros Hw Hw' Hs. unfold asked. rewrite Hw, Hw'. destruct Hs as [-> |(q & Hq & ->)]; rewrite !map_app; cbn.
  - apply submseteq_app; [done|]. apply submseteq_app; [done|]. by apply submseteq_cons.
  - rewrite Hq, <- (app_assoc _ [_] _). apply submseteq_app; [done|]. cbn. by rewrite Permutation_middle.
Qed.

Lemma freshness_books d ctx plan frozen c : preserves (same_books d) (check_freshness ctx plan frozen c).
Proof.
  apply preserves_bind; [apply preserves_attempt, preserves_bind; [auto with books|intros after; books]|].
  intros [s|e]; [books|]. apply preserves_if; books.
Qed.

(** Finishing captures the checkout first, and then updates the checkpoint. *)
Lemma inv_finish (w : world) ctx plan frozen a c fs o fs' d' :
  inv w -> finish_review ctx plan frozen a c fs (w_disk w) = (o, fs', d') -> inv (on_disk d' w).
Proof.
  intros Hinv Hrun. eapply (inv_follows (X := StopOutcome) (fun _ => False)); try done.
  eapply (wp_disk _ (fun _ d' => updated (X := StopOutcome) _ (w_disk w) d')); [|exact Hrun]. apply wp_bind.
  eapply wp_mono; [apply (freshness_books (w_disk w)), same_books_refl|]. intros r d1 Hb.
  assert (Hi : intact line_size d1) by (eapply keeps_intact; [apply keeps_books, Hb|apply Hinv]).
  pose proof (keeps_latest _ _ (keeps_books _ _ Hb)) as Hlatest. destruct Hb as (_ & _ & _ & Hsent).
  assert (Hup : forall d2, updated (fun x : option review_state * StopOutcome => forall event, x.1 = Some event ->
      follows (fun _ => False) (latest d1) event) d1 d2 ->
    updated (fun x : option review_state * StopOutcome => forall event, x.1 = Some event ->
      follows (fun _ => False) (latest (w_disk w)) event) (w_disk w) d2)
    by (unfold updated; intros d2; by rewrite Hsent, Hlatest).
  destruct r as [fresh|e|]; [|by apply Hup; split_and!; auto..]. apply wp_bind.
  eapply wp_mono; [apply wp__update; [done|intros; apply finish_books|apply finish_follows]|].
  intros [[? ?]|e|] d2 [Hd2 _]; [apply wp_ret|..]; by apply Hup.
Qed.

Lemma inv_reset (w : world) fs o fs' d' :
  inv w -> reset_review fs (w_disk w) = (o, fs', d') -> inv (on_disk d' w).
Proof.
  intros Hinv Hrun. eapply (inv_follows (X := bool) (fun _ => False)); try done.
  eapply (wp_disk _ (fun _ d' => updated (X := bool) _ (w_disk w) d')); [|exact Hrun].
  assert (Hd : forall P, updated (X := bool) P (w_disk w) (w_disk w)) by (intros P; split_and!; auto; apply Hinv).
  apply wp_with_lock; [|intros _; split_and!; intros; apply Hd]. apply wp_bind.
  eapply wp_mono; [apply wp_checkpoint; [apply Hinv|intros; apply reset_books|apply reset_follows]|].
  intros [[? ?]|e|] d1 [Hd1 _]; [apply wp_ret|..]; by split_and!.
Qed.

Theorem inv_step w w' : inv w -> step w w' -> inv w'.
Proof.
  intros Hinv [ctx f fs o fs' d' Hrun|ctx a f1 f2 fs o fs' d' Hrun|ctx f plan attempt fs o fs' d' Hrun
    |frozen before after reply fs o fs' d' Hw Hrun|frozen before after Hw|ctx frozen a fs o fs' d' Hrun
    |ctx plan frozen a c fs o fs' d' Hrun|fs o fs' d' Hrun|st owner].
  - eapply inv_update; [exact Hinv|intros; apply begin_books|intros; apply begin_follows| |intros t ->|exact Hrun].
    + intros t Ht. by apply elem_of_cons; right.
    + apply elem_of_cons. by left.
  - eapply (inv_update (fun _ => False)); [exact Hinv|intros; apply action_books|intros; apply action_follows|done|done|exact Hrun].
  - by eapply inv_reserve.
  - destruct (wp_disk _ _ _ _ _ _ _ (wp_ask frozen reply (w_disk w)) Hrun) as [Hk Hs].
    eapply inv_fewer; [done|done|done|]. by eapply asked_sublist.
  - eapply inv_fewer; [done|done|done|]. eapply asked_sublist; [done|done|by left].
  - eapply (inv_update (fun _ => False)); [exact Hinv|intros; apply save_books|intros; apply save_follows|done|done|exact Hrun].
  - by eapply inv_finish.
  - by eapply inv_reset.
  - by eapply inv_fewer.
Qed.

Lemma reachable_inv w : reachable w -> inv w.
Proof. induction 1 as [st owner|w w' _ IH Hs]; [|by eapply inv_step]. split; cbn; try done; constructor. Qed.

(** ** Lemmas: when a correction is asked for *)

Lemma returns_capture f :
  returns (fun r => exists s l, f = Ok (s, l) /\ r = reference_to sha_manifest s) (capture f).
Proof.
  unfold capture. apply returns_lift_bind. intros [s l] Hf. apply returns_then. intros _. apply returns_ret. eauto.
Qed.

Lemma turn_evidence_complete st e : complete (turn_evidence st e) = true -> complete e = true.
Proof. unfold turn_evidence. by repeat case_match. Qed.

Lemma decide_reserving attempt plan now e st st' o reserving :
  decide_review attempt plan now e st = (st', o, reserving) ->
  correction o = false /\ (reserving = true -> reviewed (spend st') = Some now /\ frozen_evidence (spend st') = Some e).
Proof. unfold decide_review. cbv zeta. repeat case_match; intros; simplify_eq; done. Qed.

(** The evidence that a reservation freezes: the checkout as it was captured. *)
Definition frozen_from (f : found) (frozen : review_state) : Prop :=
  exists s l st base acts e, f = Ok (s, l) /\ reviewed (spend frozen) = Some (reference_to sha_manifest s) /\
    compare sha_manifest sha_bytes manifest_size evidence_size decodes unified_diff relative_path
      st base (reference_to sha_manifest s) acts = Ok e /\
    (forall fe, frozen_evidence (spend frozen) = Some fe -> complete fe = true -> complete e = true).

Definition freezes (f : found) (x : StopOutcome * option review_state) : Prop :=
  correction x.1 = false /\ forall frozen, x.2 = Some frozen -> frozen_from f frozen.

Lemma reserve_freezes ctx f plan attempt previous :
  returns (fun x => freezes f x.2)
    (reserve ctx f plan attempt previous).
Proof.
  apply returns_lift_bind. intros old _. cbv zeta.
  repeat first [ apply returns_if; intros _ | by apply returns_ret | by apply returns_event
               | by (apply returns_then; intros ?; apply returns_event) | case_match ].
  eapply returns_bind; [apply returns_capture|]. intros now (s & l & Hf & ->). apply returns_then. intros d.
  apply returns_lift_bind. intros e He. destruct (decide_review _ _ _ _ _) as [[st o] reserving] eqn:Hd.
  apply decide_reserving in Hd as [Hc Hr]. apply returns_event. split; [done|]. destruct reserving; [|done].
  intros frozen [= <-]. destruct (Hr eq_refl) as [Hnow Hfe].
  do 6 eexists. split_and!; [done|done|exact He|]. intros fe Hfe' Hcomplete. rewrite Hfe in Hfe'. injection Hfe' as <-.
  by eapply turn_evidence_complete.
Qed.

(** Nothing has changed since the reservation, and the answer came in time. *)
Definition still_fresh (ctx : TurnContext) (plan : plan_snapshot) (frozen : review_state) (c : completion) : Prop :=
  (exists s l, c_found c = Ok (s, l) /\ Some (r_digest (reference_to sha_manifest s)) = r_digest <$> reviewed (spend frozen)) /\
  fingerprint (c_plan c) = fingerprint plan /\ c_config c = Ok (x_config_digest ctx) /\ c_late c = false.

Lemma returns_freshness ctx plan frozen c :
  returns (fun fresh => completion_failed fresh = false -> stale fresh = false -> still_fresh ctx plan frozen c)
    (check_freshness ctx plan frozen c).
Proof.
  unfold check_freshness.
  apply returns_bind with (fun r => match r with Ok s => s = false -> still_fresh ctx plan frozen c | Err _ => True end).
  - apply returns_attempt. eapply returns_bind; [apply returns_capture|]. intros after (s & l & Hf & ->).
    apply returns_lift_bind. intros config Hconfig. apply returns_if; [intros _; by apply returns_lift|]. intros Hlate.
    apply returns_ret. intros [[H1 H2]%orb_false_iff H3]%orb_false_iff. apply negb_false_iff in H1, H2, H3.
    apply bool_decide_eq_true in H1. apply String.eqb_eq in H2, H3. subst config. split; [by exists s, l|done].
  - intros [s|e] Hr; [apply returns_ret; cbn; auto|]. apply returns_if; intros _; [|apply returns_throw].
    by apply returns_ret.
Qed.

(** What [settle] asks of a correction. *)
Lemma settle_corrects frozen a fresh st :
  correction (settle frozen a fresh st).2 = true ->
  completion_failed fresh = false /\ stale fresh = false /\ verdict (decision a) = "deny" /\ run_ok a = true /\ parsed a = true /\
  fail_open (decision a) = false /\ exists fe, frozen_evidence (spend frozen) = Some fe /\ complete fe = true.
Proof.
  unfold settle. cbv zeta. destruct (_ || _); [done|]. destruct (completion_failed fresh); [done|]. destruct (stale fresh); [done|].
  destruct (run_ok a); [|done]. destruct (parsed a); [|done]. destruct (fail_open (decision a)); [done|].
  cbn [negb orb]. destruct (negb (is_none _)); [done|].
  destruct (frozen_evidence (spend frozen)) as [fe|]; [|done]. destruct (complete fe) eqn:Hc; [|done]. cbn.
  intros Hv%String.eqb_eq. by split_and!; eauto.
Qed.

Definition corrects (frozen : review_state) (a : answer) (fresh : freshness) (o : StopOutcome) : Prop :=
  correction o = true -> exists st, correction (settle frozen a fresh st).2 = true.

Lemma finish_corrects ctx frozen a fresh previous :
  returns (fun x => corrects frozen a fresh x.2)
    (finish ctx frozen a fresh previous).
Proof.
  unfold finish. apply returns_lift_bind. intros [st|] _; [|by apply returns_ret].
  apply returns_if; intros _; [|by apply returns_ret]. destruct (settle frozen a fresh st) as [st' o] eqn:Hs.
  apply returns_event. cbn. intros Hc. exists st. by rewrite Hs.
Qed.

(** What [_update] returns is what its callback gave. *)
Lemma returns__update {X} (P : X -> Prop) ctx (cb : option review_state -> M disk (option review_state * X)) :
  (forall previous, returns (fun x => P x.2) (cb previous)) -> returns (fun x => P x.2) (_update ctx cb).
Proof.
  intros H. apply returns_with_lock. intros w. eapply wp_mono; [apply (returns_update line_size validate_event P)|].
  - intros previous. apply returns_then. intros d. apply returns_if; intros _; [by apply returns_lift|].
    intros w1. eapply wp_mono; [apply H|]. by intros [[? ?]| |].
  - by intros [[? ?]| |].
Qed.

Lemma reserve_review_freezes ctx f plan attempt :
  returns (freezes f) (reserve_review ctx f plan attempt).
Proof.
  eapply returns_bind; [apply (returns__update (freezes f) ctx _ (reserve_freezes ctx f plan attempt))|].
  intros [stored x] Hx. by apply returns_ret.
Qed.

Lemma returns_ask frozen reply : returns (fun a => reply = Ok a) (ask frozen reply).
Proof. apply returns_then. intros _. by apply returns_lift. Qed.

(** ** Properties *)

(** C3: A turn is reviewed once. Whatever hook processes run, in whatever order, for whatever
    turns, and wherever they are cut short: no two questions that were sent are about the same
    turn, each is about a turn that a user's prompt opened, and the checkpoint can be read and
    shows a later turn or that one spent. *)
Theorem one_review_per_turn w :
  reachable w ->
  NoDup (map q_turn (d_sent (w_disk w))) /\
  (forall q, q ∈ d_sent (w_disk w) -> q_turn q ∈ w_prompts w /\
     exists st, read_review_checkpoint line_size (w_disk w) = Ok (Some st) /\
       (q_turn q < turn st \/ q_turn q = turn st /\ spent (spend st) = true)).
Proof.
  intros [Hi Hv Ho Hc Hp _]%reachable_inv. unfold asked in *. split; [by apply NoDup_app in Ho as [Ho _]|].
  intros q Hq. assert (Hin : q_turn q ∈ map q_turn (d_sent (w_disk w)) ++ map turn (w_waiting w))
    by (apply elem_of_app; left; apply list_elem_of_fmap; eauto).
  rewrite !Forall_forall in *. split; [by apply Hp|]. destruct (Hc _ Hin) as (st & Hst & Ht). exists st.
  split; [|done]. rewrite read_latest; [|done]. by rewrite Hst.
Qed.


End Review.

(** ** Witnesses *)

Module ReviewSample.
Import EvidenceSample.

(** Identities with the version and the variant of a native UUID. *)
Definition uuid (n : Z) : Z := Z.shiftl n 80 + Z.shiftl 7 76 + Z.shiftl 2 62.
Definition context (n : Z) : TurnContext :=
  {| x_forge_root := "/w"; x_checkout := "/w"; x_thread_id := uuid 99; x_turn_id := uuid n; x_config_digest := h 5;
     x_session_identity := zeros 32 |}.
Definition act (n : Z) (phase : string) : action :=
  {| a_id := "t1"; a_phase := phase; a_turn := uuid n; a_paths := ["a"]; a_coverage_issue := None; a_rest := "{}" |}.
Definition sha_evidence (e : evidence) : string := h (length (shown_changes e)).

Definition found_before : found := Ok (EvidenceSample.before, ["x"; "xx"]).
Definition found_after : found := Ok (EvidenceSample.finish, ["xxxx"; "xx"]).
Definition plan : plan_snapshot := {| plan_text := Some "do it"; plan_sha := Some (h 6); plan_path := Some "plan.md" |}.
Definition denial : answer :=
  {| decision := {| verdict := "deny"; fail_open := false; failure_type := None |}; run_ok := true; parsed := true; was_dispatched := Some true |}.
Definition in_time : completion := {| c_found := found_after; c_plan := plan; c_config := Ok (h 5); c_late := false |}.

Definition begin (n : Z) (f : found) : M disk unit := begin_turn sha_manifest sha_bytes sha_evidence small small small (context n) f.
Definition record (n : Z) (a : action) : M disk unit :=
  record_action sha_manifest sha_bytes sha_evidence small small (context n) a found_after found_after.
Definition reserve_for (n : Z) : M disk (StopOutcome * option review_state) :=
  reserve_review sha_manifest sha_bytes sha_evidence small small small small (fun _ => true) diff inside (context n) found_after plan (zeros 32).
Definition stop (n : Z) : M disk StopOutcome :=
  review_stop sha_manifest sha_bytes sha_evidence small small small small (fun _ => true) diff inside
    (context n) found_after plan (zeros 32) (Ok denial) in_time id id id.

Definition empty_disk : disk :=
  {| d_journal := NoJournal; d_marker := NoMarker; d_storage := {| manifests := []; blobs := [] |}; d_owner := Some (zeros 32); d_sent := [] |}.

(** A prompt, an edit, two Stops: the first asks and corrects, the second does not ask again. *)
Example corrected_once :
  let '(o, d) := run (_ ← begin 1 found_before; _ ← record 1 (act 1 "request"); _ ← record 1 (act 1 "outcome");
                      o1 ← stop 1; o2 ← stop 1; mret (o_status o1, correction o1, o_status o2, o_reason o2, correction o2)) empty_disk in
  (o, map q_turn (d_sent d)) = (Ret ("reviewed", true, "unreviewed", Some "correction_not_reassessed", false), [uuid 1]).
Proof. vm_compute. reflexivity. Qed.

(** The same, step by step, up to the question. *)
Definition d1 : disk := snd (run (begin 1 found_before) empty_disk).
Definition d2 : disk := snd (run (_ ← record 1 (act 1 "request"); record 1 (act 1 "outcome")) d1).
Definition d2a : disk := snd (run (record 1 (act 1 "request")) d1).
Definition r3 : outcome (StopOutcome * option review_state) * disk := run (reserve_for 1) d2.
Definition frozen : review_state :=
  match fst r3 with Ret (_, Some st) => st | _ => _new_state (context 1) None end.
Definition d4 : disk := snd (run (ask frozen (Ok denial)) (snd r3)).
Definition at_disk (d : disk) (waiting : list review_state) : world := {| w_disk := d; w_prompts := [uuid 1]; w_waiting := waiting |}.

Notation reaches := (reachable sha_manifest sha_bytes sha_evidence small small small small (fun _ => true) diff inside).

Lemma opened_reachable : reaches (at_disk d1 []).
Proof.
  eapply r_step; [apply (r_start _ _ _ _ _ _ _ _ _ _ {| manifests := []; blobs := [] |} (Some (zeros 32)))|].
  refine (s_begin _ _ _ _ _ _ _ _ _ _ {| w_disk := empty_disk; w_prompts := []; w_waiting := [] |}
    (context 1) found_before [] (Ret tt) [] d1 _). vm_compute. reflexivity.
Defined.

Lemma recorded_reachable : reaches (at_disk d2 []).
Proof.
  eapply r_step; [eapply r_step; [exact opened_reachable|]|].
  - refine (s_action _ _ _ _ _ _ _ _ _ _ (at_disk d1 []) (context 1) (act 1 "request") found_after found_after [] (Ret tt) [] d2a _).
    vm_compute. reflexivity.
  - refine (s_action _ _ _ _ _ _ _ _ _ _ (at_disk d2a []) (context 1) (act 1 "outcome") found_after found_after [] (Ret tt) [] d2 _).
    vm_compute. reflexivity.
Defined.

Lemma reserved_reachable : reaches (at_disk (snd r3) (reservation_of (fst r3))).
Proof.
  replace (reservation_of (fst r3)) with (reservation_of (fst r3) ++ []) by apply app_nil_r.
  eapply r_step; [exact recorded_reachable|].
  refine (s_reserve _ _ _ _ _ _ _ _ _ _ (at_disk d2 []) (context 1) found_after plan (zeros 32) [] (fst r3) [] (snd r3) _).
  vm_compute. reflexivity.
Defined.

Lemma asked_reachable : reaches (at_disk d4 []).
Proof.
  eapply r_step; [exact reserved_reachable|].
  refine (s_ask _ _ _ _ _ _ _ _ _ _ (at_disk (snd r3) (reservation_of (fst r3))) frozen [] [] (Ok denial) [] (Ret denial) [] d4 _ _);
    vm_compute; reflexivity.
Defined.

Lemma one_review_per_turn_witness :
  map q_turn (d_sent d4) = [uuid 1] /\ NoDup (map q_turn (d_sent d4)) /\
  (forall q, q ∈ d_sent d4 -> q_turn q ∈ [uuid 1] /\
     exists st, read_review_checkpoint small d4 = Ok (Some st) /\
       (q_turn q < turn st \/ q_turn q = turn st /\ spent (spend st) = true)).
Proof.
  split; [vm_compute; reflexivity|].
  exact (one_review_per_turn sha_manifest sha_bytes sha_evidence small small small small (fun _ => true) diff inside
    (at_disk d4 []) asked_reachable).
Defined.

Definition corrected : StopOutcome :=
  {| o_status := "reviewed"; o_reason := None; o_decision := Some (decision denial); correction := true; o_complete := true |}.
Definition d5 : disk := snd (run (stop 1) d2).

Lemma stop_corrects : stop 1 [] d2 = (Ret corrected, [], d5).
Proof. vm_compute. reflexivity. Defined.


End ReviewSample.
