(* ===== verification/StreamConverter.v ===== *)
(** * StreamConverter: OpenAI chunks to the Anthropic event stream

    [src/forge/proxy/converters.py]: the sanitizing of tool arguments, the split of token
    usage, and [convert_openai_to_anthropic_sse], an asynchronous generator that reads chunks
    and yields events. It is a computation on the generator's local variables ([conv]) that
    emits events, each with the variables as they are at its [yield], so that a consumer who
    closes the generator there is a truncation of the run ([convert_openai_to_anthropic_sse]
    below takes the number of events the consumer reads).

    A client that follows the protocol ([receive]) is the specification: it refuses an event
    out of order and assembles the message from the others. *)

From S2P Require Import Prelude PyValue.
From Stdlib Require Import SpecFloat.

(** ** Values *)

(** [v > 0]: on numbers only. *)
Definition py_gt0 (v : value) : res bool :=
  match v with
  | VInt z => Ok (0 <? z)
  | VBool b => Ok b
  | VFloat f => Ok (SFltb (S754_zero false) f)
  | _ => raise TypeError ("'>' not supported between instances of '" +++ type_name v +++ "' and 'int'")
  end.

(** [v.get], on a value that may not be a dict. *)
Definition as_mapping (v : value) : res dict :=
  match v with
  | VDict d => Ok d
  | _ => raise AttributeError ("'" +++ type_name v +++ "' object has no attribute 'get'")
  end.

(** A value used as a dict key. *)
Definition check_hashable (v : value) : res unit :=
  if hashable v then Ok tt else raise TypeError ("unhashable type: '" +++ type_name v +++ "'").

(** ** Usage *)

Definition is_int (v : value) : option Z := match v with VInt z => Some z | _ => None end.

Definition _anthropic_cache_usage (prompt_tokens cached_tokens cache_write_tokens : value) : dict :=
  let input := match is_int prompt_tokens, is_int cached_tokens, is_int cache_write_tokens with
               | Some p, Some c, Some w => VInt (Z.max (p - c - w) 0)
               | _, _, _ => prompt_tokens
               end in
  [("input_tokens", input); ("cache_creation_input_tokens", cache_write_tokens);
   ("cache_read_input_tokens", cached_tokens)].

(** ** Events *)

Inductive content_block :=
| TextBlock
| ToolUseBlock (id name : value).

Inductive block_delta :=
| TextDelta (text : string)
| InputJsonDelta (partial_json : string).

(** A [message_delta] with a stop reason ends the message; the others report usage. *)
Inductive event :=
| MessageStart (id model : string)
| Ping
| ContentBlockStart (index : Z) (b : content_block)
| ContentBlockDelta (index : Z) (d : block_delta)
| ContentBlockStop (index : Z)
| MessageDelta (stop_reason : option string) (usage : option dict)
| ErrorEvent (type message : value)
| MessageStop.

(** The data line of an event. *)
Definition event_data (e : event) : dict :=
  match e with
  | MessageStart id model =>
      [("type", VStr "message_start");
       ("message", VDict [("id", VStr id); ("type", VStr "message"); ("role", VStr "assistant"); ("model", VStr model);
                          ("content", VList []); ("stop_reason", VNone); ("stop_sequence", VNone);
                          ("usage", VDict [("input_tokens", VInt 0); ("output_tokens", VInt 0)])])]
  | Ping => [("type", VStr "ping")]
  | ContentBlockStart i TextBlock =>
      [("type", VStr "content_block_start"); ("index", VInt i);
       ("content_block", VDict [("type", VStr "text"); ("text", VStr "")])]
  | ContentBlockStart i (ToolUseBlock id name) =>
      [("type", VStr "content_block_start"); ("index", VInt i);
       ("content_block", VDict [("type", VStr "tool_use"); ("id", id); ("name", name); ("input", VDict [])])]
  | ContentBlockDelta i (TextDelta text) =>
      [("type", VStr "content_block_delta"); ("index", VInt i);
       ("delta", VDict [("type", VStr "text_delta"); ("text", VStr text)])]
  | ContentBlockDelta i (InputJsonDelta json) =>
      [("type", VStr "content_block_delta"); ("index", VInt i);
       ("delta", VDict [("type", VStr "input_json_delta"); ("partial_json", VStr json)])]
  | ContentBlockStop i => [("type", VStr "content_block_stop"); ("index", VInt i)]
  | MessageDelta stop usage =>
      [("type", VStr "message_delta");
       ("delta", VDict match stop with
                       | Some reason => [("stop_reason", VStr reason); ("stop_sequence", VNone)]
                       | None => []
                       end)] ++
      match usage with Some u => [("usage", VDict u)] | None => [] end
  | ErrorEvent type message => [("type", VStr "error"); ("error", VDict [("type", type); ("message", message)])]
  | MessageStop => [("type", VStr "message_stop")]
  end.

(** ** The generator's variables *)

Inductive block_kind := KText | KToolUse.

(** An entry of [tool_calls_buffer]; a pending one has neither a name nor a block. *)
Record tool_info := {
  ti_id : value;
  ti_name : value;
  ti_args : string;
  ti_block_idx : option Z;
  ti_buffer_args : bool }.

Record conv := {
  content_block_index : Z;
  current_block_type : option block_kind;
  text_started : bool;
  tool_calls_buffer : list (value * tool_info);
  final_usage : dict;
  stream_failed : bool;
  stream_error_type : option value;
  final_stop_reason : option string;
  first_chunk_seen : bool;
  final_usage_seen : bool;
  provider_trace_meta : option dict }.

Definition conv_init : conv := {|
  content_block_index := -1; current_block_type := None; text_started := false; tool_calls_buffer := [];
  final_usage := [("input_tokens", VInt 0); ("output_tokens", VInt 0); ("cached_tokens", VInt 0); ("cache_write_tokens", VInt 0)];
  stream_failed := false; stream_error_type := None; final_stop_reason := None; first_chunk_seen := false;
  final_usage_seen := false; provider_trace_meta := None |}.

(** The variables of the block structure. *)
Definition set_blocks (idx : Z) (current : option block_kind) (started : bool) (buffer : list (value * tool_info)) (c : conv) : conv := {|
  content_block_index := idx; current_block_type := current; text_started := started; tool_calls_buffer := buffer;
  final_usage := final_usage c; stream_failed := stream_failed c; stream_error_type := stream_error_type c;
  final_stop_reason := final_stop_reason c; first_chunk_seen := first_chunk_seen c;
  final_usage_seen := final_usage_seen c; provider_trace_meta := provider_trace_meta c |}.

Definition set_buffer (buffer : list (value * tool_info)) (c : conv) : conv :=
  set_blocks (content_block_index c) (current_block_type c) (text_started c) buffer c.

(** The variables of the accounting. *)
Definition set_account (usage : dict) (failed : bool) (error : option value) (stop : option string)
    (first seen : bool) (meta : option dict) (c : conv) : conv := {|
  content_block_index := content_block_index c; current_block_type := current_block_type c;
  text_started := text_started c; tool_calls_buffer := tool_calls_buffer c;
  final_usage := usage; stream_failed := failed; stream_error_type := error; final_stop_reason := stop;
  first_chunk_seen := first; final_usage_seen := seen; provider_trace_meta := meta |}.

Definition set_usage (key : string) (v : value) (c : conv) : conv :=
  set_account (dset key v (final_usage c)) (stream_failed c) (stream_error_type c) (final_stop_reason c)
    (first_chunk_seen c) (final_usage_seen c) (provider_trace_meta c) c.
Definition set_failed (error : option value) (c : conv) : conv :=
  set_account (final_usage c) true error (final_stop_reason c) (first_chunk_seen c) (final_usage_seen c) (provider_trace_meta c) c.
Definition set_stop_reason (reason : string) (c : conv) : conv :=
  set_account (final_usage c) (stream_failed c) (stream_error_type c) (Some reason) (first_chunk_seen c) (final_usage_seen c)
    (provider_trace_meta c) c.
Definition set_first_chunk_seen (c : conv) : conv :=
  set_account (final_usage c) (stream_failed c) (stream_error_type c) (final_stop_reason c) true (final_usage_seen c)
    (provider_trace_meta c) c.
Definition set_final_usage_seen (c : conv) : conv :=
  set_account (final_usage c) (stream_failed c) (stream_error_type c) (final_stop_reason c) (first_chunk_seen c) true
    (provider_trace_meta c) c.
Definition set_provider_meta (meta : dict) (c : conv) : conv :=
  set_account (final_usage c) (stream_failed c) (stream_error_type c) (final_stop_reason c) (first_chunk_seen c)
    (final_usage_seen c) (Some meta) c.

(** The buffer is a dict keyed by the provider's tool index, whatever value that is. *)
Fixpoint tool_get (key : value) (buffer : list (value * tool_info)) : option tool_info :=
  match buffer with
  | [] => None
  | (k, info) :: buffer => if py_eq k key then Some info else tool_get key buffer
  end.

Fixpoint tool_set (key : value) (info : tool_info) (buffer : list (value * tool_info)) : list (value * tool_info) :=
  match buffer with
  | [] => [(key, info)]
  | (k, old) :: buffer => if py_eq k key then (k, info) :: buffer else (k, old) :: tool_set key info buffer
  end.

(** ** Generators *)

(** How a computation ends without a value: an exception, a cancellation, or [return]. *)
Inductive ending :=
| Raised (e : pyexn)
| Cancelled
| Returned.

(** The events it yields, each with the variables at its [yield]. *)
Definition G (A : Type) : Type := conv -> conv * list (event * conv) * (A + ending).

#[global] Instance G_ret : MRet G := fun A a c => (c, [], inl a).
#[global] Instance G_bind : MBind G := fun A B f m c =>
  match m c with
  | (c, out, inl a) => let '(c, out', r) := f a c in (c, out ++ out', r)
  | (c, out, inr e) => (c, out, inr e)
  end.

Definition vars : G conv := fun c => (c, [], inl c).
Definition assign (f : conv -> conv) : G unit := fun c => (f c, [], inl tt).
Definition yield (e : event) : G unit := fun c => (c, [(e, c)], inl tt).
Definition stop {A} (e : ending) : G A := fun c => (c, [], inr e).
Definition liftG {A} (r : res A) : G A := match r with Ok a => mret a | Err e => stop (Raised e) end.

Definition when (b : bool) (m : G unit) : G unit := if b then m else mret tt.

Fixpoint yield_all (l : list event) : G unit :=
  match l with [] => mret tt | e :: l => _ ← yield e; yield_all l end.

(** ** A client of the protocol *)

(** A block of the message under assembly. *)
Inductive block :=
| BText (text : string)
| BToolUse (id name : value) (args : string).

Inductive phase := Fresh | Begun | Streaming | Finished | Failed | Stopped.

(** [open_text] and [open_tools] are the indices of the blocks that have started and not
    stopped. *)
Record client := {
  cl_phase : phase;
  cl_blocks : list block;
  open_text : option nat;
  open_tools : list nat }.

Definition client_init : client := {| cl_phase := Fresh; cl_blocks := []; open_text := None; open_tools := [] |}.

Definition add_fragment (d : block_delta) (b : block) : block :=
  match d, b with
  | TextDelta s, BText t => BText (t +++ s)
  | InputJsonDelta s, BToolUse id name args => BToolUse id name (args +++ s)
  | _, b => b
  end.

(** The client takes an event, or refuses it: blocks start at the next index, a text block
    alone, tool blocks side by side; deltas and stops are for open blocks; the message ends
    with no block open. *)
Definition receive (cl : client) (e : event) : option client :=
  let move ph := {| cl_phase := ph; cl_blocks := cl_blocks cl; open_text := open_text cl; open_tools := open_tools cl |} in
  let fragment i d := {| cl_phase := Streaming; cl_blocks := alter (add_fragment d) i (cl_blocks cl);
                         open_text := open_text cl; open_tools := open_tools cl |} in
  match cl_phase cl, e with
  | Fresh, MessageStart _ _ => Some (move Begun)
  | Begun, Ping => Some (move Streaming)
  | Streaming, ContentBlockStart i b =>
      let next := length (cl_blocks cl) in
      if negb (i =? Z.of_nat next) || bool_decide (open_text cl <> None) then None
      else match b with
           | TextBlock =>
               if bool_decide (open_tools cl = []) then
                 Some {| cl_phase := Streaming; cl_blocks := cl_blocks cl ++ [BText ""]; open_text := Some next; open_tools := [] |}
               else None
           | ToolUseBlock id name =>
               Some {| cl_phase := Streaming; cl_blocks := cl_blocks cl ++ [BToolUse id name ""]; open_text := None;
                       open_tools := open_tools cl ++ [next] |}
           end
  | Streaming, ContentBlockDelta i d =>
      let open := match d with
                  | TextDelta _ => bool_decide (open_text cl = Some (Z.to_nat i))
                  | InputJsonDelta _ => bool_decide (Z.to_nat i ∈ open_tools cl)
                  end in
      if (0 <=? i) && open then Some (fragment (Z.to_nat i) d) else None
  | Streaming, ContentBlockStop i =>
      if negb (0 <=? i) then None
      else if bool_decide (open_text cl = Some (Z.to_nat i)) then
        Some {| cl_phase := Streaming; cl_blocks := cl_blocks cl; open_text := None; open_tools := open_tools cl |}
      else if bool_decide (Z.to_nat i ∈ open_tools cl) then
        Some {| cl_phase := Streaming; cl_blocks := cl_blocks cl; open_text := open_text cl;
                open_tools := filter (fun j => j <> Z.to_nat i) (open_tools cl) |}
      else None
  | Streaming, MessageDelta None _ => Some cl
  | Streaming, MessageDelta (Some _) _ =>
      if bool_decide (open_text cl = None) && bool_decide (open_tools cl = []) then Some (move Finished) else None
  | Streaming, ErrorEvent _ _ => Some (move Failed)
  | Finished, MessageStop | Failed, MessageStop => Some (move Stopped)
  | _, _ => None
  end.

Definition receive_all (cl : client) (l : list event) : option client :=
  foldl (fun o e => o ≫= fun cl => receive cl e) (Some cl) l.

(** ** Runs seen by a client

    [gwp m Q c cl]: the client [cl] accepts all events of [m] run from [c], and then [Q] holds
    of the outcome, the variables and the client. *)

Definition gwp {A} (m : G A) (Q : A + ending -> conv -> client -> Prop) (c : conv) (cl : client) : Prop :=
  match m c with
  | (c', out, r) => exists cl', receive_all cl out.*1 = Some cl' /\ Q r c' cl'
  end.

Lemma receive_all_None l : foldl (fun o e => o ≫= fun cl => receive cl e) None l = None.
Proof. by induction l. Qed.

Lemma receive_all_cons cl e l : receive_all cl (e :: l) = receive cl e ≫= fun cl => receive_all cl l.
Proof. unfold receive_all. simpl. destruct (receive cl e); [done|]. apply receive_all_None. Qed.

Lemma receive_all_app cl l1 l2 : receive_all cl (l1 ++ l2) = receive_all cl l1 ≫= fun cl => receive_all cl l2.
Proof.
  revert cl. induction l1 as [|e l1 IH]; intros cl; [done|]. rewrite <- app_comm_cons, !receive_all_cons.
  destruct (receive cl e); simpl; [apply IH|done].
Qed.

Lemma gwp_ret {A} (a : A) Q c cl : Q (inl a) c cl -> gwp (mret a) Q c cl.
Proof. intros H. by exists cl. Qed.

Lemma gwp_stop {A} e (Q : A + ending -> conv -> client -> Prop) c cl : Q (inr e) c cl -> gwp (stop e) Q c cl.
Proof. intros H. by exists cl. Qed.

Lemma gwp_vars Q c cl : Q (inl c) c cl -> gwp vars Q c cl.
Proof. intros H. by exists cl. Qed.

Lemma gwp_assign f Q c cl : Q (inl tt) (f c) cl -> gwp (assign f) Q c cl.
Proof. intros H. by exists cl. Qed.

Lemma gwp_yield e cl' Q c cl : receive cl e = Some cl' -> Q (inl tt) c cl' -> gwp (yield e) Q c cl.
Proof. intros He H. exists cl'. split; [|done]. unfold receive_all. simpl. done. Qed.

Lemma gwp_liftG {A} (r : res A) Q c cl :
  (forall a, r = Ok a -> Q (inl a) c cl) -> (forall e, r = Err e -> Q (inr (Raised e)) c cl) -> gwp (liftG r) Q c cl.
Proof. destruct r; intros H1 H2; [by apply gwp_ret, H1|by apply gwp_stop, H2]. Qed.

Lemma gwp_bind {A B} (m : G A) (f : A -> G B) Q c cl :
  gwp m (fun r c cl => match r with inl a => gwp (f a) Q c cl | inr e => Q (inr e) c cl end) c cl -> gwp (m ≫= f) Q c cl.
Proof.
  unfold gwp, mbind, G_bind. destruct (m c) as [[c1 out1] [a|e]]; intros (cl1 & H1 & H); [|by exists cl1].
  destruct (f a c1) as [[c2 out2] r]. destruct H as (cl2 & H2 & H). exists cl2. split; [|done].
  by rewrite fmap_app, receive_all_app, H1.
Qed.

Lemma gwp_mono {A} (m : G A) (P Q : A + ending -> conv -> client -> Prop) c cl :
  gwp m P c cl -> (forall r c cl, P r c cl -> Q r c cl) -> gwp m Q c cl.
Proof. unfold gwp. destruct (m c) as [[c' out] r]. intros (cl' & H & HP) HPQ. exists cl'. auto. Qed.

Lemma gwp_yield_all l cl' Q c cl : receive_all cl l = Some cl' -> Q (inl tt) c cl' -> gwp (yield_all l) Q c cl.
Proof.
  revert cl. induction l as [|e l IH]; intros cl; [intros [= ->]; apply gwp_ret|].
  rewrite receive_all_cons. destruct (receive cl e) as [cl1|] eqn:He; [|done]. intros Hl HQ.
  apply gwp_bind. by eapply gwp_yield, IH.
Qed.

Lemma gwp_when (b : bool) m Q c cl :
  (b = true -> gwp m Q c cl) -> (b = false -> Q (inl tt) c cl) -> gwp (when b m) Q c cl.
Proof. destruct b; intros H1 H2; [by apply H1|by apply gwp_ret, H2]. Qed.

Ltac gstep :=
  lazymatch goal with
  | |- gwp (mret _) _ _ _ => apply gwp_ret
  | |- gwp (stop _) _ _ _ => apply gwp_stop
  | |- gwp vars _ _ _ => apply gwp_vars
  | |- gwp (assign _) _ _ _ => apply gwp_assign
  | |- gwp (mbind _ _) _ _ _ => apply gwp_bind
  end; cbv beta iota.

(** ** Tool arguments *)

Section Tools.

(** [json.loads] on a string ([None] when it raises [JSONDecodeError]) and [json.dumps] with
    compact separators. *)
Context (json_loads : string -> option value) (json_dumps : dict -> string).

Definition _STRIP_EMPTY_PARAMS : list (string * list (string * list value)) :=
  [("Read", [("pages", [VNone; VStr ""; VInt 0]); ("offset", [VNone; VStr ""; VInt 0]);
             ("limit", [VNone; VStr ""; VInt 0])])].

Definition _is_pdf_path (v : value) : bool :=
  match v with VStr s => endswith ".pdf" (lower_str s) | _ => false end.

(** [tool_name in _STRIP_EMPTY_PARAMS]. *)
Definition _should_buffer_streaming_tool_args (tool_name : value) : res bool :=
  _ ← check_hashable tool_name;
  Ok (match tool_name with VStr name => dhas name _STRIP_EMPTY_PARAMS | _ => false end).

(** One parameter of the loop, on the cleaned input and the names stripped so far. *)
Definition strip_empty (acc : dict * list string) (p : string * list value) : dict * list string :=
  match dget (fst p) (fst acc) with
  | Some v => if existsb (py_eq v) (snd p) then (ddel (fst p) (fst acc), snd acc ++ [fst p]) else acc
  | None => acc
  end.

Definition sanitize_tool_input_with_report (tool_name : string) (tool_input : dict) : dict * list string :=
  match dget tool_name _STRIP_EMPTY_PARAMS with
  | None => (tool_input, [])
  | Some params =>
      let start :=
        if String.eqb tool_name "Read" && dhas "pages" tool_input && negb (_is_pdf_path (dgetv "file_path" tool_input))
        then (ddel "pages" tool_input, ["pages"]) else (tool_input, []) in
      fold_left strip_empty params start
  end.

Definition sanitize_tool_input (tool_name : string) (tool_input : dict) : dict :=
  fst (sanitize_tool_input_with_report tool_name tool_input).

(** [_sanitize_tool_arguments_json]: malformed JSON and other values are kept. *)
Definition _sanitize_tool_arguments_json (tool_name args_json : string) : string :=
  if String.eqb tool_name "" || negb (dhas tool_name _STRIP_EMPTY_PARAMS) || String.eqb args_json "" then args_json
  else match json_loads args_json with
       | Some (VDict parsed) => json_dumps (sanitize_tool_input tool_name parsed)
       | _ => args_json
       end.

(** ** One chunk *)

(** [_build_sanitized_args_delta]. *)
Definition _build_sanitized_args_delta (info : tool_info) : list event :=
  match ti_block_idx info, ti_name info with
  | Some i, VStr name =>
      if String.eqb (ti_args info) "" then []
      else let json := _sanitize_tool_arguments_json name (ti_args info) in
           if String.eqb json "" then [] else [ContentBlockDelta i (InputJsonDelta json)]
  | _, _ => []
  end.

(** The started tools with their blocks, sorted by block. *)
Fixpoint insert_tool (x : Z * tool_info) (l : list (Z * tool_info)) : list (Z * tool_info) :=
  match l with
  | [] => [x]
  | y :: l => if fst x <=? fst y then x :: y :: l else y :: insert_tool x l
  end.

Definition started_tools (buffer : list (value * tool_info)) : list (Z * tool_info) :=
  omap (fun p => (., snd p) <$> ti_block_idx (snd p)) buffer.

Definition sort_tools (l : list (Z * tool_info)) : list (Z * tool_info) := foldr insert_tool [] l.

(** [_build_tool_block_close_events]. *)
Definition _build_tool_block_close_events (c : conv) : list event :=
  mjoin ((fun p => (if ti_buffer_args (snd p) then _build_sanitized_args_delta (snd p) else [])
                   ++ [ContentBlockStop (fst p)]) <$> sort_tools (started_tools (tool_calls_buffer c))).

Definition stop_reason_map : list (string * string) :=
  [("stop", "end_turn"); ("length", "max_tokens"); ("tool_calls", "tool_use"); ("content_filter", "content_filtered")].

(** [stop_reason_map.get(finish_reason, "end_turn")]. *)
Definition map_stop_reason (finish_reason : value) : res string :=
  _ ← check_hashable finish_reason;
  Ok (match finish_reason with VStr s => dget_default s "end_turn" stop_reason_map | _ => "end_turn" end).

(** [if "error" in chunk]. *)
Definition error_chunk (error : value) : G bool :=
  _ ← assign (fun c => set_failed (stream_error_type c) c);
  error ← liftG (as_mapping error);
  _ ← assign (set_failed (Some (dget_default "type" (VStr "stream_error") error)));
  _ ← yield (ErrorEvent (dget_default "type" (VStr "api_error") error)
                        (dget_default "message" (VStr "Unknown streaming error") error));
  stop Returned.

(** The usage of a chunk. *)
Definition record_usage (usage : dict) : G unit :=
  _ ← assign set_final_usage_seen;
  let prompt := dget_default "prompt_tokens" (VInt 0) usage in
  let completion := dget_default "completion_tokens" (VInt 0) usage in
  let cached := py_or (dget_default "cached_tokens" (VInt 0) usage) (VInt 0) in
  let written := py_or (dget_default "cache_write_tokens" (VInt 0) usage) (VInt 0) in
  b ← liftG (py_gt0 cached);
  _ ← when b (assign (set_usage "cached_tokens" cached));
  b ← liftG (py_gt0 written);
  _ ← when b (assign (set_usage "cache_write_tokens" written));
  b ← liftG (py_gt0 prompt);
  c ← vars;
  _ ← when (b && py_eq (dgetv "input_tokens" (final_usage c)) (VInt 0))
        (_ ← assign (set_usage "input_tokens" prompt);
         yield (MessageDelta None (Some (_anthropic_cache_usage prompt cached written))));
  b ← liftG (py_gt0 completion);
  _ ← when b (assign (set_usage "output_tokens" completion));
  match dgetv "reported_cost_micros" usage with
  | VNone => mret tt
  | cost => assign (set_usage "reported_cost_micros" cost)
  end.

(** Text: open tool blocks are closed first; one block holds consecutive text. *)
Definition text_chunk (text : string) : G unit :=
  c ← vars;
  _ ← match current_block_type c with
      | Some KToolUse =>
          _ ← yield_all (_build_tool_block_close_events c);
          assign (fun c => set_blocks (content_block_index c) None (text_started c) [] c)
      | _ => mret tt
      end;
  c ← vars;
  _ ← when (negb (text_started c))
        (_ ← assign (fun c => set_first_chunk_seen
                 (set_blocks (content_block_index c + 1) (Some KText) true (tool_calls_buffer c) c));
         c ← vars;
         yield (ContentBlockStart (content_block_index c) TextBlock));
  c ← vars;
  yield (ContentBlockDelta (content_block_index c) (TextDelta text)).

(** Start the block of a tool call whose id and name are known. *)
Definition start_tool (key id name : value) (args : string) : G unit :=
  _ ← assign (fun c => set_first_chunk_seen
        (set_blocks (content_block_index c + 1) (Some KToolUse) (text_started c) (tool_calls_buffer c) c));
  buffered ← liftG (_should_buffer_streaming_tool_args name);
  _ ← assign (fun c => set_buffer (tool_set key {| ti_id := id; ti_name := name; ti_args := args;
                 ti_block_idx := Some (content_block_index c); ti_buffer_args := buffered |} (tool_calls_buffer c)) c);
  c ← vars;
  yield (ContentBlockStart (content_block_index c) (ToolUseBlock id name)).

(** The fragment of the arguments, for a call whose block has started. *)
Definition append_args (key args : value) : G unit :=
  c ← vars;
  match tool_get key (tool_calls_buffer c) with
  | Some info =>
      match ti_block_idx info with
      | Some i =>
          if truthy args then
            fragment ← liftG (match args with
                              | VStr s => Ok s
                              | _ => raise TypeError ("can only concatenate str (not '" +++ type_name args +++ "') to str")
                              end);
            _ ← assign (fun c => set_buffer (tool_set key {| ti_id := ti_id info; ti_name := ti_name info;
                   ti_args := ti_args info +++ fragment; ti_block_idx := Some i;
                   ti_buffer_args := ti_buffer_args info |} (tool_calls_buffer c)) c);
            when (negb (ti_buffer_args info)) (yield (ContentBlockDelta i (InputJsonDelta fragment)))
          else mret tt
      | None => mret tt
      end
  | None => mret tt
  end.

(** One element of [delta.tool_calls]. *)
Definition tool_delta (tc : dict) : G unit :=
  let key := dget_default "index" (VInt 0) tc in
  let id := dgetv "id" tc in
  func ← liftG (as_mapping (py_or (dget_default "function" (VDict []) tc) (VDict [])));
  let name := dgetv "name" func in
  let args := dgetv "arguments" func in
  _ ← liftG (check_hashable key);
  c ← vars;
  known ← match tool_get key (tool_calls_buffer c) with
          | None =>
              if truthy id && truthy name then _ ← start_tool key id name ""; mret true
              else if truthy id then
                _ ← assign (fun c => set_buffer (tool_set key {| ti_id := id; ti_name := VNone; ti_args := "";
                       ti_block_idx := None; ti_buffer_args := false |} (tool_calls_buffer c)) c);
                mret true
              else mret false
          | Some info =>
              _ ← when (truthy name && bool_decide (ti_name info = VNone) && py_eq (ti_id info) id)
                    (start_tool key (ti_id info) name (ti_args info));
              mret true
          end;
  when known (append_args key args).

Fixpoint tool_deltas (l : list value) : G unit :=
  match l with
  | [] => mret tt
  | VDict tc :: l => _ ← tool_delta tc; tool_deltas l
  | _ :: l => tool_deltas l
  end.

(** Tool calls: an open text block is closed first. *)
Definition tool_chunk (l : list value) : G unit :=
  c ← vars;
  _ ← match current_block_type c with
      | Some KText =>
          when (text_started c)
            (_ ← yield (ContentBlockStop (content_block_index c));
             assign (fun c => set_blocks (content_block_index c) None false (tool_calls_buffer c) c))
      | _ => mret tt
      end;
  tool_deltas l.

(** The first choice of a chunk; [true] when a finish reason ends the loop. *)
Definition process_choice (choice : dict) : G bool :=
  delta ← liftG (as_mapping (py_or (dget_default "delta" (VDict []) choice) (VDict [])));
  let finish_reason := dgetv "finish_reason" choice in
  _ ← match dgetv "content" delta with
      | VStr text => when (negb (String.eqb text "")) (text_chunk text)
      | _ => mret tt
      end;
  _ ← match dgetv "tool_calls" delta with
      | VList ((_ :: _) as calls) => tool_chunk calls
      | _ => mret tt
      end;
  if truthy finish_reason then
    reason ← liftG (map_stop_reason finish_reason);
    _ ← assign (set_stop_reason reason);
    mret true
  else mret false.

(** The body of the loop over the chunks. *)
Definition process_chunk (chunk : value) : G bool :=
  match chunk with
  | VDict chunk =>
      match dgetv "_provider_meta" chunk with
      | VNone =>
          match dget "error" chunk with
          | Some error => error_chunk error
          | None =>
              _ ← match dgetv "usage" chunk with
                  | VDict ((_ :: _) as usage) => record_usage usage
                  | _ => mret tt
                  end;
              match dget_default "choices" (VList []) chunk with
              | VList (VDict choice :: _) => process_choice choice
              | _ => mret false
              end
          end
      | VDict meta => _ ← assign (set_provider_meta meta); mret false
      | _ => mret false
      end
  | _ => mret false
  end.

(** What the generator waits for: a chunk, an exception of the upstream, or its own
    cancellation. *)
Inductive arrival :=
| Chunk (v : value)
| Fails (e : pyexn)
| Cancel.

Fixpoint stream_loop (l : list arrival) : G unit :=
  match l with
  | [] => mret tt
  | Chunk v :: l =>
      finished ← process_chunk v;
      if finished : bool then mret tt else stream_loop l
  | Fails e :: _ => stop (Raised e)
  | Cancel :: _ => stop Cancelled
  end.

(** After the loop: open blocks are closed, then the stop reason and the usage. *)
Definition finish_stream : G unit :=
  c ← vars;
  _ ← match current_block_type c with
      | Some KText => when (text_started c) (yield (ContentBlockStop (content_block_index c)))
      | Some KToolUse => yield_all (_build_tool_block_close_events c)
      | None => mret tt
      end;
  let reason := default "end_turn" (final_stop_reason c) in
  let input := dget_default "input_tokens" (VInt 0) (final_usage c) in
  let output := dget_default "output_tokens" (VInt 0) (final_usage c) in
  some_input ← liftG (py_gt0 input);
  some_output ← (if some_input : bool then mret false else liftG (py_gt0 output));
  let usage := if some_input || some_output then
      Some (dset "output_tokens" output (_anthropic_cache_usage input
              (dget_default "cached_tokens" (VInt 0) (final_usage c))
              (dget_default "cache_write_tokens" (VInt 0) (final_usage c))))
    else None in
  _ ← yield (MessageDelta (Some reason) usage);
  yield MessageStop.

(** ** The generator *)

(** What [on_complete] is called with. *)
Record completion := {
  c_usage : dict;
  c_failed : bool;
  c_error_type : option value }.

(** The [finally] block: the provider trace is packed into the usage. *)
Definition complete (client_disconnected : bool) (c : conv) : completion := {|
  c_usage := dset "_provider_trace" (VDict
    [("provider_meta", match provider_trace_meta c with Some m => VDict m | None => VNone end);
     ("lifecycle", VDict [("stream_started", VBool true); ("first_chunk_seen", VBool (first_chunk_seen c));
        ("final_usage_seen", VBool (final_usage_seen c)); ("client_disconnected", VBool client_disconnected)])]) (final_usage c);
  c_failed := stream_failed c;
  c_error_type := stream_error_type c |}.

(** A whole run, read to its end: the events of the [try] block with the completion if the
    consumer closes the generator there, the events of the exception handler, and the
    completion at the end. *)
Definition run_stream (arrivals : list arrival) : list (event * completion) * completion :=
  match (_ ← stream_loop arrivals; finish_stream : G unit) conv_init with
  | (c, out, r) =>
      let tried := prod_map id (complete true) <$> out in
      match r with
      | inl _ | inr Returned => (tried, complete false c)
      | inr Cancelled => (tried, complete true c)
      | inr (Raised e) =>
          if is_exception (exn_cls e) then
            let done := complete false (set_failed (Some (VStr "internal_error")) c) in
            (tried ++ [(ErrorEvent (VStr "internal_server_error") (VStr "Stream processing error"), done); (MessageStop, done)], done)
          else (tried, complete false c)
      end
  end.

(** [convert_openai_to_anthropic_sse], for a consumer that reads all events ([None]) or closes
    the generator when it has read [n]: the events read, and the call of [on_complete] if there
    is one. The first two events are yielded before the [try]. *)
Definition convert_openai_to_anthropic_sse (message_id model : string) (arrivals : list arrival) (reads : option nat)
  : list event * option completion :=
  let '(events, done) := run_stream arrivals in
  let all := [MessageStart message_id model; Ping] ++ events.*1 in
  match reads with
  | None => (all, Some done)
  | Some n =>
      if (length all <? n)%nat then (all, Some done)
      else (take n all, if (n <=? 2)%nat then None else snd <$> events !! (n - 3)%nat)
  end.

(** ** Lemmas: the tool buffer *)

Lemma started_tools_app b1 b2 : started_tools (b1 ++ b2) = started_tools b1 ++ started_tools b2.
Proof. apply omap_app. Qed.

Lemma tool_set_new key info b : tool_get key b = None -> tool_set key info b = b ++ [(key, info)].
Proof. induction b as [|[k i] b IH]; simpl; [done|]. destruct (py_eq k key); [done|]. intros H. by rewrite IH. Qed.

Lemma tool_set_old key info old b : tool_get key b = Some old ->
  exists b1 k b2, b = b1 ++ (k, old) :: b2 /\ tool_set key info b = b1 ++ (k, info) :: b2.
Proof.
  induction b as [|[k i] b IH]; simpl; [done|]. destruct (py_eq k key).
  - intros [= ->]. by exists [], k, b.
  - intros (b1 & k' & b2 & -> & ->)%IH. by exists ((k, i) :: b1), k', b2.
Qed.

Lemma insert_tool_perm x l : insert_tool x l ≡ₚ x :: l.
Proof. induction l as [|y l IH]; simpl; [done|]. destruct (fst x <=? fst y); [done|]. rewrite IH. constructor. Qed.

Lemma sort_tools_perm l : sort_tools l ≡ₚ l.
Proof. induction l as [|x l IH]; simpl; [done|]. by rewrite insert_tool_perm, IH. Qed.

(** ** Lemmas: what the client has, and what it will have

    [bs] are the blocks with all the text and all the argument fragments that arrived. The
    client has them, except that a call whose arguments are held back until its block closes
    shows none, and that closed blocks show the sanitized arguments. *)

Definition buffers (name : value) : bool :=
  match name with VStr n => dhas n _STRIP_EMPTY_PARAMS | _ => false end.

Definition finish_block (b : block) : block :=
  match b with
  | BToolUse id (VStr name) args => BToolUse id (VStr name) (_sanitize_tool_arguments_json name args)
  | b => b
  end.

Definition blank (b : block) : block :=
  match b with BToolUse id name _ => BToolUse id name "" | b => b end.

Definition held (l : list (Z * tool_info)) (n : nat) : bool :=
  existsb (fun p => (fst p =? Z.of_nat n) && ti_buffer_args (snd p)) l.

Definition view (l : list (Z * tool_info)) (n : nat) (b : block) : block :=
  if held l n then blank b else finish_block b.

(** An open tool block, for its entry of the buffer. *)
Definition tool_ok (bs : list block) (p : Z * tool_info) : Prop :=
  exists n, fst p = Z.of_nat n /\ ti_block_idx (snd p) = Some (fst p) /\
    bs !! n = Some (BToolUse (ti_id (snd p)) (ti_name (snd p)) (ti_args (snd p))) /\
    ti_buffer_args (snd p) = buffers (ti_name (snd p)).

Lemma sanitize_other name args : dhas name _STRIP_EMPTY_PARAMS = false -> _sanitize_tool_arguments_json name args = args.
Proof. unfold _sanitize_tool_arguments_json. intros ->. by rewrite orb_true_r. Qed.

Lemma sanitize_empty name : _sanitize_tool_arguments_json name "" = "".
Proof. unfold _sanitize_tool_arguments_json. by rewrite !orb_true_r. Qed.

Lemma finish_not_buffered id name args : buffers name = false -> finish_block (BToolUse id name args) = BToolUse id name args.
Proof. destruct name; try done. simpl. intros H. by rewrite sanitize_other. Qed.

Lemma finish_empty id name : finish_block (BToolUse id name "") = BToolUse id name "".
Proof. destruct name; try done. simpl. by rewrite sanitize_empty. Qed.

Lemma held_cons p l n : held (p :: l) n = (fst p =? Z.of_nat n) && ti_buffer_args (snd p) || held l n.
Proof. done. Qed.

Lemma held_not_in l n : Z.of_nat n ∉ l.*1 -> held l n = false.
Proof.
  induction l as [|[i info] l IH]; [done|]. rewrite held_cons, fmap_cons, not_elem_of_cons. intros [Hne Hl]. cbn [fst snd] in *.
  rewrite IH by done. destruct (Z.eqb_spec i (Z.of_nat n)); [congruence|done].
Qed.

Lemma held_perm l l' n : l ≡ₚ l' -> held l n = held l' n.
Proof.
  intros Hl. apply eq_bool_prop_intro. rewrite !Is_true_true. unfold held. rewrite !existsb_exists.
  setoid_rewrite <- list_elem_of_In. by setoid_rewrite Hl.
Qed.

Lemma receive_delta cl n d :
  cl_phase cl = Streaming ->
  match d with TextDelta _ => open_text cl = Some n | InputJsonDelta _ => n ∈ open_tools cl end ->
  receive cl (ContentBlockDelta (Z.of_nat n) d) =
    Some {| cl_phase := Streaming; cl_blocks := alter (add_fragment d) n (cl_blocks cl);
            open_text := open_text cl; open_tools := open_tools cl |}.
Proof.
  intros Hp Hd. unfold receive. rewrite Hp, Nat2Z.id, (proj2 (Z.leb_le _ _)) by lia.
  destruct d; by rewrite bool_decide_eq_true_2.
Qed.

Lemma receive_stop_tool cl n :
  cl_phase cl = Streaming -> open_text cl = None -> n ∈ open_tools cl ->
  receive cl (ContentBlockStop (Z.of_nat n)) =
    Some {| cl_phase := Streaming; cl_blocks := cl_blocks cl; open_text := None;
            open_tools := filter (fun j => j <> n) (open_tools cl) |}.
Proof.
  intros Hp Ht Hn. unfold receive. rewrite Hp, Ht, Nat2Z.id, (proj2 (Z.leb_le _ _)) by lia. cbn [negb].
  rewrite bool_decide_eq_false_2 by done. by rewrite bool_decide_eq_true_2.
Qed.

(** The events that close one tool block. *)
Definition close_of (p : Z * tool_info) : list event :=
  (if ti_buffer_args (snd p) then _build_sanitized_args_delta (snd p) else []) ++ [ContentBlockStop (fst p)].

Lemma view_tail bs p l n :
  fst p = Z.of_nat n -> held l n = false -> bs !! n = Some (BToolUse (ti_id (snd p)) (ti_name (snd p)) (ti_args (snd p))) ->
  ti_buffer_args (snd p) = false \/ finish_block (BToolUse (ti_id (snd p)) (ti_name (snd p)) (ti_args (snd p))) = BToolUse (ti_id (snd p)) (ti_name (snd p)) "" ->
  imap (view (p :: l)) bs = imap (view l) bs.
Proof.
  intros Hi Hl Hn Hp. apply list_eq. intros m. rewrite !list_lookup_imap. destruct (decide (m = n)) as [->|Hm].
  - rewrite Hn. cbn [fmap option_fmap option_map]. unfold view. rewrite held_cons, Hl, orb_false_r, Hi, Z.eqb_refl. cbn [andb].
    destruct Hp as [->|Hp]; [done|]. destruct (ti_buffer_args (snd p)); [|done]. by rewrite Hp.
  - destruct (bs !! m); [|done]. cbn [fmap option_fmap option_map]. unfold view. rewrite held_cons, Hi.
    by rewrite (proj2 (Z.eqb_neq _ _)) by lia.
Qed.

(** The delta with the sanitized arguments fills the blank block. *)
Lemma view_filled bs p l n name json :
  fst p = Z.of_nat n -> held l n = false -> bs !! n = Some (BToolUse (ti_id (snd p)) (ti_name (snd p)) (ti_args (snd p))) ->
  ti_buffer_args (snd p) = true -> ti_name (snd p) = VStr name -> json = _sanitize_tool_arguments_json name (ti_args (snd p)) ->
  alter (add_fragment (InputJsonDelta json)) n (imap (view (p :: l)) bs) = imap (view l) bs.
Proof.
  intros Hi Hl Hn Hb Hname ->. apply list_eq. intros m. destruct (decide (m = n)) as [->|Hm].
  - rewrite list_lookup_alter_eq, !list_lookup_imap, Hn. cbn [fmap option_fmap option_map]. unfold view.
    by rewrite held_cons, Hl, Hi, Z.eqb_refl, Hb, Hname.
  - rewrite list_lookup_alter_ne, !list_lookup_imap by done. destruct (bs !! m); [|done].
    cbn [fmap option_fmap option_map]. unfold view. rewrite held_cons, Hi. by rewrite (proj2 (Z.eqb_neq _ _)) by lia.
Qed.

Lemma close_one bs p l cl :
  tool_ok bs p -> fst p ∉ l.*1 -> cl_phase cl = Streaming -> open_text cl = None ->
  (forall j, j ∈ open_tools cl <-> Z.of_nat j ∈ (p :: l).*1) -> cl_blocks cl = imap (view (p :: l)) bs ->
  receive_all cl (close_of p) = Some {| cl_phase := Streaming; cl_blocks := imap (view l) bs; open_text := None;
    open_tools := filter (fun j => j <> Z.to_nat (fst p)) (open_tools cl) |}.
Proof.
  intros (n & Hi & Hidx & Hn & Hbuf) Hnl Hph Ht Hopen Hcl.
  assert (n ∈ open_tools cl) as Hin by (apply Hopen; rewrite fmap_cons, Hi; by left).
  assert (held l n = false) as Hheld by (apply held_not_in; by rewrite <- Hi).
  assert (forall b, cl_blocks cl = b -> receive_all cl [ContentBlockStop (fst p)] = Some {| cl_phase := Streaming; cl_blocks := b;
    open_text := None; open_tools := filter (fun j => j <> Z.to_nat (fst p)) (open_tools cl) |}) as Hstop.
  { intros b <-. rewrite receive_all_cons, Hi, receive_stop_tool, Nat2Z.id by done. done. }
  unfold close_of. destruct (ti_buffer_args (snd p)) eqn:Hb; cbn [app].
  2: { apply Hstop. rewrite Hcl. eapply view_tail; eauto. }
  unfold _build_sanitized_args_delta. rewrite Hidx. unfold buffers in Hbuf.
  destruct (ti_name (snd p)) as [| | | |name| |] eqn:Hname; try done.
  destruct (String.eqb_spec (ti_args (snd p)) "") as [Ha|Ha]; [|destruct (String.eqb_spec (_sanitize_tool_arguments_json name (ti_args (snd p))) "") as [Hj|Hj]]; cbn [app].
  - apply Hstop. rewrite Hcl. eapply view_tail; eauto; [by rewrite Hname|]. right. rewrite Hname, Ha. apply finish_empty.
  - apply Hstop. rewrite Hcl. eapply view_tail; eauto; [by rewrite Hname|]. right. rewrite Hname. simpl. by rewrite Hj.
  - rewrite receive_all_cons, Hi, receive_delta by done. cbn [mbind option_bind]. rewrite Hcl.
    erewrite view_filled; [|done..|by rewrite Hname|done|done|done].
    rewrite receive_all_cons, receive_stop_tool, Nat2Z.id by done. done.
Qed.

Lemma close_all bs l cl :
  NoDup l.*1 -> Forall (tool_ok bs) l -> cl_phase cl = Streaming -> open_text cl = None ->
  (forall j, j ∈ open_tools cl <-> Z.of_nat j ∈ l.*1) -> cl_blocks cl = imap (view l) bs ->
  receive_all cl (mjoin (close_of <$> l)) =
    Some {| cl_phase := Streaming; cl_blocks := finish_block <$> bs; open_text := None; open_tools := [] |}.
Proof.
  intros Hnd Hok. revert cl Hnd. induction Hok as [|p l Hp Hok IH]; intros cl Hnd Hph Ht Hopen Hcl.
  - assert (open_tools cl = []) as Htools.
    { destruct (open_tools cl) as [|j js]; [done|]. exfalso. eapply not_elem_of_nil, (proj1 (Hopen j)). by left. }
    destruct cl as [? ? ? ?]. cbn in *. subst. cbn. do 2 f_equal. apply list_eq. intros n. rewrite list_lookup_imap, list_lookup_fmap. done.
  - rewrite fmap_cons in Hnd. apply NoDup_cons in Hnd as [Hnl Hnd]. cbn [fmap list_fmap mjoin list_join].
    rewrite receive_all_app, (close_one bs p l) by done. cbn [mbind option_bind]. apply IH; [done..| |done].
    intros j. cbn [open_tools]. rewrite list_elem_of_filter, Hopen, fmap_cons, elem_of_cons.
    destruct Hp as (n & Hi & _). rewrite Hi, Nat2Z.id in *. split; [intros [Hne [?|?]]; [lia|done]|].
    intros Hj. split; [|by right]. intros ->. done.
Qed.

(** ** The client follows the generator *)

(** An entry without a block has no arguments yet; one with a block has a name. *)
Definition entry_ok (info : tool_info) : Prop :=
  (ti_block_idx info = None -> ti_args info = "") /\ (ti_name info = VNone -> ti_block_idx info = None).

(** The variables, the client and the arrived blocks agree. *)
Record tracks (c : conv) (cl : client) (bs : list block) : Prop := {
  tr_phase : cl_phase cl = Streaming;
  tr_idx : content_block_index c = Z.of_nat (length bs) - 1;
  tr_blocks : cl_blocks cl = imap (view (started_tools (tool_calls_buffer c))) bs;
  tr_ok : Forall (tool_ok bs) (started_tools (tool_calls_buffer c));
  tr_nodup : NoDup (started_tools (tool_calls_buffer c)).*1;
  tr_entries : Forall (fun p => entry_ok (snd p)) (tool_calls_buffer c);
  tr_open j : j ∈ open_tools cl <-> Z.of_nat j ∈ (started_tools (tool_calls_buffer c)).*1;
  tr_current :
    match current_block_type c with
    | Some KText => text_started c = true /\ open_text cl = Some (pred (length bs)) /\
                    (exists t, last bs = Some (BText t)) /\ started_tools (tool_calls_buffer c) = []
    | Some KToolUse => text_started c = false /\ open_text cl = None /\ started_tools (tool_calls_buffer c) <> []
    | None => text_started c = false /\ open_text cl = None /\ started_tools (tool_calls_buffer c) = []
    end }.

Lemma imap_view_nil bs : imap (view []) bs = finish_block <$> bs.
Proof. apply list_eq. intros n. by rewrite list_lookup_imap, list_lookup_fmap. Qed.

Lemma tracks_length c cl bs : tracks c cl bs -> length (cl_blocks cl) = length bs.
Proof. intros H. by rewrite (tr_blocks _ _ _ H), length_imap. Qed.

Lemma tracks_no_tools c cl bs : tracks c cl bs -> started_tools (tool_calls_buffer c) = [] -> open_tools cl = [].
Proof.
  intros H Hs. destruct (open_tools cl) as [|j js] eqn:E; [done|]. exfalso.
  assert (Z.of_nat j ∈ (started_tools (tool_calls_buffer c)).*1) as Hj by (apply (tr_open _ _ _ H); rewrite E; by left).
  rewrite Hs in Hj. by apply elem_of_nil in Hj.
Qed.

(** The events that close the open tools are accepted, and all is shown. *)
Lemma tracks_close c cl bs : tracks c cl bs -> current_block_type c = Some KToolUse ->
  receive_all cl (_build_tool_block_close_events c) =
    Some {| cl_phase := Streaming; cl_blocks := finish_block <$> bs; open_text := None; open_tools := [] |}.
Proof.
  intros H Hcur. pose proof (tr_current _ _ _ H) as Ht. rewrite Hcur in Ht. destruct Ht as (_ & Ht & _).
  pose proof (sort_tools_perm (started_tools (tool_calls_buffer c))) as Hperm.
  change (_build_tool_block_close_events c) with (mjoin (close_of <$> sort_tools (started_tools (tool_calls_buffer c)))).
  apply close_all; [by rewrite Hperm; apply H|by rewrite Hperm; apply H|apply H|done| |].
  - intros j. rewrite Hperm. apply H.
  - rewrite (tr_blocks _ _ _ H). apply list_eq. intros n. rewrite !list_lookup_imap. destruct (bs !! n); [|done]. simpl. unfold view.
    by rewrite (held_perm _ _ n Hperm).
Qed.

(** The state after the open tools are closed. *)
Definition idle (bs : list block) : client :=
  {| cl_phase := Streaming; cl_blocks := finish_block <$> bs; open_text := None; open_tools := [] |}.

Lemma tracks_idle c bs : Forall (fun p => entry_ok (snd p)) (tool_calls_buffer c) -> content_block_index c = Z.of_nat (length bs) - 1 ->
  current_block_type c = None -> text_started c = false -> started_tools (tool_calls_buffer c) = [] -> tracks c (idle bs) bs.
Proof.
  intros Hp Hi Hc Ht Hs. split; rewrite ?Hs; [done|done|by rewrite imap_view_nil|done|by constructor|done| |by rewrite Hc].
  intros j. split; intros []%elem_of_nil.
Qed.

Lemma tracks_open_text c cl bs : tracks c cl bs -> current_block_type c = None ->
  exists cl', receive cl (ContentBlockStart (content_block_index c + 1) TextBlock) = Some cl' /\
    tracks (set_blocks (content_block_index c + 1) (Some KText) true (tool_calls_buffer c) c) cl' (bs ++ [BText ""]).
Proof.
  intros H Hcur. pose proof (tr_current _ _ _ H) as Ht. rewrite Hcur in Ht. destruct Ht as (_ & Ht & Hs).
  pose proof (tracks_no_tools _ _ _ H Hs) as Htools. eexists. split.
  - unfold receive. rewrite (tr_phase _ _ _ H), (tracks_length _ _ _ H), (tr_idx _ _ _ H), Ht, Htools.
    replace (_ =? _) with true by (symmetry; apply Z.eqb_eq; lia). done.
  - destruct H as [_ Hi Hb _ _ Hpe Ho _]. split; simpl; rewrite ?Hs, ?length_app; simpl; [done|lia| |done|by constructor|done| |].
    + rewrite Hb, Hs, imap_app, !imap_view_nil. done.
    + intros j. split; intros []%elem_of_nil.
    + split_and!; [done| |by eexists; rewrite last_snoc|done]. f_equal. lia.
Qed.

Definition push_text (s : string) (bs : list block) : list block := alter (add_fragment (TextDelta s)) (pred (length bs)) bs.

Lemma tracks_text_delta c cl bs s : tracks c cl bs -> current_block_type c = Some KText ->
  exists cl', receive cl (ContentBlockDelta (content_block_index c) (TextDelta s)) = Some cl' /\ tracks c cl' (push_text s bs).
Proof.
  intros H Hcur. pose proof (tr_current _ _ _ H) as Ht. rewrite Hcur in Ht. destruct Ht as (Hst & Ht & [t Hlast] & Hs).
  assert (0 < length bs)%nat as Hlen by (destruct bs; [done|simpl; lia]).
  replace (content_block_index c) with (Z.of_nat (pred (length bs))) by (rewrite (tr_idx _ _ _ H); lia).
  eexists. split; [apply receive_delta; [apply H|done]|].
  pose proof (tracks_no_tools _ _ _ H Hs) as Htools.
  destruct H as [_ Hi Hb _ _ Hpe _ _]. unfold push_text. split; simpl; rewrite ?length_alter, ?Hs, ?Htools; [done|done| |done|by constructor|done| |].
  - rewrite Hb, Hs, !imap_view_nil. rewrite last_lookup in Hlast. apply list_eq. intros n.
    destruct (decide (n = pred (length bs))) as [->|Hn].
    + by rewrite list_lookup_alter_eq, !list_lookup_fmap, list_lookup_alter_eq, Hlast.
    + by rewrite list_lookup_alter_ne, !list_lookup_fmap, list_lookup_alter_ne.
  - intros j. split; intros []%elem_of_nil.
  - rewrite Hcur. split_and!; [done..| |done]. exists (t +++ s). rewrite last_lookup in *.
    by rewrite length_alter, list_lookup_alter_eq, Hlast.
Qed.

(** A tool call starts, in place of a pending entry or of none. *)
Lemma started_tool_set key info buffer i :
  match tool_get key buffer with Some old => ti_block_idx old = None | None => True end -> ti_block_idx info = Some i ->
  started_tools (tool_set key info buffer) ≡ₚ (i, info) :: started_tools buffer.
Proof.
  intros Hold Hi. destruct (tool_get key buffer) as [old|] eqn:Hget.
  - destruct (tool_set_old key info old buffer Hget) as (b1 & k & b2 & -> & ->).
    rewrite !started_tools_app. unfold started_tools at 2 4. cbn [omap list_omap snd]. rewrite Hi, Hold. cbn [fmap option_fmap option_map].
    symmetry. apply Permutation_middle.
  - rewrite (tool_set_new _ _ _ Hget), started_tools_app. unfold started_tools at 2. cbn [omap list_omap snd]. rewrite Hi.
    cbn [fmap option_fmap option_map]. symmetry. apply Permutation_cons_append.
Qed.

Lemma entries_set key info buffer :
  Forall (fun p => entry_ok (snd p)) buffer -> entry_ok info -> Forall (fun p => entry_ok (snd p)) (tool_set key info buffer).
Proof.
  intros H Hi. induction H as [|[k old] b Hx H IH]; simpl; [by constructor|].
  destruct (py_eq k key); by constructor.
Qed.

Lemma entry_get key info buffer : Forall (fun p => entry_ok (snd p)) buffer -> tool_get key buffer = Some info -> entry_ok info.
Proof. induction 1 as [|[k old] b Hx H IH]; simpl; [done|]. destruct (py_eq k key); [intros [= ->]; apply Hx|apply IH]. Qed.

Lemma tool_ok_mono bs b p : tool_ok bs p -> tool_ok (bs ++ [b]) p.
Proof. intros (n & ? & ? & Hn & ?). exists n. split_and!; try done. by apply lookup_app_l_Some. Qed.

Lemma tool_ok_lt bs p : tool_ok bs p -> fst p < Z.of_nat (length bs).
Proof. intros (n & -> & _ & Hn%lookup_lt_Some & _). lia. Qed.

Lemma tracks_open_tool c cl bs key id name :
  tracks c cl bs -> text_started c = false -> name <> VNone ->
  match tool_get key (tool_calls_buffer c) with Some old => ti_block_idx old = None | None => True end ->
  let i := content_block_index c + 1 in
  let info := {| ti_id := id; ti_name := name; ti_args := ""; ti_block_idx := Some i; ti_buffer_args := buffers name |} in
  exists cl', receive cl (ContentBlockStart i (ToolUseBlock id name)) = Some cl' /\
    tracks (set_blocks i (Some KToolUse) false (tool_set key info (tool_calls_buffer c)) c) cl' (bs ++ [BToolUse id name ""]).
Proof.
  intros H Hst Hname Hold i info. pose proof (started_tool_set key info _ i Hold eq_refl) as Hperm.
  assert (open_text cl = None) as Ht.
  { pose proof (tr_current _ _ _ H) as Hc. rewrite Hst in Hc. destruct (current_block_type c) as [[]|]; [by destruct Hc|apply Hc..]. }
  assert (Z.of_nat (length bs) = i) as Hi by (unfold i; rewrite (tr_idx _ _ _ H); lia).
  assert (i ∉ (started_tools (tool_calls_buffer c)).*1) as Hnew.
  { intros ([i' info'] & -> & Hin)%list_elem_of_fmap. pose proof (tr_ok _ _ _ H) as Hok. rewrite Forall_forall in Hok.
    apply Hok, tool_ok_lt in Hin. simpl in *. lia. }
  eexists. split.
  - unfold receive. rewrite (tr_phase _ _ _ H), (tracks_length _ _ _ H), Ht, <- Hi, Z.eqb_refl. done.
  - destruct H as [_ _ Hb Hok Hnd Hpe Ho _]. split; simpl; [done|rewrite length_app; simpl; lia| | | | | |].
    + rewrite Hb, imap_app. f_equal; [|simpl; f_equal].
      * apply list_eq. intros n. rewrite !list_lookup_imap. destruct (bs !! n) eqn:Hn; [|done]. simpl. f_equal. unfold view.
        rewrite (held_perm _ _ n Hperm), held_cons. cbn [fst]. apply lookup_lt_Some in Hn.
        by rewrite (proj2 (Z.eqb_neq i (Z.of_nat n))) by lia.
      * unfold view. destruct (held _ _); [done|]. by rewrite finish_empty.
    + rewrite Hperm. constructor; [|eapply Forall_impl; [done|]; intros; by apply tool_ok_mono].
      exists (length bs). split_and!; [done..| |done]. by rewrite lookup_app_r, Nat.sub_diag.
    + rewrite Hperm. by constructor.
    + by apply entries_set.
    + intros j. rewrite Hperm, fmap_cons, elem_of_app, Ho, !elem_of_cons, elem_of_nil. cbn [fst].
      split; [intros [?|[?|[]]]; [by right|left; subst; lia]|intros [?|?]; [right; left; lia|by left]].
    + split_and!; [done..|]. intros E. rewrite E in Hperm. by apply Permutation_nil_cons in Hperm.
Qed.

(** A fragment of the arguments of a started call. *)
Definition with_args (args : string) (info : tool_info) : tool_info := {|
  ti_id := ti_id info; ti_name := ti_name info; ti_args := args; ti_block_idx := ti_block_idx info;
  ti_buffer_args := ti_buffer_args info |}.

Lemma started_split key info i info' buffer :
  tool_get key buffer = Some info -> ti_block_idx info = Some i -> ti_block_idx info' = Some i ->
  exists l1 l2, started_tools buffer = l1 ++ (i, info) :: l2 /\ started_tools (tool_set key info' buffer) = l1 ++ (i, info') :: l2.
Proof.
  intros Hget Hi Hi'. destruct (tool_set_old key info' info buffer Hget) as (b1 & k & b2 & -> & ->).
  exists (started_tools b1), (started_tools b2). rewrite !started_tools_app.
  assert (forall x, ti_block_idx x = Some i -> started_tools ((k, x) :: b2) = (i, x) :: started_tools b2) as Hone.
  { intros x Hx. unfold started_tools. cbn [omap list_omap snd]. by rewrite Hx. }
  by rewrite !Hone.
Qed.

Lemma held_same l1 l2 i info info' n :
  ti_buffer_args info' = ti_buffer_args info -> held (l1 ++ (i, info') :: l2) n = held (l1 ++ (i, info) :: l2) n.
Proof. intros H. unfold held. rewrite !existsb_app. simpl. by rewrite H. Qed.

Lemma tool_ok_other bs n i p d : tool_ok bs p -> fst p <> i -> i = Z.of_nat n -> tool_ok (alter (add_fragment d) n bs) p.
Proof.
  intros (m & Hm & ? & Hl & ?) Hne ->. exists m. split_and!; try done. rewrite list_lookup_alter_ne; [done|]. intros ->. congruence.
Qed.

Lemma tools_ok_other bs n l d : Forall (tool_ok bs) l -> Z.of_nat n ∉ l.*1 -> Forall (tool_ok (alter (add_fragment d) n bs)) l.
Proof.
  rewrite !Forall_forall. intros H Hn p Hp. eapply tool_ok_other; [by apply H| |done]. intros E. apply Hn. rewrite <- E.
  by apply list_elem_of_fmap_2.
Qed.

Lemma tools_ok_append bs n l1 l2 info fragment :
  let info' := with_args (ti_args info +++ fragment) info in
  Forall (tool_ok bs) (l1 ++ (Z.of_nat n, info) :: l2) -> NoDup (l1 ++ (Z.of_nat n, info) :: l2).*1 ->
  Forall (tool_ok (alter (add_fragment (InputJsonDelta fragment)) n bs)) (l1 ++ (Z.of_nat n, info') :: l2).
Proof.
  intros info'. rewrite !Forall_app, !Forall_cons, fmap_app, fmap_cons. intros (Hok1 & (n' & Hn' & Hi & Hn & Hbuf) & Hok2) Hnd.
  simpl in *. apply Nat2Z.inj in Hn' as <-. apply NoDup_app in Hnd as (_ & Hnd2 & Hnd3). apply NoDup_cons in Hnd3 as [Hnd3 _].
  split_and!; [apply tools_ok_other; [done|]| |by apply tools_ok_other].
  - intros Hin. apply (Hnd2 _ Hin). by left.
  - exists n. split_and!; [done..| |done]. by rewrite list_lookup_alter_eq, Hn.
Qed.

Lemma held_unique l n info : NoDup l.*1 -> (Z.of_nat n, info) ∈ l -> held l n = ti_buffer_args info.
Proof.
  induction l as [|[i x] l IH]; [by intros _ []%elem_of_nil|]. rewrite fmap_cons. intros [Hi Hnd]%NoDup_cons. rewrite held_cons, elem_of_cons.
  intros [[= <- <-]|Hin]; cbn [fst snd] in *.
  - by rewrite Z.eqb_refl, held_not_in, orb_false_r.
  - rewrite (proj2 (Z.eqb_neq i (Z.of_nat n))); [by apply IH|]. intros ->. apply Hi. change (Z.of_nat n) with (fst (Z.of_nat n, info)).
    by apply list_elem_of_fmap_2.
Qed.

Lemma imap_view_ext l l' bs : (forall n, held l n = held l' n) -> imap (view l) bs = imap (view l') bs.
Proof. intros H. apply imap_ext. intros n b _. unfold view. by rewrite H. Qed.

(** A fragment of held-back arguments does not show; another one shows as it is. *)
Lemma view_append l bs n id name args fragment :
  bs !! n = Some (BToolUse id name args) -> (held l n = false -> buffers name = false) ->
  let bs' := alter (add_fragment (InputJsonDelta fragment)) n bs in
  imap (view l) bs' = if held l n then imap (view l) bs else alter (add_fragment (InputJsonDelta fragment)) n (imap (view l) bs).
Proof.
  intros Hn Hname bs'. apply list_eq. intros m. unfold bs'. destruct (decide (m = n)) as [->|Hm].
  - rewrite list_lookup_imap, list_lookup_alter_eq, Hn. simpl. unfold view. destruct (held l n) eqn:Hh.
    + by rewrite list_lookup_imap, Hn; simpl; rewrite Hh.
    + rewrite list_lookup_alter_eq, list_lookup_imap, Hn. cbn [fmap option_fmap option_map]. rewrite Hh.
      rewrite (finish_not_buffered id name args), (finish_not_buffered id name) by auto. done.
  - rewrite list_lookup_imap, list_lookup_alter_ne by done. destruct (held l n); [|rewrite list_lookup_alter_ne by done]; by rewrite list_lookup_imap.
Qed.

Lemma tracks_append c cl bs key info n fragment :
  tracks c cl bs -> tool_get key (tool_calls_buffer c) = Some info -> ti_block_idx info = Some (Z.of_nat n) ->
  let c' := set_buffer (tool_set key (with_args (ti_args info +++ fragment) info) (tool_calls_buffer c)) c in
  let bs' := alter (add_fragment (InputJsonDelta fragment)) n bs in
  if ti_buffer_args info then tracks c' cl bs'
  else exists cl', receive cl (ContentBlockDelta (Z.of_nat n) (InputJsonDelta fragment)) = Some cl' /\ tracks c' cl' bs'.
Proof.
  intros H Hget Hi c' bs'. set (info' := with_args _ info) in *.
  destruct (started_split key info _ info' _ Hget Hi Hi) as (l1 & l2 & Hl & Hl').
  assert (tool_ok bs (Z.of_nat n, info)) as (n' & Hn' & _ & Hn & Hbuf).
  { pose proof (tr_ok _ _ _ H) as Hok. rewrite Forall_forall in Hok. apply Hok. rewrite Hl. apply elem_of_app. right. by left. }
  simpl in Hn', Hn, Hbuf. apply Nat2Z.inj in Hn' as <-.
  assert ((started_tools (tool_calls_buffer c')).*1 = (started_tools (tool_calls_buffer c)).*1) as Hkeys.
  { simpl. by rewrite Hl, Hl', !fmap_app, !fmap_cons. }
  assert (forall cl', cl_phase cl' = Streaming -> cl_blocks cl' = imap (view (started_tools (tool_calls_buffer c'))) bs' ->
    open_text cl' = open_text cl -> open_tools cl' = open_tools cl -> tracks c' cl' bs') as Hafter.
  { intros cl' Hph Hblocks Ht Hto. pose proof H as [_ Hidx _ Hok Hnd Hpe Ho Hcur]. split; [done| |done| |by rewrite Hkeys| | |].
    - simpl. unfold bs'. by rewrite length_alter.
    - simpl. rewrite Hl'. apply tools_ok_append; by rewrite <- Hl.
    - apply entries_set; [done|]. pose proof (entry_get _ _ _ Hpe Hget) as [_ Hnone]. split; simpl; [by rewrite Hi|done].
    - intros j. rewrite Hto, Hkeys. apply Ho.
    - simpl. rewrite Hl', Ht. rewrite Hl in Hcur. destruct (current_block_type c) as [[]|].
      + destruct Hcur as (_ & _ & _ & Hnil). by destruct l1.
      + split_and!; [apply Hcur..|]. by destruct l1.
      + destruct Hcur as (_ & _ & Hnil). by destruct l1. }
  assert (forall m, held (started_tools (tool_calls_buffer c')) m = held (started_tools (tool_calls_buffer c)) m) as Hheld.
  { intros m. simpl. rewrite Hl, Hl'. by apply held_same. }
  assert (Z.of_nat n ∈ (started_tools (tool_calls_buffer c)).*1) as Hin.
  { rewrite Hl, fmap_app, fmap_cons. apply elem_of_app. right. by left. }
  assert (held (started_tools (tool_calls_buffer c)) n = ti_buffer_args info) as Hh.
  { apply held_unique; [apply H|]. rewrite Hl. apply elem_of_app. right. by left. }
  assert (imap (view (started_tools (tool_calls_buffer c'))) bs' = if ti_buffer_args info then cl_blocks cl
    else alter (add_fragment (InputJsonDelta fragment)) n (cl_blocks cl)) as Hview.
  { rewrite (imap_view_ext _ _ _ Hheld), (tr_blocks _ _ _ H). unfold bs'. rewrite (view_append _ _ _ _ _ _ _ Hn), Hh; [done|].
    by rewrite Hh, Hbuf. }
  destruct (ti_buffer_args info); [by apply Hafter; [apply H|..]|].
  eexists. split; [apply receive_delta; [apply H|by apply H]|]. by apply Hafter.
Qed.

(** *** The steps of the generator *)

(** The accounting does not matter to the client. *)
Lemma tracks_ext c c' cl bs :
  content_block_index c' = content_block_index c -> current_block_type c' = current_block_type c ->
  text_started c' = text_started c -> tool_calls_buffer c' = tool_calls_buffer c -> tracks c cl bs -> tracks c' cl bs.
Proof. intros H1 H2 H3 H4 []. split; by rewrite ?H1, ?H2, ?H3, ?H4. Qed.

Lemma tracks_account u f e st fi se m c cl bs : tracks c cl bs -> tracks (set_account u f e st fi se m c) cl bs.
Proof. by apply tracks_ext. Qed.

Definition arrive_text (started : bool) (s : string) (bs : list block) : list block :=
  push_text s (if started then bs else bs ++ [BText ""]).

Lemma text_chunk_tracks s c cl bs : tracks c cl bs ->
  gwp (text_chunk s) (fun r c' cl' => r = inl tt /\ tracks c' cl' (arrive_text (text_started c) s bs) /\ text_started c' = true /\
    tool_calls_buffer c' = match current_block_type c with Some KToolUse => [] | _ => tool_calls_buffer c end /\
    final_usage c' = final_usage c) c cl.
Proof.
  intros H. unfold text_chunk. do 2 gstep. gstep.
  set (Q := fun (r : unit + ending) c1 cl1 => r = inl tt /\ tracks c1 cl1 bs /\ text_started c1 = text_started c /\
    current_block_type c1 = match current_block_type c with Some KToolUse => None | x => x end /\
    tool_calls_buffer c1 = match current_block_type c with Some KToolUse => [] | _ => tool_calls_buffer c end /\
    final_usage c1 = final_usage c).
  apply (gwp_mono _ Q).
  { unfold Q. pose proof (tr_current _ _ _ H) as Hcur. destruct (current_block_type c) as [[]|] eqn:Hc; [by gstep| |by gstep].
    gstep. eapply gwp_yield_all; [by apply tracks_close|]. gstep. split_and!; [done| |done..]. apply tracks_idle; [by constructor|apply H|done|apply Hcur|done]. }
  intros r c1 cl1 (-> & H1 & Hst & Hc1 & Hb1 & Hu1). rewrite <- Hb1, <- Hu1. do 2 gstep. gstep.
  set (bs1 := if text_started c then bs else bs ++ [BText ""]).
  apply (gwp_mono _ (fun r c2 cl2 => r = inl tt /\ tracks c2 cl2 bs1 /\ current_block_type c2 = Some KText /\ text_started c2 = true /\
    tool_calls_buffer c2 = tool_calls_buffer c1 /\ final_usage c2 = final_usage c1)).
  { pose proof (tr_current _ _ _ H1) as Hcur. unfold bs1. rewrite <- Hst. destruct (text_started c1) eqn:Ht; cbn [when negb].
    - gstep. split_and!; try done. destruct (current_block_type c1) as [[]|]; [done|by destruct Hcur..].
    - assert (current_block_type c1 = None) as Hnone.
      { rewrite Hc1 in *. destruct (current_block_type c) as [[]|]; [by destruct Hcur|done..]. }
      destruct (tracks_open_text _ _ _ H1 Hnone) as (cl2 & Hrec & Htr). do 2 gstep. do 2 gstep. eapply gwp_yield; [exact Hrec|].
      split_and!; [done|by apply tracks_account|done..]. }
  intros r2 c2 cl2 (-> & H2 & Hc2 & Hst2 & Hb2 & Hu2). do 2 gstep. destruct (tracks_text_delta _ _ _ s H2 Hc2) as (cl3 & Hrec & Htr).
  eapply gwp_yield; [exact Hrec|]. by split_and!.
Qed.

(** An exception leaves a client that still streams. *)
Definition aborts {A} (r : A + ending) (cl : client) : Prop :=
  match r with inl _ => False | inr (Raised _) => cl_phase cl = Streaming | inr _ => False end.

Definition fresh_tool (id name : value) (i : Z) : tool_info :=
  {| ti_id := id; ti_name := name; ti_args := ""; ti_block_idx := Some i; ti_buffer_args := buffers name |}.

Lemma start_tool_tracks key id name c cl bs :
  tracks c cl bs -> text_started c = false -> name <> VNone ->
  match tool_get key (tool_calls_buffer c) with Some old => ti_block_idx old = None | None => True end ->
  gwp (start_tool key id name "") (fun r c' cl' =>
    r = inl tt /\ tracks c' cl' (bs ++ [BToolUse id name ""]) /\ text_started c' = false /\
      tool_calls_buffer c' = tool_set key (fresh_tool id name (Z.of_nat (length bs))) (tool_calls_buffer c) /\
      final_usage c' = final_usage c \/
    hashable name = false /\ aborts r cl') c cl.
Proof.
  intros H Hst Hname Hget. destruct (tracks_open_tool c cl bs key id name H Hst Hname Hget) as (cl' & Hrec & Htr).
  unfold start_tool. do 2 gstep. gstep. unfold _should_buffer_streaming_tool_args, check_hashable.
  destruct (hashable name) eqn:Hh; cbn [liftG mbind res_bind raise].
  2: { gstep. right. split; [done|apply H]. }
  gstep. do 2 gstep. do 2 gstep. eapply gwp_yield; [exact Hrec|]. left.
  assert (content_block_index c + 1 = Z.of_nat (length bs)) as Hi by (rewrite (tr_idx _ _ _ H); lia).
  split_and!; [done| |done| |done].
  - by eapply tracks_ext; [..|exact Htr].
  - unfold fresh_tool, buffers. simpl. by rewrite <- Hi.
Qed.

Lemma append_args_tracks key fragment info n c cl bs :
  tracks c cl bs -> fragment <> "" -> tool_get key (tool_calls_buffer c) = Some info -> ti_block_idx info = Some (Z.of_nat n) ->
  gwp (append_args key (VStr fragment)) (fun r c' cl' =>
    r = inl tt /\ tracks c' cl' (alter (add_fragment (InputJsonDelta fragment)) n bs) /\ text_started c' = text_started c /\
    tool_calls_buffer c' = tool_set key (with_args (ti_args info +++ fragment) info) (tool_calls_buffer c) /\
    final_usage c' = final_usage c) c cl.
Proof.
  intros H Hne Hget Hi. pose proof (tracks_append c cl bs key info n fragment H Hget Hi) as Htr. unfold append_args.
  do 2 gstep. rewrite Hget, Hi. cbn [truthy]. destruct (String.eqb_spec fragment ""); [done|]. cbn [negb liftG]. do 2 gstep. do 2 gstep.
  assert (set_buffer (tool_set key {| ti_id := ti_id info; ti_name := ti_name info; ti_args := ti_args info +++ fragment;
    ti_block_idx := Some (Z.of_nat n); ti_buffer_args := ti_buffer_args info |} (tool_calls_buffer c)) c =
    set_buffer (tool_set key (with_args (ti_args info +++ fragment) info) (tool_calls_buffer c)) c) as ->.
  { unfold with_args. by rewrite Hi. }
  destruct (ti_buffer_args info); cbn [negb when].
  - gstep. by split_and!.
  - destruct Htr as (cl' & Hrec & Htr). eapply gwp_yield; [exact Hrec|]. by split_and!.
Qed.

(** Any fragment: the blocks stay in step, or an exception ends the stream. *)
Lemma append_args_safe key args c cl bs : tracks c cl bs ->
  gwp (append_args key args) (fun r c' cl' =>
    (exists u, r = inl u) /\ (exists bs', tracks c' cl' bs') /\ text_started c' = text_started c \/ aborts r cl') c cl.
Proof.
  intros H. destruct (tool_get key (tool_calls_buffer c)) as [info|] eqn:Hget;
    [destruct (ti_block_idx info) as [i|] eqn:Hi|]; [|unfold append_args; do 2 gstep; rewrite Hget, ?Hi; gstep; left; eauto..].
  destruct (truthy args) eqn:Ht; [|unfold append_args; do 2 gstep; rewrite Hget, Hi, Ht; gstep; left; eauto].
  destruct args as [| | | |fragment| |]; try (unfold append_args; do 2 gstep; rewrite Hget, Hi, Ht; cbn [liftG raise];
    do 2 gstep; right; apply H).
  assert (exists n, i = Z.of_nat n) as [n ->].
  { destruct (started_split key info i info _ Hget Hi Hi) as (l1 & l2 & Hl & _). pose proof (tr_ok _ _ _ H) as Hok.
    rewrite Forall_forall in Hok. destruct (Hok (i, info)) as (n & Hn & _); [rewrite Hl; apply elem_of_app; right; by left|by exists n]. }
  eapply gwp_mono; [eapply append_args_tracks; [done| |done..]|].
  - intros ->. done.
  - intros r c' cl' (-> & Htr & Hst & _). left. eauto.
Qed.

Lemma tracks_stop_text c cl bs : tracks c cl bs -> current_block_type c = Some KText ->
  exists cl', receive cl (ContentBlockStop (content_block_index c)) = Some cl' /\ cl' = idle bs /\
    tracks (set_blocks (content_block_index c) None false (tool_calls_buffer c) c) cl' bs.
Proof.
  intros H Hc. pose proof (tr_current _ _ _ H) as Hcur. rewrite Hc in Hcur. destruct Hcur as (_ & Ht & [t Hlast] & Hs).
  assert (0 < length bs)%nat as Hlen by (destruct bs; [done|simpl; lia]).
  exists (idle bs). split_and!; [|done|apply tracks_idle; try done; apply H].
  unfold receive. rewrite (tr_phase _ _ _ H), (tr_idx _ _ _ H), Ht.
  replace (Z.to_nat (Z.of_nat (length bs) - 1)) with (pred (length bs)) by lia.
  rewrite (proj2 (Z.leb_le _ _)) by lia. cbn [negb]. rewrite bool_decide_eq_true_2 by done.
  rewrite (tracks_no_tools _ _ _ H Hs), (tr_blocks _ _ _ H), Hs, imap_view_nil. done.
Qed.

(** Where a client is after any part of the loop. *)
Definition goes {A} (r : A + ending) (c : conv) (cl : client) : Prop :=
  match r with
  | inl _ => exists bs, tracks c cl bs
  | inr (Raised _) => cl_phase cl = Streaming
  | inr Returned => cl_phase cl = Failed
  | inr Cancelled => True
  end.

Lemma aborts_goes {A} (r : A + ending) c cl : aborts r cl -> goes r c cl.
Proof. by destruct r as [|[]]. Qed.

(** The same, outside a text block. *)
Definition goes_tool {A} (r : A + ending) (c : conv) (cl : client) : Prop :=
  goes r c cl /\ ((exists a, r = inl a) -> text_started c = false).

(** A call whose name has not come yet. *)
Definition pending_tool (id : value) : tool_info :=
  {| ti_id := id; ti_name := VNone; ti_args := ""; ti_block_idx := None; ti_buffer_args := false |}.

Lemma tracks_pending c cl bs key id : tracks c cl bs -> tool_get key (tool_calls_buffer c) = None ->
  tracks (set_buffer (tool_set key (pending_tool id) (tool_calls_buffer c)) c) cl bs.
Proof.
  intros H Hget. rewrite (tool_set_new _ _ _ Hget).
  assert (started_tools (tool_calls_buffer c ++ [(key, pending_tool id)]) = started_tools (tool_calls_buffer c)) as Hs.
  { rewrite started_tools_app. simpl. by rewrite app_nil_r. }
  destruct H as [? ? ? ? ? Hp ? ?]. split; simpl; rewrite ?Hs; try done.
  apply Forall_app. split; [done|]. by repeat constructor.
Qed.

Lemma tool_delta_safe tc c cl bs : tracks c cl bs -> text_started c = false ->
  gwp (tool_delta tc) (fun r c' cl' => goes_tool r c' cl') c cl.
Proof.
  intros H Hst. assert (forall x : unit + ending, aborts x cl -> goes_tool x c cl) as Habort.
  { intros [[]|e] Hx; [done|]. split; [by apply aborts_goes|by intros [? ?]]. }
  unfold tool_delta. cbv zeta. gstep. apply gwp_liftG; [intros func _|intros e _; apply Habort, H].
  gstep. apply gwp_liftG; [intros _ _|intros e _; apply Habort, H]. do 2 gstep. gstep.
  set (key := dget_default "index" (VInt 0) tc). set (id := dgetv "id" tc). set (name := dgetv "name" func).
  set (Q := fun (r : bool + ending) c1 cl1 =>
    (exists b, r = inl b) /\ text_started c1 = false /\ (exists bs1, tracks c1 cl1 bs1) \/ aborts r cl1).
  apply (gwp_mono _ Q).
  - assert (forall b, Q (inl b) c cl) as Hsame by (intros b; left; eauto).
    destruct (tool_get key (tool_calls_buffer c)) as [info|] eqn:Hget.
    + gstep. apply gwp_when; [|intros _; gstep; apply Hsame].
      intros [[Hn Hnone%bool_decide_eq_true]%andb_prop _]%andb_prop. pose proof (entry_get _ _ _ (tr_entries _ _ _ H) Hget) as [Hargs Hblock].
      rewrite (Hargs (Hblock Hnone)). eapply gwp_mono; [apply start_tool_tracks; [done|done| |by rewrite Hget, Hblock]|].
      * by intros E; rewrite E in Hn.
      * intros r c1 cl1 [(-> & Htr & Hst1 & _)|[_ Hab]]; [gstep; left; eauto|]. destruct r as [|[]]; by try right.
    + destruct (truthy id && truthy name) eqn:Hboth.
      * apply andb_prop in Hboth as [_ Hn]. gstep. eapply gwp_mono; [apply start_tool_tracks; [done|done| |by rewrite Hget]|].
        -- by intros E; rewrite E in Hn.
        -- intros r c1 cl1 [(-> & Htr & Hst1 & _)|[_ Hab]]; [gstep; left; eauto|]. destruct r as [|[]]; by try right.
      * destruct (truthy id); [|gstep; apply Hsame]. do 2 gstep. gstep. left. split; [eauto|]. split; [done|].
        exists bs. by apply tracks_pending.
  - intros r c1 cl1 [([b ->] & Hst1 & bs1 & H1)|Hab].
    + apply gwp_when; [intros _|intros _; split; [by exists bs1|done]]. eapply gwp_mono; [by eapply append_args_safe|].
      intros r2 c2 cl2 [([u ->] & [bs2 H2] & Hst2)|Hab]; [split; [by exists bs2|congruence]|].
      split; [by apply aborts_goes|]. by destruct r2 as [|[]]; intros [? ?].
    + destruct r as [|[]]; [done| |done..]. split; [done|]. by intros [? ?].
Qed.

Lemma tool_deltas_safe l c cl bs : tracks c cl bs -> text_started c = false ->
  gwp (tool_deltas l) (fun r c' cl' => goes_tool r c' cl') c cl.
Proof.
  revert c cl bs. induction l as [|v l IH]; intros c cl bs H Hst; simpl.
  - gstep. split; [by exists bs|done].
  - destruct v; try by eapply IH. gstep. eapply gwp_mono; [by eapply tool_delta_safe|].
    intros [[]|e] c1 cl1 [Hg Hst1]; [|by split; [destruct e|intros [? ?]]]. destruct Hg as [bs1 H1]. eapply IH; [done|]. apply Hst1. by exists tt.
Qed.

Lemma tool_chunk_tracks l c cl bs (Q : unit + ending -> conv -> client -> Prop) : tracks c cl bs ->
  (forall c' cl', tracks c' cl' bs -> text_started c' = false -> tool_calls_buffer c' = tool_calls_buffer c ->
    final_usage c' = final_usage c -> gwp (tool_deltas l) Q c' cl') ->
  gwp (tool_chunk l) Q c cl.
Proof.
  intros H HQ. pose proof (tr_current _ _ _ H) as Hcur. unfold tool_chunk. do 2 gstep. gstep.
  destruct (current_block_type c) as [[]|] eqn:Hc; [|gstep; apply HQ; [done|apply Hcur|done..]..].
  destruct Hcur as (Hst & _). rewrite Hst. cbn [when]. gstep. destruct (tracks_stop_text _ _ _ H Hc) as (cl' & Hrec & _ & Htr).
  eapply gwp_yield; [exact Hrec|]. gstep. by apply HQ.
Qed.

Lemma process_choice_safe choice c cl bs : tracks c cl bs -> gwp (process_choice choice) goes c cl.
Proof.
  intros H. unfold process_choice. gstep. apply gwp_liftG; [intros delta _|intros e _; apply H].
  gstep. apply (gwp_mono _ (fun (r : unit + ending) c' cl' => r = inl tt /\ exists bs', tracks c' cl' bs')).
  { assert (gwp (mret tt) (fun (r : unit + ending) c' cl' => r = inl tt /\ exists bs', tracks c' cl' bs') c cl) as Hskip by (gstep; eauto).
    destruct (dgetv "content" delta); try done. apply gwp_when; intros _; [|eauto].
    eapply gwp_mono; [by apply text_chunk_tracks|]. intros r c' cl' (-> & Htr & _). eauto. }
  intros r c1 cl1 (-> & bs1 & H1). gstep. apply (gwp_mono _ goes).
  { assert (gwp (mret tt) (@goes unit) c1 cl1) as Hskip by (gstep; by exists bs1).
    destruct (dgetv "tool_calls" delta) as [| | | | |[|v l]|]; try done. eapply tool_chunk_tracks; [done|]. intros c2 cl2 H2 Hst2 _ _.
    eapply gwp_mono; [by eapply tool_deltas_safe|]. by intros r c' cl' []. }
  intros [[]|e] c2 cl2 Hg; [|by destruct e]. destruct Hg as [bs2 H2]. destruct (truthy _); [|gstep; by exists bs2].
  gstep. apply gwp_liftG; [intros reason _|intros e _; apply H2]. do 2 gstep. gstep. exists bs2. by apply tracks_account.
Qed.

(** A positive count is stored. *)
Lemma store_positive v key (f : unit -> G unit) c cl bs : tracks c cl bs ->
  (forall c' , tracks c' cl bs -> gwp (f tt) goes c' cl) ->
  gwp (b ← liftG (py_gt0 v); _ ← when b (assign (set_usage key v)); f tt) goes c cl.
Proof.
  intros H Hf. gstep. apply gwp_liftG; [intros b _|intros e _; apply H]. gstep. apply gwp_when; intros _; [gstep|]; apply Hf; [|done].
  by apply tracks_account.
Qed.

Lemma record_usage_safe usage c cl bs : tracks c cl bs -> gwp (record_usage usage) goes c cl.
Proof.
  intros H. unfold record_usage. cbv zeta. do 2 gstep.
  apply (store_positive _ _ (fun _ => _) _ _ bs); [by apply tracks_account|]. intros c1 H1.
  apply (store_positive _ _ (fun _ => _) _ _ bs); [done|]. intros c2 H2.
  gstep. apply gwp_liftG; [intros b _|intros e _; apply H2]. do 2 gstep. gstep.
  apply (gwp_mono _ (fun r c' cl' => r = inl tt /\ tracks c' cl' bs)).
  { apply gwp_when; intros _; [|done]. do 2 gstep. eapply gwp_yield; [unfold receive; by rewrite (tr_phase _ _ _ H2)|].
    split; [done|]. by apply tracks_account. }
  intros r c3 cl3 (-> & H3). apply (store_positive _ _ (fun _ => _) _ _ bs); [done|]. intros c4 H4.
  assert (gwp (mret tt) (@goes unit) c4 cl3) as Hskip by (gstep; by exists bs).
  destruct (dgetv "reported_cost_micros" usage); try done; gstep; exists bs; by apply tracks_account.
Qed.

Lemma process_chunk_safe v c cl bs : tracks c cl bs -> gwp (process_chunk v) goes c cl.
Proof.
  intros H. assert (forall b : bool, gwp (mret b) goes c cl) as Hskip by (intros b; gstep; by exists bs).
  unfold process_chunk. destruct v as [| | | | | |chunk]; try done. destruct (dgetv "_provider_meta" chunk); try done.
  2: { do 2 gstep. gstep. exists bs. by apply tracks_account. }
  destruct (dget "error" chunk) as [error|].
  - unfold error_chunk. do 2 gstep. gstep. apply gwp_liftG; [intros d _|intros e _; apply H]. do 2 gstep. gstep.
    eapply gwp_yield; [unfold receive; by rewrite (tr_phase _ _ _ H)|]. gstep. done.
  - gstep. apply (gwp_mono _ goes).
    { assert (gwp (mret tt) (@goes unit) c cl) as Hs by (gstep; by exists bs).
      destruct (dgetv "usage" chunk) as [| | | | | |[|p l]]; try done. by eapply record_usage_safe. }
    intros [[]|e] c1 cl1 Hg; [|by destruct e]. destruct Hg as [bs1 H1].
    assert (gwp (mret false) goes c1 cl1) as Hs by (gstep; by exists bs1).
    destruct (dget_default "choices" (VList []) chunk) as [| | | | |[|[] l]|]; try done. by eapply process_choice_safe.
Qed.

Lemma stream_loop_safe l c cl bs : tracks c cl bs -> gwp (stream_loop l) goes c cl.
Proof.
  revert c cl bs. induction l as [|[v|e|] l IH]; intros c cl bs H; simpl.
  - gstep. by exists bs.
  - gstep. eapply gwp_mono; [by eapply process_chunk_safe|]. intros [b|e] c1 cl1 Hg; [|by destruct e]. destruct Hg as [bs1 H1].
    destruct b; [gstep; by exists bs1|by eapply IH].
  - gstep. apply H.
  - by gstep.
Qed.

(** A count that [finish_stream] cannot compare. *)
Definition bad_counts (c : conv) : Prop :=
  is_ok (py_gt0 (dget_default "input_tokens" (VInt 0) (final_usage c))) = false \/
  is_ok (py_gt0 (dget_default "output_tokens" (VInt 0) (final_usage c))) = false.

(** The end of the stream: all blocks are closed, then the message. *)
Lemma finish_stream_tracks c cl bs : tracks c cl bs ->
  gwp finish_stream (fun r c' cl' =>
    r = inl tt /\ cl' = {| cl_phase := Stopped; cl_blocks := finish_block <$> bs; open_text := None; open_tools := [] |} \/
    aborts r cl' /\ bad_counts c) c cl.
Proof.
  intros H. unfold finish_stream. do 2 gstep. gstep.
  apply (gwp_mono _ (fun r c' cl' => r = inl tt /\ cl' = idle bs)).
  { pose proof (tr_current _ _ _ H) as Hcur. destruct (current_block_type c) as [[]|] eqn:Hc.
    - destruct Hcur as (-> & _). cbn [when]. destruct (tracks_stop_text _ _ _ H Hc) as (cl' & Hrec & -> & _). by eapply gwp_yield.
    - eapply gwp_yield_all; [by apply tracks_close|done].
    - gstep. split; [done|]. destruct Hcur as (_ & Ht & Hs). pose proof (tracks_no_tools _ _ _ H Hs) as Hto.
      pose proof (tr_blocks _ _ _ H) as Hb. rewrite Hs, imap_view_nil in Hb. pose proof (tr_phase _ _ _ H). destruct cl; simpl in *. by subst. }
  intros r c' cl' (-> & ->). cbv zeta. gstep.
  apply gwp_liftG; [intros b1 _|intros e He; right; split; [done|left; by rewrite He]]. gstep.
  apply (gwp_mono _ (fun r c' cl' => (exists b : bool, r = inl b) /\ cl' = idle bs \/ aborts r cl' /\ bad_counts c)).
  { destruct b1; [gstep; left; eauto|].
    apply gwp_liftG; [intros b2 _; left; eauto|intros e He; right; split; [done|right; by rewrite He]]. }
  intros r c2 cl' [([b2 ->] & ->)|Hab]; [|destruct r; [by destruct Hab|by right]].
  gstep. eapply gwp_yield; [done|]. eapply gwp_yield; [done|]. by left.
Qed.

(** ** The failure flag

    The flag that [on_complete] gets is set exactly when an error event goes out. *)

Definition is_error (e : event) : bool := match e with ErrorEvent _ _ => true | _ => false end.

(** An event without error, yielded with the flag down. *)
Definition clean (p : event * conv) : Prop := is_error (fst p) = false /\ stream_failed (snd p) = false.

(** A run sees neither a cancellation nor an interrupt. *)
Definition uninterrupted (a : arrival) : Prop :=
  match a with Chunk _ => True | Fails e => is_exception (exn_cls e) = true | Cancel => False end.

(** The exceptions of the code itself are ordinary ones. *)
Definition ordinary {A} (r : res A) : Prop := forall e, r = Err e -> is_exception (exn_cls e) = true.

Lemma ordinary_mapping v : ordinary (as_mapping v).
Proof. by intros e; destruct v; intros [= <-]. Qed.

Lemma ordinary_hashable v : ordinary (check_hashable v).
Proof. intros e. unfold check_hashable. by destruct (hashable v); intros [= <-]. Qed.

Lemma ordinary_gt0 v : ordinary (py_gt0 v).
Proof. by intros e; destruct v; intros [= <-]. Qed.

Lemma ordinary_stop_reason v : ordinary (map_stop_reason v).
Proof. intros e. unfold map_stop_reason, check_hashable. by destruct (hashable v); intros [= <-]. Qed.

Lemma ordinary_buffered v : ordinary (_should_buffer_streaming_tool_args v).
Proof. intros e. unfold _should_buffer_streaming_tool_args, check_hashable. by destruct (hashable v); intros [= <-]. Qed.

Create HintDb ordinary.

Section Calm.

(** Whether what arrives has a cancellation or an interrupt in it. *)
Context (interrupted : Prop).

Definition calm_end {A} (c : conv) (out : list (event * conv)) (r : A + ending) : Prop :=
  match r with
  | inl _ => Forall clean out /\ stream_failed c = false
  | inr Cancelled => Forall clean out /\ stream_failed c = false /\ interrupted
  | inr (Raised e) => Forall clean out /\ (is_exception (exn_cls e) = true \/ stream_failed c = false /\ interrupted)
  | inr Returned => stream_failed c = true /\
      exists out0 e c1, out = out0 ++ [(e, c1)] /\ Forall clean out0 /\ is_error e = true /\ stream_failed c1 = true
  end.

Definition calm {A} (m : G A) : Prop :=
  forall c, stream_failed c = false -> match m c with (c', out, r) => calm_end c' out r end.

Lemma calm_ret {A} (a : A) : calm (mret a).
Proof. intros c Hc. by split. Qed.

Lemma calm_vars : calm vars.
Proof. intros c Hc. by split. Qed.

Lemma calm_raise {A} e : is_exception (exn_cls e) = true \/ interrupted -> calm (stop (Raised e) : G A).
Proof. intros He c Hc. split; [done|]. destruct He; auto. Qed.

Lemma calm_cancel {A} : interrupted -> calm (stop Cancelled : G A).
Proof. intros Hi c Hc. by split. Qed.

Lemma calm_liftG {A} (r : res A) : ordinary r -> calm (liftG r).
Proof. destruct r as [a|e]; intros Hr; [apply calm_ret|apply calm_raise]. left. by apply Hr. Qed.

Lemma calm_assign f : (forall c, stream_failed (f c) = stream_failed c) -> calm (assign f).
Proof. intros Hf c Hc. split; [done|]. by rewrite Hf. Qed.

Lemma calm_yield e : is_error e = false -> calm (yield e).
Proof. intros He c Hc. split; [by repeat constructor|done]. Qed.

Lemma calm_bind {A B} (m : G A) (f : A -> G B) : calm m -> (forall a, calm (f a)) -> calm (m ≫= f).
Proof.
  intros Hm Hf c Hc. unfold mbind, G_bind. specialize (Hm c Hc). destruct (m c) as [[c1 out1] [a|e]]; [|by destruct e].
  destruct Hm as [Hout1 Hc1]. specialize (Hf a c1 Hc1). destruct (f a c1) as [[c2 out2] [b|[e| |]]]; simpl in *.
  - destruct Hf. by split; [apply Forall_app|].
  - destruct Hf. by split; [apply Forall_app|].
  - destruct Hf. by split; [apply Forall_app|].
  - destruct Hf as (? & out0 & e & c3 & -> & ? & ? & ?). split; [done|]. exists (out1 ++ out0), e, c3.
    split_and!; [by rewrite app_assoc|by apply Forall_app|done..].
Qed.

Lemma calm_when (b : bool) m : calm m -> calm (when b m).
Proof. destruct b; [done|intros _; apply calm_ret]. Qed.

Lemma calm_yield_all l : Forall (fun e => is_error e = false) l -> calm (yield_all l).
Proof. induction 1; simpl; [apply calm_ret|]. apply calm_bind; [by apply calm_yield|done]. Qed.

Lemma close_events_clean c : Forall (fun e => is_error e = false) (_build_tool_block_close_events c).
Proof.
  unfold _build_tool_block_close_events. induction (sort_tools _) as [|p l IH]; cbn [fmap list_fmap mjoin list_join]; [done|].
  rewrite !Forall_app. split_and!; [|by repeat constructor|done]. destruct (ti_buffer_args (snd p)); [|done].
  unfold _build_sanitized_args_delta. by repeat case_match; repeat constructor.
Qed.

#[local] Hint Resolve ordinary_mapping ordinary_hashable ordinary_gt0 ordinary_stop_reason ordinary_buffered : ordinary.

Ltac calm_step :=
  lazymatch goal with
  | |- calm (mret _) => apply calm_ret
  | |- calm vars => apply calm_vars
  | |- calm (liftG _) => apply calm_liftG; auto with ordinary
  | |- calm (assign _) => by apply calm_assign
  | |- calm (yield _) => by apply calm_yield
  | |- calm (yield_all (_build_tool_block_close_events _)) => apply calm_yield_all, close_events_clean
  | |- calm (when _ _) => apply calm_when
  | |- calm (mbind _ _) => apply calm_bind; [|intros ?]
  | |- calm (match ?x with _ => _ end) => destruct x
  end; cbv beta zeta.
Ltac calm_auto := repeat (calm_step || assumption).

Lemma calm_text_chunk s : calm (text_chunk s).
Proof. unfold text_chunk. calm_auto. Qed.

Lemma calm_append_args key args : calm (append_args key args).
Proof. unfold append_args. calm_auto. destruct args; by intros ? [= <-]. Qed.

Lemma calm_tool_delta tc : calm (tool_delta tc).
Proof. unfold tool_delta, start_tool. cbv zeta. calm_auto; apply calm_append_args. Qed.

Lemma calm_tool_deltas l : calm (tool_deltas l).
Proof. induction l as [|[] l IH]; simpl; calm_auto; apply calm_tool_delta. Qed.

Lemma calm_process_choice choice : calm (process_choice choice).
Proof. unfold process_choice, tool_chunk. calm_auto; (apply calm_text_chunk || apply calm_tool_deltas). Qed.

Lemma calm_error_chunk error : calm (error_chunk error).
Proof.
  intros c Hc. unfold error_chunk, mbind, G_bind, assign. destruct error; try (split; [done|by left]).
  split; [done|]. by eexists [], _, _.
Qed.

Lemma calm_process_chunk v : calm (process_chunk v).
Proof. unfold process_chunk, record_usage. calm_auto; (apply calm_error_chunk || apply calm_process_choice). Qed.

Lemma calm_stream_loop l : interrupted \/ Forall uninterrupted l -> calm (stream_loop l).
Proof.
  induction l as [|a l IH]; intros Hl; cbn [stream_loop]; [apply calm_ret|]. rewrite Forall_cons in Hl.
  destruct a as [v|e|]; [|apply calm_raise; simpl in *; tauto|apply calm_cancel; simpl in *; tauto].
  apply calm_bind; [apply calm_process_chunk|]. intros []; [apply calm_ret|]. apply IH. tauto.
Qed.

Lemma calm_run l : interrupted \/ Forall uninterrupted l -> calm (_ ← stream_loop l; finish_stream).
Proof. intros Hl. apply calm_bind; [by apply calm_stream_loop|intros _]. unfold finish_stream. calm_auto. Qed.
End Calm.

(** ** The protocol *)

(** A client after [message_start] and [ping]. *)
Definition client_ready : client := {| cl_phase := Streaming; cl_blocks := []; open_text := None; open_tools := [] |}.

Lemma tracks_init : tracks conv_init client_ready [].
Proof. apply (tracks_idle conv_init []); [by constructor|done..]. Qed.

(** All blocks are closed and the message has ended. *)
Definition complete_message (cl : client) : Prop := cl_phase cl = Stopped /\ open_text cl = None /\ open_tools cl = [].

Lemma body_safe arrivals :
  gwp (_ ← stream_loop arrivals; finish_stream) (fun r c cl =>
    match r with
    | inl _ => complete_message cl
    | inr (Raised _) => cl_phase cl = Streaming
    | inr Returned => cl_phase cl = Failed
    | inr Cancelled => True
    end) conv_init client_ready.
Proof.
  gstep. eapply gwp_mono; [eapply stream_loop_safe, tracks_init|]. intros [[]|e] c cl Hg; [|by destruct e].
  destruct Hg as [bs H]. eapply gwp_mono; [by eapply finish_stream_tracks|]. intros r c' cl' [(-> & ->)|[Hab _]]; [done|].
  by destruct r as [|[]].
Qed.

Lemma receive_take n cl l cl' : receive_all cl l = Some cl' -> exists cl1, receive_all cl (take n l) = Some cl1.
Proof. intros H. rewrite <- (take_drop n l), receive_all_app in H. destruct (receive_all cl (take n l)); [eauto|done]. Qed.

(** The flag of a completion is set exactly when an error event went out before it. *)
Definition flagged (failed : bool) (events : list event) : Prop := failed = existsb is_error events.

Lemma clean_no_error out : Forall clean out -> existsb is_error out.*1 = false.
Proof. induction 1 as [|p out [Hp _] _ IH]; simpl; [done|]. by rewrite Hp. Qed.

Lemma fst_completions (f : conv -> completion) (out : list (event * conv)) : (prod_map id f <$> out).*1 = out.*1.
Proof. rewrite <- list_fmap_compose. by apply list_fmap_ext. Qed.

(** How a whole run leaves the client, and what it reports. *)
Lemma run_protocol arrivals :
  let '(events, done) := run_stream arrivals in
  exists cl, receive_all client_ready events.*1 = Some cl /\ flagged (c_failed done) events.*1 /\
    (Forall uninterrupted arrivals -> if c_failed done then cl_phase cl = Failed \/ cl_phase cl = Stopped else complete_message cl).
Proof.
  pose proof (body_safe arrivals) as Hsafe. unfold gwp in Hsafe.
  assert (forall P, P \/ Forall uninterrupted arrivals -> match (_ ← stream_loop arrivals; finish_stream : G unit) conv_init with
    (c, out, r) => calm_end P c out r end) as Hcalm by (intros P HP; by apply calm_run).
  unfold run_stream. destruct ((_ ← stream_loop arrivals; finish_stream : G unit) conv_init) as [[c out] r].
  destruct Hsafe as (cl & Hrec & Hcl). pose proof (Hcalm True (or_introl I)) as Hend.
  assert (Forall uninterrupted arrivals -> calm_end False c out r) as Hun by (intros Hu; apply Hcalm; by right). clear Hcalm.
  destruct r as [u|[e| |]]; simpl in Hend, Hun.
  - destruct Hend as [Hout Hc]. exists cl. rewrite fst_completions. split_and!; [done| |by simpl; rewrite Hc].
    unfold flagged. simpl. by rewrite Hc, clean_no_error.
  - destruct Hend as [Hout Hc]. destruct (is_exception (exn_cls e)) eqn:He.
    + exists {| cl_phase := Stopped; cl_blocks := cl_blocks cl; open_text := open_text cl; open_tools := open_tools cl |}.
      rewrite fmap_app, fst_completions, receive_all_app, Hrec. cbn [mbind option_bind]. split_and!; [|unfold flagged; rewrite existsb_app; simpl; by rewrite orb_true_r|by intros _; right].
      cbn [fmap list_fmap fst]. rewrite receive_all_cons. unfold receive at 1. by rewrite Hcl.
    + exists cl. rewrite fst_completions. destruct Hc as [|[Hc _]]; [done|]. split_and!; [done|unfold flagged; simpl; by rewrite Hc, clean_no_error|].
      intros Hu. destruct (Hun Hu) as [_ [|[_ []]]]; done.
  - destruct Hend as (Hout & Hc & _). exists cl. rewrite fst_completions. split_and!; [done|unfold flagged; simpl; by rewrite Hc, clean_no_error|].
    intros Hu. by destruct (Hun Hu) as (_ & _ & []).
  - destruct Hend as (Hc & out0 & e & c1 & -> & _ & He & _). exists cl. rewrite fst_completions. split_and!; [done| |by simpl; rewrite Hc; intros _; left].
    unfold flagged. simpl. rewrite Hc, fmap_app, existsb_app. simpl. by rewrite He, orb_true_r.
Qed.

(** The completions along a run: false before the first error event, true from it on. *)
Lemma flags_clean (f : conv -> completion) out n d rest : (forall c, c_failed (f c) = stream_failed c) -> Forall clean out ->
  (n < length out)%nat -> snd <$> ((prod_map id f <$> out) ++ rest) !! n = Some d -> flagged (c_failed d) (take (S n) (out.*1 ++ rest.*1)).
Proof.
  intros Hf Hout Hn. rewrite lookup_app_l by (by rewrite length_fmap). rewrite take_app_le by (rewrite length_fmap; lia).
  rewrite list_lookup_fmap. destruct (out !! n) as [[e c]|] eqn:He; [|done]. intros [= <-]. simpl. rewrite Hf.
  pose proof (proj1 (Forall_lookup _ _) Hout n _ He) as [_ Hc]. simpl in Hc. unfold flagged. rewrite Hc.
  rewrite <- fmap_take, clean_no_error; [done|]. by apply Forall_take.
Qed.

Lemma flags_last (out : list event) (e : event) n : is_error e = true -> (length out <= n)%nat -> flagged true (take (S n) (out ++ [e])).
Proof.
  intros He Hn. unfold flagged. rewrite take_ge by (rewrite length_app; simpl; lia). by rewrite existsb_app; simpl; rewrite He, orb_true_r.
Qed.

Lemma run_snapshots arrivals n :
  let '(events, _) := run_stream arrivals in
  forall d, snd <$> events !! n = Some d -> flagged (c_failed d) (take (S n) events.*1).
Proof.
  pose proof (calm_run True arrivals (or_introl I) conv_init eq_refl) as Hend.
  unfold run_stream. destruct ((_ ← stream_loop arrivals; finish_stream : G unit) conv_init) as [[c out] r].
  assert (forall out, Forall clean out -> forall d, snd <$> (prod_map id (complete true) <$> out) !! n = Some d ->
    flagged (c_failed d) (take (S n) (prod_map id (complete true) <$> out).*1)) as Htried.
  { intros out' Hout d Hd. rewrite fst_completions. destruct (decide (n < length out')%nat) as [Hn|Hn].
    - rewrite <- (app_nil_r out'.*1). apply (flags_clean (complete true) out' n d []); [done..|]. by rewrite app_nil_r.
    - rewrite lookup_ge_None_2 in Hd by (rewrite length_fmap; lia). done. }
  destruct r as [u|[e| |]]; simpl in Hend; [apply Htried, Hend| |apply Htried, Hend|].
  - destruct Hend as [Hout _]. destruct (is_exception _); [|by apply Htried]. intros d Hd. rewrite fmap_app, fst_completions.
    destruct (decide (n < length out)%nat) as [Hn|Hn]; [by eapply (flags_clean (complete true))|].
    rewrite lookup_app_r in Hd by (rewrite length_fmap; lia). cbn [fmap list_fmap fst].
    assert (c_failed d = true) as ->.
    { destruct (n - length (prod_map id (complete true) <$> out))%nat as [|[|k]]; simpl in Hd; by simplify_eq. }
    unfold flagged. rewrite take_app_ge by (rewrite length_fmap; lia). rewrite existsb_app, length_fmap, Nat.sub_succ_l by lia. simpl.
    by rewrite orb_true_r.
  - destruct Hend as (_ & out0 & e & c1 & -> & Hout & He & Hc1). intros d Hd. rewrite fst_completions, fmap_app.
    rewrite fmap_app in Hd. destruct (decide (n < length out0)%nat) as [Hn|Hn]; [by eapply (flags_clean (complete true) _ _ _ [(e, complete true c1)])|].
    rewrite lookup_app_r in Hd by (rewrite length_fmap; lia).
    assert (c_failed d = true) as ->.
    { destruct (n - length (prod_map id (complete true) <$> out0))%nat as [|k]; simpl in Hd; by simplify_eq. }
    apply flags_last; [done|]. rewrite length_fmap. lia.
Qed.

Lemma receive_start id model l :
  receive_all client_init ([MessageStart id model; Ping] ++ l) = receive_all client_ready l.
Proof. by rewrite receive_all_app. Qed.

(** A run that ends by itself is reported as a success. *)
Lemma run_complete message_id model arrivals (P : client -> Prop) :
  gwp (_ ← stream_loop arrivals; finish_stream) (fun r c cl => r = inl tt /\ P cl) conv_init client_ready ->
  let '(events, done) := convert_openai_to_anthropic_sse message_id model arrivals None in
  exists cl d, receive_all client_init events = Some cl /\ P cl /\ done = Some d /\ c_failed d = false.
Proof.
  unfold gwp, convert_openai_to_anthropic_sse, run_stream.
  pose proof (calm_run True arrivals (or_introl I) conv_init eq_refl) as Hend.
  destruct ((_ ← stream_loop arrivals; finish_stream : G unit) conv_init) as [[c out] r]. intros (cl & Hrec & -> & HP).
  destruct Hend as [_ Hc]. rewrite fst_completions. exists cl, (complete false c).
  split; [rewrite <- Hrec; apply receive_start|]. by split_and!.
Qed.

(** C6: Whatever JSON the upstream sends and however it fails, and whenever the client stops
    reading, the events it gets follow the protocol: [message_start] and [ping]; blocks that
    start at consecutive indices, text blocks alone and tool blocks side by side, with deltas
    of the block's kind and stops for open blocks only; the stop reason only when all blocks
    are closed; nothing after [message_stop]. A client that reads to the end has a complete
    message, or an error event. *)
Theorem stream_protocol (message_id model : string) (arrivals : list arrival) (reads : option nat) :
  let '(events, done) := convert_openai_to_anthropic_sse message_id model arrivals reads in
  exists cl, receive_all client_init events = Some cl /\
    (reads = None -> Forall uninterrupted arrivals ->
     complete_message cl \/ existsb is_error events = true /\ (cl_phase cl = Failed \/ cl_phase cl = Stopped)).
Proof.
  unfold convert_openai_to_anthropic_sse. pose proof (run_protocol arrivals) as Hrun.
  destruct (run_stream arrivals) as [events done]. destruct Hrun as (cl & Hrec & Hflag & Hend).
  rewrite <- receive_start with (id := message_id) (model := model) in Hrec.
  assert (Forall uninterrupted arrivals -> complete_message cl \/
    existsb is_error ([MessageStart message_id model; Ping] ++ events.*1) = true /\ (cl_phase cl = Failed \/ cl_phase cl = Stopped)) as Hall.
  { intros Hu. specialize (Hend Hu). unfold flagged in Hflag. rewrite existsb_app. cbn [existsb is_error orb].
    rewrite <- Hflag. destruct (c_failed done); auto. }
  destruct reads as [n|]; [|by exists cl]. destruct (_ <? n)%nat; [by exists cl|].
  destruct (receive_take n _ _ _ Hrec) as [cl1 H1]. by exists cl1.
Qed.

(** C33: [on_complete] is called once the stream has begun: a client that takes more than the two
    opening events, to the end or not, is reported with exactly the failure it saw, an error
    event. A client that leaves at the opening events is not reported. *)
Theorem completion_reported (message_id model : string) (arrivals : list arrival) (reads : option nat) :
  let '(events, done) := convert_openai_to_anthropic_sse message_id model arrivals reads in
  let left_early := match reads with Some n => (n <=? 2)%nat | None => false end in
  if left_early then done = None else exists d, done = Some d /\ c_failed d = existsb is_error events.
Proof.
  unfold convert_openai_to_anthropic_sse. pose proof (run_protocol arrivals) as Hrun. pose proof (run_snapshots arrivals) as Hsnap.
  destruct (run_stream arrivals) as [events done]. destruct Hrun as (_ & _ & Hflag & _). cbn [app].
  set (all := MessageStart message_id model :: Ping :: events.*1).
  assert (exists d, Some done = Some d /\ c_failed d = existsb is_error all) as Hdone by (exists done; by split).
  destruct reads as [n|]; [|done]. destruct (Nat.ltb_spec (length all) n) as [Hn|Hn].
  { destruct (Nat.leb_spec n 2); [unfold all in *; cbn [length] in *; lia|done]. }
  destruct (Nat.leb_spec n 2) as [Hle|Hlt]; [done|].
  unfold all in Hn. cbn [length] in Hn. rewrite length_fmap in Hn.
  destruct (events !! (n - 3)%nat) as [[e d]|] eqn:He; [|apply lookup_ge_None in He; lia].
  exists d. split; [done|]. specialize (Hsnap (n - 3)%nat d). rewrite He in Hsnap. rewrite (Hsnap eq_refl).
  unfold all. replace n with (S (S (S (n - 3))))%nat at 2 by lia. done.
Qed.

End Tools.

(** ** Concrete streams *)

Module StreamSample.

(** One JSON text: the arguments of a [Read] with a page range. *)
Definition loads (s : string) : option value :=
  if String.eqb s "args" then Some (VDict [("file_path", VStr "a.py"); ("pages", VStr "1")]) else None.
Definition dumps (d : dict) : string := if dhas "pages" d then "args" else "args without pages".

Definition convert := convert_openai_to_anthropic_sse loads dumps "msg" "claude".

Definition chunk (delta : dict) (finish_reason : value) : arrival :=
  Chunk (VDict [("choices", VList [VDict [("delta", VDict delta); ("finish_reason", finish_reason)]])]).
Definition text (s : string) : arrival := chunk [("content", VStr s)] VNone.
Definition call (index : Z) (id name : value) (args : string) : arrival :=
  chunk [("tool_calls", VList [VDict [("index", VInt index); ("id", id);
          ("function", VDict [("name", name); ("arguments", VStr args)])]])] VNone.
Definition finish : arrival := chunk [] (VStr "tool_calls").

(** Text, then two calls side by side; the arguments of [Read] are held back. *)
Definition two_calls : list arrival :=
  [text "Hel"; text "lo"; call 0 (VStr "t0") (VStr "Read") "ar"; call 1 (VStr "t1") (VStr "Bash") "ls"; call 0 VNone VNone "gs"; finish].

Example two_calls_events : fst (convert two_calls None) =
  [MessageStart "msg" "claude"; Ping; ContentBlockStart 0 TextBlock; ContentBlockDelta 0 (TextDelta "Hel");
   ContentBlockDelta 0 (TextDelta "lo"); ContentBlockStop 0; ContentBlockStart 1 (ToolUseBlock (VStr "t0") (VStr "Read"));
   ContentBlockStart 2 (ToolUseBlock (VStr "t1") (VStr "Bash")); ContentBlockDelta 2 (InputJsonDelta "ls");
   ContentBlockDelta 1 (InputJsonDelta "args without pages"); ContentBlockStop 1; ContentBlockStop 2;
   MessageDelta (Some "tool_use") None; MessageStop].
Proof. vm_compute. reflexivity. Qed.

(** A malformed fragment after a block has started: an error event and [message_stop]. *)
Lemma stream_protocol_witness :
  let '(events, _) := convert [call 0 (VStr "t0") (VStr "Bash") "l"; Chunk (VDict [("usage", VDict [("prompt_tokens", VNone)])])] None in
  (exists cl, receive_all client_init events = Some cl) /\ existsb is_error events = true.
Proof.
  pose proof (stream_protocol loads dumps "msg" "claude"
    [call 0 (VStr "t0") (VStr "Bash") "l"; Chunk (VDict [("usage", VDict [("prompt_tokens", VNone)])])] None) as H.
  unfold convert. destruct (convert_openai_to_anthropic_sse _ _ _ _ _ None) as [events done] eqn:Hrun.
  destruct H as (cl & Hcl & _). split; [by exists cl|]. vm_compute in Hrun. injection Hrun as <- _. reflexivity.
Defined.

(** A client that leaves in the middle is reported; one that leaves at the [ping] is not. *)
Lemma completion_reported_witness :
  (exists d, snd (convert two_calls (Some 4%nat)) = Some d /\ c_failed d = false) /\ snd (convert two_calls (Some 2%nat)) = None.
Proof.
  pose proof (completion_reported loads dumps "msg" "claude" two_calls (Some 4%nat)) as H4.
  pose proof (completion_reported loads dumps "msg" "claude" two_calls (Some 2%nat)) as H2.
  unfold convert. destruct (convert_openai_to_anthropic_sse _ _ _ _ _ (Some 4%nat)) as [events4 done4] eqn:H.
  destruct (convert_openai_to_anthropic_sse _ _ _ _ _ (Some 2%nat)) as [events2 done2]. split; [|exact H2].
  destruct H4 as (d & Hd & Hf). exists d. split; [exact Hd|]. rewrite Hf. vm_compute in H. injection H as <- _. reflexivity.
Defined.

(** The name comes in a later delta that does not repeat the id: the call never starts. *)
Example name_without_id : fst (convert [call 0 (VStr "t0") VNone ""; call 0 VNone (VStr "Bash") "ls"; finish] None) =
  [MessageStart "msg" "claude"; Ping; MessageDelta (Some "tool_use") None; MessageStop].
Proof. vm_compute. reflexivity. Qed.

(** Arguments that come with the id, before the name, are dropped. *)
Example early_arguments : fst (convert [call 0 (VStr "t0") VNone "l"; call 0 (VStr "t0") (VStr "Bash") "s"; finish] None) =
  [MessageStart "msg" "claude"; Ping; ContentBlockStart 0 (ToolUseBlock (VStr "t0") (VStr "Bash"));
   ContentBlockDelta 0 (InputJsonDelta "s"); ContentBlockStop 0; MessageDelta (Some "tool_use") None; MessageStop].
Proof. vm_compute. reflexivity. Qed.

(** An error chunk ends the stream without [message_stop]. *)
Example error_chunk_no_stop :
  fst (convert [Chunk (VDict [("error", VDict [("type", VStr "api_error"); ("message", VStr "m")])])] None) =
  [MessageStart "msg" "claude"; Ping; ErrorEvent (VStr "api_error") (VStr "m")].
Proof. vm_compute. reflexivity. Qed.

End StreamSample.
