(* ===== verification/StreamAdapter.v ===== *)
(** * StreamAdapter: model events to OpenAI chunks, and to the client

    [src/forge/proxy/client_adapter.py] ([create_streaming_completion], from the model
    client's events on) and the generator around it in [src/forge/proxy/server.py]: each event
    becomes at most two chunks, an error event the error chunk. Composed with
    StreamConverter.v, this is the path from a model's stream to the blocks a client shows. *)

From S2P Require Import Prelude PyValue PyFloat StreamConverter.
From Stdlib Require Import SpecFloat.

(** ** Events of a model client *)

(** [core/llm/types.py]. *)
Record ToolCallDelta := {
  td_index : option Z;
  td_id : option string;
  td_name : option string;
  td_arguments_json : string }.

Inductive event_body :=
| text_delta (text : option string)
| tool_call_delta (d : option ToolCallDelta)
| usage (counts : option (list (string * Z))) (cost_usd : option spec_float)
| response_end (finish_reason : option string)
| error (message : option string).

(** An event with the provider metadata it carries. *)
Record StreamEvent := {
  ev_body : event_body;
  ev_provider_meta : option dict }.

(** What the adapter waits for; [now] is the clock when it handles the event. *)
Inductive upstream :=
| Event (now : Z) (e : StreamEvent)
| Breaks (e : pyexn)
| Abandoned.

(** [round(x)] on a float. *)
Definition py_round_int (x : spec_float) : res Z :=
  match x with
  | S754_zero _ => Ok 0
  | S754_infinity _ => raise OverflowError "cannot convert float infinity to integer"
  | S754_nan => raise ValueError "cannot convert float NaN to integer"
  | S754_finite s m e =>
      let z := if 0 <=? e then Zpos m * 2 ^ e else div_half_even (Zpos m) (2 ^ (- e)) in
      Ok (if s then - z else z)
  end.

(** ** The adapter *)

Section Adapter.
Context (response_id model_name request_id : string).

(** The fields all chunks have. *)
Definition chunk_head (now : Z) : dict :=
  [("id", VStr response_id); ("object", VStr "chat.completion.chunk"); ("created", VInt now); ("model", VStr model_name)].

Definition opt_value (o : option string) : value := match o with Some s => VStr s | None => VNone end.

(** A chunk with one choice. *)
Definition choice_chunk (now : Z) (delta : dict) (finish_reason : value) : value :=
  VDict (chunk_head now ++ [("choices", VList [VDict [("index", VInt 0); ("delta", VDict delta); ("finish_reason", finish_reason)]])]).

Definition tool_call_chunk (now i : Z) (d : ToolCallDelta) : value :=
  choice_chunk now
    [("tool_calls", VList [VDict
       [("index", VInt i); ("id", opt_value (td_id d));
        ("type", match td_id d with Some (String _ _) => VStr "function" | _ => VNone end);
        ("function", VDict [("name", opt_value (td_name d)); ("arguments", VStr (td_arguments_json d))])]])] VNone.

(** [event.usage.get(key, 0) if event.usage else 0]. *)
Definition count_of (key : string) (counts : option (list (string * Z))) : value :=
  VInt match counts with Some c => dget_default key 0 c | None => 0 end.

Definition usage_dict (counts : option (list (string * Z))) (cost_micros : option Z) : dict :=
  [("prompt_tokens", count_of "prompt_tokens" counts); ("completion_tokens", count_of "completion_tokens" counts);
   ("total_tokens", count_of "total_tokens" counts); ("cached_tokens", count_of "cached_tokens" counts);
   ("cache_write_tokens", count_of "cache_write_tokens" counts)] ++
  match cost_micros with Some m => [("reported_cost_micros", VInt m)] | None => [] end.

Definition usage_chunk (now : Z) (counts : option (list (string * Z))) (cost_micros : option Z) : value :=
  VDict (chunk_head now ++ [("choices", VList []); ("usage", VDict (usage_dict counts cost_micros))]).

(** What the adapter remembers: whether the metadata went out, and the tool calls. *)
Record adapter := {
  provider_meta_carried : bool;
  accumulated_tool_calls : list Z }.

(** The class of an error, from its text. *)
Definition error_type_of (message : string) : string :=
  let lower := lower_str message in
  if contains "authentication" lower || contains "unauthorized" lower then "authentication_error"
  else if contains "rate limit" lower || contains "rate_limit" lower then "rate_limit_error"
  else if contains "invalid" lower || contains "bad request" lower then "invalid_request_error"
  else "api_error".

(** [ProxyStreamError.ERROR_STATUS_MAP]. *)
Definition ERROR_STATUS_MAP : list (string * Z) :=
  [("authentication_error", 401); ("rate_limit_error", 429); ("invalid_request_error", 400);
   ("permission_error", 403); ("not_found_error", 404); ("api_error", 500)].

(** The chunk [stream_generator] makes of a [ProxyStreamError]. *)
Definition stream_error_chunk (error_type : string) : value :=
  VDict [("error", VDict [("type", VStr error_type); ("message", VStr ("Streaming request failed [" +++ request_id +++ "]"));
                          ("status_code", VInt (dget_default error_type 500 ERROR_STATUS_MAP))])].

(** [event.finish_reason or ("tool_calls" if accumulated_tool_calls else "stop")]. *)
Definition end_reason (finish_reason : option string) (calls : list Z) : string :=
  match finish_reason with
  | Some (String _ _ as r) => r
  | _ => if bool_decide (calls = []) then "stop" else "tool_calls"
  end.

(** The chunks of an event's body, and whether the stream goes on; the usage's cost is
    rounded, which can fail. *)
Definition body_chunks (now : Z) (calls : list Z) (b : event_body) : res (list value * list Z * bool) :=
  match b with
  | text_delta text => Ok ([choice_chunk now [("content", opt_value text)] VNone], calls, true)
  | tool_call_delta (Some d) =>
      match td_index d with
      | Some i => Ok ([tool_call_chunk now i d], if bool_decide (i ∈ calls) then calls else calls ++ [i], true)
      | None => Ok ([], calls, true)
      end
  | tool_call_delta None => Ok ([], calls, true)
  | usage counts cost =>
      micros ← (match cost with
                | Some x => z ← py_round_int (float_mul x (float_of_Z 1000000)); Ok (Some z)
                | None => Ok None
                end : res (option Z));
      Ok ([usage_chunk now counts micros], calls, true)
  | response_end finish_reason =>
      Ok ([choice_chunk now [] (VStr (end_reason finish_reason calls))], calls, true)
  | error message =>
      let text := match message with Some (String _ _ as m) => m | _ => "Unknown streaming error" end in
      Ok ([stream_error_chunk (error_type_of text)], calls, false)
  end.

(** [create_streaming_completion] inside [stream_generator]. *)
Fixpoint stream_generator (a : adapter) (events : list upstream) : list arrival :=
  match events with
  | [] => []
  | Breaks e :: _ => [Fails e]
  | Abandoned :: _ => [Cancel]
  | Event now e :: events =>
      let carrier := match ev_provider_meta e with
                     | Some meta =>
                         if provider_meta_carried a then []
                         else [Chunk (VDict (chunk_head now ++ [("choices", VList []); ("_provider_meta", VDict meta)]))]
                     | None => []
                     end in
      let carried := provider_meta_carried a || bool_decide (ev_provider_meta e <> None) in
      carrier ++
      match body_chunks now (accumulated_tool_calls a) (ev_body e) with
      | Err e => [Fails e]
      | Ok (chunks, calls, more) =>
          (Chunk <$> chunks) ++
          if more : bool then stream_generator {| provider_meta_carried := carried; accumulated_tool_calls := calls |} events
          else []
      end
  end.

End Adapter.

(** ** What the client should see *)

(** The blocks of a stream: consecutive text is one block; a tool call is named by its index
    from its first delta until text comes. *)
Record assembly := {
  as_blocks : list block;
  as_text : bool;
  as_calls : list (Z * nat) }.

Definition assembly_init : assembly := {| as_blocks := []; as_text := false; as_calls := [] |}.

Definition call_block (i : Z) (a : assembly) : option nat := snd <$> List.find (fun p => fst p =? i) (as_calls a).

Definition assemble_text (text : string) (a : assembly) : assembly :=
  {| as_blocks := if as_text a then alter (add_fragment (TextDelta text)) (pred (length (as_blocks a))) (as_blocks a)
                  else as_blocks a ++ [BText text];
     as_text := true; as_calls := [] |}.

Definition assemble_call (i : Z) (d : ToolCallDelta) (a : assembly) : assembly :=
  match call_block i a, td_id d, td_name d with
  | Some n, _, _ =>
      {| as_blocks := alter (add_fragment (InputJsonDelta (td_arguments_json d))) n (as_blocks a);
         as_text := false; as_calls := as_calls a |}
  | None, Some (String _ _ as id), Some (String _ _ as name) =>
      {| as_blocks := as_blocks a ++ [BToolUse (VStr id) (VStr name) (td_arguments_json d)];
         as_text := false; as_calls := as_calls a ++ [(i, length (as_blocks a))] |}
  | None, _, _ => {| as_blocks := as_blocks a; as_text := false; as_calls := as_calls a |}
  end.

Definition assemble (a : assembly) (b : event_body) : assembly :=
  match b with
  | text_delta (Some (String _ _ as text)) => assemble_text text a
  | tool_call_delta (Some d) => match td_index d with Some i => assemble_call i d a | None => a end
  | _ => a
  end.

Definition expected_blocks (bodies : list event_body) : list block := as_blocks (foldl assemble assembly_init bodies).

(** ** Lemmas: the chunks of the adapter *)

Section EndToEnd.
Context (json_loads : string -> option value) (json_dumps : dict -> string).
Context (response_id model_name request_id : string).

Lemma gwp_choice now delta finish Q c cl :
  gwp (_ ← match dgetv "content" delta with
           | VStr text => when (negb (String.eqb text "")) (text_chunk json_loads json_dumps text)
           | _ => mret tt
           end;
       _ ← match dgetv "tool_calls" delta with
           | VList ((_ :: _) as calls) => tool_chunk calls
           | _ => mret tt
           end;
       if truthy finish then reason ← liftG (map_stop_reason finish); _ ← assign (set_stop_reason reason); mret true
       else mret false) Q c cl ->
  gwp (process_chunk json_loads json_dumps (choice_chunk response_id model_name now delta finish)) Q c cl.
Proof.
  intros H. unfold process_chunk, choice_chunk.
  change (dgetv "_provider_meta" _) with VNone. cbv iota.
  change (dget "error" _) with (@None value). cbv iota. change (dgetv "usage" _) with VNone. cbv iota. gstep. gstep.
  change (dget_default "choices" (VList []) _) with (VList [VDict [("index", VInt 0); ("delta", VDict delta); ("finish_reason", finish)]]).
  cbv iota. unfold process_choice. gstep.
  replace (as_mapping _) with (Ok delta : res dict) by by destruct delta. cbn [liftG]. gstep. exact H.
Qed.

(** The counts of a chunk are ints, and stay so. *)
Definition counted (c : conv) : Prop :=
  exists i o, dget "input_tokens" (final_usage c) = Some (VInt i) /\ dget "output_tokens" (final_usage c) = Some (VInt o).

(** The buffer holds the calls of the assembly, by index and block. *)
Definition same_call (p : value * tool_info) (q : Z * nat) : Prop :=
  fst p = VInt (fst q) /\ ti_block_idx (snd p) = Some (Z.of_nat (snd q)).

Record agrees (a : assembly) (c : conv) (cl : client) : Prop := {
  ag_tracks : tracks json_loads json_dumps c cl (as_blocks a);
  ag_text : text_started c = as_text a;
  ag_calls : Forall2 same_call (tool_calls_buffer c) (as_calls a);
  ag_counted : counted c }.

Lemma same_call_get buffer calls i : Forall2 same_call buffer calls ->
  match snd <$> List.find (fun p => fst p =? i) calls with
  | Some n => exists info, tool_get (VInt i) buffer = Some info /\ ti_block_idx info = Some (Z.of_nat n)
  | None => tool_get (VInt i) buffer = None
  end.
Proof.
  induction 1 as [|[k info] [j n] buffer calls [Hk Hi] H IH]; simpl; [done|]. simpl in *. subst k. simpl.
  destruct (j =? i); [by exists info|done].
Qed.

Lemma same_call_set buffer calls i info n : Forall2 same_call buffer calls ->
  snd <$> List.find (fun p => fst p =? i) calls = Some n -> ti_block_idx info = Some (Z.of_nat n) ->
  Forall2 same_call (tool_set (VInt i) info buffer) calls.
Proof.
  induction 1 as [|[k old] [j m] buffer calls [Hk Hi] H IH]; simpl; [done|]. simpl in *. subst k. simpl.
  destruct (j =? i); [intros [= ->] Hinfo; by constructor|intros Hf Hinfo; constructor; auto; by split].
Qed.

(** Without pending entries, an idle generator has an empty buffer. *)
Lemma no_started_no_calls buffer calls : Forall2 same_call buffer calls -> started_tools buffer = [] -> buffer = [].
Proof.
  destruct 1 as [|[k info] [j n] buffer calls [_ Hi] H]; [done|]. unfold started_tools. simpl in *. by rewrite Hi.
Qed.

Lemma agrees_text text a c cl : agrees a c cl -> text <> "" ->
  gwp (text_chunk json_loads json_dumps text) (fun r c' cl' => r = inl tt /\ agrees (assemble_text text a) c' cl') c cl.
Proof.
  intros [Htr Hst Hcalls Hcount] Hne. eapply gwp_mono; [by apply text_chunk_tracks|].
  intros r c' cl' (-> & Htr' & Hst' & Hb & Hu). split; [done|]. split; [|done| |by unfold counted; rewrite Hu].
  - unfold arrive_text, push_text in Htr'. unfold assemble_text. cbn [as_blocks]. rewrite <- Hst. destruct (text_started c); [done|].
    rewrite length_app in Htr'. cbn [length] in Htr'. replace (pred (length (as_blocks a) + 1)) with (length (as_blocks a)) in Htr' by lia.
    rewrite alter_app_r_alt in Htr' by lia. rewrite Nat.sub_diag in Htr'. done.
  - pose proof (tr_current _ _ _ _ _ Htr) as Hcur. rewrite Hb. cbn [as_calls assemble_text].
    destruct (current_block_type c) as [[]|]; [|constructor|].
    + destruct Hcur as (_ & _ & _ & Hs). rewrite (no_started_no_calls _ _ Hcalls Hs). constructor.
    + destruct Hcur as (_ & _ & Hs). rewrite (no_started_no_calls _ _ Hcalls Hs). constructor.
Qed.

Lemma str_app_empty (s : string) : s +++ "" = s.
Proof. induction s as [|c s IH]; [done|]. change (String c (s +++ "") = String c s). by rewrite IH. Qed.

(** A delta of a tool call that comes with its name when it comes with its id. *)
Definition named (d : ToolCallDelta) : Prop :=
  match td_id d with Some (String _ _) => exists ch s, td_name d = Some (String ch s) | _ => True end.

Lemma truthy_opt o : truthy (opt_value o) = match o with Some (String _ _) => true | _ => false end.
Proof. by destruct o as [[]|]. Qed.

Definition tool_call_dict (i : Z) (d : ToolCallDelta) : dict :=
  [("index", VInt i); ("id", opt_value (td_id d));
   ("type", match td_id d with Some (String _ _) => VStr "function" | _ => VNone end);
   ("function", VDict [("name", opt_value (td_name d)); ("arguments", VStr (td_arguments_json d))])].

(** The arguments of a delta, once its call has a block. *)
Lemma agrees_append i args a n c cl :
  tracks json_loads json_dumps c cl (as_blocks a) -> text_started c = false -> counted c ->
  Forall2 same_call (tool_calls_buffer c) (as_calls a) -> call_block i a = Some n ->
  gwp (append_args (VInt i) (VStr args)) (fun r c' cl' => r = inl tt /\
    agrees {| as_blocks := alter (add_fragment (InputJsonDelta args)) n (as_blocks a); as_text := false; as_calls := as_calls a |} c' cl') c cl.
Proof.
  intros Htr Hst Hcount Hcalls Hn. pose proof (same_call_get _ _ i Hcalls) as Hget. unfold call_block in Hn. rewrite Hn in Hget.
  destruct Hget as (info & Hget & Hi). destruct (decide (args = "")) as [->|Hne].
  - unfold append_args. do 2 gstep. rewrite Hget, Hi. cbn [truthy]. rewrite String.eqb_refl. cbn [negb]. gstep. split; [done|].
    replace (alter _ _ _) with (as_blocks a); [by split|]. apply list_eq. intros m. destruct (decide (m = n)) as [->|].
    + rewrite list_lookup_alter_eq. destruct (as_blocks a !! n) as [[t|id name t]|]; [done| |done]. cbn [add_fragment fmap option_fmap option_map]. by rewrite str_app_empty.
    + by rewrite list_lookup_alter_ne.
  - eapply gwp_mono; [by apply append_args_tracks|]. intros r c' cl' (-> & Htr' & Hst' & Hb & Hu). split; [done|].
    split; [done|by rewrite Hst'| |by unfold counted; rewrite Hu]. rewrite Hb. by eapply same_call_set.
Qed.

Lemma find_new i n (calls : list (Z * nat)) :
  snd <$> List.find (fun p => fst p =? i) calls = None -> snd <$> List.find (fun p => fst p =? i) (calls ++ [(i, n)]) = Some n.
Proof. induction calls as [|[j m] calls IH]; simpl; [by rewrite Z.eqb_refl|]. by destruct (j =? i). Qed.

Lemma agrees_call i d a c cl :
  tracks json_loads json_dumps c cl (as_blocks a) -> text_started c = false -> counted c ->
  Forall2 same_call (tool_calls_buffer c) (as_calls a) -> named d ->
  gwp (tool_delta (tool_call_dict i d)) (fun r c' cl' => r = inl tt /\ agrees (assemble_call i d a) c' cl') c cl.
Proof.
  intros Htr Hst Hcount Hcalls Hnamed. pose proof (same_call_get _ _ i Hcalls) as Hget. fold (call_block i a) in Hget.
  unfold tool_delta. cbv zeta. change (dget_default "index" (VInt 0) (tool_call_dict i d)) with (VInt i).
  change (dgetv "id" (tool_call_dict i d)) with (opt_value (td_id d)). gstep.
  change (as_mapping _) with (Ok [("name", opt_value (td_name d)); ("arguments", VStr (td_arguments_json d))]). cbn [liftG]. gstep.
  change (dgetv "name" _) with (opt_value (td_name d)). change (dgetv "arguments" _) with (VStr (td_arguments_json d)).
  change (check_hashable (VInt i)) with (Ok tt). cbn [liftG]. do 2 gstep. do 2 gstep. gstep. rewrite !truthy_opt. unfold assemble_call. destruct (call_block i a) as [n|] eqn:Hn.
  - destruct Hget as (info & Hget & Hi). rewrite Hget. assert (ti_name info <> VNone) as Hname.
    { intros E. apply (entry_get _ _ _ (tr_entries _ _ _ _ _ Htr) Hget) in E. congruence. }
    rewrite (bool_decide_eq_false_2 _ Hname), andb_false_r. cbn [andb when]. do 2 gstep. gstep. cbn [when].
    by apply agrees_append.
  - rewrite Hget. unfold named in Hnamed.
    destruct (td_id d) as [[|ch s]|] eqn:Hid; cbn [andb opt_value];
      [gstep; cbn [when]; gstep; split; [done|by split]| |gstep; cbn [when]; gstep; split; [done|by split]].
    destruct Hnamed as (ch' & s' & Hname). rewrite Hname.
    cbn [andb opt_value]. gstep. eapply gwp_mono; [by apply start_tool_tracks; rewrite ?Hget|].
    intros r c1 cl1 [(-> & Htr1 & Hst1 & Hb1 & Hu1)|[Hh _]]; [|done]. gstep. cbn [when].
    set (a1 := {| as_blocks := as_blocks a ++ [BToolUse (VStr (String ch s)) (VStr (String ch' s')) ""]; as_text := false;
                  as_calls := as_calls a ++ [(i, length (as_blocks a))] |}).
    eapply gwp_mono; [apply (agrees_append i _ a1 (length (as_blocks a))); [done|done|by unfold counted; rewrite Hu1| |]|].
    + rewrite Hb1, (tool_set_new _ _ _ Hget). simpl. apply Forall2_app; [done|]. by repeat constructor.
    + by apply find_new.
    + intros r c2 cl2 [-> Ha]. split; [done|]. unfold a1 in Ha. cbn [as_blocks as_calls] in Ha.
      rewrite alter_app_r_alt, Nat.sub_diag in Ha by lia. exact Ha.
Qed.

(** Each chunk of an event leaves the client with the blocks of the assembly. *)
Definition chunk_ok (v : value) (a : assembly) (b : event_body) : Prop :=
  forall c cl, agrees a c cl ->
    gwp (process_chunk json_loads json_dumps v) (fun r c' cl' => r = inl false /\ agrees (assemble a b) c' cl') c cl.

Lemma chunk_text now text a : chunk_ok (choice_chunk response_id model_name now [("content", opt_value text)] VNone) a (text_delta text).
Proof.
  intros c cl Ha. apply gwp_choice. change (dgetv "content" _) with (opt_value text). change (dgetv "tool_calls" _) with VNone.
  gstep. destruct text as [[|ch s]|]; cbn [opt_value].
  - cbn [when negb String.eqb]. gstep. gstep. gstep. cbn [truthy]. gstep. done.
  - cbn [String.eqb negb when]. eapply gwp_mono; [by apply agrees_text|]. intros r c' cl' [-> Ha']. gstep. gstep. cbn [truthy]. by gstep.
  - gstep. gstep. gstep. cbn [truthy]. by gstep.
Qed.

Lemma chunk_call now i d a : td_index d = Some i -> named d ->
  chunk_ok (tool_call_chunk response_id model_name now i d) a (tool_call_delta (Some d)).
Proof.
  intros Hi Hd c cl [Htr Hst Hcalls Hcount]. apply gwp_choice. change (dgetv "content" _) with VNone.
  change (dgetv "tool_calls" _) with (VList [VDict (tool_call_dict i d)]). cbv iota. gstep. gstep. gstep.
  eapply tool_chunk_tracks; [done|]. intros c' cl' Htr' Hst' Hb' Hu'.
  cbn [tool_deltas]. gstep.
  eapply gwp_mono; [apply (agrees_call i d a); [done..|by unfold counted; rewrite Hu'|by rewrite Hb'|done]|].
  intros r c2 cl2 [-> Ha]. gstep. cbn [truthy]. gstep. split; [done|]. simpl. by rewrite Hi.
Qed.

(** Storing an int keeps the counts ints. *)
Lemma agrees_usage key v a c cl : (exists z, v = VInt z) \/ key <> "input_tokens" /\ key <> "output_tokens" ->
  agrees a c cl -> agrees a (set_usage key v c) cl.
Proof.
  intros Hv [Htr Hst Hcalls (i & o & Hi & Ho)]. split; [by apply tracks_account|done..|]. unfold counted. simpl. rewrite !dget_dset.
  destruct Hv as [[z ->]|[H1 H2]]; [|rewrite !decide_False by done; eauto]. repeat case_decide; eauto.
Qed.

Lemma store_count key z (f : unit -> G unit) Q a c cl : agrees a c cl ->
  (forall c', agrees a c' cl -> gwp (f tt) Q c' cl) ->
  gwp (b ← liftG (py_gt0 (VInt z)); _ ← when b (assign (set_usage key (VInt z))); f tt) Q c cl.
Proof.
  intros Ha Hf. gstep. cbn [py_gt0 liftG]. gstep. gstep. apply gwp_when; intros _; [gstep|]; apply Hf; [|done].
  apply agrees_usage; [|done]. left. by exists z.
Qed.

Lemma record_usage_agrees u a c cl p o ca cw : agrees a c cl ->
  dget_default "prompt_tokens" (VInt 0) u = VInt p -> dget_default "completion_tokens" (VInt 0) u = VInt o ->
  dget_default "cached_tokens" (VInt 0) u = VInt ca -> dget_default "cache_write_tokens" (VInt 0) u = VInt cw ->
  gwp (record_usage u) (fun r c' cl' => r = inl tt /\ agrees a c' cl') c cl.
Proof.
  intros Ha Hp Ho Hca Hcw. unfold record_usage. rewrite Hp, Ho, Hca, Hcw. cbv zeta.
  assert (forall z, exists z', py_or (VInt z) (VInt 0) = VInt z') as Hor by (intros z; unfold py_or; destruct (truthy _); eauto).
  destruct (Hor ca) as [cached ->], (Hor cw) as [written ->]. do 2 gstep.
  apply (store_count _ _ (fun _ => _) _ a); [destruct Ha; split; [by apply tracks_account|done..]|]. intros c1 H1.
  apply (store_count _ _ (fun _ => _) _ a); [done|]. intros c2 H2.
  gstep. cbn [py_gt0 liftG]. do 2 gstep. gstep. gstep.
  apply (gwp_mono _ (fun r c' cl' => r = inl tt /\ agrees a c' cl')).
  { apply gwp_when; intros _; [|done]. do 2 gstep.
    eapply gwp_yield; [unfold receive; by rewrite (tr_phase _ _ _ _ _ (ag_tracks _ _ _ H2))|].
    split; [done|]. apply agrees_usage; [left; by eexists|done]. }
  intros r c3 cl3 (-> & H3). apply (store_count _ _ (fun _ => _) _ a); [done|]. intros c4 H4.
  destruct (dgetv "reported_cost_micros" u); gstep; try done; (split; [done|]; apply agrees_usage; [by right|done]).
Qed.

Lemma chunk_usage now counts micros a b : assemble a b = a -> chunk_ok (usage_chunk response_id model_name now counts micros) a b.
Proof.
  intros Hb c cl Ha. unfold process_chunk, usage_chunk. change (dgetv "_provider_meta" _) with VNone. cbv iota.
  change (dget "error" _) with (@None value). cbv iota. change (dget_default "choices" (VList []) _) with (VList []). cbv iota.
  change (dgetv "usage" _) with (VDict (usage_dict counts micros)).
  gstep. eapply gwp_mono with (P := fun r c' cl' => r = inl tt /\ agrees a c' cl'); [|intros r c' cl' [-> Ha']; gstep; by rewrite Hb].
  exact (record_usage_agrees (usage_dict counts micros) a c cl _ _ _ _ Ha eq_refl eq_refl eq_refl eq_refl).
Qed.

(** ** The whole path *)

(** An event in the middle of a stream that succeeds: names come with ids, and a cost is a
    number. *)
Definition plain (b : event_body) : Prop :=
  match b with
  | tool_call_delta (Some d) => named d
  | usage _ (Some cost) => is_ok (py_round_int (float_mul cost (float_of_Z 1000000))) = true
  | response_end _ | error _ => False
  | _ => True
  end.

Lemma plain_chunks now calls b a : plain b -> exists chunks calls',
  body_chunks response_id model_name request_id now calls b = Ok (chunks, calls', true) /\
  (chunks = [] /\ assemble a b = a \/ exists v, chunks = [v] /\ chunk_ok v a b).
Proof.
  destruct b as [text|[d|]|counts [cost|]|r|m]; cbn [plain body_chunks]; intros H; [| | | | |done..].
  - eexists _, _. split; [done|]. right. eexists. split; [done|]. apply chunk_text.
  - destruct (td_index d) as [i|] eqn:Hi; eexists _, _; (split; [done|]); [right|left; split; [done|simpl; by rewrite Hi]].
    eexists. split; [done|]. by apply chunk_call.
  - eexists _, _. split; [done|]. by left.
  - destruct (py_round_int _) as [z|]; [|done]. rewrite !res_bind_ok. eexists _, _. split; [done|]. right. eexists. split; [done|]. by apply chunk_usage.
  - rewrite res_bind_ok. eexists _, _. split; [done|]. right. eexists. split; [done|]. by apply chunk_usage.
Qed.

Lemma gwp_loop_chunk v l Q c cl :
  gwp (process_chunk json_loads json_dumps v) (fun r c' cl' => r = inl false /\ gwp (stream_loop json_loads json_dumps l) Q c' cl') c cl ->
  gwp (stream_loop json_loads json_dumps (Chunk v :: l)) Q c cl.
Proof. intros H. cbn [stream_loop]. gstep. eapply gwp_mono; [exact H|]. by intros r c' cl' [-> H']. Qed.

(** The metadata chunk, if one goes out, does not show. *)
Lemma loop_carrier now carried (meta : option dict) l Q a c cl : agrees a c cl ->
  (forall c', agrees a c' cl -> gwp (stream_loop json_loads json_dumps l) Q c' cl) ->
  gwp (stream_loop json_loads json_dumps
    (match meta with
     | Some meta => if carried : bool then [] else
         [Chunk (VDict (chunk_head response_id model_name now ++ [("choices", VList []); ("_provider_meta", VDict meta)]))]
     | None => []
     end ++ l)) Q c cl.
Proof.
  intros Ha Hl. destruct meta as [meta|]; [|by apply Hl]. destruct carried; [by apply Hl|].
  apply gwp_loop_chunk. unfold process_chunk. change (dgetv "_provider_meta" _) with (VDict meta). cbv iota. do 2 gstep. gstep.
  split; [done|]. apply Hl. destruct Ha. split; [by apply tracks_account|done..].
Qed.

Lemma loop_agrees events ad rest Q a c cl : Forall (fun p => plain (ev_body (snd p))) events -> agrees a c cl ->
  (forall ad' c' cl', agrees (foldl assemble a (ev_body ∘ snd <$> events)) c' cl' ->
     gwp (stream_loop json_loads json_dumps (stream_generator response_id model_name request_id ad' rest)) Q c' cl') ->
  gwp (stream_loop json_loads json_dumps (stream_generator response_id model_name request_id ad
        (((fun p => Event (fst p) (snd p)) <$> events) ++ rest))) Q c cl.
Proof.
  intros Hev. revert ad a c cl. induction Hev as [|[now e] events He Hev IH]; intros ad a c cl Ha Hrest; [by apply Hrest|].
  cbn [fmap list_fmap app stream_generator fst snd]. eapply loop_carrier; [done|]. intros c1 H1.
  destruct (plain_chunks now (accumulated_tool_calls ad) (ev_body e) a He) as (chunks & calls & -> & Hchunks).
  destruct Hchunks as [[-> Hsame]|(v & -> & Hv)]; cbn [fmap list_fmap app].
  - eapply IH; [done|]. intros ad' c' cl' Ha'. apply Hrest. simpl. by rewrite Hsame.
  - apply gwp_loop_chunk. eapply gwp_mono; [by apply Hv|]. intros r c2 cl2 [-> H2]. split; [done|]. by eapply IH.
Qed.


End EndToEnd.

(** ** A concrete stream *)

Module AdapterSample.
Import StreamSample.

Definition plain_event (b : event_body) : Z * StreamEvent := (7, {| ev_body := b; ev_provider_meta := Some [("generation_id", VStr "g")] |}).

Definition delta (index : Z) (id name : option string) (args : string) : event_body :=
  tool_call_delta (Some {| td_index := Some index; td_id := id; td_name := name; td_arguments_json := args |}).

(** Text, two interleaved calls, usage, and text again. *)
Definition model_events : list (Z * StreamEvent) := plain_event <$>
  [text_delta (Some "Hel"); text_delta (Some "lo"); delta 0 (Some "t0") (Some "Read") "ar"; delta 1 (Some "t1") (Some "Bash") "ls";
   delta 0 None None "gs"; usage (Some [("prompt_tokens", 12); ("completion_tokens", 5)]) (Some (float_of_Z 2)); text_delta (Some "bye")].


End AdapterSample.
