(* ===== verification/MessageConverter.v ===== *)
(** * MessageConverter: a conversation's way to the model, and the answer's way back

    [src/forge/proxy/converters.py] ([convert_anthropic_to_openai] and
    [convert_openai_to_anthropic]) and the two translations of
    [src/forge/proxy/client_adapter.py] between OpenAI dictionaries and the model client's own
    messages. A request of a Claude client becomes an OpenAI request, that one the messages of
    the model client; the client's answer comes back as an OpenAI response and then as an
    Anthropic one.

    The request and response models of [data_models.py] are given as records: what pydantic
    makes of JSON is outside, except for the checks a conversion relies on when it builds a
    response. [json.loads], [json.dumps] and [str] of a decoded value, the model catalogue and
    the proxy's configuration are arguments; logging is left out.

    What a conversation says ([said]) is read off the client's messages and off the model's
    messages, and the conversion is compared through it. *)

From S2P Require Import Prelude PyValue PyFloat Regex PyText StreamConverter StreamAdapter.
From Stdlib Require Import SpecFloat.

(** ** Data models *)

Inductive Role := System | User | Assistant.
#[global] Instance Role_eq_dec : EqDecision Role.
Proof. solve_decision. Defined.

Definition role_name (r : Role) : string :=
  match r with System => "system" | User => "user" | Assistant => "assistant" end.

(** [type] is always "ephemeral". *)
Record CacheControl := { cc_ttl : option string }.

Inductive ToolResultContent :=
| ResultText (text : string)
| ResultParts (parts : list dict).

Inductive ContentBlock :=
| ContentBlockText (text : string) (cache_control : option CacheControl)
| ContentBlockImage (media_type data : string)
| ContentBlockToolUse (id name : string) (input : dict)
| ContentBlockToolResult (tool_use_id : string) (content : ToolResultContent) (is_error : option bool)
    (cache_control : option CacheControl)
| ContentBlockThinking (thinking : string) (signature : option string)
| ContentBlockRedactedThinking (data : string).

Record SystemContent := { sc_text : string; sc_cache_control : option CacheControl }.

Inductive MessageContent :=
| PlainText (text : string)
| Blocks (blocks : list ContentBlock).

Record Message := { m_role : Role; m_content : MessageContent }.

Inductive SystemPrompt :=
| SystemText (text : string)
| SystemBlocks (blocks : list SystemContent).

(** The fields the client set: [type] may be left to its default, [required] may be null. *)
Record ToolInputSchema := {
  is_type_set : bool;
  is_properties : dict;
  is_required : option (option (list string)) }.

Record ToolDefinition := {
  td_tool_name : string;
  td_description : option string;
  td_input_schema : ToolInputSchema }.

(** The fields the conversion reads. *)
Record MessagesRequest := {
  rq_model : string;
  rq_messages : list Message;
  rq_system : option SystemPrompt;
  rq_max_tokens : Z;
  rq_metadata : option dict;
  rq_stop_sequences : option (list string);
  rq_stream : option bool;
  rq_temperature : option spec_float;
  rq_top_p : option spec_float;
  rq_top_k : option Z;
  rq_tools : option (list ToolDefinition);
  rq_tool_choice : option dict }.

Record Usage := {
  u_input_tokens : Z;
  u_output_tokens : Z;
  u_cache_creation_input_tokens : Z;
  u_cache_read_input_tokens : Z }.

Record MessagesResponse := {
  rs_id : string;
  rs_model : string;
  rs_content : list ContentBlock;
  rs_stop_reason : string;
  rs_usage : Usage }.

(** ** Names of tools *)

(** [fnmatch]: a pattern's pieces. *)
Inductive glob_piece :=
| Star
| AnyChar
| Char (c : Z)
| OneOf (negated : bool) (chars : text) (ranges : list (Z * Z))
| Never.

(** The bracket's text up to the closing bracket, and the rest; a bracket right after the
    opening or the [!] is an ordinary character. *)
Fixpoint until_bracket (s : text) : option (text * text) :=
  match s with
  | [] => None
  | c :: s => if c =? 93 then Some ([], s) else '(stuff, rest) ← until_bracket s; Some (c :: stuff, rest)
  end.

Definition bracket (s : text) : option (text * text) :=
  let '(bang, s) := match s with 33 :: s => ([33], s) | _ => ([], s) end in
  let '(first, s) := match s with 93 :: s => ([93], s) | _ => ([], s) end in
  '(stuff, rest) ← until_bracket s;
  Some (bang ++ first ++ stuff, rest).

(** The text is cut at the hyphens that make ranges: [k] characters are passed over before the
    next one is looked for. *)
Fixpoint hyphen_chunks (k : nat) (chunk s : text) : list text :=
  match s with
  | [] => [chunk]
  | c :: s =>
      match k with
      | S k => hyphen_chunks k (chunk ++ [c]) s
      | O => if c =? 45 then chunk :: hyphen_chunks 2 [] s else hyphen_chunks 0 (chunk ++ [c]) s
      end
  end.

(** A hyphen at the end is an ordinary character. *)
Fixpoint last_hyphen (l : list text) : list text :=
  match l with
  | [c; []] => [c ++ [45]]
  | c :: l => c :: last_hyphen l
  | [] => []
  end.

(** Chunks that would make an empty range are joined without the range's ends, from the right. *)
Fixpoint join_empty_ranges (l : list text) : list text :=
  match l with
  | [] => []
  | c :: l =>
      match join_empty_ranges l with
      | d :: l' => if default 0 (head d) <? default 0 (last c) then (removelast c ++ tail d) :: l' else c :: d :: l'
      | [] => [c]
      end
  end.

Fixpoint chunk_ranges (l : list text) : list (Z * Z) :=
  match l with
  | c :: ((d :: _) as l) => (default 0 (last c), default 0 (head d)) :: chunk_ranges l
  | _ => []
  end.

Definition bracket_piece (stuff : text) : glob_piece :=
  let chunks := if bool_decide (45 ∈ stuff)
                then join_empty_ranges (last_hyphen (hyphen_chunks (match stuff with 33 :: _ => 2 | _ => 1 end) [] stuff))
                else [stuff] in
  match chunks with
  | [[]] => Never
  | [[33]] => AnyChar
  | (33 :: c) :: l => OneOf true (mjoin (c :: l)) (chunk_ranges (c :: l))
  | _ => OneOf false (mjoin chunks) (chunk_ranges chunks)
  end.

Fixpoint glob_pieces (fuel : nat) (pat : text) : list glob_piece :=
  match fuel, pat with
  | S fuel, 42 :: pat => Star :: glob_pieces fuel pat
  | S fuel, 63 :: pat => AnyChar :: glob_pieces fuel pat
  | S fuel, 91 :: pat =>
      match bracket pat with
      | Some (stuff, rest) => bracket_piece stuff :: glob_pieces fuel rest
      | None => Char 91 :: glob_pieces fuel pat
      end
  | S fuel, c :: pat => Char c :: glob_pieces fuel pat
  | _, _ => []
  end.

Definition piece_matches (p : glob_piece) (c : Z) : bool :=
  match p with
  | Star | AnyChar => true
  | Char d => c =? d
  | OneOf negated chars ranges =>
      xorb negated (bool_decide (c ∈ chars) || existsb (fun r => (fst r <=? c) && (c <=? snd r)) ranges)
  | Never => false
  end.

Fixpoint glob_matches (l : list glob_piece) : text -> bool :=
  match l with
  | [] => fun s => bool_decide (s = [])
  | Star :: l => fix skip s := glob_matches l s || match s with [] => false | _ :: s => skip s end
  | p :: l => fun s => match s with c :: s => piece_matches p c && glob_matches l s | [] => false end
  end.

Definition fnmatch (name pat : string) : bool :=
  let pat := utf8_decode pat in glob_matches (glob_pieces (length pat) pat) (utf8_decode name).

Definition _should_ignore_tool (tool_prefixes_to_ignore : option (list string)) (tool_name : string) : bool :=
  match tool_prefixes_to_ignore with
  | Some patterns => existsb (fnmatch tool_name) patterns
  | None => false
  end.

Example fnmatch_samples :
  map (fun p => fnmatch (fst p) (snd p))
    [("mcp__a__b", "mcp__*"); ("Read", "mcp__*"); ("Bash", "B?sh"); ("B-sh", "B[a-c-]sh"); ("Bdsh", "B[!a-c]sh");
     ("Bbsh", "B[!a-c]sh"); ("a[b", "a[b"); ("x", "[z-a]"); ("ab", "*b*")]
  = [true; false; true; true; true; false; true; false; true].
Proof. vm_compute. reflexivity. Qed.

(** ** Tool descriptions *)

(** Texts with quotation marks are written with backquotes. *)
Definition quoted (s : string) : string := str_replace_char "`" "034" s.

Definition example_Batch : string := quoted
"

EXAMPLE USAGE (Always include the invocations array):
{
  `description`: `Run multiple tools in parallel`,
  `invocations`: [  // REQUIRED: Array of tool invocations to execute
    {
      `tool_name`: `Read`,  // Name of the tool to invoke
      `input`: {  // Parameters for the tool
        `file_path`: `/path/to/file.txt`
      }
    },
    {
      `tool_name`: `Grep`,
      `input`: {
        `pattern`: `search term`,
        `include`: `*.py`
      }
    }
  ]
}".

Definition example_Edit : string := quoted
"

EXAMPLE USAGE:
{
  `file_path`: `/path/to/file.py`,  // REQUIRED: Absolute path to the file
  `old_string`: `def old_function(x, y):\n    return x + y`,  // REQUIRED: Exact text to replace
  `new_string`: `def old_function(x, y):\n    # Add comment\n    return x + y`,  // REQUIRED: New text
  `expected_replacements`: 1  // Optional: Number of replacements to perform
}".

Definition example_Read : string := quoted
"

EXAMPLE USAGE:
{
  `file_path`: `/path/to/file.txt`  // REQUIRED: Absolute path to the file
}".

Definition example_Write : string := quoted
"

EXAMPLE USAGE:
{
  `file_path`: `/path/to/file.txt`,  // REQUIRED: Absolute path to the file
  `content`: `Contents to write to the file`  // REQUIRED: Content to write
}".

Definition example_Glob : string := quoted
"

EXAMPLE USAGE:
{
  `pattern`: `**/*.py`  // REQUIRED: The glob pattern to match files against
}".

Definition example_Grep : string := quoted
"

EXAMPLE USAGE:
{
  `pattern`: `function`,  // REQUIRED: The regex pattern to search for
  `include`: `*.py`  // Optional: File pattern to include in search
}".

Definition example_MultiEdit : string := quoted
"

⚠︎ CRITICAL: This is a TOOL CALL, not Python code! DO NOT use print(), default_api, or any Python syntax!
✔ CORRECT JSON FORMAT:
{
  `file_path`: `/absolute/path/to/file.py`,
  `edits`: [
    {
      `old_string`: `exact text to find`,
      `new_string`: `replacement text`,
      `replace_all`: false
    }
  ]
}

✘ NEVER DO THIS:
- print(default_api.MultiEdit(...))
- default_api.MultieditEdits(...)
- MultiEdit(file_path=..., edits=[...])
- Any Python function call syntax

Remember: You are calling a TOOL via JSON, not writing Python code!".

Definition tool_examples : list (string * string) :=
  [("Batch", example_Batch);
   ("Edit", example_Edit);
   ("Read", example_Read);
   ("Write", example_Write);
   ("Glob", example_Glob);
   ("Grep", example_Grep);
   ("MultiEdit", example_MultiEdit)].

Definition enhance_tool_description (tool_name original_description : string) : string :=
  original_description +++ dget_default tool_name "" tool_examples.

(** ** The request *)

Section Request.

(** [json.dumps] and [str] of a decoded value. *)
Context (json_dumps : value -> res string) (py_str py_repr_value : value -> string).

(** What the catalogue says of a model: whether it can be forced to call a tool, and how it
    caches prompts ([get_model_spec]; [None]: [ModelCatalogError]). *)
Record ModelSpec := { supports_forced_tool_choice : bool; prompt_cache_mechanism : option string }.
Context (get_model_spec : string -> option ModelSpec).

(** What the conversion reads of the configuration: the ignored tools, and the provider's
    caching mode with its threshold; [None]: it is not loaded. *)
Record ProxyConfig := {
  tool_prefixes_to_ignore : option (list string);
  prompt_caching : option (string * Z) }.
Context (config : ProxyConfig).

Definition ONE_M_SUFFIX : string := "[1m]".

Definition strip_transport_model_suffix (value : string) : string :=
  if endswith ONE_M_SUFFIX value then String.substring 0 (String.length value - 4) value else value.

Definition _model_supports_cache_control (model_name : string) : bool :=
  if String.eqb model_name "" then false
  else match get_model_spec (strip_transport_model_suffix model_name) with
       | None => let name := lower_str model_name in
                 contains "anthropic/" name || contains "claude" name || contains "bedrock/anthropic" name
       | Some spec => bool_decide (prompt_cache_mechanism spec = Some "cache_control")
       end.

Definition _cache_marker (cache_control : CacheControl) : dict :=
  [("type", VStr "ephemeral")] ++ match cc_ttl cache_control with Some ttl => [("ttl", VStr ttl)] | None => [] end.

Definition _SYSTEM_REMINDER_OPEN : string := "<system-reminder>".

Definition _as_system_reminder (text : string) : string :=
  if startswith _SYSTEM_REMINDER_OPEN (encode (drop_spaces (utf8_decode text))) then text
  else _SYSTEM_REMINDER_OPEN +++ newline +++ text +++ newline +++ "</system-reminder>".

(** The marker of a block, when markers are forwarded. *)
Definition marker (forward : bool) (cache_control : option CacheControl) : option dict :=
  if forward then _cache_marker <$> cache_control else None.

Definition with_marker (mark : option dict) (d : dict) : dict :=
  match mark with Some m => dset "cache_control" (VDict m) d | None => d end.

Definition text_part (text : string) (mark : option dict) : value :=
  VDict (with_marker mark [("type", VStr "text"); ("text", VStr text)]).

(** [tool_choice] asks for a tool to be called. *)
Definition forced (choice : option dict) : bool :=
  match choice with
  | Some ((_ :: _) as c) => py_eq (dgetv "type" c) (VStr "any") || py_eq (dgetv "type" c) (VStr "tool")
  | _ => false
  end.

Definition check_forced (r : MessagesRequest) (name : string) : res unit :=
  if forced (rq_tool_choice r) then
    match get_model_spec (strip_transport_model_suffix name) with
    | Some spec =>
        if supports_forced_tool_choice spec then Ok tt
        else raise RequestConversionError ("Model " +++ py_repr name +++ " does not support forced tool_choice; use 'auto' or 'none' or select a model that supports forced tool use")
    | None => Ok tt
    end
  else Ok tt.

(** *** The system prompt *)

Definition is_given (s : option string) : option string := match s with Some (String _ _) => s | _ => None end.

(** Its text, and the marker of the last block that has one. *)
Definition system_prompt (forward : bool) (s : option SystemPrompt) : option string * option dict :=
  match s with
  | Some (SystemText text) => (is_given (Some text), None)
  | Some (SystemBlocks ((_ :: _) as blocks)) =>
      (is_given (Some (str_join newline (map sc_text blocks))),
       last (omap (fun b => marker forward (sc_cache_control b)) blocks))
  | _ => (None, None)
  end.

(** The marker put on a long system prompt when the provider's configuration says so. *)
Definition auto_marker (forward : bool) (text : string) : option dict :=
  match prompt_caching config with
  | Some (mode, auto_cache_min_tokens) =>
      if forward && String.eqb mode "auto_inject" && (auto_cache_min_tokens <=? py_len text / 4)
      then Some [("type", VStr "ephemeral")] else None
  | None => None
  end.

Definition system_messages (forward : bool) (provider : string) (s : option SystemPrompt) : list dict :=
  match system_prompt forward s with
  | (Some text, mark) =>
      if bool_decide (provider ∈ ["openai"; "litellm"; "openrouter"]) then
        match (match mark with Some m => Some m | None => auto_marker forward text end) with
        | Some m => [[("role", VStr "system"); ("content", VList [text_part text (Some m)])]]
        | None => [[("role", VStr "system"); ("content", VStr text)]]
        end
      else []
  | _ => []
  end.

(** *** A message *)

(** The locals of the loop over a message's blocks: the messages sent so far, [content_list],
    [tool_calls_list] and [is_tool_response_message]. *)
Record parts := {
  sent : list dict;
  content_list : list value;
  tool_calls_list : list value;
  is_tool_response : bool }.

Definition no_parts : parts := {| sent := []; content_list := []; tool_calls_list := []; is_tool_response := false |}.

Definition add_part (v : value) (p : parts) : parts :=
  {| sent := sent p; content_list := content_list p ++ [v]; tool_calls_list := tool_calls_list p; is_tool_response := is_tool_response p |}.

Definition user_parts (l : list value) : dict := [("role", VStr "user"); ("content", VList l)].

(** [json.dumps(content)], or [str] when it fails. *)
Definition result_text (c : ToolResultContent) : string :=
  match c with
  | ResultText text => text
  | ResultParts l => match json_dumps (VList (map VDict l)) with Ok s => s | Err _ => py_str (VList (map VDict l)) end
  end.

Definition tool_message (tool_use_id text : string) (mark : option dict) : dict :=
  [("role", VStr "tool"); ("tool_call_id", VStr tool_use_id);
   ("content", match mark with None => VStr text | Some _ => VList [text_part text mark] end)].

Definition tool_call_value (id name arguments : string) : value :=
  VDict [("id", VStr id); ("type", VStr "function"); ("function", VDict [("name", VStr name); ("arguments", VStr arguments)])].

(** A block, in a message of role [r]; system text within the conversation is a reminder. *)
Definition convert_block (forward as_reminder : bool) (r : Role) (p : parts) (b : ContentBlock) : res parts :=
  match b with
  | ContentBlockThinking _ _ | ContentBlockRedactedThinking _ => Ok p
  | ContentBlockText text cache_control =>
      Ok (add_part (text_part (if as_reminder then _as_system_reminder text else text) (marker forward cache_control)) p)
  | ContentBlockImage media_type data =>
      Ok (if bool_decide (r = User)
          then add_part (VDict [("type", VStr "image_url");
                                ("image_url", VDict [("url", VStr ("data:" +++ media_type +++ ";base64," +++ data))])]) p
          else p)
  | ContentBlockToolUse id name input =>
      if bool_decide (r = Assistant) then
        arguments ← json_dumps (VDict (sanitize_tool_input name input));
        Ok {| sent := sent p; content_list := content_list p;
              tool_calls_list := tool_calls_list p ++ [tool_call_value id name arguments]; is_tool_response := is_tool_response p |}
      else Ok p
  | ContentBlockToolResult tool_use_id content _ cache_control =>
      Ok (if bool_decide (r = User)
          then {| sent := sent p ++ (if bool_decide (content_list p = []) then [] else [user_parts (content_list p)])
                          ++ [tool_message tool_use_id (result_text content) (marker forward cache_control)];
                  content_list := []; tool_calls_list := tool_calls_list p; is_tool_response := true |}
          else p)
  end.

(** The keys of the part are [type] and [text]. *)
Definition only_text (d : dict) : bool :=
  py_eq (dgetv "type" d) (VStr "text") && forallb (fun k => bool_decide (k ∈ ["type"; "text"])) (dkeys d) && dhas "text" d.

(** The content of a message that is not a tool's. *)
Definition simple_content (l : list value) : value :=
  match l with
  | [] => VNone
  | [VDict d as part] => if only_text d then dget_default "text" (VStr "") d else VList [part]
  | l => VList l
  end.

Definition openai_message (role : string) (content : value) (tool_calls : list value) : dict :=
  [("role", VStr role); ("content", content)] ++ if bool_decide (tool_calls = []) then [] else [("tool_calls", VList tool_calls)].

(** What is sent when the blocks are done. *)
Definition finish_message (as_reminder : bool) (r : Role) (p : parts) : list dict :=
  if is_tool_response p then
    sent p ++ (if bool_decide (content_list p = []) then [] else [user_parts (content_list p)])
  else
    let message := openai_message (if as_reminder then "user" else role_name r) (simple_content (content_list p)) (tool_calls_list p) in
    sent p ++
    (if negb (bool_decide (dgetv "content" message = VNone)) || truthy (dgetv "tool_calls" message) then [message]
     else if bool_decide (r = Assistant) && negb (truthy (dgetv "content" message)) && negb (truthy (dgetv "tool_calls" message))
     then [dset "content" (VStr "") message] else []).

(** One message; [conversation_started]: a user or an assistant has spoken. *)
Definition convert_message (forward conversation_started : bool) (m : Message) : res (list dict) :=
  let as_reminder := bool_decide (m_role m = System) && conversation_started in
  p ← match m_content m with
      | PlainText text => Ok (add_part (text_part (if as_reminder then _as_system_reminder text else text) None) no_parts)
      | Blocks blocks => foldM_res (convert_block forward as_reminder (m_role m)) no_parts blocks
      end;
  Ok (finish_message as_reminder (m_role m) p).

Fixpoint convert_messages (forward conversation_started : bool) (l : list Message) : res (list dict) :=
  match l with
  | [] => Ok []
  | m :: l =>
      out ← convert_message forward conversation_started m;
      rest ← convert_messages forward (conversation_started || negb (bool_decide (m_role m = System))) l;
      Ok (out ++ rest)
  end.

(** *** Tools *)

(** [model_dump(exclude_unset=True)]. *)
Definition dump_schema (s : ToolInputSchema) : dict :=
  (if is_type_set s then [("type", VStr "object")] else []) ++ [("properties", VDict (is_properties s))]
  ++ match is_required s with
     | None => []
     | Some None => [("required", VNone)]
     | Some (Some l) => [("required", VList (map VStr l))]
     end.

Definition clean_schema (d : dict) : dict :=
  let d := if dhas "type" d then d else dset "type" (VStr "object") d in
  if py_eq (dgetv "type" d) (VStr "object") && negb (dhas "properties" d) then dset "properties" (VDict []) d else d.

Definition tool_retained (t : ToolDefinition) : bool := negb (_should_ignore_tool (tool_prefixes_to_ignore config) (td_tool_name t)).

Definition openai_tool (t : ToolDefinition) : value :=
  VDict [("type", VStr "function");
         ("function", VDict [("name", VStr (td_tool_name t));
                             ("description", VStr (enhance_tool_description (td_tool_name t) (default "" (td_description t))));
                             ("parameters", VDict (clean_schema (dump_schema (td_input_schema t))))])].

(** The tools that are kept. *)
Definition retained_tools (r : MessagesRequest) : list ToolDefinition :=
  List.filter tool_retained (default [] (rq_tools r)).

(** [openai_request["tool_choice"]]. *)
Definition convert_tool_choice (r : MessagesRequest) : res (option value) :=
  let names := map td_tool_name (retained_tools r) in
  match rq_tool_choice r with
  | Some ((_ :: _) as choice) =>
      let type := dgetv "type" choice in
      if py_eq type (VStr "any") then
        if bool_decide (names = []) then
          raise RequestConversionError "tool_choice 'any' requires at least one available tool after proxy filtering"
        else Ok (Some (VStr "required"))
      else if py_eq type (VStr "auto") then Ok (Some (VStr "auto"))
      else if py_eq type (VStr "tool") && dhas "name" choice then
        let unavailable v := raise RequestConversionError ("tool_choice names unavailable tool " +++ py_repr_value v +++ " after proxy filtering") in
        match dgetv "name" choice with
        | VStr name =>
            if bool_decide (name ∈ names)
            then Ok (Some (VDict [("type", VStr "function"); ("function", VDict [("name", VStr name)])]))
            else unavailable (VStr name)
        | v => unavailable v
        end
      else Ok (Some (VStr "none"))
  | _ => Ok None
  end.

(** *** The whole request *)

Definition opt_field {A} (key : string) (f : A -> value) (o : option A) : dict :=
  match o with Some a => [(key, f a)] | None => [] end.

Definition nonempty_list {A} (o : option (list A)) : option (list A) := match o with Some (_ :: _) => o | _ => None end.

(** The request's dictionary. *)
Definition openai_request (r : MessagesRequest) (forward : bool) (openai_messages : list dict) (tool_choice : option value) : dict :=
  [("model", VStr (rq_model r)); ("messages", VList (map VDict openai_messages));
   ("max_tokens", VInt (rq_max_tokens r)); ("stream", VBool (default false (rq_stream r)))]
  ++ opt_field "temperature" VFloat (rq_temperature r) ++ opt_field "top_p" VFloat (rq_top_p r)
  ++ opt_field "top_k" VInt (rq_top_k r)
  ++ opt_field "stop" (fun l => VList (map VStr l)) (nonempty_list (rq_stop_sequences r))
  ++ opt_field "metadata" VDict (nonempty_list (rq_metadata r))
  ++ opt_field "system_prompt" VStr (fst (system_prompt forward (rq_system r)))
  ++ opt_field "tools" VList (nonempty_list (Some (map openai_tool (retained_tools r))))
  ++ opt_field "tool_choice" id tool_choice.

Definition convert_anthropic_to_openai (r : MessagesRequest) (provider : string) (resolved_model : option string) : res dict :=
  let name := default (rq_model r) (is_given resolved_model) in
  _ ← check_forced r name;
  let forward := _model_supports_cache_control name in
  converted ← convert_messages forward false (rq_messages r);
  choice ← convert_tool_choice r;
  Ok (openai_request r forward (system_messages forward provider (rq_system r) ++ converted) choice).

End Request.

(** ** The model client's messages *)

(** [core/llm/types.py]. *)
Record ToolCall := { tc_id : string; tc_name : string; tc_arguments : dict }.

Record CoreMessage := {
  cm_role : string;
  cm_content : value;
  cm_tool_call_id : option string;
  cm_tool_calls : option (list ToolCall) }.

Record CompletionResponse := {
  cr_text : string;
  cr_tool_calls : option (list ToolCall);
  cr_finish_reason : option string;
  cr_usage : option (list (string * Z));
  cr_cost_usd : option spec_float;
  cr_provider_meta : option dict }.

Section Client.

(** [json.loads] on a string, and [json.dumps]. *)
Context (json_loads : string -> res value) (json_dumps : value -> res string).

(** The arguments of a call: JSON, or a dictionary already. Only [JSONDecodeError] is caught. *)
Definition call_arguments (args_raw : value) : res dict :=
  match args_raw with
  | VStr s =>
      if String.eqb (py_strip s) "" then Ok []
      else match json_loads s with
           | Ok (VDict d) => Ok d
           | Ok parsed => Ok [("_raw", parsed)]
           | Err e => if bool_decide (exn_cls e = JSONDecodeError) then Ok [("raw_arguments", VStr s)] else Err e
           end
  | VDict d => Ok d
  | _ => Ok []
  end.

(** A call, unless it is malformed. *)
Definition tool_call_to_core (tc : value) : res (option ToolCall) :=
  match tc with
  | VDict tc =>
      if negb (py_eq (dgetv "type" tc) (VStr "function")) then Ok None
      else match py_or (dgetv "function" tc) (VDict []) with
           | VDict func =>
               match dgetv "id" tc, dgetv "name" func with
               | VStr id, VStr name =>
                   arguments ← call_arguments (dgetv "arguments" func);
                   Ok (Some {| tc_id := id; tc_name := name; tc_arguments := arguments |})
               | _, _ => Ok None
               end
           | _ => Ok None
           end
  | _ => Ok None
  end.

Definition _tool_calls_to_core (tool_calls : value) : res (option (list ToolCall)) :=
  match tool_calls with
  | VList l => out ← mapM_res tool_call_to_core l; Ok (nonempty_list (Some (omap id out)))
  | _ => Ok None
  end.

(** What the pydantic model of a message accepts as its content. *)
Definition valid_content (v : value) : bool :=
  match v with VStr _ => true | VList l => forallb is_dict l | _ => false end.

(** OpenAI allows no content beside tool calls; the model client does not. *)
Definition filled (content : value) : value := match content with VNone => VStr "" | v => v end.

Definition message_to_core (msg : dict) : res CoreMessage :=
  let role := match dget_default "role" (VStr "user") msg with
              | VStr s => if bool_decide (s ∈ ["system"; "user"; "assistant"; "tool"]) then s else "user"
              | _ => "user"
              end in
  let content := filled (dget_default "content" (VStr "") msg) in
  tool_calls ← _tool_calls_to_core (dgetv "tool_calls" msg);
  match dgetv "tool_call_id" msg, valid_content content with
  | VNone, true => Ok {| cm_role := role; cm_content := content; cm_tool_call_id := None; cm_tool_calls := tool_calls |}
  | VStr id, true => Ok {| cm_role := role; cm_content := content; cm_tool_call_id := Some id; cm_tool_calls := tool_calls |}
  | _, _ => raise ValidationError "Message"
  end.

Definition _openai_messages_to_core (l : list dict) : res (list CoreMessage) := mapM_res message_to_core l.

(** ** The response *)

(** What the model client hands out as an OpenAI response; [now] is the clock. *)
Definition openai_tool_call (tc : ToolCall) : res value :=
  arguments ← json_dumps (VDict (tc_arguments tc)); Ok (tool_call_value (tc_id tc) (tc_name tc) arguments).

Definition _core_response_to_openai (now later : Z) (r : CompletionResponse) (model : string) : res dict :=
  calls ← mapM_res openai_tool_call (default [] (cr_tool_calls r));
  micros ← (match cr_cost_usd r with
            | Some x => z ← py_round_int (float_mul x (float_of_Z 1000000)); Ok [("_reported_cost_micros", VInt z)]
            | None => Ok []
            end : res dict);
  let tool_calls := match calls with [] => [] | _ => [("tool_calls", VList calls)] end in
  let finish_reason := match is_given (cr_finish_reason r) with
                       | Some s => s
                       | None => if bool_decide (calls = []) then "stop" else "tool_calls"
                       end in
  Ok ([("id", VStr ("chatcmpl-" +++ pretty (now / 1000000))); ("object", VStr "chat.completion"); ("created", VInt (later / 1000000));
       ("model", VStr model);
       ("choices", VList [VDict [("index", VInt 0);
                                 ("message", VDict ([("role", VStr "assistant"); ("content", VStr (cr_text r))] ++ tool_calls));
                                 ("finish_reason", VStr finish_reason)]]);
       ("usage", VDict [("prompt_tokens", count_of "prompt_tokens" (cr_usage r)); ("completion_tokens", count_of "completion_tokens" (cr_usage r));
                        ("total_tokens", count_of "total_tokens" (cr_usage r)); ("cached_tokens", count_of "cached_tokens" (cr_usage r));
                        ("cache_write_tokens", count_of "cache_write_tokens" (cr_usage r))])]
      ++ micros ++ opt_field "_provider_meta" VDict (cr_provider_meta r)).

(** *** A completion *)

(** Control characters and DEL are dropped, and 256 characters kept. *)
Definition _sanitize_header_value (value : text) : text :=
  take 256 (List.filter (fun ch => (32 <=? ch) && (ch <? 127) || (127 <? ch)) value).

Definition set_str (v : value) : option string := is_given (as_str v).

(** [hyperparams_data]: only what the request sets. *)
Definition hyperparams_data (max_tokens_override : option Z) (req : dict) : res dict :=
  max_tokens ← match dgetv "max_tokens" req with
               | VNone => Ok []
               | v => z ← py_int v;
                      Ok [("max_tokens", VInt (match max_tokens_override with Some cap => Z.min z cap | None => z end))]
               end;
  let set_fields := omap (fun key => match dgetv key req with VNone => None | v => Some (key, v) end)
                      ["temperature"; "top_p"; "reasoning_effort"; "verbosity"] in
  let openai_extra :=
    match dgetv "tool_choice" req with VStr s => [("tool_choice", VStr s)] | VDict d => [("tool_choice", VDict d)] | _ => [] end
    ++ match set_str (dgetv "_user_agent" req) with
       | Some s => [("extra_headers", VDict [("User-Agent", VStr (encode (_sanitize_header_value (utf8_decode s))))])]
       | None => []
       end
    ++ opt_field "user" VStr (set_str (dgetv "_forge_user" req)) in
  Ok (max_tokens ++ set_fields ++ match openai_extra with [] => [] | _ => [("extra", VDict [("openai", VDict openai_extra)])] end).

(** [create_completion] around the model client's [complete], which takes the messages, the
    tools and the parameters. *)
Definition create_completion (complete : list CoreMessage -> value -> dict -> res CompletionResponse)
    (max_tokens_override : option Z) (model_name : string) (now later : Z) (req : dict) : res dict :=
  messages ← (match dget_default "messages" (VList []) req with
              | VList l => d ← mapM_res as_mapping l; _openai_messages_to_core d
              | v => raise TypeError ("'" +++ type_name v +++ "' object is not iterable")
              end : res (list CoreMessage));
  data ← hyperparams_data max_tokens_override req;
  response ← complete messages (dgetv "tools" req) data;
  _core_response_to_openai now later response model_name.

(** The ids that are made up, and the integers pydantic reads from a value. *)
Context (fresh_id : string) (fresh_tool_id : nat -> string) (int_field : value -> option Z).

Definition valid_int (v : value) : res Z := match int_field v with Some z => Ok z | None => raise ValidationError "int" end.

(** The input of a call: whatever goes wrong with its arguments goes into it. *)
Definition tool_input (tool_name : string) (args_str : value) : value :=
  match (match args_str with
         | VStr s => json_loads s
         | v => raise TypeError ("the JSON object must be str, bytes or bytearray, not " +++ type_name v)
         end) with
  | Ok (VDict d) => VDict (sanitize_tool_input tool_name d)
  | Ok v => v
  | Err e =>
      if bool_decide (exn_cls e = JSONDecodeError) then VDict [("raw_arguments", args_str)]
      else VDict [("error_parsing_arguments", VStr (exn_msg e)); ("raw_arguments", args_str)]
  end.

(** The [i]th call, unless it is not a function call; pydantic checks the block. *)
Definition tool_use_block (i : nat) (tc : value) : res (option ContentBlock) :=
  match tc with
  | VDict tc =>
      if negb (py_eq (dgetv "type" tc) (VStr "function")) then Ok None
      else
        func ← as_mapping (dget_default "function" (VDict []) tc);
        match dget_default "id" (VStr (fresh_tool_id i)) tc, dget_default "name" (VStr "unknown_tool") func with
        | VStr id, VStr name =>
            match tool_input name (dget_default "arguments" (VStr "{}") func) with
            | VDict input => Ok (Some (ContentBlockToolUse id name input))
            | _ => raise ValidationError "ContentBlockToolUse"
            end
        | _, _ => raise ValidationError "ContentBlockToolUse"
        end
  | _ => Ok None
  end.

Fixpoint tool_use_blocks (i : nat) (l : list value) : res (list ContentBlock) :=
  match l with
  | [] => Ok []
  | tc :: l => b ← tool_use_block i tc; rest ← tool_use_blocks (S i) l; Ok (option_list b ++ rest)
  end.

(** [choices[0]]. *)
Definition first_choice (choices : value) : res value :=
  match choices with
  | VList (c :: _) => Ok c
  | VStr s => match utf8_chars s with c :: _ => Ok (VStr c) | [] => raise IndexError "string index out of range" end
  | VDict _ => raise KeyError "0"
  | v => raise TypeError ("'" +++ type_name v +++ "' object is not subscriptable")
  end.

Definition convert_choice (choices : value) : res (list ContentBlock * value) :=
  if negb (truthy choices) then Ok ([], VStr "stop")
  else
    choice ← first_choice choices;
    choice ← as_mapping choice;
    message ← as_mapping (py_or (dget_default "message" (VDict []) choice) (VDict []));
    let text := match dgetv "content" message with VStr (String _ _ as s) => [ContentBlockText s None] | _ => [] end in
    calls ← (match dgetv "tool_calls" message with VList l => tool_use_blocks 0 l | _ => Ok [] end : res (list ContentBlock));
    Ok (text ++ calls, dget_default "finish_reason" (VStr "stop") choice).

(** The body of the [try]. *)
Definition convert_response (resp : dict) (original_model_name : option string) : res MessagesResponse :=
  usage ← as_mapping (py_or (dget_default "usage" (VDict []) resp) (VDict []));
  '(blocks, finish_reason) ← convert_choice (dget_default "choices" (VList []) resp);
  stop_reason ← map_stop_reason finish_reason;
  let split := _anthropic_cache_usage (dget_default "prompt_tokens" (VInt 0) usage) (dget_default "cached_tokens" (VInt 0) usage)
                 (dget_default "cache_write_tokens" (VInt 0) usage) in
  output ← valid_int (dget_default "completion_tokens" (VInt 0) usage);
  input ← valid_int (dgetv "input_tokens" split);
  creation ← valid_int (dgetv "cache_creation_input_tokens" split);
  read ← valid_int (dgetv "cache_read_input_tokens" split);
  match py_or (dgetv "id" resp) (VStr fresh_id) with
  | VStr id =>
      Ok {| rs_id := id;
            rs_model := default "claude-3.7-sonnet" (is_given original_model_name);
            rs_content := match blocks with [] => [ContentBlockText "" None] | _ => blocks end;
            rs_stop_reason := stop_reason;
            rs_usage := {| u_input_tokens := input; u_output_tokens := output; u_cache_creation_input_tokens := creation;
                           u_cache_read_input_tokens := read |} |}
  | _ => raise ValidationError "MessagesResponse"
  end.

(** Any failure is [None]. *)
Definition convert_openai_to_anthropic (resp : dict) (original_model_name : option string) : option MessagesResponse :=
  match convert_response resp original_model_name with Ok r => Some r | Err _ => None end.

End Client.

(** ** What a conversation says

    The specification: a conversation as the sequence of what is said in it. Empty texts say
    nothing. *)

Inductive said :=
| Says (r : string) (text : string) (mark : option dict)
| Shows (url : string)
| Calls (id name : string) (arguments : dict)
| Returns (id text : string) (mark : option dict).

Definition says (r text : string) (mark : option dict) : list said :=
  if String.eqb text "" then [] else [Says r text mark].

Definition is_call (s : said) : bool := match s with Calls _ _ _ => true | _ => false end.

Section Said.

Context (json_dumps : value -> res string) (py_str : value -> string).

(** What a client's block says, in a message of role [r]: thinking is private to the model
    that thought it, only users show images and return results, only assistants call. *)
Definition block_said (forward as_reminder : bool) (r : Role) (b : ContentBlock) : list said :=
  match b with
  | ContentBlockText text cc =>
      says (if as_reminder then "user" else role_name r) (if as_reminder then _as_system_reminder text else text) (marker forward cc)
  | ContentBlockImage media_type data =>
      if bool_decide (r = User) then [Shows ("data:" +++ media_type +++ ";base64," +++ data)] else []
  | ContentBlockToolUse id name input =>
      if bool_decide (r = Assistant) then [Calls id name (sanitize_tool_input name input)] else []
  | ContentBlockToolResult id c _ cc =>
      if bool_decide (r = User) then [Returns id (result_text json_dumps py_str c) (marker forward cc)] else []
  | _ => []
  end.

Definition message_blocks (m : Message) : list ContentBlock :=
  match m_content m with PlainText text => [ContentBlockText text None] | Blocks l => l end.

(** A message says its blocks in order, an assistant's calls after its texts. *)
Definition message_said (forward started : bool) (m : Message) : list said :=
  let l := mjoin (map (block_said forward (bool_decide (m_role m = System) && started) (m_role m)) (message_blocks m)) in
  List.filter (fun s => negb (is_call s)) l ++ List.filter is_call l.

Fixpoint conversation_said (forward started : bool) (l : list Message) : list said :=
  match l with
  | [] => []
  | m :: l => message_said forward started m ++ conversation_said forward (started || negb (bool_decide (m_role m = System))) l
  end.

End Said.

(** The system prompt speaks first, where it is sent as a message. *)
Definition system_said (config : ProxyConfig) (forward : bool) (provider : string) (s : option SystemPrompt) : list said :=
  match system_prompt forward s with
  | (Some text, mark) =>
      if bool_decide (provider ∈ ["openai"; "litellm"; "openrouter"])
      then [Says "system" text (match mark with Some m => Some m | None => auto_marker config forward text end)] else []
  | _ => []
  end.

(** What one of the model client's messages says. *)
Definition mark_of (d : dict) : option dict := match dgetv "cache_control" d with VDict m => Some m | _ => None end.

Definition part_said (r : string) (v : value) : list said :=
  match v with
  | VDict d =>
      match dgetv "text" d, dgetv "image_url" d with
      | VStr text, _ => says r text (mark_of d)
      | _, VDict image => match dgetv "url" image with VStr url => [Shows url] | _ => [] end
      | _, _ => []
      end
  | _ => []
  end.

Definition content_said (r : string) (v : value) : list said :=
  match v with VStr text => says r text None | VList l => mjoin (map (part_said r) l) | _ => [] end.

Definition result_said (id : string) (v : value) : list said :=
  match v with
  | VStr text => [Returns id text None]
  | VList [VDict d] => match dgetv "text" d with VStr text => [Returns id text (mark_of d)] | _ => [] end
  | _ => []
  end.

Definition call_said (tc : ToolCall) : said := Calls (tc_id tc) (tc_name tc) (tc_arguments tc).

Definition core_said (m : CoreMessage) : list said :=
  match cm_tool_call_id m with
  | Some id => result_said id (cm_content m)
  | None => content_said (cm_role m) (cm_content m) ++ map call_said (default [] (cm_tool_calls m))
  end.

Definition all_said (l : list CoreMessage) : list said := mjoin (map core_said l).

(** *** Calls and their answers

    The calls of the last assistant message that have no answer yet. A provider refuses a
    conversation in which a call is not answered before the next message ([None]). *)

Fixpoint follow {A S} (step : S -> A -> option S) (s : S) (l : list A) : option S :=
  match l with [] => Some s | x :: l => s' ← step s x; follow step s' l end.

Fixpoint take_answer (id : string) (open : list string) : option (list string) :=
  match open with
  | [] => None
  | i :: open => if String.eqb i id then Some open else (cons i) <$> take_answer id open
  end.

Definition speak {A} (open : list string) (a : A) : option A := if bool_decide (open = []) then Some a else None.

Definition core_step (open : list string) (m : CoreMessage) : option (list string) :=
  match cm_tool_call_id m with
  | Some id => take_answer id open
  | None => speak open (map tc_id (default [] (cm_tool_calls m)))
  end.

(** The same for the client's messages, block by block. *)
Definition block_step (r : Role) (open : list string) (b : ContentBlock) : option (list string) :=
  match b with
  | ContentBlockText _ _ => speak open open
  | ContentBlockImage _ _ => if bool_decide (r = User) then speak open open else Some open
  | ContentBlockToolResult id _ _ _ => if bool_decide (r = User) then take_answer id open else Some open
  | _ => Some open
  end.

Definition call_ids (blocks : list ContentBlock) : list string :=
  omap (fun b => match b with ContentBlockToolUse id _ _ => Some id | _ => None end) blocks.

Definition message_step (open : list string) (m : Message) : option (list string) :=
  if bool_decide (m_role m = Assistant) then speak open (call_ids (message_blocks m))
  else follow (block_step (m_role m)) open (message_blocks m).

(** ** Lemmas *)

Lemma mapM_res_app {A B} (f : A -> res B) l l' ys ys' :
  mapM_res f l = Ok ys -> mapM_res f l' = Ok ys' -> mapM_res f (l ++ l') = Ok (ys ++ ys').
Proof.
  revert ys. induction l as [|x l IH]; intros ys; simpl; [by intros [= <-]|].
  destruct (f x) as [y|]; simpl; [|done]. destruct (mapM_res f l) as [zs|]; simpl; [|done]. intros [= <-] H'.
  by rewrite (IH zs eq_refl H').
Qed.

Lemma filter_app_std {A} (f : A -> bool) l l' : List.filter f (l ++ l') = List.filter f l ++ List.filter f l'.
Proof. induction l as [|x l IH]; simpl; [done|]. destruct (f x); simpl; by rewrite IH. Qed.

Lemma all_said_app l l' : all_said (l ++ l') = all_said l ++ all_said l'.
Proof. unfold all_said. by rewrite map_app, join_app. Qed.

Lemma parts_said_app r l v : mjoin (map (part_said r) (l ++ [v])) = mjoin (map (part_said r) l) ++ part_said r v.
Proof. rewrite map_app, join_app. cbn. by rewrite app_nil_r. Qed.

Lemma forallb_Forall {A} (f : A -> bool) l : forallb f l = true <-> Forall (fun x => f x = true) l.
Proof. rewrite forallb_forall, Forall_forall. by setoid_rewrite <- list_elem_of_In. Qed.

Lemma says_no_call r text mark : List.filter is_call (says r text mark) = [] /\
  List.filter (fun s => negb (is_call s)) (says r text mark) = says r text mark.
Proof. unfold says. by case_match. Qed.

Lemma part_said_text r text mark : part_said r (text_part text mark) = says r text mark.
Proof. destruct mark; reflexivity. Qed.

Section Conversion.

Context (json_dumps : value -> res string) (json_loads : string -> res value) (py_str : value -> string).
Hypothesis loads_dumps : forall d s, json_dumps (VDict d) = Ok s -> json_loads s = Ok (VDict d) /\ py_strip s <> "".

Lemma call_to_core id name d s :
  json_dumps (VDict d) = Ok s ->
  tool_call_to_core json_loads (tool_call_value id name s) = Ok (Some {| tc_id := id; tc_name := name; tc_arguments := d |}).
Proof.
  intros Hs. destruct (loads_dumps _ _ Hs) as [Hl Hne].
  assert (Ha : call_arguments json_loads (VStr s) = Ok d).
  { unfold call_arguments. by rewrite (proj2 (String.eqb_neq _ _) Hne), Hl. }
  change (tool_call_to_core json_loads (tool_call_value id name s)) with
    (a ← call_arguments json_loads (VStr s); Ok (Some {| tc_id := id; tc_name := name; tc_arguments := a |})).
  by rewrite Ha.
Qed.

Lemma parts_to_core l : Forall (fun v => is_dict v = true) l ->
  message_to_core json_loads (user_parts l) = Ok {| cm_role := "user"; cm_content := VList l; cm_tool_call_id := None; cm_tool_calls := None |}.
Proof.
  intros Hl. change (message_to_core json_loads (user_parts l)) with
    (if forallb is_dict l
     then Ok {| cm_role := "user"; cm_content := VList l; cm_tool_call_id := None; cm_tool_calls := None |}
     else raise ValidationError "Message" : res CoreMessage).
  by rewrite (proj2 (forallb_Forall _ _) Hl).
Qed.

Lemma result_to_core id text mark :
  exists m, message_to_core json_loads (tool_message id text mark) = Ok m /\ core_said m = [Returns id text mark] /\
    cm_role m = "tool" /\ cm_tool_call_id m = Some id.
Proof. destruct mark; eexists; split; [reflexivity| |reflexivity|]; split_and!; reflexivity. Qed.

(** The parts of a message are dictionaries whose text is a string. *)
Definition part_ok (v : value) : bool :=
  match v with VDict d => match dget "text" d with Some (VStr _) | None => true | _ => false end | _ => false end.

Lemma part_ok_dict l : Forall (fun v => part_ok v = true) l -> Forall (fun v => is_dict v = true) l.
Proof. intros H. eapply Forall_impl; [exact H|]. by intros []. Qed.

(** The parts agree with what was said so far. *)
Record agree (r : Role) (r' : string) (p : parts) (l : list said) : Prop := {
  ag_sent : exists ms, mapM_res (message_to_core json_loads) (sent p) = Ok ms /\
              List.filter (fun s => negb (is_call s)) l = all_said ms ++ mjoin (map (part_said r') (content_list p));
  ag_calls : exists cs, mapM_res (tool_call_to_core json_loads) (tool_calls_list p) = Ok (map Some cs) /\
               List.filter is_call l = map call_said cs;
  ag_dicts : Forall (fun v => part_ok v = true) (content_list p);
  ag_alone : is_tool_response p = false -> sent p = [];
  ag_user : is_tool_response p = true -> r = User;
  ag_caller : r <> Assistant -> tool_calls_list p = [] }.

Lemma agree_part r r' p l v s :
  agree r r' p l -> part_ok v = true -> part_said r' v = s -> List.filter is_call s = [] ->
  agree r r' (add_part v p) (l ++ s).
Proof.
  intros [(ms & Hms & Hl) (cs & Hcs & Hc) Hd Ha Hu Hca] Hv Hs Hs'.
  assert (List.filter (fun s => negb (is_call s)) s = s) as Hn.
  { clear -Hs'. induction s as [|x s IH]; [done|]. simpl in *. destruct (is_call x); [done|]. simpl. by rewrite IH. }
  split; cbn; try done.
  - exists ms. split; [done|]. by rewrite filter_app_std, Hl, parts_said_app, Hs, Hn, app_assoc.
  - exists cs. by rewrite filter_app_std, Hs', app_nil_r.
  - apply Forall_app. by repeat constructor.
Qed.

Definition spoken_role (as_reminder : bool) (r : Role) : string := if as_reminder then "user" else role_name r.

Lemma agree_skip r r' p l s : agree r r' p l -> s = [] -> agree r r' p (l ++ s).
Proof. intros H ->. by rewrite app_nil_r. Qed.

Lemma agree_call r' p l id name d s :
  json_dumps (VDict d) = Ok s -> agree Assistant r' p l ->
  agree Assistant r' {| sent := sent p; content_list := content_list p; tool_calls_list := tool_calls_list p ++ [tool_call_value id name s];
                        is_tool_response := is_tool_response p |} (l ++ [Calls id name d]).
Proof.
  intros Hs [(ms & Hms & Hl) (cs & Hcs & Hc) Hd Ha Hu Hca]. split; cbn; try done.
  - exists ms. split; [done|]. by rewrite filter_app_std, Hl, app_nil_r.
  - exists (cs ++ [{| tc_id := id; tc_name := name; tc_arguments := d |}]). split.
    + rewrite map_app. apply mapM_res_app; [done|]. cbn [mapM_res]. by rewrite (call_to_core id name d s Hs).
    + by rewrite filter_app_std, Hc, map_app.
Qed.

(** The messages sent when the parts collected so far are sent. *)
Lemma flushed_to_core l : Forall (fun v => part_ok v = true) l ->
  exists ms, mapM_res (message_to_core json_loads) (if bool_decide (l = []) then [] else [user_parts l]) = Ok ms /\
    all_said ms = mjoin (map (part_said "user") l).
Proof.
  intros Hd. case_bool_decide as Hl; [subst; by exists []|]. eexists. split.
  - cbn [mapM_res]. by rewrite parts_to_core by by apply part_ok_dict.
  - unfold all_said. cbn. by rewrite !app_nil_r.
Qed.

Lemma agree_result p l id text mark :
  agree User "user" p l ->
  agree User "user"
    {| sent := sent p ++ (if bool_decide (content_list p = []) then [] else [user_parts (content_list p)]) ++ [tool_message id text mark];
       content_list := []; tool_calls_list := tool_calls_list p; is_tool_response := true |} (l ++ [Returns id text mark]).
Proof.
  intros [(ms & Hms & Hl) (cs & Hcs & Hc) Hd Ha Hu Hca]. split; cbn; try done.
  - destruct (flushed_to_core _ Hd) as (fs & Hfs & Hfsaid). destruct (result_to_core id text mark) as (m & Hm & Hmsaid & _).
    exists (ms ++ fs ++ [m]). split.
    + apply mapM_res_app; [done|]. apply mapM_res_app; [done|]. cbn [mapM_res]. by rewrite Hm.
    + rewrite filter_app_std, Hl, !all_said_app, Hfsaid, app_nil_r, <- app_assoc. cbn. unfold all_said at 2. cbn. by rewrite Hmsaid.
  - exists cs. by rewrite filter_app_std, Hc, app_nil_r.
Qed.

Lemma agree_block forward as_reminder r p b p' l :
  (as_reminder = true -> r = System) -> convert_block json_dumps py_str forward as_reminder r p b = Ok p' ->
  agree r (spoken_role as_reminder r) p l ->
  agree r (spoken_role as_reminder r) p' (l ++ block_said json_dumps py_str forward as_reminder r b).
Proof.
  intros Hrem Hb Hag. destruct b as [text cc|mt data|id name input|id c ie cc|th sg|data]; cbn in *.
  - injection Hb as <-. eapply agree_part; [done|by destruct cc, forward|apply part_said_text|apply says_no_call].
  - case_bool_decide as Hr; injection Hb as <-; [|by apply agree_skip]. subst r.
    eapply agree_part; [done|reflexivity|reflexivity|reflexivity].
  - case_bool_decide as Hr; [subst r|injection Hb as <-; by apply agree_skip].
    destruct (json_dumps _) as [s|] eqn:Hs; [|done]. injection Hb as <-. by apply agree_call.
  - case_bool_decide as Hr; injection Hb as <-; [subst r|by apply agree_skip].
    destruct as_reminder; [by specialize (Hrem eq_refl)|]. by apply agree_result.
  - injection Hb as <-. by apply agree_skip.
  - injection Hb as <-. by apply agree_skip.
Qed.

Lemma agree_start r r' : agree r r' no_parts [].
Proof. split; cbn; try done; by exists []. Qed.

Lemma agree_blocks forward as_reminder r blocks p p' l :
  (as_reminder = true -> r = System) -> foldM_res (convert_block json_dumps py_str forward as_reminder r) p blocks = Ok p' ->
  agree r (spoken_role as_reminder r) p l ->
  agree r (spoken_role as_reminder r) p' (l ++ mjoin (map (block_said json_dumps py_str forward as_reminder r) blocks)).
Proof.
  intros Hrem. revert p l. induction blocks as [|b blocks IH]; intros p l; cbn; [intros [= <-]; by rewrite app_nil_r|].
  destruct (convert_block _ _ _ _ _ _ _) as [p1|] eqn:Hb; [|done]. intros Hp' Hag. rewrite app_assoc.
  eapply IH; [done|]. by eapply agree_block.
Qed.

Lemma omap_Some {A} (l : list A) : omap id (map Some l) = l.
Proof. induction l as [|x l IH]; cbn; [done|]. by rewrite IH. Qed.

Lemma calls_to_core calls cs :
  mapM_res (tool_call_to_core json_loads) calls = Ok (map Some cs) ->
  _tool_calls_to_core json_loads (dgetv "tool_calls" (if bool_decide (calls = []) then [] else [("tool_calls", VList calls)]))
  = Ok (nonempty_list (Some cs)).
Proof.
  intros H. case_bool_decide as Hc.
  - subst. cbn in *. by destruct cs.
  - change (dgetv "tool_calls" [("tool_calls", VList calls)]) with (VList calls). cbn [_tool_calls_to_core]. rewrite H.
    cbn [mbind res_bind]. by rewrite omap_Some.
Qed.

(** A message that is not a tool's. *)
Lemma plain_to_core role c calls cs :
  role ∈ ["system"; "user"; "assistant"] -> valid_content (filled c) = true ->
  mapM_res (tool_call_to_core json_loads) calls = Ok (map Some cs) ->
  message_to_core json_loads (openai_message role c calls)
  = Ok {| cm_role := role; cm_content := filled c; cm_tool_call_id := None;
          cm_tool_calls := nonempty_list (Some cs) |}.
Proof.
  intros Hr Hv Hcs%calls_to_core. unfold message_to_core, openai_message.
  change (dget_default "role" (VStr "user") ([("role", VStr role); ("content", c)] ++ _)) with (VStr role).
  change (dget_default "content" (VStr "") ([("role", VStr role); ("content", c)] ++ _)) with c.
  change (dgetv "tool_calls" ([("role", VStr role); ("content", c)] ++ ?x)) with (dgetv "tool_calls" x).
  rewrite Hcs. cbn [mbind res_bind].
  assert (Hr' : bool_decide (role ∈ ["system"; "user"; "assistant"; "tool"]) = true).
  { apply bool_decide_eq_true_2. revert Hr. rewrite !elem_of_cons, elem_of_nil. tauto. }
  rewrite Hr'.
  assert (Hid : dgetv "tool_call_id" ([("role", VStr role); ("content", c)]
    ++ if bool_decide (calls = []) then [] else [("tool_calls", VList calls)]) = VNone) by (clear; by case_bool_decide).
  by rewrite Hid, Hv.
Qed.

Lemma only_text_said r d : only_text d = true -> part_ok (VDict d) = true ->
  exists text, dget_default "text" (VStr "") d = VStr text /\ part_said r (VDict d) = says r text None.
Proof.
  unfold only_text, part_ok, part_said, dgetv, dget_default, dhas. intros [[_ Hk]%andb_true_iff Hh]%andb_true_iff Hok.
  destruct (dget "text" d) as [[]|] eqn:Ht; try done. eexists. split; [reflexivity|].
  unfold mark_of, dgetv, dget_default. destruct (dget "cache_control" d) as [v|] eqn:Hc; [|done].
  apply forallb_Forall in Hk. rewrite Forall_forall in Hk. specialize (Hk "cache_control").
  apply dget_elem_of in Hc. assert (Hin : "cache_control" ∈ dkeys d) by (apply list_elem_of_fmap; by exists ("cache_control", v)).
  by specialize (Hk Hin).
Qed.

Lemma simple_content_said r l : Forall (fun v => part_ok v = true) l ->
  let c := filled (simple_content l) in
  valid_content c = true /\ content_said r c = mjoin (map (part_said r) l).
Proof.
  intros Hl. assert (Hvl : forallb is_dict l = true) by by apply forallb_Forall, part_ok_dict.
  destruct l as [|v [|v' l]]; [done| |by destruct v].
  apply Forall_inv in Hl as Hv. destruct v as [| | | | | |d]; try done. cbn [simple_content]. destruct (only_text d) eqn:Ho; [|done].
  destruct (only_text_said r d Ho Hv) as (text & -> & Hs). split; [done|]. cbn -[part_said]. by rewrite Hs, app_nil_r.
Qed.

Lemma all_said_single m : all_said [m] = core_said m.
Proof. unfold all_said. cbn. by rewrite app_nil_r. Qed.

Lemma simple_content_VNone l : simple_content l = VNone -> Forall (fun v => part_ok v = true) l -> l = [].
Proof.
  destruct l as [|v [|? ?]]; [done| |by destruct v]. intros Hv Hok%Forall_inv. destruct v as [| | | | | |d]; try done.
  cbn in Hv. destruct (only_text d) eqn:Ho; [|done]. destruct (only_text_said "" d Ho Hok) as (text & Ht & _). by rewrite Ht in Hv.
Qed.

Lemma truthy_calls role c calls :
  truthy (dgetv "tool_calls" (openai_message role c calls)) = negb (bool_decide (calls = [])).
Proof. by destruct calls. Qed.

(** What is sent when the blocks are done: the parts left over after results, one message, or
    nothing. *)
Inductive finished (as_reminder : bool) (r : Role) (p : parts) : Prop :=
| results_done : r = User -> as_reminder = false -> tool_calls_list p = [] ->
    finish_message as_reminder r p = sent p ++ (if bool_decide (content_list p = []) then [] else [user_parts (content_list p)]) ->
    finished as_reminder r p
| one_message cs : sent p = [] -> mapM_res (tool_call_to_core json_loads) (tool_calls_list p) = Ok (map Some cs) ->
    mapM_res (message_to_core json_loads) (finish_message as_reminder r p)
    = Ok [{| cm_role := spoken_role as_reminder r; cm_content := filled (simple_content (content_list p)); cm_tool_call_id := None;
             cm_tool_calls := nonempty_list (Some cs) |}] ->
    (r = Assistant \/ content_list p <> []) -> finished as_reminder r p
| no_message : sent p = [] -> tool_calls_list p = [] -> content_list p = [] -> r <> Assistant ->
    finish_message as_reminder r p = [] -> finished as_reminder r p.

Lemma finish_shape as_reminder r p l :
  (as_reminder = true -> r = System) -> agree r (spoken_role as_reminder r) p l -> finished as_reminder r p.
Proof.
  intros Hrem [_ (cs & Hcs & _) Hd Ha Hu Hca]. destruct (is_tool_response p) eqn:Ht.
  - assert (r = User) as -> by auto. apply results_done; [done| |by apply Hca|unfold finish_message; by rewrite Ht].
    destruct as_reminder; [by specialize (Hrem eq_refl)|done].
  - destruct (simple_content_said (spoken_role as_reminder r) _ Hd) as [Hv _].
    assert (Hrole : spoken_role as_reminder r ∈ ["system"; "user"; "assistant"]).
    { unfold spoken_role. rewrite !elem_of_cons. destruct as_reminder, r; auto. }
    assert (Hcore := plain_to_core _ _ _ _ Hrole Hv Hcs).
    assert (Hfin : finish_message as_reminder r p =
      if negb (bool_decide (simple_content (content_list p) = VNone)) || negb (bool_decide (tool_calls_list p = []))
      then [openai_message (spoken_role as_reminder r) (simple_content (content_list p)) (tool_calls_list p)]
      else if bool_decide (r = Assistant) then [openai_message (spoken_role as_reminder r) (VStr "") []] else []).
    { unfold finish_message. rewrite Ht, (Ha eq_refl), truthy_calls. cbn [app].
      change (dgetv "content" (openai_message _ ?c _)) with c. change (if as_reminder then "user" else role_name r) with (spoken_role as_reminder r).
      destruct (tool_calls_list p); [|by rewrite orb_true_r]. destruct (bool_decide_reflect (simple_content (content_list p) = VNone)) as [->|Hn]; [|done].
      by destruct r. }
    destruct (negb _ || negb _) eqn:Hsend.
    + eapply (one_message _ _ _ cs); [by apply Ha|done|rewrite Hfin; cbn [mapM_res]; by rewrite Hcore|].
      destruct (decide (r = Assistant)) as [|Hr]; [by left|right]. intros Hn. by rewrite Hn, (Hca Hr) in Hsend.
    + apply orb_false_iff in Hsend as [Hn%negb_false_iff%bool_decide_eq_true Hn'%negb_false_iff%bool_decide_eq_true].
      apply simple_content_VNone in Hn as Hcl; [|done]. case_bool_decide as Hr.
      * eapply (one_message _ _ _ []); [by apply Ha|by rewrite Hn'|rewrite Hfin, Hcl|by left]. subst r. by destruct as_reminder.
      * apply no_message; auto.
Qed.

Lemma finish_said as_reminder r p l :
  (as_reminder = true -> r = System) -> agree r (spoken_role as_reminder r) p l ->
  exists ms, mapM_res (message_to_core json_loads) (finish_message as_reminder r p) = Ok ms /\
    all_said ms = List.filter (fun s => negb (is_call s)) l ++ List.filter is_call l.
Proof.
  intros Hrem Hag. pose proof (finish_shape _ _ _ _ Hrem Hag) as Hshape. destruct Hag as [(ms & Hms & Hl) (cs & Hcs & Hc) Hd _ _ _].
  rewrite Hl, Hc. destruct Hshape as [-> -> Hnc ->|cs' Hsent Hcs' Hfin _|Hsent Hnc Hcl _ ->].
  - rewrite Hnc in Hcs. destruct cs; [|done].
    destruct (flushed_to_core _ Hd) as (fs & Hfs & Hfsaid). exists (ms ++ fs). split; [by apply mapM_res_app|].
    cbn [map]. by rewrite all_said_app, Hfsaid, app_nil_r.
  - rewrite Hsent in Hms. injection Hms as <-. rewrite Hcs in Hcs'. injection Hcs' as Hcs'%(inj (map Some)). subst cs'.
    eexists. split; [exact Hfin|]. rewrite all_said_single. unfold core_said. cbn [cm_tool_call_id cm_role cm_content cm_tool_calls].
    rewrite (proj2 (simple_content_said _ _ Hd)). by destruct cs.
  - rewrite Hsent in Hms. injection Hms as <-. rewrite Hnc in Hcs. destruct cs; [|done]. rewrite Hcl. by exists [].
Qed.

Lemma convert_message_said forward started m out :
  convert_message json_dumps py_str forward started m = Ok out ->
  exists ms, mapM_res (message_to_core json_loads) out = Ok ms /\
    all_said ms = message_said json_dumps py_str forward started m.
Proof.
  unfold convert_message, message_said, message_blocks. set (rem := bool_decide _ && _).
  assert (Hrem : rem = true -> m_role m = System) by by intros [H%bool_decide_eq_true _]%andb_true_iff.
  destruct (m_content m) as [text|blocks].
  - intros [= <-]. apply finish_said; [done|]. cbn [map mjoin list_join]. rewrite app_nil_r.
    apply (agree_block forward rem _ no_parts (ContentBlockText text None) _ [] Hrem); [|apply agree_start].
    by destruct forward.
  - destruct (foldM_res _ _ _) as [p|] eqn:Hp; [|done]. intros [= <-]. apply finish_said; [done|].
    apply (agree_blocks forward rem _ _ _ _ [] Hrem Hp), agree_start.
Qed.

Lemma convert_messages_said forward started l out :
  convert_messages json_dumps py_str forward started l = Ok out ->
  exists ms, mapM_res (message_to_core json_loads) out = Ok ms /\
    all_said ms = conversation_said json_dumps py_str forward started l.
Proof.
  revert started out. induction l as [|m l IH]; intros started out; cbn; [intros [= <-]; by exists []|].
  destruct (convert_message _ _ _ _ _) as [o1|] eqn:H1; [|done]. cbn.
  destruct (convert_messages _ _ _ _ _) as [o2|] eqn:H2; [|done]. intros [= <-].
  destruct (convert_message_said _ _ _ _ H1) as (ms1 & Hm1 & Hs1). destruct (IH _ _ H2) as (ms2 & Hm2 & Hs2).
  exists (ms1 ++ ms2). split; [by apply mapM_res_app|]. by rewrite all_said_app, Hs1, Hs2.
Qed.

Lemma follow_app {A S} (step : S -> A -> option S) s l l' : follow step s (l ++ l') = s' ← follow step s l; follow step s' l'.
Proof. revert s. induction l as [|x l IH]; intros s; cbn; [done|]. destruct (step s x); cbn; [apply IH|done]. Qed.

(** What was sent, and the parts that wait to be sent, against the client's blocks. *)
Definition pending (l : list value) (o : option (list string)) : option (list string) :=
  open ← o; if bool_decide (l = []) then Some open else speak open open.

Lemma pending_part l v o : pending (l ++ [v]) o = open ← pending l o; speak open open.
Proof.
  unfold pending, speak. destruct o as [open|]; [|done]. cbn. rewrite (bool_decide_eq_false_2 (l ++ [v] = [])) by by destruct l.
  destruct (bool_decide (l = [])); [done|]. by destruct open.
Qed.

Lemma flushed_follow l open : Forall (fun v => part_ok v = true) l ->
  exists ms, mapM_res (message_to_core json_loads) (if bool_decide (l = []) then [] else [user_parts l]) = Ok ms /\
    follow core_step open ms = pending l (Some open).
Proof.
  intros Hd. unfold pending. case_bool_decide as Hl; [by exists []|]. eexists. split.
  - cbn [mapM_res]. by rewrite parts_to_core by by apply part_ok_dict.
  - cbn. unfold core_step, speak. cbn. by destruct open.
Qed.

Lemma follow_block forward as_reminder r p b p' open open' :
  r <> Assistant -> Forall (fun v => part_ok v = true) (content_list p) ->
  convert_block json_dumps py_str forward as_reminder r p b = Ok p' ->
  (exists ms, mapM_res (message_to_core json_loads) (sent p) = Ok ms /\ open' = pending (content_list p) (follow core_step open ms)) ->
  Forall (fun v => part_ok v = true) (content_list p') /\
  exists ms, mapM_res (message_to_core json_loads) (sent p') = Ok ms /\
    (o ← open'; block_step r o b) = pending (content_list p') (follow core_step open ms).
Proof.
  intros Hr Hd Hb (ms & Hms & ->).
  assert (Hsame : (o ← pending (content_list p) (follow core_step open ms); Some o) = pending (content_list p) (follow core_step open ms))
    by by destruct (pending _ _).
  destruct b as [text cc|mt data|id name input|id c ie cc|th sg|data]; cbn in *.
  - injection Hb as <-. cbn. split; [apply Forall_app; split; [done|by repeat constructor; destruct cc, forward]|].
    exists ms. by rewrite pending_part.
  - case_bool_decide; injection Hb as <-; cbn; [|by split; [|exists ms]].
    split; [apply Forall_app; split; [done|by repeat constructor]|]. exists ms. by rewrite pending_part.
  - rewrite bool_decide_eq_false_2 in Hb by done. injection Hb as <-. split; [done|]. by exists ms.
  - case_bool_decide as Hu; injection Hb as <-; cbn; [|by split; [|exists ms]]. split; [constructor|].
    destruct (result_to_core id (result_text json_dumps py_str c) (marker forward cc)) as (m & Hm & _ & _ & Hid).
    destruct (flushed_follow (content_list p) [] Hd) as (fs & Hfs & _).
    exists (ms ++ fs ++ [m]). split.
    { apply mapM_res_app; [done|]. apply mapM_res_app; [done|]. cbn [mapM_res]. by rewrite Hm. }
    rewrite !follow_app. destruct (follow core_step open ms) as [o1|]; [|done]. cbn [mbind option_bind].
    destruct (flushed_follow (content_list p) o1 Hd) as (fs' & Hfs' & Hf). rewrite Hfs in Hfs'. injection Hfs' as <-.
    rewrite follow_app, Hf. unfold pending at 2. destruct (pending (content_list p) (Some o1)) as [o2|]; [|done]. cbn.
    unfold core_step. rewrite Hid. by destruct (take_answer id o2).
  - injection Hb as <-. split; [done|]. by exists ms.
  - injection Hb as <-. split; [done|]. by exists ms.
Qed.

Lemma follow_blocks forward as_reminder r blocks p p' open open' :
  r <> Assistant -> Forall (fun v => part_ok v = true) (content_list p) ->
  foldM_res (convert_block json_dumps py_str forward as_reminder r) p blocks = Ok p' ->
  (exists ms, mapM_res (message_to_core json_loads) (sent p) = Ok ms /\ open' = pending (content_list p) (follow core_step open ms)) ->
  exists ms, mapM_res (message_to_core json_loads) (sent p') = Ok ms /\
    (o ← open'; follow (block_step r) o blocks) = pending (content_list p') (follow core_step open ms).
Proof.
  intros Hr. revert p open'. induction blocks as [|b blocks IH]; intros p open' Hd; cbn.
  - intros [= <-] (ms & Hms & ->). exists ms. split; [done|]. by destruct (pending _ _).
  - destruct (convert_block _ _ _ _ _ _ _) as [p1|] eqn:Hb; [|done]. intros Hp' Hs.
    destruct (follow_block _ _ _ _ _ _ _ _ Hr Hd Hb Hs) as (Hd1 & H1).
    destruct (IH p1 (o ← open'; block_step r o b) Hd1 Hp') as (ms & Hms & Hf).
    { destruct H1 as (ms & ? & ?). by exists ms. }
    exists ms. split; [done|]. rewrite <- Hf. by destruct open'.
Qed.

(** The parts a message ends with. *)
Definition message_parts (forward started : bool) (m : Message) : res parts :=
  foldM_res (convert_block json_dumps py_str forward (bool_decide (m_role m = System) && started) (m_role m)) no_parts (message_blocks m).

Lemma convert_message_parts forward started m :
  convert_message json_dumps py_str forward started m
  = p ← message_parts forward started m; Ok (finish_message (bool_decide (m_role m = System) && started) (m_role m) p).
Proof.
  unfold convert_message, message_parts, message_blocks. destruct (m_content m) as [text|blocks]; [|done]. cbn. by destruct forward.
Qed.

Lemma message_agree forward started m p :
  message_parts forward started m = Ok p ->
  agree (m_role m) (spoken_role (bool_decide (m_role m = System) && started) (m_role m)) p
    (mjoin (map (block_said json_dumps py_str forward (bool_decide (m_role m = System) && started) (m_role m)) (message_blocks m))).
Proof.
  intros Hp. apply (agree_blocks forward _ _ _ _ _ []) in Hp; [done| |apply agree_start].
  by intros [H%bool_decide_eq_true _]%andb_true_iff.
Qed.

Lemma call_ids_said forward as_reminder blocks cs :
  List.filter is_call (mjoin (map (block_said json_dumps py_str forward as_reminder Assistant) blocks)) = map call_said cs ->
  map tc_id cs = call_ids blocks.
Proof.
  intros H. transitivity (map (fun s => match s with Calls id _ _ => id | _ => "" end) (map call_said cs)).
  { rewrite map_map. by apply map_ext. }
  rewrite <- H. clear H. induction blocks as [|b blocks IH]; [done|]. cbn [map]. change (mjoin (?x :: ?l)) with (x ++ mjoin l).
  rewrite filter_app_std, map_app, IH.
  destruct b; try done. cbn [block_said]. by rewrite (proj1 (says_no_call _ _ _)).
Qed.

Lemma message_follow forward started m out open :
  convert_message json_dumps py_str forward started m = Ok out ->
  exists ms, mapM_res (message_to_core json_loads) out = Ok ms /\ follow core_step open ms = message_step open m.
Proof.
  rewrite convert_message_parts. destruct (message_parts forward started m) as [p|] eqn:Hp; [|done]. intros [= <-].
  pose proof (message_agree _ _ _ _ Hp) as Hag. set (rem := bool_decide _ && _) in *.
  assert (Hrem : rem = true -> m_role m = System) by by intros [H%bool_decide_eq_true _]%andb_true_iff.
  pose proof (finish_shape _ _ _ _ Hrem Hag) as Hshape. unfold message_step.
  case_bool_decide as Hr.
  - destruct Hshape as [Hu _ _ _|cs Hsent Hcs Hfin _|_ _ _ Hr' _]; [by rewrite Hu in Hr| |done].
    eexists. split; [exact Hfin|]. destruct (ag_calls _ _ _ _ Hag) as (cs' & Hcs' & Hsaid). rewrite Hcs in Hcs'.
    injection Hcs' as Hcs'%(inj (map Some)). subst cs'. rewrite Hr in Hsaid. rewrite <- (call_ids_said _ _ _ _ Hsaid).
    cbn. unfold core_step. cbn. unfold speak. destruct (bool_decide (open = [])); [|done]. by destruct cs.
  - destruct (follow_blocks forward rem (m_role m) (message_blocks m) no_parts p open (Some open)) as (ms & Hms & Hf);
      [done|constructor|exact Hp|by exists []|]. cbn [mbind option_bind] in Hf. rewrite Hf.
    destruct Hshape as [Hu Hrf Hnc ->|cs Hsent Hcs Hfin Hne|Hsent Hnc Hcl _ ->].
    + destruct (flushed_follow (content_list p) open (ag_dicts _ _ _ _ Hag)) as (fs & Hfs & _). exists (ms ++ fs).
      split; [by apply mapM_res_app|]. rewrite follow_app. destruct (follow core_step open ms) as [o|]; [|done].
      destruct (flushed_follow (content_list p) o (ag_dicts _ _ _ _ Hag)) as (fs' & Hfs' & Hfo). rewrite Hfs in Hfs'. by injection Hfs' as <-.
    + eexists. split; [exact Hfin|]. rewrite Hsent in Hms. injection Hms as <-. rewrite (ag_caller _ _ _ _ Hag Hr) in Hcs.
      destruct cs; [|done]. destruct Hne as [|Hne]; [done|]. cbn. rewrite bool_decide_eq_false_2 by done. unfold core_step, speak. cbn.
      case_bool_decide; by subst.
    + exists []. split; [done|]. rewrite Hsent in Hms. injection Hms as <-. by rewrite Hcl.
Qed.

Lemma messages_follow forward started l out open :
  convert_messages json_dumps py_str forward started l = Ok out ->
  exists ms, mapM_res (message_to_core json_loads) out = Ok ms /\ follow core_step open ms = follow message_step open l.
Proof.
  revert started out open. induction l as [|m l IH]; intros started out open; cbn; [intros [= <-]; by exists []|].
  destruct (convert_message _ _ _ _ _) as [o1|] eqn:H1; [|done]. cbn.
  destruct (convert_messages _ _ _ _ _) as [o2|] eqn:H2; [|done]. intros [= <-].
  destruct (message_follow _ _ _ _ open H1) as (ms1 & Hm1 & Hf1).
  destruct (IH _ _ (default [] (message_step open m)) H2) as (ms2 & Hm2 & Hf2).
  exists (ms1 ++ ms2). split; [by apply mapM_res_app|]. rewrite follow_app, Hf1.
  by destruct (message_step open m).
Qed.

End Conversion.

Lemma is_given_ne o s : is_given o = Some s -> String.eqb s "" = false.
Proof. destruct o as [[|c o]|]; try done. by intros [= <-]. Qed.

Lemma system_prompt_given forward s text mark : system_prompt forward s = (Some text, mark) -> String.eqb text "" = false.
Proof.
  unfold system_prompt. destruct s as [[text'|[|b blocks]]|]; try done;
    intros Hg%(f_equal fst); exact (is_given_ne _ _ Hg).
Qed.

Lemma system_to_core loads config forward provider s :
  exists ms, mapM_res (message_to_core loads) (system_messages config forward provider s) = Ok ms /\
    all_said ms = system_said config forward provider s /\ follow core_step [] ms = Some [].
Proof.
  unfold system_messages, system_said. destruct (system_prompt forward s) as [[text|] mark] eqn:Hs; [|by exists []].
  apply system_prompt_given in Hs. destruct (bool_decide _); [|by exists []].
  destruct (match mark with Some m => _ | None => _ end) as [m|].
  - exists [{| cm_role := "system"; cm_content := VList [text_part text (Some m)]; cm_tool_call_id := None; cm_tool_calls := None |}].
    split; [reflexivity|split; [|reflexivity]]. rewrite all_said_single. unfold core_said. cbn -[part_said].
    rewrite part_said_text. unfold says. by rewrite Hs.
  - exists [{| cm_role := "system"; cm_content := VStr text; cm_tool_call_id := None; cm_tool_calls := None |}].
    split; [reflexivity|split; [|reflexivity]]. rewrite all_said_single. unfold core_said. cbn -[says]. unfold says. by rewrite Hs.
Qed.

(** The messages of a converted request. *)
Lemma converted_messages dumps str repr spec config r provider resolved d :
  convert_anthropic_to_openai dumps str repr spec config r provider resolved = Ok d ->
  let forward := _model_supports_cache_control spec (default (rq_model r) (is_given resolved)) in
  exists out, convert_messages dumps str forward false (rq_messages r) = Ok out /\
    dgetv "messages" d = VList (map VDict (system_messages config forward provider (rq_system r) ++ out)).
Proof.
  unfold convert_anthropic_to_openai.
  destruct (check_forced _ _ _) as [[]|]; [|done]. cbn [mbind res_bind].
  destruct (convert_messages _ _ _ _ _) as [out|] eqn:Ho; [|done]. cbn [mbind res_bind].
  destruct (convert_tool_choice _ _ _) as [choice|]; [|done]. intros [= <-]. by exists out.
Qed.

(** *** The order of roles *)

Section Roles.
Context (dumps : value -> res string) (str : value -> string).

Definition is_system (d : dict) : bool := py_eq (dgetv "role" d) (VStr "system").

Definition not_system (d : dict) : Prop := is_system d = false.

Lemma sent_not_system forward as_reminder r p b p' :
  convert_block dumps str forward as_reminder r p b = Ok p' -> Forall not_system (sent p) -> Forall not_system (sent p').
Proof.
  destruct b; cbn; try (by intros [= <-]); try case_bool_decide; try (by intros [= <-]).
  - destruct (dumps _); [|done]. by intros [= <-].
  - intros [= <-] Hp. cbn. apply Forall_app. split; [done|]. apply Forall_app. split; [|repeat constructor].
    case_bool_decide; repeat constructor.
Qed.

Lemma blocks_not_system forward as_reminder r blocks p p' :
  foldM_res (convert_block dumps str forward as_reminder r) p blocks = Ok p' -> Forall not_system (sent p) -> Forall not_system (sent p').
Proof.
  revert p. induction blocks as [|b blocks IH]; intros p; cbn; [by intros [= <-]|].
  destruct (convert_block _ _ _ _ _ _ _) as [p1|] eqn:Hb; [|done]. intros Hp' Hp. eapply IH; [done|]. by eapply sent_not_system.
Qed.

Lemma is_system_message role c calls : is_system (openai_message role c calls) = String.eqb role "system".
Proof. reflexivity. Qed.

(** Once the conversation has started, no message is a system message. *)
Lemma started_not_system forward m out : convert_message dumps str forward true m = Ok out -> Forall not_system out.
Proof.
  unfold convert_message. rewrite andb_true_r. destruct (match m_content m with PlainText _ => _ | Blocks _ => _ end) as [p|] eqn:Hp; [|done].
  intros [= <-]. assert (Hsent : Forall not_system (sent p)).
  { destruct (m_content m); [injection Hp as <-; constructor|]. eapply blocks_not_system; [done|constructor]. }
  unfold finish_message. destruct (is_tool_response p); apply Forall_app; (split; [done|]).
  - destruct (bool_decide (content_list p = [])); repeat constructor.
  - destruct (_ || _); [|destruct (_ && _)]; repeat constructor; unfold not_system; rewrite ?is_system_message; by destruct (m_role m).
Qed.

Definition speaks (m : Message) : bool := negb (bool_decide (m_role m = System)).

Lemma convert_messages_app forward started l l' :
  convert_messages dumps str forward started (l ++ l')
  = out ← convert_messages dumps str forward started l;
    out' ← convert_messages dumps str forward (started || existsb speaks l) l';
    Ok (out ++ out').
Proof.
  revert started. induction l as [|m l IH]; intros started; cbn.
  - rewrite orb_false_r. by destruct (convert_messages _ _ _ _ _).
  - destruct (convert_message _ _ _ _ _) as [o|]; [|done]. cbn. rewrite IH, orb_assoc.
    destruct (convert_messages _ _ _ _ l) as [o1|]; [|done]. cbn.
    change (negb (bool_decide (m_role m = System))) with (speaks m).
    destruct (convert_messages _ _ _ _ l') as [o2|]; [|done]. cbn. by rewrite app_assoc.
Qed.

Lemma started_messages_not_system forward l out :
  convert_messages dumps str forward true l = Ok out -> Forall not_system out.
Proof.
  revert out. induction l as [|m l IH]; intros out; cbn; [intros [= <-]; constructor|].
  destruct (convert_message _ _ _ _ _) as [o|] eqn:Hm; [|done]. cbn.
  destruct (convert_messages _ _ _ _ _) as [o'|] eqn:Hl; [|done]. intros [= <-]. apply Forall_app. split; [|by apply IH].
  by eapply started_not_system.
Qed.
End Roles.

Definition with_messages (l : list Message) (r : MessagesRequest) : MessagesRequest := {|
  rq_model := rq_model r; rq_messages := l; rq_system := rq_system r; rq_max_tokens := rq_max_tokens r; rq_metadata := rq_metadata r;
  rq_stop_sequences := rq_stop_sequences r; rq_stream := rq_stream r; rq_temperature := rq_temperature r; rq_top_p := rq_top_p r;
  rq_top_k := rq_top_k r; rq_tools := rq_tools r; rq_tool_choice := rq_tool_choice r |}.

(** *** Fields *)

Lemma dgetv_opt_ne {A} k k' (f : A -> value) o d : k <> k' -> dgetv k (opt_field k' f o ++ d) = dgetv k d.
Proof. intros Hk. unfold dgetv, dget_default. destruct o; [|done]. cbn. by rewrite decide_False. Qed.

Lemma dgetv_opt_eq {A} k (f : A -> value) o d : dgetv k (opt_field k f o ++ d) = match o with Some a => f a | None => dgetv k d end.
Proof. unfold dgetv, dget_default. destruct o; [|done]. cbn. by rewrite decide_True. Qed.

Lemma request_choice config r forward l choice :
  dgetv "tools" (openai_request config r forward l choice)
  = (match retained_tools config r with [] => VNone | l => VList (map openai_tool l) end) /\
  dgetv "tool_choice" (openai_request config r forward l choice) = default VNone choice.
Proof.
  unfold openai_request. split.
  - change (dgetv "tools" ([?a; ?b; ?c; ?e] ++ ?d)) with (dgetv "tools" d). rewrite !dgetv_opt_ne, dgetv_opt_eq by done.
    destruct (retained_tools config r); [|done]. cbn. by destruct choice.
  - change (dgetv "tool_choice" ([?a; ?b; ?c; ?e] ++ ?d)) with (dgetv "tool_choice" d). rewrite !dgetv_opt_ne by done.
    by destruct choice.
Qed.

(** *** Sanitizing twice *)

Definition empties : list value := [VNone; VStr ""; VInt 0].

Definition strip_param (k : string) (d : dict) : dict :=
  match dget k d with Some v => if existsb (py_eq v) empties then ddel k d else d | None => d end.

Definition drop_pages (d : dict) : dict :=
  if dhas "pages" d && negb (_is_pdf_path (dgetv "file_path" d)) then ddel "pages" d else d.

Lemma fst_strip_empty k acc : fst (strip_empty acc (k, empties)) = strip_param k (fst acc).
Proof. unfold strip_empty, strip_param. cbn [fst snd]. destruct (dget k (fst acc)); [|done]. by destruct (existsb _ _). Qed.

Lemma sanitize_read d : sanitize_tool_input "Read" d = strip_param "limit" (strip_param "offset" (strip_param "pages" (drop_pages d))).
Proof.
  unfold sanitize_tool_input, sanitize_tool_input_with_report, drop_pages.
  change (dget "Read" _STRIP_EMPTY_PARAMS) with (Some [("pages", empties); ("offset", empties); ("limit", empties)]).
  cbv beta iota zeta. cbn [fold_left]. rewrite !fst_strip_empty. change (String.eqb "Read" "Read") with true. cbn [andb].
  by destruct (dhas "pages" d && _).
Qed.

Lemma sanitize_other_tool name d : name <> "Read" -> sanitize_tool_input name d = d.
Proof.
  intros Hn. unfold sanitize_tool_input, sanitize_tool_input_with_report, _STRIP_EMPTY_PARAMS. cbn [dget]. by rewrite decide_False.
Qed.

Lemma NoDup_strip k d : NoDup (dkeys d) -> NoDup (dkeys (strip_param k d)).
Proof. unfold strip_param. repeat case_match; auto using NoDup_ddel. Qed.

Lemma dget_strip_ne j k d : j <> k -> dget j (strip_param k d) = dget j d.
Proof. intros Hj. unfold strip_param. repeat case_match; auto using dget_ddel_ne. Qed.

Lemma strip_idem k d : NoDup (dkeys d) -> forall v, dget k (strip_param k d) = Some v -> existsb (py_eq v) empties = false.
Proof.
  intros Hd v. unfold strip_param. destruct (dget k d) as [w|] eqn:Hk; [|by rewrite Hk].
  destruct (existsb _ _) eqn:He; [by rewrite dget_ddel_eq|]. rewrite Hk. by intros [= <-].
Qed.

Lemma strip_done k d : (forall v, dget k d = Some v -> existsb (py_eq v) empties = false) -> strip_param k d = d.
Proof. unfold strip_param. destruct (dget k d) as [v|]; [|done]. intros H. by rewrite H. Qed.

Lemma sanitize_idem name d : NoDup (dkeys d) -> sanitize_tool_input name (sanitize_tool_input name d) = sanitize_tool_input name d.
Proof.
  intros Hd. destruct (decide (name = "Read")) as [->|]; [|by rewrite !sanitize_other_tool]. rewrite !sanitize_read.
  set (d0 := drop_pages d). set (d1 := strip_param "limit" (strip_param "offset" (strip_param "pages" d0))).
  assert (H0 : NoDup (dkeys d0)) by (unfold d0, drop_pages; case_match; auto using NoDup_ddel).
  assert (Hpages : dget "pages" d1 = dget "pages" (strip_param "pages" d0)) by (unfold d1; by rewrite 2!dget_strip_ne).
  assert (Hoffset : dget "offset" d1 = dget "offset" (strip_param "offset" (strip_param "pages" d0))) by (unfold d1; by rewrite dget_strip_ne).
  assert (Hfile : dgetv "file_path" d1 = dgetv "file_path" d).
  { unfold dgetv, dget_default, d1. rewrite !dget_strip_ne by done. unfold d0, drop_pages.
    destruct (dhas "pages" d && _); [by rewrite dget_ddel_ne|done]. }
  assert (Hdrop : drop_pages d1 = d1).
  { unfold drop_pages. rewrite Hfile. destruct (_is_pdf_path _) eqn:Hpdf; [by rewrite andb_false_r|]. unfold dhas. rewrite Hpages.
    assert (dget "pages" (strip_param "pages" d0) = None) as ->; [|done].
    assert (Hno : dget "pages" d0 = None).
    { unfold d0, drop_pages. rewrite Hpdf, andb_true_r. unfold dhas. destruct (dget "pages" d) eqn:Hp; [by apply dget_ddel_eq|done]. }
    unfold strip_param. by rewrite Hno. }
  rewrite Hdrop, (strip_done "pages" d1), (strip_done "offset" d1), (strip_done "limit" d1); [done| | |].
  - unfold d1. apply strip_idem; auto using NoDup_strip.
  - rewrite Hoffset. apply strip_idem; auto using NoDup_strip.
  - rewrite Hpages. apply strip_idem; auto using NoDup_strip.
Qed.

(** *** Responses *)

Definition sanitized (tc : ToolCall) : ToolCall :=
  {| tc_id := tc_id tc; tc_name := tc_name tc; tc_arguments := sanitize_tool_input (tc_name tc) (tc_arguments tc) |}.

Definition call_block (tc : ToolCall) : ContentBlock :=
  ContentBlockToolUse (tc_id tc) (tc_name tc) (sanitize_tool_input (tc_name tc) (tc_arguments tc)).

Lemma Ok_inj {A} (x y : A) : Ok x = Ok y -> x = y.
Proof. congruence. Qed.

Section Responses.
Context (dumps : value -> res string) (loads : string -> res value) (str : value -> string).
Context (fresh_id : string) (fresh_tool_id : nat -> string) (int_field : value -> option Z).
Hypothesis loads_dumps : forall d s, dumps (VDict d) = Ok s -> loads s = Ok (VDict d) /\ py_strip s <> "".
Hypothesis int_field_int : forall z, int_field (VInt z) = Some z.

Lemma call_block_back i tc v : openai_tool_call dumps tc = Ok v -> tool_use_block loads fresh_tool_id i v = Ok (Some (call_block tc)).
Proof.
  unfold openai_tool_call. destruct (dumps _) as [s|] eqn:Hs; [|done]. intros [= <-]. destruct (loads_dumps _ _ Hs) as [Hl _].
  assert (Hi : tool_input loads (tc_name tc) (VStr s) = VDict (sanitize_tool_input (tc_name tc) (tc_arguments tc))).
  { unfold tool_input. by rewrite Hl. }
  change (tool_use_block loads fresh_tool_id i (tool_call_value (tc_id tc) (tc_name tc) s)) with
    (match tool_input loads (tc_name tc) (VStr s) with
     | VDict input => Ok (Some (ContentBlockToolUse (tc_id tc) (tc_name tc) input))
     | _ => raise ValidationError "ContentBlockToolUse"
     end : res (option ContentBlock)).
  by rewrite Hi.
Qed.

Lemma call_blocks_back i l vs : mapM_res (openai_tool_call dumps) l = Ok vs ->
  tool_use_blocks loads fresh_tool_id i vs = Ok (map call_block l).
Proof.
  revert i vs. induction l as [|tc l IH]; intros i vs; cbn; [by intros [= <-]|].
  destruct (openai_tool_call dumps tc) as [v|] eqn:Hv; [|done]. cbn. destruct (mapM_res _ l) as [vs'|]; [|done]. intros [= <-].
  cbn. rewrite (call_block_back _ _ _ Hv). cbn. by rewrite (IH _ _ eq_refl).
Qed.

(** The blocks of an answer. *)
Definition answer_blocks (r : CompletionResponse) : list ContentBlock :=
  let l := (if String.eqb (cr_text r) "" then [] else [ContentBlockText (cr_text r) None]) ++ map call_block (default [] (cr_tool_calls r)) in
  match l with [] => [ContentBlockText "" None] | _ => l end.

(** The reason it ended. *)
Definition answer_stop_reason (r : CompletionResponse) : string :=
  dget_default (match is_given (cr_finish_reason r) with
                | Some s => s
                | None => if bool_decide (default [] (cr_tool_calls r) = []) then "stop" else "tool_calls"
                end) "end_turn" stop_reason_map.

Definition answer_count (key : string) (r : CompletionResponse) : Z := match cr_usage r with Some c => dget_default key 0 c | None => 0 end.

Definition answer_usage (r : CompletionResponse) : Usage :=
  {| u_input_tokens := Z.max (answer_count "prompt_tokens" r - answer_count "cached_tokens" r - answer_count "cache_write_tokens" r) 0;
     u_output_tokens := answer_count "completion_tokens" r;
     u_cache_creation_input_tokens := answer_count "cache_write_tokens" r;
     u_cache_read_input_tokens := answer_count "cached_tokens" r |}.

Lemma choice_converted text vs l finish_reason :
  mapM_res (openai_tool_call dumps) l = Ok vs ->
  convert_choice loads fresh_tool_id
    (VList [VDict [("index", VInt 0);
                   ("message", VDict ([("role", VStr "assistant"); ("content", VStr text)]
                                      ++ match vs with [] => [] | _ => [("tool_calls", VList vs)] end));
                   ("finish_reason", finish_reason)]])
  = Ok ((if String.eqb text "" then [] else [ContentBlockText text None]) ++ map call_block l, finish_reason).
Proof.
  intros Hvs. pose proof (call_blocks_back 0 _ _ Hvs) as Hb. unfold convert_choice. cbn [truthy negb first_choice mbind res_bind as_mapping].
  change (dget_default "finish_reason" _ _) with finish_reason.
  change (dget_default "message" _ _) with (VDict ([("role", VStr "assistant"); ("content", VStr text)]
    ++ match vs with [] => [] | _ => [("tool_calls", VList vs)] end)).
  cbn [py_or truthy app as_mapping mbind res_bind]. change (dgetv "content" _) with (VStr text).
  destruct vs as [|v vs].
  - injection Hb as Hb. destruct l; [|done]. by destruct text.
  - change (dgetv "tool_calls" _) with (VList (v :: vs)). cbv beta iota. rewrite Hb. by destruct text.
Qed.

Lemma valid_int_int z : valid_int int_field (VInt z) = Ok z.
Proof. unfold valid_int. by rewrite int_field_int. Qed.

Lemma answer_converted now later model name r resp :
  _core_response_to_openai dumps now later r model = Ok resp ->
  exists a, convert_openai_to_anthropic loads fresh_id fresh_tool_id int_field resp name = Some a /\
    rs_content a = answer_blocks r /\ rs_stop_reason a = answer_stop_reason r /\ rs_usage a = answer_usage r.
Proof.
  unfold _core_response_to_openai. destruct (mapM_res _ _) as [vs|] eqn:Hvs; [|done]. cbn [mbind res_bind].
  destruct (match cr_cost_usd r with Some _ => _ | None => _ end) as [micros|]; [|done]. cbn [mbind res_bind]. intros <-%Ok_inj.
  assert (Hnil : bool_decide (vs = []) = bool_decide (default [] (cr_tool_calls r) = [])).
  { destruct (default [] (cr_tool_calls r)) as [|tc l]; cbn in Hvs; [by injection Hvs as <-|].
    destruct (openai_tool_call _ _); [|done]. cbn in Hvs. destruct (mapM_res _ l); [|done]. by injection Hvs as <-. }
  unfold convert_openai_to_anthropic, convert_response, count_of.
  change (dget_default "usage" _ _) with (VDict
    [("prompt_tokens", count_of "prompt_tokens" (cr_usage r)); ("completion_tokens", count_of "completion_tokens" (cr_usage r));
     ("total_tokens", count_of "total_tokens" (cr_usage r)); ("cached_tokens", count_of "cached_tokens" (cr_usage r));
     ("cache_write_tokens", count_of "cache_write_tokens" (cr_usage r))]).
  cbn [py_or truthy as_mapping mbind res_bind].
  match goal with |- context [convert_choice _ _ ?c] => change c with
    (VList [VDict [("index", VInt 0);
                   ("message", VDict ([("role", VStr "assistant"); ("content", VStr (cr_text r))]
                                      ++ match vs with [] => [] | _ => [("tool_calls", VList vs)] end));
                   ("finish_reason", VStr match is_given (cr_finish_reason r) with
                                          | Some s => s
                                          | None => if bool_decide (vs = []) then "stop" else "tool_calls"
                                          end)]]) end.
  rewrite (choice_converted _ _ _ _ Hvs), Hnil. cbn [mbind res_bind].
  change (map_stop_reason (VStr ?s)) with (Ok (dget_default s "end_turn" stop_reason_map) : res string). cbn [mbind res_bind].
  repeat match goal with |- context [valid_int int_field ?v] =>
    let w := eval hnf in v in change v with w; rewrite (valid_int_int _); cbn [mbind res_bind] end.
  change (py_or _ (VStr fresh_id)) with (VStr ("chatcmpl-" +++ pretty (now / 1000000))). cbv beta iota.
  eexists. split; [reflexivity|]. by split_and!.
Qed.
End Responses.

(** *** An answer in the history *)

Section History.
Context (dumps : value -> res string) (loads : string -> res value) (str : value -> string).
Hypothesis loads_dumps : forall d s, dumps (VDict d) = Ok s -> loads s = Ok (VDict d) /\ py_strip s <> "".

(** The calls are collected. *)
Lemma calls_collected forward as_reminder l p p' :
  Forall (fun tc => NoDup (dkeys (tc_arguments tc))) l ->
  foldM_res (convert_block dumps str forward as_reminder Assistant) p (map call_block l) = Ok p' ->
  exists vs, p' = {| sent := sent p; content_list := content_list p; tool_calls_list := tool_calls_list p ++ vs;
                     is_tool_response := is_tool_response p |} /\
    mapM_res (tool_call_to_core loads) vs = Ok (map Some (map sanitized l)).
Proof.
  revert p. induction l as [|tc l IH]; intros p Hl; cbn.
  - intros [= <-]. exists []. rewrite app_nil_r. by destruct p.
  - apply Forall_cons in Hl as [Htc Hl]. rewrite sanitize_idem by done.
    destruct (dumps _) as [s|] eqn:Hs; [|done]. cbn. intros Hf. destruct (IH _ Hl Hf) as (vs & -> & Hvs). cbn.
    eexists (_ :: vs). rewrite <- app_assoc. split; [reflexivity|].
    cbn [mapM_res]. rewrite (call_to_core dumps loads loads_dumps _ _ _ _ Hs). cbn [mbind res_bind]. by rewrite Hvs.
Qed.

Lemma answer_in_history forward started r out :
  Forall (fun tc => NoDup (dkeys (tc_arguments tc))) (default [] (cr_tool_calls r)) ->
  convert_message dumps str forward started {| m_role := Assistant; m_content := Blocks (answer_blocks r) |} = Ok out ->
  exists m, _openai_messages_to_core loads out = Ok [m] /\
    cm_role m = "assistant" /\ cm_content m = VStr (cr_text r) /\ cm_tool_call_id m = None /\
    default [] (cm_tool_calls m) = map sanitized (default [] (cr_tool_calls r)).
Proof.
  intros Hd. rewrite convert_message_parts. destruct (message_parts _ _ _ _ _) as [p|] eqn:Hp; [|done]. intros <-%Ok_inj.
  pose proof (message_agree dumps loads str loads_dumps _ _ _ _ Hp) as Hag.
  assert (Hparts : sent p = [] /\ filled (simple_content (content_list p)) = VStr (cr_text r) /\
    mapM_res (tool_call_to_core loads) (tool_calls_list p) = Ok (map Some (map sanitized (default [] (cr_tool_calls r))))).
  { unfold message_parts, message_blocks in Hp. cbn [m_role m_content] in Hp. unfold answer_blocks in Hp.
    destruct (cr_text r) as [|c text] eqn:Ht; cbn [String.eqb app] in Hp.
    - destruct (default [] (cr_tool_calls r)) as [|tc l] eqn:Hl.
      + cbn in Hp. injection Hp as <-. by destruct forward.
      + change (map call_block (tc :: l)) with (call_block tc :: map call_block l) in Hp. cbv iota in Hp.
        destruct (calls_collected forward _ (tc :: l) no_parts p Hd Hp) as (vs & -> & Hvs). by split_and!.
    - cbn [foldM_res convert_block mbind res_bind] in Hp.
      destruct (calls_collected forward _ _ _ p Hd Hp) as (vs & -> & Hvs). by destruct forward. }
  destruct Hparts as (Hsent & Hcontent & Hcalls).
  assert (Hrem : bool_decide (Assistant = System) && started = true -> Assistant = System) by done.
  pose proof (finish_shape loads str _ _ _ _ Hrem Hag) as [Hu|cs _ Hcs Hfin _|_ _ _ Hr _]; [done| |done].
  rewrite Hcalls in Hcs. injection Hcs as Hcs%(inj (map Some)). subst cs.
  eexists. split; [exact Hfin|]. cbn. rewrite Hcontent. split_and!; try done. by destruct (default [] (cr_tool_calls r)).
Qed.
End History.

(** ** Properties *)

Section Properties.

Context (json_dumps : value -> res string) (json_loads : string -> res value) (py_str py_repr_value : value -> string).
Context (get_model_spec : string -> option ModelSpec) (config : ProxyConfig).

(** What [json.dumps] writes of a dictionary, [json.loads] reads back. *)
Definition json_inverse : Prop :=
  forall d s, json_dumps (VDict d) = Ok s -> json_loads s = Ok (VDict d) /\ py_strip s <> "".

Definition convert := convert_anthropic_to_openai json_dumps py_str py_repr_value get_model_spec config.

(** The markers of a request are forwarded. *)
Definition forwards (r : MessagesRequest) (resolved_model : option string) : bool :=
  _model_supports_cache_control get_model_spec (default (rq_model r) (is_given resolved_model)).


(** C8: A call is answered for the provider exactly when the client answered it. Providers
    refuse a conversation in which another message comes between an assistant's tool calls and
    their answers, or an answer has no call. Reading the converted messages that way gives the
    same calls without an answer, or the same refusal, as reading the client's blocks in order:
    the translation, which splits a user's message at its results and joins an assistant's
    blocks, neither breaks the order nor hides that it was broken. *)
Theorem answers_preserved r provider resolved_model d :
  json_inverse -> convert r provider resolved_model = Ok d ->
  exists messages core,
    dgetv "messages" d = VList (map VDict messages) /\ _openai_messages_to_core json_loads messages = Ok core /\
    follow core_step [] core = follow message_step [] (rq_messages r).
Proof.
  intros Hjson Hd. destruct (converted_messages _ _ _ _ _ _ _ _ _ Hd) as (out & Hout & Hmsgs).
  destruct (messages_follow _ _ _ Hjson _ _ _ _ [] Hout) as (ms & Hms & Hf).
  destruct (system_to_core json_loads config (forwards r resolved_model) provider (rq_system r)) as (ss & Hss & _ & Hsys).
  eexists _, (ss ++ ms). split; [exact Hmsgs|]. split; [by apply mapM_res_app|]. by rewrite follow_app, Hsys.
Qed.

(** C31: A growing conversation keeps its prompt. When messages are added to a request, its
    conversion changes in nothing but the messages, and these only grow at the end; what is
    added after a user or an assistant has spoken holds no system message. So a backend that
    caches the prompt's beginning, or hoists system messages to it, finds it unchanged. *)
Theorem prompt_prefix_kept r more provider resolved_model d :
  convert (with_messages (rq_messages r ++ more) r) provider resolved_model = Ok d ->
  exists messages extra,
    convert r provider resolved_model = Ok (dset "messages" (VList (map VDict messages)) d) /\
    dgetv "messages" d = VList (map VDict (messages ++ extra)) /\
    (existsb speaks (rq_messages r) = true -> Forall not_system extra).
Proof.
  unfold convert, convert_anthropic_to_openai. set (r' := with_messages _ r).
  change (check_forced get_model_spec r') with (check_forced get_model_spec r).
  change (convert_tool_choice py_repr_value config r') with (convert_tool_choice py_repr_value config r).
  change (rq_model r') with (rq_model r). change (rq_system r') with (rq_system r).
  change (rq_messages r') with (rq_messages r ++ more). cbv zeta.
  destruct (check_forced _ _ _) as [[]|]; [|done]. cbn [mbind res_bind]. rewrite convert_messages_app. cbn [orb].
  destruct (convert_messages _ _ _ _ (rq_messages r)) as [out|]; [|done]. cbn [mbind res_bind].
  destruct (convert_messages _ _ _ _ more) as [out'|] eqn:Hmore; [|done]. cbn [mbind res_bind].
  destruct (convert_tool_choice _ _ _) as [choice|]; [|done]. cbn [mbind res_bind]. intros [= <-].
  rewrite app_assoc. eexists _, out'. split; [|split; [reflexivity|]].
  - reflexivity.
  - intros Hs. rewrite Hs in Hmore. by eapply started_messages_not_system.
Qed.

(** The client asks for a tool call, and of which tool. *)
Inductive choice_intent := Free | AnyTool | ThisTool (name : value).

Definition intent_of (choice : option dict) : choice_intent :=
  match choice with
  | Some ((_ :: _) as c) =>
      if py_eq (dgetv "type" c) (VStr "any") then AnyTool
      else if py_eq (dgetv "type" c) (VStr "tool") && dhas "name" c then ThisTool (dgetv "name" c) else Free
  | _ => Free
  end.

(** The backend cannot be made to call a tool. *)
Definition cannot_force (r : MessagesRequest) (resolved_model : option string) : Prop :=
  exists spec, get_model_spec (strip_transport_model_suffix (default (rq_model r) (is_given resolved_model))) = Some spec /\
    supports_forced_tool_choice spec = false.

(** The client's choice can be met by the tools that are kept. *)
Definition available (r : MessagesRequest) : Prop :=
  match intent_of (rq_tool_choice r) with
  | Free => True
  | AnyTool => retained_tools config r <> []
  | ThisTool v => exists t, t ∈ retained_tools config r /\ v = VStr (td_tool_name t)
  end.

(** What is sent of the client's choice. *)
Definition choice_sent (r : MessagesRequest) (d : dict) : Prop :=
  dgetv "tools" d = (match retained_tools config r with [] => VNone | l => VList (map openai_tool l) end) /\
  match intent_of (rq_tool_choice r) with
  | Free => dgetv "tool_choice" d ∈ [VNone; VStr "auto"; VStr "none"]
  | AnyTool => dgetv "tool_choice" d = VStr "required"
  | ThisTool v => dgetv "tool_choice" d = VDict [("type", VStr "function"); ("function", VDict [("name", v)])]
  end.

Lemma tool_choice_spec r :
  match convert_tool_choice py_repr_value config r with
  | Ok choice =>
      available r /\
      match intent_of (rq_tool_choice r) with
      | Free => default VNone choice ∈ [VNone; VStr "auto"; VStr "none"]
      | AnyTool => choice = Some (VStr "required")
      | ThisTool v => choice = Some (VDict [("type", VStr "function"); ("function", VDict [("name", v)])])
      end
  | Err e => exn_cls e = RequestConversionError /\ ~ available r
  end.
Proof.
  unfold convert_tool_choice, available, intent_of. destruct (rq_tool_choice r) as [[|c0 c']|]; [by split; [|left]| |by split; [|left]].
  set (c := c0 :: c'). destruct (py_eq (dgetv "type" c) (VStr "any")).
  { destruct (retained_tools config r); [by split; [|intros Hn]|by split]. }
  destruct (py_eq (dgetv "type" c) (VStr "auto")) eqn:Hauto.
  { assert (py_eq (dgetv "type" c) (VStr "tool") = false) as ->.
    { destruct (dgetv "type" c); try done. cbn in Hauto |- *. apply String.eqb_eq in Hauto. by subst. }
    split; [done|]. by right; left. }
  destruct (py_eq (dgetv "type" c) (VStr "tool") && dhas "name" c); [|split; [done|by right; right; left]].
  destruct (dgetv "name" c) as [| | | |name| |]; try (split; [done|]; by intros (t & _ & ?)).
  case_bool_decide as Hin.
  - split; [|done]. apply list_elem_of_fmap in Hin as (t & -> & Ht). by exists t.
  - split; [done|]. intros (t & Ht & [= ->]). apply Hin, list_elem_of_fmap. by exists t.
Qed.

(** C30: A forced tool choice is kept or refused, never dropped. Given that the messages
    convert, the request is refused exactly when a call is forced and the catalogue says the
    model cannot be forced, or when the chosen tool, or any tool, is not among those the
    proxy's filter keeps; the refusal is the client's error. Otherwise the request offers the
    kept tools, and says to call one of them, or the chosen one, which is among them. (A choice
    of type "tool" that names no tool counts as no choice: it is sent as "none".) *)
Theorem forced_choice_kept r provider resolved_model out :
  convert_messages json_dumps py_str (forwards r resolved_model) false (rq_messages r) = Ok out ->
  match convert r provider resolved_model with
  | Ok d => available r /\ ~ (forced (rq_tool_choice r) = true /\ cannot_force r resolved_model) /\ choice_sent r d
  | Err e =>
      exn_cls e = RequestConversionError /\
      (~ available r \/ forced (rq_tool_choice r) = true /\ cannot_force r resolved_model)
  end.
Proof.
  unfold forwards. intros Hout. unfold convert, convert_anthropic_to_openai, check_forced, cannot_force. cbv zeta.
  set (spec := get_model_spec _).
  assert (Hok : forall ok, (ok = true -> spec <> None -> exists s, spec = Some s /\ supports_forced_tool_choice s = true) ->
    match (_ ← (Ok tt : res unit); converted ← convert_messages json_dumps py_str (_model_supports_cache_control get_model_spec
        (default (rq_model r) (is_given resolved_model))) false (rq_messages r); choice ← convert_tool_choice py_repr_value config r;
      Ok (openai_request config r (_model_supports_cache_control get_model_spec (default (rq_model r) (is_given resolved_model)))
        (system_messages config (_model_supports_cache_control get_model_spec (default (rq_model r) (is_given resolved_model)))
        provider (rq_system r) ++ converted) choice)) with
    | Ok d => available r /\ ~ (ok = true /\ exists s, spec = Some s /\ supports_forced_tool_choice s = false) /\ choice_sent r d
    | Err e => exn_cls e = RequestConversionError /\ (~ available r \/ ok = true /\ exists s, spec = Some s /\ supports_forced_tool_choice s = false)
    end).
  { intros ok Hspec. cbn [mbind res_bind]. rewrite Hout. cbn [mbind res_bind]. pose proof (tool_choice_spec r) as Hc.
    destruct (convert_tool_choice _ _ _) as [choice|e]; cbn [mbind res_bind].
    - destruct Hc as [Ha Hc]. split; [done|]. split.
      + intros (-> & s & Hs & Hf). destruct (Hspec eq_refl) as (s' & Hs' & Ht); [by rewrite Hs|]. congruence.
      + unfold choice_sent. pose proof (request_choice config r) as Hr. rewrite (proj1 (Hr _ _ _)), (proj2 (Hr _ _ _)). split; [done|].
        destruct (intent_of _); [done|by rewrite Hc|by rewrite Hc].
    - destruct Hc. by split; [|left]. }
  destruct (forced (rq_tool_choice r)); [|by apply Hok].
  destruct spec as [s|] eqn:Hs; [|by apply Hok]. destruct (supports_forced_tool_choice s) eqn:Hf; [apply Hok; by exists s|].
  cbn. split; [done|]. right. split; [done|]. by exists s.
Qed.

(** C9: What the model answered is what it hears in the next turn. A completion always
    converts to a response for the client, whose stop reason and token counts are the
    completion's; and when the client sends the response's content back as the assistant's
    message, the model client gets one assistant message with the completion's text and its
    calls, each with its id, name and arguments, those of [Read] without its empty
    parameters. *)
Theorem answer_comes_back fresh_id fresh_tool_id int_field now later model name r resp :
  json_inverse -> (forall z, int_field (VInt z) = Some z) ->
  Forall (fun tc => NoDup (dkeys (tc_arguments tc))) (default [] (cr_tool_calls r)) ->
  _core_response_to_openai json_dumps now later r model = Ok resp ->
  exists a,
    convert_openai_to_anthropic json_loads fresh_id fresh_tool_id int_field resp name = Some a /\
    rs_stop_reason a = answer_stop_reason r /\ rs_usage a = answer_usage r /\
    forall forward started out,
      convert_message json_dumps py_str forward started {| m_role := Assistant; m_content := Blocks (rs_content a) |} = Ok out ->
      exists m, _openai_messages_to_core json_loads out = Ok [m] /\
        cm_role m = "assistant" /\ cm_content m = VStr (cr_text r) /\ cm_tool_call_id m = None /\
        default [] (cm_tool_calls m) = map sanitized (default [] (cr_tool_calls r)).
Proof.
  intros Hjson Hint Hdistinct Hr. destruct (answer_converted json_dumps json_loads fresh_id fresh_tool_id int_field Hjson Hint
    now later model name r resp Hr) as (a & Ha & Hcontent & Hstop & Husage).
  exists a. split; [done|]. split; [done|]. split; [done|]. intros forward started out. rewrite Hcontent.
  apply answer_in_history; [done|]. rewrite Forall_forall in Hdistinct |- *. auto.
Qed.

End Properties.

(** ** Witnesses *)

Module MessageSample.

Definition raw_input : dict := [("file_path", VStr "/w/a.py"); ("pages", VStr ""); ("limit", VInt 0)].
Definition clean_input : dict := [("file_path", VStr "/w/a.py")].

(** JSON of the two inputs. *)
Definition dumps (v : value) : res string :=
  if value_eqb v (VDict raw_input) then Ok "{raw}"
  else if value_eqb v (VDict clean_input) then Ok "{clean}" else raise ValueError "sample".
Definition loads (s : string) : res value :=
  if String.eqb s "{raw}" then Ok (VDict raw_input)
  else if String.eqb s "{clean}" then Ok (VDict clean_input) else raise JSONDecodeError "Expecting value".

Lemma inverse : json_inverse dumps loads.
Proof.
  intros d s. unfold dumps. destruct (value_eqb (VDict d) (VDict raw_input)) eqn:Hraw.
  { apply value_eqb_eq in Hraw. injection Hraw as ->. intros [= <-]. split; [reflexivity|]. by vm_compute. }
  destruct (value_eqb (VDict d) (VDict clean_input)) eqn:Hclean; [|done].
  apply value_eqb_eq in Hclean. injection Hclean as ->. intros [= <-]. split; [reflexivity|]. by vm_compute.
Qed.

Definition str (v : value) : string := "str".
Definition spec (name : string) : option ModelSpec :=
  if String.eqb name "kimi" then Some {| supports_forced_tool_choice := true; prompt_cache_mechanism := None |} else None.
Definition config : ProxyConfig := {| tool_prefixes_to_ignore := Some ["mcp__*"]; prompt_caching := None |}.

Definition tool (name : string) : ToolDefinition :=
  {| td_tool_name := name; td_description := None; td_input_schema := {| is_type_set := false; is_properties := []; is_required := None |} |}.

(** A question, a call with its result and more text, and a system message at the end. *)
Definition sample_request (choice : option dict) : MessagesRequest := {|
  rq_model := "claude-opus"; rq_system := Some (SystemText "Be brief.");
  rq_messages := [{| m_role := User; m_content := PlainText "Read a.py" |};
    {| m_role := Assistant; m_content := Blocks [ContentBlockThinking "hm" None; ContentBlockText "Reading." None;
                                                 ContentBlockToolUse "t1" "Read" raw_input] |};
    {| m_role := User; m_content := Blocks [ContentBlockToolResult "t1" (ResultText "x = 1") None None; ContentBlockText "and?" None] |}];
  rq_max_tokens := 100; rq_metadata := None; rq_stop_sequences := None; rq_stream := Some true; rq_temperature := None; rq_top_p := None;
  rq_top_k := None; rq_tools := Some [tool "Read"; tool "mcp__x"]; rq_tool_choice := choice |}.

Definition call_read : option dict := Some [("type", VStr "tool"); ("name", VStr "Read")].

Definition converted (r : MessagesRequest) : dict :=
  match convert dumps str str spec config r "openrouter" (Some "kimi") with Ok d => d | Err _ => [] end.

Lemma request_converts choice : choice = None \/ choice = call_read ->
  convert dumps str str spec config (sample_request choice) "openrouter" (Some "kimi") = Ok (converted (sample_request choice)).
Proof. by intros [->| ->]; vm_compute. Qed.

Definition core_of (d : dict) : list CoreMessage :=
  match dgetv "messages" d with
  | VList l => match _openai_messages_to_core loads (omap (fun v => match v with VDict m => Some m | _ => None end) l) with Ok ms => ms | Err _ => [] end
  | _ => []
  end.

Example request_said :
  all_said (core_of (converted (sample_request None)))
  = [Says "system" "Be brief." None; Says "user" "Read a.py" None; Says "assistant" "Reading." None; Calls "t1" "Read" clean_input;
     Returns "t1" "x = 1" None; Says "user" "and?" None].
Proof. vm_compute. reflexivity. Qed.


Lemma answers_preserved_witness :
  exists messages core,
    dgetv "messages" (converted (sample_request None)) = VList (map VDict messages) /\ _openai_messages_to_core loads messages = Ok core /\
    follow core_step [] core = Some [].
Proof.
  exact (answers_preserved dumps loads str str spec config (sample_request None) "openrouter" (Some "kimi") (converted (sample_request None))
    inverse (request_converts None (or_introl eq_refl))).
Defined.

(** A result after a text is refused on both sides. *)
Example late_answer :
  follow message_step [] [{| m_role := Assistant; m_content := Blocks [ContentBlockToolUse "t1" "Read" clean_input] |};
    {| m_role := User; m_content := Blocks [ContentBlockText "wait" None; ContentBlockToolResult "t1" (ResultText "x") None None] |}] = None.
Proof. reflexivity. Qed.

Definition reminder : Message := {| m_role := System; m_content := PlainText "Stay brief." |}.
Definition longer : MessagesRequest := with_messages (rq_messages (sample_request None) ++ [reminder]) (sample_request None).

Lemma longer_converts : convert dumps str str spec config longer "openrouter" (Some "kimi") = Ok (converted longer).
Proof. by vm_compute. Qed.

Lemma prompt_prefix_kept_witness :
  exists messages extra,
    convert dumps str str spec config (sample_request None) "openrouter" (Some "kimi")
    = Ok (dset "messages" (VList (map VDict messages)) (converted longer)) /\
    dgetv "messages" (converted longer) = VList (map VDict (messages ++ extra)) /\ Forall not_system extra.
Proof.
  destruct (prompt_prefix_kept dumps str str spec config (sample_request None) [reminder] "openrouter" (Some "kimi") (converted longer)
    longer_converts) as (messages & extra & H1 & H2 & H3).
  exists messages, extra. split; [exact H1|]. split; [exact H2|]. exact (H3 eq_refl).
Defined.

Definition converted_history : list dict :=
  match convert_messages dumps str false false (rq_messages (sample_request call_read)) with Ok l => l | Err _ => [] end.

Lemma history_converts : convert_messages dumps str (forwards spec (sample_request call_read) (Some "kimi")) false (rq_messages (sample_request call_read))
  = Ok converted_history.
Proof. by vm_compute. Qed.

Lemma forced_choice_kept_witness : choice_sent config (sample_request call_read) (converted (sample_request call_read)).
Proof.
  pose proof (forced_choice_kept dumps str str spec config (sample_request call_read) "openrouter" (Some "kimi") converted_history history_converts) as H.
  rewrite (request_converts call_read (or_intror eq_refl)) in H. exact (proj2 (proj2 H)).
Defined.

Example filtered_choice : (* the proxy's filter removes the tool *)
  match convert dumps str str spec config (sample_request (Some [("type", VStr "tool"); ("name", VStr "mcp__x")])) "openrouter" None with
  | Err e => exn_cls e | Ok _ => TypeError end = RequestConversionError.
Proof. vm_compute. reflexivity. Qed.

Definition reading_answer : CompletionResponse := {|
  cr_text := "Reading."; cr_tool_calls := Some [{| tc_id := "t1"; tc_name := "Read"; tc_arguments := raw_input |}];
  cr_finish_reason := None; cr_usage := Some [("prompt_tokens", 100); ("completion_tokens", 7); ("cached_tokens", 60)];
  cr_cost_usd := None; cr_provider_meta := None |}.

Definition int_of (v : value) : option Z := match v with VInt z => Some z | _ => None end.

Definition response : dict := match _core_response_to_openai dumps 5000000 6000000 reading_answer "kimi" with Ok d => d | Err _ => [] end.

Lemma response_made : _core_response_to_openai dumps 5000000 6000000 reading_answer "kimi" = Ok response.
Proof. by vm_compute. Qed.

Lemma inputs_distinct : Forall (fun tc => NoDup (dkeys (tc_arguments tc))) (default [] (cr_tool_calls reading_answer)).
Proof. repeat constructor; set_solver. Qed.

Lemma answer_comes_back_witness :
  exists a,
    convert_openai_to_anthropic loads "msg_1" (fun _ => "toolu_1") int_of response (Some "claude-opus") = Some a /\
    rs_stop_reason a = "tool_use" /\ u_input_tokens (rs_usage a) = 40 /\
    forall out, convert_message dumps str false true {| m_role := Assistant; m_content := Blocks (rs_content a) |} = Ok out ->
      exists m, _openai_messages_to_core loads out = Ok [m] /\ cm_content m = VStr "Reading." /\
        default [] (cm_tool_calls m) = [{| tc_id := "t1"; tc_name := "Read"; tc_arguments := clean_input |}].
Proof.
  destruct (answer_comes_back dumps loads str "msg_1" (fun _ => "toolu_1") int_of 5000000 6000000 "kimi" (Some "claude-opus") reading_answer response
    inverse (fun z => eq_refl) inputs_distinct response_made) as (a & Ha & Hs & Hu & H).
  exists a. split; [exact Ha|]. split; [exact Hs|]. split; [rewrite Hu; reflexivity|].
  intros out Hout. destruct (H false true out Hout) as (m & Hm & _ & Hc & _ & Hcalls). exists m. by split_and!.
Defined.

End MessageSample.
