(* ===== verification/Diagnostics.v ===== *)
(** * Diagnostics: what the verification hook prints of untrusted output

    The text functions of [src/forge/cli/hooks/verification.py]: neutralising terminal
    controls, redacting secrets, bounding the result and choosing the lines of a test run to
    show. A Python [str] is the list of its code points here ([text]). [xends] is [re.match]
    with Python's priorities: the ends of a match in the order the backtracking engine
    tries them. *)

From S2P Require Import Prelude Regex PyText.

(** ** [re.sub] *)

Inductive rx :=
| XEps
| XChr (f : Z -> bool)
| XSeq (a b : rx)
| XAlt (a b : rx)
| XStar (a : rx)
| XLazy (a : rx)
| XWordB
| XNotAhead (f : Z -> bool).

Definition XLit (c : Z) : rx := XChr (Z.eqb c).
Definition XIn (s : string) : rx := XChr (fun c => bool_decide (c ∈ utf8_decode s)).
Definition XRange (lo hi : Z) : rx := XChr (fun c => (lo <=? c) && (c <=? hi)).
Fixpoint XStr (s : text) : rx := match s with [] => XEps | c :: s => XSeq (XLit c) (XStr s) end.
Fixpoint XAlts (l : list rx) : rx :=
  match l with [] => XChr (fun _ => false) | [a] => a | a :: l => XAlt a (XAlts l) end.
Fixpoint XSeqs (l : list rx) : rx := match l with [] => XEps | [a] => a | a :: l => XSeq a (XSeqs l) end.
Fixpoint XRep (n : nat) (a : rx) : rx := match n with O => XEps | S n => XSeq a (XRep n a) end.
(** [a{n,}], [a?]. *)
Definition XAtLeast (n : nat) (a : rx) : rx := XSeq (XRep n a) (XStar a).
Definition XOpt (a : rx) : rx := XAlt a XEps.

Section Sub.
(** [str.isalnum] on the code points from 128 on: the Unicode character database. *)
Context (unicode_alnum : Z -> bool).

(** A greedy repetition tries one more step before it stops; a lazy one after. *)
Fixpoint repeat_ends (greedy : bool) (step : pos -> list pos) (n : nat) (p : pos) : list pos :=
  let more := match n with
              | O => []
              | S n => flat_map (repeat_ends greedy step n)
                         (List.filter (fun q => Nat.ltb (length q.2) (length p.2)) (step p))
              end in
  if greedy then more ++ [p] else p :: more.

Fixpoint xends (r : rx) (p : pos) : list pos :=
  match r with
  | XEps => [p]
  | XChr f => match p.2 with
              | c :: s => if f c then [(Some c, s)] else []
              | [] => []
              end
  | XSeq a b => flat_map (xends b) (xends a p)
  | XAlt a b => xends a p ++ xends b p
  | XStar a => repeat_ends true (xends a) (length p.2) p
  | XLazy a => repeat_ends false (xends a) (length p.2) p
  | XWordB => if at_boundary unicode_alnum p then [p] else []
  | XNotAhead f => match p.2 with
                   | c :: _ => if f c then [] else [p]
                   | [] => [p]
                   end
  end.

(** The text between two places, the second one reached from the first. *)
Definition between (p q : pos) : text := take (length p.2 - length q.2) p.2.

(** [re.sub(r, repl, s)], for patterns that match no empty text. *)
Fixpoint sub_from (r : rx) (repl : pos -> pos -> text) (fuel : nat) (p : pos) : text :=
  match fuel with
  | O => []
  | S fuel =>
      match List.filter (fun q => Nat.ltb (length q.2) (length p.2)) (xends r p) with
      | q :: _ => repl p q ++ sub_from r repl fuel q
      | [] => match p.2 with
              | [] => []
              | c :: s => c :: sub_from r repl fuel (Some c, s)
              end
      end
  end.

Definition re_sub (r : rx) (repl : pos -> pos -> text) (s : text) : text :=
  sub_from r repl (S (length s)) (None, s).

End Sub.

(** [s.replace(old, new)] for a non-empty [old]. *)
Fixpoint replace_from (old new : text) (fuel : nat) (s : text) : text :=
  match fuel with
  | O => []
  | S fuel =>
      if bool_decide (take (length old) s = old) then new ++ replace_from old new fuel (drop (length old) s)
      else match s with
           | [] => []
           | c :: s => c :: replace_from old new fuel s
           end
  end.

Definition text_replace (old new s : text) : text := replace_from old new (S (length s)) s.

(** ** Terminal controls *)

Definition ESC : Z := 27.

(** [_TERMINAL_CONTROL_SEQUENCE_RE]. *)
Definition _TERMINAL_CONTROL_SEQUENCE_RE : rx :=
  XAlts
    [ XSeqs [XLit ESC; XLit 93;
             XStar (XAlt (XChr (fun c => negb (bool_decide (c ∈ [7; ESC; 13; 10]))))
                         (XSeq (XLit ESC) (XNotAhead (Z.eqb 92))));
             XAlt (XLit 7) (XSeq (XLit ESC) (XLit 92))];
      XSeqs [XLit ESC; XIn "P^_"; XLazy (XChr (fun c => negb (bool_decide (c ∈ [13; 10]))));
             XLit ESC; XLit 92];
      XSeqs [XAlt (XSeq (XLit ESC) (XLit 91)) (XLit 155);
             XStar (XRange 48 63); XStar (XRange 32 47); XRange 64 126];
      XSeqs [XLit ESC; XIn "()"; XAlt (XRange 48 50) (XRange 65 90)];
      XSeq (XLit ESC) (XRange 64 95);
      XRange 128 159 ].

(** The characters [_C0_DEL_DROP_TRANSLATION] drops. *)
Definition is_c0_del (c : Z) : bool := ((c <? 32) && negb (c =? 10)) || (c =? 127).

Definition drop_c0_del (s : text) : text := List.filter (fun c => negb (is_c0_del c)) s.

(** [rendered], [line] and [cursor]. *)
Record screen := Screen { rendered : text; line : text; cursor : nat }.

(** [line.extend(" " ...)] up to a column. *)
Definition pad (n : nat) (l : text) : text := l ++ replicate (n - length l) 32.

Definition put (character : Z) (l : text) (cursor : nat) : text :=
  if (cursor <? length l)%nat then <[cursor := character]> l else pad cursor l ++ [character].

(** The loop's body. *)
Definition render_char (sc : screen) (character : Z) : screen :=
  let '(Screen rendered line cursor) := sc in
  if character =? 10 then Screen (rendered ++ line ++ [character]) [] 0
  else if character =? 13 then Screen rendered line 0
  else if character =? 8 then Screen rendered line (cursor - 1)
  else if character =? 9 then
    let next_tab_stop := ((cursor / 8 + 1) * 8)%nat in
    Screen rendered (pad next_tab_stop line) next_tab_stop
  else if (character <? 32) || (character =? 127) then sc
  else Screen rendered (put character line cursor) (cursor + 1).

(** The slow path. *)
Definition render_cells (value : text) : text :=
  let sc := foldl render_char (Screen [] [] 0) value in rendered sc ++ line sc.

(** [_render_terminal_text]. *)
Definition _render_terminal_text (value : text) : text :=
  if negb (has_char 8 value) && negb (has_char 13 value) && negb (has_char 9 value)
  then drop_c0_del value else render_cells value.

(** ** Secrets *)

(** The letters Python's [re.IGNORECASE] identifies with an ASCII letter. *)
Definition ci (c : Z) : list Z :=
  let upper := if (97 <=? c) && (c <=? 122) then [c - 32] else [] in
  let more := if c =? 107 then [8490] else if c =? 115 then [383]
              else if c =? 105 then [304; 305] else [] in
  c :: upper ++ more.

Definition XWord (s : string) : rx := XSeqs (map (fun c => XChr (fun d => bool_decide (d ∈ ci c))) (utf8_decode s)).

Definition XSpace : rx := XChr is_space.

(** Groups 1 and 2 of [_SECRET_ASSIGNMENT_RE]; group 3 is the rest of the line. *)
Definition secret_assignment_head : rx :=
  XSeqs [XWordB;
         XAlts [XSeqs [XWord "api"; XOpt (XIn "_-"); XWord "key"]; XWord "token"; XWord "secret";
                XWord "password"; XWord "authorization"];
         XWordB; XStar XSpace; XIn ":="; XStar XSpace].

Definition rest_of_line : rx := XStar (XChr (fun c => negb (bool_decide (c ∈ [13; 10])))).

Definition _SECRET_ASSIGNMENT_RE : rx := XSeq secret_assignment_head rest_of_line.

Definition XTokenChar : rx :=
  XAlts [XRange 65 90; XRange 97 122; XRange 48 57; XLit 95; XLit 45].

Definition XTokenChar_ : rx := XAlts [XRange 65 90; XRange 97 122; XRange 48 57; XLit 95].

(** [_TOKEN_PREFIX_RE]. *)
Definition _TOKEN_PREFIX_RE : rx :=
  XSeq
    (XAlt
       (XSeqs [XWordB; XAlt (XStr (T "sk")) (XSeq (XStr (T "gh")) (XIn "pousr")); XLit 45;
               XAtLeast 8 XTokenChar; XWordB])
       (XSeqs [XWordB; XStr (T "gh"); XIn "pousr"; XLit 95; XAtLeast 8 XTokenChar_; XWordB]))
    (XNotAhead (fun c => is_c0_del c && negb (c =? 13))).

Definition redacted_mark : text := T "[REDACTED]".

(** The environment variables of [CREDENTIALS] that hold a secret, in order. *)
Definition secret_vars : list string :=
  ["OPENROUTER_API_KEY"; "ANTHROPIC_API_KEY"; "OPENAI_API_KEY"; "GEMINI_API_KEY"; "CODEX_API_KEY";
   "LITELLM_API_KEY"].

Section Redaction.
Context (unicode_alnum : Z -> bool) (environ : string -> option text).

Definition redact_env (s : text) (var : string) : text :=
  match environ var with
  | Some ((_ :: _) as secret) => text_replace secret redacted_mark s
  | _ => s
  end.

(** [_redact_secrets]. *)
Definition _redact_secrets (s : text) : text :=
  let s := foldl redact_env s secret_vars in
  let s := re_sub unicode_alnum _SECRET_ASSIGNMENT_RE (fun p q =>
             match xends unicode_alnum secret_assignment_head p with
             | m :: _ => between p m ++ redacted_mark
             | [] => between p q
             end) s in
  re_sub unicode_alnum _TOKEN_PREFIX_RE (fun _ _ => redacted_mark) s.

(** [_redacted_diagnostic], [None] for a missing value; bytes are decoded by the caller. *)
Definition _redacted_diagnostic (value : option text) : text :=
  match value with
  | None => []
  | Some s =>
      let s := re_sub unicode_alnum _TERMINAL_CONTROL_SEQUENCE_RE (fun _ _ => []) s in
      let s := List.filter (fun c => negb (c =? ESC)) s in
      let s := _redact_secrets s in
      let rendered := _render_terminal_text s in
      if bool_decide (rendered = s) then s else _redact_secrets rendered
  end.

Definition _MAX_DIAGNOSTIC_CHARS : nat := 200.

(** [_bounded_diagnostic]. *)
Definition _bounded_diagnostic (value : option text) : text :=
  take _MAX_DIAGNOSTIC_CHARS (_redacted_diagnostic value).
End Redaction.

(** ** Lemmas: matches and substitutions *)

(** [q] lies further in the text than [p], or is [p]. *)
Definition reaches (p q : pos) : Prop := q.2 `suffix_of` p.2.

Lemma reaches_trans p q r : reaches p q -> reaches q r -> reaches p r.
Proof. unfold reaches. intros H1 H2. by trans q.2. Qed.

Section MatchLemmas.
Context (alnum : Z -> bool).

Lemma repeat_ends_inv greedy step n p q :
  q ∈ repeat_ends greedy step n p ->
  q = p \/ exists n' m, n = S n' /\ m ∈ step p /\ q ∈ repeat_ends greedy step n' m.
Proof.
  intros Hq. destruct n as [|n]; simpl in Hq.
  - destruct greedy; left; set_solver.
  - set (more := flat_map _ _) in Hq. assert (q = p \/ q ∈ more) as [->|Hm] by (destruct greedy; set_solver);
      [by left|right]. apply list_elem_of_In, in_flat_map in Hm as (m & [Hm _]%filter_In & Hq').
    exists n, m. by rewrite !list_elem_of_In.
Qed.

Lemma repeat_ends_reaches greedy step n p q :
  (forall p q, q ∈ step p -> reaches p q) -> q ∈ repeat_ends greedy step n p -> reaches p q.
Proof.
  intros Hstep. revert p. induction n as [|n IH]; intros p [->|(n' & m & [= ->] & Hm & Hq)]%repeat_ends_inv;
    try by exists [].
  eapply reaches_trans; [by apply Hstep|by apply IH].
Qed.

Lemma xends_reaches r p q : q ∈ xends alnum r p -> reaches p q.
Proof.
  revert p q. induction r as [|f|a IHa b IHb|a IHa b IHb|a IHa|a IHa| |f]; intros p q; simpl.
  - intros ->%list_elem_of_singleton. by exists [].
  - destruct p as [o [|c s]]; simpl; [by intros ?%not_elem_of_nil|].
    destruct (f c); [|by intros ?%not_elem_of_nil]. intros ->%list_elem_of_singleton. by exists [c].
  - intros (m & Hm & Hq)%list_elem_of_In%in_flat_map. rewrite <- !list_elem_of_In in *.
    eapply reaches_trans; eauto.
  - intros [?|?]%elem_of_app; eauto.
  - by apply repeat_ends_reaches.
  - by apply repeat_ends_reaches.
  - destruct (at_boundary _ _); [intros ->%list_elem_of_singleton; by exists []|by intros ?%not_elem_of_nil].
  - intros Hq. assert (q = p) as ->; [|by exists []].
    destruct p.2; [|destruct (f z)]; set_solver.
Qed.
End MatchLemmas.

(** ** Lemmas: what redaction keeps *)

(** [t] is [s] with some segments replaced by the mark. *)
Inductive redacts : text -> text -> Prop :=
| redacts_nil : redacts [] []
| redacts_keep c s t : redacts s t -> redacts (c :: s) (c :: t)
| redacts_cut d s t : redacts s t -> redacts (d ++ s) (redacted_mark ++ t).

Lemma redacts_app w s t : redacts s t -> redacts (w ++ s) (w ++ t).
Proof. induction w; simpl; [done|intros; by constructor; auto]. Qed.

Lemma redacts_Forall (P : Z -> Prop) s t : Forall P redacted_mark -> redacts s t -> Forall P s -> Forall P t.
Proof.
  intros Hm. induction 1 as [|c s t _ IH|d s t _ IH]; intros Hs; [done| |].
  - apply Forall_cons in Hs as [? ?]. apply Forall_cons; auto.
  - apply Forall_app in Hs as [_ ?]. apply Forall_app; auto.
Qed.

Lemma replace_from_redacts old fuel s : (length s < fuel)%nat -> old <> [] ->
  redacts s (replace_from old redacted_mark fuel s).
Proof.
  intros Hf Hold. revert s Hf. induction fuel as [|fuel IH]; intros s Hf; [lia|]. cbn [replace_from].
  case_bool_decide as Htake.
  - rewrite <- (take_drop (length old) s) at 1. apply redacts_cut, IH.
    rewrite length_drop. destruct old; [done|]. assert (s <> []) by (by intros ->).
    destruct s; simpl in *; [done|lia].
  - destruct s as [|c s]; [constructor|]. apply redacts_keep, IH. simpl in Hf. lia.
Qed.

Lemma between_app p q : reaches p q -> p.2 = between p q ++ q.2.
Proof.
  intros [k E]. unfold between. rewrite E, length_app. replace (length k + length q.2 - length q.2)%nat with (length k) by lia.
  by rewrite take_app_length.
Qed.

Section SubRedacts.
Context (alnum : Z -> bool) (r : rx) (repl : pos -> pos -> text).

(** The match [re.sub] replaces at a place. *)
Definition first_match (p : pos) : option pos :=
  head (List.filter (fun q => Nat.ltb (length q.2) (length p.2)) (xends alnum r p)).

Lemma first_match_Some p q : first_match p = Some q -> q ∈ xends alnum r p /\ (length q.2 < length p.2)%nat.
Proof.
  unfold first_match. intros Hq. apply head_Some_elem_of in Hq.
  apply list_elem_of_In, filter_In in Hq as [Hin Hlt%Nat.ltb_lt]. by rewrite list_elem_of_In.
Qed.

(** Each match is replaced by the mark, except for a part at its front. *)
Definition marks : Prop := forall p q, first_match p = Some q ->
  exists m, reaches p m /\ reaches m q /\ repl p q = between p m ++ redacted_mark.

Lemma sub_from_step fuel p :
  sub_from alnum r repl (S fuel) p =
    match first_match p with
    | Some q => repl p q ++ sub_from alnum r repl fuel q
    | None => match p.2 with [] => [] | c :: s => c :: sub_from alnum r repl fuel (Some c, s) end
    end.
Proof. cbn [sub_from]. unfold first_match. by destruct (List.filter _ _). Qed.

Lemma sub_from_redacts fuel p : marks -> (length p.2 < fuel)%nat -> redacts p.2 (sub_from alnum r repl fuel p).
Proof.
  intros Hmarks. revert p. induction fuel as [|fuel IH]; intros p Hf; [lia|]. rewrite sub_from_step.
  destruct (first_match p) as [q|] eqn:Hq.
  - destruct (first_match_Some p q Hq) as [_ Hlt]. destruct (Hmarks p q Hq) as (m & Hpm & Hmq & ->).
    rewrite (between_app p m Hpm) at 1. rewrite (between_app m q Hmq), <- app_assoc. apply redacts_app, redacts_cut, IH. lia.
  - destruct p.2 as [|c s] eqn:E; [constructor|]. apply redacts_keep.
    apply (IH (Some c, s)). simpl in *. lia.
Qed.

Lemma re_sub_redacts s : marks -> redacts s (re_sub alnum r repl s).
Proof. intros Hm. apply (sub_from_redacts _ (None, s)); [done|simpl; lia]. Qed.
End SubRedacts.

Lemma marks_whole alnum r : marks alnum r (fun _ _ => redacted_mark).
Proof.
  intros p q [Hq%xends_reaches _]%first_match_Some. exists p. split_and!; [by exists []|done|].
  unfold between. by rewrite Nat.sub_diag.
Qed.

(** A pattern that matches no empty text. *)
Fixpoint consumes (r : rx) : bool :=
  match r with
  | XChr _ => true
  | XSeq a b => consumes a || consumes b
  | XAlt a b => consumes a && consumes b
  | _ => false
  end.

Lemma reaches_length p q : reaches p q -> (length q.2 <= length p.2)%nat.
Proof. intros [k ->]. rewrite length_app. lia. Qed.

Lemma xends_consumes alnum r p q : consumes r = true -> q ∈ xends alnum r p -> (length q.2 < length p.2)%nat.
Proof.
  revert p q. induction r as [|f|a IHa b IHb|a IHa b IHb|a IHa|a IHa| |f]; intros p q Hc Hq; try done; simpl in *.
  - destruct p as [o [|c s]]; simpl in *; [by apply not_elem_of_nil in Hq|].
    destruct (f c); [|by apply not_elem_of_nil in Hq]. apply list_elem_of_singleton in Hq as ->. simpl. lia.
  - apply list_elem_of_In, in_flat_map in Hq as (m & Hm & Hq). rewrite <- list_elem_of_In in *.
    pose proof (reaches_length _ _ (xends_reaches _ _ _ _ Hm)). pose proof (reaches_length _ _ (xends_reaches _ _ _ _ Hq)).
    apply orb_true_iff in Hc as [Hc|Hc]; [specialize (IHa _ _ Hc Hm)|specialize (IHb _ _ Hc Hq)]; lia.
  - apply andb_true_iff in Hc as [? ?]. apply elem_of_app in Hq as [?|?]; eauto.
Qed.

Lemma rest_of_line_ends alnum m : exists q l, xends alnum rest_of_line m = q :: l.
Proof.
  cbn [rest_of_line xends]. destruct (repeat_ends true _ _ m) as [|q l] eqn:E; [|by exists q, l].
  destruct (length m.2); cbn [repeat_ends] in E; [done|]. by apply app_nil in E as [_ ?].
Qed.

Lemma marks_assignment alnum : marks alnum _SECRET_ASSIGNMENT_RE (fun p q =>
  match xends alnum secret_assignment_head p with
  | m :: _ => between p m ++ redacted_mark
  | [] => between p q
  end).
Proof.
  intros p q Hq. unfold first_match in Hq.
  change (xends alnum _SECRET_ASSIGNMENT_RE p) with
    (flat_map (xends alnum rest_of_line) (xends alnum secret_assignment_head p)) in Hq.
  destruct (xends alnum secret_assignment_head p) as [|m ms] eqn:Hm; [done|].
  assert (m ∈ xends alnum secret_assignment_head p) as Hin by (rewrite Hm; by left).
  pose proof (xends_consumes alnum secret_assignment_head p m eq_refl Hin) as Hlt. apply xends_reaches in Hin.
  destruct (rest_of_line_ends alnum m) as (q0 & l & Hq0). cbn [flat_map] in Hq. rewrite Hq0 in Hq.
  assert (reaches m q0) as Hmq by (apply (xends_reaches alnum rest_of_line); rewrite Hq0; by left).
  pose proof (reaches_length _ _ Hmq). simpl in Hq.
  rewrite (proj2 (Nat.ltb_lt _ _)) in Hq by lia. simplify_eq/=. by exists m.
Qed.

Lemma redact_env_redacts environ s var : redacts s (redact_env environ s var).
Proof.
  assert (forall s, redacts s s) as Hid by (intros s'; induction s'; by constructor).
  unfold redact_env. destruct (environ var) as [[|c k]|]; [done| |done]. apply replace_from_redacts; [lia|done].
Qed.

(** ** Lemmas: configured secrets *)

(** [k in s]. *)
Definition occurs_in (k s : text) : Prop := exists a b, s = a ++ k ++ b.

(** A secret the mark cannot be mistaken for: no bracket, and not a part of [REDACTED]. *)
Definition plain_secret (k : text) : Prop :=
  k <> [] /\ (91 ∉ k) /\ (93 ∉ k) /\ ~ occurs_in k (T "REDACTED").

Lemma mark_split : redacted_mark = [91] ++ T "REDACTED" ++ [93].
Proof. done. Qed.

Lemma redacts_prefix s t u v : redacts s t -> t = u ++ v -> 91 ∉ u -> u `prefix_of` s.
Proof.
  intros H. revert u v. induction H as [|c s t _ IH|d s t _ _]; intros u v E Hu.
  - symmetry in E. apply app_nil in E as [-> _]. by exists [].
  - destruct u as [|c' u]; [by exists (c :: s)|]. simplify_eq/=.
    destruct (IH u v eq_refl ltac:(set_solver)) as [w ->]. by exists w.
  - destruct u as [|c' u]; [by eexists|]. rewrite mark_split in E. simplify_eq/=. set_solver.
Qed.

(** An occurrence of a bracket-free text spans no mark. *)
Lemma occurs_bracketed k m s : k <> [] -> 91 ∉ k -> 93 ∉ k -> ~ occurs_in k m ->
  occurs_in k (91 :: m ++ 93 :: s) -> occurs_in k s.
Proof.
  intros Hne Hopen Hclose Hmid (a & b & E). destruct k as [|k0 k]; [done|].
  destruct a as [|c a]; [simplify_eq/=; set_solver|]. simpl in E. injection E as _ E.
  apply app_eq_inv in E as [(w & -> & Hb)|(w & -> & Hb)].
  - destruct w as [|c' w]; [simplify_eq/=; set_solver|]. injection Hb as <- Hb.
    apply app_eq_inv in Hb as [(w' & -> & Hb)|(w' & -> & _)].
    + destruct w' as [|c'' w']; [destruct Hmid; exists a, []; by rewrite !app_nil_r|].
      simplify_eq/=. set_solver.
    + destruct Hmid. by exists a, w'.
  - destruct w as [|c' w]; [simplify_eq/=; set_solver|]. injection Hb as _ Hb. exists w, b. by rewrite Hb.
Qed.

Lemma occurs_mark k s : plain_secret k -> occurs_in k (redacted_mark ++ s) -> occurs_in k s.
Proof. intros (? & ? & ? & ?). rewrite mark_split. by apply (occurs_bracketed k (T "REDACTED")). Qed.

Lemma occurs_nil k : occurs_in k [] -> k = [].
Proof. by intros (a & b & (_ & (-> & _)%app_nil)%eq_sym%app_nil). Qed.

Lemma occurs_cons k c s : occurs_in k (c :: s) -> k `prefix_of` c :: s \/ occurs_in k s.
Proof. intros (a & b & E). destruct a as [|c' a]; [left; by exists b|right]. simplify_eq/=. by exists a, b. Qed.

Lemma redacts_keeps_absent k s t : plain_secret k -> redacts s t -> occurs_in k t -> occurs_in k s.
Proof.
  intros Hk H. induction H as [|c s t H IH|d s t _ IH]; intros Ho; [done| |].
  - apply occurs_cons in Ho as [[v E]|Ho].
    + destruct (redacts_prefix (c :: s) (c :: t) k v) as [w Hw]; [by constructor|done|apply Hk|].
      exists [], w. by rewrite Hw.
    + destruct (IH Ho) as (a & b & ->). by exists (c :: a), b.
  - apply occurs_mark, IH in Ho as (a & b & ->); [|done]. exists (d ++ a), b. by rewrite <- app_assoc.
Qed.

Lemma replace_from_absent k fuel s : plain_secret k -> (length s < fuel)%nat ->
  ~ occurs_in k (replace_from k redacted_mark fuel s).
Proof.
  intros Hk. revert s. induction fuel as [|fuel IH]; intros s Hf Ho; [lia|].
  assert (k <> []) as Hne by apply Hk. cbn [replace_from] in Ho. case_bool_decide as Htake.
  - apply occurs_mark in Ho; [|done]. apply IH in Ho; [done|]. rewrite length_drop.
    destruct k; [done|]. destruct s; simpl in *; [done|lia].
  - destruct s as [|c s]; [by apply occurs_nil in Ho|].
    simpl in Hf. apply occurs_cons in Ho as [[v E]|Ho]; [|apply IH in Ho; [done|lia]].
    apply Htake. destruct (redacts_prefix (c :: s) (c :: replace_from k redacted_mark fuel s) k v) as [w ->];
      [apply redacts_keep, replace_from_redacts; [lia|done]|done|apply Hk|]. by rewrite take_app_length.
Qed.

Section SecretLemmas.
Context (alnum : Z -> bool) (environ : string -> option text).

Lemma fold_redacts vars k s : plain_secret k ->
  occurs_in k (foldl (redact_env environ) s vars) -> occurs_in k s.
Proof.
  intros Hk. revert s. induction vars as [|x vars IH]; intros s Ho; [done|].
  apply IH in Ho. eapply redacts_keeps_absent; [done|apply redact_env_redacts|done].
Qed.

Lemma redact_secrets_absent var k s : var ∈ secret_vars -> environ var = Some k -> plain_secret k ->
  ~ occurs_in k (_redact_secrets alnum environ s).
Proof.
  intros Hvar Henv Hk Ho. unfold _redact_secrets in Ho.
  apply (redacts_keeps_absent k _ _ Hk (re_sub_redacts _ _ _ _ (marks_whole _ _))) in Ho.
  apply (redacts_keeps_absent k _ _ Hk (re_sub_redacts _ _ _ _ (marks_assignment _))) in Ho.
  apply list_elem_of_split in Hvar as (l1 & l2 & E). rewrite E, foldl_app in Ho. cbn [foldl] in Ho.
  apply fold_redacts in Ho; [|done].
  unfold redact_env in Ho. rewrite Henv in Ho. destruct k as [|c k]; [by destruct Hk|].
  by apply replace_from_absent in Ho; [|done|simpl; lia].
Qed.
End SecretLemmas.

(** ** Lemmas: terminal controls *)

(** A character a terminal acts on: C0 without the line feed, DEL, or C1. *)
Definition is_control (c : Z) : bool := is_c0_del c || ((128 <=? c) && (c <=? 159)).

Definition is_c1 (c : Z) : bool := (128 <=? c) && (c <=? 159).

Lemma sub_from_drops alnum r f fuel p :
  (forall o c s, f c = true -> (Some c, s) ∈ xends alnum r (o, c :: s)) ->
  (length p.2 < fuel)%nat -> Forall (fun c => f c = false) (sub_from alnum r (fun _ _ => []) fuel p).
Proof.
  intros Hmatch. revert p. induction fuel as [|fuel IH]; intros p Hf; [lia|]. rewrite sub_from_step.
  destruct (first_match alnum r p) as [q|] eqn:Hq.
  - destruct (first_match_Some _ _ _ _ Hq). apply (IH q). lia.
  - destruct p as [o [|c s]]; [done|]. apply Forall_cons. split; [|apply (IH (Some c, s)); simpl in *; lia].
    destruct (f c) eqn:Hc; [exfalso|done]. unfold first_match in Hq.
    destruct (List.filter _ _) as [|q l] eqn:El; [|done].
    assert (In (Some c, s) []) as []. rewrite <- El. apply filter_In. rewrite <- list_elem_of_In.
    split; [by apply Hmatch|apply Nat.ltb_lt; simpl; lia].
Qed.

Lemma terminal_matches_c1 alnum o c s : is_c1 c = true ->
  (Some c, s) ∈ xends alnum _TERMINAL_CONTROL_SEQUENCE_RE (o, c :: s).
Proof.
  intros Hc. unfold _TERMINAL_CONTROL_SEQUENCE_RE. cbn [XAlts].
  change (xends alnum (XAlt ?a ?b) ?p) with (xends alnum a p ++ xends alnum b p).
  do 5 (apply elem_of_app; right). cbn [XRange xends snd]. unfold is_c1 in Hc. rewrite Hc. by left.
Qed.

(** *** The rendered screen holds characters of the text and blanks. *)
Lemma Forall_pad (P : Z -> Prop) n l : P 32 -> Forall P l -> Forall P (pad n l).
Proof. intros H32 Hl. apply Forall_app. split; [done|]. by apply Forall_replicate. Qed.

Lemma Forall_put (P : Z -> Prop) c l cursor : P 32 -> P c -> Forall P l -> Forall P (put c l cursor).
Proof.
  intros H32 Hc Hl. unfold put. case_match; [by apply Forall_insert|].
  apply Forall_app. split; [by apply Forall_pad|by apply Forall_singleton].
Qed.

Lemma render_char_Forall (P : Z -> Prop) sc c : P 32 -> (is_c0_del c = false -> P c) ->
  Forall P (rendered sc) /\ Forall P (line sc) ->
  Forall P (rendered (render_char sc c)) /\ Forall P (line (render_char sc c)).
Proof.
  intros H32 Hc. destruct sc as [r l cursor]. unfold render_char. intros [Hr Hl]. simpl in *.
  destruct (Z.eqb_spec c 10) as [->|]; [|destruct (Z.eqb_spec c 13); [|destruct (Z.eqb_spec c 8); [|destruct (Z.eqb_spec c 9)]]];
    simpl; try done.
  - rewrite !Forall_app, Forall_singleton. split_and!; auto.
  - split; [done|by apply Forall_pad].
  - case_match eqn:Hlow; simpl; [done|]. split; [done|]. apply Forall_put; try done. apply Hc.
    unfold is_c0_del. apply orb_false_iff in Hlow as [-> ->]. done.
Qed.

Lemma render_Forall (P : Z -> Prop) s : P 32 -> Forall (fun c => is_c0_del c = false -> P c) s ->
  Forall P (_render_terminal_text s).
Proof.
  intros H32 Hs. unfold _render_terminal_text. destruct (_ && _).
  - unfold drop_c0_del. apply Forall_forall. intros c [Hin Hc]%list_elem_of_In%filter_In.
    rewrite <- list_elem_of_In in Hin. rewrite Forall_forall in Hs. apply Hs; [done|]. by apply negb_true_iff.
  - unfold render_cells. cbv zeta. apply Forall_app.
    assert (Forall P (rendered (Screen [] [] 0)) /\ Forall P (line (Screen [] [] 0))) as Hinit by done.
    revert Hinit. generalize (Screen [] [] 0). induction Hs as [|c s Hc Hs IH]; intros sc Hsc; [done|].
    apply IH. by apply render_char_Forall.
Qed.

Lemma redact_secrets_Forall (P : Z -> Prop) alnum environ s : Forall P redacted_mark -> Forall P s ->
  Forall P (_redact_secrets alnum environ s).
Proof.
  intros Hm Hs. unfold _redact_secrets.
  eapply redacts_Forall; [done|apply re_sub_redacts, marks_whole|].
  eapply redacts_Forall; [done|apply re_sub_redacts, marks_assignment|].
  revert s Hs. induction secret_vars as [|x vars IH]; intros s Hs; [done|]. apply IH.
  eapply redacts_Forall; [done|apply redact_env_redacts|done].
Qed.

Lemma redacted_no_controls alnum environ value :
  Forall (fun c => is_control c = false) (_redacted_diagnostic alnum environ value).
Proof.
  destruct value as [s|]; [|constructor]. unfold _redacted_diagnostic.
  set (s0 := List.filter _ _). assert (Forall (fun c => is_c1 c = false) s0) as Hs0.
  { apply Forall_forall. intros c [Hin _]%list_elem_of_In%filter_In. rewrite <- list_elem_of_In in Hin.
    revert c Hin. apply Forall_forall, sub_from_drops; [|simpl; lia]. intros o c t. apply terminal_matches_c1. }
  apply (redact_secrets_Forall _ alnum environ) in Hs0; [|by apply (bool_decide_unpack _); vm_compute].
  assert (Forall (fun c => is_control c = false) (_render_terminal_text (_redact_secrets alnum environ s0))) as Hr.
  { apply render_Forall; [done|]. eapply Forall_impl; [apply Hs0|]. intros c H1 H2. unfold is_control, is_c1 in *.
    by rewrite H1, H2. }
  case_bool_decide as E; [by rewrite <- E|].
  apply redact_secrets_Forall; [|done]. by apply (bool_decide_unpack _); vm_compute.
Qed.

(** *** Without cursor motion every cell is appended. *)
Lemma render_char_appends r l c : c <> 8 -> c <> 9 -> c <> 13 ->
  exists r' l', render_char (Screen r l (length l)) c = Screen r' l' (length l') /\
    r' ++ l' = (r ++ l) ++ drop_c0_del [c].
Proof.
  intros H8 H9 H13. unfold render_char, drop_c0_del, is_c0_del.
  rewrite (proj2 (Z.eqb_neq c 8)), (proj2 (Z.eqb_neq c 9)), (proj2 (Z.eqb_neq c 13)) by done.
  destruct (Z.eqb_spec c 10) as [->|Hn].
  - eexists _, []. split; [done|]. simpl. by rewrite app_nil_r, <- app_assoc.
  - cbn [List.filter]. rewrite (proj2 (Z.eqb_neq c 10)), andb_true_r by done.
    destruct ((c <? 32) || (c =? 127)); [by exists r, l; split; [|by rewrite app_nil_r]|].
    exists r, (l ++ [c]). split; [|by rewrite <- app_assoc]. f_equal; [|rewrite length_app; done].
    unfold put, pad. by rewrite Nat.ltb_irrefl, Nat.sub_diag, app_nil_r.
Qed.

Lemma render_appends s r l : 8 ∉ s -> 9 ∉ s -> 13 ∉ s ->
  let sc := foldl render_char (Screen r l (length l)) s in rendered sc ++ line sc = (r ++ l) ++ drop_c0_del s.
Proof.
  revert r l. induction s as [|c s IH]; intros r l H8 H9 H13; [by rewrite app_nil_r|].
  cbn [foldl]. destruct (render_char_appends r l c) as (r' & l' & -> & E); [set_solver..|].
  cbv zeta. rewrite IH, E by set_solver. rewrite <- app_assoc. f_equal. unfold drop_c0_del. simpl. by case_match.
Qed.

(** ** The diagnostics *)

(** The fast path of [_render_terminal_text], which translates a text that moves no
    cursor, gives what the cell-by-cell rendering of that text gives: the optimisation
    changes no output. *)
Theorem render_fast_path_exact (value : text) : _render_terminal_text value = render_cells value.
Proof.
  unfold _render_terminal_text, has_char. repeat case_bool_decide; try done.
  symmetry. by apply (render_appends value [] []).
Qed.

(** C32: Whatever a test run or a transcript contains, a diagnostic printed or stored by the
    verification hook is at most 200 characters long, contains no character that acts on a
    terminal (no C0 control but the line feed, no DEL, no C1: escape sequences cannot get
    through), and does not contain a secret that the environment configures for one of the
    registered credentials, provided the secret has no bracket and is no part of the word
    [REDACTED]. *)
Theorem diagnostics_safe (alnum : Z -> bool) (environ : string -> option text) (value : option text) :
  let printed := _bounded_diagnostic alnum environ value in
  (length printed <= 200)%nat /\
  Forall (fun c => is_control c = false) printed /\
  forall var secret, var ∈ secret_vars -> environ var = Some secret -> plain_secret secret ->
    ~ occurs_in secret printed.
Proof.
  cbv zeta. unfold _bounded_diagnostic, _MAX_DIAGNOSTIC_CHARS. split_and!.
  - rewrite length_take. lia.
  - apply Forall_take, redacted_no_controls.
  - intros var k Hvar Henv Hk (a & b & E).
    assert (occurs_in k (_redacted_diagnostic alnum environ value)) as Ho.
    { exists a, (b ++ drop 200 (_redacted_diagnostic alnum environ value)).
      rewrite app_assoc, app_assoc, <- (app_assoc a), <- E. by rewrite take_drop. }
    destruct value as [s|]; [|by apply occurs_nil in Ho; destruct Hk].
    unfold _redacted_diagnostic in Ho. case_bool_decide; by eapply redact_secrets_absent in Ho.
Qed.

Module DiagnosticsSample.

Definition no_alnum (c : Z) : bool := false.

Definition environ (var : string) : option text :=
  if String.eqb var "OPENAI_API_KEY" then Some (T "hunter2") else None.

(** A title change, a key split by a colour, a token and an assignment. *)
Definition output : text :=
  T "\" ++ [27; 93] ++ T "0;x" ++ [7] ++ T "a hun" ++ [27; 91] ++ T "31mter2 sk-abcdefghij" ++ [10] ++
  T "password = x y".

Example output_printed :
  _bounded_diagnostic no_alnum environ (Some output) =
  T "\a [REDACTED] [REDACTED]" ++ [10] ++ T "password = [REDACTED]".
Proof. vm_compute. reflexivity. Qed.

Lemma diagnostics_safe_witness :
  ~ occurs_in (T "hunter2") (_bounded_diagnostic no_alnum environ (Some output)).
Proof.
  destruct (diagnostics_safe no_alnum environ (Some output)) as (_ & _ & H).
  apply (H "OPENAI_API_KEY"); [by apply (bool_decide_unpack _); vm_compute|reflexivity|].
  split_and!; [done|by apply (bool_decide_unpack _); vm_compute..|].
  intros (a & b & E). assert (104 ∈ T "REDACTED") as Hh by (rewrite E; apply elem_of_app; right; by left).
  apply (bool_decide_pack _) in Hh. by vm_compute in Hh.
Defined.

End DiagnosticsSample.
