(* ===== verification/Verification.v ===== *)
(** * Verification: the check that may hold a session at Stop

    [src/forge/cli/hooks/verification.py]: when Claude stops, the configured check (a
    promise in the last assistant message, or the test suite) decides whether the Stop is
    allowed. What is printed comes from Diagnostics.v, the effective configuration from
    Overrides.v. The store is what [SessionStore.read] gives ([stored]; Manifest.v relates it
    to the file) and the lines written to stderr; [SessionStore.update] is one locked read,
    mutation and atomic write, which can fail or be cut short as in Effects.v. *)

From S2P Require Import Prelude PyValue PyFloat Transcript Overrides Effects Regex PyText Diagnostics.

(** ** Text *)

Definition has_break (s : text) : bool := has_char 10 s || has_char 13 s.

Definition str_of_Z (z : Z) : text := T (pretty z).

(** ** The last assistant message *)

(** [_join_assistant_text_blocks], on one more block. *)
Definition join_block (joined t : string) : string :=
  let breaks (f : string -> string -> bool) (s : string) := f newline s || f (String "013" "") s in
  if negb (breaks endswith joined) && negb (breaks startswith t) then joined +++ newline +++ t
  else joined +++ t.

Definition _join_assistant_text_blocks (t : string) (ts : list string) : string := foldl join_block t ts.

Definition is_str (v : value) (s : string) : bool := match v with VStr t => String.eqb t s | _ => false end.

(** The message object of an assistant's entry, in either format. *)
Definition assistant_message (entry : dict) : option dict :=
  match dgetv "message" entry with
  | VDict message =>
      if is_str (dgetv "role" message) "assistant" || is_str (dgetv "type" entry) "assistant"
      then Some message else None
  | _ => None
  end.

Definition text_of_block (block : value) : option string :=
  match block with
  | VDict b => match dgetv "text" b with
               | VStr t => if String.eqb t "" then None else Some t
               | _ => None
               end
  | _ => None
  end.

(** Timestamp and text of an entry that has both a message and some text. *)
Definition entry_text (entry : dict) : option (string * string) :=
  message ← assistant_message entry;
  match dgetv "content" message with
  | VList content =>
      match omap text_of_block content with
      | t :: ts => Some (match dgetv "timestamp" entry with VStr s => s | _ => "" end,
                         _join_assistant_text_blocks t ts)
      | [] => None
      end
  | _ => None
  end.

(** [latest_ts] and [latest_text]. *)
Definition keep_latest (latest : string * option string) (candidate : string * string) : string * option string :=
  if str_le (fst latest) (fst candidate) then (fst candidate, Some (snd candidate)) else latest.

(** The loop over the lines: the latest text, and the exception that ended the loop. *)
Fixpoint latest_from (latest : string * option string) (ls : list Transcript.line) : string * option string * option pyexn :=
  match ls with
  | [] => (latest, None)
  | LBlank :: ls | LBadJson :: ls => latest_from latest ls
  | LJson (VDict entry) :: ls =>
      latest_from (match entry_text entry with Some c => keep_latest latest c | None => latest end) ls
  | LJson v :: _ =>
      (latest, Some (PyExn AttributeError ("'" +++ type_name v +++ "' object has no attribute 'get'")))
  | LRaises e :: _ => (latest, Some e)
  end.

(** [_get_last_assistant_text_for_verification]; [None]: the path is not a file. *)
Definition _get_last_assistant_text_for_verification (f : option (list Transcript.line)) (raise_on_error : bool)
  : res (option string) :=
  match f with
  | None => Ok None
  | Some ls =>
      match latest_from ("", None) ls with
      | (latest, Some e) => if raise_on_error then Err e else Ok (snd latest)
      | (latest, None) => Ok (snd latest)
      end
  end.

(** ** Configuration and state *)

Record VerificationConfig := {
  type : text;
  promise : option text;
  max_iterations : Z;
  max_minutes : option Z;
  bypass : bool;
  on_incomplete : text;
  re_inject_prompt : option text;
  test_timeout_seconds : Z }.

Record VerificationConfirmed := {
  started_at : option string;
  iterations : Z;
  last_result : option text;
  last_error : option text }.

Definition new_confirmed : VerificationConfirmed :=
  {| started_at := None; iterations := 0; last_result := None; last_error := None |}.

Inductive status := passed | incomplete | misconfigured | infrastructure_error.

#[export] Instance status_eq_dec : EqDecision status.
Proof. solve_decision. Defined.

Definition status_text (s : status) : text :=
  T match s with
    | passed => "passed"
    | incomplete => "incomplete"
    | misconfigured => "misconfigured"
    | infrastructure_error => "infrastructure_error"
    end.

(** [status.replace("_", " ")]. *)
Definition label (s : status) : text := map (fun c => if c =? 95 then 32 else c) (status_text s).

(** [_VerificationOutcome], without the time its subprocess took. *)
Record outcome_of_check := Outcome { result_status : status; detail : option text }.

Definition detail_text (o : outcome_of_check) : text := match detail o with Some d => d | None => T "None" end.

(** What [subprocess.run] does: an exit code and the decoded streams, or an exception. *)
Inductive run_result :=
| Exited (returncode : Z) (stdout stderr : text)
| TimedOut
| NoExecutable
| RunRaises (c : exn_class).

(** ** The test run's excerpt *)

Definition RSeqs (l : list re) : re := foldr RSeq REps l.
Definition RText (s : string) : re := RSeqs (map RLit (utf8_decode s)).
Definition RWord (s : string) : re := RSeqs (map (fun c => RChr (fun d => bool_decide (d ∈ ci c))) (utf8_decode s)).

(** [_PYTEST_FAILURE_SUMMARY_RE] for one of its two kinds. *)
Definition failure_summary (kind : string) : re :=
  RSeqs [RStar RSpace; RText kind; RPlus RSpace; RChr (fun c => negb (is_space c))].

Definition _PYTEST_SHORT_SUMMARY_MARKER_RE : re :=
  RSeqs [RStar RSpace; RPlus (RLit 61); RPlus RSpace; RWord "short test summary info"; RPlus RSpace;
         RPlus (RLit 61); RStar RSpace].

Section Excerpt.
Context (alnum : Z -> bool) (environ : string -> option text).

(** [re.match], on a line. *)
Definition re_match (r : re) (line : text) : bool :=
  match ends alnum r (None, line) with [] => false | _ => true end.

(** [re.match] of a pattern that ends in [$], on a line. *)
Definition re_match_end (r : re) (line : text) : bool :=
  existsb (fun q => match q.2 with [] => true | _ => false end) (ends alnum r (None, line)).

(** The lines after the last one that satisfies [f]. *)
Fixpoint after_last (f : text -> bool) (lines : list text) : option (list text) :=
  match lines with
  | [] => None
  | l :: lines => match after_last f lines with
                  | Some rest => Some rest
                  | None => if f l then Some lines else None
                  end
  end.

Definition failure_line (line : text) : option (bool * text) :=
  if re_match (failure_summary "FAILED") line then Some (true, strip line)
  else if re_match (failure_summary "ERROR") line then Some (false, strip line)
  else None.

(** [_pytest_failure_lines]; [true] for [FAILED], [false] for [ERROR]. *)
Definition _pytest_failure_lines (stream : text) (after_short_summary_marker : bool) : list (bool * text) :=
  let lines := text_lines stream in
  if after_short_summary_marker
  then omap failure_line (default [] (after_last (re_match_end _PYTEST_SHORT_SUMMARY_MARKER_RE) lines))
  else omap failure_line lines.

Definition _preferred_pytest_failure_lines (found : list (bool * text)) : text :=
  let of_kind k := map snd (List.filter (fun m => Bool.eqb (fst m) k) found) in
  text_join [10] (match of_kind true with [] => of_kind false | failed => failed end).

Definition _select_test_failure_excerpt (stdout stderr : text) : text :=
  let redacted_stdout := _redacted_diagnostic alnum environ (Some stdout) in
  let redacted_stderr := _redacted_diagnostic alnum environ (Some stderr) in
  let found marker := flat_map (fun s => _pytest_failure_lines s marker) [redacted_stdout; redacted_stderr] in
  match found true with
  | _ :: _ => _preferred_pytest_failure_lines (found true)
  | [] =>
      match found false with
      | _ :: _ => _preferred_pytest_failure_lines (found false)
      | [] => match redacted_stderr with [] => redacted_stdout | _ => redacted_stderr end
      end
  end.
End Excerpt.

(** ** The checks *)

(** What a Stop sees of its surroundings. *)
Record surroundings := {
  alnum : Z -> bool;                                    (* the Unicode database *)
  repr : text -> text;                                  (* [repr] of a string *)
  exc_name : exn_class -> text;                         (* [type(exc).__name__] *)
  environ : string -> option text;
  forge_root : string;                                  (* of the store *)
  resolve : string -> res string;                       (* [expanduser().resolve()] *)
  is_dir : string -> bool;
  run_pytest : string -> Z -> run_result;               (* in a directory, with a timeout *)
  transcript : option (list Transcript.line);
  now_started : string;                                 (* the two calls of [now_iso] *)
  now_confirmed : string;
  now_utc : Z;                                          (* [datetime.now(UTC)], in microseconds *)
  fromisoformat : string -> res (Z * option Z) }.       (* local time and UTC offset *)

Section Checks.
Context (env : surroundings).

Definition bounded (s : text) : text := _bounded_diagnostic (alnum env) (environ env) (Some s).

Definition VERIFICATION_TYPES : list text := [T "completion_promise"; T "test_suite"].
Definition VERIFICATION_INCOMPLETE_MODES : list text := [T "block"; T "warn"; T "allow"].

Definition _legacy_config_outcome (ver : VerificationConfig) : option outcome_of_check :=
  if negb (bool_decide (type ver ∈ VERIFICATION_TYPES)) then
    Some (Outcome misconfigured (Some (bounded (T "Unknown legacy verification.type " ++ repr env (type ver)))))
  else if negb (bool_decide (on_incomplete ver ∈ VERIFICATION_INCOMPLETE_MODES)) then
    Some (Outcome misconfigured
      (Some (bounded (T "Unknown legacy verification.on_incomplete " ++ repr env (on_incomplete ver)))))
  else None.

Definition _check_completion_promise (ver : VerificationConfig) : res outcome_of_check :=
  match promise ver with
  | None => Ok (Outcome misconfigured (Some (T "completion_promise requires a non-empty promise")))
  | Some p =>
      if bool_decide (strip p = []) then
        Ok (Outcome misconfigured (Some (T "completion_promise requires a non-empty promise")))
      else if has_break p then
        Ok (Outcome misconfigured (Some (T "completion_promise must be a single line")))
      else match transcript env with
      | None => Ok (Outcome infrastructure_error (Some (T "verification transcript is unavailable")))
      | Some _ =>
          match _get_last_assistant_text_for_verification (transcript env) true with
          | Err e =>
              if is_exception (exn_cls e) then
                Ok (Outcome infrastructure_error
                  (Some (T "verification transcript could not be read (" ++ exc_name env (exn_cls e) ++ T ")")))
              else Err e
          | Ok last_text =>
              let found := match last_text with
                           | Some t => existsb (fun l => bool_decide (strip l = strip p)) (text_lines (utf8_decode t))
                           | None => false
                           end in
              Ok (if found then Outcome passed None
                  else Outcome incomplete (Some (bounded (T "Promise not found: " ++ p))))
          end
      end
  end.

Definition _check_test_suite (ver : VerificationConfig) (worktree : string) : res outcome_of_check :=
  if negb (is_dir env worktree) then
    Ok (Outcome infrastructure_error
      (Some (T "session worktree is unavailable: " ++ bounded (utf8_decode worktree))))
  else match run_pytest env worktree (test_timeout_seconds ver) with
  | Exited returncode stdout stderr =>
      if returncode =? 0 then Ok (Outcome passed None)
      else
        let diagnostic := _select_test_failure_excerpt (alnum env) (environ env) stdout stderr in
        let detail := T "Tests failed (exit " ++ str_of_Z returncode ++ T ")" in
        let detail := match diagnostic with [] => detail | _ => detail ++ T ": " ++ diagnostic end in
        Ok (Outcome incomplete (Some (bounded detail)))
  | TimedOut =>
      Ok (Outcome incomplete
        (Some (T "test_suite timeout after " ++ str_of_Z (test_timeout_seconds ver) ++ T " seconds")))
  | NoExecutable =>
      Ok (Outcome infrastructure_error (Some (T "uv executable was not found for test_suite verification")))
  | RunRaises c =>
      if is_exception c then
        Ok (Outcome infrastructure_error (Some (T "test_suite execution failed (" ++ exc_name env c ++ T ")")))
      else raise c ""
  end.

(** [_verification_worktree], of the manifest's [worktree.path]. *)
Definition _verification_worktree (worktree_path : option string) : res string :=
  if bool_decide (environ env "FORGE_SIDECAR" = Some (T "1")) then Ok (forge_root env)
  else match worktree_path with
       | Some path => resolve env path
       | None => Ok (forge_root env)
       end.

(** [parse_iso]: the instant in UTC; [astimezone] stays within the years 1 to 9999. *)
Definition parse_iso (s : string) : res Z :=
  let normalized := str_join "+00:00" (split_on "Z" s) in
  dt ← fromisoformat env normalized;
  match dt with
  | (_, None) => raise ValueError ("ISO8601 string must include timezone info, got naive datetime: '" +++ s +++ "'")
  | (t, Some offset) =>
      let utc := t - offset in
      if (-62135596800000000 <=? utc) && (utc <? 253402300800000000) then Ok utc
      else raise OverflowError "date value out of range"
  end.

(** [x > z]. *)
Definition float_gt_int (x : SpecFloat.spec_float) (z : Z) : bool :=
  match x with
  | SpecFloat.S754_zero _ => z <? 0
  | SpecFloat.S754_infinity s => negb s
  | SpecFloat.S754_nan => false
  | SpecFloat.S754_finite s m e =>
      let v := if s then Z.neg m else Z.pos m in
      if 0 <=? e then z <? v * 2 ^ e else z * 2 ^ (- e) <? v
  end.

(** [elapsed_minutes > max_minutes]. *)
Definition minutes_exceeded (started_at : string) (minutes : Z) : res bool :=
  start ← parse_iso started_at;
  let total_seconds := int_truediv (now_utc env - start) 1000000 in
  Ok (float_gt_int (float_div total_seconds (float_of_Z 60)) minutes).

End Checks.

(** ** The decision *)

Section Decision.

(** [SessionIntent] with dacite's [from_dict] and [asdict], and its [verification]. *)
Context {intent : Type} (from_dict : dict -> res intent) (asdict : intent -> dict)
  (verification_of : intent -> option VerificationConfig).

(** [SessionState], the fields the hook reads or writes; [rest] stands for the others. *)
Record SessionState := {
  config : @session_config intent;
  worktree_path : option string;
  verification : option VerificationConfirmed;          (* confirmed.verification *)
  confirmed_at : option string;
  confirmed_by : option string;
  rest : dict }.

(** The session's store and the lines written to stderr. *)
Record store := Store { stored : res SessionState; stderr_lines : list text }.

Context (env : surroundings).

(** [click.echo(..., err=True)]. *)
Definition echo (s : text) : M store unit := others (fun w => Store (stored w) (stderr_lines w ++ [s])).

(** [SessionStore.update]. *)
Definition update (mutate : SessionState -> res SessionState) : M store unit :=
  with_lock id (
    w ← get;
    s ← lift (stored w);
    s ← lift (mutate s);
    commit (fun w => Store (Ok s) (stderr_lines w))).

(** [_mutate]. *)
Definition record_outcome (result : text) (error : option text) (increment_iterations set_started_at auto_bypass : bool)
    (s : SessionState) : res SessionState :=
  let v := default new_confirmed (verification s) in
  let v := {|
    started_at := if set_started_at && bool_decide (started_at v = None) then Some (now_started env)
                  else started_at v;
    iterations := if increment_iterations then iterations v + 1 else iterations v;
    last_result := Some result;
    last_error := match _bounded_diagnostic (alnum env) (environ env) error with [] => None | e => Some e end |} in
  overrides ← (if auto_bypass then
                 match set_override (overrides_of (config s)) "verification.bypass" (VBool true) with
                 | (Tree o, Ok _) => Ok o
                 | (_, Err e) => Err e
                 | (Cyclic, Ok _) => raise ValueError "Circular reference detected"
                 end
               else Ok (overrides_of (config s)) : res dict);
  Ok {| config := {| intent_of := intent_of (config s); overrides_of := overrides |};
        worktree_path := worktree_path s; verification := Some v;
        confirmed_at := Some (now_confirmed env); confirmed_by := Some "hook:stop:verification";
        rest := rest s |}.

(** [_persist_verification]. *)
Definition _persist_verification (result : text) (error : option text)
    (increment_iterations set_started_at auto_bypass : bool) : M store bool :=
  r ← attempt (update (record_outcome result error increment_iterations set_started_at auto_bypass));
  match r with
  | Ok _ => mret true
  | Err e =>
      if is_exception (exn_cls e) then
        _ ← echo (T "[forge] Verification state persistence failed (" ++ exc_name env (exn_cls e) ++
                  T "); allowing Stop.");
        mret false
      else throw e
  end.

Definition allow : bool * option text := (true, None).

(** [_report_fail_open]. *)
Definition _report_fail_open (o : outcome_of_check) : M store (bool * option text) :=
  _ ← _persist_verification (status_text (result_status o)) (detail o) false false false;
  _ ← echo (T "Warning: Verification " ++ label (result_status o) ++ T " - " ++ detail_text o ++ T "; allowing Stop.");
  mret allow.

(** A limit is exceeded: the bypass is recorded and the Stop allowed. *)
Definition auto_bypass (result limit_name unit_name : text) (limit : Z) : M store (bool * option text) :=
  persisted ← _persist_verification result (Some (T "Exceeded " ++ str_of_Z limit ++ T " " ++ unit_name)) false false true;
  _ ← (if persisted : bool then
         echo (T "Verification auto-bypassed: exceeded " ++ limit_name ++ T " (" ++ str_of_Z limit ++ T ").")
       else mret tt);
  mret allow.

Definition escape_hatches : text :=
  T "Escape hatches:" ++ [10] ++ T "  - Type: %cancel-verification" ++ [10] ++
  T "  - Or run: forge session set verification.bypass true".

Definition block_message (ver : VerificationConfig) (check_error : text) : text :=
  match re_inject_prompt ver with
  | Some ((_ :: _) as prompt) => prompt
  | _ =>
      if bool_decide (type ver = T "test_suite") then
        T "Verification incomplete: tests did not pass." ++ [10] ++
        T "Error: " ++ check_error ++ [10; 10] ++
        T "Fix the failing tests and try again." ++ [10] ++ escape_hatches
      else
        T "Verification incomplete: expected completion promise not found." ++ [10] ++
        T "Expected: " ++ _bounded_diagnostic (alnum env) (environ env) (promise ver) ++ [10] ++
        T "(must appear on its own line in the assistant's response)" ++ [10; 10] ++
        T "Continue working and output the completion promise when done." ++ [10] ++ escape_hatches
  end.

(** The check the configuration asks for. *)
Definition run_check (s : SessionState) (ver : VerificationConfig) : res outcome_of_check :=
  if bool_decide (type ver = T "test_suite") then
    worktree ← _verification_worktree env (worktree_path s);
    _check_test_suite env ver worktree
  else _check_completion_promise env ver.

(** What an incomplete check leads to. *)
Definition on_incomplete_check (s : SessionState) (ver : VerificationConfig) (check_error : text)
  : M store (bool * option text) :=
  let current_iterations := match verification s with Some v => iterations v | None => 0 end in
  let started_at := match verification s with Some v => started_at v | None => None end in
  let block : M store (bool * option text) :=
    ok ← _persist_verification (T "incomplete") (Some check_error) true true false;
    mret (if ok : bool then (false, Some (block_message ver check_error)) else allow) in
  if bool_decide (on_incomplete ver = T "warn") then
    _ ← _persist_verification (T "incomplete") (Some check_error) false false false;
    _ ← echo (T "Warning: Verification incomplete - " ++ check_error);
    mret allow
  else if max_iterations ver <? current_iterations + 1 then
    auto_bypass (T "max_iterations") (T "max_iterations") (T "iterations") (max_iterations ver)
  else match max_minutes ver, started_at with
       | Some minutes, Some started_at =>
           match minutes_exceeded env started_at minutes with
           | Err e =>
               if is_exception (exn_cls e) then
                 _report_fail_open (Outcome infrastructure_error
                   (Some (T "verification timing state is unreadable (" ++ exc_name env (exn_cls e) ++ T ")")))
               else throw e
           | Ok true => auto_bypass (T "max_minutes") (T "max_minutes") (T "minutes") minutes
           | Ok false => block
           end
       | _, _ => block
       end.

(** [_run_verification_check], on the manifest the Stop hook has read. *)
Definition _run_verification_check (s : SessionState) : M store (bool * option text) :=
  match compute_effective_intent from_dict asdict (config s) true None with
  | Err e =>
      if is_exception (exn_cls e) then
        _ ← echo (T "[forge] Verification check could not compute effective intent (" ++ exc_name env (exn_cls e) ++
                  T "); allowing Stop.");
        mret allow
      else throw e
  | Ok effective =>
      match verification_of effective with
      | None => mret allow
      | Some ver =>
          match _legacy_config_outcome env ver with
          | Some legacy => _report_fail_open legacy
          | None =>
              if bypass ver || bool_decide (on_incomplete ver = T "allow") then mret allow
              else
                checked ← lift (run_check s ver);
                match result_status checked with
                | passed => _ ← _persist_verification (T "passed") None false false false; mret allow
                | incomplete =>
                    on_incomplete_check s ver
                      (match detail checked with
                       | Some ((_ :: _) as d) => d
                       | _ => T "verification did not pass"
                       end)
                | _ => _report_fail_open checked
                end
          end
      end
  end.

End Decision.

(** ** Lemmas: what a run does to the store *)

Section DecisionLemmas.
Context {intent : Type} (from_dict : dict -> res intent) (asdict : intent -> dict)
  (verification_of : intent -> option VerificationConfig) (env : surroundings).

Implicit Types (s : @SessionState intent) (w : @store intent).

(** Blocked Stops counted so far. *)
Definition blocked_count s : Z := match verification s with Some v => iterations v | None => 0 end.

(** The stored manifest is as before, or one outcome has been recorded in it; stderr only grows. *)
Definition kept w w' : Prop :=
  (stored w' = stored w \/
   exists s s' result error i st ab, stored w = Ok s /\ record_outcome env result error i st ab s = Ok s' /\
     stored w' = Ok s') /\
  stderr_lines w `prefix_of` stderr_lines w'.

Lemma kept_refl w : kept w w.
Proof. split; [by left|done]. Qed.

Lemma kept_printed w w' l : kept w w' -> kept w (Store (stored w') (stderr_lines w' ++ l)).
Proof. intros [H1 H2]. split; [done|]. by apply prefix_app_r. Qed.

Lemma wp_echo b t (Q : outcome unit -> store -> Prop) w :
  Q (Ret tt) (Store (stored w) (stderr_lines w ++ [t])) -> wp b (echo (intent := intent) t) Q w.
Proof. intros H. by apply wp_others. Qed.

Lemma wp_update b (mutate : SessionState -> res SessionState) (Q : outcome unit -> store -> Prop) w :
  (forall s s', stored w = Ok s -> mutate s = Ok s' -> Q (Ret tt) (Store (Ok s') (stderr_lines w))) ->
  ((b = true \/ forall s s', stored w = Ok s -> mutate s <> Ok s') -> forall e, Q (Raise e) w) ->
  (b = true -> Q Killed w /\
     forall s s', stored w = Ok s -> mutate s = Ok s' ->
       (forall e, Q (Raise e) (Store (Ok s') (stderr_lines w))) /\ Q Killed (Store (Ok s') (stderr_lines w))) ->
  wp b (update mutate) Q w.
Proof.
  intros Hok Hfail Hfault. apply wp_with_lock; cbn [id].
  - wp_step. wp_step. wp_step. apply wp_lift.
    + intros s Hs. wp_step. apply wp_lift.
      * intros s' Hs'. apply wp_commit.
        -- split; [by eapply Hok|]. intros Hb. destruct (Hfault Hb) as [_ H]. by eapply H.
        -- intros Hb. destruct (Hfault Hb) as [HK H]. destruct (H s s' Hs Hs') as [HR HK'].
           split_and!; try split; auto.
      * intros e He. split; [|intros Hb; split; [by intros e'; apply Hfail; left|by apply Hfault]].
        apply Hfail. right. congruence.
    + intros e He. split; [|intros Hb; split; [by intros e'; apply Hfail; left|by apply Hfault]].
      apply Hfail. right. congruence.
  - intros Hb. split_and!; try (by intros e; apply Hfail; left). by apply Hfault.
Qed.

Lemma wp_persist b result error i st ab (Q : outcome bool -> store -> Prop) w :
  (forall s s', stored w = Ok s -> record_outcome env result error i st ab s = Ok s' ->
     Q (Ret true) (Store (Ok s') (stderr_lines w))) ->
  (forall w', kept w w' ->
     (b = true \/ forall s s', stored w = Ok s -> record_outcome env result error i st ab s <> Ok s') ->
     Q (Ret false) w' /\ (forall e, Q (Raise e) w') /\ Q Killed w') ->
  wp b (_persist_verification env result error i st ab) Q w.
Proof.
  intros Hok Hfail. unfold _persist_verification.
  assert (forall w' e, kept w w' ->
            (b = true \/ forall s s', stored w = Ok s -> record_outcome env result error i st ab s <> Ok s') ->
            wp b (if is_exception (exn_cls e) then
                    _ ← echo (T "[forge] Verification state persistence failed (" ++ exc_name env (exn_cls e) ++
                              T "); allowing Stop.");
                    mret false
                  else throw e) Q w') as Hcatch.
  { intros w' e Hw' Hb. case_match.
    - wp_step. apply wp_echo. wp_step. by apply Hfail; [apply kept_printed|].
    - wp_step. by apply Hfail. }
  wp_step. wp_step. apply wp_update.
  - intros s s' Hs Hs'. wp_step. by eapply Hok.
  - intros Hb e. apply Hcatch; [apply kept_refl|done].
  - intros Hb. split; [apply Hfail; [apply kept_refl|by left]|]. intros s s' Hs Hs'.
    assert (kept w (Store (Ok s') (stderr_lines w))) as Hk.
    { split; [|done]. right. by exists s, s', result, error, i, st, ab. }
    split; [intros e; apply Hcatch; [done|by left]|]. apply Hfail; [done|by left].
Qed.

Lemma record_outcome_ok result error i st s : exists s', record_outcome env result error i st false s = Ok s'.
Proof. by eexists. Qed.

Lemma record_outcome_count result error i st ab s s' :
  record_outcome env result error i st ab s = Ok s' ->
  blocked_count s' = if i then blocked_count s + 1 else blocked_count s.
Proof.
  unfold record_outcome. intros H. res_inv H; unfold blocked_count; simpl; by destruct (verification s) as [v|], i.
Qed.

Lemma kept_count w w' s : kept w w' -> stored w = Ok s ->
  exists s', stored w' = Ok s' /\ blocked_count s <= blocked_count s'.
Proof.
  intros [[E|(s0 & s' & result & error & i & st & ab & Hs0 & Hr & Hs')] _] Hs.
  - exists s. by rewrite E.
  - exists s'. split; [done|]. apply record_outcome_count in Hr.
    assert (s0 = s) as -> by congruence. rewrite Hr. destruct i; lia.
Qed.

(** ** Lemmas: when a Stop is blocked *)

(** The time limit, if there is one and a block has been recorded, is not exceeded. *)
Definition in_time s (ver : VerificationConfig) : Prop :=
  forall minutes t, max_minutes ver = Some minutes -> verification s ≫= started_at = Some t ->
    minutes_exceeded env t minutes = Ok false.

(** [error] of an incomplete check. *)
Definition check_error (d : option text) : text :=
  match d with Some ((_ :: _) as d) => d | _ => T "verification did not pass" end.

(** The conditions under which a Stop may be blocked: the effective configuration is valid,
    not bypassed and in mode [block]; its check ran and is incomplete; the count of blocked
    Stops is below the limit and the time is not up. *)
Record may_block s (ver : VerificationConfig) (d : option text) : Prop := {
  mb_effective : exists i, compute_effective_intent from_dict asdict (config s) true None = Ok i /\
                           verification_of i = Some ver;
  mb_valid : _legacy_config_outcome env ver = None;
  mb_bypass : bypass ver = false;
  mb_mode : on_incomplete ver = T "block";
  mb_check : run_check env s ver = Ok (Outcome incomplete d);
  mb_count : blocked_count s < max_iterations ver;
  mb_time : in_time s ver }.

(** The block of a Stop is on record in the store. *)
Definition block_recorded w w' (d : option text) : Prop :=
  exists s0 s', stored w = Ok s0 /\
    record_outcome env (T "incomplete") (Some (check_error d)) true true false s0 = Ok s' /\
    w' = Store (Ok s') (stderr_lines w).

(** What a run may end with. *)
Definition sound s w (o : outcome (bool * option text)) w' : Prop :=
  kept w w' /\
  match o with
  | Ret (true, message) => message = None
  | Ret (false, message) =>
      exists ver d, may_block s ver d /\ message = Some (block_message env ver (check_error d)) /\ block_recorded w w' d
  | _ => True
  end.

Lemma sound_kept s w o w' : kept w w' -> (forall m, o <> Ret (false, m)) -> (forall m, o = Ret (true, m) -> m = None) ->
  sound s w o w'.
Proof. intros Hk Hf Ht. split; [done|]. destruct o as [[[] m]|e|]; [by apply Ht|by destruct (Hf m)|done..]. Qed.

(** A run that records an outcome, prints and allows. *)
Lemma wp_allow_after b s w result error i st ab (k : bool -> M store (bool * option text)) :
  (forall ok w', kept w w' -> wp b (k ok) (sound s w) w') ->
  wp b (ok ← _persist_verification env result error i st ab; k ok) (sound s w) w.
Proof.
  intros Hk. wp_step. apply wp_persist.
  - intros s0 s' Hs Hs'. apply Hk. split; [|done]. right. by exists s0, s', result, error, i, st, ab.
  - intros w' Hw' _. split_and!; [by apply Hk|by intros e; apply sound_kept|by apply sound_kept].
Qed.

Lemma wp_echo_allow b s w w' t : kept w w' -> wp b (_ ← echo t; mret allow) (sound s w) w'.
Proof.
  intros Hw'. wp_step. apply wp_echo. wp_step. apply sound_kept; [by apply kept_printed|done|by intros m [= <-]].
Qed.

Lemma wp_fail_open b s w o : wp b (_report_fail_open env o) (sound s w) w.
Proof. apply wp_allow_after. intros ok w' Hw'. by apply wp_echo_allow. Qed.

Lemma wp_auto_bypass b s w result name unit limit : wp b (auto_bypass env result name unit limit) (sound s w) w.
Proof.
  apply wp_allow_after. intros [] w' Hw'; [by apply wp_echo_allow|].
  wp_step. wp_step. wp_step. apply sound_kept; [done|done|by intros m [= <-]].
Qed.

Lemma mode_block ver : _legacy_config_outcome env ver = None -> bool_decide (on_incomplete ver = T "allow") = false ->
  bool_decide (on_incomplete ver = T "warn") = false -> on_incomplete ver = T "block".
Proof.
  unfold _legacy_config_outcome. case_match; [done|]. case_match eqn:Hmode; [done|]. intros _ Ha Hw.
  apply negb_false_iff, bool_decide_eq_true in Hmode. apply bool_decide_eq_false in Ha, Hw.
  unfold VERIFICATION_INCOMPLETE_MODES in Hmode. set_solver.
Qed.

Lemma wp_block b s w ver d : may_block s ver d ->
  wp b (ok ← _persist_verification env (T "incomplete") (Some (check_error d)) true true false;
        mret (if ok : bool then (false, Some (block_message env ver (check_error d))) else allow)) (sound s w) w.
Proof.
  intros Hmay. wp_step. apply wp_persist.
  - intros s0 s' Hs Hs'. wp_step. split.
    + split; [|done]. right. by exists s0, s', (T "incomplete"), (Some (check_error d)), true, true, false.
    + exists ver, d. split_and!; [done|done|]. by exists s0, s'.
  - intros w' Hw' _. split_and!; [|by intros e; apply sound_kept|by apply sound_kept].
    wp_step. apply sound_kept; [done|done|by intros m [= <-]].
Qed.

Lemma wp_on_incomplete b s w ver d :
  (exists i, compute_effective_intent from_dict asdict (config s) true None = Ok i /\ verification_of i = Some ver) ->
  _legacy_config_outcome env ver = None -> bypass ver = false ->
  bool_decide (on_incomplete ver = T "allow") = false -> run_check env s ver = Ok (Outcome incomplete d) ->
  wp b (on_incomplete_check env s ver (check_error d)) (sound s w) w.
Proof.
  intros Heff Hlegacy Hbypass Hmode Hcheck. unfold on_incomplete_check.
  destruct (bool_decide (on_incomplete ver = T "warn")) eqn:Hwarn.
  { apply wp_allow_after. intros ok w' Hw'. by apply wp_echo_allow. }
  destruct (max_iterations ver <? _) eqn:Hcount; [apply wp_auto_bypass|].
  assert (in_time s ver -> may_block s ver d) as Hmay.
  { intros Htime. split; try done; [by apply mode_block|]. unfold blocked_count in *. lia. }
  unfold in_time in Hmay.
  destruct (max_minutes ver) as [minutes|]; [|apply wp_block, Hmay; by intros ? ?].
  destruct (verification s) as [[[t|] its lr le]|]; simpl in Hmay |- *;
    [|apply wp_block, Hmay; by intros ? ?..].
  destruct (minutes_exceeded env t minutes) as [[]|e] eqn:Hm.
  - apply wp_auto_bypass.
  - apply wp_block, Hmay. by intros ? ? [= <-] [= <-].
  - case_match; [apply wp_fail_open|]. wp_step. by apply sound_kept; [apply kept_refl|..].
Qed.

Lemma run_sound b s w : wp b (_run_verification_check from_dict asdict verification_of env s) (sound s w) w.
Proof.
  assert (forall o, (forall m, o <> Ret (false, m)) -> (forall m, o = Ret (true, m) -> m = None) -> sound s w o w) as Hid.
  { intros o. apply sound_kept, kept_refl. }
  assert (wp b (mret allow) (sound s w) w) as Hallow.
  { wp_step. apply Hid; [done|by intros m [= <-]]. }
  unfold _run_verification_check.
  destruct (compute_effective_intent _ _ _ _ _) as [i|e] eqn:Heff.
  2: { case_match; [apply wp_echo_allow, kept_refl|]. wp_step. by apply Hid. }
  destruct (verification_of i) as [ver|] eqn:Hver; [|done].
  destruct (_legacy_config_outcome env ver) as [legacy|] eqn:Hlegacy; [apply wp_fail_open|].
  destruct (bypass ver) eqn:Hbypass; simpl; [done|].
  destruct (bool_decide (on_incomplete ver = T "allow")) eqn:Hmode; [done|].
  wp_step. apply wp_lift; [|by intros e _; apply Hid].
  intros [st d] Hcheck. destruct st; cbn [result_status].
  - apply (wp_allow_after b s w (T "passed") None false false false (fun _ => mret allow)).
    intros ok w' Hw'. wp_step. apply sound_kept; [done|done|by intros m [= <-]].
  - apply (wp_on_incomplete b s w ver d); eauto.
  - apply wp_fail_open.
  - apply wp_fail_open.
Qed.

(** Conversely, without faults the conditions do block. *)
Lemma run_blocks s s0 ver d w : may_block s ver d -> stored w = Ok s0 ->
  wp false (_run_verification_check from_dict asdict verification_of env s)
    (fun o w' => o = Ret (false, Some (block_message env ver (check_error d))) /\ block_recorded w w' d) w.
Proof.
  intros [(i & Heff & Hver) Hlegacy Hbypass Hmode Hcheck Hcount Htime] Hs0.
  assert (wp false (ok ← _persist_verification env (T "incomplete") (Some (check_error d)) true true false;
            mret (if ok : bool then (false, Some (block_message env ver (check_error d))) else allow))
          (fun o w' => o = Ret (false, Some (block_message env ver (check_error d))) /\ block_recorded w w' d) w) as Hblock.
  { wp_step. apply wp_persist.
    - intros s1 s' Hs1 Hs'. wp_step. split; [done|]. by exists s1, s'.
    - intros w' _ [?|Hno]; [done|].
      destruct (record_outcome_ok (T "incomplete") (Some (check_error d)) true true s0) as [s' Hs'].
      by destruct (Hno s0 s'). }
  unfold _run_verification_check. rewrite Heff, Hver, Hlegacy, Hbypass, Hmode. cbn [orb].
  rewrite bool_decide_eq_false_2 by done. wp_step. rewrite Hcheck. wp_step. cbn [result_status].
  unfold on_incomplete_check. rewrite Hmode, bool_decide_eq_false_2 by done.
  fold (blocked_count s). rewrite (proj2 (Z.ltb_ge _ _)) by lia.
  unfold in_time in Htime. destruct (max_minutes ver) as [minutes|]; [|apply Hblock].
  destruct (verification s) as [[[t|] its lr le]|]; simpl in Htime |- *; [|apply Hblock..].
  rewrite (Htime minutes t eq_refl eq_refl). apply Hblock.
Qed.

End DecisionLemmas.

(** ** A session's Stops *)

Section Stops.
Context {intent : Type} (from_dict : dict -> res intent) (asdict : intent -> dict)
  (verification_of : intent -> option VerificationConfig).

(** One Stop: what other processes did to the store before it and do between its read of the
    manifest and its update, the faults of its durable steps, and the manifest read earlier,
    used when the last read fails. *)
Record stop := {
  before : @store intent -> @store intent;
  during : @store intent -> @store intent;
  surrounding : surroundings;
  faults : list fault;
  read_before : @SessionState intent }.

Definition stop_once (ev : stop) (w : store) : outcome (bool * option text) * store :=
  let w := before ev w in
  let s := match stored w with Ok s => s | Err _ => read_before ev end in
  let '(o, _, w) :=
    _run_verification_check from_dict asdict verification_of (surrounding ev) s (faults ev) (during ev w) in
  (o, w).

Definition is_block (o : outcome (bool * option text)) : bool :=
  match o with Ret (false, _) => true | _ => false end.

(** The Stops of a history that are blocked. *)
Fixpoint blocked_stops (h : list stop) (w : store) : nat :=
  match h with
  | [] => 0
  | ev :: h => let '(o, w) := stop_once ev w in
               ((if is_block o then 1 else 0) + blocked_stops h w)%nat
  end.

(** The overrides have no duplicate keys, and the limit is at most [N] unless bypassed. *)
Definition limited (N : Z) (s : @SessionState intent) : Prop :=
  wf_value (VDict (overrides_of (config s))) /\
  forall i ver, compute_effective_intent from_dict asdict (config s) true None = Ok i ->
    verification_of i = Some ver -> bypass ver = false -> max_iterations ver <= N.

(** Others may change the manifest in any way that keeps it readable, does not lower the
    count of blocked Stops, and does not raise the effective limit above [N]. *)
Definition keeps (N : Z) (f : @store intent -> @store intent) : Prop :=
  forall w s, stored w = Ok s -> limited N s ->
    exists s', stored (f w) = Ok s' /\ blocked_count s <= blocked_count s' /\ limited N s'.

(** The decoder reads the bypass flag where it is. *)
Definition decodes_bypass : Prop :=
  forall d i ver b, from_dict d = Ok i -> verification_of i = Some ver ->
    path_get (VDict d) ["verification"; "bypass"] = Some (VBool b) -> bypass ver = b.

Lemma compute_effective_ok st i :
  compute_effective_intent from_dict asdict st true None = Ok i -> from_dict (merged asdict st) = Ok i.
Proof. unfold compute_effective_intent. destruct (from_dict _); [done|]. by case_match. Qed.

Lemma merged_bypassed (i : intent) o : wf_value (VDict o) ->
  path_get (VDict (merged asdict {| intent_of := i; overrides_of := _set_path o ["verification"; "bypass"] (VBool true) |}))
    ["verification"; "bypass"] = Some (VBool true).
Proof.
  intros Hwf. set (o' := _set_path o _ _).
  assert (path_get (VDict o') ["verification"; "bypass"] = Some (VBool true)) as Hp by by apply path_get_set_eq.
  assert (wf_value (VDict o')) as Hwf' by by apply wf_set_path.
  unfold merged. cbn [overrides_of intent_of]. destruct o' as [|x o'']; [done|].
  pose proof (effective_at_merge (asdict i) (x :: o'') ["verification"; "bypass"] Hwf') as H.
  rewrite Hp in H. unfold effective_at in H. by rewrite H.
Qed.

Lemma set_bypass o :
  set_override o "verification.bypass" (VBool true) = (Tree (_set_path o ["verification"; "bypass"] (VBool true)), Ok tt).
Proof. vm_compute. reflexivity. Qed.

Lemma record_limited env N result error j st ab s s' : decodes_bypass -> limited N s ->
  record_outcome env result error j st ab s = Ok s' -> limited N s'.
Proof.
  intros Hdec [Hwf Hlim] Hr. unfold record_outcome in Hr. destruct ab.
  - rewrite set_bypass, res_bind_ok in Hr.
    injection Hr as <-. unfold limited. cbn [config overrides_of].
    split; [by apply (wf_set_path _ ["verification"; "bypass"] (VBool true))|].
    intros i ver Hi%compute_effective_ok Hver Hb.
    pose proof (Hdec _ i ver true Hi Hver (merged_bypassed _ _ Hwf)). congruence.
  - injection Hr as <-. split; cbn [config overrides_of]; [done|]. by destruct (config s).
Qed.

Lemma stop_once_count N ev w s : decodes_bypass -> keeps N (before ev) -> keeps N (during ev) ->
  stored w = Ok s -> limited N s ->
  exists s', stored (stop_once ev w).2 = Ok s' /\ limited N s' /\
    blocked_count s + (if is_block (stop_once ev w).1 then 1 else 0) <= blocked_count s' /\
    (is_block (stop_once ev w).1 = true -> blocked_count s < N).
Proof.
  intros Hdec Hb Hd Hs Hl. destruct (Hb w s Hs Hl) as (s1 & Hs1 & Hle1 & Hl1).
  destruct (Hd _ _ Hs1 Hl1) as (s2 & Hs2 & Hle2 & Hl2). unfold stop_once. rewrite Hs1.
  pose proof (wp_weaken _ _ _ (run_sound from_dict asdict verification_of (surrounding ev) true s1 (during ev (before ev w)))
                (faults ev)) as H.
  destruct (_run_verification_check _ _ _ _ _ _ _) as [[o fs] w']. destruct H as [Hkept H]. cbn [fst snd].
  destruct (kept_count _ _ _ _ Hkept Hs2) as (s' & Hs' & Hle). exists s'. split; [done|]. split.
  { destruct Hkept as [[E|(s0 & s'' & result & error & j & st & ab & Hs0 & Hr & Hs'')] _]; [congruence|].
    assert (s0 = s2) as -> by congruence. assert (s'' = s') as -> by congruence. by eapply record_limited. }
  destruct o as [[[] m]|e|]; cbn [is_block]; try (split; [lia|done]).
  destruct H as (ver & d & Hmay & _ & s0 & s'' & Hs0 & Hr & ->). apply record_outcome_count in Hr.
  assert (s0 = s2) as -> by congruence. cbn [stored] in Hs'. assert (s'' = s') as -> by congruence.
  destruct Hmay as [(i & Heff & Hver) _ Hbypass _ _ Hcount _].
  pose proof (proj2 Hl1 i ver Heff Hver Hbypass). split; [|intros _]; lia.
Qed.

(** C11: The verification loop ends. Over any history of Stops of a session, whatever the
    check answers, whatever faults hit the recording of its outcomes and whatever other
    processes do to the manifest short of lowering its count or raising the limit above [N],
    at most [N] Stops are blocked, less those already counted. The only assumption on the
    decoder is that it reads [verification.bypass] where the configuration has it. *)
Theorem verification_loop_terminates (N : Z) (h : list stop) (w : store) s :
  decodes_bypass -> stored w = Ok s -> limited N s ->
  Forall (fun ev => keeps N (before ev) /\ keeps N (during ev)) h ->
  Z.of_nat (blocked_stops h w) <= Z.max 0 (N - blocked_count s).
Proof.
  intros Hdec Hs Hl Hh. revert w s Hs Hl. induction Hh as [|ev h [Hb Hd] _ IH]; intros w s Hs Hl; [simpl; lia|].
  destruct (stop_once_count N ev w s Hdec Hb Hd Hs Hl) as (s' & Hs' & Hl' & Hle & Hlt). cbn [blocked_stops].
  destruct (stop_once ev w) as [o w']. simpl in Hs', Hle, Hlt. specialize (IH w' s' Hs' Hl').
  destruct (is_block o); [specialize (Hlt eq_refl)|]; lia.
Qed.

(** C12: A Stop is held back exactly when it should be. Whatever faults occur, a Stop is
    blocked only if the effective configuration is valid, in mode [block] and not bypassed,
    its check ran and is incomplete, both limits leave room, and the block has been counted
    in the stored manifest; without faults, and with a readable manifest, these conditions
    do block it, with the message for that check. *)
Theorem stop_blocked_iff (env : surroundings) (s : @SessionState intent) (w : store) :
  (forall fs message, (_run_verification_check from_dict asdict verification_of env s fs w).1.1 = Ret (false, message) ->
     exists ver d, may_block from_dict asdict verification_of env s ver d /\
       message = Some (block_message env ver (check_error d)) /\
       block_recorded env w (_run_verification_check from_dict asdict verification_of env s fs w).2 d) /\
  (forall s0 ver d, stored w = Ok s0 -> may_block from_dict asdict verification_of env s ver d ->
     (run (_run_verification_check from_dict asdict verification_of env s) w).1
       = Ret (false, Some (block_message env ver (check_error d)))).
Proof.
  split.
  - intros fs message Hrun. pose proof (wp_weaken _ _ _ (run_sound from_dict asdict verification_of env true s w) fs) as H.
    destruct (_run_verification_check _ _ _ _ _ _ _) as [[o fs'] w']. simpl in Hrun. subst o. by destruct H.
  - intros s0 ver d Hs0 Hmay. pose proof (wp_run _ _ _ (run_blocks from_dict asdict verification_of env s s0 ver d w Hmay Hs0)) as H.
    apply H.
Qed.

End Stops.

(** ** A check that cannot be made *)

Section FailOpen.
Context {intent : Type} (from_dict : dict -> res intent) (asdict : intent -> dict)
  (verification_of : intent -> option VerificationConfig) (env : surroundings).

(** The effective configuration is one the hook does not know, or its check reports that it
    is misconfigured or could not run. *)
Definition unusable (s : @SessionState intent) (o : outcome_of_check) : Prop :=
  exists i ver, compute_effective_intent from_dict asdict (config s) true None = Ok i /\ verification_of i = Some ver /\
    (_legacy_config_outcome env ver = Some o \/
     _legacy_config_outcome env ver = None /\ bypass ver = false /\ on_incomplete ver <> T "allow" /\
     run_check env s ver = Ok o /\ (result_status o = misconfigured \/ result_status o = infrastructure_error)).

Definition warning (o : outcome_of_check) : text :=
  T "Warning: Verification " ++ label (result_status o) ++ T " - " ++ detail_text o ++ T "; allowing Stop.".

Lemma wp_warns b o (w : @store intent) :
  wp b (_report_fail_open env o)
    (fun r w' => forall a, r = Ret a -> a = allow /\ exists l, stderr_lines w' = stderr_lines w ++ l ++ [warning o]) w.
Proof.
  assert (forall w' : @store intent, stderr_lines w `prefix_of` stderr_lines w' ->
            wp b (_ ← echo (warning o); mret allow)
              (fun r w' => forall a, r = Ret a -> a = allow /\ exists l, stderr_lines w' = stderr_lines w ++ l ++ [warning o]) w')
    as Hwarn.
  { intros w' [l Hl]. wp_step. apply wp_echo. wp_step. intros a [= <-]. split; [done|]. exists l. simpl.
    by rewrite Hl, app_assoc. }
  unfold _report_fail_open. wp_step. apply wp_persist.
  - intros s s' _ _. by apply Hwarn.
  - intros w' [_ Hw'] _. split_and!; [by apply Hwarn|done|done].
Qed.

(** A verification that cannot be made never holds a session, and never passes in
    silence. With an unknown type or mode, a promise that is empty or spans lines, a
    transcript that cannot be read, a missing worktree or executable, or a test run that
    raises, the Stop is not blocked whatever faults occur, and when the hook returns, the
    last line on stderr is the warning that says what is wrong. *)
Theorem unusable_check_fails_open (s : @SessionState intent) (w : store) (o : outcome_of_check) (fs : list fault) :
  unusable s o ->
  let '(r, _, w') := _run_verification_check from_dict asdict verification_of env s fs w in
  forall a, r = Ret a -> a = allow /\ exists l, stderr_lines w' = stderr_lines w ++ l ++ [warning o].
Proof.
  intros (i & ver & Heff & Hver & Hu). apply (wp_weaken _
    (fun r w' => forall a, r = Ret a -> a = allow /\ exists l, stderr_lines w' = stderr_lines w ++ l ++ [warning o])).
  unfold _run_verification_check. rewrite Heff, Hver.
  destruct Hu as [->|(-> & -> & Hmode & Hcheck & Hst)]; [apply wp_warns|].
  cbn [orb]. rewrite bool_decide_eq_false_2 by done. wp_step. rewrite Hcheck. wp_step.
  destruct o as [st d]. cbn [result_status] in *. destruct Hst as [-> | ->]; apply wp_warns.
Qed.

End FailOpen.

(** ** The completion promise *)

(** A line that raises nothing: blank, not JSON, or a JSON object. *)
Definition readable (l : Transcript.line) : Prop :=
  match l with LJson (VDict _) | LBlank | LBadJson => True | _ => False end.

(** The assistant messages of a transcript, with their timestamps, in file order. *)
Definition messages (ls : list Transcript.line) : list (string * string) :=
  omap (fun l => match l with LJson (VDict entry) => entry_text entry | _ => None end) ls.

(** [m] has the greatest timestamp, and is the last with that timestamp. *)
Definition is_latest (m : string * string) (ms : list (string * string)) : Prop :=
  exists l1 l2, ms = l1 ++ m :: l2 /\
    Forall (fun m' => str_le m'.1 m.1) l1 /\ Forall (fun m' => ~ str_le m.1 m'.1) l2.

Lemma is_latest_unique m m' ms : is_latest m ms -> is_latest m' ms -> m = m'.
Proof.
  intros (l1 & l2 & -> & H1 & H2) (l1' & l2' & E & H1' & H2').
  apply app_eq_inv in E as [([|x k] & -> & Ek)|([|x k] & -> & Ek)]; simplify_eq/=; try done.
  - apply Forall_app in H1 as [_ [Hx _]%Forall_cons]. by apply Forall_app in H2' as [_ [Hy _]%Forall_cons].
  - apply Forall_app in H1' as [_ [Hx _]%Forall_cons]. by apply Forall_app in H2 as [_ [Hy _]%Forall_cons].
Qed.

Lemma latest_from_readable ls latest : Forall readable ls ->
  latest_from latest ls = (foldl keep_latest latest (messages ls), None).
Proof.
  intros Hls. revert latest. induction Hls as [|l ls Hl Hls IH]; intros latest; [done|].
  destruct l as [| |v|e]; simpl; try done; [apply IH..|]. destruct v as [| | | | | |entry]; try done.
  rewrite IH. unfold messages. simpl. by destruct (entry_text entry).
Qed.

Lemma str_le_empty s : str_le "" s = true.
Proof. by destruct s. Qed.

(** The message kept so far, the empty text and timestamp standing for none. *)
Definition kept_latest (ms : list (string * string)) (latest : string * option string) : Prop :=
  match snd latest with
  | Some t => is_latest (fst latest, t) ms
  | None => ms = [] /\ fst latest = ""
  end.

Lemma keep_latest_step ms latest c : kept_latest ms latest -> kept_latest (ms ++ [c]) (keep_latest latest c).
Proof.
  unfold keep_latest. destruct c as [ts text], latest as [ts0 [t0|]]; unfold kept_latest; cbn [fst snd].
  - intros (l1 & l2 & -> & H1 & H2). destruct (str_le ts0 ts) eqn:Hle; cbn [fst snd].
    + exists (l1 ++ (ts0, t0) :: l2), []. split_and!; [done| |done]. apply Is_true_eq_left in Hle.
      apply Forall_app. split; [eapply Forall_impl; [exact H1|]; intros m Hm; cbn [fst] in *; by trans ts0|].
      apply Forall_cons. split; [done|]. eapply Forall_impl; [exact H2|]. intros m Hm. cbn [fst] in *.
      destruct (total str_le ts0 m.1); [done|by trans ts0].
    + exists l1, (l2 ++ [(ts, text)]). split_and!; [by rewrite <- app_assoc|done|].
      apply Forall_app. split; [done|]. apply Forall_singleton. cbn [fst]. rewrite Hle. by intros [].
  - intros [-> ->]. rewrite str_le_empty. cbn [fst snd]. by exists [], [].
Qed.

Lemma latest_message ls : Forall readable ls ->
  exists latest, _get_last_assistant_text_for_verification (Some ls) true = Ok (snd latest) /\
    kept_latest (messages ls) latest.
Proof.
  intros Hls. unfold _get_last_assistant_text_for_verification. rewrite latest_from_readable by done.
  exists (foldl keep_latest ("", None) (messages ls)). split; [done|].
  induction (messages ls) as [|c ms IH] using rev_ind; [done|]. rewrite foldl_app. by apply keep_latest_step.
Qed.

(** A completion promise is a line of the last assistant message. On a transcript whose
    lines raise nothing, the check of a well-formed promise passes exactly when the text of
    the message with the greatest timestamp (the last such one in the file), in either
    transcript format, has a line equal to the promise up to surrounding white space; it is
    incomplete otherwise, also when there is no assistant message. *)
Theorem promise_check_correct (env : surroundings) (ver : VerificationConfig) (p : text) (ls : list Transcript.line) :
  promise ver = Some p -> strip p <> [] -> has_break p = false ->
  transcript env = Some ls -> Forall readable ls ->
  exists o, _check_completion_promise env ver = Ok o /\
    (result_status o = passed <->
       exists m l, is_latest m (messages ls) /\ l ∈ text_lines (utf8_decode m.2) /\ strip l = strip p) /\
    (result_status o = passed \/ result_status o = incomplete).
Proof.
  intros Hp Hne Hline Hf Hls. unfold _check_completion_promise.
  rewrite Hp, bool_decide_eq_false_2, Hline, Hf by done.
  destruct (latest_message ls Hls) as ([ts latest] & -> & Hk). unfold kept_latest in Hk. cbn [fst snd] in *.
  eexists. split; [reflexivity|]. destruct latest as [t|].
  - destruct (existsb _ _) eqn:Hfound; cbn [result_status]; (split; [|by auto]).
    + split; [intros _|done]. apply existsb_exists in Hfound as (l & Hl & Heq%bool_decide_eq_true).
      exists (ts, t), l. by rewrite list_elem_of_In.
    + split; [done|]. intros (m & l & Hm & Hl & Heq). rewrite <- (is_latest_unique _ _ _ Hk Hm) in Hl.
      apply not_true_iff_false in Hfound. destruct Hfound. apply existsb_exists. exists l.
      by rewrite <- list_elem_of_In, bool_decide_eq_true.
  - destruct Hk as [Hms _]. cbn [result_status]. split; [|by auto]. split; [done|].
    intros (m & l & (l1 & l2 & E & _) & _). rewrite Hms in E. by destruct l1.
Qed.

Module VerificationSample.

Definition text_field (k : string) (d : dict) : option text :=
  match dgetv k d with VStr s => Some (T s) | _ => None end.

(** A decoder for the fields of [verification] the sample sets. *)
Definition verification_of (intent : dict) : option VerificationConfig :=
  match dgetv "verification" intent with
  | VDict v => Some {|
      type := default (T "completion_promise") (text_field "type" v); promise := text_field "promise" v;
      max_iterations := match dgetv "max_iterations" v with VInt z => z | _ => 50 end; max_minutes := None;
      bypass := truthy (dgetv "bypass" v); on_incomplete := T "block"; re_inject_prompt := None;
      test_timeout_seconds := 300 |}
  | _ => None
  end.

Definition intent : dict := [("verification", VDict [("promise", VStr "ALL DONE"); ("max_iterations", VInt 2)])].

Definition session : @SessionState dict :=
  {| config := {| intent_of := intent; overrides_of := [] |}; worktree_path := None; verification := None;
     confirmed_at := None; confirmed_by := None; rest := [] |}.

Definition message (ts s : string) : Transcript.line :=
  LJson (VDict [("timestamp", VStr ts);
                ("message", VDict [("role", VStr "assistant"); ("content", VList [VDict [("text", VStr s)]])])]).

Definition lines : list Transcript.line := [message "2" "  ALL DONE "; LBadJson; message "1" "more to do"].

Definition env (ls : list Transcript.line) : surroundings :=
  {| alnum _ := false; repr s := s; exc_name _ := T "Error"; environ _ := None; forge_root := "/p";
     resolve p := Ok p; is_dir _ := true; run_pytest _ _ := NoExecutable; transcript := Some ls;
     now_started := "2026-01-01T00:00:00+00:00"; now_confirmed := "2026-01-01T00:00:00+00:00"; now_utc := 0;
     fromisoformat _ := raise ValueError "" |}.

(** The hook on the sample's decoder, and a Stop of a session nobody else touches. *)
Definition decode (d : dict) : res dict := Ok d.

Definition quiet_stop (fs : list fault) : @stop dict :=
  {| before := id; during := id; surrounding := env [message "1" "more to do"]; faults := fs; read_before := session |}.

Definition w0 : @store dict := Store (Ok session) [].

(** The third of these Stops cannot record its block; the fifth exceeds the limit. *)
Definition history : list (@stop dict) :=
  [quiet_stop []; quiet_stop [NoFault; Before (PyExn OSError "disk full")]; quiet_stop []; quiet_stop []].

Example history_blocked : blocked_stops decode id verification_of history w0 = 2%nat.
Proof. vm_compute. reflexivity. Qed.

Lemma id_keeps N : keeps decode id verification_of N id.
Proof. intros w s Hs Hl. by exists s. Qed.

Lemma decode_bypass : decodes_bypass decode verification_of.
Proof.
  intros d i ver b [= <-] Hver Hp. unfold verification_of in Hver. simpl in Hp. unfold dgetv, dget_default in *.
  destruct (dget "verification" d) as [[| | | | | |v]|]; simplify_eq/=. unfold dgetv, dget_default.
  destruct (dget "bypass" v); by simplify_eq/=.
Qed.

Lemma session_limited : limited decode id verification_of 2 session.
Proof. split; [by repeat constructor|]. intros i ver [= <-] [= <-] _. vm_compute. discriminate. Qed.

Lemma verification_loop_terminates_witness : Z.of_nat (blocked_stops decode id verification_of history w0) <= 2.
Proof.
  apply (verification_loop_terminates decode id verification_of 2 history w0 session);
    [apply decode_bypass|reflexivity|apply session_limited|].
  repeat (apply Forall_cons; split; [by split; apply id_keeps|]). apply Forall_nil. exact I.
Defined.

Definition sample_config : VerificationConfig :=
  {| type := T "completion_promise"; promise := Some (T "ALL DONE"); max_iterations := 2; max_minutes := None;
     bypass := false; on_incomplete := T "block"; re_inject_prompt := None; test_timeout_seconds := 300 |}.

Definition todo : surroundings := env [message "1" "more to do"].

Definition not_found : option text := Some (T "Promise not found: ALL DONE").

Lemma session_may_block : may_block decode id verification_of todo session sample_config not_found.
Proof.
  split; [exists intent; split; reflexivity|reflexivity|reflexivity|reflexivity|vm_compute; reflexivity|reflexivity|].
  intros minutes t Hm. discriminate Hm.
Qed.

Lemma stop_blocked_iff_witness :
  (run (_run_verification_check decode id verification_of todo session) w0).1
  = Ret (false, Some (block_message todo sample_config (check_error not_found))).
Proof.
  destruct (stop_blocked_iff decode id verification_of todo session w0) as [_ H].
  exact (H session sample_config not_found eq_refl session_may_block).
Defined.

Definition legacy_session : @SessionState dict :=
  {| config := {| intent_of := intent; overrides_of := [("verification", VDict [("type", VStr "manual")])] |};
     worktree_path := None; verification := None; confirmed_at := None; confirmed_by := None; rest := [] |}.

Definition unknown_type : outcome_of_check :=
  Outcome misconfigured (Some (T "Unknown legacy verification.type manual")).

Example legacy_allowed :
  run (_run_verification_check decode id verification_of (env []) legacy_session) w0
  = (Ret allow, Store (Ok (match stored (run (_run_verification_check decode id verification_of (env []) legacy_session) w0).2 with
                           | Ok s => s | Err _ => session end)) [warning unknown_type]).
Proof. vm_compute. reflexivity. Qed.

Lemma unusable_check_fails_open_witness :
  let '(r, _, w) := _run_verification_check decode id verification_of (env []) legacy_session [] w0 in
  forall a, r = Ret a -> a = allow /\ exists l, stderr_lines w = l ++ [warning unknown_type].
Proof.
  apply (unusable_check_fails_open decode id verification_of (env []) legacy_session w0 unknown_type []).
  eexists _, _. split; [reflexivity|]. split; [reflexivity|]. left. vm_compute. reflexivity.
Defined.

Lemma promise_check_correct_witness :
  exists o, _check_completion_promise (env lines) sample_config = Ok o /\ result_status o = passed.
Proof.
  destruct (promise_check_correct (env lines) sample_config (T "ALL DONE") lines) as (o & Ho & Hpass & _);
    [reflexivity|discriminate|reflexivity|reflexivity|by repeat constructor|].
  exists o. split; [exact Ho|]. apply Hpass. exists ("2", "  ALL DONE "), (T "  ALL DONE ").
  split; [|split; [left; reflexivity|reflexivity]].
  exists [], [("1", "more to do")]. split; [reflexivity|]. split; [constructor|]. repeat constructor. intros [].
Defined.

End VerificationSample.
